(* ===== verification/_CoqProject ===== *)
-Q . S2P
Prelude.v
JsNum.v
JsString.v
NumText.v
FfmpegOptions.v
AuthHelpers.v
EventStream.v
AnnotationEditor.v
BrowseTree.v
LevelGraph.v
EncoderTemplates.v
MonitorLink.v
MonitorStream.v
MontageSearch.v
MontageReview.v
MontagePage.v
MontageWall.v
WatchPage.v
WatchView.v
WatchTour.v
ZmsHints.v
EventPage.v
ZoneForm.v
ZoneObjectSize.v
MonitorFit.v
LogPanel.v
FilterForm.v
MonitorForm.v
MonitorFormSafe.v
MonitorFormSave.v
