(* ===== verification/Prelude.v ===== *)
(** A verification of the browser side of ZoneMinder: the state machines and the
    algorithms of the web interface's JavaScript (web/js and
    web/skins/classic/views/js), as executable definitions and theorems about
    them.

    * The program and the files here

    The server records events and streams them through a process called zms; the
    pages are plain scripts that keep streams alive, look events and frames up,
    and edit zones, monitors and training data.  The parts modelled, from the
    ground up:

    - [Prelude] (this file): record update, case analysis, the hint database
      [js], generic list lemmas.
    - [JsNum]: the language's numbers, IEEE-754 binary64 as rationals rounded to
      nearest even, with the order and monotonicity facts the components use.
    - [JsString]: the language's strings, parseInt/parseFloat, Number and String
      conversions, the untyped values [jsval] of JSON and of form fields.
    - [NumText]: numbers written out in decimal and read back unchanged.
    - [AuthHelpers] (web/js/auth-helpers.js): urls with parameters, the page's
      credential zmAuth, and the one silent probe whenAuthFresh queues behind.
    - [EventStream] (web/js/EventStream.js): one zms connection playing recorded
      events; the object, its timers, requests and replies are one state.
    - [MonitorStream] (web/js/MonitorStream.js, with functions of skin.js and
      video-stream.js): a live stream, its choice among players and its zms.
    - [MontageSearch] and [MontageReview] (views/js/montagereview.js): the events
      and frames of the review on a heap, the searches by time, then the clock
      and playback composed with one [EventStream] per monitor.
    - [MonitorFit] (skins/classic/js/montage_common.js and montagereview.js): the
      packing of the monitors' canvases, and fitting, scaling and zooming a review.
    - [MontagePage] and [MontageWall] (views/js/montage.js): the wall of live
      streams, one [MonitorStream] per monitor: which of them play, the waits for
      their placement, inactivity, the hidden page, ratios and layouts; and what
      the theorems promise of it.
    - [WatchPage], [WatchView] and [WatchTour] (views/js/watch.js): the live view of
      one monitor and the cycle that goes from one to the next, with one
      [MonitorStream] for each monitor shown; what each handler leaves alone; and
      the theorems.
    - [ZmsHints] and [EventPage] (views/js/event-zms-hints.js, event.js): the event
      page's playback: the hints a zms needs to go on to the next event, composed
      with the network and the zms, then the page's commands, rates and rewind.
    - [LevelGraph] (web/js/LevelGraph.js): the motion and audio graph, whole file.
    - [AnnotationEditor] and [BrowseTree] (views/js/training.js): the box editor
      and the tree of training files.
    - [ZoneForm] and [ZoneObjectSize] (views/js/zone.js, zone-object-size.js): the
      zone editor's form and polygon, and the tool that derives thresholds from a
      box, with the order in which the two scripts attach their listeners.
    - [EncoderTemplates], [FfmpegOptions] (views/js/monitor-encoder-templates.js,
      monitor-ffmpeg-options.js): two parameter languages of the monitor form.
    - [MonitorLink] (web/js/MonitorLinkExpression.js): linked-monitor expressions.
    - [FilterForm] (views/js/filter.js, with the tables of includes/Filter.php): the
      rows of a filter's terms, rebuilt from what is chosen in them, and their check.
    - [MonitorForm], [MonitorFormSafe] and [MonitorFormSave] (views/js/monitor.js,
      the check in monitor.js.php, human_filesize of skin.js): the form of a
      monitor as the list of its controls, what its listeners do to one another's
      fields, its check and its saving; what holds of the fields; and what is sent.
    - [LogPanel] (web/js/table-helpers.js, skins/classic/js/logpanel.js, and what
      they rely on of bootstrap-table): the log tables of a page, their requests,
      selections and deletions, and the probe of [AuthHelpers] they wait for.

    The definitions carry the source's names.  A method is a function on the
    object's [Record]; what it does to the outside world (a request, a timer, a
    navigation, an element's src) is appended to an [out] list; a callback of the
    browser is an event of a step function, and a run is a fold of that function
    over any list of events.  Where the source shares objects (the event records
    of the review, which are in two tables) the model has a heap.  An exception
    is a [None] or a [Throw].

    * What the theorems show

    - Streams: in every reachable state an EventStream is wholly connected or
      wholly idle and its retries are bounded; a MonitorStream never loses track
      of a zms it opened, except through the one reconnect that is proved to;
      a stop and start resume the same zms; the choice of a player terminates,
      except in the one configuration proved to overflow the stack.
    - Event page: hints that count as sent are what zms holds, whatever the network
      does; look-ups are paced; every rate set is one of the list; one rewind.
    - Review: binary searches agree with looking at everything; while streams
      play, each display leaves every stream on the event the timeline has there;
      one display timer; a clock that stays in its window; total handlers; packed
      canvases inside the screen and clear of each other, in binary64 arithmetic.
    - Montage: what holds of one stream holds of the wall, since a run of the page
      is a run of each stream; waits end; a user who is gone gets no streams; a
      hidden page resumes what it played; layouts are restored.
    - Live view: whatever happens the index, the link and the stream are those of
      one monitor; one interval of the cycle, and only while it is on; a monitor is
      shown as long as the period says; the streams left behind stay down; a hidden
      view resumes, and an idle one rests, but for the cases proved.
    - Tables: one query in flight per table, refreshes deferred while the page is
      hidden are not lost, selections are left alone, deletions are complete.
    - Filter form: rows that stay numbered and are found under their names, terms kept
      when others are added and deleted, the check equal to its specification.
    - Monitor form: buffers, dimensions, rows and players that agree with the boxes
      and fields in every reachable state; only forms the check accepts are sent; the
      credentials of a path moved to their fields, but for the cases proved; an edit
      while a save is under way is lost; the size's loop ends but for infinity.
    - Credentials: one probe in flight, callbacks run once; a url is updated as
      its parameter list would be.
    - Editors: no reachable exception, valid selections, undo restores, boxes on
      the canvas, in binary64 arithmetic; parse and print round trips; notes and
      selects that always describe the current text.
    - Zone editor: a measurement leaves thresholds the form accepts; undo takes back
      the measurements and keeps the edits; the polygon stays in the picture.
    - Where the code does not do this, the theorem says what it does instead
      (kind error), and the manifest lists it as a finding.

    * Bounds and fuel

    Recursion that is not structural takes fuel, and a theorem gives enough of
    it: the scanners of [FfmpegOptions] and [MonitorLink] get the length of the
    text, the searches of [MontageSearch] and [LevelGraph] the length of the
    array.  [MonitorStream.stack] = 8 is shown to suffice for every start whose
    default player is listed, and no depth suffices for the other one.
    [MontageReview.depth] = 2 is shown to suffice for every handler, nine
    rounds for the bisection of [MonitorFit], and [MonitorForm.halvings] = 104
    for every finite size in bytes.  Numbers are
    binary64 throughout; integers with a bound (event ids, times in milliseconds)
    are assumed below 2^53 where a theorem says so.

    * Not modelled

    Painting, markup and element geometry; jQuery, luxon, video.js and the other
    vendored libraries under skins/classic/js and assets, which the scripts only
    call (of bootstrap-table, the states of a request that [LogPanel] relies on); the players web/js/video-rtc.js and dms.js, which
    are third-party; the list and detail views whose scripts are bindings of
    buttons to requests (console, events, options, report and the like); and everything that is not JavaScript: the PHP pages and API, the C++
    capture daemons, the Perl scripts.  Left out because there is nothing of their
    own to decide: the browser's logger, the maps, the wrapper of the pan and zoom
    library, the former cycle page and the frame page.  Of files that are modelled:
    the class lists and statistics of training.js, the cameras' commands and the
    old zoom of watch.js, the GridStack of montage.js, the map, colours, encoder
    list and methods of monitor.js, and the markup and modals of skin.js.  Code units of a string are the 256 of
    [ascii]; -0 is not told from 0, and nothing modelled does. *)
From stdpp Require Export base decidable option list gmap strings.
From Stdlib Require Export ZArith Lia.

#[global] Set Default Goal Selector "!".

(** ** Functional record update

    A component's state is a [Record]; an assignment [this.f = v] of the source
    is written [s <| f := v |>].  [Eta R] says how a record is rebuilt from its
    projections, and the setter of a projection is found by abstracting that
    projection out of the rebuilt record. *)
Class Eta (R : Type) := eta : R -> R.

Class Setter {R T : Type} (proj : R -> T) := upd : (T -> T) -> R -> R.
Arguments upd {R T} proj {_} _ _ : simpl never.

Ltac solve_setter proj :=
  let f := fresh "f" in
  let r := fresh "r" in
  intros f r;
  match type of r with
  | ?R =>
      let inst := constr:(_ : Eta R) in
      let built := eval cbv [eta] in (@eta R inst r) in
      let built := eval hnf in built in
      match eval pattern (proj r) in built with
      | ?ctx _ => let v := eval cbv beta in (ctx (f (proj r))) in exact v
      end
  end.

#[export] Hint Extern 1 (@Setter _ _ ?proj) => (red; solve_setter proj) : typeclass_instances.

Declare Scope js_scope.
Delimit Scope js_scope with js.
Notation "s <| f := v |>" := (upd f (fun _ => v) s)
  (at level 12, f at next level, v at level 99, left associativity) : js_scope.
#[global] Open Scope js_scope.

(** Computes record updates away once the record is a constructor. *)
Ltac rsimpl := repeat (unfold upd in *; cbn in *).

(** Reads the fields of an updated record in the goal. *)
Ltac fields := unfold upd; cbn.

(** ** Case analysis over the matches and conditionals of a goal *)
Ltac break_match :=
  match goal with
  | |- context [match ?x with _ => _ end] => destruct x eqn:?
  end.
Ltac break_match_in H :=
  match type of H with
  | context [match ?x with _ => _ end] => destruct x eqn:?
  end.

(** Turns boolean tests in the context into propositions. *)
Ltac bool_to_prop :=
  repeat match goal with
  | H : _ && _ = true |- _ => apply andb_true_iff in H; destruct H
  | H : _ || _ = false |- _ => apply orb_false_iff in H; destruct H
  | H : negb _ = true |- _ => apply negb_true_iff in H
  | H : negb _ = false |- _ => apply negb_false_iff in H
  | H : (_ <=? _)%Z = true |- _ => apply Z.leb_le in H
  | H : (_ <=? _)%Z = false |- _ => apply Z.leb_gt in H
  | H : (_ <? _)%Z = true |- _ => apply Z.ltb_lt in H
  | H : (_ <? _)%Z = false |- _ => apply Z.ltb_ge in H
  | H : (_ =? _)%Z = true |- _ => apply Z.eqb_eq in H
  | H : (_ =? _)%Z = false |- _ => apply Z.eqb_neq in H
  | H : (_ <=? _)%nat = true |- _ => apply Nat.leb_le in H
  | H : (_ <=? _)%nat = false |- _ => apply Nat.leb_gt in H
  | H : (_ <? _)%nat = true |- _ => apply Nat.ltb_lt in H
  | H : (_ <? _)%nat = false |- _ => apply Nat.ltb_ge in H
  | H : (_ =? _)%nat = true |- _ => apply Nat.eqb_eq in H
  | H : (_ =? _)%nat = false |- _ => apply Nat.eqb_neq in H
  | H : bool_decide _ = true |- _ => apply bool_decide_eq_true in H
  | H : bool_decide _ = false |- _ => apply bool_decide_eq_false in H
  | H : String.eqb _ _ = true |- _ => apply String.eqb_eq in H
  | H : String.eqb _ _ = false |- _ => apply String.eqb_neq in H
  end.

(** The lemmas that settle the common cases: [auto with js], [autorewrite with js]. *)
Create HintDb js discriminated.
Create Rewrite HintDb js.

(** How many elements of a list satisfy a test. *)
Fixpoint tally {A} (p : A -> bool) (xs : list A) : nat :=
  match xs with [] => 0 | x :: xs => (if p x then 1 else 0) + tally p xs end%nat.

Lemma tally_app {A} (p : A -> bool) xs ys : tally p (xs ++ ys) = (tally p xs + tally p ys)%nat.
Proof. induction xs as [|x xs IH]; cbn; [reflexivity|]. rewrite IH. lia. Qed.

Lemma tally_none {A} (p : A -> bool) xs : Forall (fun x => p x = false) xs -> tally p xs = 0%nat.
Proof. induction 1 as [|x xs Hx _ IH]; cbn; [reflexivity|]. rewrite Hx. exact IH. Qed.

(** Filters that agree on the members of a list. *)
Lemma filter_ext_in {A} (P Q : A -> Prop) `{!forall x, Decision (P x), !forall x, Decision (Q x)} (xs : list A) :
  (forall x, x ∈ xs -> P x <-> Q x) -> filter P xs = filter Q xs.
Proof.
  intros Hpq. induction xs as [|x xs IH]; [reflexivity|]. rewrite !filter_cons.
  assert (E : filter P xs = filter Q xs) by (apply IH; intros y Hy; apply Hpq, list_elem_of_further, Hy).
  specialize (Hpq x (list_elem_of_here _ _)). rewrite E. repeat case_decide; tauto.
Qed.

Lemma filter_none {A} (P : A -> Prop) `{!forall x, Decision (P x)} (xs : list A) :
  (forall x, x ∈ xs -> ~ P x) -> filter P xs = [].
Proof.
  intros Hp. induction xs as [|x xs IH]; [reflexivity|]. rewrite filter_cons_False.
  - apply IH. intros y Hy. apply Hp, list_elem_of_further, Hy.
  - apply Hp, list_elem_of_here.
Qed.

(** A test that was evaluated on every member. *)
Lemma forallb_elem {A} (p : A -> bool) (xs : list A) x : forallb p xs = true -> x ∈ xs -> p x = true.
Proof. intros H Hx. rewrite forallb_forall in H. apply H, list_elem_of_In, Hx. Qed.

(** A list at an index: what is before, there and after. *)
Lemma lookup_split {A} (xs : list A) k x : xs !! k = Some x ->
  exists ys zs, xs = ys ++ x :: zs /\ delete k xs = ys ++ zs /\ forall y, <[k := y]> xs = ys ++ y :: zs.
Proof.
  intros H. pose proof (lookup_lt_Some _ _ _ H) as Hk. exists (take k xs), (drop (S k) xs).
  assert (E : xs = take k xs ++ x :: drop (S k) xs) by (symmetry; apply take_drop_middle, H).
  assert (L : length (take k xs) = k) by (rewrite length_take; lia).
  repeat split; [exact E| |].
  - rewrite E at 1. rewrite <- L at 1. apply delete_middle.
  - intros y. rewrite E at 1. pose proof (insert_app_r (take k xs) (x :: drop (S k) xs) 0 y) as I.
    rewrite L, Nat.add_0_r in I. exact I.
Qed.

#[export] Hint Rewrite @tally_app : js.
#[export] Hint Resolve tally_none : js.
