(* ===== verification/JsNum.v ===== *)
(** JavaScript numbers: IEEE-754 binary64 values as the language defines them.

    A number is NaN, an infinity, or a finite rational; every arithmetic
    operation computes the exact rational result and rounds it to the nearest
    binary64 value, ties to even, with gradual underflow and overflow to an
    infinity.  Zero is unsigned here: nothing modelled tells -0 from +0.  The
    file proves what the components use of rounding: it is monotone, it leaves
    representable values alone, and integers up to 2^53 are representable. *)
From Stdlib Require Export QArith Qround Qreduction Qpower Qminmax Qabs Lqa.
From S2P Require Export Prelude.

Open Scope Z_scope.

(** ** Rounding a rational to an integer, ties to even *)

Definition rhe (q : Q) : Z :=
  let f := Qfloor q in
  match (q - inject_Z f ?= 1 # 2)%Q with
  | Lt => f
  | Gt => f + 1
  | Eq => if Z.even f then f else f + 1
  end.

Definition pow2 (k : Z) : Q := Qpower 2 k.

(** The binary exponent of a positive rational: 2^e <= q < 2^(e+1). *)
Definition qexp (q : Q) : Z :=
  let k := Z.log2 (Qnum q) - Z.log2 (Zpos (Qden q)) in
  if Qle_bool (pow2 k) q then k else k - 1.

Definition emin : Z := -1074.
Definition ulp_exp (q : Q) : Z := Z.max (qexp q - 52) emin.

Definition rnd_pos (q : Q) : Q :=
  let u := ulp_exp q in
  Qred (inject_Z (rhe (q / pow2 u)) * pow2 u).

(** Round to nearest over the rationals, before the overflow test. *)
Definition rndq (q : Q) : Q :=
  match (q ?= 0)%Q with
  | Eq => 0%Q
  | Gt => rnd_pos q
  | Lt => Qred (- rnd_pos (- q))
  end.

(** ** Facts about [rhe] *)

Lemma Qfloor_bounds q : (inject_Z (Qfloor q) <= q < inject_Z (Qfloor q) + 1)%Q.
Proof.
  split; [apply Qfloor_le|].
  pose proof (Qlt_floor q) as H. rewrite inject_Z_plus in H. exact H.
Qed.

Lemma rhe_floor q : rhe q = Qfloor q \/ rhe q = Qfloor q + 1.
Proof. unfold rhe. destruct (_ ?= _)%Q; [destruct (Z.even _)| |]; auto. Qed.

Lemma rhe_mono p q : (p <= q)%Q -> rhe p <= rhe q.
Proof.
  intros H. pose proof (Qfloor_resp_le _ _ H) as Hf.
  destruct (Z.eq_dec (Qfloor p) (Qfloor q)) as [E|E].
  - unfold rhe. rewrite E.
    destruct (p - _ ?= _)%Q eqn:Ep; destruct (q - _ ?= _)%Q eqn:Eq;
      rewrite <- ?Qeq_alt, <- ?Qlt_alt, <- ?Qgt_alt in *;
      try lia; try (exfalso; lra); destruct (Z.even _); lia.
  - destruct (rhe_floor p), (rhe_floor q); lia.
Qed.

Lemma rhe_Z z : rhe (inject_Z z) = z.
Proof.
  unfold rhe. rewrite Qfloor_Z.
  destruct (_ ?= _)%Q eqn:E; rewrite <- ?Qeq_alt, <- ?Qlt_alt, <- ?Qgt_alt in *;
    auto; exfalso; lra.
Qed.

#[export] Instance rhe_proper : Proper (Qeq ==> eq) rhe.
Proof.
  intros p q H. apply Z.le_antisymm; apply rhe_mono; rewrite H; apply Qle_refl.
Qed.

(** ** Powers of two *)

Lemma pow2_pos k : (0 < pow2 k)%Q.
Proof. apply Qpower_0_lt. reflexivity. Qed.

Lemma pow2_add a b : (pow2 (a + b) == pow2 a * pow2 b)%Q.
Proof. apply Qpower_plus. discriminate. Qed.

Lemma pow2_Z k : 0 <= k -> (pow2 k == inject_Z (2 ^ k))%Q.
Proof. intros H. unfold pow2. symmetry. apply (Zpower_Qpower 2 k H). Qed.

Lemma pow2_le a b : a <= b -> (pow2 a <= pow2 b)%Q.
Proof. intros H. apply Qpower_le_compat_l; [exact H|discriminate]. Qed.

Lemma pow2_lt a b : a < b -> (pow2 a < pow2 b)%Q.
Proof. intros H. apply Qpower_lt_compat_l; [exact H|reflexivity]. Qed.

Lemma pow2_lt_inv a b : (pow2 a < pow2 b)%Q -> a < b.
Proof.
  intros H. destruct (Z_lt_le_dec a b) as [|L]; [assumption|].
  apply pow2_le in L. exfalso; lra.
Qed.

Lemma qexp_spec q : (0 < q)%Q -> (pow2 (qexp q) <= q < pow2 (qexp q + 1))%Q.
Proof.
  destruct q as [n d]. intros Hq.
  assert (Hn : 0 < n) by (unfold Qlt in Hq; simpl in Hq; lia).
  pose proof (Z.log2_spec n Hn) as [Hn1 Hn2].
  pose proof (Z.log2_spec (Zpos d) eq_refl) as [Hd1 Hd2].
  pose proof (Z.log2_nonneg n) as Pn. pose proof (Z.log2_nonneg (Zpos d)) as Pd.
  set (a := Z.log2 n) in *. set (b := Z.log2 (Zpos d)) in *.
  assert (Hb : (0 < inject_Z (Zpos d))%Q) by reflexivity.
  assert (Eq : (n # d == inject_Z n / inject_Z (Zpos d))%Q) by apply Qmake_Qdiv.
  assert (Hlo : (pow2 (a - b - 1) < n # d)%Q).
  { rewrite Eq. apply Qlt_shift_div_l; [exact Hb|].
    apply Qlt_le_trans with (pow2 (a - b - 1) * pow2 (b + 1))%Q.
    - apply Qmult_lt_l; [apply pow2_pos|]. rewrite pow2_Z by lia.
      rewrite <- Zlt_Qlt. replace (b + 1) with (Z.succ b) by lia. exact Hd2.
    - rewrite <- pow2_add. replace (a - b - 1 + (b + 1)) with a by lia.
      rewrite pow2_Z by lia. rewrite <- Zle_Qle. exact Hn1. }
  assert (Hhi : (n # d < pow2 (a - b + 1))%Q).
  { rewrite Eq. apply Qlt_shift_div_r; [exact Hb|].
    apply Qlt_le_trans with (pow2 (a + 1)).
    - rewrite pow2_Z by lia. rewrite <- Zlt_Qlt.
      replace (a + 1) with (Z.succ a) by lia. exact Hn2.
    - replace (a + 1) with (a - b + 1 + b) by lia. rewrite pow2_add.
      apply Qmult_le_l; [apply pow2_pos|]. rewrite pow2_Z by lia.
      rewrite <- Zle_Qle. exact Hd1. }
  unfold qexp. simpl Qnum. simpl Qden. fold a b.
  destruct (Qle_bool (pow2 (a - b)) (n # d)) eqn:E.
  - apply Qle_bool_iff in E. split; [exact E|].
    exact Hhi.
  - assert (~ (pow2 (a - b) <= n # d)%Q) as N.
    { intros C. apply Qle_bool_iff in C. congruence. }
    apply Qnot_le_lt in N. split; [apply Qlt_le_weak; exact Hlo|].
    replace (a - b - 1 + 1) with (a - b) by lia. exact N.
Qed.

Lemma qexp_mono p q : (0 < p)%Q -> (p <= q)%Q -> qexp p <= qexp q.
Proof.
  intros Hp H. assert (Hq : (0 < q)%Q) by lra.
  destruct (qexp_spec p Hp) as [P1 _]. destruct (qexp_spec q Hq) as [_ Q2].
  enough (qexp p < qexp q + 1) by lia. apply pow2_lt_inv. lra.
Qed.

(** ** [rnd_pos]: monotone, and the identity on representable values *)

Lemma Qdiv_pow2_le p q k : (p <= q)%Q -> (p / pow2 k <= q / pow2 k)%Q.
Proof.
  intros H. apply Qmult_le_compat_r; [exact H|].
  apply Qlt_le_weak, Qinv_lt_0_compat, pow2_pos.
Qed.

Lemma scaled_le_Z p u k : u <= k -> (p <= pow2 k)%Q ->
  (inject_Z (rhe (p / pow2 u)) * pow2 u <= pow2 k)%Q.
Proof.
  intros Hk H. pose proof (pow2_pos u) as Pu.
  assert (p / pow2 u <= inject_Z (2 ^ (k - u)))%Q as L.
  { apply Qle_shift_div_r; [exact Pu|]. rewrite <- pow2_Z by lia.
    rewrite <- pow2_add. replace (k - u + u) with k by lia. exact H. }
  apply rhe_mono in L. rewrite rhe_Z in L.
  apply Qle_trans with (inject_Z (2 ^ (k - u)) * pow2 u)%Q.
  - apply Qmult_le_compat_r; [rewrite <- Zle_Qle; exact L|lra].
  - rewrite <- pow2_Z by lia. rewrite <- pow2_add.
    replace (k - u + u) with k by lia. apply Qle_refl.
Qed.

Lemma scaled_ge_Z p u k : u <= k -> (pow2 k <= p)%Q ->
  (pow2 k <= inject_Z (rhe (p / pow2 u)) * pow2 u)%Q.
Proof.
  intros Hk H. pose proof (pow2_pos u) as Pu.
  assert (inject_Z (2 ^ (k - u)) <= p / pow2 u)%Q as L.
  { apply Qle_shift_div_l; [exact Pu|]. rewrite <- pow2_Z by lia.
    rewrite <- pow2_add. replace (k - u + u) with k by lia. exact H. }
  apply rhe_mono in L. rewrite rhe_Z in L.
  apply Qle_trans with (inject_Z (2 ^ (k - u)) * pow2 u)%Q.
  - rewrite <- pow2_Z by lia. rewrite <- pow2_add.
    replace (k - u + u) with k by lia. apply Qle_refl.
  - apply Qmult_le_compat_r; [rewrite <- Zle_Qle; exact L|lra].
Qed.

Lemma rnd_pos_mono p q : (0 < p)%Q -> (p <= q)%Q -> (rnd_pos p <= rnd_pos q)%Q.
Proof.
  intros Hp H. assert (Hq : (0 < q)%Q) by lra.
  unfold rnd_pos. rewrite !Qred_correct.
  pose proof (qexp_mono p q Hp H) as He.
  destruct (Z.eq_dec (ulp_exp p) (ulp_exp q)) as [E|E].
  - rewrite E. apply Qmult_le_compat_r; [|pose proof (pow2_pos (ulp_exp q)); lra].
    rewrite <- Zle_Qle. apply rhe_mono, Qdiv_pow2_le, H.
  - unfold ulp_exp in *.
    assert (Hlt : ulp_exp p < ulp_exp q) by (unfold ulp_exp; lia).
    unfold ulp_exp in Hlt.
    destruct (qexp_spec p Hp) as [_ P2]. destruct (qexp_spec q Hq) as [Q1 _].
    apply Qle_trans with (pow2 (qexp q)).
    + apply scaled_le_Z; [lia|]. apply Qle_trans with (pow2 (qexp p + 1)); [lra|].
      apply pow2_le. lia.
    + apply scaled_ge_Z; [lia|exact Q1].
Qed.

Lemma rnd_pos_nonneg q : (0 < q)%Q -> (0 <= rnd_pos q)%Q.
Proof.
  intros Hq. unfold rnd_pos. rewrite Qred_correct.
  pose proof (pow2_pos (ulp_exp q)) as P.
  apply Qmult_le_0_compat; [|lra]. change 0%Q with (inject_Z 0). rewrite <- Zle_Qle.
  rewrite <- (rhe_Z 0). apply rhe_mono. apply Qle_shift_div_l; [exact P|]. change (inject_Z 0) with 0%Q. lra.
Qed.

(** A multiple of a representable unit with at most 53 significant bits. *)
Lemma rnd_pos_exact m k : 0 < m <= 2 ^ 53 -> emin <= k ->
  (rnd_pos (inject_Z m * pow2 k) == inject_Z m * pow2 k)%Q.
Proof.
  intros Hm Hk. set (q := (inject_Z m * pow2 k)%Q).
  pose proof (pow2_pos k) as Pk.
  assert (Hq : (0 < q)%Q).
  { unfold q. apply Qmult_lt_0_compat; [|exact Pk].
    change 0%Q with (inject_Z 0). rewrite <- Zlt_Qlt. lia. }
  destruct (qexp_spec q Hq) as [Q1 Q2].
  unfold rnd_pos. rewrite Qred_correct. set (u := ulp_exp q).
  pose proof (pow2_pos u) as Pu.
  assert (Hin : exists z, (q / pow2 u == inject_Z z)%Q).
  { destruct (Z_le_gt_dec u k) as [L|G].
    - exists (m * 2 ^ (k - u)). rewrite inject_Z_mult, <- pow2_Z by lia.
      unfold q. replace k with (k - u + u) at 1 by lia. rewrite pow2_add. field. lra.
    - assert (Hu : u = qexp q - 52) by (unfold u, ulp_exp in *; lia).
      assert (Hge : (pow2 (k + 53) <= q)%Q).
      { apply Qle_trans with (pow2 (qexp q)); [apply pow2_le; lia|exact Q1]. }
      assert (m = 2 ^ 53) as Em.
      { enough (2 ^ 53 <= m) by lia. rewrite Zle_Qle.
        apply Qmult_le_r with (pow2 k); [exact Pk|].
        rewrite <- pow2_Z by lia. rewrite <- pow2_add.
        replace (53 + k) with (k + 53) by lia. exact Hge. }
      assert (Eqp : (q == pow2 (k + 53))%Q).
      { unfold q. rewrite Em, <- pow2_Z by lia. rewrite <- pow2_add.
        replace (53 + k) with (k + 53) by lia. reflexivity. }
      assert (Eu : u = k + 1).
      { enough (qexp q < k + 53 + 1) by lia. apply pow2_lt_inv.
        apply Qle_lt_trans with q; [exact Q1|].
        apply Qle_lt_trans with (pow2 (k + 53)); [rewrite Eqp; apply Qle_refl|].
        apply pow2_lt. lia. }
      exists (2 ^ 52). rewrite Eqp, <- pow2_Z by lia.
      replace (k + 53) with (52 + u) by lia. rewrite pow2_add. field. lra. }
  destruct Hin as [z Hz]. rewrite Hz, rhe_Z, <- Hz. field. lra.
Qed.

Lemma rnd_pos_repr q : (0 < q)%Q ->
  exists m k, 0 <= m <= 2 ^ 53 /\ emin <= k /\ (rnd_pos q == inject_Z m * pow2 k)%Q.
Proof.
  intros Hq. exists (rhe (q / pow2 (ulp_exp q))), (ulp_exp q).
  destruct (qexp_spec q Hq) as [_ Q2]. pose proof (pow2_pos (ulp_exp q)) as P.
  repeat split.
  - rewrite <- (rhe_Z 0). apply rhe_mono. apply Qle_shift_div_l; [exact P|].
    change (inject_Z 0) with 0%Q. lra.
  - rewrite <- (rhe_Z (2 ^ 53)). apply rhe_mono. apply Qle_shift_div_r; [exact P|].
    rewrite <- pow2_Z by lia. rewrite <- pow2_add.
    apply Qle_trans with (pow2 (qexp q + 1)); [lra|]. apply pow2_le.
    unfold ulp_exp. lia.
  - unfold ulp_exp. lia.
  - unfold rnd_pos. apply Qred_correct.
Qed.

(** ** [rndq]: rounding to nearest over all rationals *)

(** The rationals that are binary64 values (overflow apart). *)
Definition double (q : Q) : Prop := (rndq q == q)%Q.

Lemma rndq_pos q : (0 < q)%Q -> rndq q = rnd_pos q.
Proof. intros H. unfold rndq. rewrite Qgt_alt in H. rewrite H. reflexivity. Qed.

Lemma rndq_neg q : (q < 0)%Q -> (rndq q == - rnd_pos (- q))%Q.
Proof. intros H. unfold rndq. rewrite Qlt_alt in H. rewrite H. apply Qred_correct. Qed.

Lemma rndq_zero q : (q == 0)%Q -> rndq q = 0%Q.
Proof. intros H. unfold rndq. rewrite Qeq_alt in H. rewrite H. reflexivity. Qed.

Lemma Q_sign q : (q < 0)%Q \/ (q == 0)%Q \/ (0 < q)%Q.
Proof. destruct (Q_dec q 0) as [[?|?]|?]; auto. Qed.

Lemma rndq_mono p q : (p <= q)%Q -> (rndq p <= rndq q)%Q.
Proof.
  intros H.
  destruct (Q_sign p) as [Hp|[Hp|Hp]]; destruct (Q_sign q) as [Hq|[Hq|Hq]];
    rewrite ?(rndq_neg p), ?(rndq_neg q), ?(rndq_zero p), ?(rndq_zero q),
      ?(rndq_pos p), ?(rndq_pos q) by assumption; try lra;
    try (assert (N : (0 < - p)%Q) by lra; pose proof (rnd_pos_nonneg (- p) N));
    try pose proof (rnd_pos_nonneg q Hq); try lra.
  - assert (rnd_pos (- q) <= rnd_pos (- p))%Q by (apply rnd_pos_mono; lra). lra.
  - apply rnd_pos_mono; assumption.
Qed.

#[export] Instance rndq_proper : Proper (Qeq ==> Qeq) rndq.
Proof.
  intros p q H. apply Qle_antisym; apply rndq_mono; rewrite H; apply Qle_refl.
Qed.

#[export] Instance double_proper : Proper (Qeq ==> iff) double.
Proof. intros p q H. unfold double. rewrite H. reflexivity. Qed.

Lemma double_repr m k : Z.abs m <= 2 ^ 53 -> emin <= k -> double (inject_Z m * pow2 k).
Proof.
  intros Hm Hk. unfold double. pose proof (pow2_pos k) as P.
  destruct (Z.lt_trichotomy m 0) as [N|[->|N]].
  - assert (E : (inject_Z m * pow2 k == - (inject_Z (- m) * pow2 k))%Q).
    { rewrite inject_Z_opp. ring. }
    assert (L : (0 < inject_Z (- m) * pow2 k)%Q).
    { apply Qmult_lt_0_compat; [|exact P]. change 0%Q with (inject_Z 0).
      rewrite <- Zlt_Qlt. lia. }
    rewrite E, rndq_neg by lra.
    rewrite <- (rndq_pos (- - _)) by lra. rewrite Qopp_involutive.
    rewrite rndq_pos by exact L. rewrite rnd_pos_exact by lia. reflexivity.
  - rewrite rndq_zero by (rewrite Qmult_0_l; reflexivity). rewrite Qmult_0_l. reflexivity.
  - assert (L : (0 < inject_Z m * pow2 k)%Q).
    { apply Qmult_lt_0_compat; [|exact P]. change 0%Q with (inject_Z 0).
      rewrite <- Zlt_Qlt. lia. }
    rewrite rndq_pos by exact L. apply rnd_pos_exact; lia.
Qed.

Lemma double_Z z : Z.abs z <= 2 ^ 53 -> double (inject_Z z).
Proof.
  intros H. rewrite <- (Qmult_1_r (inject_Z z)).
  apply (double_repr z 0); [exact H|unfold emin; lia].
Qed.

(** Rounding is idempotent: its results are representable. *)
Lemma double_rndq q : double (rndq q).
Proof.
  destruct (Q_sign q) as [Hq|[Hq|Hq]].
  - assert (N : (0 < - q)%Q) by lra.
    destruct (rnd_pos_repr _ N) as (m & k & Hm & Hk & E).
    assert (E' : (rndq q == inject_Z (- m) * pow2 k)%Q).
    { rewrite rndq_neg, E, inject_Z_opp by exact Hq. ring. }
    rewrite E'. apply double_repr; lia.
  - rewrite rndq_zero by exact Hq. apply (double_Z 0). lia.
  - destruct (rnd_pos_repr _ Hq) as (m & k & Hm & Hk & E).
    rewrite rndq_pos, E by exact Hq. apply double_repr; lia.
Qed.

Lemma rndq_le_double q b : double b -> (q <= b)%Q -> (rndq q <= b)%Q.
Proof. intros Hb H. apply rndq_mono in H. unfold double in Hb. lra. Qed.

Lemma rndq_ge_double q b : double b -> (b <= q)%Q -> (b <= rndq q)%Q.
Proof. intros Hb H. apply rndq_mono in H. unfold double in Hb. lra. Qed.

(** Every representable value is a multiple of the smallest one, so the
    difference of two of them never rounds to the other sign. *)
Lemma double_multiple q : double q -> exists m, (q == inject_Z m * pow2 emin)%Q.
Proof.
  unfold double. intros H.
  assert (P : forall p, (0 < p)%Q -> exists m, (rnd_pos p == inject_Z m * pow2 emin)%Q).
  { intros p Hp. destruct (rnd_pos_repr p Hp) as (m & k & _ & Hk & E).
    exists (m * 2 ^ (k - emin)). rewrite E, inject_Z_mult, <- pow2_Z by lia.
    rewrite <- Qmult_assoc, <- pow2_add. replace (k - emin + emin) with k by lia. reflexivity. }
  destruct (Q_sign q) as [Hn|[Hz|Hp]].
  - destruct (P (- q)%Q ltac:(lra)) as [m E]. exists (- m).
    rewrite <- H, rndq_neg by exact Hn. rewrite E, inject_Z_opp. ring.
  - exists 0. rewrite Hz. ring.
  - destruct (P q Hp) as [m E]. exists m. rewrite <- H, rndq_pos by exact Hp. exact E.
Qed.

Lemma rndq_diff_pos a b : double a -> double b -> (b < a)%Q -> (0 < rndq (a - b))%Q.
Proof.
  intros Ha Hb H. destruct (double_multiple a Ha) as [m Em], (double_multiple b Hb) as [k Ek].
  pose proof (pow2_pos emin) as P.
  assert (Hmk : k < m).
  { rewrite Zlt_Qlt. rewrite Em, Ek in H. apply Qmult_lt_r in H; assumption. }
  assert (L : (pow2 emin <= a - b)%Q).
  { rewrite Em, Ek. assert (E : (inject_Z m * pow2 emin - inject_Z k * pow2 emin ==
      inject_Z (m - k) * pow2 emin)%Q) by (unfold Z.sub; rewrite inject_Z_plus, inject_Z_opp; ring).
    rewrite E. rewrite <- (Qmult_1_l (pow2 emin)) at 1. apply Qmult_le_compat_r; [|lra].
    change 1%Q with (inject_Z 1). rewrite <- Zle_Qle. lia. }
  apply Qlt_le_trans with (pow2 emin); [exact P|]. apply rndq_ge_double; [|exact L].
  assert (E : (pow2 emin == inject_Z 1 * pow2 emin)%Q) by ring. rewrite E.
  apply double_repr; [|lia]. change (Z.abs 1) with 1. lia.
Qed.

(** ** Rounding errors *)

Lemma rhe_le_half q : (inject_Z (rhe q) <= q + (1 # 2))%Q.
Proof.
  pose proof (Qfloor_bounds q) as [Hl Hu]. unfold rhe.
  destruct (q - inject_Z (Qfloor q) ?= 1 # 2)%Q eqn:E;
    rewrite <- ?Qeq_alt, <- ?Qlt_alt, <- ?Qgt_alt in E;
    [destruct (Z.even _)| |]; rewrite ?inject_Z_plus; change (inject_Z 1) with 1%Q; lra.
Qed.

Lemma rhe_half_even z : Z.even z = true -> rhe (inject_Z z + (1 # 2)) = z.
Proof.
  intros Hz. assert (F : Qfloor (inject_Z z + (1 # 2)) = z).
  { apply Z.le_antisymm.
    - enough (Qfloor (inject_Z z + (1 # 2)) < z + 1) by lia. rewrite Zlt_Qlt, inject_Z_plus. change (inject_Z 1) with 1%Q.
      pose proof (Qfloor_bounds (inject_Z z + (1 # 2))) as [Hl _]. lra.
    - rewrite <- (Qfloor_Z z) at 1. apply Qfloor_resp_le. lra. }
  unfold rhe. rewrite F, Hz.
  destruct (_ ?= _)%Q eqn:E; rewrite <- ?Qeq_alt, <- ?Qlt_alt, <- ?Qgt_alt in E; try reflexivity.
  exfalso. lra.
Qed.

Lemma rnd_pos_le_half q : (0 < q)%Q -> (rnd_pos q <= q + pow2 (ulp_exp q) * (1 # 2))%Q.
Proof.
  intros Hq. unfold rnd_pos. rewrite Qred_correct. pose proof (pow2_pos (ulp_exp q)) as P.
  pose proof (rhe_le_half (q / pow2 (ulp_exp q))) as H.
  apply Qmult_le_compat_r with (z := pow2 (ulp_exp q)) in H; [|lra].
  eapply Qle_trans; [exact H|].
  assert (E : ((q / pow2 (ulp_exp q) + (1 # 2)) * pow2 (ulp_exp q) ==
               q + pow2 (ulp_exp q) * (1 # 2))%Q) by (field; lra).
  rewrite E. apply Qle_refl.
Qed.

(** Half a unit above an integer below 2^51 is rounded away. *)
Lemma rnd_pos_half_ulp z : 0 < z <= 2 ^ 51 ->
  (rnd_pos (inject_Z z + pow2 (qexp (inject_Z z) - 53)) <= inject_Z z)%Q.
Proof.
  intros Hz. set (k := qexp (inject_Z z)).
  assert (Hzq : (0 < inject_Z z)%Q) by (change 0%Q with (inject_Z 0); rewrite <- Zlt_Qlt; lia).
  pose proof (qexp_spec _ Hzq) as [Q1 Q2]. fold k in Q1, Q2.
  assert (Hk : 0 <= k <= 51).
  { split.
    - enough (0 < k + 1) by lia. apply pow2_lt_inv. eapply Qle_lt_trans; [|exact Q2].
      rewrite (pow2_Z 0) by lia. rewrite <- Zle_Qle. lia.
    - enough (k < 52) by lia. apply pow2_lt_inv. eapply Qle_lt_trans; [exact Q1|].
      rewrite (pow2_Z 52) by lia. rewrite <- Zlt_Qlt. lia. }
  assert (Hz1 : (inject_Z z + 1 <= pow2 (k + 1))%Q).
  { rewrite pow2_Z in Q2 |- * by lia. rewrite <- Zlt_Qlt in Q2.
    change 1%Q with (inject_Z 1). rewrite <- inject_Z_plus, <- Zle_Qle. lia. }
  pose proof (pow2_pos (k - 53)) as P53.
  assert (P1 : (pow2 (k - 53) < 1)%Q) by (apply (pow2_lt (k - 53) 0); lia).
  set (q := (inject_Z z + pow2 (k - 53))%Q).
  assert (Hq : (0 < q)%Q) by (unfold q; lra).
  assert (Eq : qexp q = k).
  { pose proof (qexp_spec q Hq) as [R1 R2]. apply Z.le_antisymm.
    - enough (qexp q < k + 1) by lia. apply pow2_lt_inv. eapply Qle_lt_trans; [exact R1|].
      unfold q. lra.
    - unfold k. apply qexp_mono; [exact Hzq|]. unfold q. lra. }
  unfold rnd_pos. rewrite Qred_correct. unfold ulp_exp. rewrite Eq.
  replace (Z.max (k - 52) emin) with (k - 52) by (unfold emin; lia).
  pose proof (pow2_pos (k - 52)) as P52.
  assert (E : (q / pow2 (k - 52) == inject_Z (z * 2 ^ (52 - k)) + (1 # 2))%Q).
  { unfold q. rewrite inject_Z_mult, <- pow2_Z by lia.
    replace (k - 52) with (k - 53 + 1) by lia. rewrite pow2_add.
    assert (E1 : (pow2 (52 - k) * (pow2 (k - 53) * pow2 1) == 1)%Q).
    { rewrite <- !pow2_add. replace (52 - k + (k - 53 + 1)) with 0 by lia. reflexivity. }
    rewrite <- (Qmult_1_r (inject_Z z)) at 1. rewrite <- E1. change (pow2 1) with 2%Q. field. lra. }
  rewrite E, rhe_half_even.
  - rewrite inject_Z_mult, <- pow2_Z by lia. rewrite <- Qmult_assoc, <- pow2_add.
    replace (52 - k + (k - 52)) with 0 by lia. change (pow2 0) with 1%Q. lra.
  - rewrite Z.even_mul, Z.even_pow by lia. apply orb_true_r.
Qed.

(** What is left of an extent, plus what was taken, stays within it. *)
Lemma sub_add_bound (W : Z) (w x : Q) :
  0 < W <= 2 ^ 51 -> (0 <= w)%Q -> (w <= inject_Z W)%Q -> (x <= rndq (inject_Z W - w))%Q ->
  (rndq (x + w) <= inject_Z W)%Q.
Proof.
  intros HW Hw0 HwW Hx.
  assert (HWd : double (inject_Z W)) by (apply double_Z; lia).
  destruct (Qlt_le_dec 0 (inject_Z W - w)) as [Hp|Hn]; cycle 1.
  { apply rndq_le_double; [exact HWd|].
    assert (rndq (inject_Z W - w) <= 0)%Q by (apply rndq_le_double; [apply (double_Z 0); lia|lra]). lra. }
  rewrite rndq_pos in Hx by exact Hp.
  pose proof (rnd_pos_le_half _ Hp) as He.
  assert (HWq : (0 < inject_Z W)%Q) by lra.
  assert (Hu : ulp_exp (inject_Z W - w) <= qexp (inject_Z W) - 52).
  { unfold ulp_exp. pose proof (qexp_mono (inject_Z W - w) (inject_Z W) Hp ltac:(lra)) as Hm.
    assert (0 < qexp (inject_Z W) + 1).
    { apply pow2_lt_inv. eapply Qle_lt_trans; [|apply (qexp_spec _ HWq)].
      rewrite (pow2_Z 0) by lia. rewrite <- Zle_Qle. lia. }
    unfold emin. lia. }
  apply pow2_le in Hu.
  assert (Hb : (x + w <= inject_Z W + pow2 (qexp (inject_Z W) - 53))%Q).
  { assert (E : (pow2 (qexp (inject_Z W) - 52) == pow2 (qexp (inject_Z W) - 53) * 2)%Q).
    { replace (qexp (inject_Z W) - 52) with (qexp (inject_Z W) - 53 + 1) by lia. apply pow2_add. }
    lra. }
  apply rndq_mono in Hb. eapply Qle_trans; [exact Hb|].
  pose proof (pow2_pos (qexp (inject_Z W) - 53)) as P53.
  rewrite rndq_pos by lra. apply rnd_pos_half_ulp, HW.
Qed.

(** ** Numbers and their operations *)

Inductive num :=
| NaN
| Infty (neg : bool)
| Fin (q : Q).

Declare Scope num_scope.
Delimit Scope num_scope with num.
Bind Scope num_scope with num.

#[export] Instance Q_eq_dec' : EqDecision Q.
Proof. solve_decision. Defined.
#[export] Instance num_eq_dec : EqDecision num.
Proof. solve_decision. Defined.

(** Finite results at or beyond 2^1024 overflow to an infinity. *)
Definition huge : Q := inject_Z (2 ^ 1024).

Definition rnd (q : Q) : num :=
  let v := rndq q in
  if Qle_bool huge v then Infty false
  else if Qle_bool v (- huge) then Infty true
  else Fin v.

Definition num_of_Z (z : Z) : num := rnd (inject_Z z).

Definition qsign (q : Q) : bool := negb (Qle_bool 0 q).

Definition nopp (a : num) : num :=
  match a with NaN => NaN | Infty s => Infty (negb s) | Fin q => Fin (Qred (- q)) end.

Definition nabs (a : num) : num :=
  match a with NaN => NaN | Infty _ => Infty false | Fin q => Fin (Qred (Qabs q)) end.

Definition nadd (a b : num) : num :=
  match a, b with
  | NaN, _ | _, NaN => NaN
  | Infty s, Infty t => if Bool.eqb s t then Infty s else NaN
  | Infty s, _ | _, Infty s => Infty s
  | Fin p, Fin q => rnd (p + q)
  end.

Definition nsub (a b : num) : num := nadd a (nopp b).

Definition nmul (a b : num) : num :=
  match a, b with
  | NaN, _ | _, NaN => NaN
  | Infty s, Infty t => Infty (xorb s t)
  | Infty s, Fin q | Fin q, Infty s =>
      if Qeq_bool q 0 then NaN else Infty (xorb s (qsign q))
  | Fin p, Fin q => rnd (p * q)
  end.

Definition ndiv (a b : num) : num :=
  match a, b with
  | NaN, _ | _, NaN => NaN
  | Infty _, Infty _ => NaN
  | Infty s, Fin q => Infty (xorb s (qsign q))
  | Fin _, Infty _ => Fin 0
  | Fin p, Fin q =>
      if Qeq_bool q 0 then (if Qeq_bool p 0 then NaN else Infty (qsign p))
      else rnd (p / q)
  end.

(** Comparisons: false as soon as an operand is NaN. *)
Definition nltb (a b : num) : bool :=
  match a, b with
  | NaN, _ | _, NaN => false
  | Infty s, Infty t => s && negb t
  | Infty s, Fin _ => s
  | Fin _, Infty s => negb s
  | Fin p, Fin q => negb (Qle_bool q p)
  end.

Definition nleb (a b : num) : bool :=
  match a, b with
  | NaN, _ | _, NaN => false
  | Infty s, Infty t => s || negb t
  | Infty s, Fin _ => s
  | Fin _, Infty s => negb s
  | Fin p, Fin q => Qle_bool p q
  end.

Definition neqb (a b : num) : bool := nleb a b && nleb b a.

Notation "a <=? b" := (nleb a b) : num_scope.
Notation "a <? b" := (nltb a b) : num_scope.
Notation "a >=? b" := (nleb b a) (only parsing) : num_scope.
Notation "a >? b" := (nltb b a) (only parsing) : num_scope.
Notation "a =? b" := (neqb a b) : num_scope.
Notation "a + b" := (nadd a b) : num_scope.
Notation "a - b" := (nsub a b) : num_scope.
Notation "a * b" := (nmul a b) : num_scope.
Notation "a / b" := (ndiv a b) : num_scope.
Notation "- a" := (nopp a) : num_scope.

(** [Math.min] and [Math.max]: NaN when an argument is. *)
Definition nmin (a b : num) : num :=
  match a, b with
  | NaN, _ | _, NaN => NaN
  | _, _ => if (a <=? b)%num then a else b
  end.
Definition nmax (a b : num) : num :=
  match a, b with
  | NaN, _ | _, NaN => NaN
  | _, _ => if (a <=? b)%num then b else a
  end.

Definition nfloor (a : num) : num :=
  match a with Fin q => Fin (inject_Z (Qfloor q)) | _ => a end.
Definition nceil (a : num) : num :=
  match a with Fin q => Fin (inject_Z (Qceiling q)) | _ => a end.

(** [Math.round]: to nearest, ties towards +Infinity. *)
Definition nround (a : num) : num :=
  match a with Fin q => Fin (inject_Z (Qfloor (q + (1 # 2)))) | _ => a end.

Definition isFinite (a : num) : bool := match a with Fin _ => true | _ => false end.

(** ToBoolean on a number. *)
Definition ntruthy (a : num) : bool :=
  match a with NaN => false | Infty _ => true | Fin q => negb (Qeq_bool q 0) end.

(** [a || b] on numbers. *)
Definition nor (a b : num) : num := if ntruthy a then a else b.

(** ** The order on numbers *)

(** A number that is not NaN and, when finite, a representable value. *)
Definition wf (a : num) : Prop :=
  match a with NaN => False | Infty _ => True | Fin q => double q /\ (- huge < q < huge)%Q end.

Definition nle (a b : num) : Prop := nleb a b = true.
Definition nlt (a b : num) : Prop := nltb a b = true.

Lemma nle_Fin p q : nle (Fin p) (Fin q) <-> (p <= q)%Q.
Proof. unfold nle. simpl. apply Qle_bool_iff. Qed.

Lemma Qle_bool_false p q : Qle_bool p q = false <-> (q < p)%Q.
Proof.
  split; intros H.
  - apply Qnot_le_lt. intros C. apply Qle_bool_iff in C. congruence.
  - destruct (Qle_bool p q) eqn:E; [|reflexivity].
    apply Qle_bool_iff in E. exfalso. lra.
Qed.

Lemma nlt_Fin p q : nlt (Fin p) (Fin q) <-> (p < q)%Q.
Proof. unfold nlt. simpl. rewrite negb_true_iff. apply Qle_bool_false. Qed.

Lemma nle_refl a : a <> NaN -> nle a a.
Proof.
  destruct a as [|[]|q]; try easy. intros _. apply nle_Fin, Qle_refl.
Qed.

Lemma nle_trans a b c : nle a b -> nle b c -> nle a c.
Proof.
  destruct a as [|[]|], b as [|[]|], c as [|[]|]; try easy.
  rewrite !nle_Fin. apply Qle_trans.
Qed.

Lemma nlt_nle a b : nlt a b -> nle a b.
Proof.
  destruct a as [|[]|], b as [|[]|]; try easy. rewrite nle_Fin, nlt_Fin. lra.
Qed.

Lemma nle_lt_trans a b c : nle a b -> nlt b c -> nlt a c.
Proof.
  destruct a as [|[]|], b as [|[]|], c as [|[]|]; try easy.
  rewrite nle_Fin, !nlt_Fin. lra.
Qed.

Lemma nlt_le_trans a b c : nlt a b -> nle b c -> nlt a c.
Proof.
  destruct a as [|[]|], b as [|[]|], c as [|[]|]; try easy.
  rewrite nle_Fin, !nlt_Fin. lra.
Qed.

Lemma nleb_total a b : a <> NaN -> b <> NaN -> nle a b \/ nlt b a.
Proof.
  destruct a as [|[]|p], b as [|[]|q]; try easy; try (now left); try (now right).
  intros _ _. rewrite nle_Fin, nlt_Fin. destruct (Qlt_le_dec q p); auto.
Qed.

Lemma nlt_not_le a b : nlt a b -> ~ nle b a.
Proof.
  destruct a as [|[]|], b as [|[]|]; try easy. rewrite nle_Fin, nlt_Fin. lra.
Qed.

Lemma nltb_irrefl a : nltb a a = false.
Proof.
  destruct a as [|[]|q]; try reflexivity. cbn. apply negb_false_iff, Qle_bool_iff, Qle_refl.
Qed.
Lemma nltb_false a b : a <> NaN -> b <> NaN -> nltb a b = false <-> nle b a.
Proof.
  destruct a as [|[]|p], b as [|[]|q]; try easy. intros _ _.
  rewrite nle_Fin. simpl. rewrite negb_false_iff. apply Qle_bool_iff.
Qed.

Lemma nleb_false a b : a <> NaN -> b <> NaN -> nleb a b = false <-> nlt b a.
Proof.
  destruct a as [|[]|p], b as [|[]|q]; try easy. intros _ _.
  rewrite nlt_Fin. simpl. apply Qle_bool_false.
Qed.

Lemma nle_not_NaN a b : nle a b -> a <> NaN /\ b <> NaN.
Proof. destruct a, b; easy. Qed.

Lemma nlt_not_NaN a b : nlt a b -> a <> NaN /\ b <> NaN.
Proof. destruct a, b; easy. Qed.

(** ** Rounding to a number *)

Lemma rnd_mono p q : (p <= q)%Q -> nle (rnd p) (rnd q).
Proof.
  intros H. apply rndq_mono in H. unfold rnd, nle.
  assert (Hh : (- huge < huge)%Q) by reflexivity.
  repeat match goal with
  | |- context [Qle_bool ?a ?b] => let E := fresh "E" in destruct (Qle_bool a b) eqn:E;
      [apply Qle_bool_iff in E|apply Qle_bool_false in E]
  end; simpl; try reflexivity; try (exfalso; lra).
  apply Qle_bool_iff. assumption.
Qed.

Lemma rnd_wf q : wf (rnd q).
Proof.
  unfold rnd. destruct (Qle_bool huge _) eqn:E1; [exact I|].
  destruct (Qle_bool _ (- huge)) eqn:E2; [exact I|].
  apply Qle_bool_false in E1, E2. split; [apply double_rndq|lra].
Qed.

Lemma rnd_not_NaN q : rnd q <> NaN.
Proof. pose proof (rnd_wf q) as H. intros E. rewrite E in H. exact H. Qed.

Lemma nle_Infty_l a : a <> NaN -> nle (Infty true) a.
Proof. destruct a as [|[]|]; easy. Qed.

Lemma nle_Infty_r a : a <> NaN -> nle a (Infty false).
Proof. destruct a as [|[]|]; easy. Qed.

(** Rounding a representable value in range changes nothing. *)
Lemma rnd_exact q : double q -> (- huge < q < huge)%Q ->
  exists q', rnd q = Fin q' /\ (q' == q)%Q.
Proof.
  intros Hd [L U]. unfold double in Hd. exists (rndq q). split; [|exact Hd].
  unfold rnd.
  destruct (Qle_bool huge _) eqn:E1; [apply Qle_bool_iff in E1; lra|].
  destruct (Qle_bool _ (- huge)) eqn:E2; [apply Qle_bool_iff in E2; lra|].
  reflexivity.
Qed.

Lemma rnd_le_wf q b : double b -> (- huge < b < huge)%Q -> (q <= b)%Q -> nle (rnd q) (Fin b).
Proof.
  intros Hd Hr H. destruct (rnd_exact b Hd Hr) as (b' & E & Eb).
  apply rnd_mono in H. rewrite E in H. apply nle_trans with (Fin b'); [exact H|].
  apply nle_Fin. lra.
Qed.

Lemma rnd_ge_wf q b : double b -> (- huge < b < huge)%Q -> (b <= q)%Q -> nle (Fin b) (rnd q).
Proof.
  intros Hd Hr H. destruct (rnd_exact b Hd Hr) as (b' & E & Eb).
  apply rnd_mono in H. rewrite E in H. apply nle_trans with (Fin b'); [|exact H].
  apply nle_Fin. lra.
Qed.

Lemma rnd_le_rndq q b : (- huge < b < huge)%Q -> (rndq q <= b)%Q -> nle (rnd q) (Fin b).
Proof.
  intros Hb H. unfold rnd.
  destruct (Qle_bool huge _) eqn:E1; [apply Qle_bool_iff in E1; lra|].
  destruct (Qle_bool _ (- huge)); [reflexivity|]. apply nle_Fin, H.
Qed.

Lemma wf_Z z : Z.abs z <= 2 ^ 53 -> wf (Fin (inject_Z z)).
Proof.
  intros H. split; [apply double_Z, H|]. unfold huge.
  rewrite <- inject_Z_opp, <- !Zlt_Qlt.
  assert (2 ^ 53 < 2 ^ 1024) by reflexivity. lia.
Qed.

Lemma num_of_Z_exact z : Z.abs z <= 2 ^ 53 ->
  exists q, num_of_Z z = Fin q /\ (q == inject_Z z)%Q.
Proof. intros H. destruct (wf_Z z H) as [Hd Hr]. apply rnd_exact; assumption. Qed.

Lemma nle_between_finite a b c : nle a b -> nle b c ->
  isFinite a = true -> isFinite c = true -> isFinite b = true.
Proof. destruct a as [|[]|], b as [|[]|], c as [|[]|]; easy. Qed.

(** The sign of a difference is exact. *)
Lemma nsub_sign p q : wf (Fin p) -> wf (Fin q) -> nleb (nsub (Fin p) (Fin q)) (Fin 0) = nleb (Fin p) (Fin q).
Proof.
  intros [Hp _] [Hq _]. unfold nsub. cbn [nopp nadd].
  assert (E : (p + Qred (- q) == p - q)%Q) by (rewrite Qred_correct; reflexivity).
  pose proof (rndq_proper _ _ E) as E'.
  destruct (Qlt_le_dec q p) as [H|H].
  - pose proof (rndq_diff_pos p q Hp Hq H) as L.
    transitivity false; cycle 1. { symmetry. cbn. apply Qle_bool_false, H. }
    unfold rnd. destruct (Qle_bool huge _); [reflexivity|].
    destruct (Qle_bool _ (- huge)) eqn:E2.
    + apply Qle_bool_iff in E2. assert (0 < huge)%Q by reflexivity. lra.
    + apply Qle_bool_false. lra.
  - transitivity true; cycle 1. { symmetry. apply Qle_bool_iff, H. }
    apply (rnd_le_wf (p + Qred (- q)) 0); [apply (double_Z 0); lia|split; reflexivity|lra].
Qed.

Lemma num_of_Z_wf z : wf (num_of_Z z).
Proof. apply rnd_wf. Qed.

(** ** Distances *)

Lemma rndq_opp q : (rndq (- q) == - rndq q)%Q.
Proof.
  destruct (Q_sign q) as [H|[H|H]].
  - rewrite (rndq_neg q H), (rndq_pos (- q)) by lra. ring.
  - assert (E : (- q == 0)%Q) by lra. rewrite (rndq_zero q H), (rndq_zero _ E). reflexivity.
  - assert (Hn : (- q < 0)%Q) by lra. rewrite (rndq_neg _ Hn), (rndq_pos q H).
    assert (E : (- - q == q)%Q) by ring. pose proof (rndq_proper _ _ E) as E'.
    rewrite (rndq_pos (- - q)), (rndq_pos q H) in E' by lra. rewrite E'. reflexivity.
Qed.

Lemma rndq_abs q : (Qabs (rndq q) == rndq (Qabs q))%Q.
Proof.
  assert (Z0 : double 0) by (apply (double_Z 0); lia).
  destruct (Qlt_le_dec q 0) as [H|H].
  - rewrite (Qabs_neg q) by lra. rewrite rndq_opp. apply Qabs_neg. apply rndq_le_double; [exact Z0|lra].
  - rewrite (Qabs_pos q) by lra. apply Qabs_pos. apply rndq_ge_double; assumption.
Qed.

(** The larger of two distances is not rounded below the smaller one. *)
Lemma nabs_rnd_mono d e : (Qabs d <= Qabs e)%Q -> nle (nabs (rnd d)) (nabs (rnd e)).
Proof.
  intros H. apply rndq_mono in H. rewrite <- !rndq_abs in H.
  pose proof (rnd_not_NaN d) as Hd.
  assert (A : forall q, (- huge < rndq q < huge)%Q \/ (huge <= Qabs (rndq q))%Q).
  { intros q. destruct (Qlt_le_dec (Qabs (rndq q)) huge) as [L|L]; [left|right; exact L].
    apply Qabs_Qlt_condition, L. }
  destruct (A e) as [[E1 E2]|E].
  - assert (D : (Qabs (rndq d) < huge)%Q).
    { eapply Qle_lt_trans; [exact H|]. apply Qabs_Qlt_condition. split; assumption. }
    apply Qabs_Qlt_condition in D as [D1 D2]. unfold rnd.
    rewrite !(proj2 (Qle_bool_false _ _)) by assumption. cbn [nabs]. apply nle_Fin.
    rewrite !Qred_correct. exact H.
  - assert (nabs (rnd e) = Infty false) as ->.
    { unfold rnd. destruct (Qle_bool huge (rndq e)) eqn:E1; [reflexivity|].
      destruct (Qle_bool (rndq e) (- huge)) eqn:E2; [reflexivity|].
      apply Qle_bool_false in E1, E2. exfalso.
      assert (Qabs (rndq e) < huge)%Q by (apply Qabs_Qlt_condition; split; assumption). lra. }
    apply nle_Infty_r. destruct (rnd d); [congruence|discriminate..].
Qed.

Lemma nabs_sub p q : nabs (nsub (Fin p) (Fin q)) = nabs (rnd (p + Qred (- q))).
Proof. reflexivity. Qed.

Lemma distance_mono x p q :
  (Qabs (p - x) <= Qabs (q - x))%Q ->
  nle (nabs (nsub (Fin p) (Fin x))) (nabs (nsub (Fin q) (Fin x))).
Proof.
  intros H. rewrite !nabs_sub. apply nabs_rnd_mono.
  assert (E : forall r, (r + Qred (- x) == r - x)%Q) by (intros r; rewrite Qred_correct; reflexivity).
  rewrite !E. exact H.
Qed.

Lemma distance_sym p q : nle (nabs (nsub (Fin p) (Fin q))) (nabs (nsub (Fin q) (Fin p))).
Proof.
  rewrite !nabs_sub. apply nabs_rnd_mono. rewrite !Qred_correct.
  assert (E : (q + - p == - (p + - q))%Q) by ring. rewrite E, Qabs_opp. apply Qle_refl.
Qed.

Lemma nmax_wf a b : wf a -> wf b -> wf (nmax a b).
Proof. destruct a, b; cbn [nmax]; try contradiction; intros; destruct (nleb _ _); assumption. Qed.
Lemma nmin_wf a b : wf a -> wf b -> wf (nmin a b).
Proof. destruct a, b; cbn [nmin]; try contradiction; intros; destruct (nleb _ _); assumption. Qed.

Lemma wf_not_NaN a : wf a -> a <> NaN.
Proof. intros H E. rewrite E in H. exact H. Qed.

Lemma nmax_spec a b : a <> NaN -> b <> NaN ->
  nle a (nmax a b) /\ nle b (nmax a b) /\ (nmax a b = a \/ nmax a b = b).
Proof.
  intros Ha Hb. assert (E : nmax a b = if nleb a b then b else a) by (destruct a, b; first [reflexivity | congruence]).
  rewrite E. destruct (nleb a b) eqn:L.
  - repeat split; auto. apply nle_refl, Hb.
  - apply nleb_false in L; try assumption. apply nlt_nle in L. repeat split; auto. apply nle_refl, Ha.
Qed.

Lemma nmin_spec a b : a <> NaN -> b <> NaN ->
  nle (nmin a b) a /\ nle (nmin a b) b /\ (nmin a b = a \/ nmin a b = b).
Proof.
  intros Ha Hb. assert (E : nmin a b = if nleb a b then a else b) by (destruct a, b; first [reflexivity | congruence]).
  rewrite E. destruct (nleb a b) eqn:L.
  - repeat split; auto. apply nle_refl, Ha.
  - apply nleb_false in L; try assumption. apply nlt_nle in L. repeat split; auto. apply nle_refl, Hb.
Qed.

(** Clamping to [0, l]. *)
Lemma nclamp_spec v l : v <> NaN -> nle (Fin 0) l ->
  nle (Fin 0) (nmin (nmax v (Fin 0)) l) /\ nle (nmin (nmax v (Fin 0)) l) l.
Proof.
  intros Hv Hl. destruct (nle_not_NaN _ _ Hl) as [_ Hln].
  destruct (nmax_spec v (Fin 0) Hv ltac:(discriminate)) as (_ & H2 & H3).
  assert (Hm : nmax v (Fin 0) <> NaN) by (destruct H3 as [->| ->]; [exact Hv|discriminate]).
  destruct (nmin_spec (nmax v (Fin 0)) l Hm Hln) as (_ & H5 & E).
  split; [|exact H5]. destruct E as [->| ->]; assumption.
Qed.

Lemma nclamp_mono a b l : nle a b -> nle (Fin 0) l ->
  nle (nmin (nmax a (Fin 0)) l) (nmin (nmax b (Fin 0)) l).
Proof.
  intros H Hl. destruct (nle_not_NaN _ _ H) as [Ha Hb]. destruct (nle_not_NaN _ _ Hl) as [_ Hln].
  destruct (nmax_spec a (Fin 0) Ha ltac:(discriminate)) as (A1 & A2 & A3).
  destruct (nmax_spec b (Fin 0) Hb ltac:(discriminate)) as (B1 & B2 & B3).
  assert (M : nle (nmax a (Fin 0)) (nmax b (Fin 0))).
  { destruct A3 as [->| ->]; [exact (nle_trans _ _ _ H B1)|exact B2]. }
  destruct (nle_not_NaN _ _ M) as [N1 N2].
  destruct (nmin_spec _ l N1 Hln) as (C1 & C2 & _). destruct (nmin_spec _ l N2 Hln) as (D1 & D2 & D3).
  destruct D3 as [->| ->]; [exact (nle_trans _ _ _ C1 M)|exact C2].
Qed.

(** ** Arithmetic that the coordinate mappings rely on *)

Section Bounds.
Local Open Scope num_scope.

(** A share [a / l] of a positive whole lies between 0 and 1. *)
Lemma ndiv_unit a l : nle (Fin 0) a -> nle a (Fin l) -> (0 < l)%Q ->
  nle (Fin 0) (a / Fin l) /\ nle (a / Fin l) (Fin 1).
Proof.
  destruct a as [|[]|a]; try easy. rewrite !nle_Fin. intros H0 H1 Hl. simpl.
  destruct (Qeq_bool l 0) eqn:E; [apply Qeq_bool_iff in E; lra|].
  split; [apply rnd_ge_wf|apply rnd_le_wf]; try apply (wf_Z 0); try apply (wf_Z 1); try lia.
  - apply Qle_shift_div_l; lra.
  - apply Qle_shift_div_r; lra.
Qed.

Lemma ndiv_mono a b l : nle a b -> (0 < l)%Q -> nle (a / Fin l) (b / Fin l).
Proof.
  assert (S : (0 < l)%Q -> qsign l = false).
  { unfold qsign. intros H. rewrite negb_false_iff. apply Qle_bool_iff. lra. }
  intros H Hl. specialize (S Hl).
  assert (E : Qeq_bool l 0 = false).
  { destruct (Qeq_bool l 0) eqn:E; [apply Qeq_bool_iff in E; lra|reflexivity]. }
  destruct a as [|[]|p], b as [|[]|q]; try easy; simpl; rewrite ?E, ?S; try easy;
    try apply nle_Infty_l, rnd_not_NaN; try apply nle_Infty_r, rnd_not_NaN.
  apply rnd_mono. apply nle_Fin in H. apply Qmult_le_compat_r; [exact H|].
  apply Qlt_le_weak, Qinv_lt_0_compat, Hl.
Qed.

(** A share of a representable non-negative extent stays within the extent. *)
Lemma nmul_unit f w : nle (Fin 0) f -> nle f (Fin 1) -> wf (Fin w) -> (0 <= w)%Q ->
  nle (Fin 0) (f * Fin w) /\ nle (f * Fin w) (Fin w).
Proof.
  destruct f as [|[]|f]; try easy. rewrite !nle_Fin. intros H0 H1 [Hd Hr] Hw. simpl.
  assert (f * w <= 1 * w)%Q by (apply Qmult_le_compat_r; assumption).
  assert (0 <= f * w)%Q by (apply Qmult_le_0_compat; assumption).
  split; [apply rnd_ge_wf; try apply (wf_Z 0); try lia; assumption|].
  apply rnd_le_wf; try assumption. lra.
Qed.

Lemma nmul_mono_r f g w : nle (Fin 0) f -> nle f g -> nle g (Fin 1) -> (0 <= w)%Q ->
  nle (f * Fin w) (g * Fin w).
Proof.
  destruct f as [|[]|f], g as [|[]|g]; try easy. rewrite !nle_Fin. intros _ H _ Hw. simpl.
  apply rnd_mono, Qmult_le_compat_r; assumption.
Qed.
Lemma nmul_mono_const a b c : nle a b -> (0 < c)%Q -> nle (a * Fin c) (b * Fin c).
Proof.
  intros H Hc.
  assert (S : qsign c = false) by (unfold qsign; rewrite negb_false_iff; apply Qle_bool_iff; lra).
  assert (E : Qeq_bool c 0 = false) by (destruct (Qeq_bool c 0) eqn:E; [apply Qeq_bool_iff in E; lra|reflexivity]).
  destruct a as [|[]|p], b as [|[]|q]; try easy; simpl; rewrite ?E, ?S; try easy;
    try apply nle_Infty_l, rnd_not_NaN; try apply nle_Infty_r, rnd_not_NaN.
  apply rnd_mono, Qmult_le_compat_r; [apply nle_Fin, H|lra].
Qed.

(** A product is representable, infinite or NaN. *)
Lemma nmul_wf a b : a * b <> NaN -> wf (a * b).
Proof.
  destruct a as [|s|p], b as [|t|q]; try easy; simpl; try (destruct (Qeq_bool _ 0); easy). intros _. apply rnd_wf.
Qed.

Lemma nround_mono a b : nle a b -> nle (nround a) (nround b).
Proof.
  destruct a as [|[]|p], b as [|[]|q]; try easy. intros H. apply nle_Fin in H. unfold nround. apply nle_Fin.
  rewrite <- Zle_Qle. apply Qfloor_resp_le. lra.
Qed.

Lemma nround_le_Z a z : nle a (Fin (inject_Z z)) -> nle (nround a) (Fin (inject_Z z)).
Proof.
  intros H. apply nround_mono in H. unfold nround at 2 in H. eapply nle_trans; [exact H|]. apply nle_Fin. rewrite <- Zle_Qle.
  assert (Qfloor (inject_Z z + (1 # 2)) < z + 1); [|lia].
  rewrite Zlt_Qlt. destruct (Qfloor_bounds (inject_Z z + (1 # 2))) as [L _]. rewrite inject_Z_plus.
  change (inject_Z 1) with 1%Q. lra.
Qed.

Lemma nround_ge_Z a z : nle (Fin (inject_Z z)) a -> nle (Fin (inject_Z z)) (nround a).
Proof.
  intros H. apply nround_mono in H. unfold nround at 1 in H. eapply nle_trans; [|exact H]. apply nle_Fin. rewrite <- Zle_Qle.
  rewrite <- (Qfloor_Z z) at 1. apply Qfloor_resp_le. lra.
Qed.

Lemma nmin_mono c a b : nle a b -> c <> NaN -> nle (nmin c a) (nmin c b).
Proof.
  intros H Hc. destruct (nle_not_NaN _ _ H) as [Ha Hb].
  pose proof (nmin_spec c a Hc Ha) as (A1 & A2 & A3). pose proof (nmin_spec c b Hc Hb) as (B1 & B2 & B3).
  destruct B3 as [->| ->]; [exact A1|]. eapply nle_trans; [exact A2|exact H].
Qed.

Lemma nmax_mono c a b : nle a b -> c <> NaN -> nle (nmax c a) (nmax c b).
Proof.
  intros H Hc. destruct (nle_not_NaN _ _ H) as [Ha Hb].
  pose proof (nmax_spec c a Hc Ha) as (A1 & A2 & A3). pose proof (nmax_spec c b Hc Hb) as (B1 & B2 & B3).
  destruct A3 as [->| ->]; [exact B1|]. eapply nle_trans; [exact H|exact B2].
Qed.

(** A product with a share [r] of at most 1 does not exceed the whole, and is no
    less than the product of lower bounds. *)
Lemma rnd_share q r w c d : (q == r * w)%Q -> (0 <= c)%Q -> (c <= r)%Q -> (r <= 1)%Q -> (0 <= d)%Q -> (d <= w)%Q ->
  wf (Fin w) -> double (c * d) -> (c * d <= 1)%Q -> nle (Fin (c * d)) (rnd q) /\ nle (rnd q) (Fin w).
Proof.
  intros E Hc Hr H1 Hd Hw [Dw Rw] Dcd Scd.
  assert (c * d <= r * w)%Q by (apply Qmult_le_compat_nonneg; split; assumption).
  assert (r * w <= 1 * w)%Q by (apply Qmult_le_compat_r; lra).
  assert (B : (1 < huge)%Q) by reflexivity.
  split; [apply rnd_ge_wf|apply rnd_le_wf]; try assumption; try lra.
  assert (0 <= c * d)%Q by (apply Qmult_le_0_compat; assumption). lra.
Qed.

Lemma nmul_share r x c d : (0 < c)%Q -> (0 < d)%Q -> nle (Fin c) r -> nle r (Fin 1) -> nle (Fin d) x -> wf x ->
  double (c * d) -> (c * d <= 1)%Q ->
  (nle (Fin (c * d)) (r * x) /\ nle (r * x) x) /\ (nle (Fin (c * d)) (x * r) /\ nle (x * r) x).
Proof.
  intros Hc Hd H1 H2 H3 Wx D S. destruct r as [|[]|r]; try easy. rewrite nle_Fin in *.
  destruct x as [|[]|w]; try easy.
  - assert (E : Qeq_bool r 0 = false) by (destruct (Qeq_bool r 0) eqn:E; [apply Qeq_bool_iff in E; lra|reflexivity]).
    assert (G : qsign r = false) by (unfold qsign; rewrite negb_false_iff; apply Qle_bool_iff; lra).
    simpl. rewrite E, G. easy.
  - rewrite nle_Fin in *. simpl. split; apply (rnd_share _ r w c d); try assumption; try lra; ring.
Qed.
End Bounds.

#[export] Hint Resolve nle_refl nlt_nle rnd_wf rnd_not_NaN num_of_Z_wf wf_not_NaN wf_Z nmax_wf nmin_wf : js.
