(* ===== verification/JsString.v ===== *)
(** JavaScript strings and the conversions between strings and numbers.

    A string is a sequence of code units; the model's code units are the 256
    characters of [ascii].  Holds the string operations the components call
    (character access, [slice], [indexOf], [trim], [split]) and the language's
    [parseInt], [parseFloat] and Number-to-String conversions. *)
From Stdlib Require Export Ascii String.
From Stdlib Require Import DecimalString DecimalZ.
From S2P Require Export JsNum.

Open Scope string_scope.
Open Scope Z_scope.

#[global] Arguments String.append !_ _ /.

(** ** Characters *)

Definition code (c : ascii) : Z := Z.of_N (N_of_ascii c).
Definition chr (z : Z) : ascii := ascii_of_N (Z.to_N z).

Definition newline : ascii := chr 10.
Definition quote : ascii := chr 34.

Definition is_ws (c : ascii) : bool :=
  let z := code c in
  ((9 <=? z) && (z <=? 13)) || (z =? 32) || (z =? 160).

Definition is_digit (c : ascii) : bool := (48 <=? code c) && (code c <=? 57).

(** The value of [c] as a digit of [radix]. *)
Definition digit_val (radix : Z) (c : ascii) : option Z :=
  let z := code c in
  let v := if (48 <=? z) && (z <=? 57) then z - 48
           else if (97 <=? z) && (z <=? 122) then z - 87
           else if (65 <=? z) && (z <=? 90) then z - 55
           else 36 in
  if v <? radix then Some v else None.

Definition lower_char (c : ascii) : ascii :=
  let z := code c in
  if ((65 <=? z) && (z <=? 90)) || ((192 <=? z) && (z <=? 222) && negb (z =? 215))
  then chr (z + 32) else c.

Fixpoint toLowerCase (s : string) : string :=
  match s with
  | EmptyString => EmptyString
  | String c s => String (lower_char c) (toLowerCase s)
  end.

(** ** Searching and slicing *)

Definition str1 (c : ascii) : string := String c EmptyString.

(** [s.includes(c)] for a one-character argument. *)
Fixpoint includes_char (s : string) (c : ascii) : bool :=
  match s with
  | EmptyString => false
  | String d s => Ascii.eqb c d || includes_char s c
  end.

(** [s.slice(a, b)] and [s.substring(a, b)] for [0 <= a <= b]. *)
Definition slice (s : string) (a b : nat) : string := String.substring a (b - a) s.

(** [s.slice(a)] *)
Definition slice_from (s : string) (a : nat) : string := slice s a (String.length s).

Fixpoint starts_with (p s : string) : bool :=
  match p, s with
  | EmptyString, _ => true
  | String a p, String b s => Ascii.eqb a b && starts_with p s
  | _, _ => false
  end.

(** [s.indexOf(p)]: [None] where JavaScript answers -1. *)
Fixpoint index_of (p s : string) : option nat :=
  if starts_with p s then Some 0%nat
  else match s with
       | EmptyString => None
       | String _ s' => option_map S (index_of p s')
       end.

(** [-1 !== s.indexOf(p)] *)
Definition has (p s : string) : bool := match index_of p s with Some _ => true | None => false end.

Fixpoint trim_start (s : string) : string :=
  match s with
  | EmptyString => EmptyString
  | String c s' => if is_ws c then trim_start s' else s
  end.

Fixpoint trim_end (s : string) : string :=
  match s with
  | EmptyString => EmptyString
  | String c s' =>
      match trim_end s' with
      | EmptyString => if is_ws c then EmptyString else str1 c
      | t => String c t
      end
  end.

Definition trim (s : string) : string := trim_end (trim_start s).

(** [s.split(/[seps]/)]: the maximal runs of characters outside [seps]. *)
Fixpoint split_any (seps : string) (s : string) : list string :=
  match s with
  | EmptyString => [EmptyString]
  | String c s' =>
      if includes_char seps c then EmptyString :: split_any seps s'
      else match split_any seps s' with
           | w :: ws => String c w :: ws
           | [] => [str1 c]
           end
  end.

(** [ss.join(sep)] *)
Definition join (sep : string) (ss : list string) : string := String.concat sep ss.

(** ** Integers as decimal text *)

Definition Z_to_string (z : Z) : string := NilZero.string_of_int (Z.to_int z).

(** Reads the longest prefix of digits of [radix]: value and number of digits. *)
Fixpoint read_digits (radix : Z) (s : string) (acc : Z) (n : nat) : Z * nat * string :=
  match s with
  | EmptyString => (acc, n, s)
  | String c s' =>
      match digit_val radix c with
      | Some d => read_digits radix s' (acc * radix + d) (S n)
      | None => (acc, n, s)
      end
  end.

Definition read_sign (s : string) : bool * string :=
  match s with
  | String c s' =>
      if Ascii.eqb c "-" then (true, s') else if Ascii.eqb c "+" then (false, s') else (false, s)
  | EmptyString => (false, s)
  end.

Definition signed (neg : bool) (z : Z) : Z := if neg then - z else z.

(** [parseInt(s, 10)] *)
Definition parseInt10 (s : string) : num :=
  let '(neg, s) := read_sign (trim_start s) in
  match read_digits 10 s 0 0 with
  | (_, O, _) => NaN
  | (z, _, _) => num_of_Z (signed neg z)
  end.

(** [parseInt(s)]: a 0x prefix selects radix 16. *)
Definition parseInt (s : string) : num :=
  let '(neg, s) := read_sign (trim_start s) in
  let '(radix, s) :=
    if starts_with "0x" s || starts_with "0X" s then (16, slice_from s 2) else (10, s) in
  match read_digits radix s 0 0 with
  | (_, O, _) => NaN
  | (z, _, _) => num_of_Z (signed neg z)
  end.

(** The exponent part of a decimal literal, 0 when there is none. *)
Definition read_exponent (s : string) : Z :=
  match s with
  | String c s' =>
      if Ascii.eqb c "e" || Ascii.eqb c "E" then
        let '(neg, s') := read_sign s' in
        match read_digits 10 s' 0 0 with
        | (_, O, _) => 0
        | (z, _, _) => signed neg z
        end
      else 0
  | EmptyString => 0
  end.

(** [m * 10^e] rounded; exponents no binary64 value can reach are cut short. *)
Definition decimal_num (m e : Z) : num :=
  if m =? 0 then Fin 0
  else if e >? 400 then Infty (m <? 0)
  else if e >=? 0 then rnd (inject_Z (m * 10 ^ e))
  else rnd (Qred (m # Z.to_pos (10 ^ (- e)))).

(** [parseFloat(s)] *)
Definition parseFloat (s : string) : num :=
  let '(neg, s) := read_sign (trim_start s) in
  if starts_with "Infinity" s then Infty neg else
  let '(ip, ni, s1) := read_digits 10 s 0 0 in
  let '(m, nf, s2) :=
    match s1 with
    | String c s' => if Ascii.eqb c "." then read_digits 10 s' ip 0 else (ip, 0%nat, s1)
    | EmptyString => (ip, 0%nat, s1)
    end in
  if (ni + nf =? 0)%nat then NaN
  else decimal_num (signed neg m) (read_exponent s2 - Z.of_nat nf).

(** A literal of [radix] with nothing after it. *)
Definition radix_literal (radix : Z) (s : string) : num :=
  match read_digits radix s 0 0 with
  | (_, O, _) => NaN
  | (z, _, "") => num_of_Z z
  | _ => NaN
  end.

(** The exponent part and nothing after it. *)
Definition whole_exponent (s : string) : option Z :=
  match s with
  | EmptyString => Some 0
  | String c s' =>
      if Ascii.eqb c "e" || Ascii.eqb c "E" then
        let '(neg, s') := read_sign s' in
        match read_digits 10 s' 0 0 with
        | (_, O, _) => None
        | (z, _, "") => Some (signed neg z)
        | _ => None
        end
      else None
  end.

(** [Number(s)]: unlike [parseFloat], the whole text is the literal. *)
Definition string_to_number (s : string) : num :=
  let s := trim s in
  if String.eqb s "" then Fin 0
  else if starts_with "0x" s || starts_with "0X" s then radix_literal 16 (slice_from s 2)
  else if starts_with "0o" s || starts_with "0O" s then radix_literal 8 (slice_from s 2)
  else if starts_with "0b" s || starts_with "0B" s then radix_literal 2 (slice_from s 2)
  else
    let '(neg, s) := read_sign s in
    if String.eqb s "Infinity" then Infty neg else
    let '(ip, ni, s1) := read_digits 10 s 0 0 in
    let '(m, nf, s2) :=
      match s1 with
      | String c s' => if Ascii.eqb c "." then read_digits 10 s' ip 0 else (ip, 0%nat, s1)
      | EmptyString => (ip, 0%nat, s1)
      end in
    if (ni + nf =? 0)%nat then NaN
    else match whole_exponent s2 with
         | Some e => decimal_num (signed neg m) (e - Z.of_nat nf)
         | None => NaN
         end.

(** ** Number to String *)

(** The decimal exponent [n] with 10^(n-1) <= q < 10^n, for a positive [q]. *)
Fixpoint dec_exp_small (fuel : nat) (q : Q) (n : Z) : Z :=
  match fuel with
  | O => n
  | S fuel => if Qle_bool 1 (q * 10) then n else dec_exp_small fuel (Qred (q * 10)) (n - 1)
  end.
Definition dec_exp (q : Q) : Z :=
  if Qle_bool 1 q then Z.of_nat (String.length (Z_to_string (Qfloor q)))
  else dec_exp_small 400 q 0.

Definition scale10 (q : Q) (k : Z) : Q :=
  if k >=? 0 then Qred (q * inject_Z (10 ^ k)) else Qred (q / inject_Z (10 ^ (- k))).

(** A significand of [k] digits and its decimal exponent; 10^k carries into
    the exponent. *)
Definition normalise (s n k : Z) : Z * Z * Z :=
  if s =? 10 ^ k then (10 ^ (k - 1), n + 1, k) else (s, n, k).

(** The shortest significand [s] of [k], [k+1], .. digits whose value
    s * 10^(n-k) rounds to [q], the closest to [q] first. *)
Fixpoint shortest (fuel : nat) (q : Q) (n : Z) (k : Z) : Z * Z * Z :=
  let x := scale10 q (k - n) in
  let near := Qfloor (x + (1 # 2)) in
  let far := if Qle_bool (inject_Z near) x then near + 1 else near - 1 in
  match fuel with
  | O => normalise near n k
  | S fuel =>
      if Qeq_bool (rndq (scale10 (inject_Z near) (n - k))) q then normalise near n k
      else if Qeq_bool (rndq (scale10 (inject_Z far) (n - k))) q then normalise far n k
      else shortest fuel q n (k + 1)
  end.

Fixpoint zeros (n : nat) : string :=
  match n with O => EmptyString | S n => String "0" (zeros n) end.

Definition exp_string (e : Z) : string :=
  "e" ++ (if e <? 0 then "-" else "+") ++ Z_to_string (Z.abs e).

(** Number::toString for a positive finite value, by the cases of the standard. *)
Definition pos_to_string (q : Q) : string :=
  let '(s, n, k) := shortest 17 q (dec_exp q) 1 in
  let ds := Z_to_string s in
  if (k <=? n) && (n <=? 21) then ds ++ zeros (Z.to_nat (n - k))
  else if (0 <? n) && (n <=? 21) then
    slice ds 0 (Z.to_nat n) ++ "." ++ slice_from ds (Z.to_nat n)
  else if (-6 <? n) && (n <=? 0) then "0." ++ zeros (Z.to_nat (- n)) ++ ds
  else if k =? 1 then ds ++ exp_string (n - 1)
  else slice ds 0 1 ++ "." ++ slice_from ds 1 ++ exp_string (n - 1).

Definition num_to_string (a : num) : string :=
  match a with
  | NaN => "NaN"
  | Infty neg => if neg then "-Infinity" else "Infinity"
  | Fin q =>
      match (q ?= 0)%Q with
      | Eq => "0"
      | Gt => pos_to_string q
      | Lt => "-" ++ pos_to_string (- q)
      end
  end.

(** ** Values read from JSON or from form fields *)

Inductive jsval :=
| VUndef
| VNull
| VBool (b : bool)
| VNum (n : num)
| VStr (s : string).

Definition js_to_string (v : jsval) : string :=
  match v with
  | VUndef => "undefined"
  | VNull => "null"
  | VBool b => if b then "true" else "false"
  | VNum n => num_to_string n
  | VStr s => s
  end.

Definition js_truthy (v : jsval) : bool :=
  match v with
  | VUndef | VNull => false
  | VBool b => b
  | VNum n => ntruthy n
  | VStr s => negb (String.eqb s "")
  end.

Definition js_Number (v : jsval) : num :=
  match v with
  | VUndef => NaN
  | VNull => Fin 0
  | VBool b => Fin (if b then 1 else 0)
  | VNum n => n
  | VStr s => string_to_number s
  end.

(** The operator [==] on primitive values. *)
Definition loose_equals (a b : jsval) : bool :=
  match a, b with
  | (VUndef | VNull), (VUndef | VNull) => true
  | (VUndef | VNull), _ | _, (VUndef | VNull) => false
  | VStr s, VStr t => String.eqb s t
  | _, _ => neqb (js_Number a) (js_Number b)
  end.

Definition js_parseInt (v : jsval) : num := parseInt (js_to_string v).
Definition js_parseFloat (v : jsval) : num := parseFloat (js_to_string v).
Definition js_parseInt10 (v : jsval) : num := parseInt10 (js_to_string v).

(** The value a number field makes of a text: the text when it is a number of
    the form -?digits(.digits)?(e[+-]?digits)?, nothing otherwise. *)
Definition number_value (s : string) : string :=
  let unsigned := match s with String c t => if Ascii.eqb c "-" then t else s | _ => s end in
  let '(_, ni, rest) := read_digits 10 unsigned 0 0 in
  let '(bad, nf, rest) :=
    match rest with
    | String c t =>
        if Ascii.eqb c "." then let '(_, nf, rest) := read_digits 10 t 0 0 in ((nf =? 0)%nat, nf, rest)
        else (false, 0%nat, rest)
    | _ => (false, 0%nat, rest)
    end in
  match whole_exponent rest with
  | Some _ => if bad || (ni + nf =? 0)%nat then "" else s
  | None => ""
  end.

(** ** What the readers return *)

Lemma decimal_num_wf m e : wf (decimal_num m e).
Proof.
  unfold decimal_num. destruct (m =? 0); [apply (wf_Z 0); lia|].
  destruct (e >? 400); [exact I|]. destruct (e >=? 0); apply rnd_wf.
Qed.

Lemma parseFloat_wf s : isFinite (parseFloat s) = true -> wf (parseFloat s).
Proof.
  unfold parseFloat. destruct (read_sign (trim_start s)) as [neg s1].
  destruct (starts_with "Infinity" s1); [discriminate|].
  destruct (read_digits 10 s1 0 0) as [[ip ni] s2].
  destruct (match s2 with String _ _ => _ | EmptyString => _ end) as [[m nf] s3].
  destruct (_ =? 0)%nat; [discriminate|]. intros _. apply decimal_num_wf.
Qed.

(** ** Lemmas on strings *)

Lemma append_assoc (a b c : string) : (a ++ b) ++ c = a ++ b ++ c.
Proof. induction a as [|x a IH]; cbn; [reflexivity|]. f_equal. exact IH. Qed.

Lemma append_nil_r (a : string) : a ++ "" = a.
Proof. induction a as [|x a IH]; cbn; [reflexivity|]. f_equal. exact IH. Qed.

Lemma append_length (a b : string) :
  String.length (a ++ b) = (String.length a + String.length b)%nat.
Proof. induction a as [|x a IH]; cbn; [reflexivity|]. f_equal. exact IH. Qed.

Lemma append_str1 (out : string) c w : (out ++ str1 c) ++ w = out ++ String c w.
Proof. rewrite append_assoc. reflexivity. Qed.

(** A property of every character of a string. *)
Fixpoint all_chars (p : ascii -> bool) (s : string) : bool :=
  match s with
  | EmptyString => true
  | String c s => p c && all_chars p s
  end.

Lemma all_chars_app p a b : all_chars p (a ++ b) = all_chars p a && all_chars p b.
Proof. induction a as [|x a IH]; cbn; [reflexivity|]. rewrite IH. apply andb_assoc. Qed.

Lemma all_chars_impl (p q : ascii -> bool) s :
  (forall c, p c = true -> q c = true) -> all_chars p s = true -> all_chars q s = true.
Proof.
  intros H. induction s as [|c s IH]; cbn; [reflexivity|].
  intros Hp. bool_to_prop. rewrite H, IH by assumption. reflexivity.
Qed.

(** Every non-empty string has a last character. *)
Lemma string_last (s : string) : s <> "" -> exists s' c, s = s' ++ str1 c.
Proof.
  induction s as [|c s IH]; [congruence|]. intros _.
  destruct s as [|d s].
  - exists "", c. reflexivity.
  - destruct IH as (s' & x & E); [congruence|]. exists (String c s'), x.
    rewrite E. reflexivity.
Qed.

Lemma substring_all (s : string) : String.substring 0 (String.length s) s = s.
Proof. induction s as [|c s IH]; cbn; [reflexivity|]. f_equal. exact IH. Qed.

Lemma substring_app_l (a b : string) : String.substring 0 (String.length a) (a ++ b) = a.
Proof. induction a as [|c a IH]; cbn; [destruct b; reflexivity|]. f_equal. exact IH. Qed.

Lemma get_app_r (a b : string) n :
  String.get (String.length a + n) (a ++ b) = String.get n b.
Proof. induction a as [|c a IH]; cbn; [reflexivity|]. exact IH. Qed.

Lemma substring_app_r (a b : string) n m :
  String.substring (String.length a + n) m (a ++ b) = String.substring n m b.
Proof. induction a as [|c a IH]; cbn; [reflexivity|]. exact IH. Qed.

Lemma includes_char_app a b c : includes_char (a ++ b) c = includes_char a c || includes_char b c.
Proof. induction a as [|x a IH]; cbn; [reflexivity|]. rewrite IH. apply orb_assoc. Qed.

Lemma string_eqb_cons c d a b :
  String.eqb (String c a) (String d b) = Ascii.eqb c d && String.eqb a b.
Proof. reflexivity. Qed.

(** Character classes are compared as wholes, never unfolded character by
    character. *)
#[global] Arguments includes_char : simpl never.
#[global] Arguments is_ws : simpl never.
#[global] Arguments is_digit : simpl never.
#[global] Arguments code : simpl never.
#[global] Arguments Ascii.eqb : simpl never.
#[global] Arguments String.eqb : simpl never.

#[export] Hint Resolve decimal_num_wf : js.
#[export] Hint Rewrite append_assoc append_nil_r append_length all_chars_app includes_char_app : js.

Lemma number_value_again s : number_value (number_value s) = number_value s.
Proof.
  assert (E : number_value s = s \/ number_value s = "") by (unfold number_value; repeat case_match; auto).
  destruct E as [E|E]; rewrite !E; reflexivity.
Qed.
