(* ===== verification/NumText.v ===== *)
(** Numbers written out and read back: parseFloat(String(x)) is x.

    Number::toString prints the shortest digits that round to the value; the file
    shows that seventeen always do, that the digits found have the length the
    format relies on, and that parseFloat reads every one of its formats back. *)
From Stdlib Require Import DecimalString DecimalZ DecimalPos DecimalFacts DecimalN.
From S2P Require Import JsString.

(** ** Rounding near a representable value *)

Lemma rhe_near z x : (Qabs (x - inject_Z z) < 1 # 2)%Q -> rhe x = z.
Proof.
  intros H. apply Qabs_Qlt_condition in H. destruct H as [H1 H2].
  assert (L : z <= rhe x).
  { destruct (Z_le_gt_dec z (rhe x)) as [L|G]; [exact L|]. exfalso.
    destruct (Qfloor_bounds x) as [F1 F2]. unfold rhe in G.
    assert (Ef : Qfloor x = z - 1).
    { enough (z - 1 <= Qfloor x < z) by lia. split.
      - rewrite <- (Qfloor_Z (z - 1)). apply Qfloor_resp_le. replace (z - 1) with (z + -1) by lia. rewrite inject_Z_plus. change (inject_Z (-1)) with (-1 # 1)%Q. lra.
      - destruct (_ ?= _)%Q; [destruct (Z.even _)| |]; lia. }
    rewrite Ef in *. replace (z - 1) with (z + -1) in * by lia. rewrite inject_Z_plus in *. change (inject_Z (-1)) with (-1 # 1)%Q in *.
    destruct (x - (inject_Z z + (-1 # 1)) ?= 1 # 2)%Q eqn:C;
      [apply Qeq_alt in C; lra|apply Qlt_alt in C; lra|lia]. }
  assert (U : rhe x <= z).
  { destruct (Z_le_gt_dec (rhe x) z) as [U|G]; [exact U|]. exfalso.
    destruct (Qfloor_bounds x) as [F1 F2]. unfold rhe in G.
    assert (Ef : Qfloor x = z).
    { assert (Qfloor x <= z).
      { assert (B : (inject_Z (Qfloor x) < inject_Z (z + 1))%Q) by (rewrite inject_Z_plus; change (inject_Z 1) with 1%Q; lra).
        rewrite <- Zlt_Qlt in B. lia. }
      destruct (_ ?= _)%Q; [destruct (Z.even _)| |]; lia. }
    rewrite Ef in *. destruct (x - inject_Z z ?= 1 # 2)%Q eqn:C;
      [apply Qeq_alt in C; lra|lia|apply Qgt_alt in C; lra]. }
  lia.
Qed.

(** A representable value is a whole number of its units in the last place. *)
Lemma double_units q : (0 < q)%Q -> double q -> exists m, (q == inject_Z m * pow2 (ulp_exp q))%Q.
Proof.
  intros Hq Hd. unfold double in Hd. rewrite rndq_pos in Hd by exact Hq. unfold rnd_pos in Hd. rewrite Qred_correct in Hd.
  exists (rhe (q / pow2 (ulp_exp q))). symmetry. exact Hd.
Qed.

Lemma pow2_step k : (pow2 (k + 1) == 2 * pow2 k)%Q.
Proof. rewrite pow2_add. change (pow2 1) with 2%Q. ring. Qed.

Lemma pow2_multiple u k : u <= k -> exists z, (pow2 k == inject_Z z * pow2 u)%Q.
Proof.
  intros H. exists (2 ^ (k - u)). rewrite <- pow2_Z by lia. rewrite <- pow2_add. replace (k - u + u) with k by lia. reflexivity.
Qed.

(** Multiples of a unit less than a unit apart are equal. *)
Lemma units_close u a b : (inject_Z a * pow2 u <= inject_Z b * pow2 u)%Q ->
  (inject_Z b * pow2 u - inject_Z a * pow2 u < pow2 u)%Q -> (inject_Z a * pow2 u == inject_Z b * pow2 u)%Q.
Proof.
  intros H1 H2. pose proof (pow2_pos u) as P.
  apply Qmult_le_r in H1; [|exact P]. rewrite <- Zle_Qle in H1.
  assert (L : (inject_Z (b - a) * pow2 u < inject_Z 1 * pow2 u)%Q).
  { unfold Z.sub. rewrite inject_Z_plus, inject_Z_opp. change (inject_Z 1) with 1%Q. lra. }
  apply Qmult_lt_r in L; [|exact P]. rewrite <- Zlt_Qlt in L. replace a with b by lia. reflexivity.
Qed.

(** The exponent of a rational near a representable value is that of the value, or
    one less when the value is the power of two just above it. *)
Lemma near_exponent q r : (0 < q)%Q -> double q -> (Qabs (r - q) < q * pow2 (-54))%Q ->
  (0 < r)%Q /\ (qexp r = qexp q \/ (qexp r = qexp q - 1 /\ (q == pow2 (qexp q))%Q)).
Proof.
  intros Hq Hd H. apply Qabs_Qlt_condition in H. destruct H as [H1 H2].
  destruct (qexp_spec q Hq) as [Q1 Q2]. destruct (double_units q Hq Hd) as (m & Em).
  set (e := qexp q) in *. set (u := ulp_exp q) in *.
  assert (Hu : e - 52 <= u) by (unfold u, ulp_exp, e; lia).
  pose proof (pow2_pos u) as Pu. pose proof (pow2_pos e) as Pe.
  assert (P54 : (pow2 (-54) < 1 # 2)%Q) by reflexivity.
  assert (Hr : (0 < r)%Q) by nra.
  destruct (qexp_spec r Hr) as [R1 R2].
  assert (Small : (q * pow2 (-54) < pow2 u)%Q).
  { apply Qlt_le_trans with (pow2 (e + 1) * pow2 (-54))%Q; [apply Qmult_lt_r; [reflexivity|exact Q2]|].
    rewrite <- pow2_add. apply pow2_le. lia. }
  assert (Up : qexp r <= e).
  { enough (qexp r < e + 1) by lia. apply pow2_lt_inv. apply Qle_lt_trans with r; [exact R1|].
    destruct (Z_le_gt_dec u (e + 1)) as [L|G].
    - destruct (pow2_multiple u (e + 1) L) as (z & Ez).
      destruct (Qlt_le_dec r (pow2 (e + 1))) as [Lt|Ge]; [exact Lt|]. exfalso.
      assert (X : (q == pow2 (e + 1))%Q); [|lra].
      rewrite Em, Ez. apply units_close; rewrite <- Em, <- Ez; lra.
    - exfalso. assert (W : (pow2 (e + 1) <= pow2 u)%Q) by (apply pow2_le; lia).
      assert (M1 : 0 < m).
      { assert (X : (inject_Z 0 * pow2 u < inject_Z m * pow2 u)%Q) by (rewrite <- Em; change (inject_Z 0) with 0%Q; lra).
        apply Qmult_lt_r in X; [|exact Pu]. rewrite <- Zlt_Qlt in X. exact X. }
      assert (X : (inject_Z 1 * pow2 u <= inject_Z m * pow2 u)%Q) by (apply Qmult_le_r; [exact Pu|rewrite <- Zle_Qle; lia]).
      rewrite <- Em in X. change (inject_Z 1) with 1%Q in X. lra. }
  split; [exact Hr|].
  assert (Lo : e - 1 <= qexp r).
  { enough (e - 1 < qexp r + 1) by lia. apply pow2_lt_inv. apply Qle_lt_trans with (r - 0)%Q; [|lra].
    assert (X : (pow2 e == 2 * pow2 (e - 1))%Q) by (rewrite <- pow2_step; replace (e - 1 + 1) with e by lia; reflexivity). nra. }
  destruct (Z.eq_dec (qexp r) e) as [E|E]; [left; exact E|]. right. split; [lia|].
  assert (Rlt : (r < pow2 e)%Q) by (apply Qlt_le_trans with (pow2 (qexp r + 1)); [exact R2|apply pow2_le; lia]).
  destruct (Z_le_gt_dec u e) as [L|G].
  - destruct (pow2_multiple u e L) as (z & Ez). symmetry. rewrite Em, Ez. apply units_close; rewrite <- Em, <- Ez; lra.
  - exfalso. assert (W : (2 * pow2 e <= pow2 u)%Q) by (rewrite <- pow2_step; apply pow2_le; lia).
    assert (M1 : 0 < m).
    { assert (X : (inject_Z 0 * pow2 u < inject_Z m * pow2 u)%Q) by (rewrite <- Em; change (inject_Z 0) with 0%Q; lra).
      apply Qmult_lt_r in X; [|exact Pu]. rewrite <- Zlt_Qlt in X. exact X. }
    assert (X : (inject_Z 1 * pow2 u <= inject_Z m * pow2 u)%Q) by (apply Qmult_le_r; [exact Pu|rewrite <- Zle_Qle; lia]).
    rewrite <- Em in X. change (inject_Z 1) with 1%Q in X. rewrite pow2_step in Q2. lra.
Qed.

(** Anything within a 2^54th of a representable value rounds to it. *)
Lemma near_double q r : (0 < q)%Q -> double q -> (Qabs (r - q) < q * pow2 (-54))%Q -> (rndq r == q)%Q.
Proof.
  intros Hq Hd H. destruct (near_exponent q r Hq Hd H) as (Hr & Ex).
  destruct (double_units q Hq Hd) as (m & Em). destruct (qexp_spec q Hq) as [Q1 Q2].
  rewrite rndq_pos by exact Hr. unfold rnd_pos. rewrite Qred_correct.
  set (u := ulp_exp q) in *. set (u' := ulp_exp r).
  assert (Hu : u' <= u) by (unfold u, u', ulp_exp; lia).
  destruct (pow2_multiple u' u Hu) as (z & Ez). pose proof (pow2_pos u') as Pu.
  assert (Em' : (q == inject_Z (m * z) * pow2 u')%Q) by (rewrite inject_Z_mult, Em, Ez; ring).
  assert (Half : (q * pow2 (-54) <= (1 # 2) * pow2 u')%Q).
  { assert (E2 : ((1 # 2) * pow2 u' == pow2 (u' - 1))%Q).
    { replace u' with (u' - 1 + 1) at 1 by lia. rewrite pow2_step. ring. }
    rewrite E2. destruct Ex as [Ex|(Ex & Eq)].
    - apply Qle_trans with (pow2 (qexp q + 1) * pow2 (-54))%Q; [apply Qmult_le_r; [reflexivity|lra]|].
      rewrite <- pow2_add. apply pow2_le. unfold u', ulp_exp. lia.
    - rewrite Eq, <- pow2_add. apply pow2_le. unfold u', ulp_exp. lia. }
  rewrite (rhe_near (m * z)); [symmetry; exact Em'|].
  assert (D : (r / pow2 u' - inject_Z (m * z) == (r - q) / pow2 u')%Q) by (rewrite Em'; field; lra).
  rewrite D. unfold Qdiv. rewrite Qabs_Qmult. rewrite (Qabs_pos (/ pow2 u')) by (apply Qlt_le_weak, Qinv_lt_0_compat; exact Pu).
  apply Qlt_shift_div_r; [exact Pu|]. lra.
Qed.

(** ** Powers of ten *)

Definition p10 (k : Z) : Q := Qpower 10 k.

Lemma p10_pos k : (0 < p10 k)%Q.
Proof. apply Qpower_0_lt. reflexivity. Qed.

Lemma p10_add a b : (p10 (a + b) == p10 a * p10 b)%Q.
Proof. apply Qpower_plus. discriminate. Qed.

Lemma p10_Z k : 0 <= k -> (p10 k == inject_Z (10 ^ k))%Q.
Proof. intros H. unfold p10. change 10%Q with (inject_Z 10). rewrite Zpower_Qpower by lia. reflexivity. Qed.

Lemma p10_opp k : (p10 (- k) == / p10 k)%Q.
Proof. apply Qpower_opp. Qed.

Lemma p10_le a b : a <= b -> (p10 a <= p10 b)%Q.
Proof. intros H. apply Qpower_le_compat_l; [exact H|discriminate]. Qed.

Lemma scale10_eq q k : (scale10 q k == q * p10 k)%Q.
Proof.
  unfold scale10. destruct (k >=? 0) eqn:E; rewrite Z.geb_leb in E; bool_to_prop; rewrite Qred_correct.
  - rewrite p10_Z by lia. reflexivity.
  - replace k with (- - k) at 2 by lia. rewrite p10_opp, p10_Z by lia. reflexivity.
Qed.

(** ** The shortest digits *)

Lemma inject_Z_lt_inv a b : (inject_Z a < inject_Z b)%Q -> a < b.
Proof. rewrite Zlt_Qlt. tauto. Qed.
Lemma inject_Z_le_inv a b : (inject_Z a <= inject_Z b)%Q -> a <= b.
Proof. rewrite Zle_Qle. tauto. Qed.

(** Digits [s] of length [k] with the exponent [n]: a value that rounds to [q]. *)
Definition digits_of (q : Q) (r : Z * Z * Z) : Prop :=
  let '(s, n, k) := r in
  1 <= k /\ 10 ^ (k - 1) <= s < 10 ^ k /\ (rndq (inject_Z s * p10 (n - k)) == q)%Q.

Lemma normalise_digits q s n k : 1 <= k -> 10 ^ (k - 1) <= s <= 10 ^ k -> (rndq (inject_Z s * p10 (n - k)) == q)%Q ->
  digits_of q (normalise s n k).
Proof.
  intros Hk Hs Hr. unfold normalise, digits_of. destruct (s =? 10 ^ k) eqn:E; bool_to_prop.
  - assert (10 ^ k = 10 * 10 ^ (k - 1)) by (rewrite <- Z.pow_succ_r by lia; f_equal; lia).
    assert (0 < 10 ^ (k - 1)) by (apply Z.pow_pos_nonneg; lia).
    repeat split; try lia. rewrite <- Hr, E. apply rndq_proper. rewrite <- !p10_Z by lia. rewrite <- !p10_add.
    replace (k - 1 + (n + 1 - k)) with (k + (n - k)) by lia. reflexivity.
  - repeat split; try lia. exact Hr.
Qed.

Section Shortest.
Variables (q : Q) (n : Z).
Hypothesis (Hq : (0 < q)%Q) (Hd : double q) (Hn1 : (p10 (n - 1) <= q)%Q) (Hn2 : (q < p10 n)%Q).

Lemma scaled_bounds k : 1 <= k ->
  (inject_Z (10 ^ (k - 1)) <= scale10 q (k - n))%Q /\ (scale10 q (k - n) < inject_Z (10 ^ k))%Q.
Proof.
  intros Hk. rewrite !scale10_eq, <- !p10_Z by lia. pose proof (p10_pos (k - n)) as P. split.
  - replace (k - 1) with (n - 1 + (k - n)) by lia. rewrite p10_add. apply Qmult_le_r; assumption.
  - replace k with (n + (k - n)) at 2 by lia. rewrite p10_add. apply Qmult_lt_r; assumption.
Qed.

Lemma near_bounds k : 1 <= k -> let x := scale10 q (k - n) in let near := Qfloor (x + (1 # 2)) in
  10 ^ (k - 1) <= near <= 10 ^ k /\ (Qabs (inject_Z near - x) <= 1 # 2)%Q /\
  10 ^ (k - 1) <= (if Qle_bool (inject_Z near) x then near + 1 else near - 1) <= 10 ^ k.
Proof.
  intros Hk x near. destruct (scaled_bounds k Hk) as [B1 B2]. fold x in B1, B2.
  destruct (Qfloor_bounds (x + (1 # 2))) as [F1 F2]. fold near in F1, F2.
  assert (N1 : 10 ^ (k - 1) <= near).
  { enough (10 ^ (k - 1) < near + 1) by lia. apply inject_Z_lt_inv. rewrite (inject_Z_plus near). change (inject_Z 1) with 1%Q. lra. }
  assert (N2 : near <= 10 ^ k).
  { enough (near < 10 ^ k + 1) by lia. apply inject_Z_lt_inv. rewrite (inject_Z_plus (10 ^ k)). change (inject_Z 1) with 1%Q. lra. }
  split; [lia|]. split; [apply Qabs_Qle_condition; lra|].
  destruct (Qle_bool (inject_Z near) x) eqn:E.
  - apply Qle_bool_iff in E. split; [lia|]. enough (near < 10 ^ k) by lia. apply inject_Z_lt_inv. lra.
  - apply Qle_bool_false in E. split; [|lia]. enough (10 ^ (k - 1) < near) by lia. apply inject_Z_lt_inv. lra.
Qed.

(** With seventeen digits the nearest is near enough. *)
Lemma seventeen k : 17 <= k ->
  (rndq (inject_Z (Qfloor (scale10 q (k - n) + (1 # 2))) * p10 (n - k)) == q)%Q.
Proof.
  intros Hk. destruct (near_bounds k ltac:(lia)) as (_ & A & _). set (x := scale10 q (k - n)) in *.
  set (near := Qfloor (x + (1 # 2))) in *. apply near_double; [exact Hq|exact Hd|].
  assert (Ex : (x * p10 (n - k) == q)%Q).
  { unfold x. rewrite scale10_eq, <- Qmult_assoc, <- p10_add. replace (k - n + (n - k)) with 0 by lia. change (p10 0) with 1%Q. ring. }
  assert (E : (inject_Z near * p10 (n - k) - q == (inject_Z near - x) * p10 (n - k))%Q) by (rewrite <- Ex at 1; ring).
  rewrite E, Qabs_Qmult, (Qabs_pos (p10 (n - k))) by (pose proof (p10_pos (n - k)); lra).
  apply Qle_lt_trans with ((1 # 2) * p10 (n - k))%Q; [apply Qmult_le_r; [apply p10_pos|exact A]|].
  apply Qle_lt_trans with ((1 # 2) * (p10 (-16) * p10 (n - 1)))%Q.
  - apply Qmult_le_l; [reflexivity|]. rewrite <- p10_add. apply p10_le. lia.
  - apply Qle_lt_trans with ((1 # 2) * (p10 (-16) * q))%Q.
    + apply Qmult_le_l; [reflexivity|]. apply Qmult_le_l; [apply p10_pos|exact Hn1].
    + assert (C : ((1 # 2) * p10 (-16) < pow2 (-54))%Q) by reflexivity.
      rewrite Qmult_assoc, (Qmult_comm q). apply Qmult_lt_r; assumption.
Qed.

Lemma shortest_digits fuel k : 1 <= k -> 17 <= k + Z.of_nat fuel -> digits_of q (shortest fuel q n k).
Proof.
  revert k. induction fuel as [|fuel IH]; intros k Hk Hf; cbn [shortest]; cbv zeta;
    destruct (near_bounds k Hk) as (B1 & _ & B2).
  - apply normalise_digits; [exact Hk|exact B1|]. apply seventeen. lia.
  - set (near := Qfloor (scale10 q (k - n) + (1 # 2))) in *.
    set (far := if Qle_bool (inject_Z near) (scale10 q (k - n)) then near + 1 else near - 1) in *.
    destruct (Qeq_bool (rndq (scale10 (inject_Z near) (n - k))) q) eqn:E1.
    + apply Qeq_bool_iff in E1. rewrite scale10_eq in E1. apply normalise_digits; assumption.
    + destruct (Qeq_bool (rndq (scale10 (inject_Z far) (n - k))) q) eqn:E2; [|apply IH; lia].
      apply Qeq_bool_iff in E2. rewrite scale10_eq in E2. apply normalise_digits; assumption.
Qed.
End Shortest.

(** ** Texts of digits *)

Definition digits (s : string) : Prop := all_chars is_digit s = true.

Fixpoint dval (acc : Z) (s : string) : Z :=
  match s with EmptyString => acc | String c s => dval (acc * 10 + (code c - 48)) s end.

(** No digit comes next. *)
Definition stops (t : string) : Prop := match t with EmptyString => True | String c _ => digit_val 10 c = None end.

Lemma digit_val_digit c : is_digit c = true -> digit_val 10 c = Some (code c - 48) /\ 0 <= code c - 48 < 10.
Proof.
  unfold is_digit, digit_val. intros H. rewrite H. bool_to_prop.
  assert (code c - 48 <? 10 = true) as -> by (apply Z.ltb_lt; lia). split; [reflexivity|lia].
Qed.

Lemma read_digits_app a : forall t acc n, digits a ->
  read_digits 10 (a ++ t) acc n = read_digits 10 t (dval acc a) (n + String.length a)%nat.
Proof.
  induction a as [|c a IH]; intros t acc n H; [cbn; rewrite Nat.add_0_r; reflexivity|].
  unfold digits in H. cbn [all_chars] in H. bool_to_prop. cbn [String.append read_digits dval String.length].
  destruct (digit_val_digit c H) as [-> _]. rewrite IH by assumption. f_equal. lia.
Qed.

Lemma read_digits_stop t acc n : stops t -> read_digits 10 t acc n = (acc, n, t).
Proof. destruct t as [|c t]; cbn; [reflexivity|]. intros ->. reflexivity. Qed.

Lemma read_digits_all a t acc n : digits a -> stops t ->
  read_digits 10 (a ++ t) acc n = (dval acc a, (n + String.length a)%nat, t).
Proof. intros H1 H2. rewrite read_digits_app, read_digits_stop by assumption. reflexivity. Qed.

Lemma dval_app acc a b : dval acc (a ++ b) = dval (dval acc a) b.
Proof. revert acc. induction a as [|c a IH]; intros acc; cbn; [reflexivity|]. apply IH. Qed.

Lemma dval_acc a : forall acc, dval acc a = acc * 10 ^ Z.of_nat (String.length a) + dval 0 a.
Proof.
  induction a as [|c a IH]; intros acc; cbn [dval String.length]; [cbn; lia|].
  rewrite (IH (acc * 10 + _)), (IH (0 * 10 + _)), Nat2Z.inj_succ, Z.pow_succ_r by lia. lia.
Qed.

Lemma dval_bound a : digits a -> 0 <= dval 0 a < 10 ^ Z.of_nat (String.length a).
Proof.
  induction a as [|c a IH]; unfold digits; cbn [all_chars]; intros H; [cbn; lia|]. bool_to_prop.
  cbn [dval String.length]. rewrite dval_acc, Nat2Z.inj_succ, Z.pow_succ_r by lia.
  destruct (digit_val_digit c H) as [_ D]. specialize (IH H0).
  assert (0 < 10 ^ Z.of_nat (String.length a)) by (apply Z.pow_pos_nonneg; lia). nia.
Qed.

Lemma dval_zeros n acc : dval acc (zeros n) = acc * 10 ^ Z.of_nat n.
Proof.
  revert acc. induction n as [|n IH]; intros acc; [cbn; lia|]. cbn [zeros dval]. rewrite IH, Nat2Z.inj_succ, Z.pow_succ_r by lia.
  change (code "0" - 48) with 0. lia.
Qed.

Lemma digits_zeros n : digits (zeros n).
Proof. induction n as [|n IH]; [reflexivity|]. exact IH. Qed.

Lemma length_zeros n : String.length (zeros n) = n.
Proof. induction n as [|n IH]; cbn; [reflexivity|]. rewrite IH. reflexivity. Qed.

Lemma digits_app a b : digits (a ++ b) <-> digits a /\ digits b.
Proof. unfold digits. rewrite all_chars_app, andb_true_iff. reflexivity. Qed.

(** ** Integers in decimal *)

Lemma uint_digits d : digits (NilEmpty.string_of_uint d).
Proof. induction d; try reflexivity; exact IHd. Qed.

Lemma uint_acc d : forall p, dval (Zpos p) (NilEmpty.string_of_uint d) = Zpos (Pos.of_uint_acc d p).
Proof.
  induction d; intros p; cbn [NilEmpty.string_of_uint dval Pos.of_uint_acc]; [reflexivity|..];
    rewrite <- IHd; f_equal; unfold code; cbn; lia.
Qed.

Lemma uint_value d : dval 0 (NilEmpty.string_of_uint d) = Z.of_N (Pos.of_uint d).
Proof.
  induction d; cbn [NilEmpty.string_of_uint dval Pos.of_uint Z.of_N]; try reflexivity; try exact IHd;
    rewrite <- uint_acc; reflexivity.
Qed.

Lemma Z_to_string_pos p : Z_to_string (Zpos p) = NilEmpty.string_of_uint (Pos.to_uint p).
Proof.
  unfold Z_to_string. cbn. unfold NilZero.string_of_uint. pose proof (DecimalPos.Unsigned.to_uint_nonnil p).
  destruct (Pos.to_uint p); congruence || reflexivity.
Qed.

Lemma Z_to_string_digits z : 0 <= z -> digits (Z_to_string z) /\ dval 0 (Z_to_string z) = z.
Proof.
  intros H. destruct z as [|p|p]; [split; reflexivity| |lia]. rewrite Z_to_string_pos.
  split; [apply uint_digits|]. rewrite uint_value, DecimalPos.Unsigned.of_to. reflexivity.
Qed.

(** No leading zero. *)
Lemma Z_to_string_head p : exists c s, Z_to_string (Zpos p) = String c s /\ is_digit c = true /\ 1 <= code c - 48.
Proof.
  rewrite Z_to_string_pos. pose proof (DecimalPos.Unsigned.to_of (Pos.to_uint p)) as E.
  rewrite DecimalPos.Unsigned.of_to in E. change (N.to_uint (Npos p)) with (Pos.to_uint p) in E.
  pose proof (DecimalPos.Unsigned.of_to p) as V.
  destruct (Pos.to_uint p) as [|d|d|d|d|d|d|d|d|d|d]; [discriminate V|..];
    try (cbn [NilEmpty.string_of_uint]; eexists _, _; repeat split; (reflexivity || (vm_compute; discriminate))).
  - exfalso. unfold Decimal.unorm in E. cbn in E. pose proof (DecimalFacts.nzhead_nonzero d) as NZ.
    destruct (Decimal.nzhead d); try discriminate E; [injection E as ->; discriminate V|exact (NZ _ eq_refl)].
Qed.

Lemma Z_to_string_length z : 0 < z ->
  (1 <= String.length (Z_to_string z))%nat /\ 10 ^ (Z.of_nat (String.length (Z_to_string z)) - 1) <= z < 10 ^ Z.of_nat (String.length (Z_to_string z)).
Proof.
  intros H. destruct z as [|p|p]; try lia. destruct (Z_to_string_digits (Zpos p) ltac:(lia)) as [D V].
  pose proof (dval_bound _ D) as B. rewrite V in B.
  destruct (Z_to_string_head p) as (c & s & E & Hc & H1). rewrite E in *. cbn [String.length] in *.
  split; [lia|]. split; [|lia]. cbn [dval] in V. rewrite dval_acc in V.
  unfold digits in D. cbn [all_chars] in D. bool_to_prop. pose proof (dval_bound s H2).
  rewrite Nat2Z.inj_succ, <- Z.add_1_r, Z.add_simpl_r.
  assert (0 < 10 ^ Z.of_nat (String.length s)) by (apply Z.pow_pos_nonneg; lia). nia.
Qed.

(** The length of a number of [k] digits. *)
Lemma Z_to_string_width s k : 1 <= k -> 10 ^ (k - 1) <= s < 10 ^ k -> Z.of_nat (String.length (Z_to_string s)) = k.
Proof.
  intros Hk Hs. assert (0 < 10 ^ (k - 1)) by (apply Z.pow_pos_nonneg; lia).
  destruct (Z_to_string_length s ltac:(lia)) as (L & B1 & B2). set (l := Z.of_nat (String.length (Z_to_string s))) in *.
  assert (l - 1 < k) by (apply (Z.pow_lt_mono_r_iff 10); lia).
  assert (k - 1 < l) by (apply (Z.pow_lt_mono_r_iff 10); lia). lia.
Qed.

(** ** The decimal exponent *)

Lemma dec_exp_small_spec fuel : forall q n, (0 < q)%Q -> (q < 1)%Q -> (p10 (-1 - Z.of_nat fuel) <= q)%Q ->
  let r := dec_exp_small fuel q n in (p10 (r - 1 - n) <= q)%Q /\ (q < p10 (r - n))%Q.
Proof.
  induction fuel as [|fuel IH]; intros q n Hq H1 Hf; cbn [dec_exp_small].
  - replace (n - 1 - n) with (-1 - Z.of_nat 0) by lia. replace (n - n) with 0 by lia. split; [exact Hf|exact H1].
  - destruct (Qle_bool 1 (q * 10)) eqn:E.
    + apply Qle_bool_iff in E. replace (n - 1 - n) with (-1) by lia. replace (n - n) with 0 by lia.
      change (p10 (-1)) with (1 # 10)%Q. split; [lra|exact H1].
    + apply Qle_bool_false in E. assert (R : (Qred (q * 10) == q * 10)%Q) by apply Qred_correct.
      destruct (IH (Qred (q * 10)) (n - 1)) as (A & B); [lra|lra| |].
      * rewrite R. replace (-1 - Z.of_nat fuel) with (-1 - Z.of_nat (S fuel) + 1) by lia. rewrite p10_add. change (p10 1) with 10%Q.
        apply Qmult_le_r; [reflexivity|exact Hf].
      * cbv zeta in A, B. set (r := dec_exp_small fuel (Qred (q * 10)) (n - 1)) in *. rewrite R in A, B.
        replace (r - 1 - (n - 1)) with (r - 1 - n + 1) in A by lia. replace (r - (n - 1)) with (r - n + 1) in B by lia.
        rewrite p10_add in A, B. change (p10 1) with 10%Q in A, B.
        split; [apply Qmult_le_r in A; [exact A|reflexivity]|apply Qmult_lt_r in B; [exact B|reflexivity]].
Qed.

Lemma double_smallest q : (0 < q)%Q -> double q -> (pow2 emin <= q)%Q.
Proof.
  intros Hq Hd. destruct (double_multiple q Hd) as (m & E). pose proof (pow2_pos emin) as P.
  assert (X : (inject_Z 0 * pow2 emin < inject_Z m * pow2 emin)%Q) by (rewrite <- E; change (inject_Z 0) with 0%Q; lra).
  apply Qmult_lt_r in X; [|exact P]. apply inject_Z_lt_inv in X.
  assert (Y : (inject_Z 1 * pow2 emin <= inject_Z m * pow2 emin)%Q) by (apply Qmult_le_r; [exact P|rewrite <- Zle_Qle; lia]).
  rewrite <- E in Y. change (inject_Z 1) with 1%Q in Y. lra.
Qed.

Lemma dec_exp_spec q : (0 < q)%Q -> double q -> (p10 (dec_exp q - 1) <= q)%Q /\ (q < p10 (dec_exp q))%Q.
Proof.
  intros Hq Hd. unfold dec_exp. destruct (Qle_bool 1 q) eqn:E.
  - apply Qle_bool_iff in E. destruct (Qfloor_bounds q) as [F1 F2]. set (z := Qfloor q) in *.
    assert (Hz : 0 < z) by (enough (1 < z + 1) by lia; apply inject_Z_lt_inv; rewrite inject_Z_plus; change (inject_Z 1) with 1%Q; lra).
    destruct (Z_to_string_length z Hz) as (L & B1 & B2). rewrite !p10_Z by lia. split.
    + apply Qle_trans with (inject_Z z); [rewrite <- Zle_Qle; exact B1|exact F1].
    + apply Qlt_le_trans with (inject_Z (z + 1)); [rewrite inject_Z_plus; exact F2|rewrite <- Zle_Qle; lia].
  - apply Qle_bool_false in E. pose proof (dec_exp_small_spec 400 q 0 Hq E) as S. cbv zeta in S.
    rewrite !Z.sub_0_r in S. apply S. apply Qle_trans with (pow2 emin); [|apply double_smallest; assumption].
    apply Qle_bool_iff. vm_compute. reflexivity.
Qed.

(** ** Reading the formats *)

(** parseFloat after the sign. *)
Definition parse_body (neg : bool) (s : string) : num :=
  if starts_with "Infinity" s then Infty neg else
  let '(ip, ni, s1) := read_digits 10 s 0 0 in
  let '(m, nf, s2) :=
    match s1 with
    | String c s' => if Ascii.eqb c "." then read_digits 10 s' ip 0 else (ip, 0%nat, s1)
    | EmptyString => (ip, 0%nat, s1)
    end in
  if (ni + nf =? 0)%nat then NaN
  else decimal_num (signed neg m) (read_exponent s2 - Z.of_nat nf).

Definition digit_first (s : string) : Prop := match s with String c _ => is_digit c = true | EmptyString => False end.

Lemma digit_not_other c : is_digit c = true -> is_ws c = false /\ Ascii.eqb c "-" = false /\ Ascii.eqb c "+" = false /\ Ascii.eqb c "I" = false.
Proof. destruct c as [[] [] [] [] [] [] [] []]; intros H; try discriminate H; repeat split; reflexivity. Qed.

Lemma parseFloat_unsigned s : digit_first s -> parseFloat s = parse_body false s.
Proof.
  destruct s as [|c s]; [intros []|]. cbn [digit_first]. intros H. destruct (digit_not_other c H) as (W & M & P & _).
  unfold parseFloat. cbn [trim_start]. rewrite W. cbn [read_sign]. rewrite M, P. reflexivity.
Qed.

Lemma parseFloat_minus s : parseFloat ("-" ++ s) = parse_body true s.
Proof. reflexivity. Qed.

Lemma digits_first a t : digits a -> a <> "" -> digit_first (a ++ t).
Proof. destruct a as [|c a]; [congruence|]. unfold digits. cbn. intros H _. bool_to_prop. assumption. Qed.

Lemma no_Infinity s : digit_first s -> starts_with "Infinity" s = false.
Proof.
  destruct s as [|c s]; [intros []|]. cbn. intros H. destruct (digit_not_other c H) as (_ & _ & _ & I).
  change (Ascii.eqb "I" c) with (Ascii.eqb "I" c). rewrite Ascii.eqb_sym, I. reflexivity.
Qed.

Lemma length_pos a : a <> "" -> (String.length a =? 0)%nat = false.
Proof. destruct a; [congruence|reflexivity]. Qed.

Lemma read_plain neg a t : digits a -> a <> "" -> stops t -> match t with String c _ => Ascii.eqb c "." = false | "" => True end ->
  parse_body neg (a ++ t) = decimal_num (signed neg (dval 0 a)) (read_exponent t).
Proof.
  intros D N S F. unfold parse_body. rewrite no_Infinity by (apply digits_first; assumption).
  rewrite read_digits_all by assumption. cbn [Nat.add].
  assert (E : match t with String c s' => if Ascii.eqb c "." then read_digits 10 s' (dval 0 a) 0 else (dval 0 a, 0%nat, t)
    | "" => (dval 0 a, 0%nat, t) end = (dval 0 a, 0%nat, t)) by (destruct t; [reflexivity|rewrite F; reflexivity]).
  rewrite E, Nat.add_0_r, length_pos, Z.sub_0_r by assumption. reflexivity.
Qed.

Lemma parse_fraction neg a b t : digits a -> a <> "" -> digits b -> stops t ->
  parse_body neg (a ++ "." ++ b ++ t) = decimal_num (signed neg (dval (dval 0 a) b)) (read_exponent t - Z.of_nat (String.length b)).
Proof.
  intros D N Db S. unfold parse_body. rewrite no_Infinity by (apply digits_first; assumption).
  rewrite read_digits_all by (assumption || reflexivity). cbn [Nat.add String.append].
  change (Ascii.eqb "." ".") with true. cbv iota. rewrite read_digits_all by assumption. cbn [Nat.add].
  assert (E : (String.length a + String.length b =? 0)%nat = false) by (destruct a; [congruence|reflexivity]).
  rewrite E. reflexivity.
Qed.

Lemma exp_string_reads e : stops (exp_string e) /\ read_exponent (exp_string e) = e /\
  match exp_string e with String c _ => Ascii.eqb c "." = false | "" => True end.
Proof.
  unfold exp_string. destruct (Z_to_string_digits (Z.abs e) ltac:(lia)) as [D V].
  assert (N : Z_to_string (Z.abs e) <> "").
  { destruct (Z.eq_dec e 0) as [->|Ne]; [discriminate|]. destruct (Z_to_string_length (Z.abs e) ltac:(lia)) as (L & _).
    intros E. rewrite E in L. cbn in L. lia. }
  assert (L : String.length (Z_to_string (Z.abs e)) <> 0%nat) by (destruct (Z_to_string (Z.abs e)); [congruence|discriminate]).
  pose proof (read_digits_all (Z_to_string (Z.abs e)) "" 0 0 D I) as R. rewrite append_nil_r, V in R. cbn [Nat.add] in R.
  repeat split. cbn [String.append read_exponent]. change (Ascii.eqb "e" "e" || Ascii.eqb "e" "E") with true. cbv iota.
  destruct (e <? 0) eqn:Ne; bool_to_prop; cbn [String.append read_sign].
  - change (Ascii.eqb "-" "-") with true. cbv iota. rewrite R. destruct (String.length _); [congruence|]. cbn [signed]. lia.
  - change (Ascii.eqb "+" "-") with false. change (Ascii.eqb "+" "+") with true. cbv iota. rewrite R.
    destruct (String.length _); [congruence|]. cbn [signed]. lia.
Qed.

Lemma split_at s n : (n <= String.length s)%nat -> slice s 0 n ++ slice_from s n = s /\ String.length (slice s 0 n) = n.
Proof.
  intros H. unfold slice_from, slice. rewrite Nat.sub_0_r. revert n H.
  induction s as [|c s IH]; intros [|n] H; cbn [String.length] in *; try lia.
  - split; reflexivity.
  - split; [|reflexivity]. cbn [String.append]. rewrite Nat.sub_0_r. apply (substring_all (String c s)).
  - destruct (IH n ltac:(lia)) as [E L]. cbn. split; [f_equal; exact E|f_equal; exact L].
Qed.

(** ** The round trip *)

Lemma rnd_in_range x : (- huge < rndq x < huge)%Q -> rnd x = Fin (rndq x).
Proof.
  intros [H1 H2]. unfold rnd.
  destruct (Qle_bool huge (rndq x)) eqn:E1; [apply Qle_bool_iff in E1; lra|].
  destruct (Qle_bool (rndq x) (- huge)) eqn:E2; [apply Qle_bool_iff in E2; lra|]. reflexivity.
Qed.

Lemma decimal_num_value m e q : m <> 0 -> e <= 400 -> (- huge < q < huge)%Q -> (rndq (inject_Z m * p10 e) == q)%Q ->
  exists v, decimal_num m e = Fin v /\ (v == q)%Q.
Proof.
  intros Hm He Hq Hr. unfold decimal_num. destruct (m =? 0) eqn:E0; bool_to_prop; [congruence|].
  rewrite Z.gtb_ltb. destruct (400 <? e) eqn:E1; bool_to_prop; [lia|]. rewrite Z.geb_leb.
  assert (S : forall x, (x == inject_Z m * p10 e)%Q -> exists v, rnd x = Fin v /\ (v == q)%Q).
  { intros x Ex. exists (rndq x). rewrite <- Hr, <- Ex. split; [|reflexivity]. apply rnd_in_range. rewrite Ex, Hr. exact Hq. }
  destruct (0 <=? e) eqn:E2; bool_to_prop; apply S.
  - rewrite inject_Z_mult, p10_Z by lia. reflexivity.
  - rewrite Qred_correct, Qmake_Qdiv. rewrite Z2Pos.id by (apply Z.pow_pos_nonneg; lia).
    replace e with (- - e) at 2 by lia. rewrite p10_opp, p10_Z by lia. reflexivity.
Qed.

Lemma shortest_huge : (huge < p10 400)%Q.
Proof. reflexivity. Qed.

Lemma pos_to_string_reads q neg : (0 < q)%Q -> double q -> (q < huge)%Q ->
  digit_first (pos_to_string q) /\
  exists v, parse_body neg (pos_to_string q) = Fin v /\ (v == if neg then - q else q)%Q.
Proof.
  intros Hq Hd Hh. destruct (dec_exp_spec q Hq Hd) as [N1 N2].
  pose proof (shortest_digits q (dec_exp q) Hq Hd N1 N2 17 1 ltac:(lia) ltac:(lia)) as S.
  unfold pos_to_string. destruct (shortest 17 q (dec_exp q) 1) as [[s n] k] eqn:Esh. destruct S as (Hk & Hs & Hr).
  assert (Ps : 0 < s) by (assert (0 < 10 ^ (k - 1)) by (apply Z.pow_pos_nonneg; lia); lia).
  destruct (Z_to_string_digits s ltac:(lia)) as [D V]. pose proof (Z_to_string_width s k Hk Hs) as W.
  set (ds := Z_to_string s) in *.
  assert (Nd : ds <> "") by (intros E; rewrite E in W; cbn in W; lia).
  assert (Hn : n - k <= 400).
  { destruct (Z_le_gt_dec (n - k) 400) as [L|G]; [exact L|]. exfalso.
    assert (X : (p10 400 <= inject_Z s * p10 (n - k))%Q).
    { apply Qle_trans with (1 * p10 (n - k))%Q; [rewrite Qmult_1_l; apply p10_le; lia|].
      apply Qmult_le_r; [apply p10_pos|]. change 1%Q with (inject_Z 1). rewrite <- Zle_Qle. lia. }
    assert (Y : (rndq huge <= rndq (inject_Z s * p10 (n - k)))%Q)
      by (apply rndq_mono; apply Qle_trans with (p10 400); [apply Qlt_le_weak, shortest_huge|exact X]).
    assert (Z0 : (rndq huge == huge)%Q) by (vm_compute; reflexivity). lra. }
  assert (F : forall m e, (inject_Z m * p10 e == inject_Z s * p10 (n - k))%Q -> e <= 400 -> m <> 0 ->
     exists v, decimal_num (signed neg m) e = Fin v /\ (v == if neg then - q else q)%Q).
  { intros m e E He Hm. apply decimal_num_value; [destruct neg; cbn; lia|exact He|unfold huge in *; destruct neg; lra|].
    destruct neg; cbn [signed].
    - rewrite inject_Z_opp, <- Hr. rewrite <- rndq_opp. apply rndq_proper. rewrite <- E. ring.
    - rewrite E. exact Hr. }
  destruct ((k <=? n) && (n <=? 21)) eqn:C1; bool_to_prop.
  { split; [apply digits_first; assumption|].
    rewrite <- (append_nil_r (ds ++ zeros (Z.to_nat (n - k)))).
    rewrite read_plain; [|apply digits_app; split; [exact D|apply digits_zeros]|destruct ds; [congruence|discriminate]|exact I|exact I].
    apply F; [|cbn; lia|rewrite dval_app, V, dval_zeros; nia]. rewrite dval_app, V, dval_zeros, Z2Nat.id by lia.
    rewrite inject_Z_mult, <- p10_Z by lia. change (read_exponent "") with 0. change (p10 0) with 1%Q. ring. }
  destruct ((0 <? n) && (n <=? 21)) eqn:C2; bool_to_prop.
  { assert (Lk : n < k) by (apply andb_false_iff in C1; destruct C1; bool_to_prop; lia).
    destruct (split_at ds (Z.to_nat n) ltac:(lia)) as [Es El]. set (a := slice ds 0 (Z.to_nat n)) in *. set (b := slice_from ds (Z.to_nat n)) in *.
    assert (Da : digits a /\ digits b) by (apply digits_app; rewrite Es; exact D). destruct Da as [Da Db].
    assert (Na : a <> "") by (intros E; rewrite E in El; cbn in El; lia).
    assert (Lb : Z.of_nat (String.length b) = k - n).
    { pose proof (append_length a b) as L. rewrite Es in L. lia. }
    split; [apply digits_first; assumption|].
    rewrite <- (append_nil_r b), parse_fraction by (assumption || exact I).
    rewrite <- dval_app, Es, V. apply F; [|cbn; lia|lia]. rewrite Lb. change (read_exponent "") with 0.
    replace (0 - (k - n)) with (n - k) by lia. reflexivity. }
  destruct ((-6 <? n) && (n <=? 0)) eqn:C3; bool_to_prop.
  { split; [reflexivity|]. change ("0." ++ zeros (Z.to_nat (- n)) ++ ds) with ("0" ++ "." ++ (zeros (Z.to_nat (- n)) ++ ds)).
    rewrite <- (append_nil_r (zeros (Z.to_nat (- n)) ++ ds)).
    rewrite parse_fraction; [|reflexivity|discriminate|apply digits_app; split; [apply digits_zeros|exact D]|exact I].
    change (dval 0 "0") with 0. rewrite dval_app, dval_zeros, Z.mul_0_l, V.
    apply F; [|cbn; lia|lia]. rewrite append_length, length_zeros. change (read_exponent "") with 0.
    replace (0 - Z.of_nat (Z.to_nat (- n) + String.length ds)) with (n - k) by lia. reflexivity. }
  destruct (exp_string_reads (n - 1)) as (X1 & X2 & X3).
  destruct (k =? 1) eqn:C4; bool_to_prop.
  { split; [apply digits_first; assumption|]. rewrite read_plain, V, X2 by assumption.
    apply F; [replace (n - 1) with (n - k) by lia; reflexivity|lia|lia]. }
  destruct (split_at ds 1 ltac:(lia)) as [Es El]. set (a := slice ds 0 1) in *. set (b := slice_from ds 1) in *.
  assert (Da : digits a /\ digits b) by (apply digits_app; rewrite Es; exact D). destruct Da as [Da Db].
  assert (Na : a <> "") by (intros E; rewrite E in El; cbn in El; lia).
  assert (Lb : Z.of_nat (String.length b) = k - 1).
  { pose proof (append_length a b) as L. rewrite Es in L. lia. }
  split; [apply digits_first; assumption|]. rewrite parse_fraction, X2 by assumption.
  rewrite <- dval_app, Es, V. apply F; [|lia|lia]. rewrite Lb. replace (n - 1 - (k - 1)) with (n - k) by lia. reflexivity.
Qed.

(** A representable value is read back from its text. *)
Lemma parseFloat_to_string q : wf (Fin q) -> exists v, parseFloat (num_to_string (Fin q)) = Fin v /\ (v == q)%Q.
Proof.
  intros [Hd Hh]. unfold num_to_string. destruct (q ?= 0)%Q eqn:C.
  - apply Qeq_alt in C. exists 0%Q. split; [vm_compute; reflexivity|symmetry; exact C].
  - apply Qlt_alt in C. assert (Hd' : double (- q)) by (unfold double in *; rewrite rndq_opp, Hd; reflexivity).
    destruct (pos_to_string_reads (- q) true ltac:(lra) Hd' ltac:(lra)) as (_ & v & E & Ev).
    exists v. rewrite parseFloat_minus, E. split; [reflexivity|]. rewrite Ev. ring.
  - apply Qgt_alt in C. destruct (pos_to_string_reads q false C Hd ltac:(lra)) as (Df & v & E & Ev).
    exists v. rewrite (parseFloat_unsigned _ Df), E. split; [reflexivity|exact Ev].
Qed.
