(* ===== verification/FfmpegOptions.v ===== *)
(** web/skins/classic/views/js/monitor-ffmpeg-options.js: the check of a
    monitor's Options field, a port of libavutil's av_get_token and
    av_dict_parse_string.

    A position [pos] in [text] is represented by the suffix of [text] from it:
    [text[pos]] is the suffix's first character and [pos < text.length] says the
    suffix is not empty. *)
From S2P Require Import JsString.

Module Ffmpeg.

Definition backslash : ascii := chr 92.
Definition apostrophe : ascii := chr 39.

Definition WHITESPACES : string := String " " (String newline (String (chr 9) (str1 (chr 13)))).
Definition PAIR_SEPARATORS : string := String "," (String (chr 13) (str1 newline)).

(** [while (pos < text.length && WHITESPACES.includes(text[pos])) pos++] *)
Fixpoint skip_ws (rest : string) : string :=
  match rest with
  | EmptyString => EmptyString
  | String c r => if includes_char WHITESPACES c then skip_ws r else rest
  end.

(** The body of getToken's scan: [out], [end] and the position; [quoted] is
    true inside the loop that copies a '..' section. *)
Fixpoint token_loop (term : string) (quoted : bool) (rest out : string) (end_ : nat)
  : string * nat * string :=
  match rest with
  | EmptyString => (out, end_, rest)
  | String c r =>
      if quoted then
        if Ascii.eqb c apostrophe then token_loop term false r out (String.length out)
        else token_loop term true r (out ++ str1 c) end_
      else if includes_char term c then (out, end_, rest)
      else if Ascii.eqb c backslash then
        match r with
        | String d r' =>
            token_loop term false r' (out ++ str1 d) (String.length (out ++ str1 d))
        | EmptyString => token_loop term false r (out ++ str1 c) end_
        end
      else if Ascii.eqb c apostrophe then token_loop term true r out end_
      else token_loop term false r (out ++ str1 c) end_
  end.

(** [while (out.length > end && WHITESPACES.includes(out[out.length - 1]))
     out = out.slice(0, -1)] *)
Fixpoint chop (fuel : nat) (out : string) (end_ : nat) : string :=
  match fuel with
  | O => out
  | S fuel =>
      let n := String.length out in
      match String.get (n - 1) out with
      | Some c =>
          if (end_ <? n)%nat && includes_char WHITESPACES c
          then chop fuel (slice out 0 (n - 1)) end_ else out
      | None => out
      end
  end.

Definition getToken (rest term : string) : string * string :=
  let '(out, end_, rest) := token_loop term false (skip_ws rest) EmptyString 0 in
  (chop (String.length out) out end_, rest).

Record pair := Pair { key : string; value : string }.

Record parsed := Parsed { pairs : list pair; error : option string }.

(** [while (stop < text.length && !seps.includes(text[stop])) stop++;
     text.slice(start, stop)] *)
Fixpoint until_sep (seps rest : string) : string :=
  match rest with
  | EmptyString => EmptyString
  | String c r => if includes_char seps c then EmptyString else String c (until_sep seps r)
  end.

Definition error_text (seps start : string) : string :=
  let t := trim (until_sep seps start) in
  if String.eqb t "" then start else t.

(** The loop of parse; [None] when the fuel runs out. *)
Fixpoint parse_loop (fuel : nat) (seps rest : string) (acc : list pair) : option parsed :=
  match rest with
  | EmptyString => Some (Parsed acc None)
  | String _ _ =>
      match fuel with
      | O => None
      | S fuel =>
          let start := rest in
          let '(k, rest1) := getToken rest "=" in
          let '(v, rest2) :=
            match rest1 with
            | String c r =>
                if negb (String.eqb k "") && Ascii.eqb c "=" then getToken r seps
                else (EmptyString, rest1)
            | EmptyString => (EmptyString, rest1)
            end in
          if String.eqb k "" || String.eqb v "" then
            Some (Parsed acc (Some (error_text seps start)))
          else
            parse_loop fuel seps
              match rest2 with String _ r => r | EmptyString => EmptyString end
              (acc ++ [Pair k v])
      end
  end.

Definition parse (text seps : string) : option parsed :=
  parse_loop (String.length text) seps text [].

Definition bad_key (seps k : string) : bool :=
  match k with String c _ => Ascii.eqb c "-" | EmptyString => false end
  || negb (all_chars (fun c => negb (includes_char k c)) (WHITESPACES ++ seps)).

Definition bad_of (seps : string) (p : pair) : list string :=
  if bad_key seps (key p) then [key p ++ "=" ++ value p] else [].

Definition badEntries (text seps : string) : option (list string) :=
  match parse text seps with
  | Some r =>
      Some (flat_map (bad_of seps) (pairs r)
            ++ match error r with Some e => [e] | None => [] end)%list
  | None => None
  end.

(** ** Progress *)

Lemma skip_ws_length r : (String.length (skip_ws r) <= String.length r)%nat.
Proof. induction r as [|c r IH]; cbn; [lia|]. destruct (includes_char WHITESPACES c); cbn in *; lia. Qed.

Lemma token_loop_length term :
  forall n r, (String.length r <= n)%nat -> forall q out e,
  (String.length (token_loop term q r out e).2 <= String.length r)%nat.
Proof.
  induction n as [|n IH]; intros [|c r] Hn q out e; cbn in Hn |- *; try lia.
  assert (IH' : forall r', (String.length r' <= String.length r)%nat -> forall q out e,
    (String.length (token_loop term q r' out e).2 <= S (String.length r))%nat).
  { intros r' Hr q' out' e'. etransitivity; [apply IH; lia|lia]. }
  repeat case_match; try apply IH'; cbn in *; lia.
Qed.

Lemma getToken_length rest term :
  (String.length (getToken rest term).2 <= String.length rest)%nat.
Proof.
  unfold getToken.
  pose proof (token_loop_length term _ (skip_ws rest) ltac:(reflexivity) false "" 0%nat) as H.
  destruct (token_loop _ _ _ _ _) as [[out e] r]. cbn in *.
  pose proof (skip_ws_length rest). lia.
Qed.

(** What one iteration of parse reads: the key, the value and the rest after
    the separator; [None] for the failing exit. *)
Definition parse_entry (seps rest : string) : option (pair * string) :=
  let '(k, rest1) := getToken rest "=" in
  let '(v, rest2) :=
    match rest1 with
    | String c r =>
        if negb (String.eqb k "") && Ascii.eqb c "=" then getToken r seps
        else (EmptyString, rest1)
    | EmptyString => (EmptyString, rest1)
    end in
  if String.eqb k "" || String.eqb v "" then None
  else Some (Pair k v, match rest2 with String _ r => r | EmptyString => EmptyString end).

Lemma parse_loop_step fuel seps c r acc :
  parse_loop (S fuel) seps (String c r) acc =
  match parse_entry seps (String c r) with
  | Some (p, rest) => parse_loop fuel seps rest (acc ++ [p])%list
  | None => Some (Parsed acc (Some (error_text seps (String c r))))
  end.
Proof.
  unfold parse_entry. cbn [parse_loop].
  destruct (getToken (String c r) "=") as [k rest1].
  destruct (match rest1 with String _ _ => _ | _ => _ end) as [v rest2].
  destruct (_ || _); reflexivity.
Qed.

Lemma parse_entry_spec seps rest p rest' :
  parse_entry seps rest = Some (p, rest') ->
  key p <> "" /\ value p <> "" /\ (String.length rest' < String.length rest)%nat.
Proof.
  unfold parse_entry. pose proof (getToken_length rest "=") as L.
  destruct (getToken rest "=") as [k rest1]. cbn in L.
  destruct rest1 as [|c r].
  - destruct (String.eqb k "" || _) eqn:E; [congruence|].
    bool_to_prop. cbn in *. congruence.
  - destruct (negb (String.eqb k "") && Ascii.eqb c "="); cycle 1.
    { destruct (String.eqb k "" || _) eqn:E; [congruence|].
      bool_to_prop. cbn in *. congruence. }
    pose proof (getToken_length r seps) as L2.
    destruct (getToken r seps) as [v rest2]. cbn in L, L2.
    destruct (String.eqb k "" || _) eqn:E; [congruence|].
    intros [= <- <-]. bool_to_prop. cbn. repeat split; try assumption.
    destruct rest2; cbn in *; lia.
Qed.

Definition pair_ok (p : pair) : Prop := key p <> "" /\ value p <> "".

Lemma error_text_nonempty seps c r : error_text seps (String c r) <> "".
Proof.
  unfold error_text. destruct (String.eqb _ "") eqn:E; [congruence|].
  bool_to_prop. assumption.
Qed.

(** Enough fuel gives a result, every pair of which has a key and a value, and
    whose error, if any, has a text. *)
Lemma parse_loop_total seps fuel : forall rest acc,
  (String.length rest <= fuel)%nat -> Forall pair_ok acc ->
  exists r, parse_loop fuel seps rest acc = Some r /\ Forall pair_ok (pairs r) /\
            error r <> Some "".
Proof.
  induction fuel as [|fuel IH]; intros [|c rest] acc Hf Hacc; cbn in Hf; try lia.
  1,2: exists (Parsed acc None); done.
  rewrite parse_loop_step. destruct (parse_entry seps (String c rest)) as [[p rest']|] eqn:E.
  - apply parse_entry_spec in E as (Hk & Hv & Hl). cbn in Hl.
    apply IH; [lia|]. apply Forall_app. split; [exact Hacc|].
    constructor; [split; assumption|constructor].
  - eexists. split; [reflexivity|]. split; [exact Hacc|]. cbn.
    intros [= E']. exact (error_text_nonempty _ _ _ E').
Qed.

(** Parsing always ends with a result: pairs whose keys and values are all
    non-empty and, on failure, a non-empty text to show. *)
Theorem parse_total (text seps : string) :
  exists r, parse text seps = Some r /\ Forall pair_ok (pairs r) /\ error r <> Some "".
Proof. apply parse_loop_total; [reflexivity|constructor]. Qed.

(** A key names an option when it does not look like a command-line flag and
    contains neither whitespace nor a separator. *)
Definition good_key (seps k : string) : Prop := bad_key seps k = false.

(** The form accepts a field exactly when ffmpeg parses all of it into
    pairs whose keys can name an option. *)
Theorem badEntries_accepts (text seps : string) :
  badEntries text seps = Some [] <->
  exists ps, parse text seps = Some (Parsed ps None) /\ Forall (fun p => good_key seps (key p)) ps.
Proof.
  unfold badEntries. destruct (parse_total text seps) as ([ps err] & -> & _ & He). cbn in *.
  split.
  - intros [= H]. apply app_nil in H as [Hf Herr].
    destruct err as [e|]; [discriminate|]. exists ps. split; [reflexivity|].
    induction ps as [|p ps IH]; constructor.
    + unfold good_key. cbn in Hf. apply app_nil in Hf as [Hf _].
      unfold bad_of in Hf. destruct (bad_key _ _); [discriminate|reflexivity].
    + apply IH. cbn in Hf. apply app_nil in Hf as [_ Hf]. exact Hf.
  - intros (ps' & [= -> ->] & Hg). f_equal. rewrite app_nil_r.
    induction Hg as [|p ps' Hp _ IH]; cbn; [reflexivity|].
    unfold bad_of at 1. unfold good_key in Hp. rewrite Hp. exact IH.
Qed.

(** ** What a field can say: round trips *)

(** A piece of text the scanner copies unchanged: no escape, no quote, no
    terminator. *)
Definition plain_char (term : string) (c : ascii) : bool :=
  negb (includes_char term c) && negb (Ascii.eqb c backslash) && negb (Ascii.eqb c apostrophe).

Definition stops (term rest : string) : Prop :=
  match rest with EmptyString => True | String c _ => includes_char term c = true end.

Lemma token_loop_stop term rest out e :
  stops term rest -> token_loop term false rest out e = (out, e, rest).
Proof. destruct rest as [|c r]; cbn; [reflexivity|]. intros ->. reflexivity. Qed.

Lemma token_loop_plain term w : forall rest out e,
  all_chars (plain_char term) w = true -> stops term rest ->
  token_loop term false (w ++ rest) out e = (out ++ w, e, rest).
Proof.
  induction w as [|c w IH]; intros rest out e Hw Hs.
  - rewrite append_nil_r. apply token_loop_stop, Hs.
  - cbn in Hw. apply andb_true_iff in Hw as [Hc Hw]. unfold plain_char in Hc.
    bool_to_prop. cbn [token_loop String.append].
    rewrite H, H1, H0, IH by assumption. rewrite append_str1. reflexivity.
Qed.

(** Every character behind a backslash. *)
Fixpoint escape (w : string) : string :=
  match w with
  | EmptyString => EmptyString
  | String c w => String backslash (String c (escape w))
  end.

Lemma token_loop_escape term w : forall rest out e,
  includes_char term backslash = false -> stops term rest -> e = String.length out ->
  token_loop term false (escape w ++ rest) out e = (out ++ w, String.length (out ++ w), rest).
Proof.
  induction w as [|c w IH]; intros rest out e Ht Hs ->.
  - cbn. rewrite append_nil_r. apply token_loop_stop, Hs.
  - cbn [token_loop String.append escape]. rewrite Ht, Ascii.eqb_refl.
    rewrite IH by (assumption || reflexivity). rewrite append_str1. reflexivity.
Qed.

Lemma chop_end fuel out e : (String.length out <= e)%nat -> chop fuel out e = out.
Proof.
  intros H. destruct fuel as [|fuel]; cbn [chop]; [reflexivity|].
  destruct (String.get _ _); [|reflexivity].
  destruct (e <? String.length out)%nat eqn:E; [bool_to_prop; lia|reflexivity].
Qed.

Lemma chop_last fuel out c e :
  includes_char WHITESPACES c = false -> chop fuel (out ++ str1 c) e = out ++ str1 c.
Proof.
  intros H. destruct fuel as [|fuel]; cbn [chop]; [reflexivity|].
  rewrite append_length. cbn [String.length str1].
  replace (String.length out + 1 - 1)%nat with (String.length out + 0)%nat by lia.
  rewrite get_app_r. cbn [String.get str1]. rewrite H, andb_false_r. reflexivity.
Qed.

Definition not_ws (c : ascii) : bool := negb (includes_char WHITESPACES c).

Lemma getToken_plain term w rest :
  w <> "" -> all_chars (plain_char term) w = true -> all_chars not_ws w = true ->
  stops term rest -> getToken (w ++ rest) term = (w, rest).
Proof.
  intros Hne Hw Hws Hs. unfold getToken.
  replace (skip_ws (w ++ rest)) with (w ++ rest); cycle 1.
  { destruct w as [|c w]; [congruence|]. cbn in Hws |- *. unfold not_ws in Hws at 1.
    destruct (includes_char WHITESPACES c); [discriminate|reflexivity]. }
  rewrite token_loop_plain by assumption. cbn [String.append].
  destruct (string_last w Hne) as (w' & c & ->). rewrite chop_last; [reflexivity|].
  rewrite all_chars_app in Hws. cbn in Hws. bool_to_prop. unfold not_ws in *.
  bool_to_prop. assumption.
Qed.

Lemma getToken_escape term w rest :
  w <> "" -> includes_char term backslash = false -> stops term rest ->
  getToken (escape w ++ rest) term = (w, rest).
Proof.
  intros Hne Ht Hs. unfold getToken.
  replace (skip_ws (escape w ++ rest)) with (escape w ++ rest)
    by (destruct w; [congruence|reflexivity]).
  rewrite token_loop_escape by (assumption || reflexivity). cbn [String.append].
  rewrite chop_end by lia. reflexivity.
Qed.

(** A way of writing tokens: [wr] writes a key or a value so that the scanner
    reads it back, before any terminator. *)
Section RoundTrip.
Variables (wr_key wr_value : string -> string) (sep : ascii) (seps : string).
Hypothesis sep_in : includes_char seps sep = true.

Definition reads (term : string) (wr : string -> string) (w : string) : Prop :=
  wr w <> "" /\ forall rest, stops term rest -> getToken (wr w ++ rest) term = (w, rest).

Definition writable (p : pair) : Prop :=
  pair_ok p /\ reads "=" wr_key (key p) /\ reads seps wr_value (value p).

Definition write_pair (p : pair) : string := wr_key (key p) ++ "=" ++ wr_value (value p).

Fixpoint write (ps : list pair) : string :=
  match ps with
  | [] => ""
  | [p] => write_pair p
  | p :: ps => write_pair p ++ str1 sep ++ write ps
  end.

Lemma parse_entry_write p tail :
  writable p -> stops seps tail ->
  parse_entry seps (write_pair p ++ tail) =
  Some (p, match tail with String _ r => r | EmptyString => EmptyString end).
Proof.
  intros ([Hk Hv] & [_ Rk] & [_ Rv]) Ht. unfold parse_entry, write_pair.
  rewrite !append_assoc, Rk by (cbn; reflexivity).
  cbn [String.append]. rewrite Ascii.eqb_refl.
  rewrite (proj2 (String.eqb_neq _ _) Hk). cbn [negb andb]. rewrite Rv by exact Ht.
  rewrite (proj2 (String.eqb_neq _ _) Hv). destruct p; reflexivity.
Qed.

Lemma write_pair_cons p tail : writable p -> exists c r, write_pair p ++ tail = String c r.
Proof.
  intros (_ & [Hk _] & _). unfold write_pair.
  destruct (wr_key (key p)) as [|c r]; [congruence|]. cbn. eauto.
Qed.

Lemma parse_loop_write ps : Forall writable ps -> forall fuel acc,
  (String.length (write ps) <= fuel)%nat ->
  parse_loop fuel seps (write ps) acc = Some (Parsed (acc ++ ps) None).
Proof.
  induction 1 as [|p ps Hp Hps IH]; intros fuel acc Hf.
  { rewrite app_nil_r. destruct fuel; reflexivity. }
  assert (Hs : exists tail, write (p :: ps) = write_pair p ++ tail /\ stops seps tail /\
    match tail with String _ r => r | EmptyString => EmptyString end = write ps).
  { destruct ps as [|q ps]; [exists ""|exists (str1 sep ++ write (q :: ps))];
      cbn [write]; rewrite ?append_nil_r; repeat split; try exact sep_in. }
  destruct Hs as (tail & E & Hst & Ht). rewrite E in *.
  destruct (write_pair_cons p tail Hp) as (c & r & Ec). rewrite Ec in *.
  destruct fuel as [|fuel]; [cbn in Hf; lia|].
  rewrite parse_loop_step. rewrite <- Ec at 1.
  rewrite parse_entry_write by assumption. rewrite Ht.
  rewrite IH; [rewrite <- app_assoc; reflexivity|].
  pose proof (parse_entry_spec seps (String c r) p (write ps)) as S.
  rewrite <- Ec in S at 1. rewrite parse_entry_write, Ht in S by assumption.
  specialize (S eq_refl). cbn in *. lia.
Qed.

Lemma parse_write ps : Forall writable ps ->
  parse (write ps) seps = Some (Parsed ps None).
Proof. intros H. apply (parse_loop_write ps H _ []). reflexivity. Qed.
End RoundTrip.

Lemma escape_nonempty w : w <> "" -> escape w <> "".
Proof. destruct w; cbn; congruence. Qed.

(** C19: round trip: any list of pairs with non-empty keys and values, whatever
    their characters, is read back from its escaped text. *)
Theorem parse_escaped (sep : ascii) (seps : string) (ps : list pair) :
  includes_char seps sep = true -> includes_char seps backslash = false ->
  Forall pair_ok ps ->
  parse (write escape escape sep ps) seps = Some (Parsed ps None).
Proof.
  intros Hin Hbs Hps. apply parse_write; [exact Hin|].
  eapply Forall_impl; [exact Hps|]. intros p [Hk Hv].
  split; [split; assumption|]. split; split; try (apply escape_nonempty; assumption);
    intros rest Hs; apply getToken_escape; auto.
Qed.

Lemma parse_escaped_witness :
  parse (write escape escape "," [Pair "a=b" " 'x, y' "; Pair "-k" "\"]) PAIR_SEPARATORS
  = Some (Parsed [Pair "a=b" " 'x, y' "; Pair "-k" "\"] None).
Proof.
  apply (parse_escaped "," PAIR_SEPARATORS); [reflexivity|reflexivity|].
  repeat constructor; cbn; discriminate.
Defined.

(** The text users type: keys and values free of quotes, backslashes,
    whitespace and, for values, separators. *)
Definition plain_pair (seps : string) (p : pair) : bool :=
  negb (String.eqb (key p) "") && negb (String.eqb (value p) "") &&
  all_chars (plain_char "=") (key p) && all_chars not_ws (key p) &&
  all_chars (plain_char seps) (value p) && all_chars not_ws (value p).

(** Round trip: a plain key=value list separated by any of the accepted
    separators is read back unchanged. *)
Theorem parse_plain (sep : ascii) (seps : string) (ps : list pair) :
  includes_char seps sep = true -> forallb (plain_pair seps) ps = true ->
  parse (write (fun k => k) (fun v => v) sep ps) seps = Some (Parsed ps None).
Proof.
  intros Hin Hps. apply parse_write; [exact Hin|]. apply Forall_forall. intros p Hp.
  rewrite forallb_forall in Hps. specialize (Hps p (proj1 (list_elem_of_In _ _) Hp)).
  unfold plain_pair in Hps. bool_to_prop.
  split; [split; assumption|]. split; split; try assumption;
    intros rest Hs; apply getToken_plain; assumption.
Qed.

Lemma parse_plain_witness :
  parse (write (fun k => k) (fun v => v) newline [Pair "rtsp_transport" "tcp"; Pair "headers" "a=b"])
    PAIR_SEPARATORS = Some (Parsed [Pair "rtsp_transport" "tcp"; Pair "headers" "a=b"] None).
Proof. apply (parse_plain newline PAIR_SEPARATORS); vm_compute; reflexivity. Defined.

(** The cases of tests/js/ffmpeg-options.test.js. *)
Definition count (text : string) : option nat :=
  match parse text PAIR_SEPARATORS with
  | Some (Parsed ps None) => Some (length ps)
  | _ => None
  end.

Definition nl : string := str1 newline.

Example parse_test_cases :
  map count [""; "-tls_verify 0"; "tls_verify=0"; "a=1,b=2"; "a=1,,b=2"; "a=1" ++ nl ++ nl ++ "b=2";
             "a=1" ++ nl; "a=1,"; "a=1," ++ nl; "a="; "=1"; "a='x,y',b=2"; "a=x\,y"; " a = 1 ";
             "a=1, b=2"; "-tls_verify=0"]
  = [Some 0; None; Some 1; Some 2; Some 2; Some 2; Some 1; Some 1; None; None; None; Some 2;
     Some 1; Some 1; Some 2; Some 1]%nat.
Proof. vm_compute. reflexivity. Qed.

Example badEntries_test_cases :
  map (fun t => badEntries t PAIR_SEPARATORS)
    ["-tls_verify 0"; "-tls_verify=0"; "rtsp_transport=tcp,tls_verify 0";
     "rtsp_transport=tcp,tls_verify 0,b=2"; "a=1" ++ nl ++ "b="]
  = [Some ["-tls_verify 0"]; Some ["-tls_verify=0"]; Some ["tls_verify 0"];
     Some ["tls_verify 0,b=2"]; Some ["b="]].
Proof. vm_compute. reflexivity. Qed.
End Ffmpeg.
