(* ===== verification/AuthHelpers.v ===== *)
(** web/js/auth-helpers.js: the page's credential and the one silent probe that
    refreshes it.

    [ZMAuth] is the class's only field, the relay; its methods return the new
    relay next to their result.  The queue of [revalidateAuth] is a state
    machine whose handlers return the new state and the effects they have. *)
From S2P Require Import JsString.

Module Auth.

(** ** Pure helpers *)

Inductive failure_action := ALogin | ARetry | AIgnore.

#[export] Instance failure_action_eq_dec : EqDecision failure_action.
Proof. solve_decision. Defined.

Definition authFailureAction (httpStatus : Z) : failure_action :=
  if (httpStatus =? 401) || (httpStatus =? 403) then ALogin
  else if (httpStatus =? 0) || (httpStatus =? 408) || (httpStatus >=? 500) then ARetry
  else AIgnore.

Definition is_alpha (c : ascii) : bool :=
  ((65 <=? code c) && (code c <=? 90)) || ((97 <=? code c) && (code c <=? 122)).

(** [\w] of a regular expression. *)
Definition is_word (c : ascii) : bool := is_alpha c || is_digit c || Ascii.eqb c "_".

Definition hex_digit (z : Z) : ascii := if z <? 10 then chr (48 + z) else chr (55 + z).
Definition percent (b : Z) : string :=
  String "%" (String (hex_digit (Z.shiftr b 4)) (str1 (hex_digit (Z.land b 15)))).

Definition uri_unreserved (c : ascii) : bool :=
  is_alpha c || is_digit c || includes_char "-_.!~*'()" c.

(** [encodeURIComponent]: percent-encodes the UTF-8 bytes of a code unit. *)
Fixpoint encodeURIComponent (s : string) : string :=
  match s with
  | EmptyString => EmptyString
  | String c s =>
      (if uri_unreserved c then str1 c
       else if code c <? 128 then percent (code c)
       else percent (Z.lor 192 (Z.shiftr (code c) 6)) ++ percent (Z.lor 128 (Z.land (code c) 63)))
      ++ encodeURIComponent s
  end.

Definition loginRedirectUrl (baseUrl view : string) : string :=
  baseUrl ++ "?view=login&postLoginQuery=" ++
  encodeURIComponent ("view=" ++ (if String.eqb view "" then "console" else view)).

Definition appendQuery (url query : string) : string :=
  if String.eqb query "" then url
  else url ++ (if negb (has "?" url) then "?" else "&") ++ query.

(** Matches [p] at the start of [s] whatever the case; the rest of [s]. *)
Fixpoint ci_prefix (p s : string) : option string :=
  match p, s with
  | EmptyString, _ => Some s
  | String a p, String b s =>
      if Ascii.eqb (lower_char a) (lower_char b) then ci_prefix p s else None
  | String _ _, EmptyString => None
  end.

Definition is_sep (c : ascii) : bool := Ascii.eqb c "?" || Ascii.eqb c "&".

(** The leftmost match of /[?&]name=/i that [ok] lets stand: the text before
    it, the separator captured by the group, the text after the equals sign. *)
Fixpoint find_param_next (name : string) (ok : string -> bool) (s : string)
  : option (string * string * string) :=
  match s with
  | EmptyString => None
  | String c s' =>
      match (if is_sep c then ci_prefix (name ++ "=") s' else None) with
      | Some after =>
          if ok after then Some (EmptyString, str1 c, after)
          else option_map (fun '(b, g, a) => (String c b, g, a)) (find_param_next name ok s')
      | None => option_map (fun '(b, g, a) => (String c b, g, a)) (find_param_next name ok s')
      end
  end.

(** The same for /(^|[?&])name=/i: the start of the text counts as a separator. *)
Definition find_param (name : string) (ok : string -> bool) (s : string)
  : option (string * string * string) :=
  match ci_prefix (name ++ "=") s with
  | Some after => if ok after then Some (EmptyString, EmptyString, after)
                  else find_param_next name ok s
  | None => find_param_next name ok s
  end.

Definition anything (_ : string) : bool := true.

(** [[^&]*] *)
Fixpoint take_until_amp (s : string) : string :=
  match s with
  | EmptyString => EmptyString
  | String c s' => if Ascii.eqb c "&" then EmptyString else String c (take_until_amp s')
  end.
Fixpoint drop_until_amp (s : string) : string :=
  match s with
  | EmptyString => EmptyString
  | String c s' => if Ascii.eqb c "&" then s else drop_until_amp s'
  end.

(** The replacement text of String.prototype.replace, with one group [g], the
    matched text [m] and the text [b] before and [a] after it. *)
Fixpoint expand (g m b a t : string) : string :=
  match t with
  | EmptyString => EmptyString
  | String c t' =>
      if Ascii.eqb c "$" then
        match t' with
        | EmptyString => str1 c
        | String d t'' =>
            if Ascii.eqb d "$" then String "$" (expand g m b a t'')
            else if Ascii.eqb d "&" then m ++ expand g m b a t''
            else if Ascii.eqb d "`" then b ++ expand g m b a t''
            else if Ascii.eqb d "'" then a ++ expand g m b a t''
            else if Ascii.eqb d "1" then g ++ expand g m b a t''
            else if Ascii.eqb d "0" then
              match t'' with
              | String e t3 => if Ascii.eqb e "1" then g ++ expand g m b a t3
                               else String c (expand g m b a t')
              | EmptyString => String c (expand g m b a t')
              end
            else String c (expand g m b a t')
        end
      else String c (expand g m b a t')
  end.

(** [name] is taken literally: the callers' names are auth and connkey. *)
Definition setUrlParam (url name value : string) : string :=
  match find_param name anything url with
  | Some (b, g, after) =>
      let rest := drop_until_amp after in
      let m := slice url (String.length b) (String.length url - String.length rest) in
      b ++ expand g m b rest ("$1" ++ name ++ "=" ++ value) ++ rest
  | None => appendQuery url (name ++ "=" ++ value)
  end.

Fixpoint take_word (s : string) : string :=
  match s with
  | EmptyString => EmptyString
  | String c s' => if is_word c then String c (take_word s') else EmptyString
  end.

(** [(\w+)] needs at least one character. *)
Definition word_follows (s : string) : bool := negb (String.eqb (take_word s) "").

Definition authHashFromRelay (relay : string) : string :=
  match find_param "auth" word_follows relay with
  | Some (_, _, after) => take_word after
  | None => ""
  end.

(** [connKey] is [None] where the source passes undefined or null. *)
Definition rebuildStreamSrc (src authHash : string) (connKey : option string) : string :=
  let out := if String.eqb authHash "" then src else setUrlParam src "auth" authHash in
  match connKey with
  | Some k => if String.eqb k "" then out else setUrlParam out "connkey" k
  | None => out
  end.

(** ** ZMAuth *)

(** The authentication fields of a response; an absent field is empty. *)
Record auth_data := AuthData { auth_relay : string; auth : string }.

Definition hash (relay : string) : string := authHashFromRelay relay.

(** The new relay and whether the credential changed. *)
Definition update (relay : string) (data : option auth_data) : string * bool :=
  match data with
  | None => (relay, false)
  | Some d =>
      if negb (String.eqb (auth_relay d) "") then
        if String.eqb (auth_relay d) relay then (relay, false) else (auth_relay d, true)
      else if negb (String.eqb (auth d) "") && negb (String.eqb (auth d) (hash relay)) then
        (setUrlParam relay "auth" (auth d), true)
      else (relay, false)
  end.

Definition appendTo (relay url : string) : string := appendQuery url relay.

Definition applyTo (relay src : string) (connKey : option string) : string :=
  if String.eqb src "" then ""
  else
    let out :=
      if negb (String.eqb relay "") then
        match find_param "auth" anything src with
        | Some _ => if negb (String.eqb (hash relay) "") then setUrlParam src "auth" (hash relay)
                    else src
        | None => appendTo relay src
        end
      else src in
    rebuildStreamSrc out "" connKey.

(** ** Re-validation *)

Section Revalidation.
(** [onValid] callbacks, by name. *)
Context {callback : Type}.
Variables thisUrl currentView : string.

Record state := State {
  authGoingToLogin : bool;
  authRevalidating : bool;
  authPendingCallbacks : list callback;
}.
#[export] Instance eta_state : Eta state := fun s =>
  State (authGoingToLogin s) (authRevalidating s) (authPendingCallbacks s).

Inductive effect :=
| Assign (url : string)          (* window.location.assign *)
| GetJSON (url : string)         (* the probe *)
| SetNavBar (data : option auth_data)
| Run (cb : callback).

Definition init : state := State false false [].

Definition goToLogin (s : state) : state * list effect :=
  if authGoingToLogin s then (s, [])
  else (s <| authGoingToLogin := true |>, [Assign (loginRedirectUrl thisUrl currentView)]).

Definition authProbeUrl (baseUrl : string) : string :=
  baseUrl ++ "?view=request&request=status&entity=navBar".

(** [onValid] is [None] when it is not a function. *)
Definition revalidateAuth (onValid : option callback) (s : state) : state * list effect :=
  let s := match onValid with
           | Some cb => s <| authPendingCallbacks := (authPendingCallbacks s ++ [cb])%list |>
           | None => s
           end in
  if authRevalidating s then (s, [])
  else (s <| authRevalidating := true |>, [GetJSON (authProbeUrl thisUrl)]).

(** The always handler of the probe. *)
Definition probe_always (s : state) : state * list effect :=
  let callbacks := authPendingCallbacks s in
  let s := s <| authRevalidating := false |> <| authPendingCallbacks := [] |> in
  if authGoingToLogin s then (s, []) else (s, map Run callbacks).

Definition probe_done (data : option auth_data) (s : state) : state * list effect :=
  let '(s, fx) := probe_always s in (s, SetNavBar data :: fx).

Definition probe_fail (httpStatus : Z) (s : state) : state * list effect :=
  let '(s, fx) :=
    if bool_decide (authFailureAction httpStatus = ALogin) then goToLogin s else (s, []) in
  let '(s, fx') := probe_always s in (s, fx ++ fx')%list.

(** [relay] is [None] where there is no zmAuth. *)
Definition whenAuthFresh (relay : option string) (cb : callback) (s : state)
  : state * list effect :=
  match relay with
  | Some r => if String.eqb (hash r) "" then (s, [Run cb]) else revalidateAuth (Some cb) s
  | None => (s, [Run cb])
  end.

Definition onAuthVisible (visible : bool) (reload : callback) (s : state)
  : state * list effect :=
  if visible then revalidateAuth (Some reload) s else (s, []).

(** What can happen to the page: the entry points, and the answer of a probe. *)
Inductive event :=
| EGoToLogin
| ERevalidate (onValid : option callback)
| EFresh (relay : option string) (cb : callback)
| EVisible (visible : bool) (reload : callback)
| EDone (data : option auth_data)
| EFail (httpStatus : Z).

Definition handle (e : event) (s : state) : state * list effect :=
  match e with
  | EGoToLogin => goToLogin s
  | ERevalidate cb => revalidateAuth cb s
  | EFresh relay cb => whenAuthFresh relay cb s
  | EVisible v cb => onAuthVisible v cb s
  | EDone data => probe_done data s
  | EFail status => probe_fail status s
  end.

(** A probe answers only while one is in flight. *)
Definition enabled (e : event) (s : state) : bool :=
  match e with EDone _ | EFail _ => authRevalidating s | _ => true end.

Inductive run : state -> list event -> list effect -> Prop :=
| run_init : run init [] []
| run_step s es fx e s' fx' :
    run s es fx -> enabled e s = true -> handle e s = (s', fx') ->
    run s' (es ++ [e])%list (fx ++ fx')%list.
End Revalidation.
Arguments state : clear implicits.
Arguments effect : clear implicits.
Arguments event : clear implicits.

(** ** Parameters as a list *)

Definition no_char (bad : string) (w : string) : bool :=
  all_chars (fun c => negb (includes_char bad c)) w.

Definition param : Type := string * string.

Definition same_key (a b : string) : bool := String.eqb (toLowerCase a) (toLowerCase b).

Definition render_param (p : param) : string := p.1 ++ "=" ++ p.2.

(** [name=value&name=value..]: a relay, or the query of a url. *)
Fixpoint render_params (ps : list param) : string :=
  match ps with
  | [] => EmptyString
  | [p] => render_param p
  | p :: ps => render_param p ++ "&" ++ render_params ps
  end.

Definition render (base : string) (ps : list param) : string :=
  match ps with [] => base | _ => base ++ "?" ++ render_params ps end.

Definition wf_param (p : param) : bool :=
  no_char "?&=" p.1 && negb (String.eqb p.1 "") && no_char "?&" p.2.

Definition wf_base (base : string) : bool :=
  no_char "?&=" base && negb (String.eqb base "").

(** The first parameter of that name gets the value; a new one goes last. *)
Fixpoint set_param (name value : string) (ps : list param) : list param :=
  match ps with
  | [] => [(name, value)]
  | p :: ps => if same_key name p.1 then (name, value) :: ps else p :: set_param name value ps
  end.

Fixpoint get_param (name : string) (ps : list param) : option string :=
  match ps with
  | [] => None
  | p :: ps => if same_key name p.1 then Some p.2 else get_param name ps
  end.

(** Reading a parameter of a url back: what the server sees. *)
Definition getUrlParam (url name : string) : option string :=
  match find_param name anything url with
  | Some (_, _, after) => Some (take_until_amp after)
  | None => None
  end.

(** What applyTo does to the parameters of a src. *)
Definition apply_params (rs ps : list param) (connKey : option string) : list param :=
  let ps1 :=
    match rs, get_param "auth" ps with
    | [], _ => ps
    | _, Some _ => match get_param "auth" rs with
                   | Some h => set_param "auth" h ps
                   | None => ps
                   end
    | _, None => (ps ++ rs)%list
    end in
  match connKey with
  | Some k => if String.eqb k "" then ps1 else set_param "connkey" k ps1
  | None => ps1
  end.

(** ** Lemmas on matching *)

Lemma lower_char_eq c d : includes_char "?&=" d = true -> lower_char c = d -> c = d.
Proof.
  unfold includes_char. intros H E. subst d.
  destruct c as [[] [] [] [] [] [] [] []]; try reflexivity; vm_compute in H; discriminate.
Qed.

Lemma lower_char_id d : includes_char "?&=" d = true -> lower_char d = d.
Proof.
  unfold includes_char. rewrite !orb_true_iff, !Ascii.eqb_eq. intros [->|[->|[->|[=]]]]; reflexivity.
Qed.

Lemma no_char_cons bad c w :
  no_char bad (String c w) = true <-> includes_char bad c = false /\ no_char bad w = true.
Proof. unfold no_char. cbn. rewrite andb_true_iff, negb_true_iff. reflexivity. Qed.

Lemma no_char_app bad a b :
  no_char bad (a ++ b) = true <-> no_char bad a = true /\ no_char bad b = true.
Proof. unfold no_char. rewrite all_chars_app, andb_true_iff. reflexivity. Qed.

Lemma no_char_weaken bad bad' w :
  (forall c, includes_char bad' c = true -> includes_char bad c = true) ->
  no_char bad w = true -> no_char bad' w = true.
Proof.
  intros H. apply all_chars_impl. intros c Hc. bool_to_prop.
  apply negb_true_iff, not_true_iff_false. intros Hc'. apply H in Hc'. congruence.
Qed.

(** A separator in the text ends the comparison with a name. *)
Lemma ci_prefix_stop p b c x :
  no_char "?&=" p = true -> is_sep c = true ->
  ci_prefix (p ++ "=") (b ++ String c x) = option_map (fun r => r ++ String c x) (ci_prefix (p ++ "=") b).
Proof.
  intros Hp Hc. revert p Hp. induction b as [|d b IH]; intros p Hp.
  - assert (Hs : forall a, includes_char "?&=" a = false \/ a = "="%char ->
                 Ascii.eqb (lower_char a) (lower_char c) = false).
    { intros a Ha. apply Ascii.eqb_neq. intros E.
      assert (Hc' : includes_char "?&=" c = true).
      { unfold is_sep in Hc. unfold includes_char. rewrite orb_true_iff in Hc |- *.
        destruct Hc as [->| ->]; [left; reflexivity|right; reflexivity]. }
      rewrite (lower_char_id c Hc') in E. apply lower_char_eq in E; [|exact Hc'].
      subst a. destruct Ha as [Ha|Ha]; [congruence|]. subst c. discriminate Hc. }
    destruct p as [|a p]; cbn.
    + rewrite (Hs "="%char); [reflexivity|right; reflexivity].
    + apply no_char_cons in Hp as [Ha _]. rewrite Hs; [reflexivity|left; exact Ha].
  - destruct p as [|a p]; cbn; (destruct (Ascii.eqb _ _); [|reflexivity]).
    + reflexivity.
    + apply no_char_cons in Hp as [_ Hp]. apply IH, Hp.
Qed.

Lemma ci_prefix_param name k v :
  no_char "?&=" name = true -> no_char "?&=" k = true ->
  ci_prefix (name ++ "=") (k ++ "=" ++ v) = if same_key name k then Some v else None.
Proof.
  unfold same_key. revert k. induction name as [|a name IH]; intros [|d k] Hn Hk; cbn.
  - rewrite Ascii.eqb_refl. reflexivity.
  - apply no_char_cons in Hk as [Hd _].
    destruct (Ascii.eqb_spec (lower_char "=") (lower_char d)) as [E|E]; [|reflexivity].
    symmetry in E. apply lower_char_eq in E; [|reflexivity]. subst d. discriminate Hd.
  - apply no_char_cons in Hn as [Ha _].
    destruct (Ascii.eqb_spec (lower_char a) (lower_char "=")) as [E|E]; [|reflexivity].
    apply lower_char_eq in E; [|reflexivity]. subst a. discriminate Ha.
  - apply no_char_cons in Hn as [Ha Hn], Hk as [Hd Hk]. rewrite IH by assumption.
    rewrite string_eqb_cons. destruct (Ascii.eqb (lower_char a) (lower_char d)); reflexivity.
Qed.

(** Text without separators cannot hold a match after its start. *)
Lemma find_next_app name ok w s :
  no_char "?&" w = true ->
  find_param_next name ok (w ++ s) =
  option_map (fun '(b, g, a) => (w ++ b, g, a)) (find_param_next name ok s).
Proof.
  induction w as [|c w IH]; intros Hw; cbn [String.append].
  - destruct (find_param_next name ok s) as [[[b g] a]|]; reflexivity.
  - apply no_char_cons in Hw as [Hc Hw]. cbn [find_param_next].
    assert (is_sep c = false) as ->.
    { unfold includes_char in Hc. cbn in Hc. unfold is_sep.
      rewrite orb_false_r in Hc. rewrite !(Ascii.eqb_sym c) in *. exact Hc. }
    rewrite IH by exact Hw. destruct (find_param_next name ok s) as [[[b g] a]|]; reflexivity.
Qed.

Lemma expand_plain g m b a t w :
  no_char "$" t = true -> expand g m b a (t ++ w) = t ++ expand g m b a w.
Proof.
  induction t as [|c t IH]; [reflexivity|]. intros H. apply no_char_cons in H as [Hc H].
  unfold includes_char in Hc. cbn in Hc. rewrite orb_false_r in Hc.
  cbn [String.append expand]. rewrite Hc, IH by exact H. reflexivity.
Qed.

(** The replacement as the source means it, when no [$] asks for more. *)
Lemma expand_param g m b a name value :
  no_char "$" name = true -> no_char "$" value = true ->
  expand g m b a ("$1" ++ name ++ "=" ++ value) = g ++ name ++ "=" ++ value.
Proof.
  intros Hn Hv. cbn [String.append expand]. f_equal.
  rewrite expand_plain by exact Hn. f_equal. cbn [expand]. f_equal.
  rewrite <- (append_nil_r value) at 1. rewrite expand_plain by exact Hv. cbn. apply append_nil_r.
Qed.

Definition subst_next (name value s : string) : option string :=
  match find_param_next name anything s with
  | Some (b, g, after) => Some (b ++ g ++ name ++ "=" ++ value ++ drop_until_amp after)
  | None => None
  end.

Lemma setUrlParam_next url name value :
  no_char "$" name = true -> no_char "$" value = true ->
  ci_prefix (name ++ "=") url = None ->
  setUrlParam url name value =
  match subst_next name value url with
  | Some r => r
  | None => appendQuery url (name ++ "=" ++ value)
  end.
Proof.
  intros Hn Hv Hp. unfold setUrlParam, subst_next, find_param. rewrite Hp.
  destruct (find_param_next name anything url) as [[[b g] after]|]; [|reflexivity].
  rewrite expand_param by assumption. rewrite !append_assoc. reflexivity.
Qed.

Lemma subst_next_app name value w s :
  no_char "?&" w = true ->
  subst_next name value (w ++ s) = option_map (append w) (subst_next name value s).
Proof.
  intros Hw. unfold subst_next. rewrite find_next_app by exact Hw.
  destruct (find_param_next name anything s) as [[[b g] a]|]; cbn; [|reflexivity].
  rewrite !append_assoc. reflexivity.
Qed.

Lemma weaken_base w : no_char "?&=" w = true -> no_char "?&" w = true.
Proof.
  apply no_char_weaken. intros c. unfold includes_char. cbn.
  rewrite !orb_true_iff. naive_solver.
Qed.

Lemma render_param_plain p : wf_param p = true -> no_char "?&" (render_param p) = true.
Proof.
  intros H. unfold wf_param in H. bool_to_prop. unfold render_param.
  rewrite no_char_app, no_char_app. split; [apply weaken_base; assumption|].
  split; [reflexivity|assumption].
Qed.

Lemma drop_until_amp_app v r :
  no_char "?&" v = true -> (r = "" \/ exists r', r = String "&" r') -> drop_until_amp (v ++ r) = r.
Proof.
  intros Hv Hr. induction v as [|c v IH]; cbn.
  - destruct Hr as [->|(r' & ->)]; reflexivity.
  - apply no_char_cons in Hv as [Hc Hv]. destruct (Ascii.eqb_spec c "&") as [->|_]; [discriminate Hc|].
    apply IH, Hv.
Qed.

(** A query is its first parameter and the rest behind an ampersand. *)
Definition tail (ps : list param) : string :=
  match ps with [] => EmptyString | _ => "&" ++ render_params ps end.

Lemma render_params_cons p ps : render_params (p :: ps) = render_param p ++ tail ps.
Proof. destruct ps; cbn; [rewrite append_nil_r|]; reflexivity. Qed.

Lemma set_param_cons name value ps :
  exists p ps', set_param name value ps = p :: ps'.
Proof. destruct ps as [|p ps]; cbn; [eauto|]. destruct (same_key _ _); eauto. Qed.

Lemma subst_params name value c ps :
  is_sep c = true -> no_char "?&=" name = true -> forallb wf_param ps = true -> ps <> [] ->
  subst_next name value (String c (render_params ps)) =
  match get_param name ps with
  | Some _ => Some (String c (render_params (set_param name value ps)))
  | None => None
  end.
Proof.
  intros Hc Hn. revert c Hc. induction ps as [|p ps IH]; intros c Hc Hps Hne; [congruence|].
  cbn [forallb] in Hps. apply andb_true_iff in Hps as [Hp Hps].
  pose proof (render_param_plain p Hp) as Hplain.
  rewrite render_params_cons. cbn [get_param set_param].
  assert (Hm : ci_prefix (name ++ "=") (render_param p ++ tail ps)
               = if same_key name p.1 then Some (p.2 ++ tail ps) else None).
  { unfold render_param. rewrite !append_assoc. unfold wf_param in Hp. bool_to_prop.
    apply ci_prefix_param; assumption. }
  destruct (same_key name p.1) eqn:Ek.
  - unfold subst_next. cbn [find_param_next]. rewrite Hc, Hm. unfold anything at 1.
    rewrite drop_until_amp_app.
    + rewrite render_params_cons. unfold render_param. cbn [fst snd String.append str1]. rewrite !append_assoc. reflexivity.
    + unfold wf_param in Hp. bool_to_prop. assumption.
    + destruct ps; [left; reflexivity|right; eexists; reflexivity].
  - assert (subst_next name value (String c (render_param p ++ tail ps)) =
            option_map (String c) (subst_next name value (render_param p ++ tail ps))) as ->.
    { unfold subst_next. cbn [find_param_next]. rewrite Hc, Hm.
      destruct (find_param_next name anything (render_param p ++ tail ps)) as [[[b g] a]|]; reflexivity. }
    rewrite subst_next_app by exact Hplain.
    destruct ps as [|q ps]; [reflexivity|]. unfold tail. cbn [String.append].
    rewrite IH by (first [assumption | reflexivity | congruence]).
    destruct (get_param name (q :: ps)); cbn [option_map]; [|reflexivity].
    destruct (set_param_cons name value (q :: ps)) as (p' & ps' & E). rewrite E.
    rewrite (render_params_cons p (p' :: ps')). reflexivity.
Qed.

Lemma has_char (c : ascii) s : has (str1 c) s = includes_char s c.
Proof.
  unfold has. induction s as [|d s IH]; cbn; [reflexivity|].
  unfold includes_char. fold includes_char. rewrite andb_true_r.
  destruct (Ascii.eqb c d); cbn; [reflexivity|].
  destruct (index_of (str1 c) s); exact IH.
Qed.

Lemma has_qm s : has "?" s = includes_char s "?".
Proof. exact (has_char "?" s). Qed.

Lemma no_char_includes bad c w : includes_char bad c = true -> no_char bad w = true -> includes_char w c = false.
Proof.
  intros Hc. induction w as [|d w IH]; [reflexivity|]. intros H. apply no_char_cons in H as [Hd H].
  unfold includes_char. fold includes_char. destruct (Ascii.eqb_spec c d) as [<-|_]; [congruence|].
  apply IH, H.
Qed.

Lemma ci_prefix_no_eq name w : no_char "=" w = true -> ci_prefix (name ++ "=") w = None.
Proof.
  revert w. induction name as [|a name IH]; intros [|d w] Hw; try reflexivity; cbn;
    apply no_char_cons in Hw as [Hd Hw].
  - destruct (Ascii.eqb_spec (lower_char "=") (lower_char d)) as [E|E]; [|reflexivity].
    symmetry in E. apply lower_char_eq in E; [|reflexivity]. subst d. discriminate Hd.
  - destruct (Ascii.eqb _ _); [|reflexivity]. apply IH, Hw.
Qed.

Lemma wf_base_eq base : wf_base base = true -> no_char "=" base = true.
Proof.
  unfold wf_base. intros H. bool_to_prop. revert H. apply no_char_weaken.
  intros c. unfold includes_char. cbn. rewrite !orb_true_iff. naive_solver.
Qed.

Lemma ci_prefix_base name base s :
  no_char "?&=" name = true -> wf_base base = true ->
  ci_prefix (name ++ "=") (base ++ String "?" s) = None.
Proof.
  intros Hn Hb. rewrite ci_prefix_stop by (try assumption; reflexivity).
  rewrite ci_prefix_no_eq by (apply wf_base_eq, Hb). reflexivity.
Qed.

Lemma appendQuery_base base q :
  wf_base base = true -> q <> "" -> appendQuery base q = base ++ "?" ++ q.
Proof.
  intros Hb Hq. unfold appendQuery. apply String.eqb_neq in Hq as ->.
  unfold wf_base in Hb. bool_to_prop.
  rewrite has_qm, (no_char_includes "?&="); [reflexivity|reflexivity|assumption].
Qed.

Lemma appendQuery_more base s q :
  q <> "" -> appendQuery (base ++ "?" ++ s) q = (base ++ "?" ++ s) ++ "&" ++ q.
Proof.
  intros Hq. unfold appendQuery. apply String.eqb_neq in Hq as ->.
  rewrite has_qm, !includes_char_app.
  unfold includes_char at 2. rewrite Ascii.eqb_refl. cbn. rewrite orb_true_r. reflexivity.
Qed.

Lemma render_params_snoc ps qs :
  ps <> [] -> qs <> [] -> render_params (ps ++ qs) = render_params ps ++ "&" ++ render_params qs.
Proof.
  intros Hps Hqs. induction ps as [|p ps IH]; [congruence|].
  destruct ps as [|p' ps].
  - cbn. destruct qs; [congruence|reflexivity].
  - change ((p :: p' :: ps) ++ qs)%list with (p :: ((p' :: ps) ++ qs))%list.
    rewrite (render_params_cons p (p' :: ps)), (render_params_cons p ((p' :: ps) ++ qs)).
    unfold tail. cbn [app] in *. rewrite IH by congruence.
    rewrite !append_assoc. reflexivity.
Qed.

Lemma render_some base ps : ps <> [] -> render base ps = base ++ "?" ++ render_params ps.
Proof. destruct ps; [congruence|reflexivity]. Qed.

Lemma set_param_absent name value ps :
  get_param name ps = None -> set_param name value ps = (ps ++ [(name, value)])%list.
Proof.
  induction ps as [|p ps IH]; cbn; [reflexivity|]. destruct (same_key _ _); [discriminate|].
  intros H. rewrite IH by exact H. reflexivity.
Qed.

(** SetUrlParam on a url is exactly "give the first parameter of that name
    (whatever its case) this value, or add one at the end": every other
    parameter, and the order of them, stays. *)
Theorem setUrlParam_refines (base : string) (ps : list param) (name value : string) :
  wf_base base = true -> forallb wf_param ps = true ->
  no_char "?&=$" name = true -> no_char "?&$" value = true ->
  setUrlParam (render base ps) name value = render base (set_param name value ps).
Proof.
  intros Hb Hps Hn Hv.
  assert (Hn' : no_char "?&=" name = true /\ no_char "$" name = true /\ no_char "$" value = true).
  { repeat split; [revert Hn|revert Hn|revert Hv]; apply no_char_weaken; intros c;
      unfold includes_char; cbn; rewrite !orb_true_iff; naive_solver. }
  destruct Hn' as (Hne & Hnd & Hvd).
  assert (Hq : name ++ "=" ++ value <> "") by (destruct name; discriminate).
  destruct ps as [|p ps].
  - cbn [render set_param render_params]. rewrite setUrlParam_next by
      (try assumption; apply ci_prefix_no_eq, wf_base_eq, Hb).
    rewrite <- (append_nil_r base) at 1. rewrite subst_next_app; cycle 1.
    { apply weaken_base. unfold wf_base in Hb. bool_to_prop. assumption. }
    cbn. apply appendQuery_base; assumption.
  - unfold render at 1. cbn [String.append] in *.
    rewrite setUrlParam_next by (try assumption; apply (ci_prefix_base name); assumption).
    rewrite subst_next_app by (apply weaken_base; unfold wf_base in Hb; bool_to_prop; assumption).
    rewrite subst_params by (first [assumption | reflexivity | congruence]).
    destruct (get_param name (p :: ps)) eqn:G; cbn [option_map].
    + destruct (set_param_cons name value (p :: ps)) as (p' & ps' & E). rewrite E. reflexivity.
    + rewrite set_param_absent by exact G. rewrite (render_some base (_ ++ _)%list) by discriminate.
      rewrite (appendQuery_more base (render_params (p :: ps))) by exact Hq.
      rewrite (render_params_snoc (p :: ps) [(name, value)]) by congruence.
      rewrite !append_assoc. reflexivity.
Qed.

Lemma setUrlParam_refines_witness :
  setUrlParam "index.php?mode=jpeg&AUTH=old&connkey=000001" "auth" "abc"
  = "index.php?mode=jpeg&auth=abc&connkey=000001".
Proof.
  apply (setUrlParam_refines "index.php" [("mode", "jpeg"); ("AUTH", "old"); ("connkey", "000001")]);
    vm_compute; reflexivity.
Defined.

Lemma ci_prefix_head name p ps :
  no_char "?&=" name = true -> wf_param p = true ->
  ci_prefix (name ++ "=") (render_params (p :: ps))
  = if same_key name p.1 then Some (p.2 ++ tail ps) else None.
Proof.
  intros Hn Hp. rewrite render_params_cons. unfold render_param. rewrite !append_assoc.
  unfold wf_param in Hp. bool_to_prop. apply ci_prefix_param; assumption.
Qed.

(** Where a search of a query ends. *)
Definition found (name : string) (ps : list param) (r : option (string * string * string)) : Prop :=
  match get_param name ps with
  | Some v => exists b g rest, r = Some (b, g, v ++ rest) /\
                               (rest = "" \/ exists rest', rest = String "&" rest')
  | None => r = None
  end.

Definition accepts (name : string) (ok : string -> bool) (ps : list param) : Prop :=
  forall v rest, get_param name ps = Some v -> (rest = "" \/ exists r', rest = String "&" r') ->
  ok (v ++ rest) = true.

Lemma tail_amp ps : tail ps = "" \/ exists r, tail ps = String "&" r.
Proof. destruct ps; [left; reflexivity|right; eexists; reflexivity]. Qed.

Lemma find_next_params name ok c ps :
  is_sep c = true -> no_char "?&=" name = true -> forallb wf_param ps = true ->
  ps <> [] -> accepts name ok ps ->
  found name ps (find_param_next name ok (String c (render_params ps))).
Proof.
  intros Hc Hn. revert c Hc. induction ps as [|p ps IH]; intros c Hc Hps Hne Hok; [congruence|].
  cbn [forallb] in Hps. apply andb_true_iff in Hps as [Hp Hps].
  unfold found. cbn [get_param find_param_next]. rewrite Hc, ci_prefix_head by assumption.
  destruct (same_key name p.1) eqn:Ek.
  - rewrite Hok; [|cbn [get_param]; rewrite Ek; reflexivity|apply tail_amp].
    exists "", (str1 c), (tail ps). split; [reflexivity|apply tail_amp].
  - rewrite render_params_cons, find_next_app by (apply render_param_plain, Hp).
    destruct ps as [|q ps]; [reflexivity|]. unfold tail. cbn [String.append].
    specialize (IH "&"%char eq_refl Hps ltac:(congruence)).
    unfold found in IH. cbn in IH |- *.
    assert (Hok' : accepts name ok (q :: ps)).
    { intros v rest G Hr. apply Hok; [cbn [get_param]; rewrite Ek; exact G|exact Hr]. }
    specialize (IH Hok'). cbn [get_param] in IH.
    destruct (if same_key name q.1 then _ else _) as [v|].
    + destruct IH as (b & g & rest & -> & Hr). eexists _, _, rest. split; [reflexivity|exact Hr].
    + rewrite IH. reflexivity.
Qed.

Lemma find_params name ok ps :
  no_char "?&=" name = true -> forallb wf_param ps = true -> accepts name ok ps ->
  found name ps (find_param name ok (render_params ps)).
Proof.
  intros Hn Hps Hok. destruct ps as [|p ps].
  { unfold found, find_param. cbn. destruct name; reflexivity. }
  pose proof Hps as Hps'. cbn [forallb] in Hps. apply andb_true_iff in Hps as [Hp _].
  unfold find_param. rewrite ci_prefix_head by assumption. unfold found. cbn [get_param].
  pose proof (find_next_params name ok "&" (p :: ps) eq_refl Hn Hps' ltac:(congruence) Hok) as F.
  unfold found in F. cbn [get_param find_param_next] in F. change (is_sep "&") with true in F.
  cbv iota in F. rewrite ci_prefix_head in F by assumption.
  destruct (same_key name p.1) eqn:Ek.
  - rewrite Hok in F |- *; try apply tail_amp; try (cbn [get_param]; rewrite Ek; reflexivity).
    exists "", "", (tail ps). split; [reflexivity|apply tail_amp].
  - destruct (get_param name ps) as [v|].
    + destruct F as (b & g & rest & F & Hr).
      destruct (find_param_next name ok (render_params (p :: ps))) as [[[b' g'] a']|]; [|discriminate].
      injection F as _ _ ->. eexists _, _, rest. split; [reflexivity|exact Hr].
    + destruct (find_param_next name ok (render_params (p :: ps))) as [[[b' g'] a']|]; [discriminate|reflexivity].
Qed.

Definition is_token (w : string) : bool := all_chars is_word w && negb (String.eqb w "").

Lemma take_word_app w rest :
  all_chars is_word w = true -> (rest = "" \/ exists r, rest = String "&" r) ->
  take_word (w ++ rest) = w.
Proof.
  intros Hw Hr. induction w as [|c w IH]; cbn in *.
  - destruct Hr as [->|(r & ->)]; reflexivity.
  - apply andb_true_iff in Hw as [-> Hw]. rewrite IH by exact Hw. reflexivity.
Qed.

(** A relay as the server emits it: well-formed parameters whose auth, if there
    is one, is a hash. *)
Definition wf_relay (rs : list param) : bool :=
  forallb wf_param rs &&
  match get_param "auth" rs with Some h => is_token h | None => true end.

Lemma hash_relay rs :
  wf_relay rs = true ->
  hash (render_params rs) = match get_param "auth" rs with Some h => h | None => "" end.
Proof.
  intros H. unfold wf_relay in H. bool_to_prop.
  assert (Hok : accepts "auth" word_follows rs).
  { intros v rest G Hr. rewrite G in H0. unfold is_token in H0. bool_to_prop.
    unfold word_follows. rewrite take_word_app by assumption.
    apply negb_true_iff, String.eqb_neq. assumption. }
  pose proof (find_params "auth" word_follows rs eq_refl H Hok) as F. unfold found in F.
  unfold hash, authHashFromRelay. destruct (get_param "auth" rs) as [h|].
  - destruct F as (b & g & rest & -> & Hr). unfold is_token in H0. bool_to_prop.
    apply take_word_app; assumption.
  - rewrite F. reflexivity.
Qed.

Lemma same_key_refl a : same_key a a = true.
Proof. apply String.eqb_refl. Qed.

Lemma get_set_same name v ps : get_param name (set_param name v ps) = Some v.
Proof.
  induction ps as [|p ps IH]; cbn; [rewrite same_key_refl; reflexivity|].
  destruct (same_key name p.1) eqn:E; cbn; rewrite ?same_key_refl, ?E; [reflexivity|exact IH].
Qed.

Lemma get_set_other name name' v ps :
  same_key name name' = false -> get_param name (set_param name' v ps) = get_param name ps.
Proof.
  intros Hd. induction ps as [|p ps IH]; cbn; [rewrite Hd; reflexivity|].
  destruct (same_key name' p.1) eqn:E; cbn; [|rewrite IH; reflexivity].
  rewrite Hd. assert (same_key name p.1 = false) as ->; [|reflexivity].
  unfold same_key in *. bool_to_prop. apply String.eqb_neq. congruence.
Qed.

Lemma get_app_absent name ps qs :
  get_param name ps = None -> get_param name (ps ++ qs)%list = get_param name qs.
Proof. induction ps as [|p ps IH]; cbn; [reflexivity|]. destruct (same_key _ _); [discriminate|exact IH]. Qed.

Lemma token_plain bad h :
  all_chars (fun c => negb (is_word c)) bad = true -> is_token h = true -> no_char bad h = true.
Proof.
  intros Hb Hh. unfold is_token in Hh. apply andb_true_iff in Hh as [Hh _]. revert Hh.
  apply all_chars_impl. intros c Hc. apply negb_true_iff.
  induction bad as [|d bad IH]; [reflexivity|]. cbn in Hb. apply andb_true_iff in Hb as [Hd Hb].
  unfold includes_char. fold includes_char. rewrite IH by exact Hb.
  destruct (Ascii.eqb_spec c d) as [<-|_]; [|reflexivity]. rewrite Hc in Hd. discriminate.
Qed.

Lemma set_param_wf name v ps :
  wf_param (name, v) = true -> forallb wf_param ps = true -> forallb wf_param (set_param name v ps) = true.
Proof.
  intros Hv. induction ps as [|p ps IH]; cbn; intros H; [rewrite Hv; reflexivity|].
  apply andb_true_iff in H as [Hp H]. destruct (same_key _ _); cbn; [rewrite Hv; exact H|].
  rewrite Hp. apply IH, H.
Qed.

Lemma appendTo_refines base ps rs :
  wf_base base = true -> rs <> [] -> render_params rs <> "" ->
  appendTo (render_params rs) (render base ps) = render base (ps ++ rs)%list.
Proof.
  intros Hb Hrs Hne. unfold appendTo. destruct ps as [|p ps].
  - cbn [app]. rewrite (render_some base rs) by exact Hrs. apply appendQuery_base; assumption.
  - rewrite !render_some by (destruct rs; discriminate).
    rewrite appendQuery_more by exact Hne. rewrite (render_params_snoc (p :: ps)) by congruence.
    rewrite !append_assoc. reflexivity.
Qed.

Lemma render_params_nonempty p ps : render_params (p :: ps) <> "".
Proof. rewrite render_params_cons. unfold render_param. destruct p as [[|? ?] v]; discriminate. Qed.

Lemma find_in_url name ok base ps :
  wf_base base = true -> no_char "?&=" name = true -> forallb wf_param ps = true ->
  accepts name ok ps ->
  match get_param name ps with
  | Some _ => exists r, find_param name ok (render base ps) = Some r
  | None => find_param name ok (render base ps) = None
  end.
Proof.
  intros Hb Hn Hps Hok. pose proof Hb as Hb'. unfold wf_base in Hb'. bool_to_prop.
  destruct ps as [|p ps].
  - cbn. unfold find_param. rewrite ci_prefix_no_eq by (apply wf_base_eq, Hb).
    rewrite <- (append_nil_r base), find_next_app by (apply weaken_base; assumption). reflexivity.
  - rewrite render_some by congruence. unfold find_param. cbn [String.append].
    rewrite ci_prefix_base by assumption. rewrite find_next_app by (apply weaken_base; assumption).
    pose proof (find_next_params name ok "?" (p :: ps) eq_refl Hn Hps ltac:(congruence) Hok) as F.
    unfold found in F. destruct (get_param name (p :: ps)).
    + destruct F as (b & g & rest & -> & _). eexists. reflexivity.
    + rewrite F. reflexivity.
Qed.

(** C38: pointing a stream's src at the credential: applyTo puts the current hash
    into the src's auth parameter, or brings the whole relay along when it has
    none, gives it the connkey, and touches no other parameter. *)
Theorem applyTo_refines (base : string) (ps rs : list param) (connKey : option string) :
  wf_base base = true -> forallb wf_param ps = true -> wf_relay rs = true ->
  match connKey with Some k => no_char "?&$" k = true | None => True end ->
  applyTo (render_params rs) (render base ps) connKey = render base (apply_params rs ps connKey) /\
  (forall h, get_param "auth" rs = Some h ->
   get_param "auth" (apply_params rs ps connKey) = Some h).
Proof.
  intros Hb Hps Hrs Hk. split; cycle 1.
  { intros h Hh. unfold apply_params. rewrite Hh.
    set (ps1 := match rs with [] => ps | _ => _ end).
    assert (H1 : get_param "auth" ps1 = Some h).
    { unfold ps1. destruct rs as [|r rs]; [discriminate|].
      destruct (get_param "auth" ps) eqn:G; [apply get_set_same|].
      rewrite get_app_absent by exact G. exact Hh. }
    destruct connKey as [k|]; [|exact H1]. destruct (String.eqb k ""); [exact H1|].
    rewrite get_set_other by reflexivity. exact H1. }
  assert (Hsrc : String.eqb (render base ps) "" = false).
  { apply String.eqb_neq. unfold wf_base in Hb. bool_to_prop.
    destruct base as [|c base]; [congruence|]. destruct ps; discriminate. }
  unfold applyTo, apply_params. rewrite Hsrc, hash_relay by exact Hrs.
  unfold wf_relay in Hrs. apply andb_true_iff in Hrs as [Hrs Ha].
  set (ps1 := match rs with [] => ps | _ => _ end).
  match goal with |- rebuildStreamSrc ?x "" _ = _ => assert (H1 : x = render base ps1 /\ forallb wf_param ps1 = true) end.
  { unfold ps1. destruct rs as [|r rs]; [split; [reflexivity|exact Hps]|].
    pose proof (render_params_nonempty r rs) as Hne. pose proof Hne as Hne'.
    apply String.eqb_neq in Hne' as ->. cbn [negb].
    pose proof (find_in_url "auth" anything base ps Hb eq_refl Hps ltac:(intros ????; reflexivity)) as F.
    destruct (get_param "auth" ps) eqn:G.
    - destruct F as (? & ->). destruct (get_param "auth" (r :: rs)) as [h|] eqn:Gr; [|split; [reflexivity|exact Hps]].
      pose proof Ha as Ha'. unfold is_token in Ha'. apply andb_true_iff in Ha' as [_ ->]. split.
      + apply setUrlParam_refines; try assumption; [reflexivity|].
        apply (token_plain "?&$" h); [reflexivity|exact Ha].
      + apply set_param_wf; [|exact Hps]. unfold wf_param. cbn [fst snd].
        rewrite (token_plain "?&" h); [reflexivity|reflexivity|exact Ha].
    - rewrite F. split; [apply appendTo_refines; [exact Hb|congruence|exact Hne]|].
      rewrite forallb_app, Hps, Hrs. reflexivity. }
  destruct H1 as [-> Hps1]. unfold rebuildStreamSrc. cbn [String.eqb].
  destruct connKey as [k|]; [|reflexivity]. destruct (String.eqb k ""); [reflexivity|].
  apply setUrlParam_refines; try assumption. reflexivity.
Qed.

Lemma applyTo_refines_witness :
  applyTo "auth=abc&user=admin" "zms?mode=jpeg&auth=old&connkey=000001" (Some "000002")
  = "zms?mode=jpeg&auth=abc&connkey=000002" /\
  (forall h, get_param "auth" [("auth", "abc"); ("user", "admin")] = Some h ->
   get_param "auth" (apply_params [("auth", "abc"); ("user", "admin")]
     [("mode", "jpeg"); ("auth", "old"); ("connkey", "000001")] (Some "000002")) = Some h).
Proof.
  apply (applyTo_refines "zms" [("mode", "jpeg"); ("auth", "old"); ("connkey", "000001")]
    [("auth", "abc"); ("user", "admin")] (Some "000002")); vm_compute; reflexivity.
Defined.

(** ** Re-validation *)

Section Queue.
Context {callback : Type}.
Variables thisUrl currentView : string.

(** What the traces of the queue add up to. *)
Definition asked (e : event callback) : list callback :=
  match e with
  | ERevalidate (Some cb) => [cb]
  | EFresh _ cb => [cb]
  | EVisible true cb => [cb]
  | _ => []
  end.

Definition ran (fx : effect callback) : list callback :=
  match fx with Run cb => [cb] | _ => [] end.

Definition is_probe (fx : effect callback) : bool := match fx with GetJSON _ => true | _ => false end.
Definition is_answer (e : event callback) : bool := match e with EDone _ | EFail _ => true | _ => false end.
Definition is_login (fx : effect callback) : bool := match fx with Assign _ => true | _ => false end.

Lemma tally_runs p cbs : (forall cb, p (Run cb) = false) -> tally p (map (@Run callback) cbs) = 0%nat.
Proof.
  intros Hp. induction cbs as [|cb cbs IH]; cbn; [reflexivity|]. rewrite Hp. exact IH.
Qed.

Lemma ran_runs cbs : flat_map ran (map (@Run callback) cbs) = cbs.
Proof. induction cbs as [|cb cbs IH]; cbn; [reflexivity|]. rewrite IH. reflexivity. Qed.

Record queue_ok (s : state callback) (es : list (event callback)) (fx : list (effect callback)) : Prop := {
  qo_probe : tally is_probe fx =
             (tally is_answer es + if authRevalidating s then 1 else 0)%nat;
  qo_login : tally is_login fx = if authGoingToLogin s then 1%nat else 0%nat;
  qo_pending : authPendingCallbacks s <> [] -> authRevalidating s = true;
  qo_runs : exists dropped,
      flat_map asked es ≡ₚ (flat_map ran fx ++ dropped ++ authPendingCallbacks s)%list /\
      (dropped <> [] -> authGoingToLogin s = true);
}.

Lemma queue_ok_init : queue_ok init [] [].
Proof. split; try reflexivity; [intros []; reflexivity|]. exists []. split; [reflexivity|congruence]. Qed.

(** The same for one handler. *)
Record step_ok (s s' : state callback) (e : event callback) (fx : list (effect callback)) : Prop := {
  so_probe : (tally is_probe fx + if authRevalidating s then 1 else 0)%nat =
             (tally is_answer [e] + if authRevalidating s' then 1 else 0)%nat;
  so_login : (tally is_login fx + if authGoingToLogin s then 1 else 0)%nat =
             if authGoingToLogin s' then 1%nat else 0%nat;
  so_going : authGoingToLogin s = true -> authGoingToLogin s' = true;
  so_pending : (authPendingCallbacks s <> [] -> authRevalidating s = true) ->
               authPendingCallbacks s' <> [] -> authRevalidating s' = true;
  so_runs : exists dropped,
      (authPendingCallbacks s ++ asked e)%list ≡ₚ
        (flat_map ran fx ++ dropped ++ authPendingCallbacks s')%list /\
      (dropped <> [] -> authGoingToLogin s' = true);
}.

Lemma revalidate_step cb s s' fx e :
  asked e = match cb with Some cb => [cb] | None => [] end -> is_answer e = false ->
  revalidateAuth thisUrl cb s = (s', fx) -> step_ok s s' e fx.
Proof.
  intros He Ha. destruct s as [going reval pend]. unfold revalidateAuth, upd.
  destruct cb as [cb|], reval; cbn; intros [= <- <-]; split; cbn; rewrite ?Ha, ?He; try done;
    try (exists []; split; [rewrite ?app_nil_r; reflexivity|done]).
Qed.

Lemma always_step s s' fx e :
  asked e = [] -> is_answer e = true -> authRevalidating s = true ->
  probe_always s = (s', fx) -> step_ok s s' e fx.
Proof.
  intros He Ha. destruct s as [going reval pend]. unfold probe_always, upd. cbn. intros ->.
  destruct going; cbn; intros [= <- <-]; split; cbn; rewrite ?Ha, ?He, ?tally_runs; try done.
  - exists pend. split; [rewrite ?app_nil_r; reflexivity|done].
  - exists []. rewrite ran_runs. split; [rewrite ?app_nil_r; reflexivity|done].
Qed.

Lemma silent_step s e fx :
  asked e = flat_map ran fx -> is_answer e = false -> tally is_probe fx = 0%nat ->
  tally is_login fx = 0%nat -> step_ok s s e fx.
Proof.
  intros He Ha Hp Hl. split; cbn [tally]; rewrite ?Ha, ?Hp, ?Hl; try tauto; try lia.
  exists []. split; [|congruence]. rewrite He. apply Permutation_app_comm.
Qed.

Lemma handle_step s e s' fx :
  enabled e s = true -> handle thisUrl currentView e s = (s', fx) -> step_ok s s' e fx.
Proof.
  intros Hen. destruct e as [|cb|relay cb|v cb|data|status]; cbn [handle].
  - unfold goToLogin. destruct s as [[] reval pend]; cbn; intros [= <- <-]; [apply silent_step; reflexivity|].
    split; cbn; try done. exists []. split; [rewrite ?app_nil_r; reflexivity|done].
  - apply revalidate_step; destruct cb; reflexivity.
  - unfold whenAuthFresh. destruct relay as [r|].
    + destruct (String.eqb (hash r) ""); [|apply revalidate_step; reflexivity].
      intros [= <- <-]. apply silent_step; reflexivity.
    + intros [= <- <-]. apply silent_step; reflexivity.
  - unfold onAuthVisible. destruct v; [apply revalidate_step; reflexivity|].
    intros [= <- <-]. apply silent_step; reflexivity.
  - unfold probe_done. destruct (probe_always s) as [s1 fx1] eqn:E. intros [= <- <-].
    destruct (always_step s s1 fx1 (EDone data) eq_refl eq_refl Hen E) as [? ? ? ? ?].
    split; assumption.
  - unfold probe_fail. case_bool_decide as Hl.
    + unfold goToLogin. destruct (authGoingToLogin s) eqn:G.
      * destruct (probe_always s) as [s1 fx1] eqn:E. intros [= <- <-].
        apply (always_step s s1 fx1 (EFail status)); try reflexivity; assumption.
      * destruct (probe_always _) as [s1 fx1] eqn:E. intros [= <- <-].
        destruct s as [going reval pend]. cbn in *. subst.
        unfold probe_always, upd in E. cbn in E. injection E as <- <-.
        split; cbn; try done. exists pend. split; [rewrite ?app_nil_r; reflexivity|done].
    + destruct (probe_always s) as [s1 fx1] eqn:E. intros [= <- <-].
      apply (always_step s s1 fx1 (EFail status)); try reflexivity; assumption.
Qed.

(** C10: however the page's resumes, probes and answers interleave, at most one
    probe is in flight, the login page is navigated to at most once, and every
    callback handed in is run exactly once, still waits for the probe in
    flight, or was dropped because the page is going to the login. *)
Theorem revalidation_invariant s es fx :
  run thisUrl currentView s es fx -> queue_ok s es fx.
Proof.
  induction 1 as [|s es fx e s' fx' _ [Hp Hl Hpend (dropped & Hr & Hd)] Hen Hs].
  { apply queue_ok_init. }
  destruct (handle_step s e s' fx' Hen Hs) as [Sp Sl Sg Spend (drop' & Sr & Sd)].
  split; rewrite ?tally_app, ?flat_map_app.
  - rewrite Hp. lia.
  - rewrite Hl. lia.
  - apply Spend, Hpend.
  - exists (dropped ++ drop')%list. split.
    + cbn [flat_map]. rewrite app_nil_r, Hr, <- !app_assoc, Sr. solve_Permutation.
    + intros Hne. destruct dropped as [|cb dropped]; [apply Sd, Hne|]. apply Sg, Hd. discriminate.
Qed.
End Queue.

Lemma revalidation_invariant_witness :
  let s := State false false [] in
  let es := [EFresh (Some "auth=abc") 1%nat; EFresh (Some "auth=abc") 2%nat; EDone None] in
  queue_ok s es [GetJSON (authProbeUrl "index.php"); SetNavBar None; Run 1%nat; Run 2%nat].
Proof.
  apply (revalidation_invariant "index.php" "watch").
  eapply (run_step _ _ (State false true [1; 2]%nat) [_; _] [_] (EDone None) _ [_; _; _]); [|reflexivity..].
  eapply (run_step _ _ (State false true [1]%nat) [_] [_] (EFresh _ 2%nat) _ []); [|reflexivity..].
  eapply (run_step _ _ init [] [] (EFresh _ 1%nat) _ [_]); [|reflexivity..]. constructor.
Defined.

Lemma setUrlParam_relay rs name v :
  forallb wf_param rs = true -> no_char "?&=$" name = true -> no_char "?&$" v = true ->
  get_param name rs <> None ->
  setUrlParam (render_params rs) name v = render_params (set_param name v rs).
Proof.
  intros Hrs Hn Hv Hg. destruct rs as [|p rs]; [cbn in Hg; congruence|].
  assert (Hn' : no_char "?&=" name = true /\ no_char "$" name = true /\ no_char "$" v = true).
  { repeat split; [revert Hn|revert Hn|revert Hv]; apply no_char_weaken; intros c;
      unfold includes_char; cbn; rewrite !orb_true_iff; naive_solver. }
  destruct Hn' as (Hne & Hnd & Hvd).
  pose proof (subst_params name v "&" (p :: rs) eq_refl Hne Hrs ltac:(congruence)) as S.
  destruct (get_param name (p :: rs)); [|congruence]. clear Hg.
  remember (render_params (set_param name v (p :: rs))) as R eqn:ER. clear ER.
  cbn [forallb] in Hrs. apply andb_true_iff in Hrs as [Hp Hrs].
  unfold subst_next in S. cbn [find_param_next] in S. change (is_sep "&") with true in S.
  cbv iota in S. rewrite ci_prefix_head in S by assumption.
  unfold setUrlParam, find_param. rewrite ci_prefix_head by assumption.
  destruct (same_key name p.1).
  - unfold anything at 1 in S. unfold anything at 1. rewrite expand_param by assumption. cbn [String.append str1] in S |- *.
    injection S as S. rewrite <- S, !append_assoc. reflexivity.
  - destruct (find_param_next name anything (render_params (p :: rs))) as [[[b g] a]|]; [|discriminate].
    cbn in S. injection S as S. rewrite expand_param by assumption. rewrite <- S, !append_assoc.
    reflexivity.
Qed.

(** Absorbing a reply that carries a hash: the relay keeps its other
    parameters, its hash becomes the one received, and the credential counts as
    changed exactly when that is a different one. *)
Theorem update_hash (rs : list param) (old d : string) :
  wf_relay rs = true -> get_param "auth" rs = Some old -> is_token d = true ->
  let '(relay, changed) := update (render_params rs) (Some (AuthData "" d)) in
  hash relay = d /\ changed = negb (String.eqb d old) /\
  relay = render_params (if changed then set_param "auth" d rs else rs).
Proof.
  intros Hrs Hold Hd. unfold update. cbn [auth_relay auth].
  rewrite hash_relay, Hold by exact Hrs. cbn [String.eqb negb].
  pose proof Hd as Hd'. unfold is_token in Hd'. apply andb_true_iff in Hd' as [_ ->]. cbn [andb].
  pose proof Hrs as Hwf. unfold wf_relay in Hwf. apply andb_true_iff in Hwf as [Hwf _].
  destruct (String.eqb_spec d old) as [->|Hne]; cbn [negb].
  - repeat split. rewrite hash_relay, Hold by exact Hrs. reflexivity.
  - rewrite setUrlParam_relay; try assumption; try reflexivity; cycle 1.
    { apply token_plain; [reflexivity|exact Hd]. }
    { congruence. }
    repeat split. rewrite hash_relay; [rewrite get_set_same; reflexivity|].
    unfold wf_relay. rewrite get_set_same, Hd, set_param_wf; [reflexivity| |exact Hwf].
    unfold wf_param. cbn [fst snd]. rewrite (token_plain "?&" d); [reflexivity|reflexivity|exact Hd].
Qed.

Lemma update_hash_witness :
  let '(relay, changed) := update "auth=abc&user=plaza" (Some (AuthData "" "def")) in
  hash relay = "def" /\ changed = negb (String.eqb "def" "abc") /\
  relay = render_params (if changed then set_param "auth" "def" [("auth", "abc"); ("user", "plaza")]
                         else [("auth", "abc"); ("user", "plaza")]).
Proof. apply (update_hash [("auth", "abc"); ("user", "plaza")] "abc" "def"); reflexivity. Defined.

(** setUrlParam is said to work on bare query fragments as well; a parameter it
    has to add to one is joined with a question mark. *)
Example setUrlParam_fragment : setUrlParam "user=plaza" "auth" "NEW" = "user=plaza?auth=NEW".
Proof. vm_compute. reflexivity. Qed.

(** Cases of tests/js/auth-helpers.test.js. *)
Example setUrlParam_test_cases :
  [setUrlParam "nph-zms?monitor=26&auth=OLD&mode=jpeg" "auth" "NEW";
   setUrlParam "nph-zms?monitor=26" "auth" "NEW"; setUrlParam "nph-zms?xauth=OLD" "auth" "NEW";
   setUrlParam "nph-zms?auth=&mode=jpeg" "auth" "NEW"]
  = ["nph-zms?monitor=26&auth=NEW&mode=jpeg"; "nph-zms?monitor=26&auth=NEW";
     "nph-zms?xauth=OLD&auth=NEW"; "nph-zms?auth=NEW&mode=jpeg"].
Proof. vm_compute. reflexivity. Qed.

Example authFailureAction_cases :
  map authFailureAction [401; 403; 0; 408; 500; 503; 404; 200]
  = [ALogin; ALogin; ARetry; ARetry; ARetry; ARetry; AIgnore; AIgnore].
Proof. reflexivity. Qed.

End Auth.
