(* ===== verification/EventStream.v ===== *)
(** web/js/EventStream.js: one zms connection playing recorded events onto a
    canvas.

    The object, its timers, its animation frame, its requests and the page's
    credential form one [state]; every method is a function on it that appends
    what it does to the outside world to [out].  The browser calls back through
    [event]: a timer or animation frame fires, the hidden img fails, a request
    is answered.  [document], the [canvas] and jQuery's transport are seen only
    through these effects and events. *)
From S2P Require Import JsString AuthHelpers.

Module EventStream.

(** A zms command with its arguments, as merged into the request. *)
Inductive command :=
| CMD_QUIT | CMD_QUERY | CMD_PAUSE | CMD_PLAY
| CMD_SEEK (offset : num) | CMD_VARPLAY (rate : jsval) | CMD_SCALE (scale : jsval).

(** start()'s options; an absent one is [VUndef]. *)
Record options := Options {
  o_time : jsval; o_frame : jsval; o_rate : jsval; o_replay : jsval; o_maxfps : jsval;
}.
#[export] Instance eta_options : Eta options := fun o =>
  Options (o_time o) (o_frame o) (o_rate o) (o_replay o) (o_maxfps o).

Definition no_options : options := Options VUndef VUndef VUndef VUndef VUndef.

(** The part of a reply's status the stream reads. *)
Record status_t := Status {
  st_auth : Auth.auth_data; st_paused : jsval; st_stopped : jsval; st_event : jsval;
}.

(** A reply of ajax/stream.php; an absent reason is empty. *)
Record reply := Reply { result : string; reason : string; message : string; rstatus : option status_t }.

(** The hidden img: its src, and whether a failure still calls back. *)
Record img_t := Img { img_src : string; img_onerror : bool }.

(** What a pending timer or animation frame will do. *)
Inductive timer :=
| TQuery                                      (* streamCmdQuery, every statusInterval *)
| TRecover (eventId : jsval) (opts : options) (* recover()'s restart *)
| TLoop.                                      (* the draw loop *)

Inductive effect :=
| Request (url : string) (connkey : option string) (c : command)
| OpenSrc (src : string)
| Scheduled (delay : Z)
| OnStatus (st : status_t)
| OnError (msg : string).

Record config := Config {
  monitorId : string; url : string; url_to_zms : string;
  events : jsval -> option num;   (* StartTimeSecs of the page's events *)
}.

Record state := State {
  connKey : option string;
  parms_connkey : option string;              (* streamCmdParms.connkey *)
  img : option img_t;
  started : bool;
  paused : bool;
  stopped : bool;
  currentEventId : jsval;
  rate : jsval;
  scale : jsval;
  status : option status_t;
  streamCmdTimer : option nat;
  rafId : option nat;
  bitmapPending : bool;
  consecutiveErrors : Z;
  recoveryDelay : Z;
  recoveryTimer : option nat;
  lastOptions : option options;
  relay : string;                             (* zmAuth *)
  timers : gmap nat timer;                    (* the browser's pending callbacks *)
  next : nat;                                 (* its next handle *)
  out : list effect;
}.
#[export] Instance eta_state : Eta state := fun s =>
  State (connKey s) (parms_connkey s) (img s) (started s) (paused s) (stopped s)
    (currentEventId s) (rate s) (scale s) (status s) (streamCmdTimer s) (rafId s)
    (bitmapPending s) (consecutiveErrors s) (recoveryDelay s) (recoveryTimer s)
    (lastOptions s) (relay s) (timers s) (next s) (out s).

Definition maxRecoveryAttempts : Z := 5.

Definition create (scale : jsval) (relay : string) : state :=
  State None None None false false false VNull (VNum (num_of_Z 100))
    (if js_truthy scale then VNum (parseInt (js_to_string scale)) else VNum (num_of_Z 100))
    None None None false 0 1000 None None relay ∅ 1 [].

Definition emit (e : effect) (s : state) : state := s <| out := (out s ++ [e])%list |>.

(** ** The browser's timers *)

Definition add_timer (t : timer) (s : state) : state * nat :=
  (s <| timers := <[next s := t]> (timers s) |> <| next := S (next s) |>, next s).

Definition drop (h : option nat) (t : gmap nat timer) : gmap nat timer :=
  match h with Some h => delete h t | None => t end.
Definition drop_timer (h : option nat) (s : state) : state :=
  s <| timers := drop h (timers s) |>.

(** [this.streamCmdTimer = clearInterval(this.streamCmdTimer)] *)
Definition clear_query (s : state) : state :=
  drop_timer (streamCmdTimer s) s <| streamCmdTimer := None |>.

(** [if (this.rafId) { cancelAnimationFrame(this.rafId); this.rafId = null; }] *)
Definition cancel_raf (s : state) : state := drop_timer (rafId s) s <| rafId := None |>.

(** [if (this.recoveryTimer) { clearTimeout(..); this.recoveryTimer = null; }] *)
Definition clear_recovery (s : state) : state :=
  drop_timer (recoveryTimer s) s <| recoveryTimer := None |>.

(** ** Methods *)

Section Stream.
Variable cfg : config.

Definition pad6 (z : Z) : string :=
  let d := Z_to_string z in zeros (6 - String.length d) ++ d.

(** [random] is what Math.random() returned. *)
Definition genConnKey (random : num) : string :=
  match nfloor (random * num_of_Z 999999 + num_of_Z 1)%num with
  | Fin q => pad6 (Qfloor q)
  | n => num_to_string n
  end.

Definition streamCmdReq (params_connkey : option string) (c : command) (s : state) : state :=
  emit (Request (Auth.appendTo (relay s) (url cfg)) params_connkey c) s.

Definition streamCommand (c : command) (s : state) : state :=
  if negb (started s) then s else streamCmdReq (parms_connkey s) c s.

Definition streamCmdQuery (s : state) : state :=
  if started s then streamCmdReq (parms_connkey s) CMD_QUERY s else s.

Definition teardown (quit : bool) (s : state) : state :=
  let s := if quit && started s then streamCommand CMD_QUIT s else s in
  let s := cancel_raf (clear_query s) in
  s <| img := None |> <| bitmapPending := false |> <| started := false |>
    <| connKey := None |> <| parms_connkey := None |>.

Definition startDrawLoop (s : state) : state :=
  let '(s, h) := add_timer TLoop s in s <| rafId := Some h |>.

(** [v || d] *)
Definition jor (v d : jsval) : jsval := if js_truthy v then v else d.

Definition zms_src (eventId : jsval) (options : options) (s : state) (key : string)
  : string :=
  let src := url_to_zms cfg ++ (if negb (has "?" (url_to_zms cfg)) then "?" else "&") ++
    "source=event" ++ "&mode=jpeg" ++ "&event=" ++ js_to_string eventId ++
    "&monitor=" ++ monitorId cfg ++ "&scale=" ++ js_to_string (scale s) ++
    "&rate=" ++ js_to_string (rate s) ++
    "&maxfps=" ++ js_to_string (jor (o_maxfps options) (VNum (num_of_Z 5))) ++
    "&replay=" ++ js_to_string (jor (o_replay options) (VStr "none")) ++
    "&connkey=" ++ key in
  let src := if js_truthy (o_frame options) then src ++ "&frame=" ++ js_to_string (o_frame options)
             else src in
  let src := if js_truthy (o_time options) then src ++ "&time=" ++ js_to_string (o_time options)
             else src in
  Auth.appendTo (relay s) src.

(** What start does once no connection is left. *)
Definition start_connection (random : num) (eventId : jsval) (options : options) (s : state)
  : state :=
  let s := s <| currentEventId := eventId |>
             <| rate := match o_rate options with VUndef => VNum (num_of_Z 100) | r => r end |>
             <| paused := false |> <| stopped := false |> <| lastOptions := Some options |> in
  let key := genConnKey random in
  let s := s <| connKey := Some key |> <| parms_connkey := Some key |> in
  let src := zms_src eventId options s key in
  let s := startDrawLoop s in
  let s := emit (OpenSrc src) (s <| img := Some (Img src true) |>) in
  let s := s <| started := true |> in
  let '(s, h) := add_timer TQuery s in
  s <| streamCmdTimer := Some h |>.

Definition start (random : num) (eventId : jsval) (options : options) (s : state) : state :=
  let s := clear_recovery s in
  let s := if started s || bool_decide (is_Some (img s)) then teardown (started s) s else s in
  start_connection random eventId options s.

Definition stop (s : state) : state :=
  let s := clear_recovery s in
  if negb (started s) then s
  else teardown true s <| paused := false |> <| stopped := false |>
         <| consecutiveErrors := 0 |> <| recoveryDelay := 1000 |>.

Definition recover (s : state) : state :=
  match recoveryTimer s with
  | Some _ => s
  | None =>
      let s := s <| consecutiveErrors := consecutiveErrors s + 1 |> in
      let eventId := currentEventId s in
      let opts := match lastOptions s with Some o => o | None => no_options end
                  <| o_rate := rate s |> in
      let s := teardown false s <| stopped := false |> in
      if consecutiveErrors s >? maxRecoveryAttempts then emit (OnError "Stream recovery failed") s
      else
        let '(s, h) := add_timer (TRecover eventId opts) s in
        let s := emit (Scheduled (recoveryDelay s)) (s <| recoveryTimer := Some h |>) in
        s <| recoveryDelay := Z.min (recoveryDelay s * 2) 10000 |>
  end.

(** The timeout set by recover. *)
Definition recovery_fires (random : num) (eventId : jsval) (opts : options)
    (s : state) : state :=
  let s := s <| recoveryTimer := None |> in
  if started s then s else start random eventId opts s.

(** img.onerror, as start sets it. *)
Definition img_onerror_handler (s : state) : state := recover (cancel_raf (clear_query s)).

Definition seek (offset : num) (s : state) : state :=
  if negb (started s) then s else streamCommand (CMD_SEEK offset) s.

Definition seekToTime (epochSecs : num) (s : state) : state :=
  if negb (started s) || bool_decide (status s = None) then s
  else match events cfg (currentEventId s) with
       | Some eventStartSecs =>
           if ntruthy eventStartSecs then
             let offset := (epochSecs - eventStartSecs)%num in
             seek (if (offset <? num_of_Z 0)%num then num_of_Z 0 else offset) s
           else s
       | None => s
       end.

Definition setRate (r : jsval) (s : state) : state :=
  let s := s <| rate := r |> in
  if negb (started s) then s else streamCommand (CMD_VARPLAY r) s.

Definition pause (s : state) : state :=
  if negb (started s) then s else streamCommand CMD_PAUSE (s <| paused := true |>).

Definition play (s : state) : state :=
  if negb (started s) then s else streamCommand CMD_PLAY (s <| paused := false |>).

Definition setScale (sc : jsval) (s : state) : state :=
  let s := s <| scale := sc |> in
  if negb (started s) then s else streamCommand (CMD_SCALE sc) s.

Definition switchEvent (random : num) (eventId : jsval) (options : options)
    (s : state) : state :=
  let s := clear_recovery s in
  let s := s <| consecutiveErrors := 0 |> <| recoveryDelay := 1000 |> in
  start random eventId options s.

Definition errorIsFatal (reason : string) : bool :=
  if String.eqb reason "" then true else String.eqb reason "no_socket".

(** [key] is the connkey the exchange was about: [None] when the caller passes
    none, [Some None] for a request whose connkey was null. *)
Definition getStreamCmdResponse (respObj : option reply) (key : option (option string)) (s : state)
  : state :=
  match respObj with
  | None => s
  | Some r =>
      if match key with Some k => negb (bool_decide (k = connKey s)) | None => false end then s
      else if String.eqb (result r) "Error" || String.eqb (result r) "Err" then
        if negb (errorIsFatal (reason r)) then s else recover s
      else
        let s := s <| consecutiveErrors := 0 |> <| recoveryDelay := 1000 |> in
        match rstatus r with
        | None => s
        | Some st =>
            let s := s <| status := Some st |> in
            let s := s <| relay := (Auth.update (relay s) (Some (st_auth st))).1 |> in
            let s := match st_paused st with VUndef => s | v => s <| paused := js_truthy v |> end in
            let s := match st_stopped st with VUndef => s | v => s <| stopped := js_truthy v |> end in
            emit (OnStatus st) s
        end
  end.

(** The two ends of a request. *)
Definition request_done (respObj : option reply) (key : option string) (s : state) : state :=
  getStreamCmdResponse respObj (Some key) s.

Definition request_fail (textStatus : string) (key : option string) (s : state) : state :=
  if String.eqb textStatus "abort" then s
  else if negb (bool_decide (key = connKey s)) then s
  else recover s.

(** [drawFrame]: [naturalWidth] says the img has decoded a frame. *)
Definition drawFrame (canvas naturalWidth : bool) (s : state) : state :=
  if negb canvas || negb (bool_decide (is_Some (img s))) then s
  else if negb naturalWidth then s
  else if bitmapPending s then s
  else s <| bitmapPending := true |>.

Definition bitmap_settles (s : state) : state := s <| bitmapPending := false |>.

(** One turn of the draw loop. *)
Definition loop (canvas naturalWidth : bool) (s : state) : state :=
  if negb (started s) then s
  else let '(s, h) := add_timer TLoop (drawFrame canvas naturalWidth s) in s <| rafId := Some h |>.

(** ** What can happen *)

Inductive event :=
| Start (random : num) (eventId : jsval) (opts : options)
| SwitchEvent (random : num) (eventId : jsval) (opts : options)
| Stop
| Seek (offset : num)
| SeekToTime (epochSecs : num)
| SetRate (r : jsval)
| Pause
| Play
| SetScale (sc : jsval)
| Fire (h : nat) (random : num) (canvas naturalWidth : bool)
| ImgError
| Done (respObj : option reply) (key : string)
| Fail (textStatus key : string)
| Bitmap.

(** The browser runs the callback of handle [h]; only an interval stays set. *)
Definition fire (h : nat) (random : num) (canvas naturalWidth : bool) (s : state) : state :=
  match timers s !! h with
  | Some TQuery => streamCmdQuery s
  | Some (TRecover eventId opts) => recovery_fires random eventId opts (drop_timer (Some h) s)
  | Some TLoop => loop canvas naturalWidth (drop_timer (Some h) s)
  | None => s
  end.

Definition step (s : state) (e : event) : state :=
  match e with
  | Start r i o => start r i o s
  | SwitchEvent r i o => switchEvent r i o s
  | Stop => stop s
  | Seek n => seek n s
  | SeekToTime n => seekToTime n s
  | SetRate r => setRate r s
  | Pause => pause s
  | Play => play s
  | SetScale sc => setScale sc s
  | Fire h r c n => fire h r c n s
  | ImgError => match img s with
                | Some i => if img_onerror i then img_onerror_handler s else s
                | None => s
                end
  | Done r k => request_done r (Some k) s
  | Fail t k => request_fail t (Some k) s
  | Bitmap => bitmap_settles s
  end.

Definition run (s : state) (es : list event) : state := fold_left step es s.

(** ** Timers *)

Record wf_timers (t : gmap nat timer) (q r o : option nat) (n : nat) : Prop := {
  wt_query : forall h, q = Some h <-> t !! h = Some TQuery;
  wt_raf : forall h, r = Some h <-> t !! h = Some TLoop;
  wt_recovery : forall h, o = Some h <-> exists e op, t !! h = Some (TRecover e op);
  wt_next : forall h, is_Some (t !! h) -> (h < n)%nat;
}.

Lemma drop_lookup h t h' x : drop h t !! h' = Some x <-> h <> Some h' /\ t !! h' = Some x.
Proof. destruct h as [h|]; cbn; [rewrite lookup_delete_Some|]; naive_solver. Qed.

Lemma wf_drop_query t q r o n : wf_timers t q r o n -> wf_timers (drop q t) None r o n.
Proof.
  intros [Hq Hr Ho Hn]. split; intros h; try setoid_rewrite drop_lookup.
  - naive_solver.
  - rewrite Hr. naive_solver.
  - rewrite Ho. naive_solver.
  - intros [x Hx]. apply drop_lookup in Hx as [_ Hx]. apply Hn. eauto.
Qed.

Lemma wf_drop_raf t q r o n : wf_timers t q r o n -> wf_timers (drop r t) q None o n.
Proof.
  intros [Hq Hr Ho Hn]. split; intros h; try setoid_rewrite drop_lookup.
  - rewrite Hq. naive_solver.
  - naive_solver.
  - rewrite Ho. naive_solver.
  - intros [x Hx]. apply drop_lookup in Hx as [_ Hx]. apply Hn. eauto.
Qed.

Lemma wf_drop_recovery t q r o n : wf_timers t q r o n -> wf_timers (drop o t) q r None n.
Proof.
  intros [Hq Hr Ho Hn]. split; intros h; try setoid_rewrite drop_lookup.
  - rewrite Hq. naive_solver.
  - rewrite Hr. naive_solver.
  - naive_solver.
  - intros [x Hx]. apply drop_lookup in Hx as [_ Hx]. apply Hn. eauto.
Qed.

Lemma fresh_handle t q r o n : wf_timers t q r o n -> t !! n = None.
Proof.
  intros [_ _ _ Hn]. destruct (t !! n) eqn:E; [|reflexivity].
  specialize (Hn n ltac:(eauto)). lia.
Qed.

Lemma insert_lookup (t : gmap nat timer) n x h y :
  t !! n = None -> <[n:=x]> t !! h = Some y <-> (h = n /\ y = x) \/ t !! h = Some y.
Proof.
  intros Hf. rewrite lookup_insert_Some. split; [naive_solver|].
  intros [[-> ->]|H]; [left; done|]. right. split; [congruence|exact H].
Qed.

Lemma wf_add t q r o n x q' r' o' :
  wf_timers t q r o n ->
  (forall h, q' = Some h <-> (h = n /\ x = TQuery) \/ q = Some h) ->
  (forall h, r' = Some h <-> (h = n /\ x = TLoop) \/ r = Some h) ->
  (forall h, o' = Some h <-> (h = n /\ exists e op, x = TRecover e op) \/ o = Some h) ->
  wf_timers (<[n:=x]> t) q' r' o' (S n).
Proof.
  intros H Hq' Hr' Ho'. pose proof (fresh_handle _ _ _ _ _ H) as Hf. destruct H as [Hq Hr Ho Hn].
  split; intros h.
  - rewrite Hq', Hq, insert_lookup by exact Hf. naive_solver.
  - rewrite Hr', Hr, insert_lookup by exact Hf. naive_solver.
  - rewrite Ho', Ho. setoid_rewrite insert_lookup; [|exact Hf..]. naive_solver.
  - intros [y Hy]. apply insert_lookup in Hy; [|exact Hf]. destruct Hy as [[-> _]|Hy]; [lia|].
    specialize (Hn h ltac:(eauto)). lia.
Qed.

Lemma wf_add_query t r o n :
  wf_timers t None r o n -> wf_timers (<[n:=TQuery]> t) (Some n) r o (S n).
Proof. intros H. eapply wf_add; [exact H|..]; naive_solver. Qed.
Lemma wf_add_raf t q o n :
  wf_timers t q None o n -> wf_timers (<[n:=TLoop]> t) q (Some n) o (S n).
Proof. intros H. eapply wf_add; [exact H|..]; naive_solver. Qed.
Lemma wf_add_recovery t q r n e op :
  wf_timers t q r None n -> wf_timers (<[n:=TRecover e op]> t) q r (Some n) (S n).
Proof. intros H. eapply wf_add; [exact H|..]; naive_solver. Qed.

Definition timers_ok (s : state) : Prop :=
  wf_timers (timers s) (streamCmdTimer s) (rafId s) (recoveryTimer s) (next s).

(** ** The invariant *)

(** A started stream has a key, the same in its commands, an img that reports
    failures, a poll and a draw loop, and no restart pending. *)
Record live_ok (s : state) : Prop := {
  lo_started : started s = true;
  lo_key : exists k, connKey s = Some k /\ parms_connkey s = Some k;
  lo_img : exists src, img s = Some (Img src true);
  lo_poll : is_Some (streamCmdTimer s);
  lo_raf : is_Some (rafId s);
  lo_recovery : recoveryTimer s = None;
}.

(** A stopped one has nothing but, perhaps, a restart pending. *)
Record idle_ok (s : state) : Prop := {
  io_started : started s = false;
  io_key : connKey s = None /\ parms_connkey s = None;
  io_img : img s = None;
  io_poll : streamCmdTimer s = None;
  io_raf : rafId s = None;
}.

Record backoff_ok (s : state) : Prop := {
  bo_errors : 0 <= consecutiveErrors s;
  bo_delay : recoveryDelay s = Z.min (1000 * 2 ^ consecutiveErrors s) 10000;
  bo_pending : recoveryTimer s <> None -> consecutiveErrors s <= maxRecoveryAttempts;
}.

Record inv (s : state) : Prop := {
  inv_timers : timers_ok s;
  inv_backoff : backoff_ok s;
  inv_state : live_ok s \/ idle_ok s;
}.

Lemma backoff_reset s :
  recoveryDelay s = 1000 -> consecutiveErrors s = 0 -> backoff_ok s.
Proof. intros Hd Hc. split; rewrite ?Hd, ?Hc; cbn; unfold maxRecoveryAttempts; lia. Qed.

Lemma backoff_double n : 0 <= n -> Z.min (Z.min (1000 * 2 ^ n) 10000 * 2) 10000 = Z.min (1000 * 2 ^ (n + 1)) 10000.
Proof.
  intros Hn. rewrite Z.pow_add_r by lia. change (2 ^ 1) with 2.
  pose proof (Z.pow_pos_nonneg 2 n ltac:(lia) Hn). lia.
Qed.

Ltac ev :=
  cbv [teardown clear_query cancel_raf clear_recovery streamCommand streamCmdReq emit startDrawLoop
       add_timer drop_timer upd timers_ok negb andb orb
       connKey parms_connkey img started paused stopped currentEventId rate scale status
       streamCmdTimer rafId bitmapPending consecutiveErrors recoveryDelay recoveryTimer
       lastOptions relay timers next out] in *.

Lemma timers_teardown quit s : timers_ok s -> timers_ok (teardown quit s).
Proof.
  destruct s as [? ? ? [] ? ? ? ? ? ? ? ? ? ? ? ? ? ? ? ? ?], quit; ev; intros H;
    apply wf_drop_raf, wf_drop_query, H.
Qed.

Lemma idle_teardown quit s : idle_ok (teardown quit s).
Proof.
  destruct s as [? ? ? [] ? ? ? ? ? ? ? ? ? ? ? ? ? ? ? ? ?], quit; ev; split; ev; done.
Qed.

(** teardown leaves alone what is not the connection's. *)
Lemma teardown_keeps quit s :
  let s' := teardown quit s in
  consecutiveErrors s' = consecutiveErrors s /\ recoveryDelay s' = recoveryDelay s /\
  recoveryTimer s' = recoveryTimer s /\ relay s' = relay s /\ scale s' = scale s /\
  rate s' = rate s /\ currentEventId s' = currentEventId s /\ lastOptions s' = lastOptions s /\
  out s' = (out s ++ (if quit && started s
                      then [Request (Auth.appendTo (relay s) (url cfg)) (parms_connkey s) CMD_QUIT]
                      else []))%list.
Proof.
  destruct s as [? ? ? [] ? ? ? ? ? ? ? ? ? ? ? ? ? ? ? ? ?], quit; ev; rewrite ?app_nil_r;
    repeat split; reflexivity.
Qed.

Lemma live_not_idle s : live_ok s -> started s = true.
Proof. intros []. assumption. Qed.

Lemma inv_clear_recovery s : inv s -> inv (clear_recovery s).
Proof.
  intros [Ht [Hb1 Hb2 Hb3] Hs]. destruct s. split.
  - ev. apply wf_drop_recovery in Ht. exact Ht.
  - split; ev; try assumption. congruence.
  - destruct Hs as [[]|[]]; [left|right]; split; ev; done.
Qed.

Lemma inv_teardown quit s : inv s -> inv (teardown quit s).
Proof.
  intros [Ht [Hb1 Hb2 Hb3] Hs]. pose proof (teardown_keeps quit s) as (E1 & E2 & E3 & _).
  split; [apply timers_teardown, Ht| |right; apply idle_teardown].
  split; rewrite ?E1, ?E2, ?E3; assumption.
Qed.

(** What a new connection looks like. *)
Record started_with (random : num) (eventId : jsval) (opts : options) (s s' : state) : Prop := {
  sw_key : connKey s' = Some (genConnKey random);
  sw_event : currentEventId s' = eventId;
  sw_rate : rate s' = match o_rate opts with VUndef => VNum (num_of_Z 100) | r => r end;
  sw_opts : lastOptions s' = Some opts;
  sw_scale : scale s' = scale s;
  sw_relay : relay s' = relay s;
  sw_errors : consecutiveErrors s' = consecutiveErrors s;
  sw_delay : recoveryDelay s' = recoveryDelay s;
}.

Lemma start_connection_ok random eventId opts s :
  timers_ok s -> backoff_ok s -> idle_ok s -> recoveryTimer s = None ->
  let s' := start_connection random eventId opts s in
  inv s' /\ live_ok s' /\ started_with random eventId opts s s' /\
  exists src, out s' = (out s ++ [OpenSrc src])%list /\ img s' = Some (Img src true).
Proof.
  intros Ht [Hb1 Hb2 Hb3] [Hs [Hk Hp] Hi Hq Hr] Ho. destruct s.
  cbv [start_connection]. ev. subst.
  assert (L : live_ok (start_connection random eventId opts
    (State None None None false paused0 stopped0 currentEventId0 rate0 scale0 status0 None None
       bitmapPending0 consecutiveErrors0 (Z.min (1000 * 2 ^ consecutiveErrors0) 10000) None
       lastOptions0 relay0 timers0 next0 out0))).
  { cbv [start_connection]. ev. split; ev; eauto. }
  cbv [start_connection] in L. ev.
  split; [|split; [exact L|]]; [split; [| |left; exact L]|].
  - ev. apply wf_add_query, wf_add_raf, Ht.
  - split; ev; done.
  - split; [split; reflexivity|]. eexists. split; reflexivity.
Qed.

Lemma clear_recovery_keeps s :
  let s' := clear_recovery s in
  recoveryTimer s' = None /\ started s' = started s /\ img s' = img s /\ out s' = out s /\
  relay s' = relay s /\ scale s' = scale s /\ parms_connkey s' = parms_connkey s /\
  consecutiveErrors s' = consecutiveErrors s /\ recoveryDelay s' = recoveryDelay s.
Proof. destruct s. ev. repeat split; reflexivity. Qed.

Definition quit_request (s : state) : list effect :=
  if started s then [Request (Auth.appendTo (relay s) (url cfg)) (parms_connkey s) CMD_QUIT] else [].

Lemma start_ok random eventId opts s :
  inv s ->
  let s' := start random eventId opts s in
  inv s' /\ live_ok s' /\ started_with random eventId opts s s' /\
  exists src, out s' = (out s ++ quit_request s ++ [OpenSrc src])%list /\ img s' = Some (Img src true).
Proof.
  intros H. apply inv_clear_recovery in H as H1.
  pose proof (clear_recovery_keeps s) as (C1 & C2 & C3 & C4 & C5 & C6 & C7 & C8 & C9).
  cbv zeta. unfold start, quit_request. set (s1 := clear_recovery s) in *.
  rewrite <- C2, <- C4, <- C5, <- C7.
  assert (SW : forall s2 s', scale s2 = scale s1 -> relay s2 = relay s1 ->
    consecutiveErrors s2 = consecutiveErrors s1 -> recoveryDelay s2 = recoveryDelay s1 ->
    started_with random eventId opts s2 s' -> started_with random eventId opts s s').
  { intros s2 s' ? ? ? ? []. split; congruence. }
  clearbody s1.
  destruct H1 as [Ht Hb Hs]. destruct Hs as [Hl|Hi].
  - rewrite (lo_started s1 Hl). cbn [orb].
    pose proof (teardown_keeps true s1) as (E1 & E2 & E3 & E4 & E5 & E6 & E7 & E8 & E9).
    rewrite (lo_started s1 Hl) in E9. cbn in E9.
    pose proof (inv_teardown true s1 ltac:(split; [assumption..|left; assumption])) as [Ht' Hb' _].
    destruct (start_connection_ok random eventId opts (teardown true s1)) as (I & L & W & src & O & Im);
      try assumption; [apply idle_teardown|congruence|].
    split; [exact I|]. split; [exact L|]. split; [eapply SW; eassumption|].
    exists src. rewrite O, E9, <- app_assoc. split; [reflexivity|exact Im].
  - pose proof (io_started s1 Hi) as ->. rewrite (io_img s1 Hi).
    rewrite bool_decide_eq_false_2 by (intros [? [=]]). cbn [orb].
    destruct (start_connection_ok random eventId opts s1) as (I & L & W & src & O & Im); try assumption.
    split; [exact I|]. split; [exact L|]. split; [eapply SW; try eassumption; reflexivity|].
    exists src. split; [exact O|exact Im].
Qed.

Lemma backoff_capped n : 5 <= n -> Z.min (1000 * 2 ^ n) 10000 = Z.min (1000 * 2 ^ (n + 1)) 10000.
Proof.
  intros Hn. pose proof (Z.pow_le_mono_r 2 5 n ltac:(lia) Hn) as H1.
  pose proof (Z.pow_le_mono_r 2 5 (n + 1) ltac:(lia) ltac:(lia)) as H2.
  change (2 ^ 5) with 32 in *. lia.
Qed.

(** What recover does to a connection that has failed. *)
Lemma recover_ok s :
  timers_ok s -> backoff_ok s -> recoveryTimer s = None ->
  let s' := recover s in
  inv s' /\ idle_ok s' /\ consecutiveErrors s' = consecutiveErrors s + 1 /\
  (if consecutiveErrors s + 1 >? maxRecoveryAttempts
   then out s' = (out s ++ [OnError "Stream recovery failed"])%list /\ recoveryTimer s' = None
   else out s' = (out s ++ [Scheduled (recoveryDelay s)])%list /\
        exists h opts, recoveryTimer s' = Some h /\ timers s' !! h = Some (TRecover (currentEventId s) opts) /\
                       o_rate opts = rate s).
Proof.
  intros Ht [Hb1 Hb2 Hb3] Ho. unfold recover. rewrite Ho. cbv zeta.
  set (s0 := s <| consecutiveErrors := consecutiveErrors s + 1 |>).
  assert (T0 : timers_ok s0) by exact Ht.
  pose proof (timers_teardown false s0 T0) as T1.
  pose proof (idle_teardown false s0) as I1.
  pose proof (teardown_keeps false s0) as (E1 & E2 & E3 & E4 & E5 & E6 & E7 & E8 & E9).
  cbn [andb] in E9. rewrite app_nil_r in E9.
  change (consecutiveErrors s0) with (consecutiveErrors s + 1) in E1.
  change (recoveryDelay s0) with (recoveryDelay s) in E2.
  change (recoveryTimer s0) with (recoveryTimer s) in E3. rewrite Ho in E3.
  change (out s0) with (out s) in E9.
  change (currentEventId s0) with (currentEventId s). change (rate s0) with (rate s).
  clearbody s0. set (s1 := teardown false s0) in *. clearbody s1.
  change (consecutiveErrors (s1 <| stopped := false |>)) with (consecutiveErrors s1). rewrite E1.
  destruct I1 as [Is [Ik Ip] Ii Iq Ir].
  destruct (consecutiveErrors s + 1 >? maxRecoveryAttempts) eqn:G; destruct s1; ev; subst.
  - split; [|split; [split; done|done]]. split; [exact T1| |right; split; done].
    split; ev; [lia| |congruence].
    rewrite Hb2. apply backoff_capped. unfold maxRecoveryAttempts in G. lia.
  - split; [|split; [split; done|]]; cycle 1.
    { split; [reflexivity|]. split; [reflexivity|]. eexists _, _. split; [reflexivity|].
      rewrite lookup_insert_eq. split; reflexivity. }
    split; [apply wf_add_recovery, T1| |right; split; done].
    split; ev; [lia| |lia]. rewrite Hb2. apply backoff_double, Hb1.
Qed.

(** ** Every step *)

Definition b2n (b : bool) : nat := if b then 1%nat else 0%nat.

Definition is_open (e : effect) : bool := match e with OpenSrc _ => true | _ => false end.
Definition is_scheduled (e : effect) : bool := match e with Scheduled _ => true | _ => false end.
(** The outcome of a failure: a restart scheduled, or giving up. *)
Definition is_failure (e : effect) : bool :=
  match e with Scheduled _ | OnError _ => true | _ => false end.
Definition keyed (e : effect) : Prop :=
  match e with Request _ k _ => is_Some k | _ => True end.

(** The events that put the error count back to zero. *)
Definition resets (s : state) (e : event) : bool :=
  match e with
  | SwitchEvent _ _ _ => true
  | Stop => started s
  | Done (Some r) k =>
      bool_decide (Some k = connKey s) &&
      negb (String.eqb (result r) "Error" || String.eqb (result r) "Err")
  | _ => false
  end.

Record step_ok (s s' : state) (reset : bool) : Prop := {
  so_inv : inv s';
  so_out : exists d, out s' = (out s ++ d)%list /\ Forall keyed d /\
    (tally is_failure d + b2n (started s') <= tally is_open d + b2n (started s))%nat /\
    (reset = false -> consecutiveErrors s + Z.of_nat (tally is_scheduled d) <= consecutiveErrors s' /\
                      (tally is_scheduled d <> 0%nat -> consecutiveErrors s' <= maxRecoveryAttempts));
}.

(** The fields the invariant speaks of. *)
Record same_core (s s' : state) : Prop := {
  sc_key : connKey s' = connKey s; sc_parms : parms_connkey s' = parms_connkey s;
  sc_img : img s' = img s; sc_started : started s' = started s;
  sc_timers : timers s' = timers s; sc_next : next s' = next s;
  sc_poll : streamCmdTimer s' = streamCmdTimer s; sc_raf : rafId s' = rafId s;
  sc_recovery : recoveryTimer s' = recoveryTimer s;
  sc_errors : consecutiveErrors s' = consecutiveErrors s;
  sc_delay : recoveryDelay s' = recoveryDelay s;
}.

Lemma inv_same_core s s' : same_core s s' -> inv s -> inv s'.
Proof.
  intros [C1 C2 C3 C4 C5 C6 C7 C8 C9 C10 C11] [Ht [Hb1 Hb2 Hb3] Hs]. split.
  - unfold timers_ok in *. rewrite C5, C6, C7, C8, C9. exact Ht.
  - split; rewrite ?C9, ?C10, ?C11; assumption.
  - destruct Hs as [[? ? ? ? ? ?]|[? ? ? ? ?]]; [left|right]; split;
      rewrite ?C1, ?C2, ?C3, ?C4, ?C7, ?C8, ?C9; assumption.
Qed.

Definition quiet (e : effect) : bool :=
  match e with Request _ (Some _) _ | OnStatus _ => true | _ => false end.

Lemma quiet_step s s' d reset :
  inv s -> same_core s s' -> out s' = (out s ++ d)%list -> Forall (fun e => quiet e = true) d ->
  step_ok s s' reset.
Proof.
  intros H C Ho Hd. split; [eapply inv_same_core; eassumption|]. exists d. split; [exact Ho|].
  split; [eapply Forall_impl; [exact Hd|]; intros [? [k|] ?| | | |] [=]; cbn; eauto|].
  rewrite !tally_none; try (eapply Forall_impl; [exact Hd|]; intros [? [k|] ?| | | |] [=]; reflexivity).
  rewrite (sc_started _ _ C), (sc_errors _ _ C). split; [lia|]. intros _. split; [lia|congruence].
Qed.

Lemma idle_step s reset : inv s -> step_ok s s reset.
Proof.
  intros H. apply (quiet_step s s []); [exact H| |rewrite app_nil_r; reflexivity|constructor].
  split; reflexivity.
Qed.

Lemma request_step s s' c reset :
  inv s -> same_core s s' -> out s' = out s -> relay s' = relay s ->
  step_ok s (streamCommand c s') reset.
Proof.
  intros H C Ho Hr. unfold streamCommand. rewrite (sc_started _ _ C).
  destruct (started s) eqn:S; cbn [negb]; cycle 1.
  { apply (quiet_step s s' []); [exact H|exact C|rewrite app_nil_r; exact Ho|constructor]. }
  destruct (inv_state s H) as [[_ (k & Hk & Hp) _ _ _ _]|[Hi _ _ _ _]]; [|congruence].
  apply (quiet_step s _ [Request (Auth.appendTo (relay s) (url cfg)) (Some k) c]); [exact H| | |].
  - destruct C. destruct s'. split; ev; assumption.
  - rewrite (sc_parms _ _ C), Hp. destruct s'. ev. rewrite Ho, Hr. reflexivity.
  - repeat constructor.
Qed.

Lemma start_step r i o s : inv s -> step_ok s (start r i o s) false.
Proof.
  intros H. destruct (start_ok r i o s H) as (I & L & W & src & O & _).
  split; [exact I|]. eexists. split; [exact O|].
  pose proof (sw_errors _ _ _ _ _ W) as ->. rewrite (lo_started _ L).
  unfold quit_request. destruct (started s) eqn:S; cbn.
  - destruct (inv_state s H) as [[_ (k & _ & Hp) _ _ _ _]|[Hi _ _ _ _]]; [|congruence].
    rewrite Hp. split; [repeat constructor; cbn; eauto|]. split; [lia|]. intros _. split; [lia|congruence].
  - split; [repeat constructor|]. split; [lia|]. intros _. split; [lia|congruence].
Qed.

Lemma recover_step s0 s :
  inv s0 -> started s0 = true -> timers_ok s -> backoff_ok s -> recoveryTimer s = None ->
  out s = out s0 -> consecutiveErrors s = consecutiveErrors s0 -> step_ok s0 (recover s) false.
Proof.
  intros H0 S0 Ht Hb Hr Ho Hc. destruct (recover_ok s Ht Hb Hr) as (I & L & E & D).
  split; [exact I|]. rewrite Ho, Hc in *. rewrite (io_started _ L), E, S0.
  destruct (consecutiveErrors s0 + 1 >? maxRecoveryAttempts) eqn:G; destruct D as [D _];
    rewrite D; eexists; (split; [reflexivity|]); (split; [repeat constructor|]); cbn;
    (split; [lia|]); intros _; split; try lia; congruence.
Qed.

(** A failure reported about the key the stream holds. *)
Lemma recover_live s k : inv s -> connKey s = Some k -> step_ok s (recover s) false.
Proof.
  intros H Hk. destruct (inv_state s H) as [L|I].
  - apply recover_step; try reflexivity; try (apply H); [apply L|apply L].
  - destruct (io_key s I). congruence.
Qed.

Lemma fire_step h r c n s : inv s -> step_ok s (fire h r c n s) false.
Proof.
  intros H. unfold fire. pose proof (inv_timers s H) as Ht. unfold timers_ok in Ht.
  destruct (timers s !! h) as [[|eventId opts|]|] eqn:E; [| | |apply idle_step, H].
  - unfold streamCmdQuery. destruct (started s) eqn:S; [|apply idle_step, H].
    pose proof (request_step s s CMD_QUERY false H ltac:(split; reflexivity) eq_refl eq_refl) as R.
    unfold streamCommand in R. rewrite S in R. exact R.
  - assert (Hr : recoveryTimer s = Some h) by (apply (wt_recovery _ _ _ _ _ Ht); eauto).
    destruct (inv_state s H) as [L|I]; [rewrite (lo_recovery s L) in Hr; discriminate|].
    unfold recovery_fires.
    assert (E' : drop_timer (Some h) s <| recoveryTimer := None |> = clear_recovery s).
    { destruct s. cbn in Hr. subst. reflexivity. }
    rewrite E'. pose proof (clear_recovery_keeps s) as (_ & C2 & _ & C4 & _ & _ & _ & C8 & _).
    rewrite C2, (io_started s I).
    destruct (start_step r eventId opts (clear_recovery s) (inv_clear_recovery s H)) as [I' D].
    split; [exact I'|]. rewrite C2, C4, C8 in D. exact D.
  - assert (Hr : rafId s = Some h) by (apply (wt_raf _ _ _ _ _ Ht); exact E).
    destruct (inv_state s H) as [L|I]; [|rewrite (io_raf s I) in Hr; discriminate].
    apply wf_drop_raf in Ht. rewrite Hr in Ht. destruct H as [_ [B1 B2 B3] _].
    destruct L as [Ls (k & Lk & Lp) (src & Li) [q Lq] _ Lr]. destruct s. cbn in *. subst.
    unfold loop, drawFrame. cbv [drop_timer upd started negb img].
    rewrite bool_decide_eq_true_2 by eauto.
    destruct c; cbn [orb negb]; [destruct n; cbn [negb]; [destruct bitmapPending0|]|];
      (split; [split; [ev; apply wf_add_raf, Ht|split; ev; done|left; split; ev; eauto]|]);
      exists []; ev; rewrite ?app_nil_r; cbn; (split; [reflexivity|]); (split; [constructor|]);
      (split; [lia|]); intros _; split; try lia; congruence.
Qed.

Lemma reset_backoff s :
  inv s -> inv (s <| consecutiveErrors := 0 |> <| recoveryDelay := 1000 |>).
Proof.
  intros [Ht _ Hs]. destruct s. split.
  - exact Ht.
  - apply backoff_reset; reflexivity.
  - destruct Hs as [[]|[]]; [left|right]; split; ev; assumption.
Qed.

Lemma response_step r k s :
  inv s -> step_ok s (request_done r (Some k) s) (resets s (Done r k)).
Proof.
  intros H. unfold request_done, getStreamCmdResponse. destruct r as [r|]; [|apply idle_step, H].
  cbn [resets]. case_bool_decide as Hk; cbn [negb andb]; [|apply idle_step, H].
  destruct (String.eqb (result r) "Error" || String.eqb (result r) "Err"); cbn [negb].
  { destruct (errorIsFatal (reason r)); cbn [negb]; [|apply idle_step, H].
    eapply recover_live; [exact H|]. symmetry. exact Hk. }
  set (s1 := s <| consecutiveErrors := 0 |> <| recoveryDelay := 1000 |>).
  pose proof (reset_backoff s H) as H1. fold s1 in H1.
  assert (D : forall s', (same_core s1 s' /\ exists d, out s' = (out s1 ++ d)%list /\
              Forall (fun e => quiet e = true) d) -> step_ok s s' true).
  { intros s' (C & d & Ho & Hd). destruct (quiet_step s1 s' d false H1 C Ho Hd) as [I (d' & O & K & T & _)].
    split; [exact I|]. exists d'. split; [exact O|]. split; [exact K|]. split; [exact T|discriminate]. }
  apply D. destruct (rstatus r) as [st|].
  - destruct (st_paused st), (st_stopped st); (split; [split; reflexivity|]);
      exists [OnStatus st]; (split; [reflexivity|repeat constructor]).
  - split; [split; reflexivity|]. exists []. split; [rewrite app_nil_r; reflexivity|constructor].
Qed.

Definition settle (s : state) : state :=
  s <| paused := false |> <| stopped := false |> <| consecutiveErrors := 0 |> <| recoveryDelay := 1000 |>.

Lemma settle_ok s :
  inv s -> idle_ok s -> inv (settle s) /\ started (settle s) = false /\ out (settle s) = out s.
Proof.
  intros H [I _ _ _ _]. apply reset_backoff in H. destruct s. split; [|split; [exact I|reflexivity]].
  eapply inv_same_core; [|exact H]. split; reflexivity.
Qed.

Lemma stop_started s :
  started s = true -> stop s = settle (teardown true (clear_recovery s)).
Proof.
  intros S. unfold stop. pose proof (clear_recovery_keeps s) as (_ & C2 & _). rewrite C2, S.
  reflexivity.
Qed.

Lemma stop_step s : inv s -> step_ok s (stop s) (started s).
Proof.
  intros H. pose proof (inv_clear_recovery s H) as H1.
  pose proof (clear_recovery_keeps s) as (_ & C2 & _ & C4 & C5 & _ & C7 & C8 & _).
  destruct (started s) eqn:S; cycle 1.
  { unfold stop. rewrite C2. cbn [negb]. split; [exact H1|]. exists [].
    rewrite app_nil_r, C2, C8, S. split; [exact C4|]. split; [constructor|]. cbn.
    split; [lia|]. intros _. split; [lia|congruence]. }
  rewrite stop_started by exact S. set (s1 := clear_recovery s) in *. clearbody s1.
  pose proof (teardown_keeps true s1) as (_ & _ & _ & _ & _ & _ & _ & _ & E).
  rewrite C2, C5, C7, C4 in E.
  destruct (settle_ok _ (inv_teardown true s1 H1) (idle_teardown true s1)) as (I & Hs & Ho).
  rewrite <- Ho in E. clear Ho. set (s2 := settle _) in *. clearbody s2.
  destruct (inv_state s H) as [[_ (k & _ & Hp) _ _ _ _]|[Hi _ _ _ _]]; [|congruence].
  rewrite Hp in E. split; [exact I|]. eexists. split; [exact E|].
  split; [repeat constructor; cbn; eauto|]. rewrite Hs, S. cbn. split; [lia|discriminate].
Qed.

Lemma switch_step r i o s : inv s -> step_ok s (switchEvent r i o s) true.
Proof.
  intros H. unfold switchEvent.
  pose proof (clear_recovery_keeps s) as (_ & C2 & _ & C4 & _).
  pose proof (reset_backoff _ (inv_clear_recovery s H)) as H1.
  set (s1 := clear_recovery s) in *. clearbody s1.
  destruct (start_step r i o _ H1) as [I (d & O & K & T & _)].
  split; [exact I|]. exists d. rewrite <- C4, <- C2.
  split; [exact O|]. split; [exact K|]. split; [exact T|discriminate].
Qed.

Lemma guard_step s s' c reset :
  inv s -> same_core s s' -> out s' = out s -> relay s' = relay s ->
  step_ok s (if negb (started s') then s' else streamCommand c s') reset.
Proof.
  intros H C Ho Hr. pose proof (request_step s s' c reset H C Ho Hr) as R.
  unfold streamCommand in *. destruct (negb (started s')); exact R.
Qed.

Lemma seek_step n s reset : inv s -> step_ok s (seek n s) reset.
Proof. intros H. apply guard_step; [exact H|split; reflexivity|reflexivity..]. Qed.

Lemma step_step e s : inv s -> step_ok s (step s e) (resets s e).
Proof.
  intros H. destruct e as [r i o|r i o| |n|t|rt| | |sc|h r c n| |r k|t k|]; cbn [step resets].
  - apply start_step, H.
  - apply switch_step, H.
  - apply stop_step, H.
  - apply seek_step, H.
  - unfold seekToTime. destruct (_ || _); [apply idle_step, H|].
    destruct (events cfg (currentEventId s)) as [q|]; [|apply idle_step, H].
    destruct (ntruthy q); [apply seek_step, H|apply idle_step, H].
  - apply guard_step; [exact H|split; reflexivity|reflexivity..].
  - unfold pause. destruct (started s) eqn:S; cbn [negb]; [|apply idle_step, H].
    apply request_step; [exact H|split; reflexivity|reflexivity..].
  - unfold play. destruct (started s) eqn:S; cbn [negb]; [|apply idle_step, H].
    apply request_step; [exact H|split; reflexivity|reflexivity..].
  - apply guard_step; [exact H|split; reflexivity|reflexivity..].
  - apply fire_step, H.
  - destruct (img s) as [[src onerr]|] eqn:Hi; [|apply idle_step, H].
    cbn [img_onerror]. destruct onerr; [|apply idle_step, H].
    destruct (inv_state s H) as [L|I]; [|rewrite (io_img s I) in Hi; discriminate].
    unfold img_onerror_handler. pose proof (inv_timers s H) as Ht. pose proof (inv_backoff s H) as [B1 B2 B3].
    apply recover_step; [exact H|apply L| | | | |]; destruct s, L; ev; try assumption; try reflexivity.
    + apply wf_drop_raf, wf_drop_query, Ht.
    + split; ev; assumption.
  - apply response_step, H.
  - unfold request_fail. destruct (String.eqb t "abort"); [apply idle_step, H|].
    case_bool_decide as Hk; cbn [negb]; [|apply idle_step, H].
    eapply recover_live; [exact H|]. symmetry. exact Hk.
  - apply (quiet_step s _ []); [exact H|split; reflexivity|rewrite app_nil_r; reflexivity|constructor].
Qed.

(** ** Runs *)

Lemma wf_empty : wf_timers ∅ None None None 1.
Proof.
  split; intros h; try setoid_rewrite lookup_empty; try naive_solver.
Qed.

Lemma inv_create sc rl : inv (create sc rl).
Proof.
  split; [apply wf_empty|apply backoff_reset; reflexivity|].
  right. split; try reflexivity. split; reflexivity.
Qed.

Lemma run_snoc s es e : run s (es ++ [e]) = step (run s es) e.
Proof. unfold run. rewrite fold_left_app. reflexivity. Qed.

Lemma run_inv s es : inv s -> inv (run s es).
Proof.
  intros H. induction es as [|e es IH] using rev_ind; [exact H|].
  rewrite run_snoc. apply (step_step e _ IH).
Qed.

(** C5: whatever the page, the server and the timers do, a stream is either
    live - with a connkey its commands carry, an img whose failure is noticed, a
    status poll, a draw loop and no restart pending - or it holds nothing but,
    perhaps, one pending restart; its delay before the next restart is
    1s doubled per consecutive failure, at most 10s. *)
Theorem stream_invariant (sc : jsval) (rl : string) (es : list event) :
  inv (run (create sc rl) es).
Proof. apply run_inv, inv_create. Qed.

(** Every restart answers a connection that was opened: over any run the
    failures acted on (restarts scheduled, giving up) and the connection still
    live never outnumber the connections opened, so a reply about a replaced
    connkey never restarts the one that replaced it; and no command is ever
    sent without a connkey. *)
Theorem failures_bounded_by_connections (sc : jsval) (rl : string) (es : list event) :
  let s := run (create sc rl) es in
  (tally is_failure (out s) + b2n (started s) <= tally is_open (out s))%nat /\
  Forall keyed (out s).
Proof.
  cbv zeta. induction es as [|e es [IH1 IH2]] using rev_ind; [split; [reflexivity|constructor]|].
  rewrite run_snoc.
  destruct (so_out _ _ _ (step_step e _ (run_inv _ es (inv_create sc rl)))) as (d & O & K & T & _).
  rewrite O, !tally_app, Forall_app. split; [lia|split; assumption].
Qed.

(** No event of [es] puts the error count back. *)
Fixpoint no_reset (s : state) (es : list event) : Prop :=
  match es with [] => True | e :: es => resets s e = false /\ no_reset (step s e) es end.

Lemma no_reset_snoc s es e : no_reset s (es ++ [e]) <-> no_reset s es /\ resets (run s es) e = false.
Proof.
  revert s. induction es as [|x es IH]; intros s; cbn; [tauto|]. rewrite IH. unfold run. cbn. tauto.
Qed.

(** Until a reply succeeds or the user changes event or stops, a stream
    restarts by itself at most five times, each after at most ten seconds. *)
Theorem recovery_bounded (s : state) (es : list event) :
  inv s -> consecutiveErrors s = 0 -> no_reset s es ->
  (tally is_scheduled (out (run s es)) <= tally is_scheduled (out s) + 5)%nat /\
  recoveryDelay (run s es) <= 10000.
Proof.
  intros H Hc Hn. split; cycle 1.
  { destruct (inv_backoff _ (run_inv s es H)) as [_ -> _]. lia. }
  enough (exists n, tally is_scheduled (out (run s es)) = (tally is_scheduled (out s) + n)%nat /\
            (n <= 5)%nat /\ Z.of_nat n <= consecutiveErrors (run s es)) as (n & -> & Hle & _) by lia.
  revert Hn. induction es as [|e es IH] using rev_ind; intros Hn.
  { exists 0%nat. cbn. rewrite Hc. lia. }
  apply no_reset_snoc in Hn as [Hn Hr]. destruct (IH Hn) as (n & E & Hle & Hce).
  rewrite run_snoc.
  destruct (so_out _ _ _ (step_step e _ (run_inv s es H))) as (d & O & _ & _ & D).
  destruct (D Hr) as [D1 D2]. exists (n + tally is_scheduled d)%nat.
  rewrite O, tally_app, E. split; [lia|]. split; [|lia].
  destruct (tally is_scheduled d) as [|k] eqn:Ek; [lia|].
  specialize (D2 ltac:(lia)). unfold maxRecoveryAttempts in D2. lia.
Qed.

(** Start from any state: what was playing is told to quit before the new
    connection opens, and the stream is live on the event asked for, at the rate
    asked for (or 100), under a fresh key. *)
Theorem start_spec (random : num) (eventId : jsval) (opts : options) (s : state) :
  inv s ->
  let s' := start random eventId opts s in
  live_ok s' /\ started_with random eventId opts s s' /\
  exists src, out s' = (out s ++ quit_request s ++ [OpenSrc src])%list /\ img s' = Some (Img src true).
Proof. intros H. destruct (start_ok random eventId opts s H) as (_ & L & W & O). auto. Qed.

(** A live stream whose img fails is idle, with one failure more. *)
Lemma img_error_live s : inv s -> live_ok s ->
  let s' := step s ImgError in
  inv s' /\ idle_ok s' /\ consecutiveErrors s' = consecutiveErrors s + 1 /\
  tally is_open (out s') = tally is_open (out s).
Proof.
  intros H L. cbn [step]. destruct (lo_img s L) as [src ->]. cbn [img_onerror].
  set (s0 := cancel_raf (clear_query s)).
  assert (F : timers_ok s0 /\ backoff_ok s0 /\ recoveryTimer s0 = None /\
              consecutiveErrors s0 = consecutiveErrors s /\ out s0 = out s).
  { pose proof (inv_timers s H) as Ht. destruct (inv_backoff s H) as [B1 B2 B3]. unfold s0.
    destruct s, L. ev. split; [apply wf_drop_raf, wf_drop_query, Ht|]. repeat split; ev; try assumption; reflexivity. }
  destruct F as (F1 & F2 & F3 & F4 & F5). unfold img_onerror_handler. fold s0.
  destruct (recover_ok s0 F1 F2 F3) as (I & D & E & O). rewrite F4, F5 in *.
  split; [exact I|]. split; [exact D|]. split; [exact E|].
  destruct (_ >? _); destruct O as [-> _]; rewrite tally_app; cbn; lia.
Qed.

(** A pending restart that fires makes the stream live. *)
Lemma recovery_fire_live random canvas naturalWidth s h eventId opts :
  inv s -> started s = false -> recoveryTimer s = Some h -> timers s !! h = Some (TRecover eventId opts) ->
  let s' := step s (Fire h random canvas naturalWidth) in
  inv s' /\ live_ok s' /\ started_with random eventId opts s s'.
Proof.
  intros H S Hr Ht. cbn [step]. unfold fire. rewrite Ht. unfold recovery_fires.
  assert (E' : drop_timer (Some h) s <| recoveryTimer := None |> = clear_recovery s).
  { destruct s. cbn in Hr. subst. reflexivity. }
  rewrite E'. pose proof (clear_recovery_keeps s) as (_ & C2 & _). rewrite C2, S.
  assert (E2 : start random eventId opts (clear_recovery s) = start random eventId opts s).
  { unfold start. replace (clear_recovery (clear_recovery s)) with (clear_recovery s); [reflexivity|]. destruct s; reflexivity. }
  rewrite E2. destruct (start_ok random eventId opts s H) as (I & L & W & _). auto.
Qed.

(** A live stream whose img fails comes back: unless five restarts in a row
    have failed, the failure schedules a timer, and when the timer fires the
    stream is live again on the same event at the same rate. *)
Theorem recovery_restarts (random : num) (canvas naturalWidth : bool) (s : state) :
  inv s -> started s = true -> consecutiveErrors s < maxRecoveryAttempts ->
  exists h, recoveryTimer (step s ImgError) = Some h /\
    let s' := step (step s ImgError) (Fire h random canvas naturalWidth) in
    live_ok s' /\ currentEventId s' = currentEventId s /\
    connKey s' = Some (genConnKey random) /\
    (rate s <> VUndef -> rate s' = rate s) /\
    consecutiveErrors s' = consecutiveErrors s + 1.
Proof.
  intros H S Hc. pose proof (step_step ImgError s H) as [HI _]. cbn [step] in *.
  destruct (inv_state s H) as [L|I]; [|rewrite (io_started s I) in S; discriminate].
  destruct (lo_img s L) as [src Hi]. rewrite Hi in *. cbn [img_onerror] in *.
  set (s0 := cancel_raf (clear_query s)).
  assert (F : timers_ok s0 /\ backoff_ok s0 /\ recoveryTimer s0 = None /\
              consecutiveErrors s0 = consecutiveErrors s /\ currentEventId s0 = currentEventId s /\
              rate s0 = rate s).
  { pose proof (inv_timers s H) as Ht. destruct (inv_backoff s H) as [B1 B2 B3]. unfold s0.
    destruct s, L. ev. split; [apply wf_drop_raf, wf_drop_query, Ht|].
    repeat split; ev; try assumption; reflexivity. }
  destruct F as (F1 & F2 & F3 & F4 & F5 & F6). unfold img_onerror_handler in *. fold s0 in HI |- *.
  destruct (recover_ok s0 F1 F2 F3) as (_ & I & E & D). rewrite F4, F5, F6 in *.
  destruct (consecutiveErrors s + 1 >? maxRecoveryAttempts) eqn:G; [unfold maxRecoveryAttempts in *; lia|].
  destruct D as (_ & h & opts & Hr & Ht & Ho). exists h. split; [exact Hr|].
  set (s1 := recover s0) in *. clearbody s1.
  destruct (recovery_fire_live random canvas naturalWidth s1 h (currentEventId s) opts HI (io_started s1 I) Hr Ht)
    as (_ & L' & [W1 W2 W3 _ _ _ W7 _]).
  split; [exact L'|]. split; [exact W2|]. split; [exact W1|]. split; [|cbn [step] in W7; congruence].
  intros Hu. cbn [step] in W3. rewrite W3, Ho. destruct (rate s); congruence.
Qed.

End Stream.

(** A stream that has just been started on event 7. *)
Definition demo_config : config :=
  Config "24" "index.php" "/cgi-bin/nph-zms?monitor=24" (fun _ => None).
Definition demo : state :=
  start demo_config (Fin (1 # 2)) (VNum (num_of_Z 7)) no_options (create (VNum (num_of_Z 50)) "auth=abc").

Lemma demo_inv : inv demo.
Proof. apply (start_ok demo_config), inv_create. Qed.

Lemma recovery_bounded_witness :
  let es := [ImgError; Fire 3 (Fin (1 # 4)) false false; Done None "250000"; ImgError] in
  (tally is_scheduled (out (run demo_config demo es)) <= tally is_scheduled (out demo) + 5)%nat /\
  recoveryDelay (run demo_config demo es) <= 10000.
Proof.
  cbv zeta. apply recovery_bounded; [apply demo_inv|reflexivity|].
  vm_compute. repeat split.
Defined.

Lemma start_spec_witness :
  let s' := start demo_config (Fin (1 # 8)) (VNum (num_of_Z 8)) no_options demo in
  live_ok s' /\ started_with (Fin (1 # 8)) (VNum (num_of_Z 8)) no_options demo s' /\
  exists src, out s' = (out demo ++ quit_request demo_config demo ++ [OpenSrc src])%list /\
              img s' = Some (Img src true).
Proof. apply start_spec, demo_inv. Defined.

Lemma recovery_restarts_witness :
  exists h, recoveryTimer (step demo_config demo ImgError) = Some h /\
    let s' := step demo_config (step demo_config demo ImgError) (Fire h (Fin (1 # 4)) false false) in
    live_ok s' /\ currentEventId s' = currentEventId demo /\
    connKey s' = Some (genConnKey (Fin (1 # 4))) /\
    (rate demo <> VUndef -> rate s' = rate demo) /\
    consecutiveErrors s' = consecutiveErrors demo + 1.
Proof. apply recovery_restarts; [apply demo_inv|reflexivity|reflexivity]. Defined.

(** tests/js/eventstream-connkey.test.js: one question mark in the url, and a
    reply for a replaced connkey changes nothing. *)
Example demo_src :
  option_map img_src (img demo) =
  Some ("/cgi-bin/nph-zms?monitor=24&source=event&mode=jpeg&event=7&monitor=24&scale=50&rate=100" ++
        "&maxfps=5&replay=none&connkey=500000&auth=abc").
Proof. vm_compute. reflexivity. Qed.

Example stale_reply :
  let gone := Some (Reply "Error" "no_socket" "socket does not exist" None) in
  consecutiveErrors (step demo_config demo (Done gone "000222")) = 0 /\
  consecutiveErrors (step demo_config demo (Done gone "500000")) = 1.
Proof. vm_compute. split; reflexivity. Qed.

(** ** Keys *)

(** The largest value below 1: what Math.random() can return at most. *)
Definition below_one : Q := (9007199254740991 # 9007199254740992)%Q.

(** The key drawn for a connection is a number from 1 to 999999 in six
    digits, whatever Math.random() returns. *)
Theorem genConnKey_range (q : Q) :
  (0 <= q)%Q -> (q <= below_one)%Q ->
  exists z, genConnKey (Fin q) = pad6 z /\ 1 <= z <= 999999.
Proof.
  intros H0 H1. unfold genConnKey.
  assert (N : num_of_Z 999999 = Fin (999999 # 1)) by (vm_compute; reflexivity). rewrite N.
  assert (N1 : num_of_Z 1 = Fin (1 # 1)) by (vm_compute; reflexivity). rewrite N1. cbn [nmul].
  pose proof (rnd_mono (0 * (999999 # 1)) (q * (999999 # 1))
    ltac:(apply Qmult_le_compat_r; [exact H0|discriminate])) as Lo.
  pose proof (rnd_mono (q * (999999 # 1)) (below_one * (999999 # 1))
    ltac:(apply Qmult_le_compat_r; [exact H1|discriminate])) as Hi.
  set (c := rnd (below_one * (999999 # 1))) in Hi. vm_compute in c.
  change (rnd (0 * (999999 # 1))) with (Fin 0) in Lo.
  destruct (rnd (q * (999999 # 1))) as [|[]|p]; try discriminate Lo; try discriminate Hi.
  unfold c in Hi. apply nle_Fin in Lo, Hi. cbn [nadd].
  pose proof (rnd_mono (0 + (1 # 1)) (p + (1 # 1)) ltac:(apply Qplus_le_compat; [exact Lo|apply Qle_refl])) as Lo'.
  pose proof (rnd_mono _ _ (Qplus_le_compat _ _ _ _ Hi (Qle_refl (1 # 1)))) as Hi'.
  match type of Hi' with nle _ (rnd ?e) => set (d := rnd e) in Hi'; vm_compute in d end.
  change (rnd (0 + (1 # 1))) with (Fin 1) in Lo'.
  destruct (rnd (p + (1 # 1))) as [|[]|r]; try discriminate Lo'; try discriminate Hi'.
  unfold d in Hi'. apply nle_Fin in Lo', Hi'. cbn [nfloor]. eexists. split; [reflexivity|].
  rewrite Qfloor_Z. apply Qfloor_resp_le in Lo', Hi'. change (Qfloor 1) with 1 in Lo'.
  match type of Hi' with _ <= ?x => let v := eval vm_compute in x in change x with v in Hi' end. lia.
Qed.

Lemma genConnKey_range_witness :
  exists z, genConnKey (Fin (1 # 3)) = pad6 z /\ 1 <= z <= 999999.
Proof. apply genConnKey_range; discriminate. Defined.

End EventStream.
