(* ===== verification/AnnotationEditor.v ===== *)
(** web/skins/classic/views/js/training.js: the bounding-box editor of the
    training view.

    An editor is a [state]; the handlers of the mouse, the keyboard, the sidebar
    and of the server's answers are functions on it.  A handler that reads
    annotations[selectedIndex] where there is no such annotation raises a
    TypeError: [Throw] with the state as it was left.  Drawing and the sidebar's
    markup are functions of the state and not modelled; requests are recorded in
    [sent].  What confirm() answers is an argument of the handlers that ask.
    Coordinates are JavaScript numbers; an undefined coordinate is [NaN]. *)
From S2P Require Import JsString.

Module Editor.

Definition ANNOTATION_HIT_THRESHOLD : num := Fin 8.
Definition ANNOTATION_MIN_BOX_SIZE : num := Fin 10.
Definition ANNOTATION_MAX_UNDO : nat := 50.

Record ann := Ann {
  label : string; x1 : num; y1 : num; x2 : num; y2 : num; confidence : num; pending : bool;
}.
#[export] Instance eta_ann : Eta ann := fun a =>
  Ann (label a) (x1 a) (y1 a) (x2 a) (y2 a) (confidence a) (pending a).

Record pt := Pt { px : num; py : num }.

Inductive handle := H_nw | H_n | H_ne | H_e | H_se | H_s | H_sw | H_w.

#[export] Instance handle_eq_dec : EqDecision handle.
Proof. solve_decision. Defined.

Record rect := Rect { r_x1 : num; r_y1 : num; r_x2 : num; r_y2 : num }.

(** The requests of the editor, with what they send. *)
Inductive request :=
| ReqLoad (eid : string)
| ReqLoadSaved (eid fid : string)
| ReqImage (eid fid : string)
| ReqDelete (eid fid : string)
| ReqDetect (eid fid : string)
| ReqSave (eid fid : string) (annotations : list ann) (width height : num)
| ReqDeleteAll.

Record state := State {
  eventId : string;
  annotations : list ann;
  selectedIndex : Z;
  classLabels : list string;
  dirty : bool;
  image : bool;
  imageNaturalW : num;
  imageNaturalH : num;
  canvasW : num;
  canvasH : num;
  currentFrameId : string;           (* empty for null *)
  totalFrames : num;
  hasDetectScript : bool;
  isDrawing : bool;
  drawStart : option pt;
  drawCurrent : option pt;
  isDragging : bool;
  isResizing : bool;
  resizeHandle : option handle;
  dragOffset : pt;
  undoStack : list (list ann * Z);
  recentLabels : list string;
  labelPicker : option rect;         (* the box an open picker is for *)
  panelOpen : bool;
  sent : list request;
}.
#[export] Instance eta_state : Eta state := fun a =>
  State (eventId a) (annotations a) (selectedIndex a) (classLabels a) (dirty a) (image a)
    (imageNaturalW a) (imageNaturalH a) (canvasW a) (canvasH a) (currentFrameId a)
    (totalFrames a) (hasDetectScript a) (isDrawing a) (drawStart a) (drawCurrent a)
    (isDragging a) (isResizing a) (resizeHandle a) (dragOffset a) (undoStack a)
    (recentLabels a) (labelPicker a) (panelOpen a) (sent a).

Definition zero : num := Fin 0.

Definition create (eid : string) : state :=
  State eid [] (-1) [] false false zero zero zero zero "" zero false false None None false false
    None (Pt zero zero) [] [] None false [].

Inductive outcome := Done (ed : state) | Throw (ed : state).

Definition result (o : outcome) : state := match o with Done ed | Throw ed => ed end.

(** [xs[i]] *)
Definition at_index {A} (xs : list A) (i : Z) : option A :=
  if i <? 0 then None else xs !! Z.to_nat i.

Definition send (r : request) (ed : state) : state := ed <| sent := (sent ed ++ [r])%list |>.

(** ** Geometry *)

Definition getHandlePosition (a : ann) (h : handle) : pt :=
  let x1' := nmin (x1 a) (x2 a) in
  let y1' := nmin (y1 a) (y2 a) in
  let x2' := nmax (x1 a) (x2 a) in
  let y2' := nmax (y1 a) (y2 a) in
  let mx := ((x1' + x2') / Fin 2)%num in
  let my := ((y1' + y2') / Fin 2)%num in
  match h with
  | H_nw => Pt x1' y1' | H_n => Pt mx y1' | H_ne => Pt x2' y1' | H_e => Pt x2' my
  | H_se => Pt x2' y2' | H_s => Pt mx y2' | H_sw => Pt x1' y2' | H_w => Pt x1' my
  end.

(** Object.keys(handles), in the order they are written. *)
Definition handle_names : list handle := [H_nw; H_n; H_ne; H_e; H_se; H_s; H_sw; H_w].

(** A mouse event and the canvas's bounding rectangle at that moment. *)
Record mouse := Mouse {
  clientX : num; clientY : num; button : Z; shiftKey : bool;
  rect_left : num; rect_top : num; rect_width : num; rect_height : num;
}.

Definition mouseToImage (m : mouse) (ed : state) : pt :=
  let scaleX := (canvasW ed / rect_width m)%num in
  let scaleY := (canvasH ed / rect_height m)%num in
  Pt ((clientX m - rect_left m) * scaleX)%num ((clientY m - rect_top m) * scaleY)%num.

Definition getNormalizedRect (a b c d : num) : rect :=
  Rect (nmin a c) (nmin b d) (nmax a c) (nmax b d).

Definition box_hit (p : pt) (a : ann) : bool :=
  ((px p >=? nmin (x1 a) (x2 a)) && (px p <=? nmax (x1 a) (x2 a)) &&
   (py p >=? nmin (y1 a) (y2 a)) && (py p <=? nmax (y1 a) (y2 a)))%num.

(** The loop of _hitTestBoxes from index [i - 1] down. *)
Fixpoint hit_down (p : pt) (anns : list ann) (i : nat) : Z :=
  match i with
  | O => -1
  | S i => match anns !! i with
           | Some a => if box_hit p a then Z.of_nat i else hit_down p anns i
           | None => hit_down p anns i
           end
  end.

Definition hitTestBoxes (p : pt) (anns : list ann) : Z := hit_down p anns (length anns).

Definition handle_hit (p : pt) (a : ann) (h : handle) : bool :=
  let hp := getHandlePosition a h in
  ((nabs (px p - px hp) <=? ANNOTATION_HIT_THRESHOLD) &&
   (nabs (py p - py hp) <=? ANNOTATION_HIT_THRESHOLD))%num.

Definition hitTestHandles (p : pt) (a : ann) : option handle :=
  List.find (handle_hit p a) handle_names.

(** ** Undo and the list of annotations *)

Definition pushUndo (ed : state) : state :=
  let stack := (undoStack ed ++ [(annotations ed, selectedIndex ed)])%list in
  ed <| undoStack := if (ANNOTATION_MAX_UNDO <? length stack)%nat then tl stack else stack |>.

Definition undo (ed : state) : state :=
  match last (undoStack ed) with
  | None => ed
  | Some (anns, sel) =>
      ed <| undoStack := removelast (undoStack ed) |>
         <| annotations := anns |> <| selectedIndex := sel |> <| dirty := true |>
  end.

Definition selectAnnotation (index : Z) (ed : state) : state := ed <| selectedIndex := index |>.

Definition hideLabelPicker (ed : state) : state := ed <| labelPicker := None |>.

Definition addAnnotation (lbl : string) (r : rect) (ed : state) : state :=
  let ed := ed <| annotations := (annotations ed ++
                   [Ann lbl (r_x1 r) (r_y1 r) (r_x2 r) (r_y2 r) zero false])%list |> in
  ed <| selectedIndex := Z.of_nat (length (annotations ed)) - 1 |> <| dirty := true |>.

Definition in_range {A} (index : Z) (xs : list A) : bool :=
  negb ((index <? 0) || (index >=? Z.of_nat (length xs))).

(** [xs.splice(index, 1)] *)
Definition splice {A} (index : Z) (xs : list A) : list A := delete (Z.to_nat index) xs.

(** deleteAnnotation's two corrections of the selection, with [len] annotations
    left. *)
Definition selection_after (sel index len : Z) : Z :=
  let sel := if sel >=? len then len - 1 else sel in
  if sel =? index then -1 else if sel >? index then sel - 1 else sel.

Definition deleteAnnotation (index : Z) (ed : state) : state :=
  if negb (in_range index (annotations ed)) then ed
  else
    let ed := pushUndo ed in
    let ed := ed <| annotations := splice index (annotations ed) |> in
    let ed := ed <| selectedIndex :=
                selection_after (selectedIndex ed) index (Z.of_nat (length (annotations ed))) |> in
    if (length (annotations ed) =? 0)%nat && negb (String.eqb (currentFrameId ed) "")
    then send (ReqDelete (eventId ed) (currentFrameId ed)) (ed <| dirty := false |>)
    else ed <| dirty := true |>.

Definition set_pending (b : bool) (a : ann) : ann := a <| pending := b |>.

Definition acceptAnnotation (index : Z) (ed : state) : state :=
  if negb (in_range index (annotations ed)) then ed
  else match at_index (annotations ed) index with
       | Some a =>
           if negb (pending a) then ed
           else (pushUndo ed) <| annotations := alter (set_pending false) (Z.to_nat index) (annotations ed) |>
                              <| dirty := true |>
       | None => ed
       end.

Definition acceptAllAnnotations (ed : state) : state :=
  if existsb pending (annotations ed)
  then (pushUndo ed) <| annotations := map (set_pending false) (annotations ed) |> <| dirty := true |>
  else ed.

Definition relabelAnnotation (index : Z) (newLabel : string) (ed : state) : state :=
  if negb (in_range index (annotations ed)) then ed
  else (pushUndo ed) <| annotations :=
         alter (fun a => a <| label := newLabel |>) (Z.to_nat index) (annotations ed) |>
       <| dirty := true |>.

(** ** The mouse *)

Definition startDrawing (p : pt) (ed : state) : state :=
  ed <| selectedIndex := -1 |> <| isDrawing := true |> <| drawStart := Some p |>
     <| drawCurrent := Some p |>.

(** The part of _onMouseDown behind the resize handles. *)
Definition grab_box (p : pt) (ed : state) : state :=
  let hitIndex := hitTestBoxes p (annotations ed) in
  match at_index (annotations ed) hitIndex with
  | Some a =>
      selectAnnotation hitIndex (pushUndo ed) <| isDragging := true |>
        <| dragOffset := Pt (px p - nmin (x1 a) (x2 a))%num (py p - nmin (y1 a) (y2 a))%num |>
  | None => startDrawing p ed
  end.

Definition onMouseDown (m : mouse) (ed : state) : outcome :=
  if negb (button m =? 0) then Done ed
  else
    let ed := hideLabelPicker ed in
    let pos := mouseToImage m ed in
    if shiftKey m then Done (startDrawing pos ed)
    else if selectedIndex ed >=? 0 then
      match at_index (annotations ed) (selectedIndex ed) with
      | None => Throw ed
      | Some a =>
          match hitTestHandles pos a with
          | Some h => Done (pushUndo ed <| isResizing := true |> <| resizeHandle := Some h |>)
          | None => Done (grab_box pos ed)
          end
      end
    else Done (grab_box pos ed).

(** [Math.max(0, Math.min(v, limit))] *)
Definition clamp (v limit : num) : num := nmax zero (nmin v limit).

Definition drag_box (pos : pt) (ed : state) (a : ann) : ann :=
  let w := nabs (x2 a - x1 a) in
  let h := nabs (y2 a - y1 a) in
  let newX := clamp (px pos - px (dragOffset ed)) (canvasW ed - w) in
  let newY := clamp (py pos - py (dragOffset ed)) (canvasH ed - h) in
  a <| x1 := newX |> <| y1 := newY |> <| x2 := (newX + w)%num |> <| y2 := (newY + h)%num |>.

Definition doResize (pos : pt) (ed : state) (a : ann) : ann :=
  let px' := clamp (px pos) (canvasW ed) in
  let py' := clamp (py pos) (canvasH ed) in
  match resizeHandle ed with
  | Some H_nw => a <| x1 := px' |> <| y1 := py' |>
  | Some H_n => a <| y1 := py' |>
  | Some H_ne => a <| x2 := px' |> <| y1 := py' |>
  | Some H_e => a <| x2 := px' |>
  | Some H_se => a <| x2 := px' |> <| y2 := py' |>
  | Some H_s => a <| y2 := py' |>
  | Some H_sw => a <| x1 := px' |> <| y2 := py' |>
  | Some H_w => a <| x1 := px' |>
  | None => a
  end.

(** Rewrites the selected annotation; there may be none. *)
Definition edit_selected (f : ann -> ann) (ed : state) : option state :=
  match at_index (annotations ed) (selectedIndex ed) with
  | Some _ => Some (ed <| annotations := alter f (Z.to_nat (selectedIndex ed)) (annotations ed) |>)
  | None => None
  end.

(** [_updateCursor]: the class the canvas gets, or a TypeError. *)
Definition handle_name (h : handle) : string :=
  match h with
  | H_nw => "nw" | H_n => "n" | H_ne => "ne" | H_e => "e" | H_se => "se" | H_s => "s" | H_sw => "sw" | H_w => "w"
  end.

Definition updateCursor (pos : pt) (shift : bool) (ed : state) : option string :=
  if shift then Some ""
  else
    let over := if hitTestBoxes pos (annotations ed) >=? 0 then "mode-move" else "" in
    if selectedIndex ed >=? 0 then
      match at_index (annotations ed) (selectedIndex ed) with
      | None => None
      | Some a => match hitTestHandles pos a with
                  | Some h => Some ("mode-resize-" ++ handle_name h)
                  | None => Some over
                  end
      end
    else Some over.

Definition onMouseMove (m : mouse) (ed : state) : outcome :=
  let pos := mouseToImage m ed in
  if isDrawing ed then Done (ed <| drawCurrent := Some pos |>)
  else if isDragging ed && (selectedIndex ed >=? 0) then
    match edit_selected (drag_box pos ed) ed with
    | Some ed => Done (ed <| dirty := true |>)
    | None => Throw ed
    end
  else if isResizing ed && (selectedIndex ed >=? 0) then
    match edit_selected (doResize pos ed) ed with
    | Some ed => Done (ed <| dirty := true |>)
    | None => Throw ed
    end
  else match updateCursor pos (shiftKey m) ed with
       | Some _ => Done ed
       | None => Throw ed
       end.

Definition normalize_ann (a : ann) : ann :=
  let r := getNormalizedRect (x1 a) (y1 a) (x2 a) (y2 a) in
  a <| x1 := r_x1 r |> <| y1 := r_y1 r |> <| x2 := r_x2 r |> <| y2 := r_y2 r |>.

Definition too_small (r : rect) : bool :=
  (((r_x2 r - r_x1 r) <? ANNOTATION_MIN_BOX_SIZE) || ((r_y2 r - r_y1 r) <? ANNOTATION_MIN_BOX_SIZE))%num.

Definition finish_drag (ed : state) : state :=
  if isDragging ed then ed <| isDragging := false |> else ed.

Definition finish_resize (ed : state) : outcome :=
  if isResizing ed then
    let ed := ed <| isResizing := false |> <| resizeHandle := None |> in
    if selectedIndex ed >=? 0 then
      match edit_selected normalize_ann ed with Some ed => Done ed | None => Throw ed end
    else Done ed
  else Done ed.

Definition onMouseUp (m : mouse) (ed : state) : outcome :=
  if negb (button m =? 0) then Done ed
  else if isDrawing ed then
    let ed := ed <| isDrawing := false |> in
    let pos := mouseToImage m ed in
    match drawStart ed with
    | None => Throw ed
    | Some p0 =>
        let r := getNormalizedRect (px p0) (py p0) (px pos) (py pos) in
        let ed := ed <| drawStart := None |> <| drawCurrent := None |> in
        if too_small r then Done ed else Done (ed <| labelPicker := Some r |>)
    end
  else finish_resize (finish_drag ed).

(** ** Labels *)

(** The click on a label of the picker that is open for [r]. *)
Definition indexOf (x : string) (xs : list string) : Z :=
  match list_find (fun y => y = x) xs with Some (i, _) => Z.of_nat i | None => -1 end.

Definition trackLabelUsage (lbl : string) (ed : state) : state :=
  let idx := indexOf lbl (recentLabels ed) in
  let recent := if idx >=? 0 then splice idx (recentLabels ed) else recentLabels ed in
  ed <| recentLabels := lbl :: recent |>.

Definition pick_label (lbl : string) (ed : state) : state :=
  match labelPicker ed with
  | None => ed
  | Some r => trackLabelUsage lbl (hideLabelPicker (addAnnotation lbl r (pushUndo ed)))
  end.

Definition label_char (c : ascii) : bool :=
  let z := code c in
  ((48 <=? z) && (z <=? 57)) || ((65 <=? z) && (z <=? 90)) || ((97 <=? z) && (z <=? 122)) ||
  (z =? 95) || (z =? 45).

Definition valid_label (lbl : string) : bool := negb (String.eqb lbl "") && all_chars label_char lbl.

(** Enter in the picker's input field. *)
Definition enter_label (input : string) (ed : state) : state :=
  let lbl := toLowerCase (trim input) in
  if valid_label lbl then
    match labelPicker ed with
    | None => ed
    | Some _ =>
        let ed := pick_label lbl ed in
        if indexOf lbl (classLabels ed) =? -1
        then ed <| classLabels := (classLabels ed ++ [lbl])%list |> else ed
    end
  else ed.

(** The comparison function of _getSortedLabels. *)
Definition compare_labels (recent : list string) (a b : string) : Z :=
  let ia := indexOf a recent in
  let ib := indexOf b recent in
  if (ia =? -1) && (ib =? -1) then 0
  else if ia =? -1 then 1
  else if ib =? -1 then -1
  else ia - ib.

(** Array.prototype.sort is stable; insertion sort is its specification. *)
Fixpoint insert_by (cmp : string -> string -> Z) (x : string) (ys : list string) : list string :=
  match ys with
  | [] => [x]
  | y :: ys' => if cmp x y <=? 0 then x :: ys else y :: insert_by cmp x ys'
  end.
Definition sort_by (cmp : string -> string -> Z) (xs : list string) : list string :=
  fold_right (insert_by cmp) [] xs.

Definition getSortedLabels (ed : state) : list string :=
  sort_by (compare_labels (recentLabels ed)) (classLabels ed).

(** ** Loading *)

Definition resetAnnotationState (ed : state) : state :=
  hideLabelPicker
    (ed <| annotations := [] |> <| selectedIndex := -1 |> <| dirty := false |> <| isDrawing := false |>
        <| isDragging := false |> <| isResizing := false |> <| undoStack := [] |>).

(** The editor afterwards, and whether to go on. *)
Definition confirmDiscardIfDirty (answer : bool) (ed : state) : state * bool :=
  if negb (dirty ed) then (ed, true)
  else if negb answer then (ed, false)
  else (ed <| dirty := false |>, true).

Definition loadFrameImage (frameId : string) (ed : state) : state :=
  send (ReqImage (eventId ed) frameId) (ed <| currentFrameId := frameId |>).

Definition image_onload (w h : num) (ed : state) : state :=
  ed <| image := true |> <| imageNaturalW := w |> <| imageNaturalH := h |>
     <| canvasW := w |> <| canvasH := h |>.

Definition switchFrame (answer : bool) (frameId : string) (ed : state) : state :=
  let '(ed, go) := confirmDiscardIfDirty answer ed in
  if negb go then ed else loadFrameImage frameId (resetAnnotationState ed).

(** A frame past the last is clamped to it and tried again. *)
Definition image_onerror (answer : bool) (frameId : string) (ed : state) : state :=
  let i := parseInt10 frameId in
  if (match i with NaN => false | _ => true end) && (totalFrames ed >? zero)%num && (i >? totalFrames ed)%num
  then switchFrame answer (num_to_string (totalFrames ed)) ed
  else ed.

Definition loadEventData (eid : string) (ed : state) : state := send (ReqLoad eid) ed.

Definition switchEvent (answer : bool) (newEid : string) (ed : state) : state :=
  let '(ed, go) := confirmDiscardIfDirty answer ed in
  if negb go then ed
  else loadEventData newEid (resetAnnotationState (ed <| eventId := newEid |>)).

Definition open (ed : state) : state := loadEventData (eventId ed) (ed <| panelOpen := true |>).

Definition close (answer : bool) (ed : state) : state :=
  let '(ed, go) := confirmDiscardIfDirty answer ed in
  if negb go then ed
  else resetAnnotationState (hideLabelPicker (ed <| panelOpen := false |>))
         <| image := false |> <| currentFrameId := "" |>.

(** The click on a link while the panel is open; [true] lets it go on. *)
Definition navGuard (answer : bool) (ed : state) : state * bool :=
  if negb (dirty ed) then (ed, true)
  else if negb answer then (ed, false) else (ed <| dirty := false |>, true).

(** An object of objects.json or a detection: absent fields are empty, zero or
    [None]. *)
Record detection := Detection {
  d_label : string; d_name : string; d_class : string; d_confidence : num; d_score : num;
  d_bbox : option (list num); d_coords : option rect;
}.

Definition str_or (a b : string) : string := if String.eqb a "" then b else a.

(** [bbox[i]] *)
Definition bbox_at (bbox : list num) (i : nat) : num := default NaN (bbox !! i).
Definition bbox_rect (bbox : list num) : rect :=
  Rect (bbox_at bbox 0) (bbox_at bbox 1) (bbox_at bbox 2) (bbox_at bbox 3).

Definition zero_rect : rect := Rect zero zero zero zero.

Definition ann_of (lbl : string) (r : rect) (conf : num) (pend : bool) : ann :=
  Ann lbl (r_x1 r) (r_y1 r) (r_x2 r) (r_y2 r) conf pend.

Definition load_object (d : detection) : ann :=
  ann_of (str_or (d_label d) (str_or (d_name d) (str_or (d_class d) "unknown")))
    match d_bbox d, d_coords d with
    | Some b, _ => bbox_rect b
    | None, Some r => r
    | None, None => zero_rect
    end
    (nor (nor (d_confidence d) (d_score d)) zero) false.

(** The shapes of detection data it knows. *)
Inductive detection_data :=
| DArray (ds : list detection)
| DObjects (ds : list detection)
| DDetections (ds : list detection)
| DOther.

Definition objects_of (data : detection_data) : list detection :=
  match data with DArray ds | DObjects ds | DDetections ds => ds | DOther => [] end.

Definition loadDetectionData (data : option detection_data) (ed : state) : state :=
  match data with
  | None => ed <| annotations := [] |>
  | Some d => ed <| annotations := map load_object (objects_of d) |>
  end.

Record load_response := LoadResponse {
  lr_totalFrames : num; lr_width : num; lr_height : num; lr_hasDetectScript : bool;
  lr_detectionData : option detection_data; lr_defaultFrameId : string;
}.

Definition applyEventData (resp : load_response) (ed : state) : state :=
  let ed := ed <| totalFrames := nor (lr_totalFrames resp) zero |>
               <| imageNaturalW := nor (lr_width resp) zero |>
               <| imageNaturalH := nor (lr_height resp) zero |>
               <| hasDetectScript := lr_hasDetectScript resp |> in
  match lr_detectionData resp with
  | Some d => loadDetectionData (Some d) ed
  | None => ed
  end.

(** The answer to _loadEventData; [None] for result Error. *)
Definition load_done (preferredFrame : string) (resp : option load_response) (ed : state) : state :=
  match resp with
  | None => ed
  | Some r =>
      let ed := applyEventData r ed in
      let startFrame := str_or preferredFrame (str_or (lr_defaultFrameId r) "alarm") in
      let ed := loadFrameImage startFrame ed in
      if String.eqb preferredFrame "" then ed
      else send (ReqLoadSaved (eventId ed) preferredFrame) ed
  end.

(** A saved box, as load_saved returns it. *)
Definition saved_done (saved : list (string * rect)) (ed : state) : state :=
  match saved with
  | [] => ed
  | _ => ed <| annotations := map (fun '(l, r) => ann_of l r zero false) saved |>
            <| selectedIndex := -1 |> <| dirty := false |>
  end.

(** ** Detection and saving *)

Definition detect (ed : state) : state :=
  if negb (hasDetectScript ed) then ed
  else if String.eqb (currentFrameId ed) "" then ed
  else send (ReqDetect (eventId ed) (currentFrameId ed)) ed.

Definition detected (d : detection) : ann :=
  ann_of (str_or (d_label d) "unknown")
    match d_bbox d with Some b => bbox_rect b | None => zero_rect end
    (nor (d_confidence d) zero) true.

(** The answer to detect; [None] for result Error. *)
Definition detect_done (resp : option (list detection)) (ed : state) : state :=
  match resp with
  | None | Some [] => ed
  | Some ds =>
      let ed := pushUndo ed in
      let kept := List.filter (fun a => negb (pending a)) (annotations ed) in
      ed <| annotations := (kept ++ map detected ds)%list |> <| dirty := true |>
  end.

Definition accepted (anns : list ann) : list ann := List.filter (fun a => negb (pending a)) anns.
Definition pendingCount (anns : list ann) : nat := length (List.filter pending anns).

(** Whether save asks before it sends. *)
Definition save_asks (ed : state) : bool :=
  (0 <? pendingCount (annotations ed))%nat || (length (accepted (annotations ed)) =? 0)%nat.

Definition save (answer : bool) (ed : state) : state :=
  if String.eqb (currentFrameId ed) "" then ed
  else if save_asks ed && negb answer then ed
  else send (ReqSave (eventId ed) (currentFrameId ed) (accepted (annotations ed))
               (imageNaturalW ed) (imageNaturalH ed)) ed.

(** The answer to save: [None] for result Error, else the class labels of the
    statistics it carries, if any. *)
Definition save_done (resp : option (option (list string))) (ed : state) : state :=
  match resp with
  | None => ed
  | Some labels =>
      let ed := ed <| dirty := false |> in
      match labels with Some ls => ed <| classLabels := ls |> | None => ed end
  end.

Definition deleteAll (answer : string) (ed : state) : state :=
  if negb (String.eqb answer "agree") then ed else send ReqDeleteAll ed.

Definition deleteAll_done (ok : bool) (labels : list string) (ed : state) : state :=
  if ok then ed <| annotations := [] |> <| selectedIndex := -1 |> <| dirty := false |>
                <| undoStack := [] |> <| classLabels := labels |>
  else ed.

(** ** The keyboard *)

Inductive key_event := CtrlZ | Delete_key | Backspace | Escape | OtherKey.

(** [in_input]: the key was typed into an input element. *)
Definition keydown (k : key_event) (in_input : bool) (ed : state) : state :=
  if negb (panelOpen ed) then ed
  else if in_input then ed
  else match k with
       | CtrlZ => undo ed
       | Delete_key | Backspace =>
           if selectedIndex ed >=? 0 then deleteAnnotation (selectedIndex ed) ed else ed
       | Escape =>
           hideLabelPicker
             (if isDrawing ed then ed <| isDrawing := false |> <| drawStart := None |> <| drawCurrent := None |>
              else ed)
       | OtherKey => ed
       end.

(** The buttons of a sidebar item, by the item's index. *)
Inductive sidebar := SelectItem | AcceptItem | RemoveItem.
Definition sidebar_click (b : sidebar) (index : Z) (ed : state) : state :=
  match b with
  | SelectItem => selectAnnotation index ed
  | AcceptItem => acceptAnnotation index ed
  | RemoveItem => deleteAnnotation index ed
  end.

(** ** The page numbers of the frame browser *)

(** [None] is the ellipsis. *)
Definition range (a b : Z) : list Z := map (fun k => a + Z.of_nat k) (seq 0 (Z.to_nat (b - a + 1))).

Definition buildPageNumbers (current last : Z) : list (option Z) :=
  if last <=? 7 then map Some (range 1 last)
  else
    let rangeStart := Z.max 2 (current - 1) in
    let rangeEnd := Z.min (last - 1) (current + 1) in
    ([Some 1] ++ (if rangeStart >? 2 then [None] else []) ++ map Some (range rangeStart rangeEnd) ++
     (if rangeEnd <? last - 1 then [None] else []) ++ [Some last])%list.

(** ** What can happen *)

Inductive event :=
| MouseDown (m : mouse) | MouseMove (m : mouse) | MouseUp (m : mouse)
| Key (k : key_event) (in_input : bool)
| Sidebar (b : sidebar) (index : Z)
| PickLabel (lbl : string) | EnterLabel (input : string)
| Relabel (index : Z) (lbl : string) | AcceptAll
| Open | Close (answer : bool) | Navigate (answer : bool)
| SwitchFrame (answer : bool) (frameId : string)
| SwitchEvent (answer : bool) (eid : string)
| ImageLoaded (w h : num) | ImageFailed (answer : bool) (frameId : string)
| Loaded (preferredFrame : string) (resp : option load_response)
| SavedLoaded (saved : list (string * rect))
| Detect | Detected (resp : option (list detection))
| Save (answer : bool) | Saved (resp : option (option (list string)))
| DeleteAll (answer : string) | AllDeleted (ok : bool) (labels : list string).

Definition step (ev : event) (ed : state) : outcome :=
  match ev with
  | MouseDown m => onMouseDown m ed
  | MouseMove m => onMouseMove m ed
  | MouseUp m => onMouseUp m ed
  | Key k i => Done (keydown k i ed)
  | Sidebar b i => Done (sidebar_click b i ed)
  | PickLabel l => Done (pick_label l ed)
  | EnterLabel i => Done (enter_label i ed)
  | Relabel i l => Done (relabelAnnotation i l ed)
  | AcceptAll => Done (acceptAllAnnotations ed)
  | Open => Done (open ed)
  | Close a => Done (close a ed)
  | Navigate a => Done (navGuard a ed).1
  | SwitchFrame a f => Done (switchFrame a f ed)
  | SwitchEvent a i => Done (switchEvent a i ed)
  | ImageLoaded w h => Done (image_onload w h ed)
  | ImageFailed a f => Done (image_onerror a f ed)
  | Loaded p r => Done (load_done p r ed)
  | SavedLoaded sv => Done (saved_done sv ed)
  | Detect => Done (detect ed)
  | Detected r => Done (detect_done r ed)
  | Save a => Done (save a ed)
  | Saved r => Done (save_done r ed)
  | DeleteAll a => Done (deleteAll a ed)
  | AllDeleted ok ls => Done (deleteAll_done ok ls ed)
  end.

(** A TypeError ends the handler, not the page. *)
Definition run (ed : state) (evs : list event) : state :=
  fold_left (fun ed ev => result (step ev ed)) evs ed.

(** ** Selection and undo *)

(** -1 or an index of the list. *)
Definition sel_ok (anns : list ann) (sel : Z) : Prop := -1 <= sel < Z.of_nat (length anns).

Record wf (ed : state) : Prop := {
  wf_sel : sel_ok (annotations ed) (selectedIndex ed);
  wf_undo : Forall (fun '(anns, sel) => sel_ok anns sel) (undoStack ed);
  wf_depth : (length (undoStack ed) <= ANNOTATION_MAX_UNDO)%nat;
  wf_draw : isDrawing ed = true -> drawStart ed <> None;
}.

Lemma at_index_some {A} (xs : list A) i : 0 <= i < Z.of_nat (length xs) -> exists a, at_index xs i = Some a.
Proof.
  intros H. unfold at_index. destruct (i <? 0) eqn:E; [lia|].
  destruct (lookup_lt_is_Some_2 xs (Z.to_nat i)) as [a Ha]; [lia|]. eauto.
Qed.

Lemma at_index_inv {A} (xs : list A) i a : at_index xs i = Some a -> 0 <= i < Z.of_nat (length xs).
Proof.
  unfold at_index. destruct (i <? 0) eqn:E; [discriminate|]. intros H. apply lookup_lt_Some in H. lia.
Qed.

Lemma in_range_spec {A} i (xs : list A) : in_range i xs = true <-> 0 <= i < Z.of_nat (length xs).
Proof. unfold in_range. rewrite negb_true_iff, orb_false_iff, Z.ltb_ge, Z.geb_leb, Z.leb_gt. lia. Qed.

Lemma splice_length {A} i (xs : list A) :
  0 <= i < Z.of_nat (length xs) -> Z.of_nat (length (splice i xs)) = Z.of_nat (length xs) - 1.
Proof. intros H. unfold splice. rewrite length_delete; [|apply lookup_lt_is_Some_2; lia]. lia. Qed.

Lemma selection_after_ok sel i len :
  0 <= len -> -1 <= sel < len + 1 -> 0 <= i -> -1 <= selection_after sel i len < Z.max len 0.
Proof.
  intros Hl Hs Hi. unfold selection_after. rewrite !Z.geb_leb, !Z.gtb_ltb.
  repeat match goal with |- context [if ?b then _ else _] => destruct b eqn:?; bool_to_prop end; lia.
Qed.

Lemma last_push {A} (stack : list A) x :
  last (if (ANNOTATION_MAX_UNDO <? length (stack ++ [x]))%nat then tl (stack ++ [x])
        else (stack ++ [x])%list) = Some x.
Proof.
  destruct (_ <? _)%nat eqn:E; [|apply last_snoc]. apply Nat.ltb_lt in E.
  destruct stack as [|y stack]; [cbn in E; unfold ANNOTATION_MAX_UNDO in E; lia|]. apply last_snoc.
Qed.

(** The undo stack after a push. *)
Definition capped {A} (stack : list A) : list A :=
  if (ANNOTATION_MAX_UNDO <? length stack)%nat then tl stack else stack.

Lemma capped_Forall {A} (P : A -> Prop) stack : Forall P stack -> Forall P (capped stack).
Proof.
  intros H. unfold capped. destruct (_ <? _)%nat; [|exact H].
  destruct H; [constructor|assumption].
Qed.

Lemma capped_length {A} (stack : list A) :
  (length stack <= S ANNOTATION_MAX_UNDO)%nat -> (length (capped stack) <= ANNOTATION_MAX_UNDO)%nat.
Proof.
  intros H. unfold capped. destruct (_ <? _)%nat eqn:E; bool_to_prop; [|lia].
  destruct stack; cbn [length tl] in *; lia.
Qed.

Lemma wf_push ed : wf ed -> wf (pushUndo ed).
Proof.
  intros [Hs Hu Hd Hw]. split; [exact Hs| | |exact Hw].
  - apply (capped_Forall _ (undoStack ed ++ [(annotations ed, selectedIndex ed)])).
    apply Forall_app. split; [exact Hu|]. constructor; [exact Hs|constructor].
  - apply (capped_length (undoStack ed ++ [(annotations ed, selectedIndex ed)])).
    rewrite length_app. cbn [length]. lia.
Qed.

(** [wf] reads five fields only. *)
Lemma wf_ext ed ed' :
  annotations ed' = annotations ed -> selectedIndex ed' = selectedIndex ed ->
  undoStack ed' = undoStack ed -> isDrawing ed' = isDrawing ed -> drawStart ed' = drawStart ed ->
  wf ed -> wf ed'.
Proof. intros E1 E2 E3 E4 E5 [? ? ? ?]. split; rewrite ?E1, ?E2, ?E3, ?E4, ?E5; assumption. Qed.

Lemma wf_update ed anns sel :
  wf ed -> sel_ok anns sel -> wf (ed <| annotations := anns |> <| selectedIndex := sel |>).
Proof. intros [? ? ? ?] H. split; assumption. Qed.

Lemma wf_alter ed f i : wf ed -> wf (ed <| annotations := alter f i (annotations ed) |>).
Proof. intros [Hs ? ? ?]. split; try assumption. unfold sel_ok in *.
  rewrite <- (length_alter f (annotations ed) i) in Hs. exact Hs.
Qed.

Lemma wf_undone ed : wf ed -> wf (undo ed).
Proof.
  intros [Hs Hu Hd Hw]. unfold undo. destruct (last (undoStack ed)) as [[anns sel]|] eqn:E; [|split; assumption].
  apply last_Some in E as [l E]. rewrite E in *. apply Forall_app in Hu as [Hl Hx].
  split; cbn; try assumption.
  - inversion Hx. assumption.
  - rewrite removelast_last. exact Hl.
  - rewrite removelast_last. rewrite length_app in Hd. cbn [length] in Hd. unfold ANNOTATION_MAX_UNDO in *.
    change (length l <= 50)%nat. lia.
Qed.

Lemma sel_ok_snoc anns a : sel_ok (anns ++ [a]) (Z.of_nat (length (anns ++ [a])) - 1).
Proof. unfold sel_ok. rewrite length_app. cbn [length]. lia. Qed.

Lemma wf_added lbl r ed : wf ed -> wf (addAnnotation lbl r ed).
Proof.
  intros [Hs Hu Hd Hw]. split; try assumption. apply sel_ok_snoc.
Qed.

Lemma wf_deleted i ed : wf ed -> wf (deleteAnnotation i ed).
Proof.
  intros H. unfold deleteAnnotation. destruct (in_range i (annotations ed)) eqn:E; [|exact H]. cbn [negb].
  apply in_range_spec in E. pose proof (wf_push ed H) as [Hs Hu Hd Hw].
  change (annotations (pushUndo ed)) with (annotations ed) in *.
  assert (S : sel_ok (splice i (annotations ed))
                (selection_after (selectedIndex ed) i (Z.of_nat (length (splice i (annotations ed)))))).
  { pose proof (splice_length i _ E) as L. destruct H as [[H1 H2] _ _ _]. unfold sel_ok.
    pose proof (selection_after_ok (selectedIndex ed) i (Z.of_nat (length (splice i (annotations ed))))
      ltac:(lia) ltac:(lia) ltac:(lia)). lia. }
  destruct (_ && _); split; assumption.
Qed.

Lemma wf_accept i ed : wf ed -> wf (acceptAnnotation i ed).
Proof.
  intros H. unfold acceptAnnotation. destruct (negb _); [exact H|].
  destruct (at_index _ _) as [a|]; [|exact H]. destruct (negb _); [exact H|].
  apply (wf_ext ((pushUndo ed) <| annotations := alter (set_pending false) (Z.to_nat i) (annotations (pushUndo ed)) |>));
    try reflexivity. apply wf_alter, wf_push, H.
Qed.

Lemma wf_relabel i l ed : wf ed -> wf (relabelAnnotation i l ed).
Proof.
  intros H. unfold relabelAnnotation. destruct (negb _); [exact H|].
  match goal with |- wf (_ <| annotations := alter ?f _ _ |> <| dirty := _ |>) =>
    apply (wf_ext ((pushUndo ed) <| annotations := alter f (Z.to_nat i) (annotations (pushUndo ed)) |>));
      try reflexivity end.
  apply wf_alter, wf_push, H.
Qed.

Lemma wf_acceptAll ed : wf ed -> wf (acceptAllAnnotations ed).
Proof.
  intros H. unfold acceptAllAnnotations. destruct (existsb _ _); [|exact H].
  destruct (wf_push ed H) as [_ Hu Hd Hw]. pose proof (wf_sel ed H) as Hs.
  split; try assumption. unfold sel_ok in *. rewrite <- (length_map (set_pending false) (annotations ed)) in Hs. exact Hs.
Qed.

Lemma sel_ok_nil : sel_ok [] (-1).
Proof. unfold sel_ok. cbn. lia. Qed.

Lemma wf_reset ed : wf (resetAnnotationState ed).
Proof. split; [apply sel_ok_nil|exact (Forall_nil_2 _)|exact (Nat.le_0_l 50)|discriminate]. Qed.

Definition fine (o : outcome) : Prop := match o with Done ed => wf ed | Throw _ => False end.

(** The handler left the five fields of [wf] alone. *)
Tactic Notation "keep" constr(H) :=
  cbn [fine negb fst];
  first [ lazymatch goal with |- ?G => lazymatch type of H with G => exact H end end
        | lazymatch type of H with wf ?ed => apply (wf_ext ed); [lazy; reflexivity.. | exact H] end ].

(** The events that replace the list of annotations by what a detector found,
    and clicks on items the sidebar does not show. *)
Definition benign (ed : state) (ev : event) : bool :=
  match ev with
  | Loaded _ (Some r) => match lr_detectionData r with None => true | Some _ => false end
  | Detected (Some (_ :: _)) => false
  | Sidebar SelectItem i => in_range i (annotations ed)
  | _ => true
  end.

Lemma confirm_wf a ed : wf ed -> wf (confirmDiscardIfDirty a ed).1.
Proof. intros H. unfold confirmDiscardIfDirty. destruct (negb _); [keep H|]. destruct (negb a); keep H. Qed.

Lemma wf_switchFrame a f ed : wf ed -> wf (switchFrame a f ed).
Proof.
  intros H. unfold switchFrame. pose proof (confirm_wf a ed H) as H1.
  destruct (confirmDiscardIfDirty a ed) as [ed1 go]. destruct go; [keep (wf_reset ed1)|keep H1].
Qed.

Lemma wf_hit_down p anns i : -1 <= hit_down p anns i < Z.max (Z.of_nat i) 0.
Proof.
  induction i as [|i IH]; cbn [hit_down]; [lia|].
  destruct (anns !! i) as [a|]; [destruct (box_hit p a)|]; lia.
Qed.

Lemma sel_ok_none anns : sel_ok anns (-1).
Proof. unfold sel_ok. lia. Qed.

Lemma wf_draw_mode p ed : wf ed -> wf (startDrawing p ed).
Proof.
  intros [_ Hu Hd _]. split; [apply sel_ok_none|exact Hu|exact Hd|]. intros _. discriminate.
Qed.

Lemma wf_grab p ed : wf ed -> wf (grab_box p ed).
Proof.
  intros H. unfold grab_box. destruct (at_index _ _) as [a|] eqn:E.
  - apply at_index_inv in E. destruct (wf_push ed H) as [_ Hu Hd Hw].
    split; try assumption. change (sel_ok (annotations ed) (hitTestBoxes p (annotations ed))).
    unfold sel_ok. lia.
  - apply wf_draw_mode, H.
Qed.

Lemma wf_selected ed : wf ed -> (selectedIndex ed >=? 0) = true ->
  exists a, at_index (annotations ed) (selectedIndex ed) = Some a.
Proof. intros [[H1 H2] _ _ _] H. apply at_index_some. lia. Qed.

Lemma wf_edit f ed : wf ed -> (selectedIndex ed >=? 0) = true ->
  exists ed', edit_selected f ed = Some ed' /\ wf ed'.
Proof.
  intros H Hs. unfold edit_selected. destruct (wf_selected ed H Hs) as [a ->].
  eexists. split; [reflexivity|]. apply wf_alter, H.
Qed.

Lemma fine_down m ed : wf ed -> fine (onMouseDown m ed).
Proof.
  intros H. unfold onMouseDown. destruct (negb (button m =? 0)); [keep H|].
  assert (H1 : wf (hideLabelPicker ed)) by keep H.
  set (ed1 := hideLabelPicker ed) in *. clearbody ed1. destruct (shiftKey m).
  { apply wf_draw_mode, H1. }
  destruct (selectedIndex ed1 >=? 0) eqn:E; [|apply wf_grab, H1].
  destruct (wf_selected ed1 H1 E) as [a ->]. destruct (hitTestHandles _ a).
  - keep (wf_push ed1 H1).
  - apply wf_grab, H1.
Qed.

Lemma fine_move m ed : wf ed -> fine (onMouseMove m ed).
Proof.
  intros H. unfold onMouseMove. destruct (isDrawing ed) eqn:D; [keep H|].
  destruct (isDragging ed && (selectedIndex ed >=? 0)) eqn:E1; bool_to_prop.
  { destruct (wf_edit (drag_box (mouseToImage m ed) ed) ed H) as (ed' & -> & Hw); [assumption|keep Hw]. }
  destruct (isResizing ed && (selectedIndex ed >=? 0)) eqn:E2; bool_to_prop.
  { destruct (wf_edit (doResize (mouseToImage m ed) ed) ed H) as (ed' & -> & Hw); [assumption|keep Hw]. }
  unfold updateCursor. destruct (shiftKey m); [keep H|].
  destruct (selectedIndex ed >=? 0) eqn:E3; [|keep H].
  destruct (wf_selected ed H E3) as [a ->]. destruct (hitTestHandles _ a); keep H.
Qed.

Lemma fine_up m ed : wf ed -> fine (onMouseUp m ed).
Proof.
  intros H. unfold onMouseUp. destruct (negb (button m =? 0)); [keep H|].
  destruct (isDrawing ed) eqn:D.
  - destruct H as [Hs Hu Hd Hw].
    change (drawStart (ed <| isDrawing := false |>)) with (drawStart ed).
    destruct (drawStart ed) as [p0|]; [|exfalso; apply Hw; [exact D|reflexivity]].
    destruct (too_small _); (split; try assumption; discriminate).
  - assert (H1 : wf (finish_drag ed)) by (unfold finish_drag; destruct (isDragging ed); keep H).
    unfold finish_resize. destruct (isResizing (finish_drag ed)); [|keep H1].
    set (ed1 := finish_drag ed <| isResizing := false |> <| resizeHandle := None |>).
    assert (H2 : wf ed1) by keep H1. clearbody ed1.
    destruct (selectedIndex ed1 >=? 0) eqn:E; [|keep H2].
    destruct (wf_edit normalize_ann ed1 H2 E) as (ed' & -> & Hw). exact Hw.
Qed.

Lemma wf_pick l ed : wf ed -> wf (pick_label l ed).
Proof.
  intros H. unfold pick_label. destruct (labelPicker ed) as [r|]; [|keep H].
  keep (wf_added l r _ (wf_push ed H)).
Qed.

Lemma fine_step ev ed : wf ed -> benign ed ev = true -> fine (step ev ed).
Proof.
  intros H B. destruct ev; cbn [step fine].
  - apply fine_down, H.
  - apply fine_move, H.
  - apply fine_up, H.
  - unfold keydown. destruct (negb _), in_input; try keep H. destruct k; try keep H.
    + apply wf_undone, H.
    + destruct (_ >=? 0); [apply wf_deleted|]; keep H.
    + destruct (_ >=? 0); [apply wf_deleted|]; keep H.
    + destruct (isDrawing ed) eqn:D; [|keep H].
      destruct H as [? ? ? ?]. split; try assumption. discriminate.
  - destruct b; cbn [sidebar_click].
    + cbn in B. apply in_range_spec in B. destruct H as [? ? ? ?]. split; try assumption.
      change (sel_ok (annotations ed) index). unfold sel_ok. lia.
    + apply wf_accept, H.
    + apply wf_deleted, H.
  - apply wf_pick, H.
  - unfold enter_label. set (lbl := toLowerCase (trim input)). destruct (valid_label lbl); [|keep H].
    pose proof (wf_pick lbl ed H) as H1. set (ed1 := pick_label lbl ed) in *. clearbody ed1.
    destruct (labelPicker ed) as [r|]; [|keep H].
    destruct (_ =? -1); keep H1.
  - apply wf_relabel, H.
  - apply wf_acceptAll, H.
  - unfold open. keep H.
  - unfold close. pose proof (confirm_wf answer ed H) as H1.
    destruct (confirmDiscardIfDirty answer ed) as [ed1 go]. destruct go; [|keep H1].
    keep (wf_reset (hideLabelPicker (ed1 <| panelOpen := false |>))).
  - unfold navGuard. destruct (negb _); [keep H|]. destruct (negb answer); keep H.
  - apply wf_switchFrame, H.
  - unfold switchEvent. pose proof (confirm_wf answer ed H) as H1.
    destruct (confirmDiscardIfDirty answer ed) as [ed1 go]. destruct go; [|keep H1].
    keep (wf_reset (ed1 <| eventId := eid |>)).
  - unfold image_onload. keep H.
  - unfold image_onerror. destruct (_ && _); [apply wf_switchFrame, H|keep H].
  - unfold load_done. destruct resp as [r|]; [|keep H]. cbn in B. unfold applyEventData.
    destruct (lr_detectionData r); [discriminate|]. destruct (String.eqb preferredFrame ""); keep H.
  - unfold saved_done. destruct saved as [|x saved]; [keep H|]. destruct H as [Hs Hu Hd Hw].
    split; try assumption. apply sel_ok_none.
  - unfold detect. destruct (negb _); [keep H|]. destruct (String.eqb _ _); keep H.
  - unfold detect_done. destruct resp as [[|d ds]|]; [keep H|discriminate|keep H].
  - unfold save. destruct (String.eqb _ _); [keep H|]. destruct (_ && _); keep H.
  - unfold save_done. destruct resp as [[ls|]|]; keep H.
  - unfold deleteAll. destruct (negb _); keep H.
  - unfold deleteAll_done. destruct ok; [|keep H]. destruct H as [_ _ _ Hw].
    split; [apply sel_ok_nil|exact (Forall_nil_2 _)|exact (Nat.le_0_l 50)|exact Hw].
Qed.

Fixpoint all_benign (ed : state) (evs : list event) : bool :=
  match evs with
  | [] => true
  | ev :: evs => benign ed ev && all_benign (result (step ev ed)) evs
  end.

(** C11: as long as no detections arrive, no sequence of mouse, keyboard and
    sidebar actions, loads and saves makes the editor fail: the selection is
    always an existing annotation or none, every undo step holds such a state,
    there are at most fifty of them, and no handler raises a TypeError. *)
Theorem editor_invariant (eid : string) (evs : list event) :
  all_benign (create eid) evs = true ->
  wf (run (create eid) evs) /\
  (forall ev, benign (run (create eid) evs) ev = true -> fine (step ev (run (create eid) evs))).
Proof.
  assert (W : wf (create eid)).
  { split; [apply sel_ok_nil|exact (Forall_nil_2 _)|exact (Nat.le_0_l 50)|discriminate]. }
  revert W. generalize (create eid) as ed. induction evs as [|ev evs IH]; intros ed W B.
  - split; [exact W|]. intros ev Hev. apply fine_step; assumption.
  - cbn [all_benign] in B. apply andb_true_iff in B as [B1 B2].
    pose proof (fine_step ev ed W B1) as F. unfold run. cbn [fold_left].
    apply IH; [|exact B2]. destruct (step ev ed); [exact F|destruct F].
Qed.

Lemma editor_invariant_witness :
  let evs := [ImageLoaded (Fin 640) (Fin 480);
              MouseDown (Mouse (Fin 10) (Fin 10) 0 false zero zero (Fin 640) (Fin 480));
              MouseUp (Mouse (Fin 60) (Fin 80) 0 false zero zero (Fin 640) (Fin 480));
              PickLabel "person"; Key Delete_key false; Key CtrlZ false] in
  wf (run (create "1") evs) /\
  (forall ev, benign (run (create "1") evs) ev = true -> fine (step ev (run (create "1") evs))).
Proof. apply (editor_invariant "1"). vm_compute. reflexivity. Defined.

(** What a detection leaves of the list. *)
Definition kept (ed : state) : list ann := List.filter (fun a => negb (pending a)) (annotations ed).

(** The selection is not adjusted when detections replace the pending boxes:
    with the selected index past the new list, the next left click raises a
    TypeError and does nothing. *)
Theorem stale_selection_throws (ed : state) (d : detection) (ds : list detection) (m : mouse) :
  Z.of_nat (length (kept ed) + length (d :: ds)) <= selectedIndex ed ->
  button m = 0 -> shiftKey m = false ->
  exists ed', onMouseDown m (detect_done (Some (d :: ds)) ed) = Throw ed' /\
    annotations ed' = (kept ed ++ map detected (d :: ds))%list /\ isDrawing ed' = isDrawing ed /\
    isDragging ed' = isDragging ed /\ isResizing ed' = isResizing ed.
Proof.
  intros Hs Hb Hsh. set (ed1 := detect_done (Some (d :: ds)) ed).
  assert (A1 : annotations ed1 = (kept ed ++ map detected (d :: ds))%list) by reflexivity.
  assert (A2 : selectedIndex ed1 = selectedIndex ed) by reflexivity.
  assert (A3 : isDrawing ed1 = isDrawing ed /\ isDragging ed1 = isDragging ed /\
               isResizing ed1 = isResizing ed) by (repeat split; reflexivity).
  clearbody ed1. unfold onMouseDown. rewrite Hb, Hsh. cbn [negb Z.eqb].
  change (selectedIndex (hideLabelPicker ed1)) with (selectedIndex ed1).
  change (annotations (hideLabelPicker ed1)) with (annotations ed1).
  rewrite A2. destruct (selectedIndex ed >=? 0) eqn:E; [|lia].
  destruct (at_index (annotations ed1) (selectedIndex ed)) as [a|] eqn:G.
  { apply at_index_inv in G. rewrite A1, length_app, length_map in G. lia. }
  eexists. split; [reflexivity|]. exact (conj A1 A3).
Qed.

Definition demo_box (x : Z) (p : bool) : ann :=
  Ann "car" (num_of_Z x) (Fin 0) (num_of_Z (x + 20)) (Fin 20) zero p.
Definition demo_detection : detection :=
  Detection "dog" "" "" (Fin (1 # 2)) zero (Some [Fin 0; Fin 0; Fin 30; Fin 30]) None.
Definition demo (sel : Z) (p : bool) : state :=
  create "1" <| annotations := [demo_box 0 p; demo_box 100 p; demo_box 200 p] |>
             <| selectedIndex := sel |> <| canvasW := Fin 640 |> <| canvasH := Fin 480 |>.

Lemma stale_selection_throws_witness :
  exists ed', onMouseDown (Mouse (Fin 10) (Fin 10) 0 false zero zero (Fin 640) (Fin 480))
                (detect_done (Some [demo_detection]) (demo 2 true)) = Throw ed' /\
    annotations ed' = (kept (demo 2 true) ++ map detected [demo_detection])%list /\
    isDrawing ed' = false /\ isDragging ed' = false /\ isResizing ed' = false.
Proof.
  apply (stale_selection_throws (demo 2 true) demo_detection []); [|reflexivity..].
  vm_compute. discriminate.
Defined.

(** ** Deleting *)

Lemma lookup_splice {A} (xs : list A) i j :
  0 <= i -> 0 <= j ->
  at_index (splice i xs) j = if j <? i then at_index xs j else at_index xs (j + 1).
Proof.
  intros Hi Hj. unfold at_index, splice.
  replace (j <? 0) with false by lia. replace (j + 1 <? 0) with false by lia.
  destruct (j <? i) eqn:E; bool_to_prop.
  - apply list_lookup_delete_lt. lia.
  - rewrite list_lookup_delete_ge by lia. f_equal. lia.
Qed.

Lemma delete_parts i ed :
  in_range i (annotations ed) = true ->
  let ed' := deleteAnnotation i ed in
  annotations ed' = splice i (annotations ed) /\
  selectedIndex ed' = selection_after (selectedIndex ed) i (Z.of_nat (length (annotations ed)) - 1).
Proof.
  intros H. pose proof H as H'. apply in_range_spec in H'. cbv zeta. unfold deleteAnnotation. rewrite H.
  cbn [negb]. rewrite <- (splice_length i (annotations ed)) by lia.
  destruct (_ && _); split; reflexivity.
Qed.

(** Deleting a box removes exactly that box, and the selection stays on the
    box it was on (or on none, when that box is the one deleted), for every
    selection but the last box of the list. *)
Theorem delete_keeps_selection (ed : state) (i : Z) :
  wf ed -> in_range i (annotations ed) = true ->
  selectedIndex ed < Z.of_nat (length (annotations ed)) - 1 ->
  let ed' := deleteAnnotation i ed in
  annotations ed' = delete (Z.to_nat i) (annotations ed) /\
  at_index (annotations ed') (selectedIndex ed') =
    (if selectedIndex ed =? i then None else at_index (annotations ed) (selectedIndex ed)).
Proof.
  intros [[Hs1 Hs2] _ _ _] Hi Hl. destruct (delete_parts i ed Hi) as [Ha Hsel]. cbv zeta.
  rewrite Ha, Hsel. split; [reflexivity|]. apply in_range_spec in Hi.
  unfold selection_after. rewrite !Z.geb_leb, !Z.gtb_ltb.
  replace (Z.of_nat (length (annotations ed)) - 1 <=? selectedIndex ed) with false by lia.
  destruct (selectedIndex ed =? i) eqn:E1; [reflexivity|]. bool_to_prop.
  destruct (i <? selectedIndex ed) eqn:E2; bool_to_prop.
  - rewrite lookup_splice by lia. replace (selectedIndex ed - 1 <? i) with false by lia.
    f_equal. lia.
  - destruct (decide (selectedIndex ed = -1)) as [E|E].
    + rewrite E. reflexivity.
    + rewrite lookup_splice by lia. replace (selectedIndex ed <? i) with true by lia. reflexivity.
Qed.

Lemma delete_keeps_selection_witness :
  let ed' := deleteAnnotation 0 (demo 1 false) in
  annotations ed' = delete 0%nat (annotations (demo 1 false)) /\
  at_index (annotations ed') (selectedIndex ed') = at_index (annotations (demo 1 false)) 1.
Proof.
  apply (delete_keeps_selection (demo 1 false) 0); [|reflexivity..].
  split; [split; vm_compute; congruence|apply Forall_nil_2|apply (Nat.le_0_l 50)|discriminate].
Defined.

(** With the last box selected the correction for the shortened list runs
    before the index is compared, so deleting any other box loses the selection:
    the box that was selected is then at the end of the list, and what is
    selected is the box before it, or none. *)
Theorem delete_loses_last_selection (ed : state) (i : Z) :
  let len := Z.of_nat (length (annotations ed)) in
  0 <= i < len - 1 -> selectedIndex ed = len - 1 ->
  let ed' := deleteAnnotation i ed in
  at_index (annotations ed') (len - 2) = at_index (annotations ed) (selectedIndex ed) /\
  selectedIndex ed' = (if i =? len - 2 then -1 else len - 3) /\
  selectedIndex ed' <> len - 2.
Proof.
  intros len Hi Hs. cbv zeta.
  destruct (delete_parts i ed) as [Ha Hsel]; [apply in_range_spec; lia|].
  rewrite Ha, Hsel, Hs. fold len. split.
  - rewrite lookup_splice by lia. replace (len - 2 <? i) with false by lia. f_equal. lia.
  - unfold selection_after. rewrite !Z.geb_leb, !Z.gtb_ltb.
    replace (len - 1 <=? len - 1) with true by lia. replace (len - 1 - 1) with (len - 2) by lia.
    rewrite (Z.eqb_sym i). destruct (len - 2 =? i) eqn:E; bool_to_prop; [lia|].
    replace (i <? len - 2) with true by lia. lia.
Qed.

Lemma delete_loses_last_selection_witness :
  let ed' := deleteAnnotation 0 (demo 2 false) in
  at_index (annotations ed') 1 = at_index (annotations (demo 2 false)) 2 /\
  selectedIndex ed' = 0 /\ selectedIndex ed' <> 1.
Proof. apply (delete_loses_last_selection (demo 2 false) 0); vm_compute; split; congruence. Defined.

(** ** Undo *)

(** The edits that can be taken back. *)
Inductive edit :=
| EPick (lbl : string) | EDelete (i : Z) | EAccept (i : Z) | EAcceptAll | ERelabel (i : Z) (lbl : string)
| EDetect (ds : list detection).

Definition apply_edit (x : edit) (ed : state) : state :=
  match x with
  | EPick l => pick_label l ed
  | EDelete i => deleteAnnotation i ed
  | EAccept i => acceptAnnotation i ed
  | EAcceptAll => acceptAllAnnotations ed
  | ERelabel i l => relabelAnnotation i l ed
  | EDetect ds => detect_done (Some ds) ed
  end.

Definition pushed (ed ed' : state) : Prop :=
  undoStack ed' = capped (undoStack ed ++ [(annotations ed, selectedIndex ed)]).

Lemma undo_pushed ed ed' :
  pushed ed ed' -> annotations (undo ed') = annotations ed /\ selectedIndex (undo ed') = selectedIndex ed.
Proof.
  unfold pushed, capped. intros H. unfold undo. rewrite H, last_push. split; reflexivity.
Qed.

Lemma edit_pushes x ed : annotations (apply_edit x ed) = annotations ed \/ pushed ed (apply_edit x ed).
Proof.
  destruct x as [l|i|i| |i l|ds]; cbn [apply_edit].
  - unfold pick_label. destruct (labelPicker ed); [right|left]; reflexivity.
  - unfold deleteAnnotation. destruct (negb _); [left; reflexivity|]. right. destruct (_ && _); reflexivity.
  - unfold acceptAnnotation. destruct (negb _); [left; reflexivity|].
    destruct (at_index _ _) as [a|]; [|left; reflexivity].
    destruct (negb _); [left|right]; reflexivity.
  - unfold acceptAllAnnotations. destruct (existsb _ _); [right|left]; reflexivity.
  - unfold relabelAnnotation. destruct (negb _); [left|right]; reflexivity.
  - destruct ds; [left|right]; reflexivity.
Qed.



(** ** Hit testing *)

Lemma hit_down_spec p anns i :
  (hit_down p anns i = -1 /\ forall j a, (j < i)%nat -> anns !! j = Some a -> box_hit p a = false) \/
  (exists k a, hit_down p anns i = Z.of_nat k /\ anns !! k = Some a /\ box_hit p a = true /\
     forall j a', (k < j < i)%nat -> anns !! j = Some a' -> box_hit p a' = false).
Proof.
  induction i as [|i IH]; cbn [hit_down].
  - left. split; [reflexivity|]. lia.
  - destruct (anns !! i) as [a|] eqn:E; [destruct (box_hit p a) eqn:Hb|].
    + right. exists i, a. repeat split; try assumption. lia.
    + destruct IH as [[-> H]|(k & a' & -> & Hk & Hb' & H)].
      * left. split; [reflexivity|]. intros j a' Hj Ha. destruct (decide (j = i)) as [->|]; [congruence|].
        apply (H j); [lia|exact Ha].
      * right. exists k, a'. repeat split; try assumption. intros j a'' Hj Ha.
        destruct (decide (j = i)) as [->|]; [congruence|]. apply (H j); [lia|exact Ha].
    + destruct IH as [[-> H]|(k & a' & -> & Hk & Hb' & H)].
      * left. split; [reflexivity|]. intros j a' Hj Ha. destruct (decide (j = i)) as [->|]; [congruence|].
        apply (H j); [lia|exact Ha].
      * right. exists k, a'. repeat split; try assumption. intros j a'' Hj Ha.
        destruct (decide (j = i)) as [->|]; [congruence|]. apply (H j); [lia|exact Ha].
Qed.

(** A point hits the topmost box that contains it: the one with the largest
    index, and -1 exactly when no box contains it. *)
Theorem hitTestBoxes_topmost (p : pt) (anns : list ann) :
  (hitTestBoxes p anns = -1 /\ Forall (fun a => box_hit p a = false) anns) \/
  (exists k a, hitTestBoxes p anns = Z.of_nat k /\ anns !! k = Some a /\ box_hit p a = true /\
     forall j a', (k < j)%nat -> anns !! j = Some a' -> box_hit p a' = false).
Proof.
  unfold hitTestBoxes. destruct (hit_down_spec p anns (length anns)) as [[-> H]|(k & a & E & Hk & Hb & H)].
  - left. split; [reflexivity|]. apply Forall_lookup. intros j a Ha.
    apply (H j); [eapply lookup_lt_Some; exact Ha|exact Ha].
  - right. exists k, a. repeat split; try assumption. intros j a' Hj Ha.
    apply (H j); [|exact Ha]. split; [exact Hj|]. eapply lookup_lt_Some. exact Ha.
Qed.

(** ** Dragging and resizing stay on the canvas *)

(** The canvas of an image of W by H pixels. *)
Definition canvas_of (W H : Z) (ed : state) : Prop :=
  canvasW ed = Fin (inject_Z W) /\ canvasH ed = Fin (inject_Z H) /\
  0 < W <= 2 ^ 51 /\ 0 < H <= 2 ^ 51.

Definition span_ok (W : Z) (a b : num) : Prop :=
  nle (Fin 0) a /\ nle a b /\ nle b (Fin (inject_Z W)).

Definition in_canvas (W H : Z) (a : ann) : Prop :=
  span_ok W (x1 a) (x2 a) /\ span_ok H (y1 a) (y2 a).

Lemma clamp_bounds v l :
  v <> NaN -> (0 <= l)%Q -> nle (Fin 0) (clamp v (Fin l)) /\ nle (clamp v (Fin l)) (Fin l).
Proof.
  intros Hv Hl. unfold clamp, zero. destruct v as [|[]|v]; [congruence| | |]; cbn [nmin nleb];
    cbn [nmax nleb]; try (split; apply nle_Fin; lra).
  - destruct (Qle_bool 0 l) eqn:E; [split; apply nle_Fin; lra|]. apply Qle_bool_false in E. exfalso. lra.
  - destruct (Qle_bool v l) eqn:E; cbn [nmax nleb].
    + apply Qle_bool_iff in E. destruct (Qle_bool 0 v) eqn:E0; split; apply nle_Fin; try lra;
        apply Qle_bool_iff in E0; lra.
    + destruct (Qle_bool 0 l) eqn:E0; [split; apply nle_Fin; lra|]. apply Qle_bool_false in E0. exfalso. lra.
Qed.

Lemma clamp_wf v l : JsNum.wf v -> double l -> (- huge < l < huge)%Q -> (0 <= l)%Q -> JsNum.wf (clamp v (Fin l)).
Proof.
  intros Hv Hd Hr Hl. unfold clamp, zero.
  assert (W0 : JsNum.wf (Fin 0)) by (apply (wf_Z 0); lia).
  assert (Wl : JsNum.wf (Fin l)) by (split; assumption).
  destruct v as [|[]|v]; [destruct Hv| | |]; cbn [nmin nleb]; cbn [nmax nleb]; try exact W0.
  - destruct (Qle_bool 0 l); assumption.
  - destruct (Qle_bool v l); cbn [nmax nleb]; [destruct (Qle_bool 0 v)|destruct (Qle_bool 0 l)]; assumption.
Qed.

Lemma drag_span (W : Z) (v : num) (q : Q) :
  0 < W <= 2 ^ 51 -> JsNum.wf v -> (0 <= q)%Q -> (q <= inject_Z W)%Q ->
  span_ok W (clamp v (Fin (inject_Z W) - Fin q)) (clamp v (Fin (inject_Z W) - Fin q) + Fin q).
Proof.
  intros HW Hv Hq0 HqW. destruct (wf_Z W ltac:(lia)) as [HWd HWr].
  assert (W0 : JsNum.wf (Fin 0)) by (apply (wf_Z 0); lia). destruct W0 as [W0 W0r].
  assert (El : exists l, (Fin (inject_Z W) - Fin q)%num = Fin l /\ (l <= rndq (inject_Z W - q))%Q /\
                         double l /\ (0 <= l)%Q /\ (l <= inject_Z W)%Q).
  { assert (E : (inject_Z W + Qred (- q) == inject_Z W - q)%Q) by (rewrite Qred_correct; reflexivity).
    pose proof (double_rndq (inject_Z W + Qred (- q))) as D.
    pose proof (rndq_proper _ _ E) as E'.
    assert (L0 : (0 <= rndq (inject_Z W - q))%Q) by (apply rndq_ge_double; [exact W0|lra]).
    assert (L1 : (rndq (inject_Z W - q) <= inject_Z W)%Q) by (apply rndq_le_double; [exact HWd|lra]).
    exists (rndq (inject_Z W + Qred (- q))). split; [|repeat split; try assumption; lra].
    unfold nsub. cbn [nopp nadd]. unfold rnd.
    rewrite !(proj2 (Qle_bool_false _ _)); [reflexivity| |]; lra. }
  destruct El as (l & -> & Hle & Hld & Hl0 & HlW).
  destruct (clamp_bounds v l) as [C0 C1]; [destruct v; [destruct Hv|discriminate..]|exact Hl0|].
  assert (Cw : JsNum.wf (clamp v (Fin l))).
  { apply clamp_wf; try assumption. lra. }
  destruct (clamp v (Fin l)) as [|[]|c]; try discriminate C0; try discriminate C1.
  rewrite !nle_Fin in C0, C1. destruct Cw as [Cd Cr]. split; [apply nle_Fin; exact C0|].
  cbn [nadd]. split.
  - apply rnd_ge_wf; [exact Cd|exact Cr|lra].
  - apply rnd_le_rndq; [exact HWr|]. apply (sub_add_bound W q c); try assumption. lra.
Qed.

Lemma nabs_span a b W :
  nle (nabs (b - a)%num) (Fin W) -> exists q, nabs (b - a)%num = Fin q /\ (0 <= q)%Q /\ (q <= W)%Q.
Proof.
  destruct (b - a)%num as [|[]|q]; try discriminate. cbn [nabs]. rewrite nle_Fin.
  exists (Qred (Qabs q)). split; [reflexivity|]. split; [|assumption].
  rewrite Qred_correct. apply Qabs_nonneg.
Qed.

Lemma nsub_wf a b : isFinite a = true -> isFinite b = true -> JsNum.wf (a - b)%num.
Proof. destruct a, b; try discriminate. intros _ _. apply rnd_wf. Qed.

(** Dragging a box keeps all of it on the canvas, at every mouse position
    and in floating-point arithmetic: its left and top edges are at least 0, and
    its right and bottom edges - the clamped edge plus the size, rounded - do not
    pass the canvas's. *)
Theorem drag_in_canvas (W H : Z) (pos : pt) (ed : state) (a : ann) :
  canvas_of W H ed ->
  isFinite (px pos) = true -> isFinite (py pos) = true ->
  isFinite (px (dragOffset ed)) = true -> isFinite (py (dragOffset ed)) = true ->
  nle (nabs (x2 a - x1 a)%num) (Fin (inject_Z W)) -> nle (nabs (y2 a - y1 a)%num) (Fin (inject_Z H)) ->
  in_canvas W H (drag_box pos ed a).
Proof.
  intros (CW & CH & HW & HH) F1 F2 F3 F4 Sx Sy. unfold in_canvas, drag_box.
  destruct (nabs_span _ _ _ Sx) as (qx & -> & Qx0 & QxW).
  destruct (nabs_span _ _ _ Sy) as (qy & -> & Qy0 & QyH).
  rewrite CW, CH. split.
  - apply (drag_span W (px pos - px (dragOffset ed))%num qx); try assumption. apply nsub_wf; assumption.
  - apply (drag_span H (py pos - py (dragOffset ed))%num qy); try assumption. apply nsub_wf; assumption.
Qed.

Definition demo_drag : state := demo 0 false <| dragOffset := Pt (Fin 5) (Fin 5) |>.

Lemma drag_in_canvas_witness :
  in_canvas 640 480 (drag_box (Pt (Fin (9999 # 7)) (Fin (- (1 # 3)))) demo_drag (demo_box 100 false)).
Proof.
  apply drag_in_canvas; try reflexivity. split; [reflexivity|]. split; [reflexivity|]. lia.
Defined.

(** Both ends of an edge within the canvas, in either order. *)
Definition within (W : Z) (v : num) : Prop := nle (Fin 0) v /\ nle v (Fin (inject_Z W)).

Lemma within_clamp W v : 0 < W -> v <> NaN -> within W (clamp v (Fin (inject_Z W))).
Proof.
  intros HW Hv. apply clamp_bounds; [exact Hv|]. change 0%Q with (inject_Z 0). rewrite <- Zle_Qle. lia.
Qed.

Lemma within_span W a b : within W a -> within W b -> span_ok W (nmin a b) (nmax a b).
Proof.
  intros [A0 A1] [B0 B1]. unfold span_ok.
  destruct a as [|[]|p], b as [|[]|q]; try discriminate; cbn [nmin nmax nleb].
  rewrite !nle_Fin in *. destruct (Qle_bool p q) eqn:E;
    [apply Qle_bool_iff in E|apply Qle_bool_false in E]; rewrite !nle_Fin; lra.
Qed.

(** Resizing a box that lies on the canvas, by any handle and to any mouse
    position, and letting go leaves it on the canvas with its corners in order. *)
Theorem resize_in_canvas (W H : Z) (pos : pt) (ed : state) (a : ann) :
  canvas_of W H ed -> px pos <> NaN -> py pos <> NaN ->
  within W (x1 a) -> within W (x2 a) -> within H (y1 a) -> within H (y2 a) ->
  in_canvas W H (normalize_ann (doResize pos ed a)).
Proof.
  intros (CW & CH & HW & HH) Px Py X1 X2 Y1 Y2.
  pose proof (within_clamp W (px pos) ltac:(lia) Px) as Cx.
  pose proof (within_clamp H (py pos) ltac:(lia) Py) as Cy.
  unfold doResize. rewrite CW, CH. set (cx := clamp (px pos) _) in *. set (cy := clamp (py pos) _) in *.
  clearbody cx cy.
  destruct (resizeHandle ed) as [[]|]; (split; apply within_span; assumption).
Qed.

Lemma resize_in_canvas_witness :
  in_canvas 640 480 (normalize_ann (doResize (Pt (Infty false) (Fin (-3)))
    (demo 0 false <| resizeHandle := Some H_sw |>) (demo_box 100 false))).
Proof.
  apply resize_in_canvas; try discriminate; try (split; vm_compute; reflexivity).
  split; [reflexivity|]. split; [reflexivity|]. lia.
Defined.

(** ** Labels, most recently used first *)

Definition mem (x : string) (xs : list string) : bool := bool_decide (x ∈ xs).

Definition bucket (labels : list string) (r : string) : list string :=
  List.filter (fun l => bool_decide (l = r)) labels.

(** The labels in the order the picker should show them. *)
Definition mru_order (recent labels : list string) : list string :=
  (flat_map (bucket labels) recent ++
   List.filter (fun l => negb (mem l recent)) labels)%list.

Lemma insert_at cmp x A B :
  (forall a, a ∈ A -> 0 < cmp x a) -> (forall b, b ∈ B -> cmp x b <= 0) ->
  insert_by cmp x (A ++ B) = (A ++ x :: B)%list.
Proof.
  intros HA HB. induction A as [|a A IH]; cbn.
  - destruct B as [|b B]; [reflexivity|]. cbn. specialize (HB b ltac:(left)).
    replace (cmp x b <=? 0) with true by lia. reflexivity.
  - pose proof (HA a ltac:(left)). replace (cmp x a <=? 0) with false by lia.
    rewrite IH; [reflexivity|]. intros b Hb. apply HA. right. exact Hb.
Qed.

Lemma indexOf_nonneg x xs : x ∈ xs -> 0 <= indexOf x xs.
Proof.
  intros H. unfold indexOf. destruct (list_find_elem_of (fun y => y = x) xs x H eq_refl) as [[i y] E].
  rewrite E. lia.
Qed.

Lemma indexOf_none x xs : x ∉ xs -> indexOf x xs = -1.
Proof.
  intros H. unfold indexOf. destruct (list_find (fun y => y = x) xs) as [[i y]|] eqn:E; [|reflexivity].
  apply list_find_Some in E as (E & -> & _). exfalso. apply H. eapply list_elem_of_lookup_2. exact E.
Qed.

Lemma indexOf_app x r1 r2 : x ∉ r1 -> indexOf x (r1 ++ x :: r2) = Z.of_nat (length r1).
Proof.
  intros H. unfold indexOf.
  assert (list_find (fun y => y = x) (r1 ++ x :: r2) = Some (length r1, x)) as ->; [|reflexivity].
  apply list_find_Some. split; [apply list_lookup_middle; reflexivity|]. split; [reflexivity|].
  intros j y Hj Hy Ey. subst y. apply H. rewrite lookup_app_l in Hj by exact Hy.
  eapply list_elem_of_lookup_2. exact Hj.
Qed.

Lemma indexOf_lt x r1 r2 : x ∈ r1 -> 0 <= indexOf x (r1 ++ r2) < Z.of_nat (length r1).
Proof.
  intros H. split; [apply indexOf_nonneg, elem_of_app; left; exact H|].
  apply list_elem_of_split_l in H as (a & b & -> & Ha).
  rewrite <- app_assoc. cbn [app]. rewrite indexOf_app by exact Ha. rewrite length_app. cbn. lia.
Qed.

Lemma indexOf_ge x r1 r2 : x ∉ r1 -> x ∈ r2 -> Z.of_nat (length r1) <= indexOf x (r1 ++ r2).
Proof.
  intros H1 H2. apply list_elem_of_split_l in H2 as (a & b & -> & Ha). rewrite app_assoc.
  rewrite indexOf_app; [rewrite length_app; lia|]. rewrite elem_of_app. tauto.
Qed.

Lemma elem_of_bucket (x : string) (rs labels : list string) :
  x ∈ flat_map (bucket labels) rs -> x ∈ rs.
Proof.
  rewrite list_elem_of_In, in_flat_map. intros (r & Hr & Hx). apply filter_In in Hx as [_ Hx].
  apply bool_decide_eq_true in Hx as ->. apply list_elem_of_In. exact Hr.
Qed.

Lemma bucket_hit x labels : bucket (x :: labels) x = x :: bucket labels x.
Proof. unfold bucket. cbn. rewrite bool_decide_eq_true_2 by reflexivity. reflexivity. Qed.

Lemma bucket_miss x r labels : x <> r -> bucket (x :: labels) r = bucket labels r.
Proof. intros H. unfold bucket. cbn. rewrite bool_decide_eq_false_2 by exact H. reflexivity. Qed.

Lemma bucket_other (x : string) (rs labels : list string) :
  x ∉ rs -> flat_map (bucket (x :: labels)) rs = flat_map (bucket labels) rs.
Proof.
  induction rs as [|r rs IH]; intros H; [reflexivity|]. cbn [flat_map].
  apply not_elem_of_cons in H as [Hr H]. rewrite bucket_miss, IH by assumption. reflexivity.
Qed.

Lemma sort_mru recent labels :
  NoDup recent -> sort_by (compare_labels recent) labels = mru_order recent labels.
Proof.
  intros Hnd. unfold sort_by. induction labels as [|x labels IH]; cbn [fold_right].
  { unfold mru_order. cbn [List.filter]. rewrite app_nil_r.
    clear Hnd. induction recent as [|r recent IHr]; [reflexivity|exact IHr]. }
  rewrite IH. unfold mru_order. destruct (decide (x ∈ recent)) as [Hx|Hx].
  - apply list_elem_of_split_l in Hx as (r1 & r2 & -> & Hx1).
    pose proof (NoDup_app r1 (x :: r2)) as [N _]. specialize (N Hnd) as (_ & Hdis & N2).
    apply NoDup_cons in N2 as [Hx2 _].
    rewrite !flat_map_app. cbn [flat_map]. rewrite bucket_hit, !bucket_other by assumption.
    cbn [List.filter].
    unfold mem at 2. rewrite (bool_decide_eq_true_2 (x ∈ (r1 ++ x :: r2)%list))
      by (apply elem_of_app; right; left). cbn [negb]. rewrite <- !app_assoc.
    apply insert_at.
    + intros a Ha. apply elem_of_bucket in Ha. unfold compare_labels.
      rewrite indexOf_app by exact Hx1. pose proof (indexOf_lt a r1 (x :: r2) Ha).
      replace (Z.of_nat (length r1) =? -1) with false by lia.
      replace (indexOf a (r1 ++ x :: r2) =? -1) with false by lia. cbn [andb]. lia.
    + intros b Hb. unfold compare_labels. rewrite indexOf_app by exact Hx1.
      pose proof (Nat2Z.is_nonneg (length r1)).
      replace (Z.of_nat (length r1) =? -1) with false by lia. cbn [andb].
      destruct (indexOf b (r1 ++ x :: r2) =? -1) eqn:E; [lia|].
      enough (Z.of_nat (length r1) <= indexOf b (r1 ++ x :: r2)) by lia.
      apply elem_of_app in Hb as [Hb|Hb].
      { apply list_elem_of_In, filter_In in Hb as [_ Hb]. apply bool_decide_eq_true in Hb as ->.
        rewrite indexOf_app by exact Hx1. lia. }
      apply elem_of_app in Hb as [Hb|Hb].
      { apply elem_of_bucket in Hb. apply indexOf_ge; [|right; exact Hb].
        intros C. apply (Hdis b C). right. exact Hb. }
      apply list_elem_of_In, filter_In in Hb as [_ Hb]. apply negb_true_iff in Hb.
      unfold mem in Hb. apply bool_decide_eq_false in Hb.
      rewrite indexOf_none in E by exact Hb. discriminate.
  - rewrite bucket_other by exact Hx. cbn [List.filter]. unfold mem at 2.
    rewrite bool_decide_eq_false_2 by exact Hx. cbn [negb]. apply insert_at.
    + intros a Ha. apply elem_of_bucket in Ha. unfold compare_labels.
      rewrite (indexOf_none x) by exact Hx. pose proof (indexOf_nonneg a recent Ha).
      replace (indexOf a recent =? -1) with false by lia. cbn. lia.
    + intros b Hb. apply list_elem_of_In, filter_In in Hb as [_ Hb]. apply negb_true_iff in Hb.
      unfold mem in Hb. apply bool_decide_eq_false in Hb. unfold compare_labels.
      rewrite !indexOf_none by assumption. cbn. lia.
Qed.

(** The label picker lists the labels used, the latest first, then the rest
    in the order they came; and using a label keeps the history free of
    duplicates with that label in front. *)
Theorem getSortedLabels_mru (ed : state) (lbl : string) :
  NoDup (recentLabels ed) ->
  getSortedLabels ed = mru_order (recentLabels ed) (classLabels ed) /\
  NoDup (recentLabels (trackLabelUsage lbl ed)) /\
  head (recentLabels (trackLabelUsage lbl ed)) = Some lbl.
Proof.
  intros Hnd. split; [apply sort_mru, Hnd|]. split; [|reflexivity].
  change (recentLabels (trackLabelUsage lbl ed)) with
    (lbl :: (if indexOf lbl (recentLabels ed) >=? 0
             then splice (indexOf lbl (recentLabels ed)) (recentLabels ed) else recentLabels ed)).
  destruct (decide (lbl ∈ recentLabels ed)) as [H|H].
  - apply list_elem_of_split_l in H as (a & b & E & Ha). rewrite E in *.
    rewrite indexOf_app by exact Ha. pose proof (Nat2Z.is_nonneg (length a)).
    replace (Z.of_nat (length a) >=? 0) with true by lia.
    unfold splice. rewrite Nat2Z.id, delete_middle.
    apply NoDup_app in Hnd as (Na & Hd & Nb). apply NoDup_cons in Nb as [Hb Nb].
    apply NoDup_cons. split.
    + rewrite elem_of_app. tauto.
    + apply NoDup_app. split; [exact Na|]. split; [|exact Nb].
      intros x Hx Hxb. apply (Hd x Hx). right. exact Hxb.
  - rewrite indexOf_none by exact H. cbn. apply NoDup_cons. split; assumption.
Qed.

Definition label_demo : state :=
  create "1" <| classLabels := ["car"; "cat"; "dog"; "person"] |> <| recentLabels := ["person"; "cat"] |>.

Lemma getSortedLabels_mru_witness :
  getSortedLabels label_demo = mru_order (recentLabels label_demo) (classLabels label_demo) /\
  NoDup (recentLabels (trackLabelUsage "cat" label_demo)) /\
  head (recentLabels (trackLabelUsage "cat" label_demo)) = Some "cat".
Proof.
  apply (getSortedLabels_mru label_demo "cat"). apply (bool_decide_unpack _). vm_compute. exact I.
Defined.

Example getSortedLabels_demo : getSortedLabels label_demo = ["person"; "cat"; "car"; "dog"].
Proof. vm_compute. reflexivity. Qed.

(** ** Page numbers *)

(** Neighbouring numbers are consecutive; only an ellipsis skips. *)
Fixpoint gaps_marked (pages : list (option Z)) : Prop :=
  match pages with
  | Some a :: ((Some b :: _) as rest) => b = a + 1 /\ gaps_marked rest
  | Some a :: ((None :: Some b :: _) as rest) => a + 1 < b /\ gaps_marked rest
  | _ :: rest => gaps_marked rest
  | [] => True
  end.

Lemma gaps_range a n : gaps_marked (map (fun k => Some (a + Z.of_nat k)) (seq 0 n)).
Proof.
  assert (G : forall m i, gaps_marked (map (fun k => Some (a + Z.of_nat k)) (seq i m))).
  { induction m as [|m IH]; intros i; [exact I|].
    change (seq i (S m)) with (i :: seq (S i) m). cbn [map].
    specialize (IH (S i)). destruct m; [exact I|]. cbn [seq map] in *. split; [lia|exact IH]. }
  apply G.
Qed.

Lemma elem_range x a b : a <= x <= b -> In x (range a b).
Proof.
  intros H. unfold range. apply in_map_iff. exists (Z.to_nat (x - a)). split; [cbv beta; lia|].
  apply in_seq. lia.
Qed.

Lemma range_S a k : map (fun i => a + Z.of_nat i) (seq 0 (S k)) = a :: map (fun i => a + Z.of_nat i) (seq 1 k).
Proof. change (Z.of_nat 0) with 0. cbn [seq map]. rewrite Z.add_0_r. reflexivity. Qed.

Lemma range_3 a : range a (a + 2) = [a; a + 1; a + 2].
Proof. unfold range. replace (a + 2 - a + 1) with 3 by lia. apply (range_S a 2). Qed.
Lemma range_2 a : range a (a + 1) = [a; a + 1].
Proof. unfold range. replace (a + 1 - a + 1) with 2 by lia. apply (range_S a 1). Qed.
Lemma range_1 a : range a a = [a].
Proof. unfold range. replace (a - a + 1) with 1 by lia. apply (range_S a 0). Qed.

Ltac pages :=
  cbn [app map]; repeat apply conj;
  try (cbn [length]; lia); try (cbn [gaps_marked]; repeat split; lia);
  cbn [In]; repeat first [left; f_equal; lia | right].

(** The page numbers offered always include the first, the last and the
    current page, never take more than seven places, and skip pages only where
    an ellipsis shows it. *)
Theorem buildPageNumbers_spec (current last : Z) :
  1 <= current <= last ->
  let pages := buildPageNumbers current last in
  In (Some 1) pages /\ In (Some last) pages /\ In (Some current) pages /\
  (length pages <= 7)%nat /\ gaps_marked pages.
Proof.
  intros Hc. cbv zeta. unfold buildPageNumbers. destruct (last <=? 7) eqn:E; bool_to_prop.
  { repeat split; try (apply in_map, elem_range; lia).
    - rewrite length_map. unfold range. rewrite length_map, length_seq. lia.
    - unfold range. rewrite map_map. apply gaps_range. }
  assert (Hcase : current = 1 \/ current = 2 \/ current = 3 \/ current = last \/ current = last - 1 \/
                  current = last - 2 \/ 3 < current < last - 2) by lia.
  destruct Hcase as [->|[->|[->|[->|[->|[->|Hm]]]]]].
  all: rewrite ?Z.max_r, ?Z.max_l, ?Z.min_l, ?Z.min_r by lia.
  - change (range 2 (1 + 1)) with [2]. cbn. replace (1 + 1 <? last - 1) with true by lia. pages.
  - change (range 2 (2 + 1)) with [2; 3]. cbn. replace (2 + 1 <? last - 1) with true by lia. pages.
  - change (range (3 - 1) (3 + 1)) with [2; 3; 4]. cbn. replace (3 + 1 <? last - 1) with true by lia. pages.
  - rewrite range_1. replace (last - 1 >? 2) with true by lia.
    replace (last - 1 <? last - 1) with false by lia. pages.
  - replace (range (last - 1 - 1) (last - 1)) with [last - 1 - 1; last - 1 - 1 + 1]
      by (rewrite <- range_2; f_equal; lia).
    replace (last - 1 - 1 >? 2) with true by lia.
    replace (last - 1 <? last - 1) with false by lia. pages.
  - replace (range (last - 2 - 1) (last - 1)) with [last - 2 - 1; last - 2 - 1 + 1; last - 2 - 1 + 2]
      by (rewrite <- range_3; f_equal; lia).
    replace (last - 2 - 1 >? 2) with true by lia.
    replace (last - 1 <? last - 1) with false by lia. pages.
  - replace (range (current - 1) (current + 1)) with [current - 1; current - 1 + 1; current - 1 + 2]
      by (rewrite <- range_3; f_equal; lia).
    replace (current + 1) with (current - 1 + 2) by lia.
    replace (current - 1 >? 2) with true by lia.
    replace (current - 1 + 2 <? last - 1) with true by lia. pages.
Qed.

Lemma buildPageNumbers_spec_witness :
  buildPageNumbers 5 20 = [Some 1; None; Some 4; Some 5; Some 6; None; Some 20] /\
  let pages := buildPageNumbers 5 20 in
  In (Some 1) pages /\ In (Some 20) pages /\ In (Some 5) pages /\
  (length pages <= 7)%nat /\ gaps_marked pages.
Proof. split; [reflexivity|]. apply (buildPageNumbers_spec 5 20). lia. Defined.

End Editor.
