(* ===== verification/BrowseTree.v ===== *)
(** web/skins/classic/views/js/training.js, lines 30-107: the tree of training
    files that the browse panel keeps.

    A node is a file or a directory with its children; the functions look a path
    up, remove it, and list the files of a directory. *)
From S2P Require Import JsString.

Module Browse.

Inductive node := File (path name : string) | Dir (path name : string) (children : list node).

Definition node_path (x : node) : string := match x with File p _ | Dir p _ _ => p end.
Definition is_file (x : node) : bool := match x with File _ _ => true | Dir _ _ _ => false end.

(** [name.split('.').pop().toLowerCase()] *)
Definition extension (name : string) : string :=
  toLowerCase (default name (last (split_any "." name))).

Definition browseIsImage (name : string) : bool :=
  let ext := extension name in
  String.eqb ext "jpg" || String.eqb ext "jpeg" || String.eqb ext "png".

Definition browseIsText (name : string) : bool :=
  let ext := extension name in
  String.eqb ext "txt" || String.eqb ext "yaml" || String.eqb ext "yml".

Definition browseFileIcon (name : string) : string :=
  let ext := extension name in
  if String.eqb ext "jpg" || String.eqb ext "jpeg" || String.eqb ext "png" then "fa-file-image-o"
  else if String.eqb ext "txt" then "fa-file-text-o"
  else if String.eqb ext "yaml" || String.eqb ext "yml" then "fa-file-code-o"
  else "fa-file-o".

Definition browsePathStartsWith (full prefix : string) : bool :=
  String.eqb full prefix ||
  match index_of (prefix ++ "/") full with Some O => true | _ => false end.

Fixpoint find_node (x : node) (path : string) : option node :=
  if String.eqb (node_path x) path then Some x
  else match x with
       | File _ _ => None
       | Dir _ _ children =>
           (fix go (xs : list node) : option node :=
              match xs with
              | [] => None
              | x :: xs => match find_node x path with Some r => Some r | None => go xs end
              end) children
       end.

Fixpoint browseFindNode (nodes : list node) (path : string) : option node :=
  match nodes with
  | [] => None
  | x :: xs => match find_node x path with Some r => Some r | None => browseFindNode xs path end
  end.

(** [None] when the path is not below this node. *)
Fixpoint remove_node (x : node) (path : string) : option (option node) :=
  if String.eqb (node_path x) path then Some None
  else match x with
       | File _ _ => None
       | Dir p nm children =>
           match (fix go (xs : list node) : option (list node) :=
                    match xs with
                    | [] => None
                    | x :: xs =>
                        match remove_node x path with
                        | Some None => Some xs
                        | Some (Some x') => Some (x' :: xs)
                        | None => match go xs with Some xs' => Some (x :: xs') | None => None end
                        end
                    end) children with
           | Some children' => Some (Some (Dir p nm children'))
           | None => None
           end
       end.

(** The tree without the node, and whether there was one. *)
Fixpoint remove_from (nodes : list node) (path : string) : option (list node) :=
  match nodes with
  | [] => None
  | x :: xs =>
      match remove_node x path with
      | Some None => Some xs
      | Some (Some x') => Some (x' :: xs)
      | None => option_map (cons x) (remove_from xs path)
      end
  end.

Definition browseRemoveFromTree (nodes : list node) (path : string) : list node * bool :=
  match remove_from nodes path with Some xs => (xs, true) | None => (nodes, false) end.

Definition browseGetRootFiles (nodes : list node) : list node := List.filter is_file nodes.

(** The loop body of browseGetFilesForPath on one node: [Some files] returns. *)
Fixpoint node_files (x : node) (path : string) : option (list node) :=
  match x with
  | File _ _ => None
  | Dir p _ children =>
      if String.eqb p path then Some (List.filter is_file children)
      else
        let found :=
          (fix go (xs : list node) : list node :=
             match xs with
             | [] => []
             | x :: xs => match node_files x path with Some r => r | None => go xs end
             end) children in
        if (0 <? length found)%nat || browsePathStartsWith path p then Some found else None
  end.

(** [path] is [None] for null. *)
Fixpoint files_loop (nodes : list node) (path : string) : list node :=
  match nodes with
  | [] => []
  | x :: xs => match node_files x path with Some r => r | None => files_loop xs path end
  end.
Definition browseGetFilesForPath (nodes : list node) (path : option string) : list node :=
  match path with None => [] | Some p => files_loop nodes p end.

(** ** The nested recursion, unfolded *)

Lemma find_node_dir p nm children path :
  find_node (Dir p nm children) path =
  if String.eqb p path then Some (Dir p nm children) else browseFindNode children path.
Proof.
  cbn. destruct (String.eqb p path); [reflexivity|].
  induction children as [|x xs IH]; [reflexivity|]. cbn. rewrite IH. reflexivity.
Qed.

Lemma remove_node_dir p nm children path :
  remove_node (Dir p nm children) path =
  if String.eqb p path then Some None
  else option_map (fun xs => Some (Dir p nm xs)) (remove_from children path).
Proof.
  cbn. destruct (String.eqb p path); [reflexivity|].
  assert (E : forall xs, (fix go (xs : list node) : option (list node) :=
                    match xs with
                    | [] => None
                    | x :: xs =>
                        match remove_node x path with
                        | Some None => Some xs
                        | Some (Some x') => Some (x' :: xs)
                        | None => match go xs with Some xs' => Some (x :: xs') | None => None end
                        end
                    end) xs = remove_from xs path).
  { induction xs as [|x xs IH]; [reflexivity|]. cbn. rewrite IH.
    destruct (remove_node x path) as [[x'|]|]; [reflexivity..|]. destruct (remove_from xs path); reflexivity. }
  rewrite E. destruct (remove_from children path); reflexivity.
Qed.

Lemma node_files_dir p nm children path :
  node_files (Dir p nm children) path =
  if String.eqb p path then Some (List.filter is_file children)
  else if (0 <? length (files_loop children path))%nat || browsePathStartsWith path p
       then Some (files_loop children path) else None.
Proof.
  cbn. destruct (String.eqb p path); [reflexivity|].
  assert (E : forall xs, (fix go (xs : list node) : list node :=
             match xs with
             | [] => []
             | x :: xs => match node_files x path with Some r => r | None => go xs end
             end) xs = files_loop xs path).
  { induction xs as [|x xs IH]; [reflexivity|]. cbn. rewrite IH. reflexivity. }
  rewrite E. reflexivity.
Qed.

(** Induction over a tree. *)
Section Induction.
Variable P : node -> Prop.
Hypothesis P_file : forall p nm, P (File p nm).
Hypothesis P_dir : forall p nm children, Forall P children -> P (Dir p nm children).

Lemma tree_ind (x : node) : P x.
Proof.
  revert x. fix IH 1. intros [p nm|p nm children]; [apply P_file|]. apply P_dir.
  induction children as [|x xs IHxs]; constructor; [apply IH|exact IHxs].
Qed.
End Induction.

(** ** Removing *)

(** Every path of a tree, a directory before its children. *)
Fixpoint node_paths (x : node) : list string :=
  match x with
  | File p _ => [p]
  | Dir p _ children => p :: flat_map node_paths children
  end.
Definition tree_paths (nodes : list node) : list string := flat_map node_paths nodes.

(** Taking the subtree [x] out of [before] leaves [after]. *)
Definition cut (x : node) (before after : list string) : Prop :=
  exists l1 l2, before = (l1 ++ node_paths x ++ l2)%list /\ after = (l1 ++ l2)%list.

Lemma cut_app x a before after b : cut x before after -> cut x (a ++ before ++ b) (a ++ after ++ b).
Proof.
  intros (l1 & l2 & -> & ->). exists (a ++ l1)%list, (l2 ++ b)%list. rewrite <- !app_assoc. split; reflexivity.
Qed.

Lemma cut_all x : cut x (node_paths x) [].
Proof. exists [], []. rewrite app_nil_r. split; reflexivity. Qed.

(** What removing a path from a list of nodes does, given what it does to each. *)
Definition node_spec (path : string) (x : node) : Prop :=
  match find_node x path with
  | Some f => node_path f = path /\
      match remove_node x path with
      | Some None => cut f (node_paths x) []
      | Some (Some x') => cut f (node_paths x) (node_paths x')
      | None => False
      end
  | None => remove_node x path = None /\ ~ path ∈ node_paths x
  end.

Definition list_spec (path : string) (xs : list node) : Prop :=
  match browseFindNode xs path with
  | Some f => node_path f = path /\
      match remove_from xs path with
      | Some xs' => cut f (tree_paths xs) (tree_paths xs')
      | None => False
      end
  | None => remove_from xs path = None /\ ~ path ∈ tree_paths xs
  end.

Lemma list_spec_of path xs : Forall (node_spec path) xs -> list_spec path xs.
Proof.
  unfold list_spec. induction 1 as [|x xs Hx _ IH]; cbn [browseFindNode remove_from].
  { split; [reflexivity|]. apply not_elem_of_nil. }
  unfold node_spec in Hx. unfold tree_paths in *. cbn [flat_map].
  destruct (find_node x path) as [f|].
  - destruct Hx as [Hf Hx]. split; [exact Hf|].
    destruct (remove_node x path) as [[x'|]|]; [| |destruct Hx].
    + apply (cut_app f [] _ _ (flat_map node_paths xs)), Hx.
    + apply (cut_app f [] _ _ (flat_map node_paths xs)) in Hx. exact Hx.
  - destruct Hx as [-> Hx]. destruct (browseFindNode xs path) as [f|].
    + destruct IH as [Hf IH]. split; [exact Hf|].
      destruct (remove_from xs path) as [xs'|]; [|exact IH].
      apply (cut_app f (node_paths x) _ _ []) in IH. rewrite !app_nil_r in IH. exact IH.
    + destruct IH as [-> IH]. split; [reflexivity|]. rewrite elem_of_app. tauto.
Qed.

Lemma node_spec_all path x : node_spec path x.
Proof.
  induction x as [p nm|p nm children IH] using tree_ind; unfold node_spec.
  - cbn. destruct (String.eqb_spec p path) as [->|Hne].
    + split; [reflexivity|]. apply (cut_all (File path nm)).
    + split; [reflexivity|]. intros C. apply list_elem_of_singleton in C. congruence.
  - rewrite find_node_dir, remove_node_dir. destruct (String.eqb_spec p path) as [->|Hne].
    + split; [reflexivity|]. apply (cut_all (Dir path nm children)).
    + apply list_spec_of in IH. unfold list_spec, tree_paths in IH. cbn [node_paths].
      destruct (browseFindNode children path) as [f|].
      * destruct IH as [Hf IH]. split; [exact Hf|].
        destruct (remove_from children path) as [xs'|]; [|destruct IH]. cbn [option_map node_paths].
        apply (cut_app f [p] _ _ []) in IH. rewrite !app_nil_r in IH. exact IH.
      * destruct IH as [-> IH]. split; [reflexivity|]. rewrite elem_of_cons. intros [C|C]; [congruence|tauto].
Qed.

(** Removing a path takes out exactly the subtree that a look-up of the path
    finds, everything else staying in place and in order, and reports false,
    with the tree untouched, exactly when no node has the path. *)
Theorem browseRemoveFromTree_spec (nodes : list node) (path : string) :
  match browseFindNode nodes path with
  | Some x =>
      node_path x = path /\ (browseRemoveFromTree nodes path).2 = true /\
      cut x (tree_paths nodes) (tree_paths (browseRemoveFromTree nodes path).1)
  | None => browseRemoveFromTree nodes path = (nodes, false) /\ ~ path ∈ tree_paths nodes
  end.
Proof.
  assert (H : list_spec path nodes).
  { apply list_spec_of, Forall_forall. intros x _. apply node_spec_all. }
  unfold list_spec in H. unfold browseRemoveFromTree. destruct (browseFindNode nodes path) as [x|].
  - destruct H as [Hx H]. split; [exact Hx|]. destruct (remove_from nodes path); [|destruct H].
    split; [reflexivity|exact H].
  - destruct H as [-> H]. split; [reflexivity|exact H].
Qed.

(** ** Listing a directory *)

(** A tree as the server builds it: what is below a directory has the
    directory's path and a slash in front, and no two siblings share a path's
    beginning. *)
Definition below (p : string) (q : string) : Prop := browsePathStartsWith q p = true.

Fixpoint apart (nodes : list node) : Prop :=
  match nodes with
  | [] => True
  | x :: xs =>
      (forall q, q ∈ node_paths x -> forall y, y ∈ xs -> ~ below (node_path y) q) /\
      (forall y q, y ∈ xs -> q ∈ node_paths y -> ~ below (node_path x) q) /\ apart xs
  end.

Inductive laid_out : node -> Prop :=
| lo_file p nm : laid_out (File p nm)
| lo_dir p nm children :
    Forall laid_out children -> apart children ->
    (forall q, q ∈ tree_paths children -> below p q /\ q <> p) -> laid_out (Dir p nm children).

Definition dir_files (x : option node) : list node :=
  match x with Some (Dir _ _ children) => List.filter is_file children | _ => [] end.

Lemma list_spec_all path xs : list_spec path xs.
Proof. apply list_spec_of, Forall_forall. intros x _. apply node_spec_all. Qed.

Lemma node_path_in x : node_path x ∈ node_paths x.
Proof. destruct x; cbn; left. Qed.

Lemma cut_in f a b q : cut f a b -> q ∈ node_paths f -> q ∈ a.
Proof. intros (l1 & l2 & -> & _) H. rewrite !elem_of_app. tauto. Qed.

Lemma find_in path xs f : browseFindNode xs path = Some f -> path ∈ tree_paths xs.
Proof.
  intros H. pose proof (list_spec_all path xs) as L. unfold list_spec in L. rewrite H in L.
  destruct L as [<- L]. destruct (remove_from xs _); [|destruct L].
  eapply cut_in; [exact L|apply node_path_in].
Qed.

Lemma find_none path xs : ~ path ∈ tree_paths xs -> browseFindNode xs path = None.
Proof. intros H. destruct (browseFindNode xs path) eqn:E; [|reflexivity]. apply find_in in E. contradiction. Qed.

Lemma find_node_in path x f : find_node x path = Some f -> path ∈ node_paths x.
Proof.
  intros H. assert (E : browseFindNode [x] path = Some f) by (cbn; rewrite H; reflexivity).
  apply find_in in E. unfold tree_paths in E. cbn in E. rewrite app_nil_r in E. exact E.
Qed.

Lemma elem_of_tree q xs : q ∈ tree_paths xs <-> exists y, y ∈ xs /\ q ∈ node_paths y.
Proof.
  unfold tree_paths. rewrite list_elem_of_In, in_flat_map.
  split; intros (y & H1 & H2); exists y; rewrite ?list_elem_of_In in *; tauto.
Qed.

Lemma below_refl p : below p p.
Proof. unfold below, browsePathStartsWith. rewrite String.eqb_refl. reflexivity. Qed.

Lemma laid_out_below x q : laid_out x -> q ∈ node_paths x -> below (node_path x) q.
Proof.
  intros [p nm|p nm children _ _ H] Hq; cbn in *.
  - apply list_elem_of_singleton in Hq as ->. apply below_refl.
  - apply elem_of_cons in Hq as [->|Hq]; [apply below_refl|]. apply (H q Hq).
Qed.

(** What the loop body returns for one node. *)
Definition files_spec (path : string) (x : node) : Prop :=
  match node_files x path with
  | Some r => r = dir_files (find_node x path) /\ below (node_path x) path
              \/ r = dir_files (find_node x path) /\ find_node x path <> None
  | None => dir_files (find_node x path) = []
  end.

Lemma files_list path xs :
  Forall laid_out xs -> apart xs -> Forall (files_spec path) xs ->
  files_loop xs path = dir_files (browseFindNode xs path).
Proof.
  intros Hl Ha Hf. induction Hf as [|x xs Hx Hf IH]; [reflexivity|].
  apply Forall_cons in Hl as [Hlx Hl]. destruct Ha as (Ha1 & Ha2 & Ha).
  specialize (IH Hl Ha). cbn [files_loop browseFindNode]. unfold files_spec in Hx.
  assert (Hsep : path ∈ node_paths x -> browseFindNode xs path = None).
  { intros Hp. apply find_none. intros C. apply elem_of_tree in C as (y & Hy & Hq).
    apply (Ha1 path Hp y Hy). apply laid_out_below; [|exact Hq].
    rewrite Forall_forall in Hl. apply Hl, Hy. }
  destruct (node_files x path) as [r|].
  - destruct (find_node x path) as [f|] eqn:E; [destruct Hx as [[-> _]|[-> _]]; reflexivity|].
    destruct Hx as [[-> Hb]|[_ Hx]]; [|congruence]. rewrite find_none; [reflexivity|].
    intros C. apply elem_of_tree in C as (y & Hy & Hq). exact (Ha2 y path Hy Hq Hb).
  - rewrite IH. destruct (find_node x path) as [f|] eqn:E; [|reflexivity].
    rewrite Hsep by (eapply find_node_in; exact E). cbn [dir_files] in *. rewrite Hx. reflexivity.
Qed.

Lemma files_node path x : laid_out x -> files_spec path x.
Proof.
  induction x as [p nm|p nm children IH] using tree_ind; intros Hl; unfold files_spec.
  - cbn. destruct (String.eqb p path); reflexivity.
  - inversion Hl as [|? ? ? Hc Ha Hb]; subst. rewrite node_files_dir, find_node_dir.
    destruct (String.eqb_spec p path) as [->|Hne].
    { left. split; [reflexivity|apply below_refl]. }
    rewrite (files_list path children Hc Ha); cycle 1.
    { rewrite Forall_forall in *. intros y Hy. apply IH; [exact Hy|]. apply Hc, Hy. }
    destruct (browsePathStartsWith path p) eqn:E.
    { rewrite orb_true_r. left. split; [reflexivity|exact E]. }
    rewrite orb_false_r. destruct (dir_files (browseFindNode children path)) as [|f fs] eqn:F; [reflexivity|].
    right. split; [reflexivity|]. intros C. rewrite C in F. discriminate.
Qed.

(** On a tree laid out by paths, browseGetFilesForPath lists exactly the
    files of the directory with that path - its early return on a path prefix
    skips nothing. *)
Theorem browseGetFilesForPath_spec (nodes : list node) (path : string) :
  Forall laid_out nodes -> apart nodes ->
  browseGetFilesForPath nodes (Some path) = dir_files (browseFindNode nodes path).
Proof.
  intros Hl Ha. cbn. apply files_list; [exact Hl|exact Ha|].
  rewrite Forall_forall in *. intros x Hx. apply files_node, Hl, Hx.
Qed.

Definition demo_tree : list node :=
  [Dir "images" "images" [Dir "images/all" "all" [File "images/all/1.jpg" "1.jpg"; File "images/all/2.jpg" "2.jpg"]];
   Dir "labels" "labels" []; File "data.yaml" "data.yaml"].

Ltac members :=
  intros; cbn in *;
  repeat match goal with
  | H : _ ∈ _ :: _ |- _ => apply elem_of_cons in H as [->|H]
  | H : _ ∈ [] |- _ => apply not_elem_of_nil in H; destruct H
  end.

Ltac by_paths :=
  repeat match goal with
  | |- Forall _ [] => apply Forall_nil_2
  | |- Forall _ (_ :: _) => apply Forall_cons; split
  | |- laid_out (File _ _) => apply lo_file
  | |- laid_out (Dir _ _ _) => apply lo_dir
  | |- apart _ => cbn [apart]; repeat apply conj
  | |- True => exact I
  | |- forall _, _ => members; members
  | |- below _ _ /\ _ => split; [vm_compute; reflexivity|discriminate]
  | |- ~ below _ _ => intros C; vm_compute in C; discriminate
  end.

Lemma browseGetFilesForPath_spec_witness :
  browseGetFilesForPath demo_tree (Some "images/all") =
  dir_files (browseFindNode demo_tree "images/all").
Proof. apply browseGetFilesForPath_spec; unfold demo_tree; by_paths. Defined.

End Browse.
