(* ===== verification/LevelGraph.v ===== *)
(** web/js/LevelGraph.js: the graph of motion score and audio level under an
    event's video.

    The rows of the frames request become sorted samples, the alarm frames
    become shaded bands, and [scale] maps seconds and levels to pixels.  All
    arithmetic is the language's own: binary64, rounded after every operation. *)
From Stdlib Require Import Sorted.
From S2P Require Import JsString.

Module LevelGraph.

Definition LEVEL_GRAPH_MIN_HEIGHT : num := Fin 12.
Definition LEVEL_GRAPH_TOP_PAD : num := Fin 2.
Definition LEVEL_GRAPH_LABEL_GUTTER : num := Fin 10.

(** A row of the frames ajax. *)
Record frame := Frame { Delta : jsval; Score : jsval; AudioLevel : jsval; Type_ : string }.

Record sample := Sample { t : num; score : num; audio : num; type : string }.

Record series := Series {
  samples : list sample; motionMax : num; audioMax : num; hasAudio : bool; hasScores : bool;
}.

Definition zero : num := Fin 0.

(** [(typeof eventLength === 'number' && eventLength > 0) ? eventLength : 0] *)
Definition event_length (eventLength : jsval) : num :=
  match eventLength with
  | VNum n => if (n >? zero)%num then n else zero
  | _ => zero
  end.

(** One row: [None] where the loop continues. *)
Definition sample_of (length : num) (f : frame) : option sample :=
  let t := js_parseFloat (Delta f) in
  if negb (isFinite t) then None
  else
    let clamped := if ntruthy length then nmin (nmax t zero) length else nmax t zero in
    let score := nmax zero (nor (js_parseInt10 (Score f)) zero) in
    let audio := nmin (Fin 100) (nmax zero (nor (js_parseInt10 (AudioLevel f)) zero)) in
    Some (Sample clamped score audio (Type_ f)).

(** [if (v > max) max = v] over the samples. *)
Definition running_max (key : sample -> num) (xs : list sample) : num :=
  fold_left (fun m s => if (key s >? m)%num then key s else m) xs zero.

(** [samples.sort((a, b) => a.t - b.t)]; the sort of the language is stable. *)
Fixpoint insert_sample (x : sample) (ys : list sample) : list sample :=
  match ys with
  | [] => [x]
  | y :: ys' => if (t x - t y <=? zero)%num then x :: ys else y :: insert_sample x ys'
  end.
Definition sort_samples (xs : list sample) : list sample := fold_right insert_sample [] xs.

Definition levelGraphSeries (frames : list frame) (eventLength : jsval) : series :=
  let length := event_length eventLength in
  let xs := omap (sample_of length) frames in
  let motionMax := running_max score xs in
  let audioMax := running_max audio xs in
  Series (sort_samples xs) motionMax audioMax (audioMax >? zero)%num (motionMax >? zero)%num.

(** ** Alarm bands *)

Record band := Band { start : num; end_ : num }.

(** What the loop does to the bands at one alarm interval. *)
Definition add_band (bands : list band) (b : band) : list band :=
  match last bands with
  | Some l => if (end_ l >=? start b)%num
              then (removelast bands ++ [Band (start l) (nmax (end_ l) (end_ b))])%list
              else (bands ++ [b])%list
  | None => (bands ++ [b])%list
  end.

Fixpoint bands_loop (eventLength : num) (xs : list sample) (bands : list band) : list band :=
  match xs with
  | [] => bands
  | x :: xs' =>
      if negb (String.eqb (type x) "Alarm") then bands_loop eventLength xs' bands
      else
        let e := match xs' with y :: _ => t y | [] => eventLength end in
        if negb (e >? t x)%num then bands_loop eventLength xs' bands
        else bands_loop eventLength xs' (add_band bands (Band (t x) e))
  end.

Definition levelGraphBands (xs : list sample) (eventLength : num) : list band :=
  bands_loop eventLength xs [].

(** ** The coordinate mapping *)

Record opts := Opts { o_width : num; o_height : num; o_eventLength : num; o_motionMax : num }.

Record scale := Scale { width : num; height : num; baseline : num; plot : num; len : num; mmax : num }.

Definition levelGraphScale (o : opts) : scale :=
  let width := nmax zero (nor (o_width o) zero) in
  let height := nmax LEVEL_GRAPH_MIN_HEIGHT (nor (o_height o) zero) in
  let length := if (o_eventLength o >? zero)%num then o_eventLength o else Fin 1 in
  let motionMax := if (o_motionMax o >? zero)%num then o_motionMax o else Fin 1 in
  let baseline := if (height >? LEVEL_GRAPH_LABEL_GUTTER * Fin 2)%num
                  then (height - LEVEL_GRAPH_LABEL_GUTTER)%num else height in
  let plot := nmax (Fin 1) (baseline - LEVEL_GRAPH_TOP_PAD)%num in
  Scale width height baseline plot length motionMax.

Definition scale_x (sc : scale) (t : num) : num :=
  let clamped := nmin (nmax t zero) (len sc) in ((clamped / len sc) * width sc)%num.

Definition yMotion (sc : scale) (score : num) : num :=
  let fraction := (nmin (nmax score zero) (mmax sc) / mmax sc)%num in
  (baseline sc - (fraction * plot sc))%num.

Definition yAudio (sc : scale) (level : num) : num :=
  let fraction := (nmin (nmax level zero) (Fin 100) / Fin 100)%num in
  (baseline sc - (fraction * plot sc))%num.

Definition tAt (sc : scale) (px : num) : num :=
  if negb (ntruthy (width sc)) then zero
  else let clamped := nmin (nmax px zero) (width sc) in ((clamped / width sc) * len sc)%num.

(** ** The sample under the pointer *)

(** The binary search; [None] when the fuel runs out or an index is past the end. *)
Fixpoint search (fuel : nat) (xs : list sample) (x : num) (lo hi : nat) : option nat :=
  if (lo <? hi)%nat then
    match fuel with
    | O => None
    | S fuel =>
        let mid := Nat.div2 (lo + hi) in
        match xs !! mid with
        | Some m => if (t m <? x)%num then search fuel xs x (S mid) hi else search fuel xs x lo mid
        | None => None
        end
    end
  else Some lo.

Definition levelGraphSampleAt (xs : list sample) (x : num) : option sample :=
  match xs with
  | [] => None
  | _ =>
      match search (length xs) xs x 0 (length xs - 1) with
      | None => None
      | Some lo =>
          match xs !! lo with
          | None => None
          | Some after =>
              match (if (0 <? lo)%nat then xs !! (lo - 1)%nat else None) with
              | None => Some after
              | Some before =>
                  if (nabs (t after - x) <? nabs (x - t before))%num then Some after else Some before
              end
          end
      end
  end.

(** ** Markup *)

Definition round2 (n : num) : num := (nround (n * Fin 100) / Fin 100)%num.

Definition r2s (n : num) : string := num_to_string (round2 n).

(** [text.replace(/c/g, by)] *)
Fixpoint replace_all (c : ascii) (by_ s : string) : string :=
  match s with
  | EmptyString => EmptyString
  | String d s => (if Ascii.eqb d c then by_ else str1 d) ++ replace_all c by_ s
  end.

Definition escapeXml (text : string) : string :=
  replace_all quote "&quot;" (replace_all ">" "&gt;" (replace_all "<" "&lt;" (replace_all "&" "&amp;" text))).

(** [key] is true for 'audio'. *)
Definition levelGraphPoints (xs : list sample) (sc : scale) (key : bool) : string :=
  let y := if key then yAudio sc else yMotion sc in
  let v s := if key then audio s else score s in
  join " " (map (fun s => r2s (scale_x sc (t s)) ++ "," ++ r2s (y (v s))) xs).

Record label := Label { l_t : num; l_text : string }.

Definition q : string := str1 quote.
(** [name="value"] *)
Definition attr (name value : string) : string := " " ++ name ++ "=" ++ q ++ value ++ q.

Definition band_markup (sc : scale) (b : band) : string :=
  let x1 := scale_x sc (start b) in
  let x2 := scale_x sc (end_ b) in
  "<rect" ++ attr "class" "level-graph-band" ++ attr "x" (r2s x1) ++ attr "y" "0" ++
  attr "width" (r2s (nmax (Fin 1) (x2 - x1)%num)) ++ attr "height" (r2s (baseline sc)) ++ "/>".

Definition label_markup (sc : scale) (l : label) : list string :=
  let lx := scale_x sc (l_t l) in
  ["<line" ++ attr "class" "level-graph-tick" ++ attr "x1" (r2s lx) ++ attr "y1" (r2s (baseline sc)) ++
     attr "x2" (r2s lx) ++ attr "y2" (r2s (height sc)) ++ "/>";
   "<text" ++ attr "class" "level-graph-label" ++ attr "x" (r2s (lx + Fin 2)%num) ++
     attr "y" (r2s (height sc - Fin 1)%num) ++ ">" ++ escapeXml (l_text l) ++ "</text>"].

Definition polyline (cls points : string) : string :=
  "<polyline" ++ attr "class" cls ++ attr "fill" "none" ++ attr "points" points ++ "/>".

Definition renderLevelGraph (o : opts) (xs : list sample) (bands : list band) (labels : list label)
    (hasAudio hasScores : bool) : string :=
  let sc := levelGraphScale o in
  join "" (List.concat [
    ["<svg" ++ attr "class" "level-graph" ++ attr "width" (r2s (width sc)) ++
       attr "height" (r2s (height sc)) ++
       attr "viewBox" ("0 0 " ++ r2s (width sc) ++ " " ++ r2s (height sc)) ++
       attr "preserveAspectRatio" "none" ++ attr "aria-hidden" "true" ++ ">"];
    map (band_markup sc) bands;
    ["<line" ++ attr "class" "level-graph-axis" ++ attr "x1" "0" ++ attr "y1" (r2s (baseline sc)) ++
       attr "x2" (r2s (width sc)) ++ attr "y2" (r2s (baseline sc)) ++ "/>"];
    flat_map (label_markup sc) labels;
    (if hasAudio && (0 <? length xs)%nat then [polyline "level-graph-audio" (levelGraphPoints xs sc true)] else []);
    (if hasScores && (0 <? length xs)%nat then [polyline "level-graph-motion" (levelGraphPoints xs sc false)] else []);
    ["</svg>"]]).

(** ** The live meter and the readout *)

Record meter := Meter { percent : num; m_text : string; m_alarm : bool }.

(** [level] is [None] for null and undefined. *)
Definition levelMeterState (level : option num) (alarm : bool) (message : string) : meter :=
  match level with
  | Some l =>
      if negb (isFinite l) then Meter zero (if String.eqb message "" then "no reading" else message) false
      else let clamped := nmin (nmax (nround l) zero) (Fin 100) in Meter clamped (num_to_string clamped) alarm
  | None => Meter zero (if String.eqb message "" then "no reading" else message) false
  end.

Definition levelThresholdPercent (threshold : jsval) : option num :=
  let value := js_parseInt10 threshold in
  if negb (isFinite value) || (value <=? zero)%num then None else Some (nmin value (Fin 100)).

Definition levelGraphReadout (sr : option series) (x : num) : string :=
  match sr with
  | None => ""
  | Some sr =>
      match levelGraphSampleAt (samples sr) x with
      | None => ""
      | Some s => join ", " (List.app (if hasScores sr then ["motion " ++ num_to_string (score s)] else [])
                             (if hasAudio sr then ["audio " ++ num_to_string (audio s)] else []))
      end
  end.

(** ** Samples *)

Definition by_time (a b : sample) : Prop := nle (t a) (t b).

(** What every sample of a series is. *)
Record sample_ok (length : num) (s : sample) : Prop := {
  so_wf : JsNum.wf (t s);
  so_lo : nle zero (t s);
  so_hi : ntruthy length = true -> nle (t s) length;
  so_score : nle zero (score s);
  so_audio : nle zero (audio s) /\ nle (audio s) (Fin 100);
}.

Lemma wf_zero : JsNum.wf zero.
Proof. apply (wf_Z 0). lia. Qed.

Lemma parseInt10_wf s : parseInt10 s = NaN \/ JsNum.wf (parseInt10 s).
Proof.
  unfold parseInt10. destruct (read_sign (trim_start s)) as [neg s1].
  destruct (read_digits 10 s1 0 0) as [[z [|k]] rest]; [left; reflexivity|right]. apply rnd_wf.
Qed.

Lemma nor_zero_not_NaN v : v = NaN \/ JsNum.wf v -> nor v zero <> NaN.
Proof.
  intros [->|H]; [discriminate|]. unfold nor. destruct (ntruthy v); [apply wf_not_NaN, H|discriminate].
Qed.

Lemma sample_of_ok L f s :
  JsNum.wf L -> nle zero L -> sample_of L f = Some s -> sample_ok L s.
Proof.
  intros HL HL0. unfold sample_of. destruct (isFinite (js_parseFloat (Delta f))) eqn:F; [|discriminate].
  pose proof (parseFloat_wf _ F) as W. cbn [negb]. intros [= <-].
  assert (Wn : js_parseFloat (Delta f) <> NaN) by apply wf_not_NaN, W.
  split; cbn [t score audio].
  - destruct (ntruthy L); [apply nmin_wf; [|exact HL]|]; apply nmax_wf; try exact W; apply wf_zero.
  - destruct (ntruthy L); [apply nclamp_spec; assumption|].
    destruct (nmax_spec (js_parseFloat (Delta f)) zero Wn) as (_ & H & _); [discriminate|exact H].
  - intros ->. apply nclamp_spec; assumption.
  - pose proof (nor_zero_not_NaN _ (parseInt10_wf (js_to_string (Score f)))) as N.
    destruct (nmax_spec zero (nor (js_parseInt10 (Score f)) zero)) as (H & _); [discriminate|exact N|exact H].
  - pose proof (nor_zero_not_NaN _ (parseInt10_wf (js_to_string (AudioLevel f)))) as N.
    destruct (nmax_spec zero (nor (js_parseInt10 (AudioLevel f)) zero)) as (H & _ & E); [discriminate|exact N|].
    assert (M : nmax zero (nor (js_parseInt10 (AudioLevel f)) zero) <> NaN).
    { destruct E as [->| ->]; [discriminate|exact N]. }
    destruct (nmin_spec (Fin 100) _ ltac:(discriminate) M) as (L1 & L2 & E2).
    assert (R : nle zero (nmin (Fin 100) (nmax zero (nor (js_parseInt10 (AudioLevel f)) zero)))).
    { destruct E2 as [->| ->]; [reflexivity|exact H]. }
    exact (conj R L1).
Qed.

(** The times compared are representable and finite. *)
Definition timed (s : sample) : Prop := JsNum.wf (t s) /\ isFinite (t s) = true.

Lemma compare_times a b : timed a -> timed b -> (t a - t b <=? zero)%num = (t a <=? t b)%num.
Proof.
  intros [Wa Fa] [Wb Fb]. destruct (t a) as [| |p]; try discriminate.
  destruct (t b) as [| |q']; try discriminate. apply nsub_sign; assumption.
Qed.

Lemma insert_sample_spec x ys :
  timed x -> Forall timed ys -> StronglySorted by_time ys ->
  StronglySorted by_time (insert_sample x ys) /\ insert_sample x ys ≡ₚ x :: ys.
Proof.
  intros Hx Hy Hs. induction Hs as [|y ys Hs IH Hf]; cbn [insert_sample].
  - split; [repeat constructor|reflexivity].
  - apply Forall_cons in Hy as [Hy Hys]. rewrite compare_times by assumption.
    specialize (IH Hys) as [IH1 IH2]. destruct (t x <=? t y)%num eqn:E.
    + split; [|reflexivity]. constructor; [constructor; assumption|]. constructor; [exact E|].
      eapply Forall_impl; [exact Hf|]. intros z Hz. unfold by_time in *. eapply nle_trans; [exact E|exact Hz].
    + split; [|rewrite IH2; constructor]. constructor; [exact IH1|]. rewrite IH2.
      constructor; [|exact Hf]. unfold by_time. destruct Hx as [Wx _], Hy as [Wy _].
      apply nleb_false in E; [apply nlt_nle, E|apply wf_not_NaN, Wx|apply wf_not_NaN, Wy].
Qed.

Lemma sort_samples_spec xs :
  Forall timed xs -> StronglySorted by_time (sort_samples xs) /\ sort_samples xs ≡ₚ xs.
Proof.
  induction 1 as [|x xs Hx Hxs [IH1 IH2]]; cbn; [split; [constructor|reflexivity]|].
  destruct (insert_sample_spec x (sort_samples xs) Hx) as [S P]; try assumption.
  { rewrite IH2. exact Hxs. }
  split; [exact S|]. unfold sort_samples in *. rewrite P, IH2. reflexivity.
Qed.

Lemma event_length_nonneg v : nle zero (event_length v).
Proof.
  unfold event_length. destruct v; try reflexivity. destruct (n >? zero)%num eqn:E; [|reflexivity].
  apply nlt_nle, E.
Qed.

Lemma finite_of L s : sample_ok L s -> isFinite L = true -> ntruthy L = true -> isFinite (t s) = true.
Proof.
  intros [_ Hlo Hhi _ _] FL TL. exact (nle_between_finite zero (t s) L Hlo (Hhi TL) eq_refl FL).
Qed.

Lemma sample_of_finite L f s : sample_of L f = Some s -> JsNum.wf L -> nle zero L -> isFinite (t s) = true.
Proof.
  unfold sample_of. destruct (isFinite (js_parseFloat (Delta f))) eqn:F; [|discriminate]. cbn [negb].
  intros [= <-] HL HL0. cbn [t]. destruct (js_parseFloat (Delta f)) as [| |p]; try discriminate.
  assert (E : nmax (Fin p) zero = Fin p \/ nmax (Fin p) zero = zero).
  { apply nmax_spec; discriminate. }
  destruct (ntruthy L) eqn:TL; [|destruct E as [->| ->]; reflexivity].
  destruct L as [|[]|l]; try contradiction; try discriminate HL0; destruct E as [->| ->]; cbn; try reflexivity;
    destruct (Qle_bool _ _); reflexivity.
Qed.

(** The samples of a series are the frames whose Delta parses, in time order;
    every time lies within the event, every score is at least 0 and every audio
    level between 0 and 100. *)
Theorem levelGraphSeries_sorted (frames : list frame) (eventLength : jsval) :
  JsNum.wf (event_length eventLength) ->
  let xs := samples (levelGraphSeries frames eventLength) in
  StronglySorted by_time xs /\
  xs ≡ₚ omap (sample_of (event_length eventLength)) frames /\
  Forall (fun s => timed s /\ sample_ok (event_length eventLength) s) xs.
Proof.
  intros HL. pose proof (event_length_nonneg eventLength) as H0. cbv zeta. cbn [samples levelGraphSeries].
  set (L := event_length eventLength) in *. set (xs := omap (sample_of L) frames).
  assert (A : Forall (fun s => timed s /\ sample_ok L s) xs).
  { apply Forall_forall. intros s Hs. apply list_elem_of_omap in Hs as (f & _ & Hf).
    pose proof (sample_of_ok L f s HL H0 Hf) as Ok. split; [|exact Ok].
    split; [apply Ok|]. exact (sample_of_finite L f s Hf HL H0). }
  destruct (sort_samples_spec xs) as [S P]; [eapply Forall_impl; [exact A|]; intros s [? _]; assumption|].
  split; [exact S|]. split; [exact P|]. rewrite P. exact A.
Qed.

Definition demo_frames : list frame :=
  [Frame (VStr "0") (VStr "0") (VStr "10") "Normal"; Frame (VStr "5.5") (VStr "50") (VStr "80") "Alarm";
   Frame (VStr "3") (VStr "640") (VStr "180") "Alarm"; Frame (VStr "x") (VStr "1") (VStr "1") "Alarm"].

Lemma levelGraphSeries_sorted_witness :
  let xs := samples (levelGraphSeries demo_frames (VNum (Fin 10))) in
  StronglySorted by_time xs /\
  xs ≡ₚ omap (sample_of (event_length (VNum (Fin 10)))) demo_frames /\
  Forall (fun s => timed s /\ sample_ok (event_length (VNum (Fin 10))) s) xs.
Proof. apply (levelGraphSeries_sorted demo_frames (VNum (Fin 10))). apply (wf_Z 10). lia. Defined.

(** ** Bands *)

(** [x] lies in the interval from [a] up to but not including [b]. *)
Definition inside (a b x : num) : Prop := nle a x /\ nlt x b.

Definition covered (bands : list band) (x : num) : Prop :=
  exists b, b ∈ bands /\ inside (start b) (end_ b) x.

(** In time order, none empty, with a gap between neighbours. *)
Definition separate (bands : list band) : Prop :=
  Forall (fun b => nlt (start b) (end_ b)) bands /\
  StronglySorted (fun a b => nlt (end_ a) (start b)) bands.

(** The time an alarm sample stands for: until the next sample, or the end. *)
Fixpoint alarm_time (xs : list sample) (eventLength x : num) : Prop :=
  match xs with
  | [] => False
  | s :: xs' =>
      (type s = "Alarm" /\ inside (t s) (match xs' with y :: _ => t y | [] => eventLength end) x)
      \/ alarm_time xs' eventLength x
  end.

Lemma separate_snoc bs b :
  separate bs -> nlt (start b) (end_ b) -> Forall (fun a => nlt (end_ a) (start b)) bs ->
  separate (bs ++ [b]).
Proof.
  intros [H1 H2] Hb Hall. split; [apply Forall_app; split; [exact H1|repeat constructor; exact Hb]|].
  clear H1. induction H2 as [|a bs H2 IH Hf]; [repeat constructor|].
  apply Forall_cons in Hall as [Ha Hall]. cbn. constructor; [apply IH, Hall|].
  apply Forall_app. split; [exact Hf|]. repeat constructor. exact Ha.
Qed.

Lemma separate_init bs l : separate (bs ++ [l]) ->
  separate bs /\ nlt (start l) (end_ l) /\ Forall (fun a => nlt (end_ a) (start l)) bs.
Proof.
  intros [H1 H2]. apply Forall_app in H1 as [H1 Hl]. apply Forall_cons in Hl as [Hl _].
  assert (S : StronglySorted (fun a b => nlt (end_ a) (start b)) bs /\
              Forall (fun a => nlt (end_ a) (start l)) bs).
  { clear H1. induction bs as [|a bs IH]; [split; constructor|]. cbn in H2.
    inversion H2 as [|? ? H3 H4]; subst. apply Forall_app in H4 as [H4 H5].
    apply Forall_cons in H5 as [H5 _]. specialize (IH H3) as [I1 I2].
    split; constructor; assumption. }
  split; [split; [exact H1|apply S]|]. split; [exact Hl|apply S].
Qed.

Lemma covered_app bs cs x : covered (bs ++ cs) x <-> covered bs x \/ covered cs x.
Proof. unfold covered. setoid_rewrite elem_of_app. naive_solver. Qed.

Lemma covered_one b x : covered [b] x <-> inside (start b) (end_ b) x.
Proof. unfold covered. setoid_rewrite list_elem_of_singleton. naive_solver. Qed.

(** Where [b] starts at the end of [l], the two together are one interval. *)
Lemma inside_join a m c x : nle a m -> nle m c -> (inside a c x <-> inside a m x \/ inside m c x).
Proof.
  intros Ham Hmc. destruct (nle_not_NaN _ _ Hmc) as [Nm Nc]. unfold inside. split.
  - intros [H1 H2]. destruct (nlt_not_NaN _ _ H2) as [Nx _].
    destruct (nleb_total m x Nm Nx); [right|left]; split; assumption.
  - intros [[H1 H2]|[H1 H2]]; split; try assumption.
    + eapply nlt_le_trans; [exact H2|exact Hmc].
    + eapply nle_trans; [exact Ham|exact H1].
Qed.

Lemma inside_ext a m n c x : nle m n -> nle n m -> inside m c x \/ inside a n x <-> inside n c x \/ inside a m x.
Proof.
  intros H1 H2. unfold inside. split.
  - intros [[A B]|[A B]].
    + destruct (nle_not_NaN _ _ A) as [_ Nx]. destruct (nle_not_NaN _ _ H2) as [Nn _].
      left. split; [exact (nle_trans _ _ _ H2 A)|exact B].
    + right. split; [exact A|exact (nlt_le_trans _ _ _ B H2)].
  - intros [[A B]|[A B]].
    + left. split; [exact (nle_trans _ _ _ H1 A)|exact B].
    + right. split; [exact A|exact (nlt_le_trans _ _ _ B H1)].
Qed.

(** One alarm interval that starts no earlier than the bands end. *)
Lemma add_band_spec bs b x :
  separate bs -> nlt (start b) (end_ b) -> Forall (fun a => nle (end_ a) (start b)) bs ->
  separate (add_band bs b) /\ Forall (fun a => nle (end_ a) (end_ b)) (add_band bs b) /\
  (covered (add_band bs b) x <-> covered bs x \/ inside (start b) (end_ b) x).
Proof.
  intros Hs Hb Hall. pose proof (nlt_nle _ _ Hb) as Hb'. destruct (nlt_not_NaN _ _ Hb) as [Nsb Neb].
  assert (Hends : Forall (fun a => nle (end_ a) (end_ b)) bs).
  { eapply Forall_impl; [exact Hall|]. intros a Ha. exact (nle_trans _ _ _ Ha Hb'). }
  unfold add_band. destruct (last bs) as [l|] eqn:L; cycle 1.
  { apply last_None in L as ->. cbn. rewrite covered_one. split; [|split].
    - apply (separate_snoc [] b); [exact Hs|exact Hb|constructor].
    - repeat constructor. apply nle_refl, Neb.
    - unfold covered. split; [auto|]. intros [(? & H & _)|H]; [apply elem_of_nil in H as []|exact H]. }
  apply last_Some in L as [bs' ->].
  apply separate_init in Hs as (Hs' & Hl & Hls). apply Forall_app in Hall as [Hall Hlb].
  apply Forall_cons in Hlb as [Hlb _]. apply Forall_app in Hends as [Hends Hle].
  destruct (start b <=? end_ l)%num eqn:E.
  - rewrite removelast_last.
    assert (M : nmax (end_ l) (end_ b) = end_ b).
    { apply Forall_cons in Hle as [Hle _]. unfold nle in Hle. unfold nmax. rewrite Hle.
      destruct (end_ l), (end_ b); try reflexivity; discriminate. }
    rewrite M. split; [|split].
    + apply separate_snoc; [exact Hs'| |exact Hls].
      exact (nlt_le_trans _ _ _ Hl (nle_trans _ _ _ Hlb Hb')).
    + apply Forall_app. split; [exact Hends|]. repeat constructor. apply nle_refl, Neb.
    + rewrite !covered_app, !covered_one. cbn [start end_].
      rewrite (inside_join (start l) (end_ l) (end_ b)) by
        (try exact (nlt_nle _ _ Hl); exact (nle_trans _ _ _ Hlb Hb')).
      destruct (nlt_not_NaN _ _ Hl). assert (nle (end_ l) (end_ l)) by (apply nle_refl; assumption).
      pose proof (inside_ext (start l) (end_ l) (start b) (end_ b) x Hlb E). unfold inside in *.
      clear -H Hlb E. intuition eauto using nle_trans.
  - apply nleb_false in E; [|exact Nsb|intros N; rewrite N in Hlb; discriminate].
    split; [|split].
    + apply separate_snoc; [|exact Hb|].
      * apply separate_snoc; assumption.
      * apply Forall_app. split; [|repeat constructor; exact E].
        eapply Forall_impl; [exact Hls|]. cbv beta. intros a Ha.
        exact (nlt_le_trans _ _ _ Ha (nle_trans _ _ _ (nlt_nle _ _ Hl) Hlb)).
    + repeat (apply Forall_app; split); try assumption. repeat constructor. apply nle_refl, Neb.
    + rewrite (covered_app (bs' ++ [l]) [b]), covered_one. reflexivity.
Qed.

Lemma bands_loop_spec L xs : forall bs x,
  separate bs -> StronglySorted by_time xs -> Forall timed xs -> L <> NaN ->
  Forall (fun a => Forall (fun s => nle (end_ a) (t s)) xs) bs ->
  separate (bands_loop L xs bs) /\
  (covered (bands_loop L xs bs) x <-> covered bs x \/ alarm_time xs L x).
Proof.
  induction xs as [|s xs IH]; intros bs x Hs Hsort Ht NL Hends; cbn [bands_loop alarm_time].
  { split; [exact Hs|]. intuition. }
  inversion Hsort as [|? ? Hsort' Hle]; subst. apply Forall_cons in Ht as [Hts Ht].
  assert (Hbs : Forall (fun a => nle (end_ a) (t s)) bs).
  { eapply Forall_impl; [exact Hends|]. intros a Ha. apply Forall_cons in Ha. apply Ha. }
  assert (Hends' : Forall (fun a => Forall (fun s => nle (end_ a) (t s)) xs) bs).
  { eapply Forall_impl; [exact Hends|]. intros a Ha. apply Forall_cons in Ha. apply Ha. }
  destruct (String.eqb (type s) "Alarm") eqn:Ety; cbn [negb]; bool_to_prop; cycle 1.
  { destruct (IH bs x) as [I1 I2]; try assumption. split; [exact I1|]. rewrite I2. tauto. }
  set (e := match xs with y :: _ => t y | [] => L end).
  assert (Ne : e <> NaN).
  { unfold e. destruct xs as [|y ?]; [exact NL|]. apply Forall_cons in Ht as [[Hy _] _]. apply wf_not_NaN, Hy. }
  assert (Nt : t s <> NaN) by (apply wf_not_NaN, Hts).
  destruct (e >? t s)%num eqn:E; cbn [negb]; cycle 1.
  { destruct (IH bs x) as [I1 I2]; try assumption. split; [exact I1|]. rewrite I2.
    split; [tauto|]. intros [H|[[_ [H1 H2]]|H]]; [auto| |auto].
    exfalso. apply nltb_false in E; [|assumption..].
    apply (nlt_not_le _ _ (nle_lt_trans _ _ _ H1 H2)). exact E. }
  destruct (add_band_spec bs (Band (t s) e) x Hs E Hbs) as (A1 & A2 & A3). cbn [start end_] in *.
  destruct (IH (add_band bs (Band (t s) e)) x) as [I1 I2]; try assumption.
  - eapply Forall_impl; [exact A2|]. intros a Ha. unfold e in Ha. destruct xs as [|y ys]; [constructor|].
    inversion Hsort' as [|? ? _ Hy]; subst. constructor; [exact Ha|].
    eapply Forall_impl; [exact Hy|]. intros z Hz. exact (nle_trans _ _ _ Ha Hz).
  - split; [exact I1|]. rewrite I2, A3. tauto.
Qed.

(** C21: the shaded bands are disjoint intervals in time order, none of them empty,
    and they cover exactly the times an Alarm sample stands for: from the sample
    to the next one, or to the end of the event after the last. *)
Theorem levelGraphBands_alarms (xs : list sample) (eventLength x : num) :
  StronglySorted by_time xs -> Forall timed xs -> eventLength <> NaN ->
  separate (levelGraphBands xs eventLength) /\
  (covered (levelGraphBands xs eventLength) x <-> alarm_time xs eventLength x).
Proof.
  intros Hs Ht NL. destruct (bands_loop_spec eventLength xs [] x) as [A B]; try assumption.
  - split; constructor.
  - constructor.
  - split; [exact A|]. unfold levelGraphBands. rewrite B. split; [|tauto].
    intros [(b & H & _)|H]; [apply elem_of_nil in H as []|exact H].
Qed.

Definition demo_samples : list sample :=
  [Sample (Fin 0) (Fin 0) (Fin 10) "Normal"; Sample (Fin 3) (Fin 9) (Fin 10) "Alarm";
   Sample (Fin 5) (Fin 9) (Fin 10) "Alarm"; Sample (Fin 8) (Fin 0) (Fin 10) "Normal"].

Lemma demo_samples_ok : StronglySorted by_time demo_samples /\ Forall timed demo_samples.
Proof.
  split; [repeat constructor|]. repeat constructor; cbn [t];
    first [exact (proj1 (wf_Z 0 ltac:(lia))) | exact (proj1 (wf_Z 3 ltac:(lia))) | exact (proj1 (wf_Z 5 ltac:(lia)))
          | exact (proj1 (wf_Z 8 ltac:(lia))) | reflexivity].
Qed.

Example demo_bands : levelGraphBands demo_samples (Fin 10) = [Band (Fin 3) (Fin 8)].
Proof. reflexivity. Qed.

Lemma levelGraphBands_alarms_witness :
  separate (levelGraphBands demo_samples (Fin 10)) /\
  (covered (levelGraphBands demo_samples (Fin 10)) (Fin 4) <-> alarm_time demo_samples (Fin 10) (Fin 4)).
Proof.
  apply (levelGraphBands_alarms demo_samples (Fin 10) (Fin 4)); [apply demo_samples_ok..|discriminate].
Defined.

(** ** The sample under the pointer *)

(** Everything before [lo] is before [x]; at [hi] the samples have reached [x],
    or [hi] is the last sample. *)
Definition bracket (xs : list sample) (x : num) (lo hi : nat) : Prop :=
  (forall i s, (i < lo)%nat -> xs !! i = Some s -> nlt (t s) x) /\
  (S hi = length xs \/ exists s, xs !! hi = Some s /\ nle x (t s)).

Lemma sorted_lookup xs : StronglySorted by_time xs ->
  forall i j a b, (i <= j)%nat -> xs !! i = Some a -> xs !! j = Some b -> t a <> NaN -> nle (t a) (t b).
Proof.
  induction 1 as [|x xs Hs IH Hf]; intros i j a b Hij Ha Hb N; [discriminate|].
  destruct i as [|i], j as [|j]; cbn in Ha, Hb; try lia.
  - injection Ha as ->. injection Hb as ->. apply nle_refl, N.
  - injection Ha as ->. rewrite Forall_forall in Hf. apply Hf. eapply list_elem_of_lookup_2, Hb.
  - apply (IH i j a b); [lia|assumption..].
Qed.

Lemma search_spec xs x : StronglySorted by_time xs -> Forall timed xs -> x <> NaN ->
  forall fuel lo hi, (lo <= hi < length xs)%nat -> (hi - lo <= fuel)%nat -> bracket xs x lo hi ->
  exists r, search fuel xs x lo hi = Some r /\ (r < length xs)%nat /\ bracket xs x r r.
Proof.
  intros Hs Ht Nx. induction fuel as [|fuel IH]; intros lo hi Hb Hfuel HB; cbn [search];
    destruct (lo <? hi)%nat eqn:E; bool_to_prop.
  - lia.
  - exists lo. assert (lo = hi) as -> by lia. repeat split; try apply HB; lia.
  - pose proof (Nat.div2_odd (lo + hi)) as D. destruct (Nat.odd (lo + hi)); cbn [Nat.b2n] in D.
    1,2: set (mid := Nat.div2 (lo + hi)) in *; assert (Hm : (lo <= mid < hi)%nat) by lia;
      destruct (lookup_lt_is_Some_2 xs mid) as [m Em]; [lia|]; rewrite Em;
      assert (Nm : t m <> NaN) by (apply wf_not_NaN, (proj1 (Forall_lookup_1 timed xs mid m Ht Em)));
      destruct (t m <? x)%num eqn:L.
    1,3: apply IH; [lia|lia|]; destruct HB as [B1 B2]; split; [|exact B2];
      intros i s Hi Hsi; apply nle_lt_trans with (t m); [|exact L];
      apply (sorted_lookup xs Hs i mid); [lia|assumption..|];
      apply wf_not_NaN, (proj1 (Forall_lookup_1 timed xs i s Ht Hsi)).
    all: apply IH; [lia|lia|]; destruct HB as [B1 B2]; split; [exact B1|]; right; exists m;
      split; [exact Em|]; apply nltb_false in L; assumption.
  - exists lo. assert (lo = hi) as -> by lia. repeat split; try apply HB; lia.
Qed.

(** The distance between a sample and the pointer. *)
Definition away (x : num) (s : sample) : num := nabs (t s - x)%num.

Lemma away_before x a b : timed a -> timed b -> isFinite x = true ->
  nle (t a) (t b) -> nle (t b) x -> nle (away x b) (away x a).
Proof.
  intros [_ Fa] [_ Fb] Fx. unfold away. destruct (t a) as [| |p], (t b) as [| |r], x as [| |x]; try discriminate.
  rewrite !nle_Fin. intros H1 H2. apply distance_mono. rewrite !Qabs_neg by lra. lra.
Qed.

Lemma away_after x a b : timed a -> timed b -> isFinite x = true ->
  nle x (t a) -> nle (t a) (t b) -> nle (away x a) (away x b).
Proof.
  intros [_ Fa] [_ Fb] Fx. unfold away. destruct (t a) as [| |p], (t b) as [| |r], x as [| |x]; try discriminate.
  rewrite !nle_Fin. intros H1 H2. apply distance_mono. rewrite !Qabs_pos by lra. lra.
Qed.

Lemma away_flip x s : timed s -> isFinite x = true ->
  nle (away x s) (nabs (x - t s)%num) /\ nle (nabs (x - t s)%num) (away x s) /\ away x s <> NaN.
Proof.
  intros [_ Fs] Fx. unfold away. destruct (t s) as [| |p], x as [| |x]; try discriminate.
  split; [apply distance_sym|]. split; [apply distance_sym|].
  rewrite nabs_sub. pose proof (rnd_not_NaN (p + Qred (- x))%Q) as N. destruct (rnd _); [congruence|discriminate..].
Qed.

(** On any non-empty series the sample under the pointer is found, and no
    sample is nearer to the pointer's time: the binary search over the sorted
    times agrees with the search through all of them. *)
Theorem levelGraphSampleAt_nearest (xs : list sample) (x : num) :
  xs <> [] -> StronglySorted by_time xs -> Forall timed xs -> isFinite x = true ->
  exists r, levelGraphSampleAt xs x = Some r /\ r ∈ xs /\ Forall (fun s => nle (away x r) (away x s)) xs.
Proof.
  intros Hne Hs Ht Fx. assert (Nx : x <> NaN) by (destruct x; discriminate).
  assert (Hlen : (0 < length xs)%nat) by (destruct xs; [congruence|cbn; lia]).
  destruct (search_spec xs x Hs Ht Nx (length xs) 0 (length xs - 1)) as (lo & E & Hlo & HB1 & HB2); [lia|lia| |].
  { split; [intros; lia|left; lia]. }
  assert (T : forall i s, xs !! i = Some s -> timed s) by (intros i s; exact (Forall_lookup_1 timed xs i s Ht)).
  destruct (lookup_lt_is_Some_2 xs lo Hlo) as [after Ea].
  assert (A : forall j s, (lo <= j)%nat -> xs !! j = Some s -> nle (away x after) (away x s)).
  { intros j s Hj Hsj. destruct HB2 as [Hl|(s' & Es' & Hx)].
    - assert (j = lo) as -> by (apply lookup_lt_Some in Hsj; lia). rewrite Ea in Hsj. injection Hsj as <-.
      apply nle_refl, (away_flip x after (T _ _ Ea) Fx).
    - rewrite Ea in Es'. injection Es' as <-. apply away_after; [exact (T _ _ Ea)|exact (T _ _ Hsj)|exact Fx|exact Hx|].
      apply (sorted_lookup xs Hs lo j); [exact Hj|assumption..|apply wf_not_NaN, (T _ _ Ea)]. }
  unfold levelGraphSampleAt. destruct xs as [|x0 xs0]; [congruence|]. set (xs := x0 :: xs0) in *.
  rewrite E, Ea. destruct (0 <? lo)%nat eqn:L; bool_to_prop; cycle 1.
  { exists after. split; [reflexivity|]. split; [eapply list_elem_of_lookup_2, Ea|].
    apply Forall_lookup_2. intros j s Hj. apply (A j); [lia|exact Hj]. }
  destruct (lookup_lt_is_Some_2 xs (lo - 1)) as [before Eb]; [lia|]. rewrite Eb.
  assert (B : forall i s, (i < lo)%nat -> xs !! i = Some s -> nle (away x before) (away x s)).
  { intros i s Hi Hsi. apply away_before; [exact (T _ _ Hsi)|exact (T _ _ Eb)|exact Fx| |].
    - apply (sorted_lookup xs Hs i (lo - 1)); [lia|assumption..|apply wf_not_NaN, (T _ _ Hsi)].
    - apply nlt_nle. apply (HB1 (lo - 1)%nat); [lia|exact Eb]. }
  destruct (away_flip x before (T _ _ Eb) Fx) as (F1 & F2 & Nb).
  destruct (away_flip x after (T _ _ Ea) Fx) as (_ & _ & Na). fold (away x after).
  destruct (away x after <? nabs (x - t before))%num eqn:C.
  - exists after. split; [reflexivity|]. split; [eapply list_elem_of_lookup_2, Ea|].
    apply Forall_lookup_2. intros j s Hj. destruct (le_lt_dec lo j) as [J|J]; [exact (A j s J Hj)|].
    apply nle_trans with (away x before); [|exact (B j s J Hj)].
    apply nle_trans with (nabs (x - t before)); [apply nlt_nle, C|exact F2].
  - exists before. split; [reflexivity|]. split; [eapply list_elem_of_lookup_2, Eb|].
    apply nltb_false in C; [|exact Na|intros N; rewrite N in F1; destruct (away x before); discriminate].
    apply Forall_lookup_2. intros j s Hj. destruct (le_lt_dec lo j) as [J|J]; [|exact (B j s J Hj)].
    exact (nle_trans _ _ _ (nle_trans _ _ _ F1 C) (A j s J Hj)).
Qed.

Lemma levelGraphSampleAt_nearest_witness :
  demo_samples <> [] /\
  exists r, levelGraphSampleAt demo_samples (Fin 4) = Some r /\ r ∈ demo_samples /\
  Forall (fun s => nle (away (Fin 4) r) (away (Fin 4) s)) demo_samples.
Proof.
  split; [discriminate|].
  apply (levelGraphSampleAt_nearest demo_samples (Fin 4)); [discriminate|apply demo_samples_ok..|reflexivity].
Defined.

(** ** The coordinate mapping *)

(** [v] clamped to [0, l], as a share of [l], times [w]: what every mapping of
    the scale is made of. *)
Definition share (v l w : num) : num := ((nmin (nmax v zero) l / l) * w)%num.

(** A representable finite extent. *)
Definition extent (w : num) : Prop := JsNum.wf w /\ isFinite w = true /\ nle zero w.

Lemma share_bounds v l w : v <> NaN -> extent l -> nlt zero l -> extent w ->
  nle zero (share v l w) /\ nle (share v l w) w.
Proof.
  intros Hv (Wl & Fl & Hl) Pl (Ww & Fw & Hw). destruct l as [| |l], w as [| |w]; try discriminate.
  unfold share. apply nlt_Fin in Pl. destruct (nclamp_spec v (Fin l) Hv Hl) as [C1 C2].
  destruct (ndiv_unit _ l C1 C2 Pl) as [D1 D2].
  apply nmul_unit; [exact D1|exact D2|exact Ww|apply nle_Fin, Hw].
Qed.

Lemma share_mono u v l w : nle u v -> extent l -> nlt zero l -> extent w ->
  nle (share u l w) (share v l w).
Proof.
  intros Huv (Wl & Fl & Hl) Pl (Ww & Fw & Hw). destruct l as [| |l], w as [| |w]; try discriminate.
  unfold share. apply nlt_Fin in Pl. destruct (nle_not_NaN _ _ Huv) as [Hu Hv].
  destruct (nclamp_spec u (Fin l) Hu Hl) as [C1 C2]. destruct (nclamp_spec v (Fin l) Hv Hl) as [E1 E2].
  apply nmul_mono_r; [apply (ndiv_unit _ l C1 C2 Pl)| |apply (ndiv_unit _ l E1 E2 Pl)|apply nle_Fin, Hw].
  apply ndiv_mono; [|exact Pl]. apply nclamp_mono; assumption.
Qed.

Lemma nsub_anti b a c : isFinite a = true -> isFinite c = true -> nle a c ->
  nle (Fin b - c)%num (Fin b - a)%num.
Proof.
  destruct a as [| |a], c as [| |c]; try discriminate. intros _ _ H. apply nle_Fin in H.
  unfold nsub. cbn [nopp nadd]. apply rnd_mono. rewrite !Qred_correct. lra.
Qed.

(** What is left of [b] under a share of at most [p <= b]. *)
Lemma nsub_bounds b a p : JsNum.wf (Fin b) -> nle zero a -> nle a (Fin p) -> (p <= b)%Q ->
  nle zero (Fin b - a)%num /\ nle (Fin b - a)%num (Fin b).
Proof.
  destruct a as [|[]|a]; try easy. unfold zero. rewrite !nle_Fin. intros [Db Hb] H0 H1 H2.
  unfold nsub. cbn [nopp nadd].
  split; [apply rnd_ge_wf; try apply (wf_Z 0); try lia; rewrite Qred_correct; lra|].
  apply rnd_le_wf; [assumption..|]. rewrite Qred_correct. lra.
Qed.

(** What the caller passes: a finite number, or one that [|| 0] replaces. *)
Definition usable (v : num) : Prop := v = NaN \/ (JsNum.wf v /\ isFinite v = true).

Lemma usable_max lo v : extent (Fin lo) -> usable v -> extent (nmax (Fin lo) (nor v zero)) /\
  nle (Fin lo) (nmax (Fin lo) (nor v zero)).
Proof.
  intros (Wlo & Flo & Hlo) Hv.
  assert (H : exists q, nor v zero = Fin q /\ JsNum.wf (Fin q)).
  { destruct Hv as [->|[Wv Fv]]; [exists 0%Q; split; [reflexivity|apply wf_zero]|].
    destruct v as [| |q]; try discriminate. unfold nor. destruct (ntruthy (Fin q)); eauto using wf_zero. }
  destruct H as (q & -> & Wq).
  destruct (nmax_spec (Fin lo) (Fin q)) as (M1 & M2 & M3); [discriminate..|].
  split; [|exact M1]. split; [apply nmax_wf; assumption|].
  split; [destruct M3 as [-> | ->]; reflexivity|]. exact (nle_trans _ _ _ Hlo M1).
Qed.

Lemma usable_or_one v : usable v ->
  let l := if (v >? zero)%num then v else Fin 1 in extent l /\ nlt zero l.
Proof.
  intros Hv. cbv zeta. destruct (v >? zero)%num eqn:E.
  - split; [|exact E]. destruct Hv as [->|[Wv Fv]]; [discriminate|].
    repeat split; [assumption..|apply nlt_nle, E].
  - split; [|reflexivity]. repeat split; apply (wf_Z 1); lia.
Qed.

(** What the drawing relies on. *)
Record scale_ok (sc : scale) : Prop := {
  sc_width : extent (width sc);
  sc_len : extent (len sc) /\ nlt zero (len sc);
  sc_mmax : extent (mmax sc) /\ nlt zero (mmax sc);
  sc_baseline : extent (baseline sc) /\ nle (baseline sc) (height sc);
  sc_plot : extent (plot sc) /\ nle (plot sc) (baseline sc);
}.

(** Taking a non-negative constant from a larger extent. *)
Lemma extent_sub h c : extent (Fin h) -> (0 <= c <= h)%Q ->
  extent (Fin h - Fin c)%num /\ nle (Fin h - Fin c)%num (Fin h).
Proof.
  intros (Wh & _ & _) [Hc0 Hc]. destruct (nsub_bounds h (Fin c) c Wh) as [B1 B2];
    [apply nle_Fin, Hc0|apply nle_Fin, Qle_refl|exact Hc|]. split; [|exact B2].
  split; [apply rnd_wf|]. split; [|exact B1].
  exact (nle_between_finite zero _ (Fin h) B1 B2 eq_refl eq_refl).
Qed.

Lemma levelGraphScale_ok o : usable (o_width o) -> usable (o_height o) -> usable (o_eventLength o) ->
  usable (o_motionMax o) -> scale_ok (levelGraphScale o).
Proof.
  intros Hw Hh Hl Hm.
  assert (E0 : extent zero) by (repeat split; apply (wf_Z 0); lia).
  assert (E12 : extent (Fin 12)) by (repeat split; apply (wf_Z 12); lia).
  assert (E1 : extent (Fin 1)) by (repeat split; apply (wf_Z 1); lia).
  destruct (usable_max 12 (o_height o) E12 Hh) as [Eh Lh]. fold LEVEL_GRAPH_MIN_HEIGHT in *.
  unfold levelGraphScale. set (h := nmax LEVEL_GRAPH_MIN_HEIGHT (nor (o_height o) zero)) in *.
  set (b := if (h >? _)%num then _ else _).
  assert (Hb : extent b /\ nle b h /\ nle (Fin 10) b).
  { pose proof Eh as (Wh & Fh & _). destruct h as [| |h]; try discriminate. apply nle_Fin in Lh.
    subst b. destruct (_ >? _)%num eqn:E.
    - apply nlt_Fin in E. assert (E20 : (20 < h)%Q) by (eapply Qle_lt_trans; [|exact E]; discriminate).
      destruct (extent_sub h 10 Eh) as [B1 B2]; [lra|]. split; [exact B1|]. split; [exact B2|].
      unfold LEVEL_GRAPH_LABEL_GUTTER, nsub. cbn [nopp nadd].
      apply rnd_ge_wf; try apply (wf_Z 10); try lia. rewrite Qred_correct. lra.
    - split; [exact Eh|]. split; apply nle_Fin; lra. }
  destruct Hb as (Eb & Lb & Tb).
  split; cbn [width height baseline plot len mmax].
  - apply (usable_max 0 (o_width o) E0 Hw).
  - apply usable_or_one, Hl.
  - apply usable_or_one, Hm.
  - split; assumption.
  - pose proof Eb as (Wb & Fb & _). destruct b as [| |b]; try discriminate. apply nle_Fin in Tb.
    destruct (extent_sub b 2 Eb) as [P1 P2]; [lra|]. fold LEVEL_GRAPH_TOP_PAD in *.
    pose proof P1 as (Wp & Fp & Pp). unfold LEVEL_GRAPH_TOP_PAD in *.
    destruct (Fin b - Fin 2)%num as [| |p]; try discriminate.
    destruct (nmax_spec (Fin 1) (Fin p)) as (M1 & M2 & M3); [discriminate..|].
    split.
    + split; [apply nmax_wf; [apply E1|exact Wp]|]. split; [destruct M3 as [-> | ->]; reflexivity|].
      exact (nle_trans _ _ _ Pp M2).
    + destruct M3 as [-> | ->]; [apply nle_Fin; lra|exact P2].
Qed.

Lemma share_down sc v l : scale_ok sc -> v <> NaN -> extent l -> nlt zero l ->
  nle zero (baseline sc - share v l (plot sc))%num /\ nle (baseline sc - share v l (plot sc))%num (baseline sc).
Proof.
  intros [_ _ _ [(Wb & Fb & Hb) _] [Ep Hp]] Hv El Pl. destruct (share_bounds v l (plot sc) Hv El Pl Ep) as [S1 S2].
  destruct Ep as (_ & Fp & _). destruct (plot sc) as [| |p]; try discriminate.
  destruct (baseline sc) as [| |b]; try discriminate. apply nle_Fin in Hp. eapply nsub_bounds; eassumption.
Qed.

Lemma share_down_anti sc u v l : scale_ok sc -> nle u v -> extent l -> nlt zero l ->
  nle (baseline sc - share v l (plot sc))%num (baseline sc - share u l (plot sc))%num.
Proof.
  intros [_ _ _ [(Wb & Fb & Hb) _] [Ep Hp]] Huv El Pl. destruct (nle_not_NaN _ _ Huv) as [Hu Hv].
  pose proof Ep as (_ & Fp & _).
  destruct (share_bounds u l _ Hu El Pl Ep) as [A1 A2]. destruct (share_bounds v l _ Hv El Pl Ep) as [B1 B2].
  destruct (baseline sc) as [| |b]; try discriminate.
  apply nsub_anti; [exact (nle_between_finite _ _ _ A1 A2 eq_refl Fp)|exact (nle_between_finite _ _ _ B1 B2 eq_refl Fp)|].
  apply share_mono; assumption.
Qed.

(** Later times are drawn no further left and higher levels no lower down;
    every time lands inside the strip's width and both curves stay between the
    top of the strip and the baseline, whatever times and levels are drawn. *)
Theorem levelGraphScale_inside (o : opts) (u v : num) :
  usable (o_width o) -> usable (o_height o) -> usable (o_eventLength o) -> usable (o_motionMax o) ->
  nle u v ->
  let sc := levelGraphScale o in
  (nle zero (scale_x sc u) /\ nle (scale_x sc u) (scale_x sc v) /\ nle (scale_x sc v) (width sc)) /\
  (nle zero (yMotion sc v) /\ nle (yMotion sc v) (yMotion sc u) /\ nle (yMotion sc u) (baseline sc)) /\
  (nle zero (yAudio sc v) /\ nle (yAudio sc v) (yAudio sc u) /\ nle (yAudio sc u) (baseline sc)) /\
  nle (baseline sc) (height sc).
Proof.
  intros Hw Hh Hl Hm Huv. cbv zeta. destruct (nle_not_NaN _ _ Huv) as [Hu Hv].
  pose proof (levelGraphScale_ok o Hw Hh Hl Hm) as OK. set (sc := levelGraphScale o) in *.
  assert (E100 : extent (Fin 100) /\ nlt zero (Fin 100)) by (repeat split; apply (wf_Z 100); lia).
  destruct E100 as [E100 P100]. pose proof OK as [Ew [El Pl] [Em Pm] [_ Hbh] _].
  change (scale_x sc) with (fun t => share t (len sc) (width sc)).
  change (yMotion sc) with (fun s => (baseline sc - share s (mmax sc) (plot sc))%num).
  change (yAudio sc) with (fun s => (baseline sc - share s (Fin 100) (plot sc))%num). cbv beta.
  split; [|split; [|split]]; [| | |exact Hbh].
  - destruct (share_bounds u _ _ Hu El Pl Ew), (share_bounds v _ _ Hv El Pl Ew).
    split; [assumption|]. split; [apply share_mono|]; assumption.
  - destruct (share_down sc u _ OK Hu Em Pm), (share_down sc v _ OK Hv Em Pm).
    split; [assumption|]. split; [apply share_down_anti|]; assumption.
  - destruct (share_down sc u _ OK Hu E100 P100), (share_down sc v _ OK Hv E100 P100).
    split; [assumption|]. split; [apply share_down_anti|]; assumption.
Qed.

Definition demo_opts : opts := Opts (Fin 300) (Fin 60) (Fin 10) (Fin 640).

Lemma levelGraphScale_inside_witness :
  let sc := levelGraphScale demo_opts in
  (nle zero (scale_x sc (Fin 2)) /\ nle (scale_x sc (Fin 2)) (scale_x sc (Fin 7)) /\ nle (scale_x sc (Fin 7)) (width sc)) /\
  (nle zero (yMotion sc (Fin 7)) /\ nle (yMotion sc (Fin 7)) (yMotion sc (Fin 2)) /\ nle (yMotion sc (Fin 2)) (baseline sc)) /\
  (nle zero (yAudio sc (Fin 7)) /\ nle (yAudio sc (Fin 7)) (yAudio sc (Fin 2)) /\ nle (yAudio sc (Fin 2)) (baseline sc)) /\
  nle (baseline sc) (height sc).
Proof.
  apply (levelGraphScale_inside demo_opts (Fin 2) (Fin 7)); try reflexivity; right; (split; [|reflexivity]).
  - exact (wf_Z 300 ltac:(lia)).
  - exact (wf_Z 60 ltac:(lia)).
  - exact (wf_Z 10 ltac:(lia)).
  - exact (wf_Z 640 ltac:(lia)).
Defined.

(** ** Markup *)

(** Text without the characters that end an attribute or open a tag. *)
Definition inert (c : ascii) : Prop := c <> "<"%char /\ c <> ">"%char /\ c <> quote.

(** How an XML reader takes an attribute value or text apart: entity references
    stand for their character, and [<], [>] and the quote stand for nothing. *)
Inductive reads : string -> string -> Prop :=
| reads_nil : reads "" ""
| reads_char c r s : inert c -> c <> "&"%char -> reads r s -> reads (String c r) (String c s)
| reads_amp r s : reads r s -> reads ("&amp;" ++ r) (String "&" s)
| reads_lt r s : reads r s -> reads ("&lt;" ++ r) (String "<" s)
| reads_gt r s : reads r s -> reads ("&gt;" ++ r) (String ">" s)
| reads_quot r s : reads r s -> reads ("&quot;" ++ r) (String quote s).

Lemma replace_all_app c w a b : replace_all c w (a ++ b) = replace_all c w a ++ replace_all c w b.
Proof. induction a as [|d a IH]; cbn; [reflexivity|]. rewrite IH. symmetry. apply append_assoc. Qed.

Lemma escapeXml_cons c s : escapeXml (String c s) = escapeXml (str1 c) ++ escapeXml s.
Proof.
  change (String c s) with (str1 c ++ s). unfold escapeXml. rewrite !replace_all_app. reflexivity.
Qed.

Lemma replace_all_other c d w : d <> c -> replace_all c w (str1 d) = str1 d.
Proof. intros H. cbn. rewrite (proj2 (Ascii.eqb_neq d c) H). reflexivity. Qed.

Lemma escapeXml_other c : inert c -> c <> "&"%char -> escapeXml (str1 c) = str1 c.
Proof.
  intros (H1 & H2 & H3) H4. unfold escapeXml. rewrite !replace_all_other by assumption. reflexivity.
Qed.

(** An XML reader gets a label's text back from the markup, and on the way
    no character of it can open a tag or close an attribute. *)
Theorem escapeXml_reads (text : string) : reads (escapeXml text) text.
Proof.
  induction text as [|c s IH]; [constructor|]. rewrite escapeXml_cons.
  destruct (ascii_dec c "&") as [->|Ha]; [exact (reads_amp _ _ IH)|].
  destruct (ascii_dec c "<") as [->|Hl]; [exact (reads_lt _ _ IH)|].
  destruct (ascii_dec c ">") as [->|Hg]; [exact (reads_gt _ _ IH)|].
  destruct (ascii_dec c quote) as [->|Hq]; [exact (reads_quot _ _ IH)|].
  assert (Hi : inert c) by (repeat split; assumption).
  rewrite (escapeXml_other c Hi Ha). exact (reads_char c _ _ Hi Ha IH).
Qed.

(** ** The live meter *)

(** Whatever the daemon reports, the meter's fill is a whole percentage from
    0 to 100; with no reading it is empty, says so and is not in alarm. *)
Theorem levelMeterState_bounds (level : option num) (alarm : bool) (message : string) :
  let m := levelMeterState level alarm message in
  (exists z, percent m = Fin (inject_Z z) /\ 0 <= z <= 100) /\
  ((level = None \/ exists l, level = Some l /\ isFinite l = false) ->
   percent m = zero /\ m_alarm m = false /\
   m_text m = if String.eqb message "" then "no reading" else message).
Proof.
  cbv zeta. split.
  - destruct level as [[| |l]|]; cbn [levelMeterState isFinite negb percent];
      try (exists 0; split; [reflexivity|lia]).
    cbn [nround]. set (z := Qfloor (l + (1 # 2))).
    assert (Le : forall a b, Qle_bool (inject_Z a) (inject_Z b) = (a <=? b)%Z).
    { intros a b. apply Bool.eq_iff_eq_true. rewrite Qle_bool_iff, <- Zle_Qle, Z.leb_le. reflexivity. }
    unfold zero, nmax. cbn [nleb]. change 0%Q with (inject_Z 0). rewrite Le.
    destruct (z <=? 0)%Z eqn:E1; bool_to_prop; [exists 0; split; [reflexivity|lia]|].
    unfold nmin. cbn [nleb]. change 100%Q with (inject_Z 100). rewrite Le.
    destruct (z <=? 100)%Z eqn:E2; bool_to_prop; eexists; (split; [reflexivity|lia]).
  - intros [->|(l & -> & Hf)]; cbn [levelMeterState].
    + repeat split.
    + rewrite Hf. repeat split.
Qed.

Lemma levelMeterState_bounds_witness :
  let m := levelMeterState (Some NaN) true "" in
  (exists z, percent m = Fin (inject_Z z) /\ 0 <= z <= 100) /\
  ((Some NaN = None \/ exists l, Some NaN = Some l /\ isFinite l = false) ->
   percent m = zero /\ m_alarm m = false /\ m_text m = "no reading").
Proof. exact (levelMeterState_bounds (Some NaN) true ""). Defined.

Example demo_readout :
  levelGraphReadout (Some (levelGraphSeries demo_frames (VNum (Fin 10)))) (Fin 4) = "motion 640, audio 100".
Proof. reflexivity. Qed.

End LevelGraph.
