(* ===== verification/EncoderTemplates.v ===== *)
(** views/js/monitor-encoder-templates.js: encoder parameter templates on the
    monitor form.

    The text of the parameters and its list of pairs, merging a template into
    it, the check for unknown keys, and the page: the encoder and template
    selects, the text area and the diagnostics line. *)
From S2P Require Import JsString.

Module Encoder.

(** ** The parameter text *)

Record entry := Entry { key : string; value : string }.

(** [/[#,\n]/] *)
Definition separators : string := String "#" (String "," (str1 newline)).

(** One piece of the text: [None] where the loop continues or the key is empty. *)
Definition parse_pair (p : string) : option entry :=
  match index_of "=" p with
  | None => None
  | Some idx =>
      let k := trim (slice p 0 idx) in
      let v := trim (slice_from p (idx + 1)) in
      if String.eqb k "" then None else Some (Entry k v)
  end.

Definition parseParams (text : string) : list entry :=
  if String.eqb text "" then [] else omap parse_pair (split_any separators text).

Definition serializeParams (arr : list entry) : string :=
  match arr with
  | [] => ""
  | _ => join (str1 newline) (map (fun e => key e ++ "=" ++ value e) arr)
  end.

(** A template's [params], in the order [for in] enumerates them. *)
Abbreviation params := (list (string * jsval)).

(** [for (i..) positions[result[i].key] = i], from index [i] on. *)
Fixpoint positions_from (i : nat) (es : list entry) (positions : gmap string nat) : gmap string nat :=
  match es with
  | [] => positions
  | e :: es => positions_from (S i) es (<[key e := i]> positions)
  end.

(** One key of the template. *)
Definition merge_step (st : list entry * gmap string nat) (kv : string * jsval) : list entry * gmap string nat :=
  let '(result, positions) := st in
  let '(k, tv) := kv in
  let v := js_to_string tv in
  match positions !! k with
  | Some p =>
      (match result !! p with
       | Some e => <[p := Entry (key e) v]> result
       | None => result
       end, positions)
  | None => ((result ++ [Entry k v])%list, <[k := length result]> positions)
  end.

Definition mergeParams (existing : list entry) (templateParams : params) : list entry :=
  fst (fold_left merge_step templateParams (existing, positions_from 0 existing ∅)).

(** ** Templates *)

Record template := Template {
  t_id : jsval; t_name : string; t_description : string; t_params : params;
}.

(** What the page knows of an encoder; [None] for a member that is missing. *)
Record codec := Codec { valid_keys : option (list string); templates : option (list template) }.

Abbreviation catalogue := (gmap string codec).

Definition lint_step (validSet : gset string) (st : list string * gset string) (e : entry) : list string * gset string :=
  let '(out, seen) := st in
  if negb (bool_decide (key e ∈ validSet)) && negb (bool_decide (key e ∈ seen))
  then ((out ++ [key e])%list, {[key e]} ∪ seen)
  else (out, seen).

Definition lint (parsed : list entry) (encoder : string) (cat : catalogue) : list string :=
  if String.eqb encoder "" then [] else
  match cat !! encoder with
  | None => []
  | Some c =>
      let valid := default [] (valid_keys c) in
      let validSet : gset string := list_to_set valid in
      fst (fold_left (lint_step validSet) parsed ([], ∅))
  end.

Definition templates_of (cat : catalogue) (encoder : string) : option (list template) :=
  match cat !! encoder with Some c => templates c | None => None end.

Definition findTemplate (cat : catalogue) (encoder : string) (templateId : jsval) : option template :=
  match templates_of cat encoder with
  | None => None
  | Some ts => List.find (fun t => (js_Number (t_id t) =? js_Number templateId)%num) ts
  end.

Definition findTemplateByName (encoder name : string) (cat : catalogue) : option template :=
  if String.eqb name "" then None else
  match templates_of cat encoder with
  | None => None
  | Some ts => List.find (fun t => String.eqb (toLowerCase (t_name t)) (toLowerCase name)) ts
  end.

(** ** The page *)

Record option_el := Option { o_value : string; o_text : string; o_title : option string }.

Record page := Page {
  has_row : bool;                 (* EncoderTemplateRow is on the page *)
  has_diag : bool;                (* EncoderParameterDiagnostics is on the page *)
  encoder : string;               (* ZmEncoder *)
  options : list option_el;       (* EncoderTemplate *)
  selectedIndex : option nat;
  row_shown : bool;
  textarea : string;              (* EncoderParameters *)
  diag : string;
  diag_shown : bool;
  lastAppliedName : option string;
}.
#[export] Instance eta_page : Eta page := fun s =>
  Page (has_row s) (has_diag s) (encoder s) (options s) (selectedIndex s) (row_shown s) (textarea s)
       (diag s) (diag_shown s) (lastAppliedName s).

Section Page.
Context (cat : catalogue).

Definition option_of (t : template) : option_el :=
  Option (js_to_string (t_id t)) (t_name t)
    (if String.eqb (t_description t) "" then None else Some (t_description t)).

Definition repopulateTemplates (s : page) : page :=
  if negb (has_row s) then s else
  let s := s <| options := [] |> <| selectedIndex := None |> in
  match templates_of cat (encoder s) with
  | None | Some [] => s <| row_shown := false |>
  | Some ts => s <| row_shown := true |> <| options := map option_of ts |> <| selectedIndex := Some 0%nat |>
  end.

Definition tick (k : string) : string := "`" ++ k ++ "`".

Definition runLint (s : page) : page :=
  if negb (has_diag s) then s else
  match lint (parseParams (textarea s)) (encoder s) cat with
  | [] => s <| diag := "" |> <| diag_shown := false |>
  | unknown =>
      s <| diag_shown := true |>
        <| diag := "Note: " ++ join ", " (map tick unknown) ++ " are not recognised options for `" ++
             encoder s ++ "` and will be ignored at runtime." |>
  end.

Definition applyTemplate (templateId : jsval) (s : page) : page :=
  if negb (js_truthy templateId) then s else
  match findTemplate cat (encoder s) templateId with
  | None => s
  | Some template =>
      let merged := mergeParams (parseParams (textarea s)) (t_params template) in
      let s := s <| textarea := serializeParams merged |> <| lastAppliedName := Some (t_name template) |> in
      runLint s
  end.

(** [confirm] is the user's answer, asked for only where the code asks. *)
Definition onEncoderChange (confirm : bool) (s : page) : page :=
  let previousName := lastAppliedName s in
  let s := runLint (repopulateTemplates s) in
  match previousName with
  | None => s
  | Some name =>
      match findTemplateByName (encoder s) name cat with
      | None => s
      | Some m => if confirm then applyTemplate (t_id m) s else s
      end
  end.

(** The value of the template select: that of the selected option. *)
Definition select_value (s : page) : string :=
  match selectedIndex s with
  | Some i => match options s !! i with Some o => o_value o | None => "" end
  | None => ""
  end.

Definition init (s : page) : page := runLint (repopulateTemplates s).

(** What the user does on the page, with the listener each action runs. *)
Inductive event :=
| ChangeEncoder (v : string) (confirm : bool)
| ClickApply
| ChangeTemplate (i : nat)
| InputText (text : string).

Definition handle (e : event) (s : page) : page :=
  match e with
  | ChangeEncoder v confirm => onEncoderChange confirm (s <| encoder := v |>)
  | ClickApply => applyTemplate (VStr (select_value s)) s
  | ChangeTemplate i =>
      if (i <? length (options s))%nat then
        let s := s <| selectedIndex := Some i |> in
        match options s !! i with
        | Some opt => s <| lastAppliedName := Some (o_text opt) |>
        | None => s
        end
      else s
  | InputText text => runLint (s <| textarea := text |>)
  end.
End Page.

(** ** Trimming *)

Lemma trim_end_nil s : trim_end s = "" -> all_chars is_ws s = true.
Proof.
  induction s as [|c s IH]; cbn; [reflexivity|]. destruct (trim_end s); [|discriminate].
  destruct (is_ws c); [|discriminate]. intros _. apply IH. reflexivity.
Qed.

Lemma trim_end_idem s : trim_end (trim_end s) = trim_end s.
Proof.
  induction s as [|c s IH]; cbn; [reflexivity|]. destruct (trim_end s) as [|d t] eqn:E.
  - destruct (is_ws c) eqn:W; [reflexivity|]. cbn. rewrite W. reflexivity.
  - cbn [trim_end] in *. rewrite IH. reflexivity.
Qed.

Lemma trim_start_end s : trim_start s = s -> trim_start (trim_end s) = trim_end s.
Proof.
  destruct s as [|c s]; [reflexivity|]. cbn. destruct (is_ws c) eqn:W.
  - intros H. exfalso. assert (L : forall s, (String.length (trim_start s) <= String.length s)%nat).
    { clear. induction s as [|c s IH]; cbn; [lia|]. destruct (is_ws c); cbn; lia. }
    specialize (L s). rewrite H in L. cbn in L. lia.
  - intros _. destruct (trim_end s); cbn; rewrite W; reflexivity.
Qed.

Lemma trim_start_idem s : trim_start (trim_start s) = trim_start s.
Proof.
  induction s as [|c s IH]; [reflexivity|]. cbn. destruct (is_ws c) eqn:W; [exact IH|]. cbn. rewrite W. reflexivity.
Qed.

Lemma trim_idem s : trim (trim s) = trim s.
Proof.
  unfold trim. rewrite trim_start_end by apply trim_start_idem. apply trim_end_idem.
Qed.

Lemma trim_start_chars p s : all_chars p s = true -> all_chars p (trim_start s) = true.
Proof.
  induction s as [|c s IH]; cbn; [reflexivity|]. intros H. destruct (is_ws c); [|exact H].
  apply IH. apply andb_true_iff in H. apply H.
Qed.

Lemma trim_end_chars p s : all_chars p s = true -> all_chars p (trim_end s) = true.
Proof.
  induction s as [|c s IH]; cbn; [reflexivity|]. intros H. apply andb_true_iff in H as [Hc Hs].
  specialize (IH Hs). destruct (trim_end s); [destruct (is_ws c); cbn; rewrite ?Hc; reflexivity|].
  cbn [all_chars] in *. rewrite Hc, IH. reflexivity.
Qed.

Lemma trim_chars p s : all_chars p s = true -> all_chars p (trim s) = true.
Proof. intros H. apply trim_end_chars, trim_start_chars, H. Qed.

(** ** Splitting and finding *)

(** No character of [s] is one of [seps]. *)
Definition free (seps s : string) : bool := all_chars (fun c => negb (includes_char seps c)) s.

Lemma split_any_free seps s : Forall (fun w => free seps w = true) (split_any seps s).
Proof.
  induction s as [|c s IH]; cbn [split_any]; [repeat constructor|].
  destruct (includes_char seps c) eqn:E; [constructor; [reflexivity|exact IH]|].
  destruct (split_any seps s) as [|w ws]; cbn; repeat constructor; cbn; rewrite ?E; try reflexivity.
  - apply Forall_cons in IH. apply IH.
  - apply Forall_cons in IH. apply IH.
Qed.

Lemma split_any_one seps w : free seps w = true -> split_any seps w = [w].
Proof.
  induction w as [|c w IH]; cbn; [reflexivity|]. intros H. bool_to_prop. rewrite H.
  rewrite IH by assumption. reflexivity.
Qed.

Lemma split_any_app seps w c s : free seps w = true -> includes_char seps c = true ->
  split_any seps (w ++ String c s) = w :: split_any seps s.
Proof.
  induction w as [|d w IH]; cbn; intros Hw Hc; [rewrite Hc; reflexivity|].
  apply andb_true_iff in Hw as [Hd Hw]. apply negb_true_iff in Hd. rewrite Hd, IH by assumption. reflexivity.
Qed.

Lemma join_cons sep w x ws : join sep (w :: x :: ws) = w ++ sep ++ join sep (x :: ws).
Proof. reflexivity. Qed.

Lemma split_any_join seps c ws : includes_char seps c = true -> ws <> [] ->
  Forall (fun w => free seps w = true) ws -> split_any seps (join (str1 c) ws) = ws.
Proof.
  intros Hc Hne H. induction H as [|w ws Hw H IH]; [congruence|].
  destruct ws as [|x ws]; [apply split_any_one, Hw|]. rewrite join_cons.
  change (str1 c ++ join (str1 c) (x :: ws)) with (String c (join (str1 c) (x :: ws))).
  rewrite split_any_app by assumption. rewrite IH by discriminate. reflexivity.
Qed.

Lemma index_of_char c k s : all_chars (fun d => negb (Ascii.eqb c d)) k = true ->
  index_of (str1 c) (k ++ String c s) = Some (String.length k).
Proof.
  induction k as [|d k IH]; cbn.
  - rewrite Ascii.eqb_refl. reflexivity.
  - intros H. bool_to_prop. rewrite H. cbn. rewrite IH by assumption. reflexivity.
Qed.

Lemma index_of_char_prefix c s : forall i, index_of (str1 c) s = Some i ->
  all_chars (fun d => negb (Ascii.eqb c d)) (slice s 0 i) = true.
Proof.
  induction s as [|d s IH]; intros i; cbn; [discriminate|].
  destruct (Ascii.eqb c d) eqn:E; cbn.
  - intros [= <-]. reflexivity.
  - destruct (index_of (str1 c) s) as [j|]; [|discriminate]. intros [= <-]. cbn. rewrite E. specialize (IH j eq_refl).
    unfold slice in IH. rewrite Nat.sub_0_r in IH. exact IH.
Qed.

Lemma substring_chars p s : all_chars p s = true -> forall n m, all_chars p (String.substring n m s) = true.
Proof.
  induction s as [|c s IH]; cbn; intros H n m; [destruct n, m; reflexivity|].
  apply andb_true_iff in H as [Hc Hs]. destruct n as [|n].
  - destruct m as [|m]; [reflexivity|]. cbn. rewrite Hc. apply IH, Hs.
  - apply IH, Hs.
Qed.

(** ** Round trip *)

(** What the parser makes of every pair. *)
Record clean (e : entry) : Prop := {
  cl_key : key e <> "" /\ trim (key e) = key e /\ free separators (key e) = true /\
           all_chars (fun d => negb (Ascii.eqb "=" d)) (key e) = true;
  cl_value : trim (value e) = value e /\ free separators (value e) = true;
}.

Lemma parse_pair_clean p e : free separators p = true -> parse_pair p = Some e -> clean e.
Proof.
  intros Hp. unfold parse_pair. destruct (index_of "=" p) as [i|] eqn:E; [|discriminate].
  destruct (String.eqb (trim (slice p 0 i)) "") eqn:N; [discriminate|]. intros [= <-]. bool_to_prop.
  apply (index_of_char_prefix "=") in E.
  split; cbn [key value]; repeat split; try assumption; try apply trim_idem; apply trim_chars;
    try assumption; apply substring_chars, Hp.
Qed.

Lemma parse_pair_print e : clean e -> parse_pair (key e ++ "=" ++ value e) = Some e.
Proof.
  intros [(K1 & K2 & K3 & K4) (V1 & V2)]. unfold parse_pair.
  change ("=" ++ value e) with (String "=" (value e)).
  change "=" with (str1 "=") at 1. rewrite index_of_char by exact K4.
  unfold slice_from, slice. rewrite Nat.sub_0_r, substring_app_l, substring_app_r.
  cbn [String.substring]. rewrite append_length. cbn [String.length].
  replace (String.length (key e) + S (String.length (value e)) - (String.length (key e) + 1))%nat
    with (String.length (value e)) by lia.
  rewrite substring_all, K2, V1. apply String.eqb_neq in K1. rewrite K1. destruct e; reflexivity.
Qed.

Lemma clean_print_free e : clean e -> free separators (key e ++ "=" ++ value e) = true.
Proof.
  intros [(K1 & K2 & K3 & K4) (V1 & V2)]. unfold free in *. rewrite !all_chars_app, K3, V2. reflexivity.
Qed.

Lemma parse_serialize es : Forall clean es -> parseParams (serializeParams es) = es.
Proof.
  intros H. destruct es as [|e es]; [reflexivity|].
  assert (J : split_any separators (serializeParams (e :: es)) =
              map (fun e => key e ++ "=" ++ value e) (e :: es)).
  { apply split_any_join; [reflexivity|discriminate|]. apply Forall_map.
    eapply Forall_impl; [exact H|]. exact clean_print_free. }
  unfold parseParams. destruct (String.eqb (serializeParams (e :: es)) "") eqn:N.
  - bool_to_prop. rewrite N in J. cbn in J. destruct es; [|discriminate]. injection J as J.
    destruct (key e); discriminate.
  - rewrite J. clear J N. induction H as [|e' es' He H IH]; [reflexivity|].
    cbn [map]. cbn [omap list_omap]. rewrite parse_pair_print by exact He. f_equal. exact IH.
Qed.

Lemma parseParams_clean text : Forall clean (parseParams text).
Proof.
  unfold parseParams. destruct (String.eqb text ""); [constructor|].
  apply Forall_forall. intros e He. apply list_elem_of_omap in He as (p & Hp & E).
  eapply parse_pair_clean; [|exact E]. pose proof (split_any_free separators text) as F.
  rewrite Forall_forall in F. apply F, Hp.
Qed.

(** Rewriting a text of parameters as one [key=value] per line changes none of
    its pairs; and any pairs with a key, trimmed and free of separators, are read
    back from their text. *)
Theorem parseParams_serializeParams (text : string) (es : list entry) :
  Forall clean es ->
  parseParams (serializeParams es) = es /\
  Forall clean (parseParams text) /\
  parseParams (serializeParams (parseParams text)) = parseParams text.
Proof.
  intros H. pose proof (parseParams_clean text) as C.
  split; [apply parse_serialize, H|]. split; [exact C|]. apply parse_serialize, C.
Qed.

Lemma parseParams_serializeParams_witness :
  parseParams (serializeParams [Entry "crf" "23"]) = [Entry "crf" "23"] /\
  Forall clean (parseParams " preset = fast,crf=2=3#x,=1") /\
  parseParams (serializeParams (parseParams " preset = fast,crf=2=3#x,=1")) =
  parseParams " preset = fast,crf=2=3#x,=1".
Proof.
  apply (parseParams_serializeParams " preset = fast,crf=2=3#x,=1" [Entry "crf" "23"]).
  repeat constructor. discriminate.
Defined.

(** ** Merging *)

(** The value a key ends up with when the pairs are read in order. *)
Fixpoint in_effect (k : string) (es : list entry) : option string :=
  match es with
  | [] => None
  | e :: es => match in_effect k es with
               | Some v => Some v
               | None => if String.eqb (key e) k then Some (value e) else None
               end
  end.

(** The index at which each key occurs last. *)
Definition pos (es : list entry) : gmap string nat := positions_from 0 es ∅.

(** What one key of the template does to the list, without the index. *)
Definition set_param (k v : string) (es : list entry) : list entry :=
  match pos es !! k with
  | Some p => <[p := Entry k v]> es
  | None => (es ++ [Entry k v])%list
  end.

Lemma positions_from_app a b : forall i m,
  positions_from i (a ++ b) m = positions_from (length a + i) b (positions_from i a m).
Proof.
  induction a as [|e a IH]; intros i m; [reflexivity|]. cbn. rewrite IH.
  f_equal. lia.
Qed.

Lemma pos_snoc es e : pos (es ++ [e]) = <[key e := length es]> (pos es).
Proof. unfold pos. rewrite positions_from_app. cbn. rewrite Nat.add_0_r. reflexivity. Qed.

Lemma in_effect_snoc k es e :
  in_effect k (es ++ [e]) = if String.eqb (key e) k then Some (value e) else in_effect k es.
Proof.
  induction es as [|x es IH]; cbn; [destruct (String.eqb _ _); reflexivity|]. rewrite IH.
  destruct (String.eqb (key e) k); reflexivity.
Qed.

Lemma pos_keys es es' : map key es = map key es' -> pos es = pos es'.
Proof.
  unfold pos. generalize 0%nat as i, (∅ : gmap string nat) as m. revert es'.
  induction es as [|e es IH]; intros [|e' es'] i m H; try discriminate; [reflexivity|].
  cbn in H. injection H as H1 H2. cbn. rewrite H1. apply IH, H2.
Qed.

Lemma pos_spec es k : match pos es !! k with
  | Some p => exists e, es !! p = Some e /\ key e = k /\ in_effect k es = Some (value e)
  | None => k ∉ map key es /\ in_effect k es = None
  end.
Proof.
  induction es as [|e es IH] using rev_ind; [cbn; split; [apply not_elem_of_nil|reflexivity]|].
  rewrite pos_snoc, in_effect_snoc. destruct (String.eqb (key e) k) eqn:E; bool_to_prop.
  - subst k. rewrite lookup_insert_eq. exists e. rewrite lookup_app_r by lia. rewrite Nat.sub_diag.
    repeat split.
  - rewrite lookup_insert_ne by exact E. destruct (pos es !! k) as [p|].
    + destruct IH as (e' & H1 & H2 & H3). exists e'. split; [apply lookup_app_l_Some, H1|]. split; assumption.
    + destruct IH as [H1 H2]. split; [|exact H2]. rewrite map_app, elem_of_app. intros [H|H]; [exact (H1 H)|].
      apply list_elem_of_singleton in H. congruence.
Qed.

Lemma map_key_insert p e es e' : es !! p = Some e -> key e = key e' -> map key (<[p := e']> es) = map key es.
Proof.
  intros H E. change (map key) with (@fmap list _ _ _ key). rewrite list_fmap_insert.
  apply list_insert_id. rewrite list_lookup_fmap, H. cbn. rewrite E. reflexivity.
Qed.

Lemma merge_step_set es k tv :
  merge_step (es, pos es) (k, tv) =
  (set_param k (js_to_string tv) es, pos (set_param k (js_to_string tv) es)).
Proof.
  unfold merge_step, set_param. pose proof (pos_spec es k) as H. destruct (pos es !! k) as [p|].
  - destruct H as (e & H1 & H2 & _). rewrite H1, H2. f_equal. apply pos_keys. symmetry.
    eapply map_key_insert; [exact H1|exact H2].
  - rewrite pos_snoc. reflexivity.
Qed.

Lemma mergeParams_fold es t :
  mergeParams es t = fold_left (fun es kv => set_param (fst kv) (js_to_string (snd kv)) es) t es.
Proof.
  unfold mergeParams. fold (pos es). revert es.
  induction t as [|[k tv] t IH]; intros es; [reflexivity|]. cbn [fold_left fst snd].
  rewrite merge_step_set. apply IH.
Qed.

Lemma set_param_effect k v es k' :
  in_effect k' (set_param k v es) = if String.eqb k k' then Some v else in_effect k' es.
Proof.
  unfold set_param. pose proof (pos_spec es k) as H. destruct (pos es !! k) as [p|] eqn:Ep.
  - destruct H as (e & H1 & H2 & _).
    assert (P : pos (<[p := Entry k v]> es) = pos es) by (apply pos_keys; eapply map_key_insert; eassumption).
    pose proof (pos_spec (<[p := Entry k v]> es) k') as H'. rewrite P in H'.
    destruct (String.eqb k k') eqn:E; bool_to_prop.
    + subst k'. rewrite Ep in H'. destruct H' as (e' & H3 & _ & ->).
      rewrite list_lookup_insert_eq in H3 by (apply lookup_lt_Some in H1; exact H1).
      injection H3 as <-. reflexivity.
    + pose proof (pos_spec es k') as H''. destruct (pos es !! k') as [p'|].
      * destruct H' as (e' & H3 & H4 & ->). destruct H'' as (e'' & H5 & H6 & ->).
        rewrite list_lookup_insert_ne in H3; [congruence|]. intros ->. congruence.
      * destruct H' as [_ ->], H'' as [_ ->]. reflexivity.
  - rewrite in_effect_snoc. reflexivity.
Qed.

Lemma set_param_keys k v es :
  map key (set_param k v es) = if bool_decide (k ∈ map key es) then map key es else (map key es ++ [k])%list.
Proof.
  unfold set_param. pose proof (pos_spec es k) as H. destruct (pos es !! k) as [p|].
  - destruct H as (e & H1 & H2 & _). rewrite bool_decide_true.
    + eapply map_key_insert; eassumption.
    + rewrite <- H2. apply list_elem_of_fmap_2. eapply list_elem_of_lookup_2, H1.
  - destruct H as [H _]. rewrite bool_decide_false by exact H. apply map_app.
Qed.

Lemma set_param_clean k v es : clean (Entry k v) -> Forall clean es -> Forall clean (set_param k v es).
Proof.
  intros Hc H. unfold set_param. destruct (pos es !! k); [apply Forall_insert; assumption|].
  apply Forall_app. repeat constructor; try assumption; apply Hc.
Qed.

Lemma merge_effect t k : NoDup (map fst t) -> forall es,
  in_effect k (mergeParams es t) =
  match (list_to_map t : gmap string jsval) !! k with
  | Some v => Some (js_to_string v)
  | None => in_effect k es
  end.
Proof.
  intros Hd es. rewrite mergeParams_fold. revert es. induction t as [|[k0 v0] t IH]; intros es; [reflexivity|].
  cbn [map fst] in Hd. apply NoDup_cons in Hd as [Hk Hd]. cbn [fold_left fst snd]. rewrite IH by exact Hd.
  rewrite set_param_effect. cbn [list_to_map fst snd]. destruct (String.eqb k0 k) eqn:E; bool_to_prop.
  - subst k0. rewrite not_elem_of_list_to_map_1 by exact Hk. cbn. rewrite lookup_insert_eq. reflexivity.
  - cbn. rewrite lookup_insert_ne by exact E. reflexivity.
Qed.

(** The keys a merge appends, in the order of the template. *)
Definition new_keys (t : params) (es : list entry) : list string :=
  filter (fun k => k ∉ map key es) (map fst t).

Lemma merge_keys t : NoDup (map fst t) -> forall es,
  map key (mergeParams es t) = (map key es ++ new_keys t es)%list.
Proof.
  intros Hd es. rewrite mergeParams_fold. revert es. unfold new_keys.
  induction t as [|[k v] t IH]; intros es; cbn [fold_left map fst snd]; [symmetry; apply app_nil_r|].
  cbn [map fst] in Hd. apply NoDup_cons in Hd as [Hk Hd]. rewrite IH by exact Hd. rewrite set_param_keys.
  rewrite filter_cons. case_bool_decide as B.
  - rewrite decide_False by (intros N; exact (N B)). reflexivity.
  - rewrite decide_True by exact B. rewrite <- app_assoc. do 2 f_equal.
    apply filter_ext_in. intros x Hx. rewrite elem_of_app, list_elem_of_singleton.
    split; [intros N C; apply N; left; exact C|]. intros N [C|C]; [exact (N C)|]. subst x. exact (Hk Hx).
Qed.

(** ** Applying a template *)

Lemma set_param_id k v es : in_effect k es = Some v -> set_param k v es = es.
Proof.
  intros H. unfold set_param. pose proof (pos_spec es k) as P. destruct (pos es !! k) as [p|].
  - destruct P as (e & H1 & H2 & H3). apply list_insert_id. rewrite H1. rewrite H in H3. injection H3 as ->.
    rewrite <- H2. destruct e; reflexivity.
  - destruct P as [_ P]. congruence.
Qed.

Lemma merge_id t es : (forall k v, (k, v) ∈ t -> in_effect k es = Some (js_to_string v)) -> mergeParams es t = es.
Proof.
  rewrite mergeParams_fold. intros Hk. induction t as [|[k v] t IH]; [reflexivity|]. cbn [fold_left fst snd].
  rewrite set_param_id by (apply Hk, list_elem_of_here). apply IH. intros k' v' Hin. apply Hk, list_elem_of_further, Hin.
Qed.

Lemma merge_clean t es : Forall clean es ->
  Forall (fun kv => clean (Entry (fst kv) (js_to_string (snd kv)))) t -> Forall clean (mergeParams es t).
Proof.
  rewrite mergeParams_fold. intros He Ht. revert es He. induction Ht as [|kv t Hkv Ht IH]; intros es He; [exact He|].
  apply IH, set_param_clean; assumption.
Qed.

Lemma runLint_frame cat s :
  textarea (runLint cat s) = textarea s /\ encoder (runLint cat s) = encoder s /\
  lastAppliedName (runLint cat s) = lastAppliedName s.
Proof. destruct s. unfold runLint. repeat break_match; repeat split. Qed.

(** C33: applying a template puts every one of its parameters in effect, leaves the
    value in effect for every other key as it was, keeps the keys where they
    were and appends the new ones in the template's order; applying it again
    changes nothing. *)
Theorem applyTemplate_effective (cat : catalogue) (templateId : jsval) (s : page) (tpl : template) :
  js_truthy templateId = true -> findTemplate cat (encoder s) templateId = Some tpl ->
  NoDup (map fst (t_params tpl)) ->
  Forall (fun kv => clean (Entry (fst kv) (js_to_string (snd kv)))) (t_params tpl) ->
  let s' := applyTemplate cat templateId s in
  let before := parseParams (textarea s) in
  let after := parseParams (textarea s') in
  (forall k, in_effect k after = match (list_to_map (t_params tpl) : gmap string jsval) !! k with
                                 | Some v => Some (js_to_string v)
                                 | None => in_effect k before
                                 end) /\
  map key after = (map key before ++ new_keys (t_params tpl) before)%list /\
  lastAppliedName s' = Some (t_name tpl) /\
  textarea (applyTemplate cat templateId s') = textarea s'.
Proof.
  intros Ht Hf Hd Hc. cbv zeta.
  set (m := mergeParams (parseParams (textarea s)) (t_params tpl)).
  assert (E : forall s0, encoder s0 = encoder s ->
    let s1 := applyTemplate cat templateId s0 in
    textarea s1 = serializeParams (mergeParams (parseParams (textarea s0)) (t_params tpl)) /\
    encoder s1 = encoder s /\ lastAppliedName s1 = Some (t_name tpl)).
  { intros s0 He. unfold applyTemplate. rewrite Ht, He, Hf. cbn [negb].
    match goal with |- context [runLint cat ?s2] => destruct (runLint_frame cat s2) as (-> & -> & ->) end.
    destruct s0; repeat split; exact He. }
  destruct (E s eq_refl) as (E1 & E2 & E3). destruct (E _ E2) as (E4 & _ & _).
  assert (P : parseParams (serializeParams m) = m).
  { apply parse_serialize, merge_clean; [apply parseParams_clean|exact Hc]. }
  fold m in E1. rewrite E4, E1, P. split; [|split; [|split]].
  - intros k. apply merge_effect, Hd.
  - apply merge_keys, Hd.
  - exact E3.
  - f_equal. apply merge_id. intros k v Hin. unfold m. rewrite merge_effect by exact Hd.
    rewrite (elem_of_list_to_map_1 _ k v); [reflexivity|exact Hd|exact Hin].
Qed.

(** ** The diagnostics *)

Definition validSet (c : codec) : gset string := list_to_set (default [] (valid_keys c)).

Lemma lint_fold v es : forall out seen,
  NoDup out -> (forall k, k ∈ seen <-> k ∈ out) ->
  let out' := fst (fold_left (lint_step v) es (out, seen)) in
  NoDup out' /\ (forall k, k ∈ out' <-> k ∈ out \/ (k ∈ map key es /\ k ∉ v)).
Proof.
  induction es as [|e es IH]; intros out seen Hd Hs; cbv zeta.
  { cbn. split; [exact Hd|]. intros k. rewrite elem_of_nil. tauto. }
  cbn [fold_left map]. unfold lint_step at 2 4.
  destruct (negb (bool_decide (key e ∈ v)) && negb (bool_decide (key e ∈ seen))) eqn:E; bool_to_prop.
  - destruct (IH (out ++ [key e])%list ({[key e]} ∪ seen)) as [I1 I2].
    + apply NoDup_app. split; [exact Hd|]. split; [|repeat constructor; apply not_elem_of_nil].
      intros x Hx Hx'. apply list_elem_of_singleton in Hx' as ->. apply Hs in Hx. contradiction.
    + set_solver.
    + split; [exact I1|]. intros k. rewrite I2, elem_of_app, list_elem_of_singleton, elem_of_cons.
      split; [|tauto]. intros [[Hk| ->]|Hk]; tauto.
  - destruct (IH out seen Hd Hs) as [I1 I2]. split; [exact I1|]. intros k. rewrite I2, elem_of_cons.
    split; [tauto|]. intros [Hk|[[-> |Hk] Hv]]; [tauto| |tauto]. left. apply andb_false_iff in E as [E|E];
      apply negb_false_iff, bool_decide_eq_true in E; [contradiction|apply Hs, E].
Qed.

(** The keys worth a note: those of the parameters that a known encoder does not list. *)
Lemma lint_spec parsed enc cat :
  NoDup (lint parsed enc cat) /\
  forall k, k ∈ lint parsed enc cat <->
    enc <> "" /\ exists c, cat !! enc = Some c /\ k ∈ map key parsed /\ k ∉ default [] (valid_keys c).
Proof.
  unfold lint. destruct (String.eqb enc "") eqn:E; bool_to_prop.
  { split; [constructor|]. intros k. rewrite elem_of_nil. split; [intros []|intros [N _]; contradiction]. }
  destruct (cat !! enc) as [c|] eqn:Ec.
  - destruct (lint_fold (list_to_set (default [] (valid_keys c))) parsed [] ∅) as [I1 I2];
      [constructor|set_solver|]. split; [exact I1|]. intros k. cbv zeta in I2. rewrite I2, elem_of_nil, elem_of_list_to_set.
    split; [intros [[]|[H1 H2]]; eauto|]. intros (_ & c' & [= <-] & H1 & H2). right. split; assumption.
  - split; [constructor|]. intros k. rewrite elem_of_nil. split; [intros []|]. intros (_ & c & N & _). discriminate.
Qed.

Definition report (enc : string) (unknown : list string) : string :=
  match unknown with
  | [] => ""
  | _ => "Note: " ++ join ", " (map tick unknown) ++ " are not recognised options for `" ++ enc ++
         "` and will be ignored at runtime."
  end.

(** What the page shows, whatever was done on it. *)
Record page_ok (cat : catalogue) (s : page) : Prop := {
  po_diag : has_diag s = true ->
    let unknown := lint (parseParams (textarea s)) (encoder s) cat in
    diag s = report (encoder s) unknown /\ diag_shown s = negb (bool_decide (unknown = []));
  po_options : has_row s = true ->
    options s = map option_of (default [] (templates_of cat (encoder s))) /\
    row_shown s = negb (bool_decide (options s = [])) /\
    match selectedIndex s with Some i => (i < length (options s))%nat | None => options s = [] end;
}.

Lemma runLint_ok cat s :
  (has_row s = true ->
    options s = map option_of (default [] (templates_of cat (encoder s))) /\
    row_shown s = negb (bool_decide (options s = [])) /\
    match selectedIndex s with Some i => (i < length (options s))%nat | None => options s = [] end) ->
  page_ok cat (runLint cat s).
Proof.
  intros H. destruct s as [r d en op si rs tx dg ds nm].
  assert (U : forall s', textarea s' = tx -> encoder s' = en ->
    lint (parseParams (textarea s')) (encoder s') cat = lint (parseParams tx) en cat) by (intros s' -> ->; reflexivity).
  unfold runLint. cbn in H |- *. destruct d; cbn.
  - destruct (lint (parseParams tx) en cat) as [|k ks] eqn:L; (split; [intros _|exact H]); cbv zeta;
      rewrite U by reflexivity; repeat split.
  - split; [discriminate|exact H].
Qed.

Lemma repopulate_ok cat s :
  has_row (repopulateTemplates cat s) = true ->
  let s' := repopulateTemplates cat s in
  options s' = map option_of (default [] (templates_of cat (encoder s'))) /\
  row_shown s' = negb (bool_decide (options s' = [])) /\
  match selectedIndex s' with Some i => (i < length (options s'))%nat | None => options s' = [] end.
Proof.
  destruct s as [[] d en op si rs tx dg ds nm]; [intros _|discriminate].
  assert (E : repopulateTemplates cat (Page true d en op si rs tx dg ds nm) =
    match templates_of cat en with
    | None | Some [] => Page true d en [] None false tx dg ds nm
    | Some ts => Page true d en (map option_of ts) (Some 0%nat) true tx dg ds nm
    end) by reflexivity.
  rewrite E. destruct (templates_of cat en) as [[|t ts]|] eqn:Et; cbv zeta; cbn [encoder options row_shown selectedIndex];
    rewrite Et; repeat split; cbn; lia.
Qed.

Lemma applyTemplate_ok cat i s : page_ok cat s -> page_ok cat (applyTemplate cat i s).
Proof.
  intros H. unfold applyTemplate. destruct (js_truthy i); [cbn [negb]|exact H].
  destruct (findTemplate cat (encoder s) i) as [tpl|]; [|exact H].
  apply runLint_ok. destruct H as [_ H]. destruct s. exact H.
Qed.

Lemma onEncoderChange_ok cat c s : page_ok cat (onEncoderChange cat c s).
Proof.
  unfold onEncoderChange.
  assert (H : page_ok cat (runLint cat (repopulateTemplates cat s))) by (apply runLint_ok, repopulate_ok).
  destruct (lastAppliedName s); [|exact H]. destruct (findTemplateByName _ _ _); [|exact H].
  destruct c; [apply applyTemplate_ok|]; exact H.
Qed.

Lemma handle_ok cat e s : page_ok cat s -> page_ok cat (handle cat e s).
Proof.
  intros H. destruct e as [v c| |i|text]; cbn [handle].
  - apply onEncoderChange_ok.
  - apply applyTemplate_ok, H.
  - destruct (i <? length (options s))%nat eqn:E; [|exact H]. bool_to_prop.
    destruct H as [H1 H2]. destruct s as [r d en op si rs tx dg ds nm].
    assert (X : exists nm', handle cat (ChangeTemplate i) (Page r d en op si rs tx dg ds nm) =
                            Page r d en op (Some i) rs tx dg ds nm').
    { cbn [handle options] in *. apply Nat.ltb_lt in E. rewrite E. cbv [upd]. cbn. destruct (op !! i); eexists; reflexivity. }
    destruct X as [nm' X]. cbn [handle] in X. apply Nat.ltb_lt in E. cbn [options] in X, E. rewrite E in X. rewrite X.
    split; [exact H1|]. intros Hr. destruct (H2 Hr) as (A & B & _). split; [exact A|]. split; [exact B|].
    apply Nat.ltb_lt, E.
  - apply runLint_ok. destruct H as [_ H]. destruct s. exact H.
Qed.

(** Whatever is done on the form, the note below the text area names exactly
    the keys of the current text that the current encoder does not know, each
    once, and is hidden when there is none; and the template select always
    offers the current encoder's templates, with a valid selection. *)
Theorem page_up_to_date (cat : catalogue) (s0 : page) (es : list event) :
  let s := fold_left (fun s e => handle cat e s) es (init cat s0) in
  let unknown := lint (parseParams (textarea s)) (encoder s) cat in
  page_ok cat s /\ NoDup unknown /\
  (forall k, k ∈ unknown <-> encoder s <> "" /\ exists c, cat !! encoder s = Some c /\
     k ∈ map key (parseParams (textarea s)) /\ k ∉ default [] (valid_keys c)).
Proof.
  cbv zeta. split; [|apply lint_spec].
  assert (H : page_ok cat (init cat s0)) by (apply runLint_ok, repopulate_ok).
  revert H. generalize (init cat s0) as s. induction es as [|e es IH]; intros s H; [exact H|].
  apply IH, handle_ok, H.
Qed.

Definition demo_cat : catalogue :=
  <["libx264" := Codec (Some ["preset"; "crf"])
     (Some [Template (VNum (Fin 1)) "Balanced" "" [("crf", VNum (Fin 23)); ("g", VStr "30")]])]> ∅.

Definition demo_page : page :=
  Page true true "libx264" [] None false ("crf=20" ++ str1 newline ++ "x=1") "" false None.

Example demo_apply :
  let s := handle demo_cat ClickApply (init demo_cat demo_page) in
  textarea s = "crf=23" ++ str1 newline ++ "x=1" ++ str1 newline ++ "g=30" /\
  diag s = "Note: `x`, `g` are not recognised options for `libx264` and will be ignored at runtime.".
Proof. split; reflexivity. Qed.

Lemma applyTemplate_effective_witness :
  let tpl := Template (VNum (Fin 1)) "Balanced" "" [("crf", VNum (Fin 23)); ("g", VStr "30")] in
  let s' := applyTemplate demo_cat (VStr "1") demo_page in
  let before := parseParams (textarea demo_page) in
  let after := parseParams (textarea s') in
  (forall k, in_effect k after = match (list_to_map (t_params tpl) : gmap string jsval) !! k with
                                 | Some v => Some (js_to_string v)
                                 | None => in_effect k before
                                 end) /\
  map key after = (map key before ++ new_keys (t_params tpl) before)%list /\
  lastAppliedName s' = Some (t_name tpl) /\
  textarea (applyTemplate demo_cat (VStr "1") s') = textarea s'.
Proof.
  apply (applyTemplate_effective demo_cat (VStr "1") demo_page); try reflexivity.
  - repeat constructor; set_solver.
  - repeat constructor; discriminate.
Defined.

End Encoder.
