(* ===== verification/MonitorLink.v ===== *)
(** web/js/MonitorLinkExpression.js: the expression that links a monitor to
    others, as text and as a row of selects on the monitor form.

    The tokenizer, the selects built from its tokens, and the text put together
    again from what the selects show.  An exception is [None]. *)
From S2P Require Import JsString.

Module MonitorLink.

(** ** Tokens *)

Record token := Token { type : string; value : string }.
#[export] Instance token_eq_dec : EqDecision token.
Proof. solve_decision. Defined.

(** [s.substring(a, b)]: the arguments are swapped when out of order. *)
Definition substring (s : string) (a b : nat) : string := slice s (Nat.min a b) (Nat.max a b).

(** [s.at(i)] *)
Definition at_ (s : string) (i : Z) : option ascii :=
  let n := Z.of_nat (String.length s) in
  let i := if i <? 0 then n + i else i in
  if (0 <=? i) && (i <? n) then String.get (Z.to_nat i) s else None.

(** The scan for repeats compares with the character at [i], a variable that
    [tokenize] does not declare: [i] is the value of a global of that name, and
    reading it throws where there is none. *)
Fixpoint scan_repeats (fuel : nat) (i : option Z) (expr : string) (character : ascii) (third : nat) : option nat :=
  if (third <? String.length expr)%nat then
    match fuel, i with
    | S fuel, Some i =>
        if bool_decide (at_ expr i = Some character) then scan_repeats fuel (Some i) expr character (S third)
        else Some third
    | _, _ => None
    end
  else Some third.

Definition link_before (expr : string) (first_index second_index : nat) : list token :=
  if (first_index =? second_index)%nat then [] else [Token "link" (substring expr first_index second_index)].

(** The body of the loop at one character: the new [first_index] and tokens. *)
Definition tokenize_char (i : option Z) (expr : string) (first_index second_index : nat) (character : ascii)
    (tokens : list token) : option (nat * list token) :=
  if Ascii.eqb character "&" || Ascii.eqb character "|" || Ascii.eqb character "," then
    Some (S second_index,
          (tokens ++ link_before expr first_index second_index ++ [Token (str1 character) (str1 character)])%list)
  else if Ascii.eqb character "(" || Ascii.eqb character ")" then
    match scan_repeats (String.length expr) i expr character (S second_index) with
    | None => None
    | Some third =>
        let v := if (third =? S second_index)%nat then str1 character else substring expr second_index third in
        Some (third, (tokens ++ link_before expr first_index second_index ++ [Token (str1 character) v])%list)
    end
  else Some (first_index, tokens).

(** [rest] is what is left of [expr] from [second_index] on. *)
Fixpoint tokenize_loop (i : option Z) (expr : string) (first_index second_index : nat) (rest : string)
    (tokens : list token) : option (list token) :=
  match rest with
  | EmptyString =>
      Some (if (second_index =? 0)%nat then tokens else (tokens ++ link_before expr first_index second_index)%list)
  | String character rest =>
      match tokenize_char i expr first_index second_index character tokens with
      | None => None
      | Some (first_index, tokens) => tokenize_loop i expr first_index (S second_index) rest tokens
      end
  end.

Definition tokenize (i : option Z) (expr : string) : option (list token) := tokenize_loop i expr 0 0 expr [].

Definition count_terms (tokens : list token) : nat := tally (fun t => String.eqb (type t) "link") tokens.

(** ** Brackets around every link *)

Definition is_bracket (t : option token) : bool :=
  match t with Some t => String.eqb (type t) "(" || String.eqb (type t) ")" | None => false end.

(** [tokens.splice(n, 0, t)] *)
Definition insert_at (n : nat) (t : token) (tokens : list token) : list token :=
  (take n tokens ++ t :: drop n tokens)%list.

Definition blank : token := Token "()" "".

(** The tokens, the number of links and the values of the links, from [token_index] on. *)
Fixpoint bracket_loop (fuel token_index : nat) (tokens : list token) (brackets : Z) (used : list string)
    : list token * Z * list string :=
  match fuel with
  | O => (tokens, brackets, used)
  | S fuel =>
      if (token_index <? length tokens - 1)%nat then
        match tokens !! token_index with
        | Some token =>
            if String.eqb (type token) "link" then
              let '(tokens, token_index) :=
                if is_bracket (tokens !! (token_index - 1)%nat) then (tokens, token_index)
                else (insert_at token_index blank tokens, S token_index) in
              let '(tokens, token_index) :=
                if is_bracket (tokens !! S token_index) then (tokens, token_index)
                else (insert_at (S token_index) blank tokens, S token_index) in
              bracket_loop fuel (S token_index) tokens (brackets + 1) (used ++ [value token])%list
            else bracket_loop fuel (S token_index) tokens brackets used
        | None => (tokens, brackets, used)
        end
      else (tokens, brackets, used)
  end.

Definition type_of (t : option token) : string := match t with Some t => type t | None => "" end.

Definition add_brackets (tokens : list token) : list token * Z * list string :=
  if (3 <? length tokens)%nat then
    let tokens := if String.eqb (type_of (head tokens)) "(" then tokens else Token "(" "" :: tokens in
    let tokens := if String.eqb (type_of (last tokens)) ")" then tokens else (tokens ++ [Token ")" ""])%list in
    bracket_loop (length tokens) 1 tokens 0 []
  else (tokens, 0, []).

(** ** Selects *)

Record monitor := Monitor { Id : string; Name : string }.
Record zone := Zone { z_Id : string; z_MonitorId : string; z_Name : string }.

(** A select: the values of its options and the value selected, if any. *)
Record select := Select { s_options : list string; s_selected : option string }.

(** [select.val(v)]: with no option of that value nothing is selected. *)
Definition set_val (v : string) (s : select) : select :=
  Select (s_options s) (if bool_decide (v ∈ s_options s) then Some v else None).

(** [select.val()], null where nothing is selected, as [+=] makes it a string. *)
Definition val_string (s : select) : string := match s_selected s with Some v => v | None => "null" end.

Section Form.
Context (monitors : list monitor) (zones : list zone) (mid : string).

(** [mid && (monitor.Id == mid)]; the page of a new monitor has mid 0. *)
Definition is_self (m : monitor) : bool := negb (String.eqb mid "0") && String.eqb (Id m) mid.

Definition zone_option (m : monitor) (z : zone) : string := Id m ++ ":" ++ z_Id z.

Definition zones_of (m : monitor) : list zone := List.filter (fun z => String.eqb (Id m) (z_MonitorId z)) zones.

Definition link_options : list string :=
  flat_map (fun m => if is_self m then [] else Id m :: map (zone_option m) (zones_of m)) monitors.

Fixpoint array_search (needle : string) (haystack : list string) : bool :=
  match haystack with
  | [] => false
  | x :: haystack => if String.eqb x needle then true else array_search needle haystack
  end.

(** [c.repeat(1) .. c.repeat(brackets)] *)
Fixpoint str_repeat (c : string) (n : nat) : string := match n with O => "" | S n => c ++ str_repeat c n end.
Definition repeats (c : string) (brackets : Z) : list string :=
  map (str_repeat c) (seq 1 (Z.to_nat brackets)).

Definition token_options (brackets : Z) (t : token) : list string :=
  if String.eqb (type t) "link" then link_options
  else if String.eqb (type t) "(" || String.eqb (type t) ")" then "0" :: repeats (type t) brackets
  else if String.eqb (type t) "()" then "" :: repeats "(" brackets ++ repeats ")" brackets
  else ["|"; "&"].

(** What the code selects: the operator's select is set to the type. *)
Definition token_value (t : token) : string :=
  if String.eqb (type t) "link" || String.eqb (type t) "(" || String.eqb (type t) ")" || String.eqb (type t) "()"
  then value t else type t.

Definition token_select (brackets : Z) (t : token) : select :=
  set_val (token_value t) (Select (token_options brackets t) None).

Definition add_options (used : list string) : list string :=
  "" :: flat_map (fun m => if is_self m then [] else
    Id m :: map (zone_option m) (List.filter (fun z => negb (array_search (zone_option m z) used)) (zones_of m)))
    monitors.

(** The children of the container: the tokens' selects, a line break, and the
    select that adds a link, which starts on its first option. *)
Record ui := UI { token_selects : list select; monitorLinks : select }.

Definition expr_to_ui (i : option Z) (expr : string) : option ui :=
  match tokenize i expr with
  | None => None
  | Some tokens =>
      let '(tokens, brackets, used) := add_brackets tokens in
      let brackets := brackets - 1 in
      Some (UI (map (token_select brackets) tokens) (Select (add_options used) (Some "")))
  end.

Definition ui_to_expr (u : ui) : string :=
  String.concat "" (map val_string (token_selects u)) ++ "" ++ val_string (monitorLinks u).

(** The user picks option [v] of the [n]th token select: the text is rewritten. *)
Definition change_token (n : nat) (v : string) (u : ui) : ui * string :=
  let u := UI (match token_selects u !! n with
               | Some s => <[n := set_val v s]> (token_selects u)
               | None => token_selects u
               end) (monitorLinks u) in
  (u, ui_to_expr u).

(** The user picks [v] in the select that adds a link; [oldval] is the text. *)
Definition add_to_expr (i : option Z) (oldval v : string) : string * option ui :=
  let expr := if String.eqb oldval "" then v else oldval ++ "|" ++ v in
  (expr, expr_to_ui i expr).
End Form.

(** ** Tokenizing *)

Definition op_char (c : ascii) : bool := Ascii.eqb c "&" || Ascii.eqb c "|" || Ascii.eqb c ",".
Definition paren_char (c : ascii) : bool := Ascii.eqb c "(" || Ascii.eqb c ")".

(** Text that names a monitor or a zone: no operator and no bracket. *)
Definition name_text (s : string) : bool := all_chars (fun c => negb (op_char c) && negb (paren_char c)) s.

(** The tokens of an expression without brackets. *)
Definition plain_token (t : token) : Prop :=
  (type t = "link" /\ value t <> "" /\ name_text (value t) = true) \/
  (type t = value t /\ (value t = "&" \/ value t = "|" \/ value t = ",")).

Definition text (ts : list token) : string := String.concat "" (map value ts).

Lemma concat_cons w ws : String.concat "" (w :: ws) = w ++ String.concat "" ws.
Proof. destruct ws; cbn; [symmetry; apply append_nil_r|reflexivity]. Qed.

Lemma concat_app ws vs : String.concat "" (ws ++ vs)%list = String.concat "" ws ++ String.concat "" vs.
Proof.
  induction ws as [|w ws IH]; [reflexivity|]. change ((w :: ws) ++ vs)%list with (w :: (ws ++ vs)%list).
  rewrite !concat_cons, IH. symmetry. apply append_assoc.
Qed.

Lemma text_app ts us : text (ts ++ us)%list = text ts ++ text us.
Proof. unfold text. rewrite map_app. apply concat_app. Qed.

Lemma substring_mid a b c : substring (a ++ b ++ c) (String.length a) (String.length a + String.length b) = b.
Proof.
  unfold substring, slice. rewrite Nat.min_l, Nat.max_r by lia.
  replace (String.length a + String.length b - String.length a)%nat with (String.length b) by lia.
  rewrite <- (Nat.add_0_r (String.length a)) at 1. rewrite substring_app_r. apply substring_app_l.
Qed.

Lemma link_before_spec done cur rest ts : text ts = done -> name_text cur = true -> Forall plain_token ts ->
  let ts' := (ts ++ link_before (done ++ cur ++ rest) (String.length done) (String.length done + String.length cur))%list in
  text ts' = done ++ cur /\ Forall plain_token ts'.
Proof.
  intros Ht Hc Hp. cbv zeta. unfold link_before. rewrite text_app, Ht.
  destruct (_ =? _)%nat eqn:E; bool_to_prop.
  - assert (cur = "") as -> by (destruct cur; [reflexivity|cbn in E; lia]). cbn. rewrite app_nil_r. split; [reflexivity|exact Hp].
  - rewrite substring_mid. split; [reflexivity|]. apply Forall_app. split; [exact Hp|].
    constructor; [|constructor]. left. cbn [type value]. repeat split; [|exact Hc]. intros ->.
    cbn in E. rewrite Nat.add_0_r in E. congruence.
Qed.

Definition no_parens (s : string) : bool := all_chars (fun c => negb (paren_char c)) s.

Lemma tokenize_loop_plain i rest : forall done cur ts,
  no_parens rest = true -> text ts = done -> name_text cur = true -> Forall plain_token ts ->
  exists ts', tokenize_loop i (done ++ cur ++ rest) (String.length done) (String.length done + String.length cur) rest ts = Some ts' /\
    text ts' = done ++ cur ++ rest /\ Forall plain_token ts'.
Proof.
  induction rest as [|c rest IH]; intros done cur ts Hr Ht Hc Hp; cbn [tokenize_loop].
  - destruct (link_before_spec done cur "" ts Ht Hc Hp) as [E1 E2].
    destruct (_ =? 0)%nat eqn:E; bool_to_prop.
    + assert (done = "" /\ cur = "") as [-> ->] by (destruct done, cur; cbn in E; try lia; split; reflexivity).
      exists ts. split; [reflexivity|]. split; [exact Ht|exact Hp].
    + eexists. split; [reflexivity|]. rewrite append_nil_r in *. split; assumption.
  - cbn in Hr. apply andb_true_iff in Hr as [Hpc Hr]. apply negb_true_iff in Hpc.
    unfold tokenize_char. fold (op_char c) (paren_char c). rewrite Hpc. destruct (op_char c) eqn:Ho.
    + destruct (link_before_spec done cur (String c rest) ts Ht Hc Hp) as [E1 E2].
      set (lb := link_before _ _ _) in *.
      destruct (IH (done ++ cur ++ str1 c) "" (ts ++ lb ++ [Token (str1 c) (str1 c)])%list Hr) as (ts' & F & G & P).
      * rewrite app_assoc, text_app, E1. cbn. rewrite append_assoc. reflexivity.
      * reflexivity.
      * rewrite app_assoc. apply Forall_app. split; [exact E2|]. constructor; [|constructor].
        right. split; [reflexivity|].
        unfold op_char in Ho. cbn [value]. apply orb_true_iff in Ho as [Ho|Ho]; [apply orb_true_iff in Ho as [Ho|Ho]|];
          apply Ascii.eqb_eq in Ho; subst c; auto.
      * assert (L : (done ++ cur ++ str1 c) ++ "" ++ rest = done ++ cur ++ String c rest).
        { rewrite !append_assoc. reflexivity. }
        rewrite L in F, G. exists ts'. split; [|split; assumption]. rewrite <- F. rewrite !append_length. change (String.length (str1 c)) with 1%nat. cbn [String.length].
        f_equal; lia.
    + destruct (IH done (cur ++ str1 c) ts Hr Ht) as (ts' & F & G & P).
      * unfold name_text in *. rewrite all_chars_app, Hc. cbn. rewrite Ho, Hpc. reflexivity.
      * exact Hp.
      * rewrite append_str1 in F, G. exists ts'. split; [|split; assumption]. rewrite <- F.
        rewrite !append_length. change (String.length (str1 c)) with 1%nat. cbn [String.length]. f_equal; lia.
Qed.

(** Without brackets the tokens spell the expression, link for link. *)
Lemma tokenize_plain i expr : no_parens expr = true ->
  exists ts, tokenize i expr = Some ts /\ text ts = expr /\ Forall plain_token ts.
Proof. intros H. apply (tokenize_loop_plain i expr "" "" [] H); try reflexivity. constructor. Qed.

(** A bracket that is not the last character. *)
Fixpoint early_bracket (s : string) : bool :=
  match s with
  | EmptyString => false
  | String c s => (paren_char c && negb (String.eqb s "")) || early_bracket s
  end.

Lemma tokenize_loop_None expr rest : forall first second ts,
  (second + String.length rest = String.length expr)%nat ->
  tokenize_loop None expr first second rest ts = None <-> early_bracket rest = true.
Proof.
  induction rest as [|c rest IH]; intros first second ts Hl; cbn [tokenize_loop early_bracket]; [easy|].
  cbn [String.length] in Hl. unfold tokenize_char. fold (op_char c) (paren_char c).
  destruct (op_char c) eqn:Ho.
  - assert (paren_char c = false) as ->.
    { unfold op_char in Ho. unfold paren_char. apply orb_true_iff in Ho as [Ho|Ho]; [apply orb_true_iff in Ho as [Ho|Ho]|];
        apply Ascii.eqb_eq in Ho; subst c; reflexivity. }
    apply IH. lia.
  - destruct (paren_char c) eqn:Hp; cbn [andb orb]; [|apply IH; lia].
    destruct (String.length expr) eqn:El; [lia|]. cbn [scan_repeats]. rewrite El.
    destruct (S second <? S n)%nat eqn:E; bool_to_prop.
    + destruct rest as [|d rest]; [cbn in Hl; lia|]. easy.
    + destruct rest as [|d rest]; [|cbn in Hl; lia]. cbn. easy.
Qed.

(** Where the page has no global variable [i], tokenizing throws exactly when
    a bracket stands before the end of the expression. *)
Theorem tokenize_throws (expr : string) : tokenize None expr = None <-> early_bracket expr = true.
Proof. apply tokenize_loop_None. reflexivity. Qed.

(** ** The form *)

(** The link of a token is one the select offers, and no comma is used. *)
Definition offered (ms : list monitor) (zs : list zone) (mid : string) (t : token) : Prop :=
  (type t = "link" -> value t ∈ link_options ms zs mid) /\ type t <> ",".

Lemma token_select_plain ms zs mid b t : plain_token t -> offered ms zs mid t ->
  val_string (token_select ms zs mid b t) = value t.
Proof.
  intros Hp [Ho Hc]. unfold val_string, token_select, set_val, token_options, token_value. cbn [s_selected s_options].
  destruct Hp as [(Ht & _)|(Ht & Hv)].
  - rewrite Ht. change (String.eqb "link" "link") with true. cbn [orb].
    rewrite bool_decide_true by (apply Ho, Ht). reflexivity.
  - destruct Hv as [Hv|[Hv|Hv]]; rewrite Hv in Ht |- *; rewrite Ht; [reflexivity..|].
    exfalso. apply Hc, Ht.
Qed.

(** An expression of at most two links joined by one operator, all offered on
    the page, survives the form: the selects built from it give back its text. *)
Theorem ui_roundtrip (ms : list monitor) (zs : list zone) (mid : string) (i : option Z) (expr : string) (ts : list token) :
  no_parens expr = true -> tokenize i expr = Some ts -> (length ts <= 3)%nat ->
  Forall (offered ms zs mid) ts ->
  option_map ui_to_expr (expr_to_ui ms zs mid i expr) = Some expr.
Proof.
  intros Hn Ht Hl Ho. destruct (tokenize_plain i expr Hn) as (ts' & E & Htext & Hp).
  rewrite Ht in E. injection E as <-. unfold expr_to_ui. rewrite Ht. unfold add_brackets.
  rewrite (proj2 (Nat.ltb_ge _ _) Hl). cbn [option_map]. unfold ui_to_expr. cbn [token_selects monitorLinks].
  f_equal. cbn [val_string s_selected]. rewrite !append_nil_r. rewrite <- Htext at 1. unfold text. f_equal.
  rewrite map_map. apply map_ext_in. intros t Hin. apply list_elem_of_In in Hin.
  rewrite Forall_forall in Ho, Hp. apply token_select_plain; [apply Hp, Hin|apply Ho, Hin].
Qed.

(** ** Three links and more *)

Lemma insert_at_ends n t ts h l : (0 < n < length ts)%nat -> head ts = Some h -> last ts = Some l ->
  head (insert_at n t ts) = Some h /\ last (insert_at n t ts) = Some l /\ length (insert_at n t ts) = S (length ts).
Proof.
  intros Hn Hh Hl. unfold insert_at. destruct ts as [|x ts]; [discriminate|]. destruct n as [|n]; [lia|].
  cbn in Hh. injection Hh as ->. split; [reflexivity|]. split.
  - apply last_Some in Hl as [ts' E]. rewrite E in *. rewrite length_app in Hn. cbn in Hn.
    rewrite drop_app_le by lia. rewrite app_comm_cons, app_assoc. apply last_snoc.
  - rewrite length_app. cbn [length take drop]. rewrite length_take, length_drop. cbn [length] in Hn. lia.
Qed.

Lemma bracket_loop_ends fuel : forall idx ts b u h l, (0 < idx)%nat -> head ts = Some h -> last ts = Some l ->
  let ts' := fst (fst (bracket_loop fuel idx ts b u)) in
  head ts' = Some h /\ last ts' = Some l /\ (length ts <= length ts')%nat.
Proof.
  induction fuel as [|fuel IH]; intros idx ts b u h l Hi Hh Hl; cbn [bracket_loop]; cbv zeta;
    [repeat split; auto with lia|].
  destruct (idx <? length ts - 1)%nat eqn:E; bool_to_prop; [|repeat split; auto with lia].
  destruct (ts !! idx) as [t|] eqn:Et; [|repeat split; auto with lia].
  destruct (String.eqb (type t) "link"); [|apply IH; [lia|assumption..]].
  assert (A : exists ts1 i1, (if is_bracket (ts !! (idx - 1)%nat) then (ts, idx) else (insert_at idx blank ts, S idx)) = (ts1, i1) /\
    head ts1 = Some h /\ last ts1 = Some l /\ (length ts <= length ts1)%nat /\ (0 < i1 < length ts1 - 1)%nat).
  { destruct (is_bracket _).
    - exists ts, idx. repeat split; auto with lia.
    - destruct (insert_at_ends idx blank ts h l) as (I1 & I2 & I3); [lia|assumption..|].
      exists (insert_at idx blank ts), (S idx). rewrite I3. repeat split; auto with lia. }
  destruct A as (ts1 & i1 & -> & H1 & L1 & N1 & B1).
  assert (A : exists ts2 i2, (if is_bracket (ts1 !! S i1) then (ts1, i1) else (insert_at (S i1) blank ts1, S i1)) = (ts2, i2) /\
    head ts2 = Some h /\ last ts2 = Some l /\ (length ts1 <= length ts2)%nat /\ (0 < i2)%nat).
  { destruct (is_bracket _).
    - exists ts1, i1. repeat split; auto with lia.
    - destruct (insert_at_ends (S i1) blank ts1 h l) as (I1 & I2 & I3); [lia|assumption..|].
      exists (insert_at (S i1) blank ts1), (S i1). rewrite I3. repeat split; auto with lia. }
  destruct A as (ts2 & i2 & -> & H2 & L2 & N2 & B2).
  destruct (IH (S i2) ts2 (b + 1) (u ++ [value t])%list h l) as (J1 & J2 & J3); [lia|assumption..|].
  split; [exact J1|]. split; [exact J2|]. lia.
Qed.

Lemma repeats_not_empty c b : c <> "" -> "" ∉ "0" :: repeats c b.
Proof.
  intros Hc H. apply elem_of_cons in H as [H|H]; [discriminate|]. unfold repeats in H.
  apply list_elem_of_fmap in H as (n & E & Hn). apply elem_of_seq in Hn. destruct n as [|n]; [lia|].
  cbn in E. destruct c; [congruence|discriminate].
Qed.

Lemma empty_bracket_null ms zs mid b c : c = "(" \/ c = ")" -> val_string (token_select ms zs mid b (Token c "")) = "null".
Proof.
  intros H. unfold val_string, token_select, set_val. cbn [s_selected s_options].
  assert (E : token_options ms zs mid b (Token c "") = "0" :: repeats c b) by (destruct H as [-> | ->]; reflexivity).
  assert (V : token_value (Token c "") = "") by (destruct H as [-> | ->]; reflexivity).
  rewrite E, V, bool_decide_false; [reflexivity|]. apply repeats_not_empty. destruct H as [-> | ->]; discriminate.
Qed.

Lemma plain_not_bracket t : plain_token t -> String.eqb (type t) "(" = false /\ String.eqb (type t) ")" = false.
Proof.
  intros [(-> & _)|(E & H)]; [split; reflexivity|]. rewrite E. destruct H as [-> |[-> | ->]]; split; reflexivity.
Qed.

(** An expression of more than three tokens without brackets does not survive
    the form: put together from the selects as they are first shown, the text
    has the word null at both ends, where a bracket's select selects nothing. *)
Theorem ui_corrupts (ms : list monitor) (zs : list zone) (mid : string) (i : option Z) (expr : string) (ts : list token) :
  no_parens expr = true -> tokenize i expr = Some ts -> (3 < length ts)%nat ->
  exists m, option_map ui_to_expr (expr_to_ui ms zs mid i expr) = Some ("null" ++ m ++ "null").
Proof.
  intros Hn Ht Hl. destruct (tokenize_plain i expr Hn) as (ts' & E & _ & Hp).
  rewrite Ht in E. injection E as <-. unfold expr_to_ui. rewrite Ht. unfold add_brackets.
  rewrite (proj2 (Nat.ltb_lt _ _) Hl).
  destruct ts as [|t0 ts0]; [cbn in Hl; lia|]. pose proof Hp as Hp'. apply Forall_cons in Hp' as [H0 _].
  cbn [head type_of]. rewrite (proj1 (plain_not_bracket t0 H0)).
  assert (L : exists tl, last (Token "(" "" :: t0 :: ts0) = Some tl /\ String.eqb (type tl) ")" = false).
  { destruct (last (Token "(" "" :: t0 :: ts0)) as [tl|] eqn:L; [|apply last_None in L; discriminate].
    exists tl. split; [reflexivity|]. rewrite last_cons_cons in L. apply last_Some in L as [pre L].
    rewrite L in Hp. apply Forall_app in Hp as [_ Hp]. apply Forall_cons in Hp as [Hp _]. apply plain_not_bracket, Hp. }
  destruct L as (tl & -> & Etl). cbn [type_of]. rewrite Etl.
  set (full := (((Token "(" "" :: t0 :: ts0) ++ [Token ")" ""])%list)).
  destruct (bracket_loop_ends (length full) 1 full 0 [] (Token "(" "") (Token ")" "")) as (B1 & B2 & B3);
    [lia|reflexivity|apply last_snoc|].
  destruct (bracket_loop (length full) 1 full 0 []) as [[ts' b] u]. cbn [fst] in B1, B2, B3.
  apply last_Some in B2 as [pre ->]. destruct pre as [|p pre].
  { rewrite length_app in B3. unfold full in B3. cbn in B3. lia. }
  cbn in B1. injection B1 as ->. cbn [option_map]. unfold ui_to_expr. cbn [token_selects monitorLinks].
  rewrite map_map, map_app, concat_app. cbn [map]. rewrite concat_cons.
  rewrite !empty_bracket_null by auto.
  exists (String.concat "" (map (fun t => val_string (token_select ms zs mid (b - 1) t)) pre)).
  f_equal. cbn [val_string s_selected String.concat]. rewrite !append_nil_r. apply append_assoc.
Qed.

Definition demo_monitors : list monitor := [Monitor "1" "Yard"; Monitor "2" "Gate"; Monitor "3" "Hall"; Monitor "4" "Door"].
Definition demo_zones : list zone := [Zone "7" "2" "All"].

Example demo_corrupts :
  option_map ui_to_expr (expr_to_ui demo_monitors demo_zones "4" None "1|2:7&3") = Some "null1|2:7&3null".
Proof. reflexivity. Qed.

Lemma ui_corrupts_witness :
  exists m, option_map ui_to_expr (expr_to_ui demo_monitors demo_zones "4" None "1|2:7&3") = Some ("null" ++ m ++ "null").
Proof.
  apply (ui_corrupts demo_monitors demo_zones "4" None "1|2:7&3"
    [Token "link" "1"; Token "|" "|"; Token "link" "2:7"; Token "&" "&"; Token "link" "3"]); [reflexivity..|].
  cbn. lia.
Defined.

Lemma ui_roundtrip_witness :
  option_map ui_to_expr (expr_to_ui demo_monitors demo_zones "4" None "1|2:7") = Some "1|2:7".
Proof.
  apply (ui_roundtrip demo_monitors demo_zones "4" None "1|2:7" [Token "link" "1"; Token "|" "|"; Token "link" "2:7"]);
    [reflexivity..|cbn; lia|].
  repeat constructor; cbn; try discriminate; set_solver.
Defined.

End MonitorLink.
