(* ===== verification/MonitorStream.v ===== *)
(** web/js/MonitorStream.js: a monitor's live stream.

    The object, the element it plays in, its timers and the page's credential
    form one [state]; every method is a function on it that appends what it does
    to the outside world to [out].  Choosing a player is mutually recursive in
    the source ([restart], [selectNextPlayer]); where the recursion does not end
    the operation is [None], the error the browser raises.

    Of the players only zms is modelled to the wire; go2rtc, RTSP2Web and Janus
    are modelled as far as they touch the object: their element, the poll timer,
    [started], [activePlayer].  The element always exists, and the monitor is not
    of type WebSite.  Sound, sliders and the text of the statistics are left out. *)
From S2P Require Import JsString AuthHelpers EventStream.

Module MonitorStream.

(** ** Commands, replies and effects *)

Inductive command :=
| CMD_PAUSE | CMD_PLAY | CMD_STOP | CMD_QUIT | CMD_QUERY
| CMD_SCALE (scale : jsval) | CMD_ANALYZE_ON | CMD_ANALYZE_OFF | CMD_MAXFPS (maxfps : jsval)
| CMD_FASTFWD | CMD_SLOWFWD | CMD_SLOWREV | CMD_FASTREV
| CMD_ZOOMIN (x y : Z) | CMD_ZOOMOUT | CMD_ZOOMSTOP | CMD_PAN (x y : Z).

Definition is_pause (c : command) : bool := match c with CMD_PAUSE => true | _ => false end.
Definition is_play (c : command) : bool := match c with CMD_PLAY => true | _ => false end.
Definition is_stop (c : command) : bool := match c with CMD_STOP => true | _ => false end.

(** The tag of the element, as replaceDOMElement makes it. *)
Inductive tag := IMG | VIDEO | VIDEO_STREAM.
#[export] Instance tag_eq_dec : EqDecision tag.
Proof. solve_decision. Defined.

(** The part of a reply's status that the object acts on; [VUndef] where absent. *)
Record status_t := Status {
  st_auth : Auth.auth_data; st_stopped : jsval; st_paused : jsval; st_delayed : jsval;
  st_rate : num; st_scale : jsval; st_level : num; st_state : Z; st_analysisimage : jsval;
}.

Record reply := Reply { result : string; reason : string; rstatus : option status_t }.

(** What the object calls on the page when a status arrives. *)
Inductive page_call := OnPause | OnPlay | SlowFwd | FastFwd | SlowRev | FastRev.

(** What a pending timer will do. *)
Inductive timer :=
| TStreamQuery                                             (* streamCmdQuery, an interval *)
| TStatusQuery                                             (* statusCmdQuery, an interval *)
| TAuth (brokenSrc : string)                               (* img_onerror's reconnect *)
| TRestart (session : option nat) (channel : string).      (* restart's start *)

Inductive effect :=
| Request (connkey : option string) (c : command)          (* through the ajax queue *)
| AlarmRequest (connkey : option string) (c : string)
| AbortRequest
| StatusRequest
| AuthRequest (brokenSrc : string)
| OpenSrc (src : string) (key : option string)             (* an img src, and the connkey it was given *)
| OpenOther (src : string)
| Scheduled (delay : Z)
| Calls (p : page_call)
| OnAlarm | PlaySound | FocusWindow
| ElementPlay | ElementPause
| GoToLogin | Alert (text : string) | ShowText (text : string) | UpdateControls.

Record config := Config {
  id : string; url : string; url_to_zms : string;
  StreamChannel : string; RTSPServer : bool;
  Go2RTCEnabled : bool; RTSP2WebEnabled : bool; janusEnabled : bool;
  ZM_GO2RTC_PATH : bool; ZM_RTSP2WEB_PATH : bool;
  currentView : string;
  hls_loaded : bool; hls_supported : bool; hls_native : bool;
  sound_on_alarm : bool; popup_on_alarm : bool; has_onalarm : bool; has_onplay : bool;
  STATE_ALARM : Z; STATE_ALERT : Z;
}.

(** An error counter and the name of its player. *)
Abbreviation counters := (list (string * Z)).

Record state := State {
  started : bool; starting : bool;
  zmsState : string;
  connKey : option string;
  status_connkey : option string;             (* statusCmdParms.connkey *)
  stream_connkey : option string;             (* streamCmdParms.connkey *)
  statusCmdTimer : option nat;
  streamCmdTimer : option nat;
  playerPriority : counters;
  fatalError : bool;
  playbackSessionId : option nat;
  isActive : bool;
  ajaxQueue : bool;                           (* a request has been queued *)
  authRefreshAttempts : Z;
  authRefreshTimer : option nat;
  authPending : list string;                  (* reconnects whose ajax is under way *)
  player : string; defaultPlayer : string; activePlayer : string; stoppedPlayer : string;
  selectedPlayer : string;
  RTSP2WebType : string;
  currentChannelStream : string;
  webrtc : bool; hls : bool; janus : bool; janusInit : bool;
  mseStopping : bool;                         (* stopMse's promise is pending *)
  el_tag : tag; el_src : string;
  handlers : option (option nat);             (* the session the img's handlers belong to *)
  scale : jsval;
  lastAlarmState : Z;
  analyse_frames : bool;
  status : option status_t;
  info : string;                              (* the text over the picture *)
  mode : string;                              (* modeValue *)
  rate_shown : bool; delay_shown : bool; level_shown : bool;
  levelClass : string;
  relay : string;                             (* zmAuth *)
  timers : gmap nat timer;
  next : nat;                                 (* the next handle or session id *)
  out : list effect;
}.
#[export] Instance eta_state : Eta state := fun s =>
  State (started s) (starting s) (zmsState s) (connKey s) (status_connkey s) (stream_connkey s)
    (statusCmdTimer s) (streamCmdTimer s) (playerPriority s) (fatalError s) (playbackSessionId s)
    (isActive s) (ajaxQueue s) (authRefreshAttempts s) (authRefreshTimer s) (authPending s)
    (player s) (defaultPlayer s) (activePlayer s) (stoppedPlayer s) (selectedPlayer s)
    (RTSP2WebType s) (currentChannelStream s) (webrtc s) (hls s) (janus s) (janusInit s) (mseStopping s)
    (el_tag s) (el_src s) (handlers s) (scale s) (lastAlarmState s) (analyse_frames s) (status s)
    (info s) (mode s) (rate_shown s) (delay_shown s) (level_shown s) (levelClass s)
    (relay s) (timers s) (next s) (out s).

Definition limitCountErrors : Z := 2.
Definition MAX_AUTH_REFRESH_ATTEMPTS : Z := 3.

(** [playerPriority] in the order of its numeric keys, which is also the order
    [for in] visits them: 1, 2, 3, 5, 6, 7, 8, 9, 100. *)
Definition players : list string :=
  ["default"; "go2rtc_webrtc"; "go2rtc_mse"; "rtsp2web_webrtc"; "rtsp2web_mse"; "rtsp2web_hls";
   "janus"; "zms"; "go2rtc_hls"].
Definition fresh_counters : counters := map (fun n => (n, 0)) players.

Definition emit (e : effect) (s : state) : state := s <| out := (out s ++ [e])%list |>.

Definition write_info (text : string) (s : state) : state := s <| info := text |>.

(** ** Timers and sessions *)

Definition add_timer (t : timer) (s : state) : state * nat :=
  (s <| timers := <[next s := t]> (timers s) |> <| next := S (next s) |>, next s).

Definition drop (h : option nat) (t : gmap nat timer) : gmap nat timer :=
  match h with Some h => delete h t | None => t end.

(** [this.streamCmdTimer = clearInterval(this.streamCmdTimer)] *)
Definition clear_stream_timer (s : state) : state :=
  s <| timers := drop (streamCmdTimer s) (timers s) |> <| streamCmdTimer := None |>.
Definition clear_status_timer (s : state) : state :=
  s <| timers := drop (statusCmdTimer s) (timers s) |> <| statusCmdTimer := None |>.
Definition clear_auth_timer (s : state) : state :=
  s <| timers := drop (authRefreshTimer s) (timers s) |> <| authRefreshTimer := None |>.

(** [this.streamCmdTimer = setInterval(..)]: the previous handle is not cleared. *)
Definition set_stream_timer (s : state) : state :=
  let '(s, h) := add_timer TStreamQuery s in s <| streamCmdTimer := Some h |>.
Definition set_status_timer (s : state) : state :=
  let '(s, h) := add_timer TStatusQuery s in s <| statusCmdTimer := Some h |>.

(** [this.playbackSessionId = generateUUID()] *)
Definition new_session (s : state) : state :=
  s <| playbackSessionId := Some (next s) |> <| next := S (next s) |>.

(** skin.js: no stream has a member sessionActive, so isActive is never asked. *)
Definition streamSessionActive (session : option nat) (s : state) : bool :=
  bool_decide (session = playbackSessionId s).

(** ** Requests *)

Definition streamErrorIsFatal (reason : string) : bool :=
  if String.eqb reason "" then true else String.eqb reason "no_socket".

(** [a && ..] on a key: null and the empty string are false. *)
Definition key_truthy (k : option string) : bool :=
  match k with Some k => negb (String.eqb k "") | None => false end.

Definition genConnKey : num -> string := EventStream.genConnKey.

Definition set_connkey (k : option string) (s : state) : state :=
  s <| connKey := k |> <| stream_connkey := k |> <| status_connkey := k |>.

Definition streamCmdReq (connkey : option string) (c : command) (s : state) : state :=
  let s :=
    if has "zms" (activePlayer s) then
      if is_pause c then write_info "Paused" s
      else if is_play c then write_info "" s else s
    else s in
  if negb (is_stop c && (has "go2rtc" (activePlayer s) || has "rtsp2web" (activePlayer s)))
  then emit (Request connkey c) (s <| ajaxQueue := true |>)
  else s.

Definition streamCommand (c : command) (s : state) : state :=
  if negb (started s) then s
  else
    let s := streamCmdReq (stream_connkey s) c s in
    match c with
    | CMD_PAUSE => s <| zmsState := "paused" |>
    | CMD_PLAY => s <| zmsState := "played" |>
    | CMD_STOP | CMD_QUIT => s <| zmsState := "stopped" |>
    | _ => s
    end.

Definition streamCmdQuery (s : state) : state :=
  if started s then streamCmdReq (stream_connkey s) CMD_QUERY s else s.

Definition statusQuery (s : state) : state := streamCommand CMD_QUERY s.

Definition quitConnKey (connkey : option string) (s : state) : state :=
  if negb (key_truthy connkey) then s else emit (Request connkey CMD_QUIT) s.

Definition alarmCommand (c : string) (s : state) : state :=
  let s := if ajaxQueue s then emit AbortRequest s else s in
  emit (AlarmRequest (stream_connkey s) c) (s <| ajaxQueue := true |>).

Definition show_analyse_frames (toggle : bool) (s : state) : state :=
  if bool_decide (el_tag s = IMG) then
    let s := s <| analyse_frames := toggle |> in
    streamCmdReq (stream_connkey s) (if toggle then CMD_ANALYZE_ON else CMD_ANALYZE_OFF) s
  else s.

Definition setMaxFPS (maxfps : jsval) (s : state) : state := streamCommand (CMD_MAXFPS maxfps) s.

(** ** Error counters *)

(** The first player whose name occurs in [p]. *)
Fixpoint getCount (p : string) (cs : counters) : Z :=
  match cs with
  | [] => 0
  | (n, c) :: cs => if has n p then c else getCount p cs
  end.

Definition getCountStreamErrors (p : string) (s : state) : Z :=
  if String.eqb p "" then 0 else getCount p (playerPriority s).

Fixpoint update_count (f : Z -> Z) (p : string) (cs : counters) : counters :=
  match cs with
  | [] => []
  | (n, c) :: cs => if has n p then (n, f c) :: cs else (n, c) :: update_count f p cs
  end.

Definition streamErrorRegistration (fatal : bool) (s : state) : state :=
  s <| playerPriority :=
    update_count (fun c => c + (if fatal then limitCountErrors else 1)) (player s) (playerPriority s) |>.

Definition resetCountStreamErrors (p : string) (s : state) : state :=
  if String.eqb p "" then s
  else s <| playerPriority := update_count (fun _ => 0) p (playerPriority s) |>.

(** ** Stopping *)

(** [stream.removeAttribute('src')] *)
Definition remove_src (s : state) : state := s <| el_src := "" |>.

Definition stop (skipStreamCommand : bool) (s : state) : state :=
  let wasStarting := starting s in
  let s := s <| starting := false |> in
  if negb (started s) && negb wasStarting then s
  else
    let s := write_info "Stopped" s in
    let s := clear_stream_timer (clear_status_timer s) in
    let p := activePlayer s in
    let isMse := has "rtsp2web" p && has "mse" p in
    let s :=
      if has "zms" p then
        if (started s || wasStarting) && negb skipStreamCommand then streamCommand CMD_STOP s else s
      else if has "go2rtc" p then s <| webrtc := false |>
      else if has "rtsp2web" p then
        let s := s <| webrtc := false |> <| hls := false |> in
        if has "mse" p then s <| mseStopping := true |> else s
      else if has "janus" p then s <| janus := false |>
      else s in
    let s := if negb (has "zms" p) && negb isMse then remove_src s else s in
    s <| stoppedPlayer := p |> <| activePlayer := "" |> <| started := false |>.

Definition kill (s : state) : state :=
  let s := if bool_decide (el_tag s = IMG) then s <| handlers := None |> else s in
  let quit := (started s || starting s) && has "zms" (activePlayer s) && key_truthy (connKey s) in
  let s := if quit then streamCommand CMD_QUIT s else s in
  let s := stop quit s in
  if quit then set_connkey None s else s.

(** ** Choosing a player *)

Section Choice.
Variable cfg : config.

Definition channel_map : list (string * string) :=
  [("default", ""); ("Primary", ""); ("Secondary", "_CameraDirectSecondary");
   ("CameraDirectSecondary", "_CameraDirectSecondary"); ("Restream", "_ZoneMinderPrimary");
   ("ZoneMinderPrimary", "_ZoneMinderPrimary"); ("CameraDirectPrimary", "_CameraDirectPrimary");
   ("0", ""); ("1", "_CameraDirectSecondary"); ("2", "_ZoneMinderPrimary")].

Fixpoint assoc {A} (k : string) (xs : list (string * A)) : option A :=
  match xs with
  | [] => None
  | (n, v) :: xs => if String.eqb n k then Some v else assoc k xs
  end.

Definition getStreamSuffix (channel : string) : string :=
  let suffix := default "" (assoc channel channel_map) in
  if String.eqb suffix "_ZoneMinderPrimary" && negb (RTSPServer cfg) then "_CameraDirectPrimary" else suffix.

Definition numeric_map : list (string * Z) :=
  [("default", 0); ("Primary", 0); ("Secondary", 1); ("CameraDirectSecondary", 1); ("Restream", 2);
   ("ZoneMinderPrimary", 2); ("CameraDirectPrimary", 0); ("0", 0); ("1", 1); ("2", 2)].

Definition getNumericChannel (channel : string) : Z := default 0 (assoc channel numeric_map).

(** The members of [playerPriority] behind the first whose name occurs in [p]. *)
Fixpoint behind (p : string) (cs : counters) : option counters :=
  match cs with
  | [] => None
  | (n, c) :: cs => if has n p then Some cs else behind p cs
  end.

(** The conditions under which the loop passes over a player. *)
Definition skipped (s : state) (name : string) : bool :=
  (has "go2rtc" name && (negb (Go2RTCEnabled cfg) || negb (ZM_GO2RTC_PATH cfg))) ||
  (has "rtsp2web" name && negb (RTSP2WebEnabled cfg)) ||
  (has "janus" name && negb (janusEnabled cfg)) ||
  (String.eqb (selectedPlayer s) "go2rtc" && negb (has "go2rtc" name) && negb (has "zms" name)).

Fixpoint next_player (s : state) (cs : counters) : option string :=
  match cs with
  | [] => None
  | (n, c) :: cs => if negb (skipped s n) && (c =? 0) then Some n else next_player s cs
  end.

(** [restart], given what [selectNextPlayer] does. *)
Definition restart_with (selectNext : state -> option state) (channelStream : string) (delay : Z) (s : state) : option state :=
  let s := stop false s in
  let s := s <| stoppedPlayer := "" |> in
  if getCountStreamErrors (player s) s <? limitCountErrors then
    let '(s, _) := add_timer (TRestart (playbackSessionId s) channelStream) s in
    Some (emit (Scheduled delay) s)
  else if negb (String.eqb (selectedPlayer s) "") then
    Some (emit (ShowText (player s)) (write_info "Error" (emit UpdateControls s)))
  else selectNext s.

(** [None] is the stack overflow of a recursion that does not end. *)
Fixpoint selectNextPlayer (fuel : nat) (currentPlayer : string) (s : state) : option state :=
  match fuel with
  | O => None
  | S fuel =>
      if negb (isActive s) then Some (kill s)
      else
        let currentPlayer :=
          if String.eqb (defaultPlayer s) (player s) then "default"
          else if String.eqb currentPlayer "" then defaultPlayer s else currentPlayer in
        let restart := fun s => restart_with (selectNextPlayer fuel "") (currentChannelStream s) 200 s in
        match behind currentPlayer (playerPriority s) with
        | Some rest =>
            match next_player s rest with
            | Some nextName => restart (s <| player := nextName |>)
            | None =>
                if String.eqb (player s) "zms" || has "zms" currentPlayer
                then Some (s <| fatalError := true |>)
                else restart (s <| player := "zms" |>)
            end
        | None => restart (s <| player := "zms" |>)
        end
  end.

(** How deep the browser lets the recursion go matters only where it has no end. *)
Definition stack : nat := 8.

Definition restart (channelStream : string) (delay : Z) (s : state) : option state :=
  restart_with (selectNextPlayer stack "") channelStream delay s.

(** ** The players *)

Definition setRTSP2WebType (p : string) (s : state) : state :=
  if has "_hls" p then s <| RTSP2WebType := "HLS" |>
  else if has "_mse" p then s <| RTSP2WebType := "MSE" |>
  else if has "_webrtc" p then s <| RTSP2WebType := "WebRTC" |>
  else s.

(** [selected] is the value of the page's player select. *)
Definition setPlayer (p selected : string) (s : state) : state :=
  let s := if has "go2rtc" p then s else if has "rtsp2web" p then setRTSP2WebType p s else s in
  s <| selectedPlayer := selected |>
    <| playerPriority := map (fun '(n, _) => (n, 0)) (playerPriority s) |>
    <| fatalError := false |> <| player := p |>.

(** A new element takes the attributes of the old one along, but no handlers. *)
Definition replaceDOMElement (t : tag) (s : state) : state :=
  if bool_decide (el_tag s = t) then s
  else s <| el_tag := t |> <| handlers := None |> <| mseStopping := false |>.

(** The player chosen is running: what every select ends with. *)
Definition poll_status (s : state) : state := set_status_timer (clear_status_timer s).

Definition select_go2rtc (streamChannel : string) (s : state) : state :=
  if ZM_GO2RTC_PATH cfg then
    let s := replaceDOMElement VIDEO_STREAM s in
    let s := s <| currentChannelStream := streamChannel |> in
    let streamName := id cfg ++ getStreamSuffix streamChannel in
    if negb (isActive s) then kill s
    else
      let s := emit (OpenOther streamName) (s <| el_src := streamName |>) in
      let s := s <| webrtc := true |> in
      let s := poll_status s in
      s <| started := true |> <| activePlayer := "go2rtc" |>
  else emit (Alert "ZM_GO2RTC_PATH is empty") s.

Definition rtsp2web_url (streamChannel kind : string) : string :=
  "/stream/" ++ id cfg ++ "/channel/" ++ Z_to_string (getNumericChannel streamChannel) ++ "/" ++ kind.

Definition select_rtsp2web (streamChannel : string) (s : state) : option state :=
  if ZM_RTSP2WEB_PATH cfg then
    let s := replaceDOMElement VIDEO (new_session s) in
    let s := s <| currentChannelStream := streamChannel |> in
    if negb (isActive s) then Some (kill s)
    else
      let s := setRTSP2WebType (player s) s in
      let finish s := Some (poll_status s <| started := true |>) in
      if has "hls" (player s) then
        if negb (hls_loaded cfg) then restart (currentChannelStream s) 200 (streamErrorRegistration true s)
        else
          let src := rtsp2web_url streamChannel "hls/live/index.m3u8" in
          let s := if hls_supported cfg then emit (OpenOther src) (s <| hls := true |>)
                   else if hls_native cfg then emit (OpenOther src) (s <| el_src := src |>) else s in
          finish (s <| activePlayer := "rtsp2web_hls" |>)
      else if has "mse" (player s) then
        finish (emit (OpenOther (rtsp2web_url streamChannel "mse")) s <| el_src := "blob:" |> <| activePlayer := "rtsp2web_mse" |>)
      else if String.eqb (player s) "" || has "webrtc" (player s) then
        finish (emit (OpenOther (rtsp2web_url streamChannel "webrtc")) s <| webrtc := true |>
                  <| activePlayer := "rtsp2web_webrtc" |>)
      else finish s
  else Some s.

(** The poll timer is set without clearing the one before. *)
Definition continueRunningJanus (s : state) : state :=
  set_status_timer s <| started := true |> <| activePlayer := "janus" |>.

Definition select_janus (s : state) : state :=
  let s := replaceDOMElement VIDEO (new_session s) in
  if negb (isActive s) then kill s
  else if negb (janus s) then s <| janusInit := true |>
  else continueRunningJanus s.

(** The callback of Janus.init. *)
Definition janus_ready (s : state) : state :=
  let s := s <| janusInit := false |> in
  if starting s then continueRunningJanus (s <| janus := true |>) else s.

(** What stopMse does once the buffer is empty, on the element it stopped. *)
Definition mse_stopped (s : state) : state :=
  if mseStopping s then remove_src (s <| mseStopping := false |>) else s.

(** ** zms *)

(** [s.replace(/p/i, by)] for a literal [p]: the first occurrence in any case. *)
Fixpoint replace_ci (p by_ s : string) : string :=
  match Auth.ci_prefix p s with
  | Some rest => by_ ++ rest
  | None => match s with EmptyString => EmptyString | String c s => String c (replace_ci p by_ s) end
  end.

(** [s.match(/maxfps=([^&]+)/)] *)
Fixpoint match_maxfps (s : string) : option string :=
  match s with
  | EmptyString => None
  | String _ s' =>
      let v := Auth.take_until_amp (slice_from s 7) in
      if starts_with "maxfps=" s && negb (String.eqb v "") then Some v else match_maxfps s'
  end.

Definition srcAuthCurrent (s : state) : bool :=
  negb (String.eqb (el_src s) "") &&
  (String.eqb (Auth.hash (relay s)) "" || String.eqb (Auth.authHashFromRelay (el_src s)) (Auth.hash (relay s))).

Definition resumableZms (s : state) : bool :=
  String.eqb (activePlayer s) "zms" || (String.eqb (stoppedPlayer s) "zms" && key_truthy (connKey s)).

(** [if (-1 == src.search(name)) src += rest] *)
Definition add_missing (name rest src : string) : string := if has name src then src else src ++ rest.

Definition zms_src (src : string) (s : state) : string :=
  let src := add_missing "scale=" ("&scale=" ++ js_to_string (scale s)) src in
  let src := add_missing "mode=" "&mode=jpeg" src in
  let src := match match_maxfps (el_src s) with
             | Some v => add_missing "maxfps=" ("&maxfps=" ++ v) src
             | None => src
             end in
  if analyse_frames s then add_missing "analysis=" "&analysis=true" src else src.

(** [stream.src = src] for a URL that carries the connkey [key]. *)
Definition open_src (src : string) (key : option string) (s : state) : state :=
  emit (OpenSrc src key) (s <| el_src := src |>).

(** The branch that builds a new stream. *)
Definition rebuild_zms (random : num) (s : state) : state :=
  let src := Auth.applyTo (relay s) (replace_ci "mode=single" "mode=jpeg" (url_to_zms cfg)) None in
  if has "connkey" src then
    let src := zms_src src s in
    if String.eqb (el_src s) src then s else open_src src None s
  else
    let s := if key_truthy (connKey s) then quitConnKey (connKey s) s else s in
    let key := genConnKey random in
    let s := set_connkey (Some key) s in
    let src := zms_src (src ++ "&connkey=" ++ key) s in
    if String.eqb (el_src s) src then s else open_src src (Some key) s.

Definition select_zms (random : num) (s : state) : state :=
  let s := replaceDOMElement IMG (new_session s) in
  let s := clear_stream_timer s in
  let s := s <| handlers := Some (playbackSessionId s) |> in
  if negb (isActive s) then kill s
  else
    let s :=
      if srcAuthCurrent s && resumableZms s then
        let s := set_stream_timer (s <| started := true |>) in
        write_info "" (streamCommand CMD_PLAY s)
      else if srcAuthCurrent s && has "mode=paused" (el_src s) then
        let s := set_stream_timer (s <| started := true |>) in
        streamCommand CMD_PLAY s
      else rebuild_zms random s in
    s <| started := true |> <| activePlayer := "zms" |> <| stoppedPlayer := "" |>.

Definition selectPlayer (random : num) (streamChannel : string) (s : state) : option state :=
  let s := if String.eqb (player s) "" then s <| player := defaultPlayer s |> else s in
  let currentPlayer := player s in
  let countErrors := getCountStreamErrors currentPlayer s in
  let pinned := negb (String.eqb (selectedPlayer s) "") && String.eqb (selectedPlayer s) currentPlayer in
  if (negb (String.eqb currentPlayer "") && (countErrors =? 0)) || pinned then
    if Go2RTCEnabled cfg && has "go2rtc" currentPlayer then Some (select_go2rtc streamChannel s)
    else if janusEnabled cfg && has "janus" currentPlayer &&
            (has "primary" (toLowerCase streamChannel) || String.eqb (currentView cfg) "montage" ||
             String.eqb (currentView cfg) "zone") && negb (String.eqb (selectedPlayer s) "go2rtc")
    then Some (select_janus s)
    else if RTSP2WebEnabled cfg && has "rtsp2web" currentPlayer && negb (String.eqb (selectedPlayer s) "go2rtc")
    then select_rtsp2web streamChannel s
    else if has "zms" currentPlayer then Some (select_zms random s)
    else selectNextPlayer stack currentPlayer s
  else selectNextPlayer stack currentPlayer s.

Definition start (random : num) (streamChannel : string) (s : state) : option state :=
  if negb (isActive s) then Some s
  else if started s || starting s then Some s
  else
    let s := write_info "Loading..." (s <| starting := true |>) in
    let streamChannel := if String.eqb streamChannel "" || String.eqb (currentView cfg) "montage" then "default" else streamChannel in
    let streamChannel :=
      if String.eqb streamChannel "default" then
        (if String.eqb (StreamChannel cfg) "" then "Restream" else StreamChannel cfg)
      else streamChannel in
    selectPlayer random streamChannel s.

(** The timeout of restart. *)
Definition restart_fires (random : num) (session : option nat) (channel : string) (s : state) : option state :=
  if negb (streamSessionActive session s) then Some s
  else if negb (started s) && negb (starting s) then start random channel s else Some s.

(** What the players' listeners do on an error: registration, then restart. *)
Definition player_error (fatal : bool) (s : state) : option state :=
  let s := streamErrorRegistration fatal s in restart (currentChannelStream s) 200 s.

(** ** Errors of the img *)

(** img.onerror *)
Definition img_onerror (s : state) : state :=
  if negb (isActive s) then s
  else
    let s := write_info "Error" (clear_stream_timer (streamErrorRegistration false s)) in
    let brokenSrc := if String.eqb (el_src s) "" then url_to_zms cfg else el_src s in
    let s := remove_src s in
    if authRefreshAttempts s >=? MAX_AUTH_REFRESH_ATTEMPTS then s
    else
      let s := s <| authRefreshAttempts := authRefreshAttempts s + 1 |> in
      let backoffMs := 2000 * 2 ^ (authRefreshAttempts s - 1) in
      let s := write_info "Reconnecting..." s in
      let s := s <| timers := drop (authRefreshTimer s) (timers s) |> in
      let '(s, h) := add_timer (TAuth brokenSrc) s in
      emit (Scheduled backoffMs) (s <| authRefreshTimer := Some h |>).

(** Its timer asks for a fresh credential; [authRefreshTimer] keeps the handle. *)
Definition auth_fires (brokenSrc : string) (s : state) : state :=
  emit (AuthRequest brokenSrc) (s <| authPending := (authPending s ++ [brokenSrc])%list |>).

Definition auth_done (random : num) (data : option Auth.auth_data) (brokenSrc : string) (s : state) : state :=
  let s := s <| relay := (Auth.update (relay s) data).1 |> in
  let key := genConnKey random in
  let s := set_connkey (Some key) s in
  open_src (Auth.applyTo (relay s) brokenSrc (Some key)) (Some key) s.

Definition auth_fail (httpStatus : Z) (s : state) : state :=
  match Auth.authFailureAction httpStatus with
  | Auth.ALogin => emit GoToLogin s
  | _ => write_info "Error" s
  end.

Definition img_onload (s : state) : state :=
  let s := s <| authRefreshAttempts := 0 |> in
  let s := match authRefreshTimer s with Some _ => clear_auth_timer s | None => s end in
  if negb (started s) then s
  else match streamCmdTimer s with
       | Some _ => s
       | None => write_info "" (set_stream_timer (streamCmdQuery s))
       end.

(** The handlers select_zms puts on the img. *)
Definition element_error (s : state) : state :=
  match handlers s with
  | Some session => if streamSessionActive session s then img_onerror s else s
  | None => s
  end.
Definition element_load (s : state) : state :=
  match handlers s with
  | Some session =>
      if streamSessionActive session s then img_onload (resetCountStreamErrors (activePlayer s) s) else s
  | None => s
  end.

(** ** Replies *)

Definition is_alarmed (st : Z) : bool := (st =? STATE_ALARM cfg) || (st =? STATE_ALERT cfg).

Definition call_onalarm (s : state) : state := if has_onalarm cfg then emit OnAlarm s else s.

Definition setAlarmState (alarmState : Z) (s : state) : state :=
  let isAlarmed := is_alarmed alarmState in
  let wasAlarmed := is_alarmed (lastAlarmState s) in
  let newAlarm := isAlarmed && negb wasAlarmed in
  let oldAlarm := negb isAlarmed && wasAlarmed in
  let s :=
    if newAlarm then
      let s := if sound_on_alarm cfg then emit PlaySound s else s in
      let s := if popup_on_alarm cfg then emit FocusWindow s else s in
      call_onalarm s
    else s in
  let s := if oldAlarm then call_onalarm s else s in
  s <| lastAlarmState := alarmState |>.

(** [v == true] on a value of a status. *)
Definition is_true (v : jsval) : bool :=
  match v with
  | VBool b => b
  | VNum n => (n =? Fin 1)%num
  | VStr s => (string_to_number s =? Fin 1)%num
  | _ => false
  end.

Definition call_onplay (s : state) : state := if has_onplay cfg then emit (Calls OnPlay) s else s.

(** The mode line and the controls of the page. *)
Definition show_mode (st : status_t) (s : state) : state :=
  let s := s <| levelClass := if (st_level st >? Fin 95)%num then "alarm"
                              else if (st_level st >? Fin 80)%num then "alert" else "ok" |> in
  if is_true (st_stopped st) then
    s <| mode := "Stopped" |> <| rate_shown := false |> <| delay_shown := false |> <| level_shown := false |>
  else if is_true (st_paused st) then
    emit (Calls OnPause)
      (s <| mode := "Paused" |> <| rate_shown := false |> <| delay_shown := true |> <| level_shown := true |>)
  else if is_true (st_delayed st) then
    let s := s <| mode := "Replay" |> <| rate_shown := true |> <| delay_shown := true |> <| level_shown := true |> in
    if (st_rate st =? Fin 1)%num then call_onplay s
    else if (st_rate st >? Fin 0)%num then
      emit (Calls (if (st_rate st <? Fin 1)%num then SlowFwd else FastFwd)) s
    else emit (Calls (if (st_rate st >? Fin (-1))%num then SlowRev else FastRev)) s
  else
    call_onplay
      (s <| mode := "Live" |> <| rate_shown := false |> <| delay_shown := false |> <| level_shown := false |>).

(** [a != b] between two scales. *)
Definition scale_differs (a b : jsval) : bool := negb (js_Number a =? js_Number b)%num.

Definition handle_status (st : status_t) (s : state) : state :=
  let s := show_mode st (s <| status := Some st |>) in
  let s := match st_scale st with
           | VUndef => s
           | sc => if scale_differs sc (scale s) && scale_differs sc (VNum (Fin 0))
                   then streamCommand (CMD_SCALE (scale s)) s else s
           end in
  let s := setAlarmState (st_state st) s in
  let s := match st_analysisimage st with
           | VUndef => s
           | v => s <| analyse_frames := js_truthy v |>
           end in
  s <| relay := (Auth.update (relay s) (Some (st_auth st))).1 |>.

(** [/[?&]rand=\d+/i] *)
Fixpoint drop_digits (s : string) : string :=
  match s with
  | EmptyString => EmptyString
  | String c s' => if is_digit c then drop_digits s' else s
  end.
Definition digit_first (s : string) : bool := match s with String c _ => is_digit c | EmptyString => false end.

(** skin.js; [now] is Date.now(). *)
Definition addOrUpdateRandParam (now : Z) (src : string) : string :=
  match Auth.find_param_next "rand" digit_first src with
  | Some (b, g, after) => b ++ g ++ "rand=" ++ Z_to_string now ++ drop_digits after
  | None => src ++ (if includes_char src "?" then "&" else "?") ++ "rand=" ++ Z_to_string now
  end.

(** The reload of a stream whose zms is gone. *)
Definition reload (random : num) (now : Z) (s : state) : state :=
  let src := el_src s in
  let s := quitConnKey (connKey s) s in
  let key := genConnKey random in
  let s := set_connkey (Some key) s in
  let src := Auth.applyTo (relay s) src (Some key) in
  open_src (addOrUpdateRandParam now src) (if String.eqb src "" then None else Some key) s.

(** [key] is the connkey of the request the reply answers. *)
Definition getStreamCmdResponse (random : num) (now : Z) (respObj : reply) (key : option string) (s : state) : state :=
  if negb (bool_decide (key = connKey s)) then s
  else if String.eqb (result respObj) "Ok" then
    let s := match rstatus respObj with Some st => handle_status st s | None => s end in
    if started s && negb (bool_decide (is_Some (streamCmdTimer s))) then set_stream_timer s else s
  else if negb (started s) then s
  else if negb (streamErrorIsFatal (reason respObj)) then s
  else reload random now s.

(** ** Controls *)

Definition pause (s : state) : state :=
  if negb (String.eqb (activePlayer s) "") && (has "go2rtc" (activePlayer s) || has "rtsp2web" (activePlayer s)) then
    clear_status_timer (emit ElementPause s)
  else if has "zms" (activePlayer s) && key_truthy (connKey s) then streamCommand CMD_PAUSE s
  else clear_status_timer (if bool_decide (el_tag s = IMG) then s else emit ElementPause s).

(** Each branch but that of zms sets a poll timer without clearing the last. *)
Definition play (s : state) : state :=
  if negb (String.eqb (activePlayer s) "") && has "go2rtc" (activePlayer s) then set_status_timer (emit ElementPlay s)
  else if negb (String.eqb (activePlayer s) "") && has "rtsp2web" (activePlayer s) then set_status_timer (emit ElementPlay s)
  else if has "zms" (activePlayer s) && key_truthy (connKey s) then streamCommand CMD_PLAY s
  else set_status_timer (if bool_decide (el_tag s = IMG) then s else emit ElementPlay s).

(** [connection]: the state of the RTCPeerConnection, empty where there is none.
    The lag control of MSE streams is not modelled. *)
Definition statusCmdQuery (connection : string) (s : state) : option state :=
  let s := emit StatusRequest s in
  if Go2RTCEnabled cfg && (String.eqb (player s) "" || has "go2rtc" (player s)) then Some s
  else if RTSP2WebEnabled cfg && (String.eqb (player s) "" || has "rtsp2web" (player s)) then
    if has "mse" (activePlayer s) then Some s
    else if has "webrtc" (player s) then
      if (negb (webrtc s) || negb (String.eqb connection "connected")) && started s then
        if webrtc s && (String.eqb connection "new" || String.eqb connection "connecting") then Some s
        else player_error false s
      else Some s
    else Some s
  else Some s.

(** video-stream.js, errorHandling: the mode that failed becomes the player. *)
Definition go2rtc_error (currentMode : string) (s : state) : option state :=
  let s := streamErrorRegistration false (s <| player := "go2rtc_" ++ currentMode |>) in
  match restart (currentChannelStream s) 200 s with
  | Some s => Some (write_info "Error" s)
  | None => None
  end.

(** [src.replace(/scale=\d+/i, 'scale=' + v)] *)
Fixpoint replace_scale (v src : string) : string :=
  let more := match src with EmptyString => EmptyString | String c src => String c (replace_scale v src) end in
  match Auth.ci_prefix "scale=" src with
  | Some rest => if digit_first rest then "scale=" ++ v ++ drop_digits rest else more
  | None => more
  end.

(** The number setStreamScale settles on; [measured] is that of the frame. *)
Definition stream_scale (measured newscale streamQuality : num) : num :=
  let newscale := if ntruthy newscale then newscale else measured in
  let newscale := if (newscale >? Fin 100)%num then Fin 100 else newscale in
  let newscale := if (newscale <? Fin 25)%num && (streamQuality >? Fin (-1))%num then Fin 25 else newscale in
  if (newscale <=? Fin 0)%num then Fin 100 else newscale.

Definition setStreamScale (measured newscale streamQuality : num) (s : state) : state :=
  let newscale := stream_scale measured newscale streamQuality in
  let s := s <| scale := VNum newscale |> in
  if bool_decide (el_tag s = IMG) && started s && negb (key_truthy (connKey s)) && negb (String.eqb (el_src s) "") then
    let newSrc := Auth.applyTo (relay s) (replace_scale (num_to_string newscale) (el_src s)) None in
    if String.eqb newSrc (el_src s) then s
    else
      let s := clear_stream_timer s in
      let s := if has "connkey" (el_src s) && has "mode=single" (el_src s) then streamCommand CMD_QUIT s else s in
      set_stream_timer (open_src newSrc None s)
  else s.

(** An option of the page's player select. *)
Record player_option := PlayerOption { po_value : string; po_disabled : bool }.

Definition manage_option (o : player_option) : player_option :=
  if has "go2rtc" (po_value o) then PlayerOption (po_value o) (negb (Go2RTCEnabled cfg))
  else if has "rtsp2web" (po_value o) then PlayerOption (po_value o) (negb (RTSP2WebEnabled cfg))
  else if has "janus" (po_value o) then PlayerOption (po_value o) (negb (janusEnabled cfg))
  else o.

(** [select.value = v]: the first option of that value, or none. *)
Definition option_at (v : string) (opts : list player_option) : option player_option :=
  List.find (fun o => String.eqb (po_value o) v) opts.

(** The select's new options and value; the selection is by value, [None] for none. *)
Definition manageAvailablePlayers (candidate : string) (opts : list player_option) (selected : option string)
    (s : state) : list player_option * option string * state :=
  let opts := map manage_option opts in
  let selected :=
    match selected with
    | None => None
    | Some v =>
        let selected := if String.eqb v "" && negb (String.eqb candidate "")
                        then option_map po_value (option_at candidate opts) else Some v in
        match selected with
        | Some v' =>
            match option_at v' opts with
            | Some o => if po_disabled o then option_map po_value (option_at "" opts) else Some v'
            | None => Some v'
            end
        | None => None
        end
    end in
  let value := default "" selected in
  (opts, selected, setPlayer value value s).
End Choice.

(** ** What can happen *)

Inductive event :=
| Start (random : num) (channel : string)
| Stop | Kill | Restart (channel : string)
| SetActive (b : bool)
| SetPlayer (p selected : string)
| Pause | Play
| PlayerError (fatal : bool)
| Go2rtcError (mode : string)          (* video-stream.js: errorHandling *)
| JanusReady | MseStopped
| Fire (h : nat) (random : num) (connection : string)
| ElementError | ElementLoad
| Reply_ (random : num) (now : Z) (r : reply) (key : option string)
| AuthDone (random : num) (data : option Auth.auth_data) (brokenSrc : string)
| AuthFail (httpStatus : Z) (brokenSrc : string)
| Alarm (c : string) | Analyse (toggle : bool) | MaxFPS (v : jsval)
| Scaled (measured newscale streamQuality : num)
| NewAuth (rl : string)                (* another script of the page updates zmAuth *)
| SetChannel (channel : string)        (* the page sets currentChannelStream *)
| Send (c : command).                  (* the page calls streamCommand *)

Section Run.
Variable cfg : config.

(** The browser runs the callback of handle [h]; only an interval stays set. *)
Definition fire (h : nat) (random : num) (connection : string) (s : state) : option state :=
  match timers s !! h with
  | Some TStreamQuery => Some (streamCmdQuery s)
  | Some TStatusQuery => statusCmdQuery cfg connection s
  | Some (TAuth brokenSrc) => Some (auth_fires brokenSrc (s <| timers := delete h (timers s) |>))
  | Some (TRestart session channel) => restart_fires cfg random session channel (s <| timers := delete h (timers s) |>)
  | None => Some s
  end.

Fixpoint remove_first (x : string) (xs : list string) : option (list string) :=
  match xs with
  | [] => None
  | y :: ys => if String.eqb x y then Some ys else option_map (cons y) (remove_first x ys)
  end.

Definition step (s : state) (e : event) : option state :=
  match e with
  | Start r c => start cfg r c s
  | Stop => Some (stop false s)
  | Kill => Some (kill s)
  | Restart c => restart cfg c 200 s
  | SetActive b => Some (s <| isActive := b |>)
  | SetPlayer p sel => Some (setPlayer p sel s)
  | Pause => Some (pause s)
  | Play => Some (play s)
  | PlayerError f => player_error cfg f s
  | Go2rtcError m => go2rtc_error cfg m s
  | JanusReady => Some (if janusInit s then janus_ready s else s)
  | MseStopped => Some (mse_stopped s)
  | Fire h r c => fire h r c s
  | ElementError => Some (element_error cfg s)
  | ElementLoad => Some (element_load s)
  | Reply_ r now rp k => Some (getStreamCmdResponse cfg r now rp k s)
  | AuthDone r d b =>
      Some (match remove_first b (authPending s) with
            | Some p => auth_done r d b (s <| authPending := p |>)
            | None => s
            end)
  | AuthFail c b =>
      Some (match remove_first b (authPending s) with
            | Some p => auth_fail c (s <| authPending := p |>)
            | None => s
            end)
  | Alarm c => Some (alarmCommand c s)
  | Analyse b => Some (show_analyse_frames b s)
  | MaxFPS v => Some (setMaxFPS v s)
  | Scaled m n q => Some (setStreamScale m n q s)
  | NewAuth rl => Some (s <| relay := rl |>)
  | SetChannel c => Some (s <| currentChannelStream := c |>)
  | Send c => Some (streamCommand c s)
  end.

Fixpoint run (s : state) (es : list event) : option state :=
  match es with
  | [] => Some s
  | e :: es => match step s e with Some s' => run s' es | None => None end
  end.
End Run.

(** The object as the constructor makes it, with the img of the page. *)
Definition create (key : option string) (DefaultPlayer src rl : string) : state :=
  State false false "" key key key None None fresh_counters false None true false 0 None []
    DefaultPlayer (if String.eqb DefaultPlayer "" then "default" else DefaultPlayer) "" "" "" "" ""
    false false false false false IMG src None (VNum (num_of_Z 100)) 0 false None "" "" false false false "" rl ∅ 1 [].

(** ** The ledger of zms processes *)

(** An img was pointed at a stream under [k]; the zms under [k] was told to quit. *)
Definition opened (k : string) (es : list effect) : Prop := exists src, OpenSrc src (Some k) ∈ es.
Definition told_to_quit (k : string) (es : list effect) : Prop := Request (Some k) CMD_QUIT ∈ es.

(** The requests are sent under the key held, a player is active only in a
    started stream, and the players keep their places. *)
Record good (s : state) : Prop := {
  g_keys : stream_connkey s = connKey s;
  g_active : activePlayer s <> "" -> started s = true;
  g_names : map fst (playerPriority s) = players;
}.

(** [s'] comes from [s] without letting go of a zms: every key held before or
    opened on the way is held after, or its zms was told to quit. *)
Record keeps (s s' : state) : Prop := {
  k_out : exists new, out s' = (out s ++ new)%list /\
    forall k, k <> "" -> connKey s = Some k \/ opened k new -> connKey s' = Some k \/ told_to_quit k new;
  k_good : good s';
  k_default : defaultPlayer s' = defaultPlayer s;
}.

Lemma opened_app k es es' : opened k (es ++ es') <-> opened k es \/ opened k es'.
Proof. unfold opened. setoid_rewrite elem_of_app. naive_solver. Qed.

Lemma told_app k es es' : told_to_quit k (es ++ es') <-> told_to_quit k es \/ told_to_quit k es'.
Proof. apply elem_of_app. Qed.

Lemma keeps_trans s1 s2 s3 : keeps s1 s2 -> keeps s2 s3 -> keeps s1 s3.
Proof.
  intros [(n1 & E1 & H1) _ D1] [(n2 & E2 & H2) G D2]. split; [|exact G|congruence]. exists (n1 ++ n2)%list.
  split; [rewrite E2, E1; symmetry; apply app_assoc|]. intros k Hk. rewrite opened_app, told_app.
  intros [H|[H|H]].
  - destruct (H1 k Hk (or_introl H)) as [H'|H']; [|tauto]. destruct (H2 k Hk (or_introl H')); tauto.
  - destruct (H1 k Hk (or_intror H)) as [H'|H']; [|tauto]. destruct (H2 k Hk (or_introl H')); tauto.
  - destruct (H2 k Hk (or_intror H)); tauto.
Qed.

(** An effect that opens nothing. *)
Definition calm (e : effect) : bool := match e with OpenSrc _ (Some _) => false | _ => true end.

Lemma not_opened_calm k es : Forall (fun e => calm e = true) es -> ~ opened k es.
Proof. intros H [src Hin]. rewrite Forall_forall in H. specialize (H _ Hin). discriminate. Qed.

Lemma keeps_refl s : good s -> keeps s s.
Proof.
  intros G. split; [|exact G|reflexivity]. exists []. split; [symmetry; apply app_nil_r|].
  intros k _ [H|[src H]]; [left; exact H|apply elem_of_nil in H as []].
Qed.

Lemma keeps_calm s t t' new : keeps s t -> out t' = (out t ++ new)%list -> Forall (fun e => calm e = true) new ->
  connKey t' = connKey t -> stream_connkey t' = stream_connkey t ->
  map fst (playerPriority t') = map fst (playerPriority t) -> defaultPlayer t' = defaultPlayer t ->
  (activePlayer t' <> "" -> started t' = true) -> keeps s t'.
Proof.
  intros H E Hn Hc Hs Hm Hd Ha. eapply keeps_trans; [exact H|]. destruct H as [_ [Gk _ Gn] _].
  split; [|split; [congruence|exact Ha|congruence]|exact Hd]. exists new. split; [exact E|].
  intros k _ [Hk|Hk]; [left; congruence|]. exfalso. exact (not_opened_calm k new Hn Hk).
Qed.

(** A change of the members that the ledger does not look at. *)
Lemma keeps_same s t t' : keeps s t -> out t' = out t -> connKey t' = connKey t ->
  stream_connkey t' = stream_connkey t -> activePlayer t' = activePlayer t -> started t' = started t ->
  map fst (playerPriority t') = map fst (playerPriority t) -> defaultPlayer t' = defaultPlayer t -> keeps s t'.
Proof.
  intros H E1 E2 E3 E4 E5 E6 E7. apply (keeps_calm s t t' []); try assumption; [rewrite app_nil_r; exact E1|constructor|].
  rewrite E4, E5. apply H.
Qed.

Lemma keeps_emit s t e : calm e = true -> keeps s t -> keeps s (emit e t).
Proof. intros H K. apply (keeps_calm s t _ [e]); try reflexivity; [exact K|repeat constructor; exact H|apply K]. Qed.

Lemma keeps_started s t : keeps s t -> keeps s (t <| started := true |>).
Proof. intros K. apply (keeps_calm s t _ []); try reflexivity; [exact K|symmetry; apply app_nil_r|constructor]. Qed.

(** A let-bound state enters the rest only through what is kept. *)
Lemma let_state (R : state -> state -> Prop) s (v : state) (b : state -> state) :
  R s v -> (forall t, R s t -> R s (b t)) -> R s (let x := v in b x).
Proof. intros H K. exact (K v H). Qed.
Lemma let_value {A} (R : state -> state -> Prop) s (v : A) (b : A -> state) :
  (forall x, R s (b x)) -> R s (let x := v in b x).
Proof. intros K. exact (K v). Qed.

(** Unfolds a method and keeps its lets. *)
Ltac open_method f := cbv delta [f]; cbv beta.

Ltac keep_let :=
  match goal with
  | |- ?R ?s (let x := ?v in @?b x) => refine (let_state R s v b _ _); cbv beta
  end.
Ltac keep_value x :=
  match goal with
  | |- ?R ?s (let x := ?v in @?b x) => refine (let_value R s v b _); cbv beta; intros x
  end.

Ltac keep_update :=
  match goal with
  | K : keeps ?s ?t |- keeps ?s _ => solve [apply (keeps_same s t); first [exact K | reflexivity]]
  end.

Lemma keeps_streamCmdReq s t k c : keeps s t -> keeps s (streamCmdReq k c t).
Proof.
  intros K. open_method streamCmdReq. keep_let.
  { destruct (has _ _); [|exact K]. destruct (is_pause c); [keep_update|]. destruct (is_play c); [keep_update|exact K]. }
  intros u Ku. destruct (negb _); [|exact Ku]. apply keeps_emit; [reflexivity|keep_update].
Qed.

Lemma keeps_streamCommand s t c : keeps s t -> keeps s (streamCommand c t).
Proof.
  intros K. open_method streamCommand. destruct (negb (started t)); [exact K|].
  keep_let; [apply keeps_streamCmdReq, K|]. intros u Ku. destruct c; first [exact Ku | keep_update].
Qed.

Lemma keeps_clear_stream s t : keeps s t -> keeps s (clear_stream_timer t).
Proof. intros K. keep_update. Qed.
Lemma keeps_clear_status s t : keeps s t -> keeps s (clear_status_timer t).
Proof. intros K. keep_update. Qed.
Lemma keeps_set_stream s t : keeps s t -> keeps s (set_stream_timer t).
Proof. intros K. keep_update. Qed.
Lemma keeps_set_status s t : keeps s t -> keeps s (set_status_timer t).
Proof. intros K. keep_update. Qed.
Lemma keeps_poll s t : keeps s t -> keeps s (poll_status t).
Proof. intros K. keep_update. Qed.
Lemma keeps_info s t x : keeps s t -> keeps s (write_info x t).
Proof. intros K. keep_update. Qed.
Lemma keeps_quit s t k : keeps s t -> keeps s (quitConnKey k t).
Proof. intros K. unfold quitConnKey. destruct (negb _); [exact K|]. apply keeps_emit; [reflexivity|exact K]. Qed.
Lemma keeps_remove_src s t : keeps s t -> keeps s (remove_src t).
Proof. intros K. keep_update. Qed.
Lemma keeps_replace s t g : keeps s t -> keeps s (replaceDOMElement g t).
Proof. intros K. unfold replaceDOMElement. destruct (bool_decide _); [exact K|keep_update]. Qed.
Lemma keeps_session s t : keeps s t -> keeps s (new_session t).
Proof. intros K. keep_update. Qed.

Lemma update_count_names f p cs : map fst (update_count f p cs) = map fst cs.
Proof. induction cs as [|[n c] cs IH]; cbn; [reflexivity|]. destruct (has n p); cbn; [reflexivity|]. f_equal. exact IH. Qed.

Lemma keeps_register s t b : keeps s t -> keeps s (streamErrorRegistration b t).
Proof. intros K. apply (keeps_same s t); try reflexivity; [exact K|]. apply update_count_names. Qed.
Lemma keeps_reset s t p : keeps s t -> keeps s (resetCountStreamErrors p t).
Proof.
  intros K. unfold resetCountStreamErrors. destruct (String.eqb _ _); [exact K|].
  apply (keeps_same s t); try reflexivity; [exact K|]. apply update_count_names.
Qed.

Lemma keeps_stop s t b : keeps s t -> keeps s (stop b t).
Proof.
  intros K. open_method stop. keep_value w. keep_let; [keep_update|]. intros t1 K1.
  destruct (negb _ && negb _); [exact K1|].
  keep_let; [apply keeps_info, K1|]. intros t2 K2.
  keep_let; [apply keeps_clear_stream, keeps_clear_status, K2|]. intros t3 K3.
  keep_value p. keep_value m.
  keep_let.
  { destruct (has "zms" p); [destruct (_ && _); [apply keeps_streamCommand, K3|exact K3]|].
    destruct (has "go2rtc" p); [keep_update|].
    destruct (has "rtsp2web" p).
    { keep_let; [keep_update|]. intros t4 K4. destruct (has "mse" p); [keep_update|exact K4]. }
    destruct (has "janus" p); [keep_update|exact K3]. }
  intros t4 K4. keep_let; [destruct (_ && _); [apply keeps_remove_src, K4|exact K4]|]. intros t5 K5.
  apply (keeps_calm s t5 _ []); try reflexivity; [exact K5|symmetry; apply app_nil_r|constructor|intros N; contradiction].
Qed.

(** The key is replaced once its zms has been told to quit. *)
Lemma keeps_replace_key s t new key : keeps s t -> Forall (fun e => calm e = true) new ->
  (forall k, k <> "" -> connKey t = Some k -> told_to_quit k new) ->
  forall t', out t' = (out t ++ new)%list -> connKey t' = key -> stream_connkey t' = key ->
  map fst (playerPriority t') = map fst (playerPriority t) -> defaultPlayer t' = defaultPlayer t ->
  (activePlayer t' <> "" -> started t' = true) -> keeps s t'.
Proof.
  intros K Hc Hq t' E1 E2 E3 Em Ed Ha. eapply keeps_trans; [exact K|].
  split; [|split; [congruence|exact Ha|rewrite Em; apply K]|exact Ed].
  exists new. split; [exact E1|]. intros k Hk [H|H]; [right; exact (Hq k Hk H)|].
  exfalso. exact (not_opened_calm k new Hc H).
Qed.

Lemma key_truthy_spec k : key_truthy k = true <-> exists x, k = Some x /\ x <> "".
Proof.
  destruct k as [x|]; cbn; [|split; [discriminate|intros (x & [=] & _)]].
  rewrite negb_true_iff, String.eqb_neq. split; [eauto|]. intros (y & [= ->] & H). exact H.
Qed.

Lemma streamCommand_quit t : started t = true ->
  exists new, out (streamCommand CMD_QUIT t) = (out t ++ new)%list /\ new = [Request (stream_connkey t) CMD_QUIT] /\
    connKey (streamCommand CMD_QUIT t) = connKey t.
Proof.
  intros H. exists [Request (stream_connkey t) CMD_QUIT]. unfold streamCommand, streamCmdReq. rewrite H.
  cbn [negb is_stop is_pause is_play andb]. destruct (has "zms" (activePlayer t)); repeat split; reflexivity.
Qed.

(** [stop] without a command sends nothing. *)
Record quiet (s t : state) : Prop := { q_out : out t = out s; q_key : connKey t = connKey s; }.

Ltac quiet_update :=
  match goal with
  | K : quiet ?s ?t |- quiet ?s _ => solve [exact K | split; [transitivity (out t); [reflexivity|apply K]|transitivity (connKey t); [reflexivity|apply K]]]
  end.

Lemma stop_quiet t : quiet t (stop true t).
Proof.
  open_method stop. keep_value w. keep_let; [split; reflexivity|]. intros t1 K1.
  destruct (negb _ && negb _); [exact K1|].
  keep_let; [quiet_update|]. intros t2 K2. keep_let; [quiet_update|]. intros t3 K3. keep_value p. keep_value m.
  keep_let.
  { destruct (has "zms" p); [rewrite andb_false_r; exact K3|]. destruct (has "go2rtc" p); [quiet_update|].
    destruct (has "rtsp2web" p); [keep_let; [quiet_update|]; intros t4 K4; destruct (has "mse" p); quiet_update|].
    destruct (has "janus" p); quiet_update. }
  intros t4 K4. keep_let; [destruct (_ && _); quiet_update|]. intros t5 K5. quiet_update.
Qed.

Lemma keeps_kill s t : keeps s t -> keeps s (kill t).
Proof.
  intros K. open_method kill. keep_let; [destruct (bool_decide _); [keep_update|exact K]|]. clear t K. intros t K.
  destruct ((started t || starting t) && has "zms" (activePlayer t) && key_truthy (connKey t)) eqn:Q; cbv zeta.
  - apply andb_true_iff in Q as [Q Qk]. apply andb_true_iff in Q as [_ Qz]. apply key_truthy_spec in Qk as (k & Ek & Hk).
    assert (St : started t = true).
    { apply K. intros N. rewrite N in Qz. discriminate. }
    destruct (streamCommand_quit t St) as (new & E1 & En & E2).
    destruct (stop_quiet (streamCommand CMD_QUIT t)) as [O1 O2].
    pose proof (keeps_stop s (streamCommand CMD_QUIT t) true (keeps_streamCommand s t CMD_QUIT K)) as KS.
    apply (keeps_replace_key s t new None K).
    + rewrite En. repeat constructor.
    + intros x Hx Ex. rewrite En. unfold told_to_quit. rewrite (g_keys t (k_good _ _ K)), Ex. apply list_elem_of_here.
    + rewrite <- E1, <- O1. reflexivity.
    + reflexivity.
    + reflexivity.
    + transitivity players; [exact (g_names _ (k_good _ _ KS))|symmetry; apply K].
    + transitivity (defaultPlayer s); [exact (k_default _ _ KS)|symmetry; apply K].
    + intros N. apply KS. exact N.
  - apply keeps_stop, K.
Qed.

(** An operation that may not return. *)
Definition keepsO (s : state) (o : option state) : Prop := forall s', o = Some s' -> keeps s s'.

Lemma keepsO_some s t : keeps s t -> keepsO s (Some t).
Proof. intros K s' [= <-]. exact K. Qed.

Lemma keepsO_let s (v : state) (b : state -> option state) :
  keeps s v -> (forall t, keeps s t -> keepsO s (b t)) -> keepsO s (let x := v in b x).
Proof. intros H K. exact (K v H). Qed.

Ltac keepo_let :=
  match goal with
  | |- keepsO ?s (let x := ?v in @?b x) => refine (keepsO_let s v b _ _); cbv beta
  end.
Section Keep.
Variable cfg : config.

Lemma keeps_restart_with s t f c d : keeps s t -> (forall u, keeps s u -> keepsO s (f u)) -> keepsO s (restart_with f c d t).
Proof.
  intros K Hf. open_method restart_with. keepo_let; [apply keeps_stop, K|]. intros t1 K1.
  keepo_let; [keep_update|]. intros t2 K2. destruct (_ <? _).
  - apply keepsO_some, keeps_emit; [reflexivity|]. keep_update.
  - destruct (negb _); [|apply Hf, K2]. apply keepsO_some, keeps_emit; [reflexivity|].
    apply keeps_info, keeps_emit; [reflexivity|exact K2].
Qed.

Lemma keeps_selectNext fuel : forall s t p, keeps s t -> keepsO s (selectNextPlayer cfg fuel p t).
Proof.
  induction fuel as [|fuel IH]; intros s t p K; [intros ? [=]|]. cbn [selectNextPlayer].
  destruct (negb (isActive t)); [apply keepsO_some, keeps_kill, K|]. cbv zeta.
  assert (R : forall u c, keeps s u -> keepsO s (restart_with (selectNextPlayer cfg fuel "") c 200 u)).
  { intros u c Ku. apply keeps_restart_with; [exact Ku|]. intros v Kv. apply IH, Kv. }
  destruct (behind _ _) as [rest|]; [|apply R; keep_update].
  destruct (next_player _ _ _) as [n|]; [apply R; keep_update|].
  destruct (_ || _); [apply keepsO_some; keep_update|apply R; keep_update].
Qed.

Lemma keeps_restart s t c d : keeps s t -> keepsO s (restart cfg c d t).
Proof. intros K. apply keeps_restart_with; [exact K|]. intros u Ku. apply keeps_selectNext, Ku. Qed.

Lemma keeps_go2rtc s t c : keeps s t -> keeps s (select_go2rtc cfg c t).
Proof.
  intros K. open_method select_go2rtc. destruct (ZM_GO2RTC_PATH cfg); [|apply keeps_emit; [reflexivity|exact K]].
  keep_let; [apply keeps_replace, K|]. intros t1 K1. keep_let; [keep_update|]. intros t2 K2.
  keep_value n. destruct (negb _); [apply keeps_kill, K2|].
  keep_let; [apply keeps_emit; [reflexivity|keep_update]|]. intros t3 K3. keep_let; [keep_update|]. intros t4 K4.
  keep_let; [apply keeps_poll, K4|]. intros t5 K5.
  apply (keeps_calm s t5 _ []); try reflexivity; [exact K5|symmetry; apply app_nil_r|constructor].
Qed.

(** The tail of select_rtsp2web. *)
Lemma keeps_finish s t p : keeps s t -> keeps s (poll_status (t <| activePlayer := p |>) <| started := true |>).
Proof.
  intros K. apply (keeps_calm s t _ []); try reflexivity; [exact K|symmetry; apply app_nil_r|constructor].
Qed.

Lemma keeps_type s t p : keeps s t -> keeps s (setRTSP2WebType p t).
Proof. intros K. unfold setRTSP2WebType. repeat destruct (has _ p); keep_update. Qed.

Lemma keeps_rtsp2web s t c : keeps s t -> keepsO s (select_rtsp2web cfg c t).
Proof.
  intros K. open_method select_rtsp2web. destruct (ZM_RTSP2WEB_PATH cfg); [|apply keepsO_some, K].
  keepo_let; [apply keeps_replace, keeps_session, K|]. intros t1 K1. keepo_let; [keep_update|]. intros t2 K2.
  destruct (negb (isActive t2)); [apply keepsO_some, keeps_kill, K2|].
  keepo_let; [apply keeps_type, K2|]. intros t3 K3. cbv zeta.
  destruct (has "hls" (player t3)).
  - destruct (negb _); [apply keeps_restart, keeps_register, K3|]. apply keepsO_some, keeps_finish.
    destruct (hls_supported cfg); [apply keeps_emit; [reflexivity|keep_update]|].
    destruct (hls_native cfg); [apply keeps_emit; [reflexivity|keep_update]|exact K3].
  - destruct (has "mse" (player t3)).
    + assert (K4 : keeps s (emit (OpenOther (rtsp2web_url cfg c "mse")) t3)) by (apply keeps_emit; [reflexivity|exact K3]).
      apply keepsO_some, keeps_finish. keep_update.
    + destruct (_ || _); apply keepsO_some.
      * apply keeps_finish.
        assert (K4 : keeps s (emit (OpenOther (rtsp2web_url cfg c "webrtc")) t3)) by (apply keeps_emit; [reflexivity|exact K3]).
        keep_update.
      * apply keeps_started, keeps_poll, K3.
Qed.

Lemma keeps_janus_run s t : keeps s t -> keeps s (continueRunningJanus t).
Proof.
  intros K. apply (keeps_calm s t _ []); try reflexivity; [exact K|symmetry; apply app_nil_r|constructor].
Qed.

Lemma keeps_janus s t : keeps s t -> keeps s (select_janus t).
Proof.
  intros K. open_method select_janus. keep_let; [apply keeps_replace, keeps_session, K|]. intros t1 K1.
  destruct (negb (isActive t1)); [apply keeps_kill, K1|].
  destruct (negb (janus t1)); [keep_update|apply keeps_janus_run, K1].
Qed.

(** A key replaced by a new one that is opened in the same step. *)
Lemma keeps_reopen s t u key src k_opt : keeps s t -> key <> "" ->
  connKey u = Some key -> stream_connkey u = Some key -> (activePlayer u <> "" -> started u = true) ->
  map fst (playerPriority u) = map fst (playerPriority t) -> defaultPlayer u = defaultPlayer t ->
  k_opt = Some key \/ k_opt = None ->
  (exists new, out u = (out t ++ new ++ [OpenSrc src k_opt])%list /\ Forall (fun e => calm e = true) new /\
     forall k, k <> "" -> connKey t = Some k -> told_to_quit k new) -> keeps s u.
Proof.
  intros K Hk E1 E2 Ha Em Ed Ho (new & E3 & Hc & Hq). eapply keeps_trans; [exact K|].
  split; [|split; [congruence|exact Ha|rewrite Em; apply K]|exact Ed]. eexists. split; [exact E3|].
  intros k Hk0. rewrite opened_app, told_app. intros [H|[H|H]].
  - right. left. exact (Hq k Hk0 H).
  - exfalso. exact (not_opened_calm k new Hc H).
  - left. destruct H as [src' H]. apply list_elem_of_singleton in H. injection H as _ H.
    destruct Ho as [-> | ->]; [congruence|discriminate].
Qed.

Lemma zeros_length n : String.length (zeros n) = n.
Proof. induction n as [|n IH]; cbn; [reflexivity|]. f_equal. exact IH. Qed.

Lemma genConnKey_nonempty r : genConnKey r <> "".
Proof.
  unfold genConnKey, EventStream.genConnKey. destruct (nfloor _) as [|[]|q]; [discriminate..|].
  unfold EventStream.pad6. intros H. assert (L := f_equal String.length H). rewrite append_length in L.
  cbn [String.length] in L. rewrite zeros_length in L. lia.
Qed.

(** Telling the zms of the key to quit, as both rebuilding paths do. *)
Lemma quit_current t : exists new, out (quitConnKey (connKey t) t) = (out t ++ new)%list /\
  connKey (quitConnKey (connKey t) t) = connKey t /\ activePlayer (quitConnKey (connKey t) t) = activePlayer t /\
  started (quitConnKey (connKey t) t) = started t /\
  playerPriority (quitConnKey (connKey t) t) = playerPriority t /\
  defaultPlayer (quitConnKey (connKey t) t) = defaultPlayer t /\ Forall (fun e => calm e = true) new /\
  forall k, k <> "" -> connKey t = Some k -> told_to_quit k new.
Proof.
  unfold quitConnKey. destruct (key_truthy (connKey t)) eqn:E; cbn [negb].
  - exists [Request (connKey t) CMD_QUIT]. repeat split; [repeat constructor|].
    intros k _ ->. apply list_elem_of_here.
  - exists []. rewrite app_nil_r. repeat split; [constructor|]. intros k Hk Ek.
    assert (key_truthy (connKey t) = true) by (apply key_truthy_spec; eauto). congruence.
Qed.

Lemma keeps_rebuild s t r : keeps s t -> keeps s (rebuild_zms cfg r t).
Proof.
  intros K. open_method rebuild_zms. keep_value src. destruct (has "connkey" src).
  { cbv zeta. destruct (String.eqb _ _); [exact K|]. apply keeps_emit; [reflexivity|keep_update]. }
  assert (Q : (if key_truthy (connKey t) then quitConnKey (connKey t) t else t) = quitConnKey (connKey t) t).
  { unfold quitConnKey. destruct (key_truthy (connKey t)); reflexivity. }
  rewrite Q. destruct (quit_current t) as (new & E1 & E2 & E3 & E4 & E5 & E6 & Hc & Hq). set (q := quitConnKey (connKey t) t) in *.
  cbv zeta. set (src' := zms_src _ _). destruct (String.eqb _ src').
  - eapply (keeps_replace_key s t new (Some (genConnKey r)) K Hc Hq); [exact E1|reflexivity|reflexivity| | |].
    + change (map fst (playerPriority q) = map fst (playerPriority t)). rewrite E5. reflexivity.
    + exact E6.
    + change (activePlayer q <> "" -> started q = true). rewrite E3, E4. apply K.
  - eapply (keeps_reopen s t _ (genConnKey r) src' (Some (genConnKey r)) K);
      [apply genConnKey_nonempty|reflexivity|reflexivity| | | |left; reflexivity|].
    + change (activePlayer q <> "" -> started q = true). rewrite E3, E4. apply K.
    + change (map fst (playerPriority q) = map fst (playerPriority t)). rewrite E5. reflexivity.
    + exact E6.
    + exists new. split; [|split; [exact Hc|exact Hq]]. rewrite app_assoc, <- E1. reflexivity.
Qed.

Lemma keeps_zms s t r : keeps s t -> keeps s (select_zms cfg r t).
Proof.
  intros K. open_method select_zms. keep_let; [apply keeps_replace, keeps_session, K|]. intros t1 K1.
  keep_let; [apply keeps_clear_stream, K1|]. intros t2 K2. keep_let; [keep_update|]. intros t3 K3.
  destruct (negb (isActive t3)); [apply keeps_kill, K3|]. keep_let.
  { destruct (_ && _); [|destruct (_ && _); [|apply keeps_rebuild, K3]].
    - keep_let; [apply keeps_set_stream, keeps_started, K3|]. intros t4 K4. apply keeps_info, keeps_streamCommand, K4.
    - keep_let; [apply keeps_set_stream, keeps_started, K3|]. intros t4 K4. apply keeps_streamCommand, K4. }
  intros t4 K4. apply (keeps_calm s t4 _ []); try reflexivity; [exact K4|symmetry; apply app_nil_r|constructor].
Qed.

Lemma keeps_selectPlayer s t r c : keeps s t -> keepsO s (selectPlayer cfg r c t).
Proof.
  intros K. open_method selectPlayer. keepo_let; [destruct (String.eqb _ _); [keep_update|exact K]|]. intros t1 K1.
  cbv zeta. destruct (_ || _); [|apply keeps_selectNext, K1].
  destruct (_ && _); [apply keepsO_some, keeps_go2rtc, K1|].
  destruct (_ && _); [apply keepsO_some, keeps_janus, K1|].
  destruct (_ && _); [apply keeps_rtsp2web, K1|].
  destruct (has "zms" _); [apply keepsO_some, keeps_zms, K1|apply keeps_selectNext, K1].
Qed.

Lemma keeps_start s t r c : keeps s t -> keepsO s (start cfg r c t).
Proof.
  intros K. open_method start. destruct (negb _); [apply keepsO_some, K|]. destruct (_ || _); [apply keepsO_some, K|].
  keepo_let; [apply keeps_info; keep_update|]. intros t1 K1. cbv zeta. apply keeps_selectPlayer, K1.
Qed.

Lemma keeps_player_error s t f : keeps s t -> keepsO s (player_error cfg f t).
Proof. intros K. open_method player_error. keepo_let; [apply keeps_register, K|]. intros t1 K1. apply keeps_restart, K1. Qed.

Lemma keeps_setPlayer s t p q : keeps s t -> keeps s (setPlayer p q t).
Proof.
  intros K. open_method setPlayer. keep_let.
  2: { intros t1 K1. apply (keeps_same s t1); try reflexivity; [exact K1|].
       change (map fst (map (fun '(n, _) => (n, 0)) (playerPriority t1)) = map fst (playerPriority t1)).
       rewrite map_map. apply map_ext. intros [n c]. reflexivity. }
  destruct (has "go2rtc" p); [exact K|]. destruct (has "rtsp2web" p); [apply keeps_type, K|exact K].
Qed.

Lemma keeps_img_onerror s t : keeps s t -> keeps s (img_onerror cfg t).
Proof.
  intros K. open_method img_onerror. destruct (negb _); [exact K|].
  keep_let; [apply keeps_info, keeps_clear_stream, keeps_register, K|]. intros t1 K1. keep_value b.
  keep_let; [apply keeps_remove_src, K1|]. intros t2 K2. destruct (_ >=? _); [exact K2|].
  keep_let; [keep_update|]. intros t3 K3. keep_value d. keep_let; [apply keeps_info, K3|]. intros t4 K4.
  keep_let; [keep_update|]. intros t5 K5. apply keeps_emit; [reflexivity|keep_update].
Qed.

Lemma keeps_img_onload s t : keeps s t -> keeps s (img_onload t).
Proof.
  intros K. open_method img_onload. keep_let; [keep_update|]. intros t1 K1.
  keep_let; [destruct (authRefreshTimer t1); [keep_update|exact K1]|]. intros t2 K2.
  destruct (negb _); [exact K2|]. destruct (streamCmdTimer t2); [exact K2|].
  apply keeps_info, keeps_set_stream. unfold streamCmdQuery. destruct (started t2); [|exact K2].
  apply keeps_streamCmdReq, K2.
Qed.

Lemma keeps_alarm s t a : keeps s t -> keeps s (setAlarmState cfg a t).
Proof.
  intros K. open_method setAlarmState. keep_value b. keep_value c. keep_value d. keep_value e.
  assert (C : forall u, keeps s u -> keeps s (call_onalarm cfg u)).
  { intros u Ku. unfold call_onalarm. destruct (has_onalarm cfg); [apply keeps_emit; [reflexivity|exact Ku]|exact Ku]. }
  keep_let.
  { destruct d; [|exact K]. keep_let; [destruct (sound_on_alarm cfg); [apply keeps_emit; [reflexivity|exact K]|exact K]|].
    intros t1 K1. keep_let; [destruct (popup_on_alarm cfg); [apply keeps_emit; [reflexivity|exact K1]|exact K1]|].
    intros t2 K2. apply C, K2. }
  intros t1 K1. keep_let; [destruct e; [apply C, K1|exact K1]|]. intros t2 K2. keep_update.
Qed.

Lemma keeps_show_mode s t st : keeps s t -> keeps s (show_mode cfg st t).
Proof.
  intros K.
  assert (C : forall u, keeps s u -> keeps s (call_onplay cfg u)).
  { intros u Ku. unfold call_onplay. destruct (has_onplay cfg); [apply keeps_emit; [reflexivity|exact Ku]|exact Ku]. }
  open_method show_mode. keep_let; [keep_update|]. intros t1 K1.
  destruct (is_true (st_stopped st)); [keep_update|].
  destruct (is_true (st_paused st)); [apply keeps_emit; [reflexivity|keep_update]|].
  destruct (is_true (st_delayed st)); [|apply C; keep_update].
  keep_let; [keep_update|]. intros t2 K2. destruct (neqb (st_rate st) (Fin 1)); [apply C, K2|].
  destruct (nltb _ _); apply keeps_emit; first [reflexivity | exact K2].
Qed.

Lemma keeps_status s t st : keeps s t -> keeps s (handle_status cfg st t).
Proof.
  intros K. open_method handle_status. keep_let; [apply keeps_show_mode; keep_update|]. intros t1 K1.
  keep_let.
  { destruct (st_scale st); cbv beta iota zeta; first [exact K1 | destruct (_ && _); first [apply keeps_streamCommand, K1 | exact K1]]. }
  intros t2 K2. keep_let; [apply keeps_alarm, K2|]. intros t3 K3.
  keep_let; [destruct (st_analysisimage st); first [exact K3 | keep_update]|]. intros t4 K4. keep_update.
Qed.

Lemma keeps_reload s t r n : keeps s t -> keeps s (reload r n t).
Proof.
  intros K. open_method reload. keep_value src. destruct (quit_current t) as (new & E1 & E2 & E3 & E4 & E5 & E6 & Hc & Hq).
  set (q := quitConnKey (connKey t) t) in *. cbv zeta.
  set (src' := Auth.applyTo _ _ _). set (o := if String.eqb src' "" then None else Some (genConnKey r)).
  eapply (keeps_reopen s t _ (genConnKey r) (addOrUpdateRandParam n src') o K);
    [apply genConnKey_nonempty|reflexivity|reflexivity| | | | |].
  - change (activePlayer q <> "" -> started q = true). rewrite E3, E4. apply K.
  - change (map fst (playerPriority q) = map fst (playerPriority t)). rewrite E5. reflexivity.
  - exact E6.
  - unfold o. destruct (String.eqb src' ""); auto.
  - exists new. split; [|split; [exact Hc|exact Hq]]. rewrite app_assoc, <- E1. reflexivity.
Qed.

Lemma keeps_response s t r n rp k : keeps s t -> keeps s (getStreamCmdResponse cfg r n rp k t).
Proof.
  intros K. unfold getStreamCmdResponse. destruct (negb _); [exact K|]. destruct (String.eqb _ "Ok").
  - assert (K1 : keeps s (match rstatus rp with Some st => handle_status cfg st t | None => t end))
      by (destruct (rstatus rp); [apply keeps_status, K|exact K]).
    destruct (_ && _); [apply keeps_set_stream, K1|exact K1].
  - destruct (negb _); [exact K|]. destruct (negb _); [exact K|apply keeps_reload, K].
Qed.

Lemma keeps_query s t : keeps s t -> keeps s (streamCmdQuery t).
Proof. intros K. unfold streamCmdQuery. destruct (started t); [apply keeps_streamCmdReq, K|exact K]. Qed.

Lemma keeps_statusQuery s t c : keeps s t -> keepsO s (statusCmdQuery cfg c t).
Proof.
  intros K. open_method statusCmdQuery. keepo_let; [apply keeps_emit; [reflexivity|exact K]|]. intros t1 K1.
  destruct (_ && _); [apply keepsO_some, K1|]. destruct (_ && _); [|apply keepsO_some, K1].
  destruct (has "mse" _); [apply keepsO_some, K1|]. destruct (has "webrtc" _); [|apply keepsO_some, K1].
  destruct (_ && _); [|apply keepsO_some, K1]. destruct (_ && _); [apply keepsO_some, K1|apply keeps_player_error, K1].
Qed.

Lemma keeps_fire s t h r c : keeps s t -> keepsO s (fire cfg h r c t).
Proof.
  intros K. unfold fire. destruct (timers t !! h) as [[| |b|ses ch]|].
  - apply keepsO_some, keeps_query, K.
  - apply keeps_statusQuery, K.
  - apply keepsO_some. unfold auth_fires. apply keeps_emit; [reflexivity|]. keep_update.
  - assert (K1 : keeps s (t <| timers := delete h (timers t) |>)) by keep_update. unfold restart_fires.
    destruct (negb _); [apply keepsO_some, K1|]. destruct (_ && _); [apply keeps_start, K1|apply keepsO_some, K1].
  - apply keepsO_some, K.
Qed.

Definition is_auth_done (e : event) : bool := match e with AuthDone _ _ _ => true | _ => false end.

Lemma keeps_controls s t : keeps s t -> keeps s (pause t) /\ keeps s (play t).
Proof.
  intros K. assert (E : forall e, calm e = true -> keeps s (emit e t)) by (intros e He; apply keeps_emit; assumption).
  split.
  - unfold pause. destruct (_ && _); [apply keeps_clear_status, E; reflexivity|].
    destruct (_ && _); [apply keeps_streamCommand, K|]. apply keeps_clear_status.
    destruct (bool_decide _); [exact K|apply E; reflexivity].
  - unfold play. destruct (_ && _); [apply keeps_set_status, E; reflexivity|].
    destruct (_ && _); [apply keeps_set_status, E; reflexivity|].
    destruct (_ && _); [apply keeps_streamCommand, K|]. apply keeps_set_status.
    destruct (bool_decide _); [exact K|apply E; reflexivity].
Qed.

Lemma keeps_element_error s t : keeps s t -> keeps s (element_error cfg t).
Proof.
  intros K. unfold element_error. destruct (handlers t); [|exact K].
  destruct (streamSessionActive _ _); [apply keeps_img_onerror, K|exact K].
Qed.

Lemma keeps_element_load s t : keeps s t -> keeps s (element_load t).
Proof.
  intros K. unfold element_load. destruct (handlers t); [|exact K].
  destruct (streamSessionActive _ _); [apply keeps_img_onload, keeps_reset, K|exact K].
Qed.

Lemma keeps_alarmCommand s t c : keeps s t -> keeps s (alarmCommand c t).
Proof.
  intros K. open_method alarmCommand. keep_let.
  - destruct (ajaxQueue t); [apply keeps_emit; [reflexivity|exact K]|exact K].
  - intros t1 K1. apply keeps_emit; [reflexivity|keep_update].
Qed.

Lemma keeps_analyse s t b : keeps s t -> keeps s (show_analyse_frames b t).
Proof.
  intros K. open_method show_analyse_frames. destruct (bool_decide _); [|exact K].
  keep_let; [keep_update|]. intros t1 K1. apply keeps_streamCmdReq, K1.
Qed.

Lemma keeps_scale s t m n q : keeps s t -> keeps s (setStreamScale m n q t).
Proof.
  intros K. open_method setStreamScale. keep_value v. keep_let; [keep_update|]. intros u Ku.
  destruct (_ && _); [|exact Ku]. keep_value src. destruct (String.eqb _ _); [exact Ku|].
  keep_let; [apply keeps_clear_stream, Ku|]. intros w Kw.
  keep_let; [destruct (_ && _); [apply keeps_streamCommand, Kw|exact Kw]|]. intros x Kx.
  apply keeps_set_stream. apply keeps_emit; [reflexivity|keep_update].
Qed.

Lemma keeps_step s e : good s -> is_auth_done e = false -> keepsO s (step cfg s e).
Proof.
  intros G He. pose proof (keeps_refl s G) as K.
  destruct e; cbn [step]; try discriminate He.
  - apply keeps_start, K.
  - apply keepsO_some, keeps_stop, K.
  - apply keepsO_some, keeps_kill, K.
  - apply keeps_restart, K.
  - apply keepsO_some. keep_update.
  - apply keepsO_some, keeps_setPlayer, K.
  - apply keepsO_some, keeps_controls, K.
  - apply keepsO_some, keeps_controls, K.
  - apply keeps_player_error, K.
  - unfold go2rtc_error. set (u := streamErrorRegistration false _).
    assert (Ku : keeps s u) by (apply keeps_register; keep_update).
    pose proof (keeps_restart s u (currentChannelStream u) 200 Ku) as R. destruct (restart _ _ _ _) as [v|]; [|intros ? [=]].
    apply keepsO_some, keeps_info, R, eq_refl.
  - apply keepsO_some. destruct (janusInit s); [|exact K]. unfold janus_ready.
    destruct (starting _); [|keep_update]. apply keeps_janus_run. keep_update.
  - apply keepsO_some. unfold mse_stopped. destruct (mseStopping s); [|exact K]. keep_update.
  - apply keeps_fire, K.
  - apply keepsO_some, keeps_element_error, K.
  - apply keepsO_some, keeps_element_load, K.
  - apply keepsO_some, keeps_response, K.
  - apply keepsO_some. destruct (remove_first _ _); [|exact K]. unfold auth_fail.
    destruct (Auth.authFailureAction _); [apply keeps_emit; [reflexivity|keep_update]|keep_update..].
  - apply keepsO_some, keeps_alarmCommand, K.
  - apply keepsO_some, keeps_analyse, K.
  - apply keepsO_some, keeps_streamCommand, K.
  - apply keepsO_some, keeps_scale, K.
  - apply keepsO_some. keep_update.
  - apply keepsO_some. keep_update.
  - apply keepsO_some, keeps_streamCommand, K.
Qed.

(** A reconnect takes the key over and opens the stream under the new one. *)
Lemma auth_done_step s r d b s' : good s -> step cfg s (AuthDone r d b) = Some s' ->
  good s' /\ defaultPlayer s' = defaultPlayer s /\
  (s' = s \/ exists src, out s' = (out s ++ [OpenSrc src (connKey s')])%list).
Proof.
  intros G. cbn [step]. destruct (remove_first b (authPending s)) as [p|]; intros [= <-].
  - split; [split; [reflexivity|apply G|apply G]|]. split; [reflexivity|]. right.
    eexists. unfold auth_done, open_src. reflexivity.
  - split; [exact G|]. split; [reflexivity|]. left. reflexivity.
Qed.

Lemma run_events_snoc s es e : run cfg s (es ++ [e]) = match run cfg s es with Some s' => step cfg s' e | None => None end.
Proof.
  revert s. induction es as [|x es IH]; intros s; cbn; [destruct (step cfg s e); reflexivity|].
  destruct (step cfg s x); [apply IH|reflexivity].
Qed.

Lemma good_create key dp src rl : good (create key dp src rl).
Proof. split; [reflexivity|intros N; contradiction|reflexivity]. Qed.

Lemma step_good s e s' : good s -> step cfg s e = Some s' -> good s' /\ defaultPlayer s' = defaultPlayer s.
Proof.
  intros G E. destruct (is_auth_done e) eqn:A.
  - destruct e; try discriminate A. destruct (auth_done_step _ _ _ _ _ G E) as (G' & D & _). split; assumption.
  - pose proof (keeps_step s e G A s' E) as K. split; apply K.
Qed.

(** A run without reconnects keeps every zms in sight. *)
Lemma run_keeps es : forall s s', good s -> Forall (fun e => is_auth_done e = false) es ->
  run cfg s es = Some s' -> keeps s s'.
Proof.
  induction es as [|e es IH]; intros s s' G F R; [injection R as <-; apply keeps_refl, G|].
  apply Forall_cons in F as [Fe F]. cbn in R. destruct (step cfg s e) as [s1|] eqn:E; [|discriminate].
  pose proof (keeps_step s e G Fe s1 E) as K. eapply keeps_trans; [exact K|]. apply IH; [apply K|exact F|exact R].
Qed.

Lemma run_app es es' : forall s, run cfg s (es ++ es') = match run cfg s es with Some s' => run cfg s' es' | None => None end.
Proof. induction es as [|e es IH]; intros s; cbn; [reflexivity|]. destruct (step cfg s e); [apply IH|reflexivity]. Qed.

Lemma run_good key dp src rl es s : run cfg (create key dp src rl) es = Some s ->
  good s /\ defaultPlayer s = defaultPlayer (create key dp src rl).
Proof.
  revert s. induction es as [|e es IH] using rev_ind; intros s; [intros [= <-]; split; [apply good_create|reflexivity]|].
  rewrite run_events_snoc. destruct (run cfg _ es) as [s1|] eqn:R; [|discriminate]. intros E.
  destruct (IH s1 eq_refl) as [G1 D1]. destruct (step_good s1 e s G1 E) as [G D]. split; [exact G|congruence].
Qed.

(** C2: no zms is lost sight of: whatever happens, the zms of every key that was
    ever put into the img's address either was told to quit, or is the one the
    object still holds the key of, or was given up by a reconnect, which puts a
    new key over the one held. *)
Theorem zms_ledger (key : option string) (dp src rl : string) (es : list event) (s : state) (k : string) :
  run cfg (create key dp src rl) es = Some s -> k <> "" -> key = Some k \/ opened k (out s) ->
  connKey s = Some k \/ told_to_quit k (out s) \/
  exists es1 r d b es2 s1, es = (es1 ++ AuthDone r d b :: es2)%list /\
    run cfg (create key dp src rl) es1 = Some s1 /\ connKey s1 = Some k.
Proof.
  intros R Hk. revert s R. induction es as [|e es IH] using rev_ind; intros s R Ho.
  { cbn in R. injection R as <-. destruct Ho as [-> |[src' H]]; [left; reflexivity|apply elem_of_nil in H as []]. }
  rewrite run_events_snoc in R. destruct (run cfg _ es) as [s1|] eqn:R1; [|discriminate].
  destruct (run_good _ _ _ _ _ _ R1) as [G1 _]. specialize (IH s1 eq_refl).
  assert (Up : (exists es1 r d b es2 s1, es = (es1 ++ AuthDone r d b :: es2)%list /\
      run cfg (create key dp src rl) es1 = Some s1 /\ connKey s1 = Some k) ->
    exists es1 r d b es2 s1, (es ++ [e])%list = (es1 ++ AuthDone r d b :: es2)%list /\
      run cfg (create key dp src rl) es1 = Some s1 /\ connKey s1 = Some k).
  { intros (es1 & r & d & b & es2 & s2 & -> & H1 & H2). exists es1, r, d, b, (es2 ++ [e])%list, s2.
    split; [rewrite <- app_assoc; reflexivity|]. split; assumption. }
  destruct (is_auth_done e) eqn:A.
  - destruct e; try discriminate A. rename random into r, data into d, brokenSrc into b.
    destruct (auth_done_step _ _ _ _ _ G1 R) as (_ & _ & [-> |[src' E]]).
    { destruct (IH Ho) as [H|[H|H]]; auto. }
    rewrite E in Ho |- *. rewrite opened_app in Ho. rewrite told_app.
    assert (O1 : key = Some k \/ opened k (out s1) -> connKey s = Some k \/
      (told_to_quit k (out s1) \/ told_to_quit k [OpenSrc src' (connKey s)]) \/
      exists es1 r0 d0 b0 es2 s2, (es ++ [AuthDone r d b])%list = (es1 ++ AuthDone r0 d0 b0 :: es2)%list /\
      run cfg (create key dp src rl) es1 = Some s2 /\ connKey s2 = Some k).
    { intros H. destruct (IH H) as [H'|[H'|H']]; [|tauto|auto]. right. right. exists es, r, d, b, [], s1. auto. }
    destruct Ho as [H|[H|[src2 H]]]; [apply O1; auto..|].
    apply list_elem_of_singleton in H. injection H as _ H. left. congruence.
  - destruct (keeps_step s1 e G1 A s R) as [(new & E & Hn) _ _]. rewrite E in Ho |- *. rewrite opened_app in Ho.
    rewrite told_app. specialize (Hn k Hk).
    destruct Ho as [H|[H|H]]; [| |destruct (Hn (or_intror H)); tauto];
      (destruct (IH ltac:(tauto)) as [H'|[H'|H']]; [destruct (Hn (or_introl H')); tauto|tauto|auto]).
Qed.

(** ** Choosing a player always ends *)

(** Some player of the list is meant by [p]. *)
Definition listed (p : string) : bool := existsb (fun n => has n p) players.

(** [stop] leaves everything alone that the choice depends on. *)
Record same_choice (s t : state) : Prop := {
  sc_active : isActive t = isActive s; sc_player : player t = player s;
  sc_default : defaultPlayer t = defaultPlayer s; sc_selected : selectedPlayer t = selectedPlayer s;
  sc_counts : playerPriority t = playerPriority s; sc_channel : currentChannelStream t = currentChannelStream s;
  sc_session : playbackSessionId t = playbackSessionId s;
}.

Ltac choice_update :=
  match goal with
  | K : same_choice ?s ?t |- same_choice ?s _ => solve [exact K | destruct K; split; assumption]
  end.

Lemma stop_choice t b : same_choice t (stop b t).
Proof.
  assert (C : forall s u, same_choice s u -> same_choice s (streamCommand CMD_STOP u)).
  { intros s u K. open_method streamCommand. destruct (negb (started u)); [exact K|].
    assert (K1 : same_choice s (streamCmdReq (stream_connkey u) CMD_STOP u)); [|cbv zeta; choice_update].
    open_method streamCmdReq. keep_let; [destruct (has _ _); exact K|]. intros v Kv. destruct (negb _); choice_update. }
  open_method stop. keep_value w. keep_let; [split; reflexivity|]. intros t1 K1.
  destruct (negb _ && negb _); [exact K1|].
  keep_let; [choice_update|]. intros t2 K2. keep_let; [choice_update|]. intros t3 K3. keep_value p. keep_value m.
  keep_let.
  { destruct (has "zms" p); [destruct (_ && _); [apply C, K3|exact K3]|]. destruct (has "go2rtc" p); [choice_update|].
    destruct (has "rtsp2web" p); [keep_let; [choice_update|]; intros t4 K4; destruct (has "mse" p); choice_update|].
    destruct (has "janus" p); choice_update. }
  intros t4 K4. keep_let; [destruct (_ && _); choice_update|]. intros t5 K5. choice_update.
Qed.

Lemma getCount_by_name n cs : map fst cs = players -> In (n, 0) cs -> getCount n cs = 0.
Proof.
  intros Hn Hin.
  assert (P : forall a b, In a players -> In b players -> has a b = true -> a = b).
  { assert (F : forallb (fun a => forallb (fun b => negb (has a b) || String.eqb a b) players) players = true) by reflexivity.
    intros a b Ha Hb Hab. rewrite forallb_forall in F. specialize (F a Ha). rewrite forallb_forall in F. specialize (F b Hb).
    rewrite Hab in F. cbn in F. apply String.eqb_eq, F. }
  assert (D : NoDup (map fst cs)) by (rewrite Hn; repeat constructor; set_solver).
  assert (S : forall a, In a (map fst cs) -> In a players) by (rewrite Hn; auto).
  assert (Hm : In n players) by (rewrite <- Hn; apply (in_map fst cs (n, 0)), Hin).
  clear Hn. induction cs as [|[m c] cs IH]; [contradiction|]. cbn [getCount]. cbn [map fst] in D, S.
  apply NoDup_cons in D as [Hd D]. destruct (has m n) eqn:E.
  - apply P in E; [|apply S; left; reflexivity|exact Hm]. subst m.
    destruct Hin as [[= ->]|Hin]; [reflexivity|]. exfalso. apply Hd, list_elem_of_In, (in_map fst cs (n, 0)), Hin.
  - destruct Hin as [[= -> ->]|Hin].
    + assert (X : has n n = true); [|congruence]. clear -Hm. revert n Hm. apply List.Forall_forall.
      repeat constructor.
    + apply IH; [exact Hin|exact D|]. intros a Ha. apply S. right. exact Ha.
Qed.

Lemma next_player_spec s cs n : next_player cfg s cs = Some n -> In (n, 0) cs /\ skipped cfg s n = false.
Proof.
  induction cs as [|[m c] cs IH]; cbn [next_player]; [discriminate|].
  destruct (negb (skipped cfg s m) && (c =? 0)) eqn:E.
  - intros [= <-]. bool_to_prop. subst. split; [left; reflexivity|assumption].
  - intros H'. destruct (IH H') as [I1 I2]. split; [right; exact I1|exact I2].
Qed.

Lemma behind_suffix p cs rest : behind p cs = Some rest -> exists pre, cs = (pre ++ rest)%list /\ pre <> [].
Proof.
  induction cs as [|[n c] cs IH]; cbn; [discriminate|]. destruct (has n p).
  - intros [= <-]. exists [(n, c)]. split; [reflexivity|discriminate].
  - intros H. destruct (IH H) as (pre & -> & _). exists ((n, c) :: pre). split; [reflexivity|discriminate].
Qed.

Lemma behind_listed p cs : map fst cs = players -> listed p = true -> exists rest, behind p cs = Some rest.
Proof.
  unfold listed. intros <-. induction cs as [|[n c] cs IH]; cbn; [discriminate|].
  destruct (has n p); cbn; [eauto|exact IH].
Qed.

(** A player without errors is started again after a delay. *)
Lemma restart_clean f c d t : getCountStreamErrors (player t) t <? limitCountErrors = true -> is_Some (restart_with f c d t).
Proof.
  intros H. unfold restart_with. set (u := stop false t <| stoppedPlayer := "" |>).
  assert (E : getCountStreamErrors (player u) u = getCountStreamErrors (player t) t).
  { unfold getCountStreamErrors. change (player u) with (player (stop false t)).
    change (playerPriority u) with (playerPriority (stop false t)).
    rewrite (sc_player _ _ (stop_choice t false)), (sc_counts _ _ (stop_choice t false)). reflexivity. }
  rewrite E, H. destruct (add_timer _ u). eauto.
Qed.

Lemma restart_next fuel c t : map fst (playerPriority t) = players -> In (player t, 0) (playerPriority t) ->
  is_Some (restart_with (selectNextPlayer cfg fuel "") c 200 t).
Proof.
  intros Hn Hin. apply restart_clean. unfold getCountStreamErrors. destruct (String.eqb _ ""); [reflexivity|].
  rewrite getCount_by_name by assumption. reflexivity.
Qed.

Lemma listed_nonempty p : listed p = true -> String.eqb p "" = false.
Proof. intros H. destruct p; [discriminate|reflexivity]. Qed.

(** The player the search starts from. *)
Definition search_from (p : string) (s : state) : string :=
  if String.eqb (defaultPlayer s) (player s) then "default"
  else if String.eqb p "" then defaultPlayer s else p.

Lemma selectNext_unfold fuel p s :
  selectNextPlayer cfg (S fuel) p s =
  if negb (isActive s) then Some (kill s)
  else
    let restart t := restart_with (selectNextPlayer cfg fuel "") (currentChannelStream t) 200 t in
    match behind (search_from p s) (playerPriority s) with
    | Some rest =>
        match next_player cfg s rest with
        | Some n => restart (s <| player := n |>)
        | None => if String.eqb (player s) "zms" || has "zms" (search_from p s)
                  then Some (s <| fatalError := true |>) else restart (s <| player := "zms" |>)
        end
    | None => restart (s <| player := "zms" |>)
    end.
Proof. reflexivity. Qed.

Lemma select_from_zms fuel s : map fst (playerPriority s) = players -> listed (defaultPlayer s) = true ->
  player s = "zms" -> is_Some (selectNextPlayer cfg (S fuel) "" s).
Proof.
  intros Hn Hl Hp. rewrite selectNext_unfold. destruct (negb (isActive s)); [eauto|]. cbv zeta.
  set (cur := search_from "" s).
  assert (Hc : listed cur = true).
  { subst cur. unfold search_from. destruct (String.eqb _ _); [reflexivity|]. change (String.eqb "" "") with true. exact Hl. }
  destruct (behind_listed cur (playerPriority s) Hn Hc) as [rest Er]. rewrite Er.
  destruct (next_player cfg s rest) as [n|] eqn:En.
  - apply restart_next; [exact Hn|]. apply next_player_spec in En as [En _].
    apply behind_suffix in Er as (pre & Er & _). change (In (n, 0) (playerPriority s)). rewrite Er. apply in_or_app. right. exact En.
  - rewrite Hp. change (String.eqb "zms" "zms") with true. eauto.
Qed.

Lemma restart_to_zms fuel c t : map fst (playerPriority t) = players -> listed (defaultPlayer t) = true ->
  player t = "zms" -> is_Some (restart_with (selectNextPlayer cfg (S fuel) "") c 200 t).
Proof.
  intros Hn Hl Hp. destruct (getCountStreamErrors (player t) t <? limitCountErrors) eqn:E; [apply restart_clean, E|].
  unfold restart_with. set (u := stop false t <| stoppedPlayer := "" |>).
  pose proof (stop_choice t false) as C.
  destruct (getCountStreamErrors (player u) u <? limitCountErrors); [eexists; reflexivity|].
  destruct (negb _); [eexists; reflexivity|].
  apply select_from_zms.
  - change (playerPriority u) with (playerPriority (stop false t)). rewrite (sc_counts _ _ C). exact Hn.
  - change (defaultPlayer u) with (defaultPlayer (stop false t)). rewrite (sc_default _ _ C). exact Hl.
  - change (player u) with (player (stop false t)). rewrite (sc_player _ _ C). exact Hp.
Qed.

Lemma selectNext_total fuel p s : map fst (playerPriority s) = players -> listed (defaultPlayer s) = true ->
  is_Some (selectNextPlayer cfg (S (S fuel)) p s).
Proof.
  intros Hn Hl. rewrite selectNext_unfold. destruct (negb (isActive s)); [eauto|]. cbv zeta.
  set (cur := search_from p s).
  destruct (behind cur (playerPriority s)) as [rest|] eqn:Er.
  - destruct (next_player cfg s rest) as [n|] eqn:En.
    + apply restart_next; [exact Hn|]. apply next_player_spec in En as [En _].
      apply behind_suffix in Er as (pre & Er & _). change (In (n, 0) (playerPriority s)). rewrite Er. apply in_or_app. right. exact En.
    + destruct (_ || _); [eauto|]. apply (restart_to_zms fuel); [exact Hn|exact Hl|reflexivity].
  - apply (restart_to_zms fuel); [exact Hn|exact Hl|reflexivity].
Qed.

Definition default_listed (s : state) : Prop := listed (defaultPlayer s) = true.

Lemma selectNext_stack p s : good s -> default_listed s -> is_Some (selectNextPlayer cfg stack p s).
Proof. intros G L. apply (selectNext_total 6); [apply G|exact L]. Qed.

Lemma restart_total c d s : good s -> default_listed s -> is_Some (restart cfg c d s).
Proof.
  intros G L. unfold restart, restart_with. set (u := stop false s <| stoppedPlayer := "" |>).
  destruct (getCountStreamErrors (player u) u <? limitCountErrors); [eexists; reflexivity|].
  destruct (negb _); [eexists; reflexivity|].
  assert (K : keeps s u).
  { pose proof (keeps_stop s s false (keeps_refl s G)) as K1. unfold u. keep_update. }
  apply selectNext_stack; [apply K|]. unfold default_listed. rewrite (k_default _ _ K). exact L.
Qed.

Lemma start_total r c s : good s -> default_listed s -> is_Some (start cfg r c s).
Proof.
  intros G L. pose proof (keeps_refl s G) as K. unfold start. destruct (negb _); [eauto|]. destruct (_ || _); [eauto|].
  set (u := write_info _ _). set (ch := if String.eqb _ "default" then _ else _). clearbody ch.
  assert (Ku : keeps s u) by (unfold u; apply keeps_info; keep_update). clearbody u.
  unfold selectPlayer. set (v := if String.eqb (player u) "" then _ else u).
  assert (Kv : keeps s v) by (unfold v; destruct (String.eqb _ _); [keep_update|exact Ku]). clearbody v.
  assert (Lv : default_listed v) by (unfold default_listed; rewrite (k_default _ _ Kv); exact L).
  assert (N : is_Some (selectNextPlayer cfg stack (player v) v)) by (apply selectNext_stack; [apply Kv|exact Lv]).
  destruct (_ || _); [|exact N]. destruct (_ && _); [eauto|]. destruct (_ && _); [eauto|].
  destruct (_ && _); [|destruct (has "zms" _); [eauto|exact N]].
  unfold select_rtsp2web. destruct (ZM_RTSP2WEB_PATH cfg); [|eauto].
  set (w := replaceDOMElement VIDEO (new_session v) <| currentChannelStream := ch |>).
  assert (Kw : keeps s w).
  { pose proof (keeps_replace s _ VIDEO (keeps_session s v Kv)) as K1. unfold w. keep_update. }
  clearbody w. destruct (negb _); [eauto|].
  assert (Kx : keeps s (setRTSP2WebType (player w) w)) by (apply keeps_type, Kw).
  set (x := setRTSP2WebType (player w) w) in *. clearbody x.
  destruct (has "hls" _).
  - destruct (negb _); [|eexists; reflexivity].
    pose proof (keeps_register s x true Kx) as Ky.
    apply restart_total; [apply Ky|]. unfold default_listed. rewrite (k_default _ _ Ky). exact L.
  - destruct (has "mse" _); [eexists; reflexivity|]. destruct (_ || _); eexists; reflexivity.
Qed.

Lemma player_error_total f s : good s -> default_listed s -> is_Some (player_error cfg f s).
Proof.
  intros G L. pose proof (keeps_register s s f (keeps_refl s G)) as K. unfold player_error.
  apply restart_total; [apply K|]. unfold default_listed. rewrite (k_default _ _ K). exact L.
Qed.

Lemma step_total e s : good s -> default_listed s -> is_Some (step cfg s e).
Proof.
  intros G L. pose proof (keeps_refl s G) as K. destruct e; cbn [step]; try (eexists; reflexivity).
  - apply start_total; assumption.
  - apply restart_total; assumption.
  - apply player_error_total; assumption.
  - unfold go2rtc_error. set (u := streamErrorRegistration false _).
    assert (Ku : keeps s u) by (apply keeps_register; keep_update).
    destruct (restart_total (currentChannelStream u) 200 u) as [v ->]; [apply Ku| |eauto].
    unfold default_listed. rewrite (k_default _ _ Ku). exact L.
  - unfold fire. destruct (timers s !! h) as [[| |b|ses ch]|]; try (eexists; reflexivity).
    + unfold statusCmdQuery. set (u := emit StatusRequest s).
      assert (Ku : keeps s u) by (apply keeps_emit; [reflexivity|exact K]).
      destruct (_ && _); [eauto|]. destruct (_ && _); [|eauto]. destruct (has "mse" _); [eauto|].
      destruct (has "webrtc" _); [|eauto]. destruct (_ && _); [|eauto]. destruct (_ && _); [eauto|].
      apply player_error_total; [apply Ku|]. unfold default_listed. rewrite (k_default _ _ Ku). exact L.
    + unfold restart_fires. destruct (negb _); [eauto|]. destruct (_ && _); [|eauto].
      assert (Ku : keeps s (s <| timers := delete h (timers s) |>)) by keep_update.
      apply start_total; [apply Ku|exact L].
Qed.

(** C37: with any default player but one that is no entry of the list, choosing a
    player ends: no sequence of starts, errors, timers and replies makes the
    mutual recursion of restart and selectNextPlayer run forever. *)
Theorem selection_terminates (key : option string) (dp src rl : string) (es : list event) :
  listed (defaultPlayer (create key dp src rl)) = true -> is_Some (run cfg (create key dp src rl) es).
Proof.
  intros L. induction es as [|e es IH] using rev_ind; [eauto|]. rewrite run_events_snoc. destruct IH as [s R]. rewrite R.
  destruct (run_good _ _ _ _ _ _ R) as [G D]. apply step_total; [exact G|]. unfold default_listed. rewrite D. exact L.
Qed.

(** ** Where it does not end *)

Lemma behind_unlisted p cs : map fst cs = players -> listed p = false -> behind p cs = None.
Proof.
  unfold listed. intros <-. induction cs as [|[n c] cs IH]; cbn; [reflexivity|]. intros H. bool_to_prop.
  rewrite H. apply IH. assumption.
Qed.

(** zms has failed twice, no player is pinned, and the default is not in the list. *)
Record stuck (s : state) : Prop := {
  st_active : isActive s = true; st_unpinned : selectedPlayer s = "";
  st_default : listed (defaultPlayer s) = false; st_some : defaultPlayer s <> "";
  st_zms : player s = "zms"; st_count : limitCountErrors <= getCount "zms" (playerPriority s);
  st_names : map fst (playerPriority s) = players;
}.

Lemma stuck_overflows fuel : forall s, stuck s -> selectNextPlayer cfg fuel "" s = None.
Proof.
  induction fuel as [|fuel IH]; intros s [A U D Ne Z C N]; [reflexivity|].
  rewrite selectNext_unfold, A. cbn [negb]. cbv zeta.
  assert (F : search_from "" s = defaultPlayer s).
  { unfold search_from. rewrite Z. destruct (String.eqb (defaultPlayer s) "zms") eqn:E; [|reflexivity].
    bool_to_prop. rewrite E in D. discriminate. }
  rewrite F, behind_unlisted by assumption. unfold restart_with. set (t := s <| player := "zms" |>).
  set (u := stop false t <| stoppedPlayer := "" |>). destruct (stop_choice t false) as [S1 S2 S3 S4 S5 S6 S7].
  assert (Cu : getCountStreamErrors (player u) u = getCount "zms" (playerPriority s)).
  { unfold getCountStreamErrors. change (player u) with (player (stop false t)).
    change (playerPriority u) with (playerPriority (stop false t)). rewrite S2, S5. reflexivity. }
  rewrite Cu. rewrite (proj2 (Z.ltb_ge _ _) C).
  change (selectedPlayer u) with (selectedPlayer (stop false t)). rewrite S4.
  change (selectedPlayer t) with (selectedPlayer s). rewrite U. cbn [negb]. change (String.eqb "" "") with true. cbn [negb].
  apply IH. split.
  - change (isActive u) with (isActive (stop false t)). rewrite S1. exact A.
  - change (selectedPlayer u) with (selectedPlayer (stop false t)). rewrite S4. exact U.
  - change (defaultPlayer u) with (defaultPlayer (stop false t)). rewrite S3. exact D.
  - change (defaultPlayer u) with (defaultPlayer (stop false t)). rewrite S3. exact Ne.
  - change (player u) with (player (stop false t)). rewrite S2. reflexivity.
  - change (playerPriority u) with (playerPriority (stop false t)). rewrite S5. exact C.
  - change (playerPriority u) with (playerPriority (stop false t)). rewrite S5. exact N.
Qed.

(** The last player of the list fails while zms has failed twice already. *)
Lemma overflows_after fuel p s : isActive s = true -> selectedPlayer s = "" -> listed (defaultPlayer s) = false ->
  search_from p s = p -> behind p (playerPriority s) = Some [] ->
  String.eqb (player s) "zms" || has "zms" p = false -> limitCountErrors <= getCount "zms" (playerPriority s) ->
  defaultPlayer s <> "" -> map fst (playerPriority s) = players -> selectNextPlayer cfg fuel p s = None.
Proof.
  intros A U D F B Z C Ne N. destruct fuel as [|fuel]; [reflexivity|].
  rewrite selectNext_unfold, A, F, B. cbn [negb next_player]. cbv zeta. rewrite Z.
  rewrite <- (stuck_overflows (S fuel) (s <| player := "zms" |>)) by (split; try assumption; reflexivity).
  rewrite selectNext_unfold. change (isActive (s <| player := "zms" |>)) with (isActive s). rewrite A. cbn [negb]. cbv zeta.
  assert (F' : search_from "" (s <| player := "zms" |>) = defaultPlayer s).
  { unfold search_from. change (player (s <| player := "zms" |>)) with "zms".
    change (defaultPlayer (s <| player := "zms" |>)) with (defaultPlayer s).
    destruct (String.eqb (defaultPlayer s) "zms") eqn:E; [|reflexivity]. bool_to_prop. rewrite E in D. discriminate. }
  rewrite F'. change (playerPriority (s <| player := "zms" |>)) with (playerPriority s).
  rewrite behind_unlisted by assumption. reflexivity.
Qed.
End Keep.

(** ** Runs *)

(** A watch page with go2rtc, on a monitor whose default player is Go2RTC Auto. *)
Definition demo_cfg : config :=
  Config "7" "/zm/index.php" "/zm/cgi-bin/nph-zms?monitor=7" "" true true false false true false "watch"
    false false false false false true true 2 3.

Definition r0 : num := Fin 0.
Definition r1 : num := Fin (1 # 2).
Definition r2 : num := Fin (1 # 4).
Definition demo_start (dp : string) : state := create (Some "111111") dp "" "".

(** The go2rtc modes fail in turn, zms breaks twice, the page is hidden and shown. *)
Definition overflow_events : list event :=
  [Start r0 ""; Go2rtcError "webrtc"; Fire 2 r0 ""; Fire 3 r0 ""; Go2rtcError "mse"; Fire 5 r0 ""; Fire 6 r0 "";
   ElementError; ElementError; Stop; Start r0 ""; Fire 10 r0 ""; Go2rtcError "hls"].

(** With Go2RTC Auto as the default player there is a sequence of failures
    after which the next start never returns: at every depth of the stack the
    recursion of restart and selectNextPlayer goes on. *)
Theorem selection_overflows :
  exists s, run demo_cfg (demo_start "go2rtc") overflow_events = Some s /\
    step demo_cfg s (Fire 12 r0 "") = None /\
    forall depth, selectNextPlayer demo_cfg depth (player s) s = None.
Proof.
  assert (E : exists s, run demo_cfg (demo_start "go2rtc") overflow_events = Some s) by (eexists; vm_compute; reflexivity).
  destruct E as [s E]. exists s. split; [exact E|].
  assert (H : forall A (f : state -> A) v, option_map f (run demo_cfg (demo_start "go2rtc") overflow_events) = Some v -> f s = v).
  { intros A f v. rewrite E. intros [= <-]. reflexivity. }
  split; [apply (H _ (fun s => step demo_cfg s (Fire 12 r0 ""))); vm_compute; reflexivity|].
  intros depth. apply overflows_after.
  - apply (H _ isActive). vm_compute. reflexivity.
  - apply (H _ selectedPlayer). vm_compute. reflexivity.
  - apply (H _ (fun s => listed (defaultPlayer s))). vm_compute. reflexivity.
  - assert (P : (search_from (player s) s, player s) = (player s, player s)); [|congruence].
    rewrite (H _ player "go2rtc_hls") by (vm_compute; reflexivity).
    apply (H _ (fun s => (search_from "go2rtc_hls" s, "go2rtc_hls"))). vm_compute. reflexivity.
  - apply (H _ (fun s => behind (player s) (playerPriority s))). vm_compute. reflexivity.
  - apply (H _ (fun s => String.eqb (player s) "zms" || has "zms" (player s))). vm_compute. reflexivity.
  - rewrite (H _ (fun s => getCount "zms" (playerPriority s)) 2) by (vm_compute; reflexivity). reflexivity || lia.
  - rewrite (H _ defaultPlayer "go2rtc") by (vm_compute; reflexivity). discriminate.
  - apply (H _ (fun s => map fst (playerPriority s))). vm_compute. reflexivity.
Qed.

Lemma selection_terminates_witness :
  listed (defaultPlayer (demo_start "go2rtc_mse")) = true /\
  is_Some (run demo_cfg (demo_start "go2rtc_mse") [Start r0 ""; Go2rtcError "mse"; Fire 2 r0 ""]).
Proof.
  split; [reflexivity|].
  apply (selection_terminates demo_cfg (Some "111111") "go2rtc_mse" "" "" [Start r0 ""; Go2rtcError "mse"; Fire 2 r0 ""]).
  reflexivity.
Defined.


Definition broken_src : string := "/zm/cgi-bin/nph-zms?monitor=7&connkey=000001&scale=100&mode=jpeg".
Definition abandon_events : list event :=
  [SetPlayer "zms" "zms"; Start r0 ""; ElementError; Stop; Start r1 ""; Fire 2 r0 ""; AuthDone r2 None broken_src].

(** A reconnect can abandon a live zms: the img breaks, the stream is stopped
    and started again before the reconnect's answer is in, and that answer puts
    a third key over the key of the stream just opened, whose zms is never told
    to quit. *)
Theorem reconnect_abandons :
  exists s k, run demo_cfg (demo_start "zms") abandon_events = Some s /\
    opened k (out s) /\ connKey s <> Some k /\ ~ told_to_quit k (out s).
Proof.
  assert (E : exists s, run demo_cfg (demo_start "zms") abandon_events = Some s) by (eexists; vm_compute; reflexivity).
  destruct E as [s E]. exists s, "500000".
  assert (H : forall A (f : state -> A) v,
    option_map f (run demo_cfg (demo_start "zms") abandon_events) = Some v -> f s = v).
  { intros A f v. rewrite E. intros [= <-]. reflexivity. }
  split; [exact E|].
  assert (O : out s =
    [Request (Some "111111") CMD_QUIT; OpenSrc broken_src (Some "000001"); Scheduled 2000;
     Request (Some "000001") CMD_STOP; Request (Some "000001") CMD_QUIT;
     OpenSrc "/zm/cgi-bin/nph-zms?monitor=7&connkey=500000&scale=100&mode=jpeg" (Some "500000");
     AuthRequest broken_src;
     OpenSrc "/zm/cgi-bin/nph-zms?monitor=7&connkey=250000&scale=100&mode=jpeg" (Some "250000")])
    by (apply (H _ out); vm_compute; reflexivity).
  rewrite O. split; [eexists; do 5 apply list_elem_of_further; apply list_elem_of_here|].
  rewrite (H _ connKey (Some "250000")) by (vm_compute; reflexivity). split; [discriminate|].
  unfold told_to_quit. intros N. repeat (apply elem_of_cons in N as [N|N]; [discriminate N|]). apply elem_of_nil in N as [].
Qed.

Lemma zms_ledger_witness :
  exists s, run demo_cfg (demo_start "zms") [Start r0 ""; Stop; Start r1 ""] = Some s /\
  (connKey s = Some "000001" \/ told_to_quit "000001" (out s) \/
   exists es1 r d b es2 s1, [Start r0 ""; Stop; Start r1 ""] = (es1 ++ AuthDone r d b :: es2)%list /\
     run demo_cfg (create (Some "111111") "zms" "" "") es1 = Some s1 /\ connKey s1 = Some "000001").
Proof.
  eexists. split; [vm_compute; reflexivity|].
  apply (zms_ledger demo_cfg (Some "111111") "zms" "" "" [Start r0 ""; Stop; Start r1 ""] _ "000001").
  - vm_compute. reflexivity.
  - discriminate.
  - right. eexists. apply list_elem_of_further, list_elem_of_here.
Defined.

(** ** A stream that is stopped *)

Definition down (s : state) : Prop := started s = false /\ starting s = false.

(** What a stopped stream can be woken by: a start, or the timeout of a restart. *)
Definition wakes (s : state) (e : event) : bool :=
  match e with
  | Start _ _ => true
  | Fire h _ _ => match timers s !! h with Some (TRestart _ _) => true | _ => false end
  | _ => false
  end.

(** It plays nothing, is not about to, and is as active as it was. *)
Section Rest.
Variable act : bool.
Definition rest (s : state) : Prop := down s /\ isActive s = act.

Lemma rest_same s t : rest s -> started t = started s -> starting t = starting s -> isActive t = isActive s -> rest t.
Proof. unfold rest, down. intros [[H1 H2] H3] E1 E2 E3. repeat split; congruence. Qed.

Ltac still_rest := match goal with D : rest ?s |- rest _ => exact (rest_same s _ D eq_refl eq_refl eq_refl) end.

Lemma rest_streamCmdReq k c s : rest s -> rest (streamCmdReq k c s).
Proof.
  intros D. unfold streamCmdReq. set (u := if has "zms" _ then _ else _).
  assert (Du : rest u) by (unfold u; repeat case_match; first [exact D|still_rest]). clearbody u.
  destruct (negb _); [still_rest|exact Du].
Qed.

Lemma rest_streamCommand c s : rest s -> streamCommand c s = s.
Proof. intros [[D _] _]. unfold streamCommand. rewrite D. reflexivity. Qed.

Lemma rest_stop b s : rest s -> rest (stop b s).
Proof.
  intros D. pose proof D as [[D1 D2] _]. unfold stop. cbv zeta. change (started (s <| starting := false |>)) with (started s).
  rewrite D1, D2. exact (conj (conj D1 eq_refl) (proj2 D)).
Qed.

Lemma stop_not_started b s : started (stop b s) = false.
Proof.
  unfold stop. cbv zeta. set (w := write_info _ _). clearbody w.
  destruct (negb (started _) && _) eqn:E; [|reflexivity]. apply andb_true_iff in E as [E _]. apply negb_true_iff in E. exact E.
Qed.

Lemma rest_kill s : rest s -> rest (kill s).
Proof.
  intros D. unfold kill. cbv zeta. set (u := if bool_decide _ then _ else s).
  assert (Du : rest u) by (unfold u; destruct (bool_decide _); [still_rest|exact D]). clearbody u.
  set (q := (_ && key_truthy _)%bool). clearbody q.
  assert (Dq : rest (if q then streamCommand CMD_QUIT u else u)) by (destruct q; [rewrite rest_streamCommand by exact Du|]; exact Du).
  apply (rest_stop q) in Dq. destruct q; [still_rest|exact Dq].
Qed.

Definition restO (o : option state) : Prop := match o with Some s => rest s | None => True end.

Lemma rest_restart_with f c d s : rest s -> (forall t, rest t -> restO (f t)) -> restO (restart_with f c d s).
Proof.
  intros D Hf. unfold restart_with. cbv zeta. apply (rest_stop false) in D. set (u := stop false s) in *. clearbody u.
  assert (Du : rest (u <| stoppedPlayer := "" |>)) by still_rest.
  destruct (_ <? _); [exact Du|]. destruct (negb _); [exact Du|apply Hf, Du].
Qed.

Lemma rest_selectNext cfg fuel : forall p s, rest s -> restO (selectNextPlayer cfg fuel p s).
Proof.
  induction fuel as [|fuel IH]; intros p s D; cbn [selectNextPlayer]; [exact I|].
  destruct (negb _); [apply rest_kill, D|]. cbv zeta.
  assert (Hr : forall q, restO (restart_with (selectNextPlayer cfg fuel "") (currentChannelStream (s <| player := q |>)) 200 (s <| player := q |>)))
    by (intros q; apply rest_restart_with; [still_rest|apply IH]).
  destruct (behind _ _); [|apply Hr]. destruct (next_player _ _ _); [apply Hr|].
  destruct (_ || _); [|apply Hr]. change (rest (s <| fatalError := true |>)). still_rest.
Qed.

Lemma rest_restart cfg c d s : rest s -> restO (restart cfg c d s).
Proof. intros D. apply rest_restart_with; [exact D|]. apply rest_selectNext. Qed.

Lemma rest_error cfg f s : rest s -> restO (player_error cfg f s).
Proof. intros D. apply rest_restart. still_rest. Qed.

Lemma rest_let (v : state) (b : state -> state) : rest v -> (forall t, rest t -> rest (b t)) -> rest (let x := v in b x).
Proof. intros D K. exact (K v D). Qed.
Ltac rest_let := match goal with |- rest (let x := ?v in @?b x) => refine (rest_let v b _ _); cbv beta end.
Lemma rest_emit e s : rest s -> rest (emit e s).
Proof. intros D. still_rest. Qed.

Lemma rest_alarm cfg a s : rest s -> rest (setAlarmState cfg a s).
Proof.
  intros D. open_method setAlarmState. cbv zeta. set (na := (is_alarmed cfg a && _)%bool). set (oa := (_ && _)%bool). clearbody na oa.
  assert (Dc : forall t, rest t -> rest (call_onalarm cfg t)) by (intros t Dt; unfold call_onalarm; destruct (has_onalarm cfg); [apply rest_emit|]; exact Dt).
  set (u := if na then _ else s). assert (Du : rest u).
  { unfold u. destruct na; [|exact D]. apply Dc. destruct (popup_on_alarm cfg); [apply rest_emit|];
      (destruct (sound_on_alarm cfg); [apply rest_emit|]; exact D). }
  clearbody u. assert (Dw : rest (if oa then call_onalarm cfg u else u)) by (destruct oa; [apply Dc|]; exact Du).
  still_rest.
Qed.

Lemma rest_mode cfg st s : rest s -> rest (show_mode cfg st s).
Proof.
  intros D. unfold show_mode. cbv zeta. set (u := s <| levelClass := _ |>). assert (Du : rest u) by still_rest. clearbody u.
  assert (Dc : forall t, rest t -> rest (call_onplay cfg t)) by (intros t Dt; unfold call_onplay; destruct (has_onplay cfg); [apply rest_emit|]; exact Dt).
  destruct (is_true (st_stopped st)); [still_rest|]. destruct (is_true (st_paused st)); [apply rest_emit; still_rest|].
  destruct (is_true (st_delayed st)); [|apply Dc; still_rest].
  destruct (_ =? _)%num; [apply Dc; still_rest|]. destruct (_ >? _)%num; apply rest_emit; still_rest.
Qed.

Lemma rest_reply cfg r now rp k s : rest s -> rest (getStreamCmdResponse cfg r now rp k s).
Proof.
  intros D. unfold getStreamCmdResponse. destruct (negb _); [exact D|]. destruct (String.eqb _ _).
  2: { pose proof D as [[D1 _] _]. rewrite D1. exact D. }
  set (u := match rstatus rp with Some _ => _ | None => s end).
  assert (Du : rest u); [|clearbody u; destruct (_ && _); [still_rest|exact Du]].
  unfold u. destruct (rstatus rp) as [st|]; [|exact D]. open_method handle_status.
  rest_let; [apply rest_mode; still_rest|]. intros a Da.
  rest_let; [cbv zeta; repeat case_match; rewrite ?rest_streamCommand by exact Da; exact Da|].
  intros b Db. rest_let; [apply rest_alarm, Db|]. intros c Dc.
  rest_let; [destruct (st_analysisimage st); first [exact Dc|still_rest]|]. intros d Dd. still_rest.
Qed.

Ltac rest_value y := match goal with |- rest (let x := ?v in @?b x) => refine ((fun K : forall x, rest (b x) => K v) _); cbv beta; intros y end.
Lemma rest_timer t s : rest s -> rest (add_timer t s).1.
Proof. intros D. still_rest. Qed.

Lemma rest_img_onerror cfg s : rest s -> rest (img_onerror cfg s).
Proof.
  intros D. open_method img_onerror. destruct (negb _); [exact D|].
  rest_let; [still_rest|]. intros a Da. rest_value b. rest_let; [still_rest|]. intros c Dc. destruct (_ >=? _); [exact Dc|].
  rest_let; [still_rest|]. intros d Dd. rest_value n. rest_let; [still_rest|]. intros e De. rest_let; [still_rest|]. intros f Df.
  pose proof (rest_timer (TAuth b) f Df) as Dg. destruct (add_timer _ f) as [g h]. cbn [fst] in Dg. apply rest_emit. still_rest.
Qed.

Lemma rest_img_onload s : rest s -> rest (img_onload s).
Proof.
  intros D. unfold img_onload. cbv zeta. set (u := match authRefreshTimer _ with Some _ => _ | None => _ end).
  assert (Du : rest u) by (unfold u; destruct (authRefreshTimer _); still_rest). clearbody u.
  pose proof Du as [[D1 _] _]. rewrite D1. exact Du.
Qed.

Lemma rest_query cfg c s : rest s -> restO (statusCmdQuery cfg c s).
Proof.
  intros D. unfold statusCmdQuery. cbv zeta. set (u := emit _ s). assert (Du : rest u) by still_rest. clearbody u.
  repeat (match goal with |- restO (if ?b then _ else _) => destruct b end); first [exact Du|apply rest_error, Du].
Qed.

Lemma rest_scale m n q s : rest s -> rest (setStreamScale m n q s).
Proof.
  intros D. unfold setStreamScale. cbv zeta. set (u := s <| scale := _ |>). assert (Du : rest u) by still_rest. clearbody u.
  pose proof Du as [[D1 _] _]. rewrite D1, andb_false_r. exact Du.
Qed.

Definition sets_active (e : event) : bool := match e with SetActive _ => true | _ => false end.

Lemma rest_step cfg s e : rest s -> wakes s e = false -> sets_active e = false -> restO (step cfg s e).
Proof.
  intros D W A. destruct e; cbn [step restO]; try discriminate W; try discriminate A.
  - apply rest_stop, D.
  - apply rest_kill, D.
  - apply rest_restart, D.
  - cbn [restO]. unfold setPlayer, setRTSP2WebType. cbv zeta. repeat case_match; still_rest.
  - cbn [restO]. unfold pause. repeat (match goal with |- rest (if ?b then _ else _) => destruct b end);
      rewrite ?rest_streamCommand by exact D; first [exact D|still_rest|destruct (bool_decide _); still_rest].
  - cbn [restO]. unfold play. repeat (match goal with |- rest (if ?b then _ else _) => destruct b end);
      rewrite ?rest_streamCommand by exact D; first [exact D|still_rest|destruct (bool_decide _); still_rest].
  - apply rest_error, D.
  - unfold go2rtc_error. set (u := streamErrorRegistration _ _). assert (Du : rest u) by still_rest. clearbody u.
    pose proof (rest_restart cfg (currentChannelStream u) 200 u Du) as R. destruct (restart _ _ _ _); [|exact I]. cbn in R |- *. still_rest.
  - cbn [restO]. destruct (janusInit s); [|exact D]. pose proof D as [[_ D2] _]. unfold janus_ready. cbv zeta.
    set (u := s <| janusInit := false |>). assert (Du : rest u) by still_rest. clearbody u. pose proof Du as [[_ E2] _]. rewrite E2. exact Du.
  - cbn [restO]. unfold mse_stopped. destruct (mseStopping s); [still_rest|exact D].
  - unfold fire. cbn [wakes] in W. destruct (timers s !! h) as [[| |b|ses ch]|]; try discriminate W.
    + cbn [restO]. unfold streamCmdQuery. pose proof D as [[D1 _] _]. rewrite D1. exact D.
    + apply rest_query, D.
    + cbn [restO]. still_rest.
    + exact D.
  - cbn [restO]. unfold element_error. destruct (handlers s); [|exact D]. destruct (streamSessionActive _ _); [apply rest_img_onerror|]; exact D.
  - cbn [restO]. unfold element_load. destruct (handlers s); [|exact D]. destruct (streamSessionActive _ _); [|exact D].
    apply rest_img_onload. unfold resetCountStreamErrors. destruct (String.eqb _ _); [exact D|still_rest].
  - apply rest_reply, D.
  - cbn [restO]. destruct (remove_first _ _); [still_rest|exact D].
  - cbn [restO]. destruct (remove_first _ _); [|exact D]. unfold auth_fail. destruct (Auth.authFailureAction _); still_rest.
  - cbn [restO]. unfold alarmCommand. destruct (ajaxQueue s); still_rest.
  - cbn [restO]. unfold show_analyse_frames. destruct (bool_decide _); [|exact D]. apply rest_streamCmdReq. still_rest.
  - cbn [restO]. unfold setMaxFPS. rewrite rest_streamCommand by exact D. exact D.
  - apply rest_scale, D.
  - still_rest.
  - still_rest.
  - cbn [restO]. rewrite rest_streamCommand by exact D. exact D.
Qed.
End Rest.

(** Nothing else gets it going again. *)
Definition downO (o : option state) : Prop := match o with Some s => down s | None => True end.

Lemma down_step cfg s e : down s -> wakes s e = false -> downO (step cfg s e).
Proof.
  intros D W. destruct (sets_active e) eqn:A.
  - destruct e; try discriminate A. exact D.
  - pose proof (rest_step (isActive s) cfg s e (conj D eq_refl) W A) as R. destruct (step cfg s e); [exact (proj1 R)|exact I].
Qed.

(** A stream its page has given up stays so: inactive, it ignores a start. *)
Definition retired (s : state) : Prop := rest false s.

Lemma retired_start cfg r c s : retired s -> start cfg r c s = Some s.
Proof. intros [_ E]. unfold start. rewrite E. reflexivity. Qed.

Lemma retired_step cfg s e : retired s -> sets_active e = false -> restO false (step cfg s e).
Proof.
  intros D A. destruct (wakes s e) eqn:W; [|apply rest_step; assumption].
  destruct e; try discriminate W; cbn [step].
  - rewrite retired_start by exact D. exact D.
  - unfold fire. cbn [wakes] in W. destruct (timers s !! h) as [[| |b|ses ch]|] eqn:T; try discriminate W.
    set (u := s <| timers := delete h (timers s) |>).
    assert (Du : retired u) by exact (rest_same false s _ D eq_refl eq_refl eq_refl). clearbody u.
    unfold restart_fires. destruct (negb _); [exact Du|]. destruct (_ && _); [|exact Du].
    rewrite retired_start by exact Du. exact Du.
Qed.

Lemma retired_run cfg es : forall s s', retired s -> Forall (fun e => sets_active e = false) es ->
  run cfg s es = Some s' -> retired s'.
Proof.
  induction es as [|e es IH]; intros s s' D F R; [injection R as <-; exact D|].
  apply Forall_cons in F as [Fe F]. cbn in R. pose proof (retired_step cfg s e D Fe) as D1.
  destruct (step cfg s e) as [s1|]; [|discriminate]. exact (IH s1 s' D1 F R).
Qed.

Lemma flags_streamCmdReq k c s :
  starting (streamCmdReq k c s) = starting s /\ isActive (streamCmdReq k c s) = isActive s.
Proof.
  unfold streamCmdReq. set (u := if has "zms" _ then _ else s).
  assert (E : starting u = starting s /\ isActive u = isActive s) by (unfold u; repeat case_match; split; reflexivity).
  clearbody u. destruct (negb _); exact E.
Qed.

Lemma flags_streamCommand c s :
  starting (streamCommand c s) = starting s /\ isActive (streamCommand c s) = isActive s.
Proof.
  unfold streamCommand. destruct (negb _); [split; reflexivity|]. cbv zeta.
  pose proof (flags_streamCmdReq (stream_connkey s) c s) as E. set (u := streamCmdReq _ _ _) in *. clearbody u.
  destruct c; exact E.
Qed.

(** The same two members, of a stream and of what becomes of it. *)
Definition same_flags (s t : state) : Prop := starting t = starting s /\ isActive t = isActive s.

Lemma same_flags_trans s t u : same_flags s t -> same_flags t u -> same_flags s u.
Proof. unfold same_flags. intuition congruence. Qed.
Lemma same_flags_stopping s : same_flags s (clear_stream_timer (clear_status_timer (write_info "Stopped" s))).
Proof. destruct s. split; reflexivity. Qed.
Lemma same_flags_stopped s p : same_flags s (s <| stoppedPlayer := p |> <| activePlayer := "" |> <| started := false |>).
Proof. destruct s. split; reflexivity. Qed.
Lemma same_flags_if (b : bool) s t u : same_flags s t -> same_flags s u -> same_flags s (if b then t else u).
Proof. destruct b; auto. Qed.

Lemma flags_stop b s : same_flags (s <| starting := false |>) (stop b s).
Proof.
  unfold stop. cbv zeta. set (u := s <| starting := false |>). clearbody u.
  apply same_flags_if; [split; reflexivity|].
  eapply same_flags_trans; [apply same_flags_stopping|]. set (w := clear_stream_timer _). clearbody w.
  eapply same_flags_trans; [|apply same_flags_stopped].
  match goal with |- same_flags w (if _ then remove_src ?y else _) => set (x := y) end.
  assert (Ex : same_flags w x).
  { unfold x. apply same_flags_if; [apply same_flags_if; [apply flags_streamCommand|]|];
      repeat (apply same_flags_if); destruct w; split; reflexivity. }
  clearbody x. apply same_flags_if; [destruct x; exact Ex|exact Ex].
Qed.

(** A stop leaves a stream that neither plays nor is about to. *)
Lemma stop_down b s : down (stop b s).
Proof. split; [apply stop_not_started|]. rewrite (proj1 (flags_stop b s)). reflexivity. Qed.

Lemma active_stop b s : isActive (stop b s) = isActive s.
Proof. rewrite (proj2 (flags_stop b s)). reflexivity. Qed.

Lemma kill_rest s : rest (isActive s) (kill s).
Proof.
  unfold kill. cbv zeta. set (u := if bool_decide _ then _ else s).
  assert (Eu : isActive u = isActive s) by (unfold u; destruct (bool_decide _); reflexivity). clearbody u.
  set (q := (_ && key_truthy _)%bool). clearbody q. set (w := if q then streamCommand CMD_QUIT u else u).
  assert (Ew : isActive w = isActive s) by (unfold w; destruct q; rewrite ?(proj2 (flags_streamCommand _ _)); exact Eu). clearbody w.
  pose proof (stop_down q w) as D. pose proof (active_stop q w) as A. rewrite Ew in A. set (x := stop q w) in *. clearbody x.
  destruct q; [exact (rest_same _ x _ (conj D A) eq_refl eq_refl eq_refl)|exact (conj D A)].
Qed.

(** What the page does to a stream it replaces, and to one it stops for good. *)
Lemma retired_by cfg (e : event) s t : e = Kill \/ e = Stop -> run cfg s [SetActive false; e] = Some t -> retired t.
Proof.
  intros [-> | ->] [= <-]; [exact (kill_rest (s <| isActive := false |>))|].
  split; [apply stop_down|]. rewrite active_stop. reflexivity.
Qed.

(** ** Resuming *)

(** A zms stream that plays, with a credential that is still good. *)
Record playing_zms (s : state) : Prop := {
  pz_good : good s; pz_active : isActive s = true; pz_started : started s = true;
  pz_img : el_tag s = IMG; pz_player : player s = "zms"; pz_activePlayer : activePlayer s = "zms";
  pz_count : getCountStreamErrors "zms" s = 0; pz_key : key_truthy (connKey s) = true;
  pz_auth : srcAuthCurrent s = true;
}.

(** What is sent and shown when it is stopped. *)
Lemma stop_zms s : activePlayer s = "zms" -> started s = true ->
  let t := stop false s in
  out t = (out s ++ [Request (stream_connkey s) CMD_STOP])%list /\ connKey t = connKey s /\
  stream_connkey t = stream_connkey s /\ started t = false /\ starting t = false /\ activePlayer t = "" /\
  stoppedPlayer t = "zms" /\ el_tag t = el_tag s /\ el_src t = el_src s /\ relay t = relay s.
Proof.
  intros A S. destruct s. cbn in A, S. subst. repeat split; reflexivity.
Qed.

Lemma selectPlayer_zms cfg r ch s : player s = "zms" -> getCountStreamErrors "zms" s = 0 ->
  selectPlayer cfg r ch s = Some (select_zms cfg r s).
Proof.
  intros P C. unfold selectPlayer. rewrite P. change (String.eqb "zms" "") with false. cbv iota. rewrite P, C.
  change (0 =? 0) with true. change (String.eqb "zms" "") with false. cbn [negb andb orb].
  change (has "go2rtc" "zms") with false. change (has "janus" "zms") with false. change (has "rtsp2web" "zms") with false.
  change (has "zms" "zms") with true. rewrite !andb_false_r. reflexivity.
Qed.

(** The resuming branch of select_zms. *)
Lemma select_zms_resumes cfg r s : isActive s = true -> srcAuthCurrent s = true -> resumableZms s = true ->
  started s = false -> activePlayer s = "" -> el_tag s = IMG ->
  let t := select_zms cfg r s in
  out t = (out s ++ [Request (stream_connkey s) CMD_PLAY])%list /\ connKey t = connKey s /\ el_src t = el_src s /\
  started t = true /\ activePlayer t = "zms" /\ info t = "" /\ zmsState t = "played" /\
  exists h, streamCmdTimer t = Some h /\ timers t !! h = Some TStreamQuery.
Proof.
  intros A C R S P T. unfold select_zms.
  set (u := clear_stream_timer _ <| handlers := _ |>).
  assert (Au : isActive u = true) by (destruct s; cbn in P, S, T; subst; exact A).
  assert (Cu : srcAuthCurrent u = true) by (destruct s; cbn in P, S, T; subst; exact C).
  assert (Ru : resumableZms u = true) by (destruct s; cbn in P, S, T; subst; exact R).
  rewrite Au, Cu, Ru. cbn [negb andb]. clear Au Cu Ru C R.
  destruct s. cbn in A, S, P, T. subst.
  split; [reflexivity|]. split; [reflexivity|]. split; [reflexivity|]. split; [reflexivity|]. split; [reflexivity|].
  split; [reflexivity|]. split; [reflexivity|].
  eexists. split; [reflexivity|]. apply lookup_insert_eq.
Qed.

(** A stream that was stopped while zms was playing it. *)
Record stopped_zms (t : state) : Prop := {
  sz_active : isActive t = true; sz_down : down t; sz_player : player t = "zms";
  sz_count : getCountStreamErrors "zms" t = 0; sz_auth : srcAuthCurrent t = true;
  sz_stopped : stoppedPlayer t = "zms"; sz_key : key_truthy (connKey t) = true;
  sz_activePlayer : activePlayer t = ""; sz_img : el_tag t = IMG;
}.

(** Starting it sends one PLAY under the key it had. *)
Lemma start_resumes (cfg : config) (r : num) (channel : string) (t : state) : stopped_zms t ->
  exists s', start cfg r channel t = Some s' /\
    out s' = (out t ++ [Request (stream_connkey t) CMD_PLAY])%list /\
    connKey s' = connKey t /\ el_src s' = el_src t /\ started s' = true /\ activePlayer s' = "zms" /\ info s' = "" /\
    exists h, streamCmdTimer s' = Some h /\ timers s' !! h = Some TStreamQuery.
Proof.
  intros [Ac [E1 E2] P C Au Sp K Ap T]. unfold start. rewrite Ac, E1, E2. cbn [negb orb]. cbv zeta.
  set (u := write_info "Loading..." (t <| starting := true |>)). set (ch := if String.eqb _ "default" then _ else _).
  exists (select_zms cfg r u). split; [apply selectPlayer_zms; assumption|].
  destruct (select_zms_resumes cfg r u) as (R1 & R2 & R3 & R4 & R5 & R6 & _ & R7); try assumption.
  - unfold resumableZms. change (activePlayer u) with (activePlayer t). change (stoppedPlayer u) with (stoppedPlayer t).
    change (connKey u) with (connKey t). rewrite Ap, Sp, K. reflexivity.
  - change (out u) with (out t) in R1. change (stream_connkey u) with (stream_connkey t) in R1.
    change (connKey u) with (connKey t) in R2. change (el_src u) with (el_src t) in R3.
    rewrite R1, R2, R3. repeat split; assumption.
Qed.

Lemma stop_resumable s : playing_zms s -> stopped_zms (stop false s).
Proof.
  intros [[Gk _ _] Ac St T P A C K Au].
  destruct (stop_zms s A St) as (_ & Ek & _ & E1 & E2 & E3 & E4 & E5 & E6 & E7).
  destruct (stop_choice s false) as [S1 S2 S3 S4 S5 S6 S7].
  split; [congruence|split; assumption|congruence| | |exact E4|rewrite Ek; exact K|exact E3|congruence].
  - unfold getCountStreamErrors in *. rewrite S5. exact C.
  - unfold srcAuthCurrent in *. rewrite E6, E7. exact Au.
Qed.

(** Stopping a zms stream and starting it again resumes the very same zms:
    one STOP and one PLAY under the key it has had all along, no new connection,
    the picture's address untouched, the poll running and the text over the
    picture gone. *)
Theorem stop_start_resumes (cfg : config) (s : state) (r : num) (channel : string) :
  playing_zms s ->
  exists s', start cfg r channel (stop false s) = Some s' /\
    out s' = (out s ++ [Request (connKey s) CMD_STOP; Request (connKey s) CMD_PLAY])%list /\
    connKey s' = connKey s /\ el_src s' = el_src s /\ started s' = true /\ activePlayer s' = "zms" /\ info s' = "" /\
    exists h, streamCmdTimer s' = Some h /\ timers s' !! h = Some TStreamQuery.
Proof.
  intros H. destruct (start_resumes cfg r channel _ (stop_resumable s H)) as (s' & E & O & Ek & Es & R).
  destruct H as [[Gk _ _] _ St _ _ A _ _ _]. destruct (stop_zms s A St) as (O1 & Ek1 & Es1 & _ & _ & _ & _ & _ & E6 & _).
  exists s'. split; [exact E|]. rewrite O, O1, Ek, Ek1, Es, Es1, E6, Gk, <- app_assoc. split; [reflexivity|].
  split; [reflexivity|]. split; [reflexivity|exact R].
Qed.

Definition demo_playing : state := default (demo_start "zms") (run demo_cfg (demo_start "zms") [Start r0 ""; ElementLoad]).

Lemma stop_start_resumes_witness :
  exists s', start demo_cfg r1 "" (stop false demo_playing) = Some s' /\
    out s' = (out demo_playing ++ [Request (connKey demo_playing) CMD_STOP; Request (connKey demo_playing) CMD_PLAY])%list /\
    connKey s' = connKey demo_playing /\ el_src s' = el_src demo_playing /\ started s' = true /\
    activePlayer s' = "zms" /\ info s' = "" /\
    exists h, streamCmdTimer s' = Some h /\ timers s' !! h = Some TStreamQuery.
Proof.
  apply (stop_start_resumes demo_cfg demo_playing r1 "").
  repeat split; vm_compute; reflexivity.
Defined.

(** With Go2RTC Auto as the player an error is counted for no player, so the
    limit on consecutive attempts is never reached: every error schedules
    another start, however many there were. *)
Theorem go2rtc_errors_uncounted (cfg : config) (fatal : bool) (s : state) :
  good s -> player s = "go2rtc" ->
  exists s', player_error cfg fatal s = Some s' /\ player s' = "go2rtc" /\ good s' /\
    playerPriority s' = playerPriority s /\
    exists h, timers s' !! h = Some (TRestart (playbackSessionId s) (currentChannelStream s)) /\
      last (out s') = Some (Scheduled 200).
Proof.
  intros G P.
  assert (N : forall f, update_count f "go2rtc" (playerPriority s) = playerPriority s /\ getCount "go2rtc" (playerPriority s) = 0).
  { intros f. pose proof (g_names s G) as Hn.
    assert (A : forall cs, forallb (fun n => negb (has n "go2rtc")) (map fst cs) = true ->
      update_count f "go2rtc" cs = cs /\ getCount "go2rtc" cs = 0).
    { induction cs as [|[n c] cs IH]; [split; reflexivity|]. cbn. intros H. bool_to_prop. rewrite H.
      destruct IH as [I1 I2]; [assumption|]. rewrite I1. split; [reflexivity|exact I2]. }
    apply A. rewrite Hn. reflexivity. }
  unfold player_error, restart, restart_with. set (t := streamErrorRegistration fatal s).
  assert (Et : playerPriority t = playerPriority s).
  { change (playerPriority t) with
      (update_count (fun c => c + (if fatal then limitCountErrors else 1)) (player s) (playerPriority s)). rewrite P. apply N. }
  destruct (stop_choice t false) as [S1 S2 S3 S4 S5 S6 S7].
  set (u := stop false t <| stoppedPlayer := "" |>).
  assert (Kt : keeps s t) by (apply keeps_register, keeps_refl, G).
  assert (Ku : keeps s u).
  { pose proof (keeps_stop s t false Kt) as K1. unfold u. keep_update. }
  assert (Pu : player u = "go2rtc") by (change (player u) with (player (stop false t)); rewrite S2; exact P).
  assert (Cu : playerPriority u = playerPriority s).
  { change (playerPriority u) with (playerPriority (stop false t)). congruence. }
  assert (Ru : getCountStreamErrors (player u) u <? limitCountErrors = true).
  { unfold getCountStreamErrors. rewrite Pu, Cu. destruct (N (fun c => c)) as [_ ->]. reflexivity. }
  rewrite Ru. eexists. split; [reflexivity|]. split; [exact Pu|].
  assert (Kv : forall x, keeps s (emit (Scheduled 200) (add_timer x u).1)).
  { intros x. apply keeps_emit; [reflexivity|]. cbn [add_timer fst]. keep_update. }
  split; [apply (Kv (TRestart (playbackSessionId u) (currentChannelStream t)))|]. split; [exact Cu|].
  exists (next u). split.
  - change (currentChannelStream s) with (currentChannelStream t).
    replace (playbackSessionId s) with (playbackSessionId u) by (change (playbackSessionId u) with (playbackSessionId (stop false t)); rewrite S7; reflexivity).
    apply lookup_insert_eq.
  - apply last_snoc.
Qed.

Lemma go2rtc_errors_uncounted_witness :
  good (demo_start "go2rtc") /\
  exists s', player_error demo_cfg true (demo_start "go2rtc") = Some s' /\ player s' = "go2rtc" /\ good s' /\
    playerPriority s' = playerPriority (demo_start "go2rtc") /\
    exists h, timers s' !! h = Some (TRestart (playbackSessionId (demo_start "go2rtc")) (currentChannelStream (demo_start "go2rtc"))) /\
      last (out s') = Some (Scheduled 200).
Proof.
  split; [apply good_create|]. apply (go2rtc_errors_uncounted demo_cfg true (demo_start "go2rtc")); [apply good_create|reflexivity].
Defined.

(** How often alarmed-ness changes along a sequence of monitor states. *)
Fixpoint alarm_edges (cfg : config) (was : bool) (sts : list Z) : nat :=
  match sts with
  | [] => 0
  | st :: sts => Nat.add (if Bool.eqb was (is_alarmed cfg st) then 0 else 1) (alarm_edges cfg (is_alarmed cfg st) sts)
  end%nat.

Definition is_onalarm (e : effect) : bool := match e with OnAlarm => true | _ => false end.
Definition count_onalarm (s : state) : nat := List.length (List.filter is_onalarm (out s)).

Lemma count_onalarm_emit e s : count_onalarm (emit e s) = (count_onalarm s + (if is_onalarm e then 1 else 0))%nat.
Proof.
  unfold count_onalarm. change (out (emit e s)) with (out s ++ [e])%list.
  rewrite List.filter_app, length_app. cbn. destruct (is_onalarm e); reflexivity.
Qed.

Lemma setAlarmState_last cfg st s : lastAlarmState (setAlarmState cfg st s) = st.
Proof. reflexivity. Qed.

Lemma setAlarmState_count cfg st s : has_onalarm cfg = true ->
  count_onalarm (setAlarmState cfg st s) =
  (count_onalarm s + (if Bool.eqb (is_alarmed cfg (lastAlarmState s)) (is_alarmed cfg st) then 0 else 1))%nat.
Proof.
  intros H. unfold setAlarmState, call_onalarm. rewrite H.
  change (count_onalarm (?t <| lastAlarmState := st |>)) with (count_onalarm t).
  destruct (is_alarmed cfg st), (is_alarmed cfg (lastAlarmState s)); cbn [negb andb Bool.eqb]; try lia.
  - destruct (sound_on_alarm cfg), (popup_on_alarm cfg); rewrite !count_onalarm_emit; cbn; lia.
  - rewrite count_onalarm_emit. cbn. lia.
Qed.

(** Over any sequence of reported monitor states the page's onalarm runs
    exactly once for every change between alarmed and not alarmed, counted from
    the state reported last: never twice for one alarm (ALARM and ALERT are the
    same alarm), and never missing its end. *)
Theorem onalarm_edges (cfg : config) (sts : list Z) (s : state) :
  has_onalarm cfg = true ->
  count_onalarm (fold_left (fun s st => setAlarmState cfg st s) sts s) =
  (count_onalarm s + alarm_edges cfg (is_alarmed cfg (lastAlarmState s)) sts)%nat.
Proof.
  intros H. revert s. induction sts as [|st sts IH]; intros s; cbn; [lia|].
  rewrite IH, (setAlarmState_count cfg st s H), setAlarmState_last. lia.
Qed.

Lemma onalarm_edges_witness :
  count_onalarm (fold_left (fun s st => setAlarmState demo_cfg st s) [1; 2; 3; 2; 1; 1; 3] (demo_start "zms")) = 3%nat.
Proof.
  apply (onalarm_edges demo_cfg [1; 2; 3; 2; 1; 1; 3] (demo_start "zms")). reflexivity.
Defined.

End MonitorStream.
