(* ===== verification/MontageSearch.v ===== *)
(** web/skins/classic/views/js/montagereview.js: the events and frames of the
    review, and how the ones at a moment are found.

    The page's event objects live in a [heap]: [events] and [events_for_monitor]
    both refer to them, so a frame list loaded through one is seen through the
    other.  The functions take the page's [store] and return it, with what they
    ask of the server in [out]; [None] is the TypeError of reading a member of
    undefined.  A [jsval] is a field as JSON delivers it: numbers, or strings that
    are compared as the operators do.  [getFrame]'s argument last_Frame is left
    out: no caller passes it. *)
From S2P Require Import JsString.

Module Montage.

(** ** Data *)

Record frame := Frame {
  FrameId : num;
  EventId : Z;
  Type_ : string;
  TimeStampSecs : jsval;
  NextTimeStampSecs : jsval;                  (* [VUndef] until a later frame is linked *)
  NextFrameId : option Z;
  PrevFrameId : option Z;
}.
#[export] Instance eta_frame : Eta frame := fun f =>
  Frame (FrameId f) (EventId f) (Type_ f) (TimeStampSecs f) (NextTimeStampSecs f) (NextFrameId f) (PrevFrameId f).

(** An array indexed by frame id, in the order of its keys. *)
Abbreviation frames := (list (Z * frame)).

Record zm_event := Event {
  Id : Z; MonitorId : Z;
  StartTimeSecs : jsval; EndTimeSecs : jsval; EndDateTime : jsval;
  FramesById : option frames;
  NewestFrameTimeSecs : jsval;
  FramesRefreshedAt : jsval;
}.
#[export] Instance eta_event : Eta zm_event := fun e =>
  Event (Id e) (MonitorId e) (StartTimeSecs e) (EndTimeSecs e) (EndDateTime e) (FramesById e)
    (NewestFrameTimeSecs e) (FramesRefreshedAt e).

Inductive effect :=
| FetchFrames (query : string) (ids : list Z)   (* one request for the frames of some events *)
| WriteText (monId : Z) (text : string)
| Alert (message : jsval).

Record store := Store {
  heap : list zm_event;
  events : gmap Z nat;
  events_for_monitor : gmap Z (list nat);
  out : list effect;
}.
#[export] Instance eta_store : Eta store := fun s => Store (heap s) (events s) (events_for_monitor s) (out s).

Definition emit (e : effect) (s : store) : store := s <| out := (out s ++ [e])%list |>.

(** A field of an event is written: every reference to the event sees it. *)
Definition modify (r : nat) (f : zm_event -> zm_event) (s : store) : store :=
  s <| heap := alter f r (heap s) |>.

(** [v == n] for a number [n]. *)
Definition loose_eq (v : jsval) (n : num) : bool :=
  match v with VUndef | VNull => false | _ => (js_Number v =? n)%num end.

(** [a <= b] on strings: their characters' codes, in order. *)
Fixpoint string_le (a b : string) : bool :=
  match a, b with
  | EmptyString, _ => true
  | String _ _, EmptyString => false
  | String c a, String d b => if code c =? code d then string_le a b else code c <? code d
  end.

(** [a >= b]: strings are compared as strings. *)
Definition js_ge (a b : jsval) : bool :=
  match a, b with
  | VStr a, VStr b => string_le b a
  | _, _ => (js_Number b <=? js_Number a)%num
  end.

(** ** Events by time *)

Section Window.
Variable maxTimeSecs : num.

Definition eventEndTimeSecs (e : zm_event) : num :=
  if js_truthy (EndTimeSecs e) then js_Number (EndTimeSecs e) else maxTimeSecs.

(** [zm_event.StartTimeSecs <= time && eventEndTimeSecs(zm_event) >= time] *)
Definition covers (time : num) (e : zm_event) : bool :=
  (js_Number (StartTimeSecs e) <=? time)%num && (time <=? eventEndTimeSecs e)%num.

(** The loop of findEventByTime: the position found, or none. *)
Fixpoint find_event (fuel : nat) (arr : list zm_event) (time : num) (start end_ : Z) : option nat :=
  match fuel with
  | O => None
  | S fuel =>
      if start <=? end_ then
        match arr !! Z.to_nat start, arr !! Z.to_nat end_ with
        | Some first, Some last =>
            if (js_Number (StartTimeSecs first) <=? time)%num && (time <=? eventEndTimeSecs last)%num then
              let middle := (start + end_) / 2 in
              match arr !! Z.to_nat middle with
              | Some e =>
                  if covers time e then Some (Z.to_nat middle)
                  else if (js_Number (StartTimeSecs e) <? time)%num then find_event fuel arr time (middle + 1) end_
                  else if (time <? eventEndTimeSecs e)%num then find_event fuel arr time start (middle - 1)
                  else None
              | None => None
              end
            else None
        | _, _ => None
        end
      else None
  end.

Definition find_event_index (arr : list zm_event) (time : num) : option nat :=
  find_event (S (List.length arr)) arr time 0 (Z.of_nat (List.length arr) - 1).

Definition findEventByTime (arr : list zm_event) (time : num) : option zm_event :=
  match find_event_index arr time with Some i => arr !! i | None => None end.

(** ** Frames by time *)

(** [frame.TimeStampSecs == time || frame.TimeStampSecs < time && (..)] *)
Definition shows (time : num) (f : frame) : bool :=
  loose_eq (TimeStampSecs f) time ||
  ((js_Number (TimeStampSecs f) <? time)%num &&
   ((time <? js_Number (NextTimeStampSecs f))%num || negb (js_truthy (NextTimeStampSecs f)))).

(** The loop of findFrameByTime: the position found, or none. *)
Fixpoint find_frame (fuel : nat) (arr : frames) (time : num) (start end_ : Z) : option nat :=
  match fuel with
  | O => None
  | S fuel =>
      if start <=? end_ then
        match arr !! Z.to_nat start, arr !! Z.to_nat end_ with
        | Some (_, first), Some (_, last) =>
            if (time <? js_Number (TimeStampSecs first))%num || (js_Number (NextTimeStampSecs last) <? time)%num then None
            else
              let middle := (start + end_) / 2 in
              match arr !! Z.to_nat middle with
              | Some (_, f) =>
                  if shows time f then Some (Z.to_nat middle)
                  else if (js_Number (TimeStampSecs f) <? time)%num then find_frame fuel arr time (middle + 1) end_
                  else if (time <? js_Number (TimeStampSecs f))%num then find_frame fuel arr time start (middle - 1)
                  else None
              | None => None
              end
        | _, _ => None
        end
      else None
  end.

(** [arr[k]] *)
Fixpoint frame_at (k : Z) (arr : frames) : option frame :=
  match arr with
  | [] => None
  | (i, f) :: arr => if i =? k then Some f else frame_at k arr
  end.

(** [arr[k] = f]: the keys stay in order. *)
Fixpoint set_frame (k : Z) (f : frame) (arr : frames) : frames :=
  match arr with
  | [] => [(k, f)]
  | (i, g) :: arr => if i =? k then (k, f) :: arr else if k <? i then (k, f) :: (i, g) :: arr else (i, g) :: set_frame k f arr
  end.

(** [parseInt(n)]: through the number's text. *)
Definition trunc (n : num) : num := parseInt (num_to_string n).

(** The id between a frame and the one [next] after it. *)
Definition interpolate (f next : frame) (time : num) : num :=
  let duration := (js_Number (NextTimeStampSecs f) - js_Number (TimeStampSecs f))%num in
  (trunc (FrameId f) + trunc ((FrameId next - FrameId f) * (time - js_Number (TimeStampSecs f)) / duration))%num.

(** What findFrameByTime does to the frame it found; [look] is [events[id]]'s
    FramesById: none for no such event, [Some None] for no frames. *)
Definition adjust (look : Z -> option (option frames)) (time : num) (f : frame) : frame :=
  match look (EventId f), NextFrameId f with
  | Some (Some fs), Some k =>
      if k =? 0 then f
      else match frame_at k fs with
           | Some next =>
               if negb (loose_eq (TimeStampSecs f) time) && (String.eqb (Type_ f) "Bulk" || String.eqb (Type_ next) "Bulk")
               then f <| FrameId := interpolate f next time |> else f
           | None => f
           end
  | _, _ => f
  end.

(** The frame found, changed, and the array that now holds it. *)
Definition findFrameByTime (look : Z -> option (option frames)) (arr : frames) (time : num) : frames * option frame :=
  match find_frame (S (List.length arr)) arr time 0 (Z.of_nat (List.length arr) - 1) with
  | Some i =>
      match arr !! i with
      | Some (k, f) => let f := adjust look time f in (<[i := (k, f)]> arr, Some f)
      | None => (arr, None)
      end
  | None => (arr, None)
  end.
End Window.

(** ** Loading frames *)

(** The event objects the page knows by id. *)
Definition event_of (s : store) (id : Z) : option zm_event :=
  match events s !! id with Some r => heap s !! r | None => None end.

(** An event whose frames are all there already is left out; the others are
    marked as being loaded. *)
Definition wanted (e : zm_event) : bool :=
  negb (bool_decide (is_Some (FramesById e)) && js_truthy (EndDateTime e)).

Definition mark_loading (e : zm_event) : zm_event :=
  match FramesById e with Some _ => e | None => e <| FramesById := Some [] |> end.

(** The filter over zm_events, a list of ids and objects in the order of the ids. *)
Fixpoint filter_wanted (zm_events : list (Z * nat)) (s : store) : list Z * store :=
  match zm_events with
  | [] => ([], s)
  | (id, r) :: rest =>
      match heap s !! r with
      | Some e =>
          if wanted e then
            let '(ids, s) := filter_wanted rest (modify r mark_loading s) in (id :: ids, s)
          else filter_wanted rest s
      | None => filter_wanted rest s
      end
  end.

Definition query_part (id : Z) : string := "/EventId:" ++ Z_to_string id.

(** The loop over the ids: a query is sent when it is long enough or the last. *)
Fixpoint batches (query : string) (batch : list Z) (ids : list Z) : list effect :=
  match ids with
  | [] => []
  | id :: rest =>
      let query := query ++ query_part id in
      let batch := (batch ++ [id])%list in
      if bool_decide (rest = []) || (Nat.ltb 1000 (String.length query))
      then FetchFrames query batch :: batches "" [] rest
      else batches query batch rest
  end.

Definition loadFrames (zm_events : list (Z * nat)) (s : store) : store :=
  let '(ids, s) := filter_wanted zm_events s in
  s <| out := (out s ++ batches "" [] ids)%list |>.

(** A frame of the reply. *)
Record frame_data := FrameData { d_FrameId : Z; d_EventId : Z; d_Type : string; d_TimeStampSecs : jsval }.

Definition new_frame (d : frame_data) : frame :=
  Frame (num_of_Z (d_FrameId d)) (d_EventId d) (d_Type d) (d_TimeStampSecs d) VUndef None None.

(** What [last_frame] gets to know of the frame after it. *)
Definition link (d : frame_data) (f : frame) : frame :=
  let f := f <| NextFrameId := Some (d_FrameId d) |> in
  if js_ge (d_TimeStampSecs d) (TimeStampSecs f) then f <| NextTimeStampSecs := d_TimeStampSecs d |> else f.

Definition update_frame (k : Z) (g : frame -> frame) (e : zm_event) : zm_event :=
  match FramesById e with
  | Some fs => match frame_at k fs with Some f => e <| FramesById := Some (set_frame k (g f) fs) |> | None => e end
  | None => e
  end.

Definition note_newest (ts : jsval) (e : zm_event) : zm_event :=
  let frameSecs := js_parseFloat ts in
  if negb (js_truthy (NewestFrameTimeSecs e)) || (js_Number (NewestFrameTimeSecs e) <? frameSecs)%num
  then e <| NewestFrameTimeSecs := VNum frameSecs |> else e.

(** One turn of the loop over a reply's frames; the frame before is known by its
    event and its key in that event's array. *)
Definition receive_frame (d : frame_data) (last : option (nat * frame_data)) (s : store)
    : option (option (nat * frame_data) * store) :=
  match events s !! d_EventId d with
  | None => Some (last, s)
  | Some r =>
      let last := match last with
                  | Some (_, l) => if d_EventId d =? d_EventId l then last else None
                  | None => None
                  end in
      let s := match last with
               | Some (rl, l) => modify rl (update_frame (d_FrameId l) (link d)) s
               | None => s
               end in
      let f := new_frame d <| PrevFrameId := match last with Some (_, l) => Some (d_FrameId l) | None => None end |> in
      match heap s !! r with
      | Some e =>
          match FramesById e with
          | Some fs =>
              let s := modify r (fun e => note_newest (d_TimeStampSecs d) (e <| FramesById := Some (set_frame (d_FrameId d) f fs) |>)) s in
              Some (Some (r, d), s)
          | None => None
          end
      | None => None
      end
  end.

Fixpoint receive_loop (ds : list frame_data) (last : option (nat * frame_data)) (s : store) : option store :=
  match ds with
  | [] => Some s
  | d :: ds => match receive_frame d last s with Some (last, s) => receive_loop ds last s | None => None end
  end.

(** The success callback. *)
Definition receive_frames (ds : list frame_data) (s : store) : option store := receive_loop ds None s.

(** ** Receiving events *)

(** An event of the reply; Id, MonitorId and Frames as parseInt reads them. *)
Record event_data := EventData {
  v_Id : Z; v_MonitorId : Z; v_Frames : num;
  v_StartTimeSecs : jsval; v_EndTimeSecs : jsval; v_EndDateTime : jsval;
}.

Definition new_event (d : event_data) : zm_event :=
  Event (v_Id d) (v_MonitorId d) (v_StartTimeSecs d)
    (if js_truthy (v_EndDateTime d) then v_EndTimeSecs d else VNull) (v_EndDateTime d) None VUndef VUndef.

(** One turn of the loop: the page's maps, and the list for loadFrames. *)
Definition add_event (d : event_data) (s : store) : store * (Z * nat) :=
  let r := List.length (heap s) in
  let of_monitor := default [] (events_for_monitor s !! v_MonitorId d) in
  (s <| heap := (heap s ++ [new_event d])%list |>
     <| events := <[v_Id d := r]> (events s) |>
     <| events_for_monitor := <[v_MonitorId d := (of_monitor ++ [r])%list]> (events_for_monitor s) |>,
   (v_Id d, r)).

(** [event_list[ev.Id] = ev], in the order of the ids. *)
Fixpoint set_event (p : Z * nat) (l : list (Z * nat)) : list (Z * nat) :=
  match l with
  | [] => [p]
  | (i, r) :: l => if i =? p.1 then p :: l else if p.1 <? i then p :: (i, r) :: l else (i, r) :: set_event p l
  end.

Fixpoint add_events (ds : list event_data) (event_list : list (Z * nat)) (s : store) : list (Z * nat) * store :=
  match ds with
  | [] => (event_list, s)
  | d :: ds =>
      if ntruthy (v_Frames d) then
        let '(s, p) := add_event d s in add_events ds (set_event p event_list) s
      else add_events ds event_list s
  end.

(** A reply: an error with its message, no events member, or events. *)
Inductive events_reply := EventsError (message : jsval) | NoEvents | Events (ds : list event_data).

Definition receive_events (r : events_reply) (s : store) : store :=
  match r with
  | EventsError m => emit (Alert m) s
  | NoEvents => s
  | Events [] => s
  | Events ds => let '(l, s) := add_events ds [] s in loadFrames l s
  end.

(** What changeFilters does to the events: the objects are let go of. *)
Definition clear_events (s : store) : store :=
  s <| events := ∅ |> <| events_for_monitor := (fun _ => []) <$> events_for_monitor s |>.

(** ** The frame at a moment *)

Definition OPEN_EVENT_FRAME_REFRESH_MS : num := num_of_Z 5000.

Definition refreshOpenEventFrames (now : num) (r : nat) (s : store) : store :=
  match heap s !! r with
  | Some e =>
      if js_truthy (FramesRefreshedAt e) && (now - js_Number (FramesRefreshedAt e) <? OPEN_EVENT_FRAME_REFRESH_MS)%num then s
      else loadFrames [(Id e, r)] (modify r (fun e => e <| FramesRefreshedAt := VNum now |>) s)
  | None => s
  end.

(** The linear search behind a failed binary search; it stops at the first event
    that is no longer known. *)
Fixpoint linear_event (max : num) (s : store) (refs : list nat) (time : num) : option nat :=
  match refs with
  | [] => None
  | r :: refs =>
      match heap s !! r with
      | Some e0 =>
          match events s !! Id e0 with
          | Some r' =>
              match heap s !! r' with
              | Some e => if covers max time e then Some r' else linear_event max s refs time
              | None => None
              end
          | None => None
          end
      | None => None
      end
  end.

(** The event objects of a monitor, in order. *)
Definition events_of (s : store) (refs : list nat) : list zm_event := omap (fun r => heap s !! r) refs.

(** The event object of a monitor at a moment. *)
Definition event_ref (max : num) (s : store) (refs : list nat) (time : num) : option nat :=
  match find_event_index max (events_of s refs) time with
  | Some i => refs !! i
  | None => linear_event max s refs time
  end.

Definition frames_of (s : store) (id : Z) : option (option frames) := FramesById <$> event_of s id.

(** The linear search over the frames. *)
Definition linear_frame (arr : frames) (time : num) : option frame :=
  match List.find (fun '(_, f) => shows time f) arr with Some (_, f) => Some f | None => None end.

(** [now] is Date.now(); the frame, and the store after. *)
Definition getFrame (max now : num) (monId : Z) (time : num) (s : store) : store * option frame :=
  match events_for_monitor s !! monId with
  | None | Some [] => (s, None)
  | Some refs =>
      match event_ref max s refs time with
      | None => (emit (WriteText monId "No event") s, None)
      | Some r =>
          match heap s !! r with
          | None => (s, None)
          | Some e =>
              match FramesById e with
              | None => (loadFrames [(Id e, r)] s, None)
              | Some [] => (s, None)
              | Some _ =>
                  let s :=
                    if negb (js_truthy (EndDateTime e)) && js_truthy (NewestFrameTimeSecs e) &&
                       (js_Number (NewestFrameTimeSecs e) <? time)%num
                    then refreshOpenEventFrames now r s else s in
                  let arr := match heap s !! r with Some e => default [] (FramesById e) | None => [] end in
                  let '(arr, f) := findFrameByTime (frames_of s) arr time in
                  let s := modify r (fun e => e <| FramesById := Some arr |>) s in
                  match f with Some f => (s, Some f) | None => (s, linear_frame arr time) end
              end
          end
      end
  end.

(** ** The search for an event *)

Definition starts (e : zm_event) : num := js_Number (StartTimeSecs e).

(** A timeline: each event has a start before its end, and neither the starts
    nor the ends go back.  Events may overlap, and the last may be open. *)
Record timeline (max : num) (arr : list zm_event) : Prop := {
  tl_events : forall e, e ∈ arr -> nle (starts e) (eventEndTimeSecs max e);
  tl_starts : forall i j a b, (i <= j)%nat -> arr !! i = Some a -> arr !! j = Some b -> nle (starts a) (starts b);
  tl_ends : forall i j a b, (i <= j)%nat -> arr !! i = Some a -> arr !! j = Some b ->
    nle (eventEndTimeSecs max a) (eventEndTimeSecs max b);
}.

Lemma covers_spec max time e : covers max time e = true <-> nle (starts e) time /\ nle time (eventEndTimeSecs max e).
Proof. unfold covers. rewrite andb_true_iff. reflexivity. Qed.

Section Events.
Variables (max : num) (arr : list zm_event) (time : num).
Hypothesis T : timeline max arr.
Hypothesis Nt : time <> NaN.

Lemma event_numbers i e : arr !! i = Some e -> starts e <> NaN /\ eventEndTimeSecs max e <> NaN.
Proof. intros H. apply nle_not_NaN, (tl_events _ _ T), (list_elem_of_lookup_2 _ i), H. Qed.

(** An event that ends before the moment rules out those up to it. *)
Lemma ended i e j d : arr !! i = Some e -> nlt (eventEndTimeSecs max e) time -> (j <= i)%nat -> arr !! j = Some d ->
  covers max time d = false.
Proof.
  intros Hi He Hj Hd. apply not_true_iff_false. rewrite covers_spec. intros [_ C].
  pose proof (tl_ends _ _ T j i d e Hj Hd Hi) as L.
  apply (nlt_not_le _ _ He). exact (nle_trans _ _ _ C L).
Qed.

(** An event that starts after the moment rules out those from it. *)
Lemma begun_later i e j d : arr !! i = Some e -> nlt time (starts e) -> (i <= j)%nat -> arr !! j = Some d ->
  covers max time d = false.
Proof.
  intros Hi He Hj Hd. apply not_true_iff_false. rewrite covers_spec. intros [C _].
  pose proof (tl_starts _ _ T i j e d Hj Hi Hd) as L.
  apply (nlt_not_le _ _ He). exact (nle_trans _ _ _ L C).
Qed.

(** Nothing outside of the positions still searched covers the moment. *)
Definition within (lo hi : Z) : Prop :=
  forall i e, arr !! i = Some e -> covers max time e = true -> lo <= Z.of_nat i <= hi.

Lemma find_event_spec fuel lo hi :
  0 <= lo -> hi < Z.of_nat (List.length arr) -> hi - lo + 1 < Z.of_nat fuel -> within lo hi ->
  match find_event max fuel arr time lo hi with
  | Some i => exists e, arr !! i = Some e /\ covers max time e = true
  | None => forall i e, arr !! i = Some e -> covers max time e = false
  end.
Proof.
  assert (None_ok : (forall i e, arr !! i = Some e -> covers max time e = true -> False) ->
    forall i e, arr !! i = Some e -> covers max time e = false).
  { intros H i e Hi. apply not_true_iff_false. intros C. exact (H i e Hi C). }
  revert lo hi. induction fuel as [|fuel IH]; intros lo hi Hlo Hhi Hf W.
  { cbn. apply None_ok. intros i e Hi C. specialize (W i e Hi C). lia. }
  cbn [find_event]. destruct (Z.leb_spec lo hi) as [Hle|Hgt];
    [|apply None_ok; intros i e Hi C; specialize (W i e Hi C); lia].
  destruct (lookup_lt_is_Some_2 arr (Z.to_nat lo)) as [first Ef]; [lia|].
  destruct (lookup_lt_is_Some_2 arr (Z.to_nat hi)) as [last El]; [lia|]. rewrite Ef, El.
  destruct (event_numbers _ _ Ef) as [Nf _]. destruct (event_numbers _ _ El) as [_ Nl].
  destruct (js_Number (StartTimeSecs first) <=? time)%num eqn:B1; cbn [andb].
  2:{ apply None_ok. intros i e Hi C. pose proof (W i e Hi C).
      assert (L : nlt time (starts first)) by (apply (nleb_false (starts first) time); assumption).
      rewrite (begun_later _ _ i e Ef L) in C; [discriminate|lia|exact Hi]. }
  destruct (time <=? eventEndTimeSecs max last)%num eqn:B2.
  2:{ apply None_ok. intros i e Hi C. pose proof (W i e Hi C).
      assert (L : nlt (eventEndTimeSecs max last) time) by (apply nleb_false; assumption).
      rewrite (ended _ _ i e El L) in C; [discriminate|lia|exact Hi]. }
  set (mid := (lo + hi) / 2). assert (Hm : lo <= mid <= hi) by (subst mid; split; [apply Z.div_le_lower_bound|apply Z.div_le_upper_bound]; lia).
  destruct (lookup_lt_is_Some_2 arr (Z.to_nat mid)) as [e Em]; [lia|]. rewrite Em.
  destruct (event_numbers _ _ Em) as [Ns Ne].
  destruct (covers max time e) eqn:C; [eauto|].
  change (js_Number (StartTimeSecs e)) with (starts e).
  destruct (starts e <? time)%num eqn:B3.
  - apply IH; [lia..|]. intros i d Hi Cd. pose proof (W i d Hi Cd).
    assert (L : nlt (eventEndTimeSecs max e) time).
    { apply nleb_false; [exact Nt|exact Ne|]. apply not_true_iff_false. intros Le.
      apply not_true_iff_false in C. apply C, covers_spec. split; [apply nlt_nle, B3|exact Le]. }
    assert (Z.of_nat i <= mid -> False); [|lia].
    intros Le. rewrite (ended _ _ i d Em L) in Cd; [discriminate|lia|exact Hi].
  - apply nltb_false in B3; [|assumption..].
    assert (L : nlt time (starts e)).
    { apply nleb_false; [exact Ns|exact Nt|]. apply not_true_iff_false. intros Le.
      apply not_true_iff_false in C. apply C, covers_spec. split; [exact Le|].
      apply (nle_trans _ _ _ B3), (tl_events _ _ T), (list_elem_of_lookup_2 _ _ _ Em). }
    assert (L2 : nlt time (eventEndTimeSecs max e)).
    { apply (nlt_le_trans _ _ _ L), (tl_events _ _ T), (list_elem_of_lookup_2 _ _ _ Em). }
    unfold nlt in L2. rewrite L2. apply IH; [lia..|]. intros i d Hi Cd. pose proof (W i d Hi Cd).
    assert (mid <= Z.of_nat i -> False); [|lia].
    intros Le. rewrite (begun_later _ _ i d Em L) in Cd; [discriminate|lia|exact Hi].
Qed.

Lemma find_event_index_spec :
  match find_event_index max arr time with
  | Some i => exists e, arr !! i = Some e /\ covers max time e = true
  | None => forall i e, arr !! i = Some e -> covers max time e = false
  end.
Proof.
  apply find_event_spec; try lia. intros i e Hi _. apply lookup_lt_Some in Hi. lia.
Qed.
End Events.

(** C20: on a timeline the binary search for an event agrees with looking at all
    of them: it returns an event that covers the moment, and none exactly when
    no event does, overlapping and still recording ones included. *)
Theorem findEventByTime_spec (max : num) (arr : list zm_event) (time : num) :
  timeline max arr -> time <> NaN ->
  match findEventByTime max arr time with
  | Some e => e ∈ arr /\ covers max time e = true
  | None => Forall (fun e => covers max time e = false) arr
  end.
Proof.
  intros T Nt. pose proof (find_event_index_spec max arr time T Nt) as S. unfold findEventByTime.
  destruct (find_event_index max arr time) as [i|].
  - destruct S as (e & Hi & C). rewrite Hi. split; [apply (list_elem_of_lookup_2 _ i), Hi|exact C].
  - apply Forall_lookup. exact S.
Qed.

Definition demo_event (id : Z) (a b : Z) : zm_event :=
  Event id 1 (VNum (num_of_Z a)) (if b =? 0 then VNull else VNum (num_of_Z b)) VNull None VUndef VUndef.
Definition demo_events : list zm_event := [demo_event 1 10 20; demo_event 2 15 40; demo_event 3 60 0].

Lemma timeline_demo : timeline (Fin 100) demo_events.
Proof.
  assert (L : forall (i : nat) e, demo_events !! i = Some e ->
    i = 0%nat /\ e = demo_event 1 10 20 \/ i = 1%nat /\ e = demo_event 2 15 40 \/ i = 2%nat /\ e = demo_event 3 60 0).
  { intros i e H. destruct i as [|[|[|i]]]; cbn in H; [injection H as <-; tauto..|]. discriminate. }
  split.
  - intros e He. apply list_elem_of_lookup in He as [i H].
    apply L in H as [[_ ->]|[[_ ->]|[_ ->]]]; vm_compute; reflexivity.
  - intros i j a b Hij Ha Hb. apply L in Ha, Hb.
    destruct Ha as [[-> ->]|[[-> ->]|[-> ->]]], Hb as [[-> ->]|[[-> ->]|[-> ->]]];
      (exfalso; lia) || (vm_compute; reflexivity).
  - intros i j a b Hij Ha Hb. apply L in Ha, Hb.
    destruct Ha as [[-> ->]|[[-> ->]|[-> ->]]], Hb as [[-> ->]|[[-> ->]|[-> ->]]];
      (exfalso; lia) || (vm_compute; reflexivity).
Qed.

Lemma findEventByTime_spec_witness :
  match findEventByTime (Fin 100) demo_events (Fin 70) with
  | Some e => e ∈ demo_events /\ covers (Fin 100) (Fin 70) e = true
  | None => Forall (fun e => covers (Fin 100) (Fin 70) e = false) demo_events
  end.
Proof. apply (findEventByTime_spec (Fin 100) demo_events (Fin 70)); [apply timeline_demo|discriminate]. Defined.

(** ** The frames of a reply *)

Definition stamp (d : frame_data) : num := js_Number (d_TimeStampSecs d).

(** A reply the way the server lists the frames of an event: ids and times go up. *)
Record in_order (ds : list frame_data) : Prop := {
  io_stamp : forall d, d ∈ ds -> js_truthy (d_TimeStampSecs d) = true /\ stamp d <> NaN;
  io_time : forall i a b, ds !! i = Some a -> ds !! S i = Some b ->
    js_ge (d_TimeStampSecs b) (d_TimeStampSecs a) = true /\ nlt (stamp a) (stamp b);
  io_id : forall i a b, ds !! i = Some a -> ds !! S i = Some b -> d_FrameId a < d_FrameId b;
}.

(** What the loop makes of a reply: each frame knows the one after it. *)
Fixpoint chain (f : frame) (k : Z) (ds : list frame_data) : frames :=
  match ds with
  | [] => [(k, f)]
  | d :: ds => (k, link d f) :: chain (new_frame d <| PrevFrameId := Some k |>) (d_FrameId d) ds
  end.

Definition chained (ds : list frame_data) : frames :=
  match ds with [] => [] | d :: ds => chain (new_frame d <| PrevFrameId := None |>) (d_FrameId d) ds end.

Definition below (k : Z) (fs : frames) : Prop := Forall (fun p : Z * frame => p.1 < k) fs.

Lemma set_frame_new k f fs : below k fs -> set_frame k f fs = (fs ++ [(k, f)])%list.
Proof.
  induction 1 as [|[i g] fs Hi _ IH]; [reflexivity|]. cbn in *.
  destruct (Z.eqb_spec i k); [lia|]. destruct (Z.ltb_spec k i); [lia|]. rewrite IH. reflexivity.
Qed.

Lemma set_frame_last k f g fs : below k fs -> set_frame k f (fs ++ [(k, g)])%list = (fs ++ [(k, f)])%list.
Proof.
  induction 1 as [|[i h] fs Hi _ IH]; cbn in *.
  - rewrite Z.eqb_refl. reflexivity.
  - destruct (Z.eqb_spec i k); [lia|]. destruct (Z.ltb_spec k i); [lia|]. rewrite IH. reflexivity.
Qed.

Lemma frame_at_last k g fs : below k fs -> frame_at k (fs ++ [(k, g)])%list = Some g.
Proof.
  induction 1 as [|[i h] fs Hi _ IH]; cbn in *; [rewrite Z.eqb_refl; reflexivity|].
  destruct (Z.eqb_spec i k); [lia|]. exact IH.
Qed.

Lemma below_snoc k k' f fs : below k fs -> k < k' -> below k' (fs ++ [(k, f)])%list.
Proof.
  intros H L. apply Forall_app. split; [|repeat constructor; exact L].
  apply (Forall_impl _ _ _ H). intros [i g]; cbn. lia.
Qed.

(** The frames of the object behind a reference. *)
Definition frames_at (s : store) (r : nat) : option (option frames) := FramesById <$> heap s !! r.

Lemma frames_modify s r f e fs : heap s !! r = Some e -> FramesById (f e) = Some fs ->
  frames_at (modify r f s) r = Some (Some fs).
Proof.
  intros He Hf. unfold frames_at, modify. change (heap (s <| heap := ?h |>)) with h.
  rewrite list_lookup_alter, decide_True by reflexivity. rewrite He. cbn. rewrite Hf. reflexivity.
Qed.

Lemma frames_at_some s r fs : frames_at s r = Some (Some fs) -> exists e, heap s !! r = Some e /\ FramesById e = Some fs.
Proof. unfold frames_at. destruct (heap s !! r) as [e|]; cbn; [|discriminate]. intros [= H]. eauto. Qed.

Lemma modify_frames s r f fs fs' : frames_at s r = Some (Some fs) ->
  (forall e, FramesById e = Some fs -> FramesById (f e) = Some fs') ->
  frames_at (modify r f s) r = Some (Some fs').
Proof. intros H Hf. apply frames_at_some in H as (e & He & Hfs). apply (frames_modify _ _ _ e); auto. Qed.

Lemma note_newest_frames ts e : FramesById (note_newest ts e) = FramesById e.
Proof. unfold note_newest. destruct (_ || _); reflexivity. Qed.

(** One frame after another of the same event. *)
Lemma receive_next s r d l pre f :
  events s !! d_EventId d = Some r -> d_EventId d = d_EventId l -> d_FrameId l < d_FrameId d ->
  frames_at s r = Some (Some (pre ++ [(d_FrameId l, f)])%list) -> below (d_FrameId l) pre ->
  exists s', receive_frame d (Some (r, l)) s = Some (Some (r, d), s') /\ events s' = events s /\
    frames_at s' r = Some (Some ((pre ++ [(d_FrameId l, link d f)]) ++
      [(d_FrameId d, new_frame d <| PrevFrameId := Some (d_FrameId l) |>)])%list).
Proof.
  intros He Hid Hlt Hf Hb. unfold receive_frame. rewrite He, Hid, Z.eqb_refl.
  set (s1 := modify r _ s).
  assert (H1 : frames_at s1 r = Some (Some (pre ++ [(d_FrameId l, link d f)])%list)).
  { apply (modify_frames s r _ (pre ++ [(d_FrameId l, f)])%list); [exact Hf|]. intros e E. unfold update_frame. rewrite E, frame_at_last by exact Hb.
    cbn [FramesById]. change (FramesById (e <| FramesById := ?x |>)) with x. rewrite set_frame_last by exact Hb. reflexivity. }
  destruct (frames_at_some _ _ _ H1) as (e & E & F). rewrite E, F. eexists. split; [reflexivity|]. split; [reflexivity|].
  apply (modify_frames s1 r _ _ _ H1). intros e' _. rewrite note_newest_frames.
  change (FramesById (e' <| FramesById := ?x |>)) with x. f_equal. apply set_frame_new, below_snoc; assumption.
Qed.

Lemma receive_loop_chain ds : forall s r l pre f,
  (forall d, d ∈ ds -> d_EventId d = d_EventId l) -> events s !! d_EventId l = Some r ->
  (forall i a b, (l :: ds) !! i = Some a -> (l :: ds) !! S i = Some b -> d_FrameId a < d_FrameId b) ->
  frames_at s r = Some (Some (pre ++ [(d_FrameId l, f)])%list) -> below (d_FrameId l) pre ->
  exists s', receive_loop ds (Some (r, l)) s = Some s' /\
    frames_at s' r = Some (Some (pre ++ chain f (d_FrameId l) ds)%list).
Proof.
  induction ds as [|d ds IH]; intros s r l pre f Hid He Hlt Hf Hb; [eauto|]. cbn [receive_loop chain].
  assert (E : d_EventId d = d_EventId l) by (apply Hid, list_elem_of_here).
  assert (L : d_FrameId l < d_FrameId d) by (apply (Hlt 0%nat); reflexivity).
  destruct (receive_next s r d l pre f) as (s1 & R & Ev & F1); [rewrite E; exact He|exact E|exact L|exact Hf|exact Hb|].
  rewrite R. destruct (IH s1 r d (pre ++ [(d_FrameId l, link d f)])%list (new_frame d <| PrevFrameId := Some (d_FrameId l) |>))
    as (s2 & R2 & F2).
  - intros d' Hd. rewrite E. apply Hid, list_elem_of_further, Hd.
  - rewrite Ev, E. exact He.
  - intros i a b Ha Hb'. apply (Hlt (S i)); assumption.
  - exact F1.
  - apply below_snoc; assumption.
  - exists s2. split; [exact R2|]. rewrite F2, <- app_assoc. reflexivity.
Qed.

(** A reply for an event whose frames are being loaded. *)
Lemma receive_frames_chained ds s r id :
  in_order ds -> Forall (fun d => d_EventId d = id) ds -> events s !! id = Some r -> frames_at s r = Some (Some []) ->
  exists s', receive_frames ds s = Some s' /\ frames_at s' r = Some (Some (chained ds)).
Proof.
  intros O Hid He Hf. unfold receive_frames. destruct ds as [|d ds]; [eauto|]. inversion_clear Hid as [|? ? Hd Hds].
  cbn [receive_loop]. unfold receive_frame. rewrite Hd, He.
  destruct (frames_at_some _ _ _ Hf) as (e & E & F). rewrite E, F.
  set (s1 := modify r _ s).
  destruct (receive_loop_chain ds s1 r d [] (new_frame d <| PrevFrameId := None |>)) as (s2 & R & F2).
  - intros d' Hd'. rewrite Hd. rewrite Forall_forall in Hds. apply Hds, Hd'.
  - rewrite Hd. exact He.
  - apply (io_id _ O).
  - apply (modify_frames s r _ [] _ Hf). intros e' _. rewrite note_newest_frames. reflexivity.
  - constructor.
  - exists s2. split; [exact R|exact F2].
Qed.

(** ** The search for a frame *)

(** What the frame at a position of a linked reply holds. *)
Record linked (ds : list frame_data) (i : nat) (f : frame) (d : frame_data) : Prop := {
  ln_time : TimeStampSecs f = d_TimeStampSecs d;
  ln_next : NextTimeStampSecs f = match ds !! S i with Some d' => d_TimeStampSecs d' | None => VUndef end;
  ln_next_id : NextFrameId f = d_FrameId <$> ds !! S i;
  ln_id : FrameId f = num_of_Z (d_FrameId d);
  ln_event : EventId f = d_EventId d;
}.

Lemma in_order_tail d ds : in_order (d :: ds) -> in_order ds.
Proof.
  intros O. split.
  - intros x Hx. apply (io_stamp _ O), list_elem_of_further, Hx.
  - intros i a b Ha Hb. apply (io_time _ O (S i)); assumption.
  - intros i a b Ha Hb. apply (io_id _ O (S i)); assumption.
Qed.

Lemma chain_length ds : forall f k, List.length (chain f k ds) = S (List.length ds).
Proof. induction ds as [|d ds IH]; intros f k; cbn; [reflexivity|]. rewrite IH. reflexivity. Qed.

Lemma chain_linked ds : forall d f, in_order (d :: ds) ->
  TimeStampSecs f = d_TimeStampSecs d -> NextTimeStampSecs f = VUndef -> NextFrameId f = None ->
  FrameId f = num_of_Z (d_FrameId d) -> EventId f = d_EventId d ->
  forall i k g, chain f (d_FrameId d) ds !! i = Some (k, g) ->
  exists x, (d :: ds) !! i = Some x /\ k = d_FrameId x /\ linked (d :: ds) i g x.
Proof.
  induction ds as [|d' ds IH]; intros d f O H1 H2 H3 H4 H5 i k g Hi; cbn [chain] in Hi.
  - destruct i as [|i]; [|discriminate]. injection Hi as <- <-. exists d. repeat split; assumption.
  - destruct i as [|i].
    + injection Hi as <- <-. exists d. split; [reflexivity|]. split; [reflexivity|].
      assert (G : js_ge (d_TimeStampSecs d') (TimeStampSecs (f <| NextFrameId := Some (d_FrameId d') |>)) = true).
      { change (TimeStampSecs (f <| NextFrameId := ?x |>)) with (TimeStampSecs f). rewrite H1.
        apply (io_time _ O 0%nat d d'); reflexivity. }
      unfold link. cbv zeta. rewrite G. split; try assumption; reflexivity.
    + apply in_order_tail in O.
      change ((d :: d' :: ds) !! S i) with ((d' :: ds) !! i).
      destruct (IH d' (new_frame d' <| PrevFrameId := Some (d_FrameId d) |>) O) with (i := i) (k := k) (g := g)
        as (x & E & K & L); [reflexivity..|exact Hi|]. exists x. split; [exact E|]. split; [exact K|]. destruct L as [L1 L2 L3 L4 L5].
      split; try assumption.
Qed.

Lemma chained_length ds : List.length (chained ds) = List.length ds.
Proof. destruct ds as [|d ds]; [reflexivity|]. apply chain_length. Qed.

Lemma chained_linked ds i k f : in_order ds -> chained ds !! i = Some (k, f) ->
  exists d, ds !! i = Some d /\ k = d_FrameId d /\ linked ds i f d.
Proof.
  destruct ds as [|d ds]; [discriminate|]. intros O. cbn [chained].
  apply (chain_linked ds d (new_frame d <| PrevFrameId := None |>) O); reflexivity.
Qed.

Section Frames.
Variables (ds : list frame_data) (time : num).
Hypothesis O : in_order ds.
Hypothesis Nt : time <> NaN.

Lemma stamp_number i d : ds !! i = Some d -> stamp d <> NaN.
Proof. intros H. apply (io_stamp _ O), (list_elem_of_lookup_2 _ i), H. Qed.

(** Later frames have later times. *)
Lemma stamps_up i j a b : ds !! i = Some a -> ds !! j = Some b -> (i <= j)%nat -> nle (stamp a) (stamp b).
Proof.
  intros Ha Hb L. revert b Hb. induction L as [|j L IH]; intros b Hb.
  - replace b with a by congruence. apply nle_refl, (stamp_number i), Ha.
  - destruct (lookup_lt_is_Some_2 ds j) as [c Hc]; [apply lookup_lt_Some in Hb; lia|].
    apply (nle_trans _ (stamp c)); [apply IH, Hc|]. apply nlt_nle, (io_time _ O j); assumption.
Qed.

(** The frame shown at a moment: the last that is not after it. *)
Definition shown (i : nat) : Prop :=
  exists d, ds !! i = Some d /\ nle (stamp d) time /\ forall d', ds !! S i = Some d' -> nlt time (stamp d').

Lemma shows_shown i k f : chained ds !! i = Some (k, f) -> shows time f = true <-> shown i.
Proof.
  intros Hi. destruct (chained_linked ds i k f O Hi) as (d & Hd & _ & L).
  destruct (io_stamp _ O d) as [Td _]; [apply (list_elem_of_lookup_2 _ i), Hd|].
  pose proof (stamp_number i d Hd) as Nd.
  assert (Eq : loose_eq (TimeStampSecs f) time = (stamp d =? time)%num).
  { rewrite (ln_time _ _ _ _ L). unfold stamp, loose_eq. destruct (d_TimeStampSecs d); try discriminate Td; reflexivity. }
  assert (Ej : js_Number (TimeStampSecs f) = stamp d) by (rewrite (ln_time _ _ _ _ L); reflexivity).
  assert (Nx : ((time <? js_Number (NextTimeStampSecs f))%num || negb (js_truthy (NextTimeStampSecs f))) = true <->
               forall d', ds !! S i = Some d' -> nlt time (stamp d')).
  { rewrite (ln_next _ _ _ _ L). destruct (ds !! S i) as [d'|] eqn:Hd'.
    - destruct (io_stamp _ O d') as [-> _]; [apply (list_elem_of_lookup_2 _ (S i)), Hd'|]. rewrite orb_false_r.
      split; [intros H d'' [= <-]; exact H|intros H; apply (H d' eq_refl)].
    - cbn. rewrite orb_true_r. split; [intros _ d' [=]|reflexivity]. }
  unfold shows. rewrite Eq, Ej, orb_true_iff, andb_true_iff, Nx. unfold neqb. rewrite andb_true_iff. split.
  - intros [[A B]|[A B]]; exists d; (split; [exact Hd|]).
    + split; [exact A|]. intros d' Hd'. apply (nle_lt_trans _ (stamp d)); [exact B|].
      apply (io_time _ O i); assumption.
    + split; [apply nlt_nle, A|exact B].
  - intros (d0 & Hd0 & A & B). replace d0 with d in * by congruence.
    destruct (nleb_total time (stamp d)) as [C|C]; [assumption..| |]; [left; split; assumption|right; split; assumption].
Qed.

Lemma shown_unique i j : shown i -> shown j -> i = j.
Proof.
  assert (W : forall i j, shown i -> shown j -> (i < j)%nat -> False).
  { intros a b (d & Hd & _ & N) (e & He & L & _) Lt.
    destruct (lookup_lt_is_Some_2 ds (S a)) as [d' Hd']; [apply lookup_lt_Some in He; lia|].
    apply (nlt_not_le _ _ (N d' Hd')). apply (nle_trans _ (stamp e)); [|exact L].
    apply (stamps_up (S a) b); [assumption..|lia]. }
  intros Hi Hj. destruct (Nat.lt_trichotomy i j) as [L|[E|L]]; [|exact E|]; exfalso; eauto.
Qed.

Lemma find_frame_spec fuel lo hi :
  0 <= lo -> hi < Z.of_nat (List.length ds) -> hi - lo + 1 < Z.of_nat fuel ->
  (forall i, shown i -> lo <= Z.of_nat i <= hi) ->
  match find_frame fuel (chained ds) time lo hi with
  | Some i => shown i
  | None => forall i, ~ shown i
  end.
Proof.
  revert lo hi. induction fuel as [|fuel IH]; intros lo hi Hlo Hhi Hf W.
  { cbn. intros i Hi. specialize (W i Hi). lia. }
  cbn [find_frame]. destruct (Z.leb_spec lo hi) as [Hle|Hgt]; [|intros i Hi; specialize (W i Hi); lia].
  assert (Get : forall z, 0 <= z -> z < Z.of_nat (List.length ds) -> exists k f, chained ds !! Z.to_nat z = Some (k, f)).
  { intros z H1 H2. destruct (lookup_lt_is_Some_2 (chained ds) (Z.to_nat z)) as [[k f] E]; [rewrite chained_length; lia|eauto]. }
  destruct (Get lo) as (k1 & first & Ef); [lia..|]. destruct (Get hi) as (k2 & last & El); [lia..|]. rewrite Ef, El.
  destruct (chained_linked _ _ _ _ O Ef) as (d1 & Hd1 & _ & L1). destruct (chained_linked _ _ _ _ O El) as (d2 & Hd2 & _ & L2).
  rewrite (ln_time _ _ _ _ L1), (ln_next _ _ _ _ L2).
  destruct (time <? js_Number (d_TimeStampSecs d1))%num eqn:B1; cbn [orb].
  { intros i Hi. destruct (W i Hi) as [W1 _]. destruct Hi as (d & Hd & A & _).
    apply (nlt_not_le _ _ B1), (nle_trans _ (stamp d)); [|exact A].
    apply (stamps_up (Z.to_nat lo) i); [assumption..|lia]. }
  set (mid := (lo + hi) / 2). assert (Hm : lo <= mid <= hi) by (subst mid; split; [apply Z.div_le_lower_bound|apply Z.div_le_upper_bound]; lia).
  destruct (_ <? time)%num eqn:B2 in |- *.
  { intros i Hi. pose proof (W i Hi) as Wi. destruct Hi as (d & Hd & _ & N).
    destruct (ds !! S (Z.to_nat hi)) as [d'|] eqn:Hd'; [|discriminate B2].
    destruct (lookup_lt_is_Some_2 ds (S i)) as [e He]; [apply lookup_lt_Some in Hd'; lia|].
    apply (nlt_not_le _ _ B2), nlt_nle, (nlt_le_trans _ (stamp e)); [apply N, He|].
    apply (stamps_up (S i) (S (Z.to_nat hi))); [assumption..|lia]. }
  destruct (Get mid) as (k & f & Em); [lia..|]. rewrite Em.
  destruct (shows time f) eqn:Sh; [apply (shows_shown _ _ _ Em), Sh|].
  assert (Ns : ~ shown (Z.to_nat mid)) by (intros H; apply (shows_shown _ _ _ Em) in H; congruence).
  destruct (chained_linked _ _ _ _ O Em) as (d & Hd & _ & L). rewrite (ln_time _ _ _ _ L).
  change (js_Number (d_TimeStampSecs d)) with (stamp d).
  destruct (stamp d <? time)%num eqn:B3.
  - apply IH; [lia..|]. intros i Hi. pose proof (W i Hi). destruct (Z.le_gt_cases (Z.of_nat i) mid) as [Le|]; [|lia].
    exfalso. apply Ns. destruct Hi as (e & He & A & N). exists d. split; [exact Hd|]. split; [apply nlt_nle, B3|].
    intros d' Hd'. destruct (lookup_lt_is_Some_2 ds (S i)) as [e' He']; [apply lookup_lt_Some in Hd'; lia|].
    apply (nlt_le_trans _ (stamp e')); [apply N, He'|]. apply (stamps_up (S i) (S (Z.to_nat mid))); [assumption..|lia].
  - apply nltb_false in B3; [|apply (stamp_number _ _ Hd)|exact Nt].
    assert (Lt : nlt time (stamp d)).
    { destruct (nleb_total (stamp d) time) as [C|C]; [apply (stamp_number _ _ Hd)|exact Nt| |exact C].
      exfalso. unfold shows in Sh. apply orb_false_iff in Sh as [Sh _]. rewrite (ln_time _ _ _ _ L) in Sh.
      destruct (io_stamp _ O d) as [Td _]; [apply (list_elem_of_lookup_2 _ _ _ Hd)|].
      assert (Eq : (stamp d =? time)%num = true) by (unfold neqb; apply andb_true_iff; split; assumption).
      unfold loose_eq, stamp in *. destruct (d_TimeStampSecs d); try discriminate Td; congruence. }
    unfold nlt in Lt. rewrite Lt. apply IH; [lia..|]. intros i Hi. pose proof (W i Hi).
    destruct (Z.le_gt_cases mid (Z.of_nat i)) as [Le|]; [|lia].
    exfalso. destruct Hi as (e & He & A & _). apply (nlt_not_le _ _ Lt), (nle_trans _ (stamp e)); [|exact A].
    apply (stamps_up (Z.to_nat mid) i); [assumption..|lia].
Qed.
End Frames.

(** Once a moment is not before some frame, a frame is shown. *)
Lemma shown_exists ds time : in_order ds -> time <> NaN -> forall i d, ds !! i = Some d -> nle (stamp d) time -> exists j, shown ds time j.
Proof.
  intros O Nt. assert (W : forall n i d, (List.length ds - i <= n)%nat -> ds !! i = Some d -> nle (stamp d) time -> exists j, shown ds time j).
  { induction n as [|n IH]; intros i d Hn Hd L; [apply lookup_lt_Some in Hd; lia|].
    destruct (ds !! S i) as [d'|] eqn:Hd'.
    - destruct (nleb_total (stamp d') time) as [C|C]; [apply (stamp_number ds O _ _ Hd')|exact Nt| |].
      + apply (IH (S i) d'); [lia|assumption..].
      + exists i, d. split; [exact Hd|]. split; [exact L|]. congruence.
    - exists i, d. split; [exact Hd|]. split; [exact L|]. congruence. }
  intros i d. apply (W (List.length ds)). lia.
Qed.

Lemma adjust_time look time f : TimeStampSecs (adjust look time f) = TimeStampSecs f.
Proof.
  unfold adjust. destruct (look (EventId f)) as [[fs|]|], (NextFrameId f) as [k|]; try reflexivity.
  destruct (k =? 0); [reflexivity|]. destruct (frame_at k fs); [|reflexivity]. destruct (_ && _); reflexivity.
Qed.

Lemma findFrameByTime_spec look ds time : in_order ds -> time <> NaN ->
  match (findFrameByTime look (chained ds) time).2 with
  | Some f => exists i d, ds !! i = Some d /\ shown ds time i /\ TimeStampSecs f = d_TimeStampSecs d
  | None => Forall (fun d => nlt time (stamp d)) ds
  end.
Proof.
  intros O Nt. unfold findFrameByTime. rewrite chained_length.
  pose proof (find_frame_spec ds time O Nt (S (List.length ds)) 0 (Z.of_nat (List.length ds) - 1)) as F.
  destruct (find_frame _ _ _ _ _) as [i|].
  - assert (S : shown ds time i).
    { apply F; try lia. intros j (d & Hd & _). apply lookup_lt_Some in Hd. lia. }
    destruct S as (d & Hd & A & N). destruct (lookup_lt_is_Some_2 (chained ds) i) as [[k f] E].
    { rewrite chained_length. apply lookup_lt_Some in Hd. exact Hd. }
    rewrite E. cbn [snd]. destruct (chained_linked ds i k f O E) as (d' & Hd' & _ & L).
    replace d' with d in * by congruence. exists i, d. rewrite adjust_time, (ln_time _ _ _ _ L).
    repeat split; try assumption. exists d. auto.
  - cbn [snd]. apply Forall_forall. intros d Hd. apply list_elem_of_lookup in Hd as [i Hd].
    destruct (nleb_total (stamp d) time) as [C|C]; [apply (stamp_number ds O _ _ Hd)|exact Nt| |exact C].
    exfalso. destruct (shown_exists ds time O Nt i d Hd C) as [j Hj]. revert Hj. apply F; try lia.
    intros j' (d' & Hd' & _). apply lookup_lt_Some in Hd'. lia.
Qed.

(** What is loaded is found: after the frames of an event have arrived in
    order, the binary search over them returns, for every moment, the frame
    recorded last before or at that moment, and none only before the first. *)
Theorem loaded_frames_found (ds : list frame_data) (s : store) (r : nat) (id : Z) (time : num) :
  in_order ds -> Forall (fun d => d_EventId d = id) ds -> events s !! id = Some r ->
  frames_at s r = Some (Some []) -> time <> NaN ->
  exists s' fs, receive_frames ds s = Some s' /\ frames_at s' r = Some (Some fs) /\
    match (findFrameByTime (frames_of s') fs time).2 with
    | Some f => exists i d, ds !! i = Some d /\ shown ds time i /\ TimeStampSecs f = d_TimeStampSecs d
    | None => Forall (fun d => nlt time (stamp d)) ds
    end.
Proof.
  intros O Hid He Hf Nt. destruct (receive_frames_chained ds s r id O Hid He Hf) as (s' & R & F).
  exists s', (chained ds). split; [exact R|]. split; [exact F|]. apply findFrameByTime_spec; assumption.
Qed.

Definition demo_data : list frame_data :=
  [FrameData 1 7 "Normal" (VStr "1000.5"); FrameData 101 7 "Bulk" (VStr "1100.5")].
Definition demo_store : store :=
  Store [Event 7 1 (VNum (Fin 1000)) (VNum (Fin 1200)) (VStr "x") (Some []) VUndef VUndef] {[7 := 0%nat]} {[1 := [0%nat]]} [].

Lemma in_order_demo : in_order demo_data.
Proof.
  split.
  - intros d Hd. repeat (apply elem_of_cons in Hd as [->|Hd]; [split; [reflexivity|vm_compute; discriminate]|]). apply elem_of_nil in Hd as [].
  - intros [|[|i]] a b Ha Hb; try discriminate. injection Ha as <-. injection Hb as <-. split; vm_compute; reflexivity.
  - intros [|[|i]] a b Ha Hb; try discriminate. injection Ha as <-. injection Hb as <-. reflexivity.
Qed.

Lemma loaded_frames_found_witness :
  exists s' fs, receive_frames demo_data demo_store = Some s' /\ frames_at s' 0%nat = Some (Some fs) /\
    match (findFrameByTime (frames_of s') fs (Fin 1050)).2 with
    | Some f => exists i d, demo_data !! i = Some d /\ shown demo_data (Fin 1050) i /\ TimeStampSecs f = d_TimeStampSecs d
    | None => Forall (fun d => nlt (Fin 1050) (stamp d)) demo_data
    end.
Proof.
  apply (loaded_frames_found demo_data demo_store 0%nat 7 (Fin 1050)); try reflexivity; try discriminate.
  - apply in_order_demo.
  - repeat constructor.
Defined.

(** The id of the frame at a moment, asked for several times in a row. *)
Fixpoint ask (n : nat) (arr : frames) (look : frames -> Z -> option (option frames)) (time : num) : list num :=
  match n with
  | O => []
  | S n => let '(arr, f) := findFrameByTime (look arr) arr time in
           match f with Some f => FrameId f :: ask n arr look time | None => [] end
  end.

(** Looking at one and the same moment twice gives two different frames: the
    search writes the id it works out between two frames back into the first of
    them and counts from there the next time, so before a Bulk frame the id runs
    on towards it with every look. *)
Theorem lookup_drifts :
  ask 4 (chained demo_data) (fun arr _ => Some (Some arr)) (Fin (10505 # 10)) =
  [num_of_Z 51; num_of_Z 76; num_of_Z 88; num_of_Z 94].
Proof. vm_compute. reflexivity. Qed.

(** ** Requests for frames *)

Definition requested (effects : list effect) : list Z :=
  List.flat_map (fun e => match e with FetchFrames _ ids => ids | _ => [] end) effects.

(** A query names its events, and is cut off as soon as it is long enough. *)
Definition query_of (ids : list Z) : string := fold_left (fun q id => q ++ query_part id) ids "".

Definition query_ok (e : effect) : Prop :=
  match e with FetchFrames q ids => ids <> [] /\ q = query_of ids | _ => False end.
Definition query_full (e : effect) : Prop :=
  match e with FetchFrames q _ => (1000 < String.length q)%nat | _ => False end.

Lemma query_of_snoc ids id : query_of (ids ++ [id])%list = query_of ids ++ query_part id.
Proof. unfold query_of. rewrite fold_left_app. reflexivity. Qed.

Lemma batches_ok ids : forall batch, (ids = [] -> batch = []) ->
  let es := batches (query_of batch) batch ids in
  requested es = (batch ++ ids)%list /\ Forall query_ok es /\
  forall i e, es !! i = Some e -> (S i < List.length es)%nat -> query_full e.
Proof.
  induction ids as [|id ids IH]; intros batch Hb; cbn [batches]; cbv zeta.
  - rewrite Hb by reflexivity. cbn. split; [reflexivity|]. split; [constructor|]. intros i e H. discriminate.
  - rewrite <- query_of_snoc.
    destruct (bool_decide (ids = []) || Nat.ltb 1000 (String.length (query_of (batch ++ [id])%list))) eqn:B.
    + destruct (IH [] ltac:(reflexivity)) as (R & F & L). change (query_of []) with "" in R, F, L.
      split; [cbn; fold requested; change (List.flat_map _ (batches "" [] ids)) with (requested (batches "" [] ids)); rewrite R, <- app_assoc; reflexivity|].
      split; [constructor; [split; [destruct batch; discriminate|reflexivity]|exact F]|].
      intros [|i] e Hi Hlt.
      * injection Hi as <-. cbn. apply orb_true_iff in B as [B|B]; [|apply Nat.ltb_lt, B].
        apply bool_decide_eq_true in B as ->. cbn in Hlt. lia.
      * apply (L i); [exact Hi|]. cbn in Hlt. lia.
    + apply orb_false_iff in B as [B1 _]. apply bool_decide_eq_false in B1.
      destruct (IH (batch ++ [id])%list ltac:(intros ->; congruence)) as (R & F & L).
      split; [rewrite R, <- app_assoc; reflexivity|]. split; [exact F|exact L].
Qed.

(** The ids to load, by what the objects are before any is marked. *)
Definition is_wanted (s : store) (p : Z * nat) : bool :=
  match heap s !! p.2 with Some e => wanted e | None => false end.
Definition to_load (s : store) (zm_events : list (Z * nat)) : list Z :=
  map fst (List.filter (is_wanted s) zm_events).

Lemma modify_other s r f r' : r' <> r -> heap (modify r f s) !! r' = heap s !! r'.
Proof.
  intros H. unfold modify. change (heap (s <| heap := ?h |>)) with h. rewrite list_lookup_alter, decide_False by congruence.
  reflexivity.
Qed.

Lemma to_load_modify s r f zm_events : r ∉ map snd zm_events ->
  to_load (modify r f s) zm_events = to_load s zm_events.
Proof.
  intros H. unfold to_load. f_equal. apply List.filter_ext_in. intros [id r'] Hp. unfold is_wanted. cbn [snd].
  rewrite modify_other; [reflexivity|]. intros ->. apply H, list_elem_of_In. apply in_map_iff. exists (id, r). auto.
Qed.

Lemma filter_wanted_spec zm_events : forall s, NoDup (map snd zm_events) ->
  (filter_wanted zm_events s).1 = to_load s zm_events /\ out (filter_wanted zm_events s).2 = out s.
Proof.
  induction zm_events as [|[id r] rest IH]; intros s N; [split; reflexivity|]. inversion_clear N as [|? ? H N'].
  cbn [filter_wanted]. unfold to_load. cbn [List.filter]. unfold is_wanted at 1. cbn [snd].
  destruct (heap s !! r) as [e|]; [|apply IH, N']. destruct (wanted e); [|apply IH, N'].
  destruct (IH (modify r mark_loading s) N') as [E1 E2]. rewrite to_load_modify in E1 by exact H.
  destruct (filter_wanted rest _) as [ids s']. cbn in *. rewrite E1, E2. split; reflexivity.
Qed.

(** Loading asks for exactly the events whose frames are not all there, each
    in one request and in order; every request names the events it is for, and
    each but the last is over the length that ends a batch. *)
Theorem loadFrames_requests (zm_events : list (Z * nat)) (s : store) :
  NoDup (map snd zm_events) ->
  exists es, out (loadFrames zm_events s) = (out s ++ es)%list /\
    requested es = to_load s zm_events /\ Forall query_ok es /\
    forall i e, es !! i = Some e -> (S i < List.length es)%nat -> query_full e.
Proof.
  intros N. unfold loadFrames. destruct (filter_wanted_spec zm_events s N) as [E1 E2].
  destruct (filter_wanted zm_events s) as [ids s']. cbn [fst snd] in *. subst ids.
  exists (batches "" [] (to_load s zm_events)). split; [rewrite <- E2; reflexivity|].
  apply (batches_ok (to_load s zm_events) []). reflexivity.
Qed.

Lemma loadFrames_requests_witness :
  NoDup (map snd [(7, 0%nat)]) /\
  exists es, out (loadFrames [(7, 0%nat)] demo_store) = (out demo_store ++ es)%list /\
    requested es = to_load demo_store [(7, 0%nat)] /\ Forall query_ok es /\
    forall i e, es !! i = Some e -> (S i < List.length es)%nat -> query_full e.
Proof.
  split; [repeat constructor; apply not_elem_of_nil|].
  apply (loadFrames_requests [(7, 0%nat)] demo_store). repeat constructor. apply not_elem_of_nil.
Defined.

End Montage.
