(* ===== verification/MontageReview.v ===== *)
(** web/skins/classic/views/js/montagereview.js: the playback of the review.

    The page's globals, its timers and the [EventStream] of each monitor form one
    [state]; the events and frames are the [store] of MontageSearch.  A handler
    takes what the browser supplies, Date.now() and Math.random(), as an [env].
    Painting, the geometry of the canvases (MonitorFit.v), the luxon dates,
    the data PHP prints into the page and the requests for events are outside:
    they appear as arguments, as fields of [config] or as effects.  The page has
    one credential; each stream of the model carries a copy, kept the same. *)
From S2P Require Import JsString AuthHelpers EventStream MonitorStream MontageSearch.

Module Review.
Import Montage.

Record env := Env { now : Z; random : Z -> num }.

Record config := Config {
  monitorPtr : list Z;                        (* the monitors, first to last *)
  named : list Z;                             (* those with a name, by id *)
  speeds : list num;
  monitorWidth : Z -> num;
  stream : Z -> EventStream.config;
  PathToZMS : Z -> Z -> string;               (* the server of an event's storage, or of the monitor *)
  resolve : string -> string;                 (* the absolute URL an img makes of its src *)
  plus_day : num -> num;                      (* luxon: a day later *)
}.

Inductive timer := TTick | TSync | TWait.
#[export] Instance timer_eq_dec : EqDecision timer.
Proof. solve_decision. Defined.

Inductive effect :=
| WriteText (monId : Z) (text : string)
| LoadImage (monId : Z) (src : string)
| SetCookie (speed : num)
| Submit (live : bool)
| RequestEvents
| Navigate (range : option (num * num)) (current : option num) (live : bool).

Record state := State {
  store_ : Montage.store;
  liveMode : bool;
  currentSpeed : num; speedIndex : jsval;
  currentTimeSecs : num; minTimeSecs : num; maxTimeSecs : num; rangeTimeSecs : num;
  currentDisplayInterval : num;
  timerInterval : num;                        (* NaN until it is first set *)
  timerObj : option nat;
  wait_for_events_interval : option nat;
  lastTimerFireMs : num;
  eventStreams : gmap Z EventStream.state;
  eventStreamsActive : bool; isScrubbing : bool; mouseisdown : bool;
  lastDriftCorrection : gmap Z num;
  canvasWidth : gmap Z num;
  sliderX : num; cWidth : num;
  freeTimeLastIntervals : list num;           (* its first imageLoadTimesEvaluated members *)
  monitorLoading : gmap Z bool; monitorLoadingStageURL : gmap Z string; img_src : gmap Z string;
  monitorLoadStartTimems : gmap Z num; monitorLoadEndTimems : gmap Z num;
  relay : string;                             (* zmAuth *)
  timers : gmap nat timer; next : nat;
  out : list effect;
}.
#[export] Instance eta_state : Eta state := fun s =>
  State (store_ s) (liveMode s) (currentSpeed s) (speedIndex s) (currentTimeSecs s) (minTimeSecs s) (maxTimeSecs s)
    (rangeTimeSecs s) (currentDisplayInterval s) (timerInterval s) (timerObj s) (wait_for_events_interval s)
    (lastTimerFireMs s) (eventStreams s) (eventStreamsActive s) (isScrubbing s) (mouseisdown s) (lastDriftCorrection s)
    (canvasWidth s) (sliderX s) (cWidth s) (freeTimeLastIntervals s) (monitorLoading s) (monitorLoadingStageURL s)
    (img_src s) (monitorLoadStartTimems s) (monitorLoadEndTimems s) (relay s) (timers s) (next s) (out s).

Definition emit (e : effect) (s : state) : state := s <| out := (out s ++ [e])%list |>.

Definition add_timer (t : timer) (s : state) : state * nat :=
  (s <| timers := <[next s := t]> (timers s) |> <| next := S (next s) |>, next s).
Definition drop (h : option nat) (t : gmap nat timer) : gmap nat timer :=
  match h with Some h => delete h t | None => t end.
Definition drop_timer (h : option nat) (s : state) : state := s <| timers := drop h (timers s) |>.

(** The constants of the code, as the doubles they are. *)
Definition dec (n : Z) (d : positive) : num := rnd (n # d).

Definition any_events (s : state) : bool := negb (bool_decide (Montage.events (store_ s) = ∅)).

(** [eventStreams[monId].started] *)
Definition running (s : state) (monId : Z) : bool :=
  match eventStreams s !! monId with Some es => EventStream.started es | None => false end.

(** A method of one of the streams. *)
Definition on_stream (monId : Z) (f : EventStream.state -> EventStream.state) (s : state) : state :=
  s <| eventStreams := alter f monId (eventStreams s) |>.

Section Page.
Variable cfg : config.

(** ** How fast images load *)

Fixpoint load_span (ids : list Z) (start end_ : num) (s : state) : option (num * num) :=
  match ids with
  | [] => Some (start, end_)
  | i :: ids =>
      let b := default (Fin 0) (monitorLoadStartTimems s !! i) in
      let e := default (Fin 0) (monitorLoadEndTimems s !! i) in
      if (e =? Fin 0)%num then None
      else load_span ids (if (start =? Fin 0)%num || (b <? start)%num then b else start)
                         (if (end_ =? Fin 0)%num || (end_ <? e)%num then e else end_) s
  end.

Definition imageLoadTimesNeeded : nat := 15.

Definition multiplier (avgFrac : num) : num :=
  if (dec 9 10 <=? avgFrac)%num then dec 50 100
  else if (dec 8 10 <=? avgFrac)%num then dec 55 100
  else if (dec 7 10 <=? avgFrac)%num then dec 60 100
  else if (dec 6 10 <=? avgFrac)%num then dec 65 100
  else if (dec 5 10 <=? avgFrac)%num then dec 70 100
  else if (dec 4 10 <=? avgFrac)%num then dec 80 100
  else if (dec 35 100 <=? avgFrac)%num then dec 90 100
  else if (dec 3 10 <=? avgFrac)%num then Fin 1
  else if (dec 25 100 <=? avgFrac)%num then dec 120 100
  else if (dec 2 10 <=? avgFrac)%num then dec 150 100
  else if (dec 1 10 <=? avgFrac)%num then Fin 2
  else dec 250 100.

Definition evaluateLoadTimes (s : state) : state :=
  if negb (liveMode s) && (currentSpeed s =? Fin 0)%num then s
  else
    match load_span (named cfg) (Fin 0) (Fin 0) s with
    | None => s
    | Some (start, end_) =>
        if (start =? Fin 0)%num || (end_ =? Fin 0)%num then s
        else
          let zero (m : gmap Z num) := fold_left (fun m i => <[i := Fin 0]> m) (monitorPtr cfg) m in
          let s := s <| monitorLoadStartTimems := zero (monitorLoadStartTimems s) |>
                     <| monitorLoadEndTimems := zero (monitorLoadEndTimems s) |> in
          let s := s <| freeTimeLastIntervals :=
            (freeTimeLastIntervals s ++ [Fin 1 - (end_ - start) / currentDisplayInterval s])%num%list |> in
          let n := List.length (freeTimeLastIntervals s) in
          if Nat.ltb n imageLoadTimesNeeded then s
          else
            let avgFrac := (fold_left nadd (freeTimeLastIntervals s) (Fin 0) / num_of_Z (Z.of_nat n))%num in
            let interval := (nround (currentDisplayInterval s * multiplier avgFrac * Fin 10) / Fin 10)%num in
            s <| currentDisplayInterval := nmin (nmax interval (Fin 40)) (Fin 10000) |> <| freeTimeLastIntervals := [] |>
    end.

(** ** Images of one frame *)

(** The text of a field, [undefined] where the img gets none. *)
Definition src_text (url : option string) : string := default "undefined" url.

Definition loadImage2Monitor (e : env) (monId : Z) (url : option string) (s : state) : state :=
  let src := default "" (img_src s !! monId) in
  let same := match url with Some u => String.eqb src u | None => false end in
  if default false (monitorLoading s !! monId) && negb same then
    s <| monitorLoadingStageURL := <[monId := src_text url]> (monitorLoadingStageURL s) |>
  else if same then s
  else if match url with Some u => String.eqb u "no data" | None => false end then emit (WriteText monId "No Event") s
  else
    emit (LoadImage monId (src_text url))
      (s <| monitorLoading := <[monId := true]> (monitorLoading s) |>
         <| monitorLoadStartTimems := <[monId := num_of_Z (now e)]> (monitorLoadStartTimems s) |>
         <| img_src := <[monId := resolve cfg (src_text url)]> (img_src s) |>).

Definition streamScaleForMonitor (monId : Z) (s : state) : num :=
  match canvasWidth s !! monId with
  | Some w =>
      if ntruthy (monitorWidth cfg monId) then
        nmin (Fin 100) (nmax (Fin 10) (Fin 10 * nceil (Fin 100 * w / monitorWidth cfg monId / Fin 10)))%num
      else Fin 100
  | None => Fin 100
  end.

Definition speed_at (i : jsval) : num :=
  match js_Number i with
  | Fin q => if Qle_bool 0 q && Qeq_bool q (inject_Z (Qfloor q))
             then default NaN (speeds cfg !! Z.to_nat (Qfloor q)) else NaN
  | _ => NaN
  end.

(** The id of the frame to show; [None] where the code has undefined. *)
Definition frame_id_at (fs : option frames) (f : frame) (time : num) : option (option num) :=
  match NextFrameId f with
  | Some k =>
      if k =? 0 then Some (Some (FrameId f))
      else match fs with
           | None => None
           | Some fs =>
               match frame_at k fs with
               | None => Some None
               | Some nxt => Some (Some (if String.eqb (Type_ nxt) "Bulk" then interpolate f nxt time else FrameId f))
               end
           end
  | None => Some (Some (FrameId f))
  end.

Definition getImageSource (e : env) (monId : Z) (time : num) (s : state) : state * option string :=
  if liveMode s then
    (s, Some (Auth.applyTo (relay s) (MonitorStream.addOrUpdateRandParam (now e) (default "" (img_src s !! monId))) None))
  else
    let '(st, f) := getFrame (maxTimeSecs s) (num_of_Z (now e)) monId time (store_ s) in
    let s := s <| store_ := st |> in
    match f with
    | None => (s, Some "")
    | Some f =>
        match event_of st (EventId f) with
        | None => (s, Some "")
        | Some ev =>
            match frame_id_at (FramesById ev) f time with
            | None => (s, Some "")
            | Some None => (s, None)
            | Some (Some id) =>
                if negb (ntruthy (trunc id)) then (s, None)
                else (s, Some (Auth.appendTo (relay s)
                  (PathToZMS cfg (EventId f) monId ++ "?mode=single&event=" ++ Z_to_string (EventId f) ++
                   "&time=" ++ num_to_string time ++ "&scale=" ++ num_to_string (streamScaleForMonitor monId s) ++
                   "&monitor=" ++ Z_to_string monId ++ "&frames=1&rate=" ++
                   num_to_string (Fin 100 * speed_at (speedIndex s))%num)))
            end
        end
    end.

(** onload and onerror of a monitor's image. *)
Definition imagedone (e : env) (monId : Z) (success : bool) (s : state) : state :=
  let s := if success then
             evaluateLoadTimes (s <| monitorLoadEndTimems := <[monId := num_of_Z (now e)]> (monitorLoadEndTimems s) |>)
           else s in
  let s := s <| monitorLoading := <[monId := false]> (monitorLoading s) |> in
  if success then s else emit (WriteText monId (if liveMode s then "Camera Offline" else "No event")) s.

(** ** The slider *)

Definition sliderWidth : num := Fin 10.

Definition drawSliderOnGraph (e : env) (val : num) (s : state) : state :=
  if bool_decide (monitorPtr cfg = []) then s
  else
    let val := if liveMode s then nfloor (num_of_Z (now e) / Fin 1000)%num else val in
    let x := trunc ((val - minTimeSecs s) / rangeTimeSecs s * cWidth s - sliderWidth / Fin 2)%num in
    let x := if (x <? Fin 0)%num then Fin 0 else x in
    let x := if (cWidth s <? x + sliderWidth)%num then (cWidth s - sliderWidth - Fin 1)%num else x in
    s <| sliderX := x |>.

(** ** Following the time *)

Definition play_options (speed time : num) : EventStream.options :=
  EventStream.Options (VNum time) VUndef (VNum (Fin 100 * speed)%num) VUndef (VNum (Fin 15)).

Definition id_val (id : Z) : jsval := VNum (num_of_Z id).

(** The event of a monitor at a moment. *)
Definition current_event (s : state) (monId : Z) (time : num) : option zm_event :=
  match events_for_monitor (store_ s) !! monId with
  | None | Some [] => None
  | Some refs => findEventByTime (maxTimeSecs s) (events_of (store_ s) refs) time
  end.

Definition offset_in (ev : zm_event) (time : num) : num := nmax (Fin 0) (time - js_Number (StartTimeSecs ev))%num.

(** What outputUpdate does for one monitor while streams play. *)
Definition follow (e : env) (time : num) (s : state) (monId : Z) : state :=
  match eventStreams s !! monId with
  | None => s
  | Some es =>
      match current_event s monId time with
      | Some ev =>
          let opts := play_options (currentSpeed s) time in
          if negb (EventStream.started es) then
            on_stream monId (EventStream.start (stream cfg monId) (random e monId) (id_val (Id ev)) opts) s
          else if negb (loose_eq (EventStream.currentEventId es) (num_of_Z (Id ev))) then
            on_stream monId (EventStream.switchEvent (stream cfg monId) (random e monId) (id_val (Id ev)) opts) s
          else if isScrubbing s then on_stream monId (EventStream.seek (stream cfg monId) (offset_in ev time)) s
          else s
      | None =>
          let s := if EventStream.started es then on_stream monId (EventStream.stop (stream cfg monId)) s else s in
          emit (WriteText monId "No Event") s
      end
  end.

(** What it does for one monitor otherwise. *)
Definition show_frame (e : env) (time : num) (s : state) (monId : Z) : state :=
  let '(s, src) := getImageSource e monId time s in loadImage2Monitor e monId src s.

Definition streaming (s : state) : bool := eventStreamsActive s && (Fin 1 <=? currentSpeed s)%num && any_events s.

Definition outputUpdate (e : env) (time : num) (s : state) : state :=
  let s := if streaming s then fold_left (follow e time) (monitorPtr cfg) s
           else if any_events s then fold_left (show_frame e time) (monitorPtr cfg) s
           else s in
  drawSliderOnGraph e time (s <| currentTimeSecs := time |>).

(** ** Speed and clock *)

Definition sync_one (time : num) (s : state) (monId : Z) : state :=
  if running s monId then
    match current_event s monId time with
    | Some ev => on_stream monId (EventStream.seek (stream cfg monId) (offset_in ev time)) s
    | None => s
    end
  else s.
Definition syncEventStreamsToTime (time : num) (s : state) : state := fold_left (sync_one time) (monitorPtr cfg) s.

Definition stop_one (s : state) (monId : Z) : state :=
  if running s monId then on_stream monId (EventStream.stop (stream cfg monId)) s else s.
Definition stop_streams (s : state) : state := fold_left stop_one (monitorPtr cfg) s.

Definition rate_one (s : state) (monId : Z) : state :=
  if running s monId then
    let s := on_stream monId (EventStream.setRate (stream cfg monId) (VNum (Fin 100 * currentSpeed s)%num)) s in
    match eventStreams s !! monId with
    | Some es => if EventStream.paused es then on_stream monId (EventStream.play (stream cfg monId)) s else s
    | None => s
    end
  else s.

(** setSpeed before it fires the timer. *)
Definition change_speed (e : env) (speed_index : jsval) (s : state) : state :=
  let s := s <| currentSpeed := speed_at speed_index |> <| speedIndex := speed_index |> <| lastTimerFireMs := num_of_Z (now e) |> in
  let s := emit (SetCookie (currentSpeed s)) s in
  if eventStreamsActive s then
    if (Fin 1 <=? currentSpeed s)%num then (add_timer TSync (fold_left rate_one (monitorPtr cfg) s)).1
    else stop_streams s
  else s.

Definition play_secs (e : env) (s : state) : num :=
  if ntruthy (lastTimerFireMs s)
  then (currentSpeed s * (num_of_Z (now e) - lastTimerFireMs s) / Fin 1000)%num else Fin 0.

(** The interval is dropped when it is to change or while nothing moves. *)
Definition reschedule (s : state) : state :=
  if negb (currentDisplayInterval s =? timerInterval s)%num || (currentSpeed s =? Fin 0)%num
  then drop_timer (timerObj s) s <| timerObj := None |> <| timerInterval := currentDisplayInterval s |> else s.

Definition keep_ticking (s : state) : state :=
  if ((Fin 0 <? currentSpeed s)%num || liveMode s) && bool_decide (timerObj s = None)
  then let '(s, h) := add_timer TTick s in s <| timerObj := Some h |> else s.

(** The clock goes on by [playSecs], or stops at the end through setSpeed(0), of
    which [fire] is the rest. *)
Definition moved (fire : state -> option state) (e : env) (playSecs : num) (s : state) : option state :=
  if liveMode s then Some s
  else if (maxTimeSecs s <=? currentTimeSecs s + playSecs)%num then
    if js_truthy (speedIndex s) then fire (change_speed e (VNum (Fin 0)) s) else Some s
  else if ntruthy playSecs || (currentTimeSecs s =? minTimeSecs s)%num
  then Some (s <| currentTimeSecs := (playSecs + currentTimeSecs s)%num |>)
  else Some s.

(** The end of a tick. *)
Definition redisplay (e : env) (s : state) : state := keep_ticking (outputUpdate e (currentTimeSecs s) s).

(** timerFire and setSpeed(0) call each other; [None] when that has no end. *)
Fixpoint timerFire (fuel : nat) (e : env) (s : state) : option state :=
  match fuel with
  | O => None
  | S fuel =>
      let s := reschedule s in
      let playSecs := play_secs e s in
      let s := s <| lastTimerFireMs := num_of_Z (now e) |> in
      option_map (redisplay e) (moved (timerFire fuel e) e playSecs s)
  end.

(** How deep the two calls nest: timerFire, setSpeed(0), timerFire. *)
Definition depth : nat := 2.

Definition setSpeed (e : env) (speed_index : jsval) (s : state) : option state :=
  if liveMode s then Some s else timerFire depth e (change_speed e speed_index s).

(** ** Scrubbing *)

Definition when_running (f : Z -> EventStream.state -> EventStream.state) (s : state) (monId : Z) : state :=
  if running s monId then on_stream monId (f monId) s else s.

Definition mmove (e : env) (relx width : num) (s : state) : state :=
  if mouseisdown s then
    let sec := (minTimeSecs s + rangeTimeSecs s / width * relx)%num in
    if ntruthy sec then outputUpdate e sec s else s
  else s.

Definition mdown (e : env) (relx width : num) (s : state) : state :=
  let s := s <| mouseisdown := true |> <| isScrubbing := true |> in
  let s := if eventStreamsActive s
           then fold_left (when_running (fun m => EventStream.pause (stream cfg m))) (monitorPtr cfg) s else s in
  mmove e relx width s.

(** The end of scrubbing. *)
Definition resume (s : state) : state :=
  if eventStreamsActive s && (Fin 1 <=? currentSpeed s)%num then
    fold_left (when_running (fun m => EventStream.play (stream cfg m))) (monitorPtr cfg)
      (syncEventStreamsToTime (currentTimeSecs s) s)
  else s.

Definition mup (s : state) : state := resume (s <| mouseisdown := false |> <| isScrubbing := false |>).

Definition mout (s : state) : state :=
  let s := s <| mouseisdown := false |> in
  if isScrubbing s then resume (s <| isScrubbing := false |>) else s.

Definition tmove (e : env) (relx width : num) (s : state) : state := mmove e relx width (s <| mouseisdown := true |>).

(** ** Drift *)

Definition streamDriftThreshold : num := Fin 2.
Definition driftCorrectionCooldown : num := Fin 3000.

(** [a + b]: strings are joined. *)
Definition js_add (a b : jsval) : jsval :=
  match a, b with
  | VStr _, _ | _, VStr _ => VStr (js_to_string a ++ js_to_string b)
  | _, _ => VNum (js_Number a + js_Number b)%num
  end.

(** [events[v]] *)
Definition lookup_event (st : Montage.store) (v : jsval) : option zm_event :=
  let text := js_to_string v in
  match parseInt10 text with
  | Fin q => let id := Qfloor q in if String.eqb (Z_to_string id) text then event_of st id else None
  | _ => None
  end.

(** The correction itself: to the event at the slider. *)
Definition correct_drift (e : env) (mid : Z) (event : jsval) (s : state) : state :=
  match current_event s mid (currentTimeSecs s) with
  | Some ev =>
      if loose_eq event (num_of_Z (Id ev)) then
        on_stream mid (EventStream.seek (stream cfg mid) (offset_in ev (currentTimeSecs s))) s
      else
        on_stream mid (EventStream.switchEvent (stream cfg mid) (random e mid) (id_val (Id ev))
                         (play_options (currentSpeed s) (currentTimeSecs s))) s
  | None => s
  end.

(** A stream's onStatus. *)
Definition onStatus (e : env) (mid : Z) (event progress : jsval) (s : state) : state :=
  if isScrubbing s || negb (eventStreamsActive s) then s
  else if (currentSpeed s <? Fin 1)%num then s
  else if negb (js_truthy progress) && negb (match progress with VNum n => (n =? Fin 0)%num | _ => false end) then s
  else if negb (js_truthy event) then s
  else match lookup_event (store_ s) event with
       | None => s
       | Some ev =>
           if negb (js_truthy (StartTimeSecs ev)) then s
           else
             let drift := nabs (js_Number (js_add (StartTimeSecs ev) progress) - currentTimeSecs s)%num in
             if (streamDriftThreshold <? drift)%num then
               let last := default (Fin 0) (lastDriftCorrection s !! mid) in
               if negb (ntruthy last) || (driftCorrectionCooldown <? num_of_Z (now e) - last)%num then
                 correct_drift e mid event (s <| lastDriftCorrection := <[mid := num_of_Z (now e)]> (lastDriftCorrection s) |>)
               else s
             else s
       end.

#[local] Existing Instance EventStream.eta_state.

(** A stream's answer has changed the credential of the page. *)
Definition share_relay (r : string) (s : state) : state :=
  s <| relay := r |> <| eventStreams := (fun es => es <| EventStream.relay := r |>) <$> eventStreams s |>.

(** A reply to a stream's request, and the page's onStatus if the stream calls it. *)
Definition stream_reply (e : env) (mid : Z) (r : option EventStream.reply) (key : option string) (progress : jsval)
    (s : state) : state :=
  match eventStreams s !! mid with
  | None => s
  | Some es =>
      let es' := EventStream.request_done (stream cfg mid) r key es in
      let s := share_relay (EventStream.relay es') (s <| eventStreams := <[mid := es']> (eventStreams s) |>) in
      match List.skipn (List.length (EventStream.out es)) (EventStream.out es') with
      | [EventStream.OnStatus st] => onStatus e mid (EventStream.st_event st) progress s
      | _ => s
      end
  end.

(** ** The page *)

Definition scale_one (s : state) (monId : Z) : state :=
  match eventStreams s !! monId with
  | Some es =>
      let scale := streamScaleForMonitor monId s in
      if negb (loose_eq (EventStream.scale es) scale)
      then on_stream monId (EventStream.setScale (stream cfg monId) (VNum scale)) s else s
  | None => s
  end.
Definition updateStreamScales (s : state) : state := fold_left scale_one (monitorPtr cfg) s.

(** The graph is drawn, with the slider, unless the page is live. *)
Definition redrawScreen (e : env) (s : state) : option state :=
  let s := if liveMode s then s else drawSliderOnGraph e (currentTimeSecs s) s in
  timerFire depth e (updateStreamScales s).

(** The timer's handle is cleared but not forgotten: the page is about to go. *)
Definition setLive (value : bool) (s : state) : state :=
  let s := if eventStreamsActive s then stop_streams s <| eventStreamsActive := false |> else s in
  emit (Submit value) (drop_timer (timerObj s) s <| liveMode := value |>).

Definition wait_for_events (e : env) (s : state) : option state :=
  if negb (any_events s) then
    match wait_for_events_interval s with
    | Some _ => Some s
    | None => let '(s, h) := add_timer TWait s in Some (s <| wait_for_events_interval := Some h |>)
    end
  else timerFire depth e (drop_timer (wait_for_events_interval s) s <| wait_for_events_interval := None |>).

(** Which of the two dates the user has changed. *)
Inductive changed := MinDate | MaxDate | Other.

(** The dates after the limit to a day; a later end moves the start only when it
    is before it, as the difference taken there is never above zero. *)
Definition limit_dates (c : changed) (mn mx : num) : num * num :=
  match c with
  | MinDate =>
      if (mx <? mn)%num then (mn, mn + Fin 3600)%num
      else if (Fin 86400 <? mx - mn)%num then (mn, plus_day cfg mn) else (mn, mx)
  | MaxDate =>
      if (mx <? mn)%num then (mx, mx)
      else (mn, mx)
  | Other => (mn, mx)
  end.

(** [dates]: the two dates in seconds; none when one is not valid. *)
Definition changeFilters (e : env) (c : changed) (dates : option (num * num)) (s : state) : option state :=
  match dates with
  | None => Some s
  | Some (mn, mx) =>
      let '(mn, mx) := limit_dates c mn mx in
      let s := s <| minTimeSecs := mn |> <| maxTimeSecs := mx |> <| rangeTimeSecs := (mx - mn)%num |> in
      let s := if (currentTimeSecs s <? mn)%num || (mx <? currentTimeSecs s)%num then s <| currentTimeSecs := mn |> else s in
      let s := s <| store_ := clear_events (store_ s) |> in
      let s := drop_timer (timerObj s) s <| timerObj := None |> in
      let s := drawSliderOnGraph e (currentTimeSecs s) s in
      let s := emit RequestEvents (s <| monitorLoading := fold_left (fun m i => <[i := false]> m) (monitorPtr cfg) (monitorLoading s) |>) in
      wait_for_events e s
  end.

(** clicknav: where the page goes. *)
Definition clicknav (e : env) (minSecs maxSecs : num) (live : bool) (s : state) : state :=
  let seconds := nfloor (num_of_Z (now e) / Fin 1000)%num in
  let maxSecs := if (Fin 0 <? minSecs)%num && (seconds <? maxSecs)%num then trunc seconds else maxSecs in
  let range := if (Fin 0 <? minSecs)%num then Some (minSecs, maxSecs) else None in
  let current := if ntruthy minSecs && ntruthy maxSecs && (minSecs <? currentTimeSecs s)%num && (currentTimeSecs s <? maxSecs)%num
                 then Some (currentTimeSecs s) else None in
  emit (Navigate range current live) s.

(** The window around the slider. *)
Definition centred (range : num) (s : state) : state :=
  s <| rangeTimeSecs := range |> <| minTimeSecs := trunc (currentTimeSecs s - range / Fin 2)%num |>
    <| maxTimeSecs := trunc (currentTimeSecs s + range / Fin 2)%num |>.
Definition click_zoomin (e : env) (s : state) : state :=
  let s := centred (trunc (rangeTimeSecs s / Fin 2)%num) s in clicknav e (minTimeSecs s) (maxTimeSecs s) false s.
Definition click_zoomout (e : env) (s : state) : state :=
  let s := centred (trunc (rangeTimeSecs s * Fin 2)%num) s in clicknav e (minTimeSecs s) (maxTimeSecs s) false s.

Definition click_panleft (e : env) (s : state) : state :=
  let s := s <| minTimeSecs := trunc (minTimeSecs s - rangeTimeSecs s / Fin 2)%num |> in
  let s := s <| maxTimeSecs := (minTimeSecs s + rangeTimeSecs s - Fin 1)%num |>
             <| currentTimeSecs := (currentTimeSecs s - rangeTimeSecs s / Fin 2)%num |> in
  clicknav e (minTimeSecs s) (maxTimeSecs s) false s.
Definition click_panright (e : env) (s : state) : state :=
  let s := s <| minTimeSecs := trunc (minTimeSecs s + rangeTimeSecs s / Fin 2)%num |> in
  let s := s <| maxTimeSecs := (minTimeSecs s + rangeTimeSecs s - Fin 1)%num |> in
  clicknav e (minTimeSecs s) (maxTimeSecs s) false s.

(** ** What can happen *)

(** An event of a stream that the page does not listen to. *)
Definition unheard (ev : EventStream.event) : bool :=
  match ev with
  | EventStream.Fire _ _ _ _ | EventStream.ImgError | EventStream.Fail _ _ | EventStream.Bitmap => true
  | _ => false
  end.

Inductive event :=
| Fires (h : nat)
| SetSpeed (speed_index : jsval)
| MouseDown (relx width : num) | MouseUp | MouseOut | MouseMove (relx width : num) | TouchMove (relx width : num)
| StreamEvent (monId : Z) (ev : EventStream.event)
| StreamReply (monId : Z) (r : option EventStream.reply) (key : option string) (progress : jsval)
| GotEvents (r : events_reply)
| GotFrames (ds : list frame_data)
| ImageDone (monId : Z) (success : bool)
| ChangeFilters (c : changed) (dates : option (num * num))
| Resize (monId : Z) (width : num)
| Redraw
| SetLive (value : bool).

Definition fire (e : env) (h : nat) (s : state) : option state :=
  match timers s !! h with
  | Some TTick => timerFire depth e s
  | Some TSync => Some (syncEventStreamsToTime (currentTimeSecs s) (drop_timer (Some h) s))
  | Some TWait => wait_for_events e s
  | None => Some s
  end.

Definition step (s : state) (p : env * event) : option state :=
  let '(e, ev) := p in
  match ev with
  | Fires h => fire e h s
  | SetSpeed i => setSpeed e i s
  | MouseDown x w => Some (mdown e x w s)
  | MouseUp => Some (mup s)
  | MouseOut => Some (mout s)
  | MouseMove x w => Some (mmove e x w s)
  | TouchMove x w => Some (tmove e x w s)
  | StreamEvent m ev => Some (if unheard ev then on_stream m (fun es => EventStream.step (stream cfg m) es ev) s else s)
  | StreamReply m r k p => Some (stream_reply e m r k p s)
  | GotEvents r => Some (s <| store_ := receive_events r (store_ s) |>)
  | GotFrames ds => match receive_frames ds (store_ s) with Some st => Some (s <| store_ := st |>) | None => Some s end
  | ImageDone m b => Some (imagedone e m b s)
  | ChangeFilters c d => changeFilters e c d s
  | Resize m w => Some (s <| canvasWidth := <[m := w]> (canvasWidth s) |>)
  | Redraw => redrawScreen e s
  | SetLive b => Some (setLive b s)
  end.

Fixpoint run (s : state) (es : list (env * event)) : option state :=
  match es with
  | [] => Some s
  | p :: es => match step s p with Some s => run s es | None => None end
  end.

(** The page as its script leaves it before initPage, for a replay from [mn] to
    [mx]; initPage makes the streams and goes on to [init]. *)
Definition created (index : jsval) (interval mn mx width : num) (rl : string) : state :=
  let es := fun m => EventStream.create (VNum (Fin 100)) rl in
  State (Store [] ∅ ∅ []) false (speed_at index) index mn mn mx (mx - mn + Fin 1)%num interval NaN None None (Fin 0)
    (fold_left (fun g m => <[m := es m]> g) (monitorPtr cfg) ∅) true false false ∅ ∅ (Fin 0) width [] ∅ ∅ ∅ ∅ ∅
    rl ∅ 1 [].

Definition init (e : env) (s : state) : option state :=
  match setSpeed e (speedIndex s) s with
  | Some s => match wait_for_events e (emit RequestEvents s) with Some s => redrawScreen e s | None => None end
  | None => None
  end.
End Page.

(** ** What a step leaves alone *)

(** The clock, the timers and the mode of the page are the same. *)
Record untouched (s s' : state) : Prop := {
  ut_timers : timers s' = timers s; ut_timerObj : timerObj s' = timerObj s;
  ut_wait : wait_for_events_interval s' = wait_for_events_interval s; ut_next : next s' = next s;
  ut_interval : currentDisplayInterval s' = currentDisplayInterval s;
  ut_free : freeTimeLastIntervals s' = freeTimeLastIntervals s;
  ut_last : lastTimerFireMs s' = lastTimerFireMs s;
  ut_min : minTimeSecs s' = minTimeSecs s; ut_max : maxTimeSecs s' = maxTimeSecs s;
  ut_range : rangeTimeSecs s' = rangeTimeSecs s;
  ut_time : currentTimeSecs s' = currentTimeSecs s;
  ut_live : liveMode s' = liveMode s; ut_speed : currentSpeed s' = currentSpeed s; ut_index : speedIndex s' = speedIndex s;
  ut_active : eventStreamsActive s' = eventStreamsActive s; ut_scrub : isScrubbing s' = isScrubbing s;
}.

#[export] Instance untouched_preorder : PreOrder untouched.
Proof.
  split.
  - intros s. split; reflexivity.
  - intros s t u [] []. split; congruence.
Qed.

Lemma fold_untouched (f : state -> Z -> state) (ms : list Z) s :
  (forall s m, untouched s (f s m)) -> untouched s (fold_left f ms s).
Proof.
  intros H. revert s. induction ms as [|m ms IH]; intros s; cbn; [reflexivity|]. etransitivity; [apply H|apply IH].
Qed.

(** Closes a goal about a chain of updates of other fields. *)
Ltac untouched_updates := repeat case_match; (reflexivity || (split; reflexivity)).

Lemma follow_untouched cfg e t s m : untouched s (follow cfg e t s m).
Proof. unfold follow. untouched_updates. Qed.
Lemma load_untouched cfg e m u s : untouched s (loadImage2Monitor cfg e m u s).
Proof. unfold loadImage2Monitor. untouched_updates. Qed.
Lemma source_untouched cfg e m t s : untouched s (getImageSource cfg e m t s).1.
Proof.
  unfold getImageSource. destruct (liveMode s); [reflexivity|]. destruct (getFrame _ _ _ _ _) as [st [f|]]; [|split; reflexivity].
  untouched_updates.
Qed.
Lemma show_frame_untouched cfg e t s m : untouched s (show_frame cfg e t s m).
Proof.
  unfold show_frame. pose proof (source_untouched cfg e m t s) as H. destruct (getImageSource _ _ _ _ _) as [s1 src].
  etransitivity; [exact H|apply load_untouched].
Qed.
Lemma slider_untouched cfg e v s : untouched s (drawSliderOnGraph cfg e v s).
Proof. unfold drawSliderOnGraph. untouched_updates. Qed.
Lemma sync_untouched cfg t s : untouched s (syncEventStreamsToTime cfg t s).
Proof. apply fold_untouched. intros s' m. unfold sync_one. untouched_updates. Qed.
Lemma stop_untouched cfg s : untouched s (stop_streams cfg s).
Proof. apply fold_untouched. intros s' m. unfold stop_one. untouched_updates. Qed.
Lemma rate_untouched cfg ms s : untouched s (fold_left (rate_one cfg) ms s).
Proof. apply fold_untouched. intros s' m. unfold rate_one. untouched_updates. Qed.
Lemma when_untouched f ms s : untouched s (fold_left (when_running f) ms s).
Proof. apply fold_untouched. intros s' m. unfold when_running. untouched_updates. Qed.
Lemma scale_untouched cfg s : untouched s (updateStreamScales cfg s).
Proof. apply fold_untouched. intros s' m. unfold scale_one. untouched_updates. Qed.

Lemma update_untouched cfg e s : untouched s (outputUpdate cfg e (currentTimeSecs s) s).
Proof.
  unfold outputUpdate. set (s1 := if streaming s then _ else _).
  assert (H : untouched s s1).
  { subst s1. destruct (streaming s); [apply fold_untouched; intros; apply follow_untouched|].
    destruct (any_events s); [apply fold_untouched; intros; apply show_frame_untouched|reflexivity]. }
  etransitivity; [|apply slider_untouched]. destruct H. split; try assumption. reflexivity.
Qed.

(** ** The nesting of timerFire and setSpeed *)

(** The state of the page when the clock is about to move. *)
Definition ticked (e : env) (s : state) : state := reschedule s <| lastTimerFireMs := num_of_Z (now e) |>.

Lemma timerFire_unfold cfg fuel e s :
  timerFire cfg (S fuel) e s =
  option_map (redisplay cfg e) (moved cfg (timerFire cfg fuel e) e (play_secs e (reschedule s)) (ticked e s)).
Proof. reflexivity. Qed.

Lemma moved_total cfg fire e p s :
  (js_truthy (speedIndex s) = true -> is_Some (fire (change_speed cfg e (VNum (Fin 0)) s))) -> is_Some (moved cfg fire e p s).
Proof.
  intros H. unfold moved. destruct (liveMode s); [eexists; reflexivity|]. destruct (_ <=? _)%num.
  - destruct (js_truthy (speedIndex s)); [apply H; reflexivity|eexists; reflexivity].
  - destruct (_ || _); eexists; reflexivity.
Qed.

Lemma option_map_some {A B} (f : A -> B) (o : option A) : is_Some o -> is_Some (option_map f o).
Proof. intros [x ->]. eexists. reflexivity. Qed.

Lemma timerFire_stopped cfg fuel e s : js_truthy (speedIndex s) = false -> is_Some (timerFire cfg (S fuel) e s).
Proof.
  intros H. rewrite timerFire_unfold. apply option_map_some, moved_total.
  assert (E : speedIndex (ticked e s) = speedIndex s) by (unfold ticked, reschedule; destruct (_ || _); reflexivity).
  rewrite E, H. discriminate.
Qed.

Lemma change_speed_index cfg e i s : speedIndex (change_speed cfg e i s) = i.
Proof.
  unfold change_speed. set (t := emit _ _). assert (E : speedIndex t = i) by reflexivity. clearbody t.
  destruct (eventStreamsActive t); [|exact E]. destruct (_ <=? _)%num.
  - cbn [add_timer fst]. change (speedIndex (?x <| timers := ?a |> <| next := ?b |>)) with (speedIndex x).
    rewrite (ut_index _ _ (rate_untouched cfg _ t)). exact E.
  - rewrite (ut_index _ _ (stop_untouched cfg t)). exact E.
Qed.

Lemma timerFire_total cfg e s : is_Some (timerFire cfg depth e s).
Proof.
  unfold depth. rewrite timerFire_unfold. apply option_map_some, moved_total. intros _.
  apply timerFire_stopped. rewrite change_speed_index. reflexivity.
Qed.

Lemma wait_total cfg e s : is_Some (wait_for_events cfg e s).
Proof.
  unfold wait_for_events. destruct (any_events s); cbn [negb]; [apply timerFire_total|].
  destruct (wait_for_events_interval s); eexists; reflexivity.
Qed.

Lemma review_step_total cfg s p : is_Some (step cfg s p).
Proof.
  destruct p as [e ev]. destruct ev; cbn [step]; try (eexists; reflexivity).
  - unfold fire. destruct (timers s !! h) as [[| |]|]; try (eexists; reflexivity); [apply timerFire_total|apply wait_total].
  - unfold setSpeed. destruct (liveMode s); [eexists; reflexivity|apply timerFire_total].
  - destruct (receive_frames ds (store_ s)); eexists; reflexivity.
  - unfold changeFilters. destruct dates as [[mn mx]|]; [|eexists; reflexivity].
    destruct (limit_dates cfg c mn mx) as [mn' mx']. apply wait_total.
  - unfold redrawScreen. apply timerFire_total.
Qed.

(** Whatever the user does and the server answers, every handler of the review
    returns: timerFire and setSpeed, which call each other at the end of the
    window, nest at most once. *)
Theorem review_total (cfg : config) (s : state) (es : list (env * event)) : is_Some (run cfg s es).
Proof.
  revert s. induction es as [|p es IH]; intros s; cbn [run]; [eexists; reflexivity|].
  destruct (review_step_total cfg s p) as [s' ->]. apply IH.
Qed.

(** ** The streams follow the time *)

Definition streams_ok (s : state) : Prop := forall m es, eventStreams s !! m = Some es -> EventStream.inv es.

Lemma on_stream_same m f s es : eventStreams s !! m = Some es -> eventStreams (on_stream m f s) !! m = Some (f es).
Proof.
  intros H. unfold on_stream. change (eventStreams (s <| eventStreams := ?g |>)) with g.
  rewrite lookup_alter_eq, H. reflexivity.
Qed.

Lemma on_stream_other m f s m' : m' <> m -> eventStreams (on_stream m f s) !! m' = eventStreams s !! m'.
Proof.
  intros H. unfold on_stream. change (eventStreams (s <| eventStreams := ?g |>)) with g. apply lookup_alter_ne. congruence.
Qed.

(** What one turn of outputUpdate's loop keeps of the page, besides [untouched]. *)
Lemma follow_keeps cfg e t s m m' : m' <> m ->
  store_ (follow cfg e t s m) = store_ s /\ eventStreams (follow cfg e t s m) !! m' = eventStreams s !! m'.
Proof.
  intros H. unfold follow. repeat case_match; (split; [reflexivity|]);
    change (eventStreams (emit ?x ?y)) with (eventStreams y); rewrite ?on_stream_other by exact H; reflexivity.
Qed.

Lemma follow_store cfg e t s m : store_ (follow cfg e t s m) = store_ s.
Proof. apply (follow_keeps cfg e t s m (m + 1)). lia. Qed.

Lemma current_event_same s s' m t : store_ s' = store_ s -> maxTimeSecs s' = maxTimeSecs s ->
  current_event s' m t = current_event s m t.
Proof. intros H1 H2. unfold current_event. rewrite H1, H2. reflexivity. Qed.

Lemma num_of_Z_eq z : (num_of_Z z =? num_of_Z z)%num = true.
Proof. unfold neqb. rewrite andb_diag. apply nle_refl, rnd_not_NaN. Qed.

Lemma id_val_eq z : loose_eq (id_val z) (num_of_Z z) = true.
Proof. apply num_of_Z_eq. Qed.

(** What the stream of a monitor is after the loop. *)
Record followed (ev : option zm_event) (es es' : EventStream.state) : Prop := {
  fw_inv : EventStream.inv es';
  fw_event : forall v, ev = Some v ->
    EventStream.live_ok es' /\ loose_eq (EventStream.currentEventId es') (num_of_Z (Id v)) = true;
  fw_none : ev = None -> EventStream.started es' = false;
  fw_same : forall v, ev = Some v -> EventStream.started es = true ->
    loose_eq (EventStream.currentEventId es) (num_of_Z (Id v)) = true -> es' = es;
}.

Lemma live_of_started es : EventStream.inv es -> EventStream.started es = true -> EventStream.live_ok es.
Proof. intros I S. destruct (EventStream.inv_state es I) as [L|L]; [exact L|]. destruct L. congruence. Qed.

Lemma stop_idle cfg es : EventStream.inv es ->
  EventStream.inv (EventStream.stop cfg es) /\ EventStream.started (EventStream.stop cfg es) = false.
Proof.
  intros I. split; [apply (EventStream.stop_step cfg es I)|].
  destruct (EventStream.started es) eqn:S.
  - rewrite EventStream.stop_started by exact S.
    apply EventStream.settle_ok; [apply EventStream.inv_teardown, EventStream.inv_clear_recovery, I|apply EventStream.idle_teardown].
  - unfold EventStream.stop. pose proof (EventStream.clear_recovery_keeps es) as (_ & E & _). rewrite E, S. cbn [negb]. congruence.
Qed.

Lemma follow_stream cfg e t s m es : eventStreams s !! m = Some es -> EventStream.inv es -> isScrubbing s = false ->
  exists es', eventStreams (follow cfg e t s m) !! m = Some es' /\ followed (current_event s m t) es es'.
Proof.
  intros H I Sc. unfold follow. rewrite H. destruct (current_event s m t) as [ev|] eqn:Ev.
  - destruct (EventStream.started es) eqn:St; cbn [negb].
    + destruct (loose_eq (EventStream.currentEventId es) (num_of_Z (Id ev))) eqn:Eq; cbn [negb].
      * rewrite Sc. exists es. split; [exact H|]. split; [exact I| |discriminate|reflexivity].
        intros v [= <-]. split; [apply live_of_started; assumption|exact Eq].
      * eexists. split; [apply on_stream_same, H|]. unfold EventStream.switchEvent.
        match goal with |- context [EventStream.start _ _ _ _ ?x] => set (es1 := x) end.
        assert (I1 : EventStream.inv es1) by apply (EventStream.reset_backoff _ (EventStream.inv_clear_recovery es I)).
        destruct (EventStream.start_ok (stream cfg m) (random e m) (id_val (Id ev)) (play_options (currentSpeed s) t) es1 I1)
          as (I2 & L & W & _).
        split; [exact I2| |discriminate|intros v [= <-] _; congruence].
        intros v [= <-]. split; [exact L|]. rewrite (EventStream.sw_event _ _ _ _ _ W). apply id_val_eq.
    + eexists. split; [apply on_stream_same, H|].
      destruct (EventStream.start_ok (stream cfg m) (random e m) (id_val (Id ev)) (play_options (currentSpeed s) t) es I)
        as (I2 & L & W & _).
      split; [exact I2| |discriminate|intros v _; congruence].
      intros v [= <-]. split; [exact L|]. rewrite (EventStream.sw_event _ _ _ _ _ W). apply id_val_eq.
  - destruct (EventStream.started es) eqn:St.
    + exists (EventStream.stop (stream cfg m) es). split; [apply (on_stream_same m _ s es H)|].
      destruct (stop_idle (stream cfg m) es I) as [I2 N]. split; [exact I2|discriminate|intros _; exact N|discriminate].
    + exists es. split; [exact H|]. split; [exact I|discriminate|intros _; exact St|discriminate].
Qed.

Lemma follow_all cfg e t ms : forall s m es, NoDup ms -> m ∈ ms -> eventStreams s !! m = Some es -> EventStream.inv es ->
  isScrubbing s = false ->
  exists es', eventStreams (fold_left (follow cfg e t) ms s) !! m = Some es' /\ followed (current_event s m t) es es'.
Proof.
  assert (Other : forall ms s m, m ∉ ms -> eventStreams (fold_left (follow cfg e t) ms s) !! m = eventStreams s !! m).
  { clear ms. intros l. induction l as [|m' l IH]; intros s m N; [reflexivity|]. cbn. apply not_elem_of_cons in N as [N1 N2].
    rewrite IH by exact N2. apply (follow_keeps cfg e t s m' m N1). }
  induction ms as [|m' ms IH]; intros s m es N Hm H I Sc; [apply elem_of_nil in Hm as []|].
  inversion_clear N as [|? ? N1 N2]. cbn. apply elem_of_cons in Hm as [->|Hm].
  - destruct (follow_stream cfg e t s m' es H I Sc) as (es' & H' & F). exists es'. rewrite Other by exact N1. auto.
  - assert (Ne : m <> m') by (intros ->; contradiction).
    destruct (follow_keeps cfg e t s m' m Ne) as [K1 K2]. pose proof (follow_untouched cfg e t s m') as U.
    destruct (IH (follow cfg e t s m') m es N2 Hm) as (es' & H' & F); [congruence|exact I|rewrite (ut_scrub _ _ U); exact Sc|].
    exists es'. split; [exact H'|]. rewrite (current_event_same s) in F; [exact F|exact K1|apply (ut_max _ _ U)].
Qed.

(** C1: while streams play, every display of a moment leaves the stream of each
    monitor on the event the timeline has there: connected to exactly that event
    if there is one, and untouched when it was on it already; stopped where the
    monitor has no event. *)
Theorem streams_follow_timeline (cfg : config) (e : env) (t : num) (s : state) (m : Z) (es : EventStream.state) :
  streaming s = true -> isScrubbing s = false -> NoDup (monitorPtr cfg) -> m ∈ monitorPtr cfg ->
  eventStreams s !! m = Some es -> EventStream.inv es ->
  exists es', eventStreams (outputUpdate cfg e t s) !! m = Some es' /\ followed (current_event s m t) es es'.
Proof.
  intros St Sc N Hm H I. unfold outputUpdate. rewrite St.
  destruct (follow_all cfg e t (monitorPtr cfg) s m es N Hm H I Sc) as (es' & H' & F). exists es'. split; [|exact F].
  unfold drawSliderOnGraph. repeat case_match; exact H'.
Qed.

(** ** Failing streams *)

(** The connections a stream has opened. *)
Definition opens (es : EventStream.state) : nat := tally EventStream.is_open (EventStream.out es).

Lemma follow_restarts cfg e t s m es ev : eventStreams s !! m = Some es -> EventStream.inv es ->
  current_event s m t = Some ev -> EventStream.started es = false ->
  exists es', eventStreams (follow cfg e t s m) !! m = Some es' /\ opens es' = S (opens es) /\
    EventStream.consecutiveErrors es' = EventStream.consecutiveErrors es.
Proof.
  intros H I Ev St. unfold follow. rewrite H, Ev, St. cbn [negb]. eexists. split; [apply on_stream_same, H|].
  destruct (EventStream.start_ok (stream cfg m) (random e m) (id_val (Id ev)) (play_options (currentSpeed s) t) es I)
    as (_ & _ & W & src & O & _).
  split; [|apply W]. unfold opens. rewrite O. unfold EventStream.quit_request. rewrite St. rewrite !tally_app. cbn. lia.
Qed.

Lemma fold_follow_other cfg e t ms s m : m ∉ ms ->
  eventStreams (fold_left (follow cfg e t) ms s) !! m = eventStreams s !! m.
Proof.
  revert s. induction ms as [|m' ms IH]; intros s N; [reflexivity|]. cbn. apply not_elem_of_cons in N as [N1 N2].
  rewrite IH by exact N2. apply (follow_keeps cfg e t s m' m N1).
Qed.

Lemma fold_restarts cfg e t ms : forall s m es ev, NoDup ms -> m ∈ ms -> eventStreams s !! m = Some es -> EventStream.inv es ->
  current_event s m t = Some ev -> EventStream.started es = false ->
  exists es', eventStreams (fold_left (follow cfg e t) ms s) !! m = Some es' /\ opens es' = S (opens es) /\
    EventStream.consecutiveErrors es' = EventStream.consecutiveErrors es.
Proof.
  induction ms as [|m' ms IH]; intros s m es ev N Hm H I Ev St; [apply elem_of_nil in Hm as []|].
  inversion_clear N as [|? ? N1 N2]. cbn. apply elem_of_cons in Hm as [->|Hm].
  - rewrite fold_follow_other by exact N1. apply (follow_restarts cfg e t s m' es ev); assumption.
  - assert (Ne : m <> m') by (intros ->; contradiction).
    destruct (follow_keeps cfg e t s m' m Ne) as [K1 K2]. pose proof (follow_untouched cfg e t s m') as U.
    apply (IH _ m es ev); try assumption; [congruence|]. rewrite (current_event_same s); [exact Ev|exact K1|apply U].
Qed.

(** The img of a monitor's stream fails, and the review displays the moment again. *)
Definition fail_and_display (cfg : config) (e : env) (t : num) (m : Z) (s : state) : state :=
  outputUpdate cfg e t (on_stream m (fun es => EventStream.step (stream cfg m) es EventStream.ImgError) s).

(** A page that streams, with the stream of [m] live and on its event. *)
Record playing (cfg : config) (t : num) (m : Z) (s : state) (es : EventStream.state) : Prop := {
  pl_streaming : streaming s = true; pl_scrub : isScrubbing s = false;
  pl_stream : eventStreams s !! m = Some es; pl_inv : EventStream.inv es; pl_live : EventStream.live_ok es;
  pl_event : is_Some (current_event s m t);
}.

Lemma update_store cfg e t s : streaming s = true -> store_ (outputUpdate cfg e t s) = store_ s.
Proof.
  intros St. unfold outputUpdate. rewrite St.
  assert (E : store_ (fold_left (follow cfg e t) (monitorPtr cfg) s) = store_ s).
  { generalize s. induction (monitorPtr cfg) as [|m ms IH]; intros u; [reflexivity|]. cbn. rewrite IH. apply follow_store. }
  unfold drawSliderOnGraph. repeat case_match; exact E.
Qed.

Lemma update_fields cfg e t s : untouched s (outputUpdate cfg e t s <| currentTimeSecs := currentTimeSecs s |>).
Proof.
  unfold outputUpdate. set (s1 := if streaming s then _ else _).
  assert (H : untouched s s1).
  { subst s1. destruct (streaming s); [apply fold_untouched; intros; apply follow_untouched|].
    destruct (any_events s); [apply fold_untouched; intros; apply show_frame_untouched|reflexivity]. }
  pose proof (slider_untouched cfg e t (s1 <| currentTimeSecs := t |>)) as D.
  destruct H, D. split; try reflexivity; etransitivity; eassumption.
Qed.

Lemma fail_and_display_ok cfg e t m s es : NoDup (monitorPtr cfg) -> m ∈ monitorPtr cfg -> playing cfg t m s es ->
  exists es', playing cfg t m (fail_and_display cfg e t m s) es' /\ opens es' = S (opens es) /\
    EventStream.consecutiveErrors es' = EventStream.consecutiveErrors es + 1.
Proof.
  intros N Hm [St Sc H I L [ev Ev]]. unfold fail_and_display. set (u := on_stream m _ s).
  destruct (EventStream.img_error_live (stream cfg m) es I L) as (I1 & D1 & E1 & O1). cbv zeta in *.
  set (es1 := EventStream.step (stream cfg m) es EventStream.ImgError) in *.
  assert (Hu : eventStreams u !! m = Some es1) by exact (on_stream_same m (fun es => EventStream.step (stream cfg m) es EventStream.ImgError) s es H).
  assert (Stu : streaming u = true) by exact St. assert (Scu : isScrubbing u = false) by exact Sc.
  assert (Evu : current_event u m t = Some ev) by exact Ev.
  destruct (streams_follow_timeline cfg e t u m es1 Stu Scu N Hm Hu I1) as (es2 & H2 & F).
  pose proof (update_store cfg e t u Stu) as Es. pose proof (update_fields cfg e t u) as U. rewrite Evu in F.
  destruct (fw_event _ _ _ F ev eq_refl) as [L2 _].
  assert (X : opens es2 = S (opens es1) /\ EventStream.consecutiveErrors es2 = EventStream.consecutiveErrors es1).
  { destruct (fold_restarts cfg e t (monitorPtr cfg) u m es1 ev N Hm Hu I1 Evu (EventStream.io_started _ D1)) as (es3 & H3 & A & B).
    replace es2 with es3; [auto|]. unfold outputUpdate in H2. rewrite Stu in H2.
    assert (Some es2 = Some es3); [|congruence]. rewrite <- H2, <- H3. unfold drawSliderOnGraph. repeat case_match; reflexivity. }
  destruct X as [X1 X2]. exists es2. split; [|split; [unfold opens in *; congruence|congruence]].
  split.
  - unfold streaming, any_events in *. rewrite Es. pose proof (ut_active _ _ U) as A1. pose proof (ut_speed _ _ U) as A2.
    change (eventStreamsActive (?x <| currentTimeSecs := ?y |>)) with (eventStreamsActive x) in A1.
    change (currentSpeed (?x <| currentTimeSecs := ?y |>)) with (currentSpeed x) in A2. rewrite A1, A2. exact Stu.
  - pose proof (ut_scrub _ _ U) as A1.
    change (isScrubbing (?x <| currentTimeSecs := ?y |>)) with (isScrubbing x) in A1. congruence.
  - exact H2.
  - apply F.
  - exact L2.
  - exists ev. rewrite (current_event_same u); [exact Evu|exact Es|]. apply (ut_max _ _ U).
Qed.

(** The review takes away the limits its streams set themselves: while it
    streams, a stream whose img fails again and again is connected again by the
    very next display every time, without waiting for its restart and beyond the
    five attempts after which it had given up. *)
Theorem retries_unbounded (cfg : config) (e : env) (t : num) (m : Z) (s : state) (es : EventStream.state) (n : nat) :
  NoDup (monitorPtr cfg) -> m ∈ monitorPtr cfg -> playing cfg t m s es ->
  exists es', playing cfg t m (Nat.iter n (fail_and_display cfg e t m) s) es' /\
    opens es' = (opens es + n)%nat /\
    EventStream.consecutiveErrors es' = EventStream.consecutiveErrors es + Z.of_nat n.
Proof.
  intros N Hm P. induction n as [|n IH]; cbn [Nat.iter nat_rect].
  - exists es. split; [exact P|]. split; lia.
  - destruct IH as (es1 & P1 & O1 & E1).
    destruct (fail_and_display_ok cfg e t m _ es1 N Hm P1) as (es2 & P2 & O2 & E2).
    exists es2. split; [exact P2|]. split; lia.
Qed.

(** A stream waiting for its restart, on a page that is not live. *)
Definition waits (m : Z) (es : EventStream.state) (s : state) : Prop :=
  eventStreams s !! m = Some es /\ nlt (currentSpeed s) (Fin 1).

Lemma show_frame_streams cfg e t s m : eventStreams (show_frame cfg e t s m) = eventStreams s.
Proof.
  unfold show_frame. assert (E : eventStreams (getImageSource cfg e m t s).1 = eventStreams s).
  { unfold getImageSource. destruct (liveMode s); [reflexivity|]. destruct (getFrame _ _ _ _ _) as [st [f|]]; [|reflexivity].
    repeat case_match; reflexivity. }
  destruct (getImageSource _ _ _ _ _) as [s1 src]. cbn [fst] in E. rewrite <- E. unfold loadImage2Monitor.
  repeat case_match; reflexivity.
Qed.

Lemma slow_update cfg e t s : nlt (currentSpeed s) (Fin 1) -> eventStreams (outputUpdate cfg e t s) = eventStreams s.
Proof.
  intros L. unfold outputUpdate, streaming.
  assert (E : (Fin 1 <=? currentSpeed s)%num = false) by (apply not_true_iff_false; apply nlt_not_le, L).
  rewrite E, andb_false_r. cbn [andb].
  assert (F : eventStreams (if any_events s then fold_left (show_frame cfg e t) (monitorPtr cfg) s else s) = eventStreams s).
  { destruct (any_events s); [|reflexivity]. generalize s. induction (monitorPtr cfg) as [|m ms IH]; intros u; [reflexivity|].
    cbn. rewrite IH. apply show_frame_streams. }
  unfold drawSliderOnGraph. repeat case_match; exact F.
Qed.

Lemma waits_redisplay cfg e m es s : waits m es s -> waits m es (redisplay cfg e s).
Proof.
  intros [H L]. unfold redisplay. set (u := outputUpdate _ _ _ _).
  assert (W : waits m es u).
  { split; [subst u; rewrite slow_update by exact L; exact H|].
    pose proof (ut_speed _ _ (update_untouched cfg e s)) as E. fold u in E. rewrite E. exact L. }
  unfold keep_ticking. destruct (_ && _); exact W.
Qed.

Lemma waits_stop cfg m es s : EventStream.started es = false -> waits m es s -> waits m es (stop_streams cfg s).
Proof.
  intros St [H L]. split; [|rewrite (ut_speed _ _ (stop_untouched cfg s)); exact L].
  unfold stop_streams. revert s H L. induction (monitorPtr cfg) as [|m' ms IH]; intros s H L; [exact H|]. cbn.
  assert (E : eventStreams (stop_one cfg s m') !! m = Some es).
  { unfold stop_one, running. destruct (eventStreams s !! m') as [es'|] eqn:E; [|exact H].
    destruct (EventStream.started es') eqn:S; [|exact H].
    rewrite on_stream_other; [exact H|]. intros ->. congruence. }
  apply IH; [exact E|]. unfold stop_one. destruct (running s m'); exact L.
Qed.

Lemma waits_change_speed cfg e i m es s : EventStream.started es = false -> eventStreams s !! m = Some es ->
  nlt (speed_at cfg i) (Fin 1) -> waits m es (change_speed cfg e i s).
Proof.
  intros St H L. unfold change_speed. cbv zeta. set (u := emit _ _).
  assert (W : waits m es u) by (split; [exact H|exact L]).
  assert (E : (Fin 1 <=? currentSpeed u)%num = false) by (apply not_true_iff_false; apply nlt_not_le, L).
  rewrite E. destruct (eventStreamsActive u); [apply waits_stop; assumption|exact W].
Qed.

Lemma waits_timerFire cfg e m es fuel : EventStream.started es = false -> nlt (speed_at cfg (VNum (Fin 0))) (Fin 1) ->
  forall s s', waits m es s -> timerFire cfg fuel e s = Some s' -> waits m es s'.
Proof.
  intros St L0. induction fuel as [|fuel IH]; intros s s' W; [discriminate|]. rewrite timerFire_unfold.
  assert (W1 : waits m es (ticked e s)) by (unfold ticked, reschedule; destruct (_ || _); exact W).
  destruct (moved cfg _ _ _ _) as [u|] eqn:E; [|discriminate]. intros [= <-]. apply waits_redisplay.
  unfold moved in E. destruct (liveMode _); [injection E as <-; exact W1|]. destruct (_ <=? _)%num.
  - destruct (js_truthy _); [|injection E as <-; exact W1]. apply (IH _ _ (waits_change_speed cfg e _ m es _ St (proj1 W1) L0) E).
  - destruct (_ || _); injection E as <-; exact W1.
Qed.

(** Slowing down or stopping the playback leaves a stream alone that is
    waiting for its restart, as only running streams are stopped: the restart
    stays pending, and when it fires the stream plays again, over the pictures
    that the slow page loads one by one. *)
Theorem slow_leaves_restart (cfg : config) (e : env) (i : jsval) (s : state) (m : Z) (es : EventStream.state)
    (h : nat) (eventId : jsval) (opts : EventStream.options) :
  liveMode s = false -> nlt (speed_at cfg i) (Fin 1) -> nlt (speed_at cfg (VNum (Fin 0))) (Fin 1) ->
  eventStreams s !! m = Some es -> EventStream.inv es -> EventStream.started es = false ->
  EventStream.recoveryTimer es = Some h -> EventStream.timers es !! h = Some (EventStream.TRecover eventId opts) ->
  exists s', setSpeed cfg e i s = Some s' /\ eventStreams s' !! m = Some es /\ nlt (currentSpeed s') (Fin 1) /\
    forall e' r c n, exists s'' es', step cfg s' (e', StreamEvent m (EventStream.Fire h r c n)) = Some s'' /\
      nlt (currentSpeed s'') (Fin 1) /\ eventStreams s'' !! m = Some es' /\ EventStream.live_ok es'.
Proof.
  intros Li L L0 H I St Hr Ht. unfold setSpeed. rewrite Li.
  destruct (timerFire_total cfg e (change_speed cfg e i s)) as [s' E].
  destruct (waits_timerFire cfg e m es depth St L0 _ _ (waits_change_speed cfg e i m es s St H L) E) as [W1 W2].
  exists s'. split; [exact E|]. split; [exact W1|]. split; [exact W2|]. intros e' r c n.
  exists (on_stream m (fun es => EventStream.step (stream cfg m) es (EventStream.Fire h r c n)) s').
  exists (EventStream.step (stream cfg m) es (EventStream.Fire h r c n)).
  split; [reflexivity|]. split; [exact W2|]. split; [apply (on_stream_same m (fun es => EventStream.step (stream cfg m) es (EventStream.Fire h r c n))), W1|].
  apply (EventStream.recovery_fire_live (stream cfg m) r c n es h eventId opts I St Hr Ht).
Qed.

(** ** The display timer *)

(** How often the page displays: between 40 and 10000 ms, with fewer evaluations
    noted than the next change of pace takes. *)
Definition paced (interval : num) (frees : list num) : Prop :=
  nle (Fin 40) interval /\ nle interval (Fin 10000) /\ (List.length frees < imageLoadTimesNeeded)%nat.

(** A handle that ticks, or waits for events, is the one the page knows. *)
Record one_timer (s : state) : Prop := {
  ot_tick : forall h, timers s !! h = Some TTick -> timerObj s = Some h;
  ot_wait : forall h, timers s !! h = Some TWait -> wait_for_events_interval s = Some h;
  ot_pace : paced (currentDisplayInterval s) (freeTimeLastIntervals s);
}.

Lemma one_timer_untouched s s' : untouched s s' -> one_timer s -> one_timer s'.
Proof.
  intros [U1 U2 U3 _ U5 U6 _ _ _ _ _ _ _ _ _ _] [T W P].
  split; [intros h H; rewrite U1 in H; rewrite U2; auto|intros h H; rewrite U1 in H; rewrite U3; auto|rewrite U5, U6; exact P].
Qed.

Lemma review_drop_lookup h t h' x : drop h t !! h' = Some x -> h <> Some h' /\ t !! h' = Some x.
Proof. destruct h as [h|]; cbn; [rewrite lookup_delete_Some|]; naive_solver. Qed.

Lemma add_timer_lookup x s h y : timers (add_timer x s).1 !! h = Some y -> h = next s /\ y = x \/ timers s !! h = Some y.
Proof.
  change (timers (add_timer x s).1) with (<[next s := x]> (timers s)). intros H.
  apply lookup_insert_Some in H as [[E H]|[_ H]]; [left; split; congruence|right; exact H].
Qed.

Lemma one_timer_drop_tick s : one_timer s -> one_timer (drop_timer (timerObj s) s <| timerObj := None |>).
Proof.
  intros [T W P]. split; [| |exact P]; intros h H; apply review_drop_lookup in H as [N H].
  - contradiction (N (T h H)).
  - exact (W h H).
Qed.

Lemma one_timer_drop_wait s : one_timer s ->
  one_timer (drop_timer (wait_for_events_interval s) s <| wait_for_events_interval := None |>).
Proof.
  intros [T W P]. split; [| |exact P]; intros h H; apply review_drop_lookup in H as [N H].
  - exact (T h H).
  - contradiction (N (W h H)).
Qed.

Lemma one_timer_drop h s : one_timer s -> one_timer (drop_timer h s).
Proof. intros [T W P]. split; [| |exact P]; intros h' H; apply review_drop_lookup in H as [_ H]; auto. Qed.

Lemma one_timer_add_sync s : one_timer s -> one_timer (add_timer TSync s).1.
Proof.
  intros [T W P]. split; [| |exact P]; intros h H; apply add_timer_lookup in H as [[_ H]|H]; try discriminate; auto.
Qed.

Lemma one_timer_reschedule s : one_timer s -> one_timer (reschedule s).
Proof.
  intros O. unfold reschedule. destruct (_ || _); [|exact O].
  pose proof (one_timer_drop_tick s O) as [T W P]. split; assumption.
Qed.

Lemma one_timer_keep s : one_timer s -> one_timer (keep_ticking s).
Proof.
  intros [T W P]. unfold keep_ticking. destruct (_ || _); cbn [andb]; [|split; assumption].
  case_bool_decide as N; [|split; assumption]. split; [| |exact P]; intros h H; apply (add_timer_lookup TTick) in H as [[E H]|H].
  - rewrite E. reflexivity.
  - apply T in H. congruence.
  - discriminate.
  - exact (W h H).
Qed.

Lemma one_timer_redisplay cfg e s : one_timer s -> one_timer (redisplay cfg e s).
Proof. intros O. apply one_timer_keep, (one_timer_untouched s); [apply update_untouched|exact O]. Qed.

Lemma one_timer_same s s' : timers s' = timers s -> timerObj s' = timerObj s ->
  wait_for_events_interval s' = wait_for_events_interval s -> currentDisplayInterval s' = currentDisplayInterval s ->
  freeTimeLastIntervals s' = freeTimeLastIntervals s -> one_timer s -> one_timer s'.
Proof.
  intros E1 E2 E3 E4 E5 [T W P].
  split; [intros h H; rewrite E1 in H; rewrite E2; auto|intros h H; rewrite E1 in H; rewrite E3; auto|rewrite E4, E5; exact P].
Qed.

Lemma one_timer_change cfg e i s : one_timer s -> one_timer (change_speed cfg e i s).
Proof.
  intros O. unfold change_speed. cbv zeta. set (u := emit _ _).
  assert (Ou : one_timer u) by (apply (one_timer_same s); [reflexivity..|exact O]).
  destruct (eventStreamsActive u); [|exact Ou]. destruct (_ <=? _)%num.
  - apply one_timer_add_sync, (one_timer_untouched u); [apply rate_untouched|exact Ou].
  - apply (one_timer_untouched u); [apply stop_untouched|exact Ou].
Qed.

Lemma one_timer_fire cfg e fuel : forall s s', one_timer s -> timerFire cfg fuel e s = Some s' -> one_timer s'.
Proof.
  induction fuel as [|fuel IH]; intros s s' O; [discriminate|]. rewrite timerFire_unfold.
  assert (O1 : one_timer (ticked e s)) by (apply (one_timer_same (reschedule s)); [reflexivity..|apply one_timer_reschedule, O]).
  destruct (moved cfg _ _ _ _) as [u|] eqn:E; [|discriminate]. intros [= <-]. apply one_timer_redisplay.
  unfold moved in E. destruct (liveMode _); [injection E as <-; exact O1|]. destruct (_ <=? _)%num.
  - destruct (js_truthy _); [|injection E as <-; exact O1]. apply (IH _ _ (one_timer_change cfg e _ _ O1) E).
  - destruct (_ || _); injection E as <-; [apply (one_timer_same (ticked e s)); [reflexivity..|exact O1]|exact O1].
Qed.

Lemma one_timer_wait cfg e s s' : one_timer s -> wait_for_events cfg e s = Some s' -> one_timer s'.
Proof.
  intros O. unfold wait_for_events. destruct (any_events s); cbn [negb].
  - apply one_timer_fire, one_timer_drop_wait, O.
  - destruct (wait_for_events_interval s) eqn:Ew; [intros [= <-]; exact O|]. intros [= <-]. destruct O as [T W P].
    split; [| |exact P]; intros h H; apply (add_timer_lookup TWait) in H as [[E H]|H].
    + discriminate.
    + exact (T h H).
    + rewrite E. reflexivity.
    + apply W in H. congruence.
Qed.

(** A chain of updates that are not about timers. *)
Ltac same_timers := apply one_timer_same; reflexivity.

Lemma resume_untouched cfg s : untouched s (resume cfg s).
Proof.
  unfold resume. destruct (_ && _); [|reflexivity]. etransitivity; [apply sync_untouched|apply when_untouched].
Qed.

Lemma one_timer_move cfg e x w s : one_timer s -> one_timer (mmove cfg e x w s).
Proof.
  intros O. unfold mmove. destruct (mouseisdown s); [|exact O]. destruct (ntruthy _); [|exact O].
  pose proof (update_fields cfg e (minTimeSecs s + rangeTimeSecs s / w * x)%num s) as U.
  apply (one_timer_untouched _ _ U) in O. revert O. same_timers.
Qed.

Lemma evaluate_timers cfg s : timers (evaluateLoadTimes cfg s) = timers s /\ timerObj (evaluateLoadTimes cfg s) = timerObj s /\
  wait_for_events_interval (evaluateLoadTimes cfg s) = wait_for_events_interval s.
Proof. unfold evaluateLoadTimes. cbv zeta. repeat case_match; (split; [|split]); reflexivity. Qed.

(** The factors are finite, whatever the average is. *)
Lemma multiplier_finite x : isFinite (multiplier x) = true.
Proof. unfold multiplier. repeat case_match; vm_compute; reflexivity. Qed.

Lemma nmul_ten_not_NaN a : a <> NaN -> (a * Fin 10)%num <> NaN.
Proof. destruct a as [| |q]; intros N; [congruence|discriminate|apply rnd_not_NaN]. Qed.

Lemma ndiv_ten_not_NaN a : a <> NaN -> (a / Fin 10)%num <> NaN.
Proof. destruct a as [| |q]; intros N; [congruence|discriminate|apply rnd_not_NaN]. Qed.

Lemma nround_not_NaN a : a <> NaN -> nround a <> NaN.
Proof. destruct a; [congruence|discriminate..]. Qed.

Lemma nmul_finite_not_NaN a b : isFinite a = true -> isFinite b = true -> (a * b)%num <> NaN.
Proof. destruct a, b; try discriminate. intros _ _. apply rnd_not_NaN. Qed.

Lemma new_interval_paced cdi avg : nle (Fin 40) cdi -> nle cdi (Fin 10000) ->
  let i := nmin (nmax (nround (cdi * multiplier avg * Fin 10) / Fin 10)%num (Fin 40)) (Fin 10000) in
  nle (Fin 40) i /\ nle i (Fin 10000).
Proof.
  intros L H. set (x := (nround _ / Fin 10)%num). assert (N : x <> NaN).
  { apply ndiv_ten_not_NaN, nround_not_NaN, nmul_ten_not_NaN, nmul_finite_not_NaN; [|apply multiplier_finite].
    apply (nle_between_finite _ _ _ L H); reflexivity. }
  cbv zeta. destruct (nmax_spec x (Fin 40)) as (_ & M2 & _); [exact N|discriminate|].
  destruct (nmin_spec (nmax x (Fin 40)) (Fin 10000)) as (_ & B & [E|E]);
    [apply (nle_not_NaN _ _ M2)|discriminate| |]; (split; [rewrite E|exact B]); [exact M2|reflexivity].
Qed.

Lemma evaluate_paced cfg s : paced (currentDisplayInterval s) (freeTimeLastIntervals s) ->
  paced (currentDisplayInterval (evaluateLoadTimes cfg s)) (freeTimeLastIntervals (evaluateLoadTimes cfg s)).
Proof.
  intros (P1 & P2 & P3). unfold evaluateLoadTimes. destruct (_ && _); [repeat split; assumption|].
  destruct (load_span _ _ _ _) as [[a b]|]; [|repeat split; assumption]. destruct (_ || _); [repeat split; assumption|].
  cbv zeta. set (n := List.length _).
  destruct (Nat.ltb_spec n imageLoadTimesNeeded) as [L|L].
  - repeat split; assumption.
  - destruct (new_interval_paced (currentDisplayInterval s) (fold_left nadd (freeTimeLastIntervals s ++ [Fin 1 - (b - a) / currentDisplayInterval s])%num%list (Fin 0) / num_of_Z (Z.of_nat n))%num P1 P2) as [A B].
    split; [exact A|]. split; [exact B|]. apply Nat.lt_0_succ.
Qed.

Lemma onStatus_untouched cfg e m v p s : untouched s (onStatus cfg e m v p s).
Proof.
  unfold onStatus, correct_drift. repeat case_match; (reflexivity || (split; reflexivity)).
Qed.

Lemma one_timer_step cfg s p s' : one_timer s -> step cfg s p = Some s' -> one_timer s'.
Proof.
  intros O. destruct p as [e ev]. destruct ev; cbn [step].
  - unfold fire. destruct (timers s !! h) as [[| |]|]; [apply one_timer_fire, O| |apply one_timer_wait, O|intros [= <-]; exact O].
    intros [= <-]. apply (one_timer_untouched (drop_timer (Some h) s)); [apply sync_untouched|apply one_timer_drop, O].
  - unfold setSpeed. destruct (liveMode s); [intros [= <-]; exact O|]. apply one_timer_fire, one_timer_change, O.
  - intros [= <-]. unfold mdown. apply one_timer_move. set (u := s <| mouseisdown := true |> <| isScrubbing := true |>).
    assert (Ou : one_timer u) by (revert O; same_timers). destruct (eventStreamsActive u); [|exact Ou].
    apply (one_timer_untouched u); [apply when_untouched|exact Ou].
  - intros [= <-]. unfold mup. apply (one_timer_untouched _ _ (resume_untouched cfg _)). revert O. same_timers.
  - intros [= <-]. unfold mout. destruct (isScrubbing _); [apply (one_timer_untouched _ _ (resume_untouched cfg _))|]; revert O; same_timers.
  - intros [= <-]. apply one_timer_move, O.
  - intros [= <-]. unfold tmove. apply one_timer_move. revert O. same_timers.
  - intros [= <-]. destruct (unheard ev); revert O; same_timers.
  - intros [= <-]. unfold stream_reply. destruct (eventStreams s !! monId) as [es|]; [|exact O]. cbv zeta.
    set (u := share_relay _ _). assert (Ou : one_timer u) by (revert O; same_timers).
    destruct (List.skipn _ _) as [|[| | | |] [|]]; try exact Ou. apply (one_timer_untouched u); [apply onStatus_untouched|exact Ou].
  - intros [= <-]. revert O. same_timers.
  - destruct (receive_frames ds (store_ s)); intros [= <-]; revert O; same_timers.
  - intros [= <-]. unfold imagedone. destruct success; [|revert O; same_timers].
    set (u := s <| monitorLoadEndTimems := <[monId := num_of_Z (now e)]> (monitorLoadEndTimems s) |>). destruct (evaluate_timers cfg u) as (E1 & E2 & E3).
    pose proof (evaluate_paced cfg u (ot_pace s O)) as P. destruct O as [T W _].
    split; [intros h H; change (timers (evaluateLoadTimes cfg u) !! h = Some TTick) in H; rewrite E1 in H|
            intros h H; change (timers (evaluateLoadTimes cfg u) !! h = Some TWait) in H; rewrite E1 in H|exact P].
    + change (timerObj (evaluateLoadTimes cfg u) = Some h). rewrite E2. apply T, H.
    + change (wait_for_events_interval (evaluateLoadTimes cfg u) = Some h). rewrite E3. apply W, H.
  - unfold changeFilters. destruct dates as [[mn mx]|]; [|intros [= <-]; exact O].
    destruct (limit_dates cfg c mn mx) as [a b]. cbv zeta.
    set (u := s <| minTimeSecs := a |> <| maxTimeSecs := b |> <| rangeTimeSecs := (b - a)%num |>).
    set (u1 := if _ || _ then _ else u). set (v := u1 <| store_ := clear_events (store_ u1) |>).
    assert (Ov : one_timer v) by (subst v u1 u; destruct (_ || _); revert O; same_timers).
    apply one_timer_wait. set (w := drop_timer (timerObj v) v <| timerObj := None |>).
    pose proof (one_timer_drop_tick v Ov) as Ow. fold w in Ow.
    apply (one_timer_untouched _ _ (slider_untouched cfg e (currentTimeSecs w) w)) in Ow. revert Ow. same_timers.
  - intros [= <-]. revert O. same_timers.
  - unfold redrawScreen. apply one_timer_fire. apply (one_timer_untouched _ _ (scale_untouched cfg _)).
    destruct (liveMode s); [exact O|]. apply (one_timer_untouched _ _ (slider_untouched cfg e _ s)), O.
  - intros [= <-]. unfold setLive. set (u := if eventStreamsActive s then _ else s).
    assert (Ou : one_timer u).
    { subst u. destruct (eventStreamsActive s); [|exact O].
      apply (one_timer_untouched _ _ (stop_untouched cfg s)) in O. revert O. same_timers. }
    pose proof (one_timer_drop (timerObj u) u Ou) as Od. revert Od. same_timers.
Qed.


(** ** The clock *)

(** A speed the page can have. *)
Definition speed_ok (v : num) : Prop := nle (Fin 0) v /\ isFinite v = true.

Lemma rnd_nonneg q : (0 <= q)%Q -> nle (Fin 0) (rnd q).
Proof. intros H. apply rnd_ge_wf; [exact (proj1 (wf_Z 0 ltac:(lia)))|exact (proj2 (wf_Z 0 ltac:(lia)))|exact H]. Qed.

Lemma nmul_nonneg a b : nle (Fin 0) a -> nle (Fin 0) b -> isFinite a = true -> isFinite b = true -> nle (Fin 0) (a * b)%num.
Proof.
  destruct a as [| |p], b as [| |q]; try discriminate. rewrite !nle_Fin. intros Hp Hq _ _. apply rnd_nonneg.
  apply Qmult_le_0_compat; assumption.
Qed.

Lemma ndiv_nonneg a : nle (Fin 0) a -> nle (Fin 0) (a / Fin 1000)%num.
Proof.
  destruct a as [|[]|p]; try discriminate; [intros _; reflexivity|]. rewrite nle_Fin. intros Hp. cbn [ndiv].
  change (Qeq_bool 1000 0) with false. cbv iota. apply rnd_nonneg.
  apply Qle_shift_div_l; [reflexivity|]. rewrite Qmult_0_l. exact Hp.
Qed.

Lemma elapsed_nonneg l n : 0 <= l <= n -> n <= 2 ^ 53 ->
  nle (Fin 0) (num_of_Z n - num_of_Z l)%num /\ isFinite (num_of_Z n - num_of_Z l)%num = true.
Proof.
  intros H Hn. destruct (num_of_Z_exact n) as (qn & -> & En); [lia|]. destruct (num_of_Z_exact l) as (ql & -> & El); [lia|].
  unfold nsub, nopp, nadd. assert (E : (qn + Qred (- ql) == inject_Z (n - l))%Q).
  { rewrite Qred_correct, En, El. unfold Qeq. cbn. lia. }
  destruct (wf_Z (n - l)) as [D B]; [lia|].
  assert (U : nle (rnd (qn + Qred (- ql))) (Fin (inject_Z (n - l)))) by (apply rnd_le_wf; [exact D|exact B|rewrite E; apply Qle_refl]).
  assert (L : nle (Fin 0) (rnd (qn + Qred (- ql)))).
  { apply rnd_nonneg. rewrite E. change 0%Q with (inject_Z 0). rewrite <- Zle_Qle. lia. }
  split; [exact L|]. apply (nle_between_finite _ _ _ L U); reflexivity.
Qed.

(** What is noted of the last tick is a time not after this one. *)
Definition last_ok (e : env) (s : state) : Prop := exists l, lastTimerFireMs s = num_of_Z l /\ 0 <= l <= now e /\ now e <= 2 ^ 53.

Lemma play_secs_nonneg e s : speed_ok (currentSpeed s) -> last_ok e s -> nle (Fin 0) (play_secs e s).
Proof.
  intros [S1 S2] (l & E & H1 & H2). unfold play_secs. destruct (ntruthy (lastTimerFireMs s)); [|reflexivity].
  rewrite E. destruct (elapsed_nonneg l (now e) H1 H2) as [A B]. apply ndiv_nonneg, nmul_nonneg; assumption.
Qed.

(** The clock went on, and stayed before the end if it moved. *)
Definition advances (s s' : state) : Prop :=
  nle (currentTimeSecs s) (currentTimeSecs s') /\
  (nle (currentTimeSecs s') (currentTimeSecs s) \/ nlt (currentTimeSecs s') (maxTimeSecs s)).

Record clock_ok (cfg : config) (e : env) (s : state) : Prop := {
  ck_speed : speed_ok (currentSpeed s); ck_zero : speed_ok (speed_at cfg (VNum (Fin 0)));
  ck_last : last_ok e s;
  ck_time : exists q, currentTimeSecs s = Fin q /\ JsNum.wf (Fin q);
  ck_max : maxTimeSecs s <> NaN;
}.

Lemma add_time p c m : nle (Fin 0) p -> JsNum.wf (Fin c) -> m <> NaN -> (m <=? Fin c + p)%num = false ->
  nle (Fin c) (p + Fin c)%num /\ nlt (p + Fin c)%num m.
Proof.
  intros Hp [D B] Nm. destruct p as [|[]|p]; try discriminate.
  - intros H. exfalso. assert (L : nle m (Infty false)) by (apply nle_Infty_r, Nm). unfold nle in L. cbn in *. congruence.
  - intros H. apply nleb_false in H; [|exact Nm|apply rnd_not_NaN]. cbn [nadd] in *. apply nle_Fin in Hp. split.
    + apply rnd_ge_wf; [exact D|exact B|lra].
    + apply (nle_lt_trans _ (rnd (c + p))); [apply rnd_mono; lra|exact H].
Qed.

Lemma moved_advances cfg fire e s s' :
  clock_ok cfg e s -> last_ok e s ->
  (forall u, fire (change_speed cfg e (VNum (Fin 0)) s) = Some u -> advances s u) ->
  forall p, nle (Fin 0) p -> moved cfg fire e p s = Some s' -> advances s s'.
Proof.
  intros [_ _ _ (q & Eq & W) Nm] _ Hf p Hp. unfold moved.
  assert (Stay : advances s s) by (unfold advances; rewrite Eq; split; [|left]; apply nle_refl; discriminate).
  destruct (liveMode s); [intros [= <-]; exact Stay|].
  destruct (maxTimeSecs s <=? currentTimeSecs s + p)%num eqn:E.
  - destruct (js_truthy (speedIndex s)); [apply Hf|intros [= <-]; exact Stay].
  - destruct (ntruthy p || (currentTimeSecs s =? minTimeSecs s)%num); intros [= <-]; [|exact Stay].
    rewrite Eq in E. destruct (add_time p q (maxTimeSecs s) Hp W Nm E) as [A B]. unfold advances.
    change (currentTimeSecs (s <| currentTimeSecs := ?x |>)) with x. rewrite Eq. auto.
Qed.

Lemma change_speed_keeps cfg e i s : let s' := change_speed cfg e i s in
  currentTimeSecs s' = currentTimeSecs s /\ maxTimeSecs s' = maxTimeSecs s /\ currentSpeed s' = speed_at cfg i /\
  lastTimerFireMs s' = num_of_Z (now e).
Proof.
  cbv zeta. unfold change_speed. cbv zeta. set (u := emit _ _).
  assert (K : forall v, untouched u v -> currentTimeSecs v = currentTimeSecs s /\ maxTimeSecs v = maxTimeSecs s /\
    currentSpeed v = speed_at cfg i /\ lastTimerFireMs v = num_of_Z (now e)).
  { intros v U. rewrite (ut_time _ _ U), (ut_max _ _ U), (ut_speed _ _ U), (ut_last _ _ U). repeat split. }
  destruct (eventStreamsActive u); [|apply K; reflexivity]. destruct (_ <=? _)%num; [|apply K, stop_untouched].
  apply (K (fold_left (rate_one cfg) (monitorPtr cfg) u)), rate_untouched.
Qed.

Lemma redisplay_time cfg e s : currentTimeSecs (redisplay cfg e s) = currentTimeSecs s.
Proof.
  unfold redisplay, keep_ticking. pose proof (ut_time _ _ (update_untouched cfg e s)) as E.
  destruct (_ && _); exact E.
Qed.

Lemma ticked_keeps e s : currentTimeSecs (ticked e s) = currentTimeSecs s /\ maxTimeSecs (ticked e s) = maxTimeSecs s /\
  currentSpeed (ticked e s) = currentSpeed s /\ lastTimerFireMs (ticked e s) = num_of_Z (now e) /\
  play_secs e (reschedule s) = play_secs e s.
Proof. unfold ticked, reschedule, play_secs. destruct (_ || _); repeat split; reflexivity. Qed.

Lemma timerFire_advances cfg e fuel : forall s s', clock_ok cfg e s -> timerFire cfg fuel e s = Some s' -> advances s s'.
Proof.
  induction fuel as [|fuel IH]; intros s s' C; [discriminate|]. rewrite timerFire_unfold.
  destruct (ticked_keeps e s) as (T1 & T2 & T3 & T4 & T5). destruct C as [C1 C2 C3 C4 C5].
  assert (L : last_ok e (ticked e s)).
  { destruct C3 as (l & _ & H1 & H2). exists (now e). split; [exact T4|]. lia. }
  assert (Ct : clock_ok cfg e (ticked e s)) by (split; rewrite ?T1, ?T2, ?T3; assumption).
  destruct (moved cfg _ _ _ _) as [u|] eqn:E; [|discriminate]. intros [= <-].
  assert (A : advances (ticked e s) u).
  { revert E. apply moved_advances; [exact Ct|exact L| |rewrite T5; apply play_secs_nonneg; assumption].
    intros v Hv. destruct (change_speed_keeps cfg e (VNum (Fin 0)) (ticked e s)) as (K1 & K2 & K3 & K4).
    assert (Cv : clock_ok cfg e (change_speed cfg e (VNum (Fin 0)) (ticked e s))).
    { split; rewrite ?K1, ?K2, ?K3, ?T1, ?T2; try assumption. destruct L as (l & _ & H). exists (now e). rewrite K4. split; [reflexivity|lia]. }
    pose proof (IH _ _ Cv Hv) as A. unfold advances in *. rewrite K1, K2 in A. exact A. }
  unfold advances in *. rewrite redisplay_time. rewrite T1, T2 in A. exact A.
Qed.

(** The clock of the review never goes back and never runs past the end of the
    window: a tick leaves it where it was or moves it on to a time still before
    the end, in binary64 arithmetic and however late the timer fires. *)
Theorem clock_in_window (cfg : config) (e : env) (s : state) :
  clock_ok cfg e s -> exists s', timerFire cfg depth e s = Some s' /\ advances s s'.
Proof.
  intros C. destruct (timerFire_total cfg e s) as [s' E]. exists s'. split; [exact E|].
  apply (timerFire_advances cfg e depth s s' C E).
Qed.

(** ** A page *)

Definition demo_cfg : config :=
  Config [1] [1] [Fin 0; Fin 1; Fin 2] (fun _ => Fin 640)
    (fun m => EventStream.Config "1" "/index.php" "/zms" (fun _ => None)) (fun _ _ => "/zms") (fun u => u)
    (fun d => d + Fin 86400)%num.

Definition demo_env : env := Env 5000 (fun _ => Fin (1 # 2)).

(** Its stream, live on event 2. *)
Definition demo_stream : EventStream.state :=
  EventStream.start (stream demo_cfg 1) (Fin (1 # 4)) (id_val 2) (play_options (Fin 1) (Fin 30))
    (EventStream.create (VNum (Fin 100)) "").

Definition demo_page (es : EventStream.state) : state :=
  created demo_cfg (VNum (Fin 1)) (Fin 100) (Fin 0) (Fin 100) (Fin 500) ""
    <| store_ := Store [demo_event 1 10 20; demo_event 2 15 40; demo_event 3 60 0]
                   {[1 := 0%nat; 2 := 1%nat; 3 := 2%nat]} {[1 := [0; 1; 2]%nat]} [] |>
    <| eventStreams := {[1 := es]} |> <| currentTimeSecs := Fin 30 |> <| lastTimerFireMs := Fin 4000 |>.

Lemma demo_stream_live : EventStream.inv demo_stream /\ EventStream.live_ok demo_stream.
Proof.
  destruct (EventStream.start_ok (stream demo_cfg 1) (Fin (1 # 4)) (id_val 2) (play_options (Fin 1) (Fin 30))
    (EventStream.create (VNum (Fin 100)) "") (EventStream.inv_create _ _)) as (I & L & _). split; assumption.
Qed.

Lemma streams_follow_timeline_witness :
  exists es', eventStreams (outputUpdate demo_cfg demo_env (Fin 70) (demo_page demo_stream)) !! 1 = Some es' /\
    followed (current_event (demo_page demo_stream) 1 (Fin 70)) demo_stream es'.
Proof.
  apply (streams_follow_timeline demo_cfg demo_env (Fin 70) (demo_page demo_stream) 1 demo_stream);
    [vm_compute; reflexivity|reflexivity|repeat constructor; apply not_elem_of_nil|apply list_elem_of_here|reflexivity|apply demo_stream_live].
Defined.

Lemma demo_playing : playing demo_cfg (Fin 30) 1 (demo_page demo_stream) demo_stream.
Proof.
  split; [vm_compute; reflexivity|reflexivity|reflexivity|apply demo_stream_live..|].
  eexists. vm_compute. reflexivity.
Qed.

Lemma retries_unbounded_witness :
  exists es', playing demo_cfg (Fin 30) 1 (Nat.iter 20 (fail_and_display demo_cfg demo_env (Fin 30) 1) (demo_page demo_stream)) es' /\
    opens es' = (opens demo_stream + 20)%nat /\
    EventStream.consecutiveErrors es' = EventStream.consecutiveErrors demo_stream + Z.of_nat 20.
Proof.
  apply (retries_unbounded demo_cfg demo_env (Fin 30) 1 (demo_page demo_stream) demo_stream 20);
    [repeat constructor; apply not_elem_of_nil|apply list_elem_of_here|apply demo_playing].
Defined.

(** The stream after its img failed. *)
Definition demo_failed : EventStream.state := EventStream.step (stream demo_cfg 1) demo_stream EventStream.ImgError.

Lemma slow_leaves_restart_witness :
  exists s', setSpeed demo_cfg demo_env (VStr "0") (demo_page demo_failed) = Some s' /\
    eventStreams s' !! 1 = Some demo_failed /\ nlt (currentSpeed s') (Fin 1) /\
    forall e' r c n, exists s'' es', step demo_cfg s' (e', StreamEvent 1 (EventStream.Fire 3 r c n)) = Some s'' /\
      nlt (currentSpeed s'') (Fin 1) /\ eventStreams s'' !! 1 = Some es' /\ EventStream.live_ok es'.
Proof.
  apply (slow_leaves_restart demo_cfg demo_env (VStr "0") (demo_page demo_failed) 1 demo_failed 3%nat (id_val 2)
    (play_options (Fin 1) (Fin 30))); try (vm_compute; reflexivity).
  apply (EventStream.img_error_live (stream demo_cfg 1) demo_stream); apply demo_stream_live.
Defined.


Lemma clock_in_window_witness :
  clock_ok demo_cfg demo_env (demo_page demo_stream) /\
  exists s', timerFire demo_cfg depth demo_env (demo_page demo_stream) = Some s' /\ advances (demo_page demo_stream) s'.
Proof.
  assert (C : clock_ok demo_cfg demo_env (demo_page demo_stream)).
  { split; [split; reflexivity..| | |discriminate].
    - exists 4000. split; [vm_compute; reflexivity|]. cbn. lia.
    - exists 30%Q. split; [reflexivity|]. apply (wf_Z 30). lia. }
  split; [exact C|]. apply (clock_in_window demo_cfg demo_env (demo_page demo_stream) C).
Defined.

End Review.
