(* ===== verification/MontagePage.v ===== *)
(** web/skins/classic/views/js/montage.js: the wall of live streams.

    A page holds one [MonitorStream] per monitor and decides when each of them
    plays: by what is scrolled into view, by the visibility of the page, by the
    user's inactivity, and at first by waiting until the monitors have been put
    in their places.  A method the page calls on a stream is an event of that
    stream's [MonitorStream.step], and every handler of the page hands each
    stream a list of them; so a run of the page is a run of each stream, and
    what is proved of a stream holds on the wall.

    The timers, the waits for the placement, the list of monitors whose frame
    has changed, the selects of the aspect ratios, the layouts and the one
    credential are the page's.  What the browser measures at the moment of an
    event is a [view].  The grid is the vendored GridStack: the page's calls to
    it are effects.  Monitors of type WebSite, panning and zooming, the volume
    and the markup of the buttons are left out. *)
From S2P Require Import JsString AuthHelpers EventStream MonitorStream.

Module MontagePage.
#[local] Existing Instance MonitorStream.eta_state.
#[local] Open Scope string_scope.
#[local] Open Scope Z_scope.

(** ** What is in view *)

Record rect := Rect { top : num; left : num; bottom : num; right : num }.
Record screen := Screen { innerWidth : num; innerHeight : num; docWidth : num; docHeight : num; headerHeight : num }.
Record outs := Outs {
  topUp : bool; topDown : bool; out_left : bool; bottomUp : bool; bottomDown : bool; out_right : bool;
}.

Definition out_top (o : outs) : bool := topUp o || topDown o.
Definition out_bottom (o : outs) : bool := bottomUp o || bottomDown o.
Definition out_any (o : outs) : bool := out_top o || out_bottom o || out_left o || out_right o.
Definition out_all (o : outs) : bool :=
  (topUp o && bottomUp o) || (topDown o && bottomDown o) || (out_left o && out_right o).

Definition isOutOfViewport (scr : screen) (r : rect) : outs :=
  let width := nor (innerWidth scr) (docWidth scr) in
  let height := nor (innerHeight scr) (docHeight scr) in
  let below := nor (innerHeight scr - headerHeight scr)%num (docHeight scr - headerHeight scr)%num in
  Outs (top r <? headerHeight scr)%num (top r >? height)%num ((left r <? Fin 0)%num || (left r >? width)%num)
    (bottom r <? headerHeight scr)%num (bottom r >? below)%num ((right r >? width)%num || (right r <? Fin 0)%num).

(** ** Aspect ratios *)

Definition presetRatio : list (string * string) :=
  [("auto", ""); ("real", ""); ("1:1", "1.000"); ("5:4", "1.250"); ("4:3", "1.333"); ("43:32", "1.344");
   ("11:8", "1.375"); ("3:2", "1.500"); ("25:16", "1.563"); ("16:10", "1.600"); ("5:3", "1.667");
   ("16:9", "1.778"); ("50:27", "1.852"); ("18:9", "2.000"); ("11:5", "2.200"); ("21:9", "2.333");
   ("64:27", "2.370"); ("12:5", "2.400"); ("64:25", "2.560"); ("13:5", "2.600"); ("11:4", "2.750")].

Definition nearer (avg : num) (prev curr : string) : string :=
  if (nabs (string_to_number curr - avg) <? nabs (string_to_number prev - avg))%num then curr else prev.

Definition average (arr : list num) : num := (fold_left nadd arr (Fin 0) / num_of_Z (Z.of_nat (length arr)))%num.

Definition calculateAverageMonitorsRatio (arr : list num) : string :=
  match map snd presetRatio with
  | [] => ""
  | v :: vs => fold_left (nearer (average arr)) vs v
  end.

(** [r > 1 ? r : 1/r], what initPage averages. *)
Definition wide_ratio (width height : num) : num :=
  let r := (width / height)%num in if (r >? Fin 1)%num then r else (Fin 1 / r)%num.

(** [n.toFixed(0)] *)
Definition toFixed0 (n : num) : string :=
  match n with
  | Fin q =>
      if Qle_bool (inject_Z (10 ^ 21)) (Qabs q) then num_to_string n
      else (if qsign q then "-" else "") ++ Z_to_string (Qfloor (Qabs q + (1 # 2)))
  | _ => num_to_string n
  end.

(** The height setRatioForMonitor gives a frame. *)
Definition frame_height (value avg : string) (width height clientWidth : num) : string :=
  let landscape := (width / height >? Fin 1)%num in
  let ratio :=
    if String.eqb value "real" then (if landscape then width / height else height / width)%num
    else if String.eqb value "auto" then string_to_number avg
    else match split_any ":" value with
         | a :: b :: _ => (string_to_number a / string_to_number b)%num
         | _ => NaN
         end in
  toFixed0 (if landscape then clientWidth / ratio else clientWidth * ratio)%num.

(** skin.js, stringToNumber *)
Fixpoint only_digits (s : string) : string :=
  match s with
  | EmptyString => EmptyString
  | String c s => if is_digit c then String c (only_digits s) else only_digits s
  end.
Definition stringToNumber (s : string) : num := parseInt (only_digits s).

(** ** The page *)

Record monitor := Monitor {
  m_id : Z; m_width : num; m_height : num;
  m_cfg : MonitorStream.config;
  m_novideo : bool;                 (* data-not-display-video *)
  m_ratio : string;                 (* the value of its select, empty where nothing is selected *)
  m_css : string;                   (* the height of the frame's element *)
  m_stream : MonitorStream.state;
}.
#[export] Instance eta_monitor : Eta monitor := fun m =>
  Monitor (m_id m) (m_width m) (m_height m) (m_cfg m) (m_novideo m) (m_ratio m) (m_css m) (m_stream m).

(** A layout as it is saved: what the grid says of itself, and the ratios. *)
Record layout := Layout { lo_name : string; lo_userId : Z; lo_grid : option string; lo_ratios : option (list (Z * string)) }.

Record config := Config {
  layouts : list (Z * layout);
  ZM_PRESET_LAYOUT_NAMES : list string;
  autoLayoutName : string;
  viewing_timeout : bool;           (* ZM_WEB_VIEWING_TIMEOUT > 0 *)
  audio_shown : bool;               (* the select of what to display exists and is not OnlyVideo *)
  user_Id : Z; canEdit_System : bool;
  thisUrl : string;
}.

(** What waitingMonitorsPlaced does in the end, and what a timer will do. *)
Inductive action := StartMonitors | ChangeRatio.
Inductive timer := THide | TIdle | TScroll | TResize | TWait (a : action).

#[export] Instance action_eq_dec : EqDecision action.
Proof. solve_decision. Defined.
#[export] Instance timer_eq_dec : EqDecision timer.
Proof. solve_decision. Defined.

Record movable := Movable { mv_width : Z; mv_stop : bool }.

Inductive effect :=
| RequestDialog | ShowDialog | HideDialog
| SetCookie (name value : string)
| GridDestroy | GridInit (saved : option string) | GridWidth (id : Z) (w : num) | GridResize (id : Z) | GridColumns
| GridMove (b : bool)
| OldLayout                         (* the dialog about layouts of an old version *)
| SaysBuiltin | SaysOthers | SaysName | SaysNotYours
| Submit (name : string) (saved : layout)
| AuthFx (fx : Auth.effect unit).

Record page := Page {
  monitors : list monitor;
  idleTimeoutTriggered : bool;
  monitorInitComplete : bool;
  editing : bool;                   (* mode == EDITING *)
  changedMonitors : list (option Z);   (* [None] is NaN *)
  scrollBarExists : option bool;
  movableMonitorData : gmap Z movable;
  TimerHideShow : option nat;
  time : option nat;                (* the timer of inactivityTime *)
  resizeInterval : option nat;
  timers : gmap nat timer;
  next : nat;
  zmMontageLayout : option Z;       (* the select of the layouts *)
  ratio : string;                   (* the select of the ratio for all *)
  cookieRatio : string;             (* the cookie zmMontageRatioForAll *)
  averageMonitorsRatio : string;
  objGridStack : bool;
  dialog : bool;                    (* AYSWModal is in the document *)
  dialog_shown : bool;
  dialog_asked : nat;               (* requests for it under way *)
  auth : Auth.state unit;
  relay : string;                   (* zmAuth *)
  out : list effect;
}.
#[export] Instance eta_page : Eta page := fun s =>
  Page (monitors s) (idleTimeoutTriggered s) (monitorInitComplete s) (editing s) (changedMonitors s) (scrollBarExists s)
    (movableMonitorData s) (TimerHideShow s) (time s) (resizeInterval s) (timers s) (next s) (zmMontageLayout s)
    (ratio s) (cookieRatio s) (averageMonitorsRatio s) (objGridStack s) (dialog s) (dialog_shown s) (dialog_asked s)
    (auth s) (relay s) (out s).

(** What the browser measures, and the numbers it draws, by the monitor's id. *)
Record view := View {
  scr : screen; rects : Z -> rect;
  clientWidth : Z -> option Z;      (* of the stream's element; [None] where there is none *)
  offsetHeight : Z -> Z;
  panzoom : Z -> num; frame_scale : Z -> num; quality : num;
  random : Z -> num;
  grid_saved : string;              (* what the grid says of itself *)
}.

Definition emit (e : effect) (s : page) : page := s <| out := (out s ++ [e])%list |>.

Definition drop (h : option nat) (t : gmap nat timer) : gmap nat timer :=
  match h with Some h => delete h t | None => t end.

Definition add_timer (t : timer) (s : page) : page := s <| timers := <[next s := t]> (timers s) |> <| next := S (next s) |>.

(** ** Calls on the streams *)

(** Each monitor's stream is told the events [f] has for it, in order.  [None]:
    one of them overflowed the stack. *)
Fixpoint tell_all (f : monitor -> list MonitorStream.event) (ms : list monitor) : option (list monitor) :=
  match ms with
  | [] => Some []
  | m :: ms =>
      match MonitorStream.run (m_cfg m) (m_stream m) (f m) with
      | Some st => option_map (cons (m <| m_stream := st |>)) (tell_all f ms)
      | None => None
      end
  end.

Definition tell (f : monitor -> list MonitorStream.event) (s : page) : option page :=
  option_map (fun ms => s <| monitors := ms |>) (tell_all f (monitors s)).

(** To the monitor of that id, or to the others nothing. *)
Definition only (id : Z) (es : monitor -> list MonitorStream.event) (m : monitor) : list MonitorStream.event :=
  if m_id m =? id then es m else [].

Definition in_view (v : view) (m : monitor) : bool := negb (out_all (isOutOfViewport (scr v) (rects v (m_id m)))).

(** [monitor.setPlayer(monitor.player)]: the page has no select of players. *)
Definition start_player (v : view) (m : monitor) : list MonitorStream.event :=
  [MonitorStream.SetPlayer (MonitorStream.player (m_stream m)) ""; MonitorStream.Start (random v (m_id m)) ""].

Definition startVisible (v : view) (m : monitor) : list MonitorStream.event :=
  if in_view v m && negb (MonitorStream.started (m_stream m)) then start_player v m else [].
Definition startVisibleMonitors (v : view) : page -> option page := tell (startVisible v).

Definition startInView (v : view) (m : monitor) : list MonitorStream.event :=
  if in_view v m then start_player v m else [].
Definition startMonitors (v : view) : page -> option page := tell (startInView v).

Definition scrolled (v : view) (m : monitor) : list MonitorStream.event :=
  if in_view v m then
    (if MonitorStream.started (m_stream m) then [] else [MonitorStream.Start (random v (m_id m)) ""])
  else if MonitorStream.started (m_stream m) then [MonitorStream.Stop] else [].
Definition on_scroll (v : view) (s : page) : option page :=
  if negb (monitorInitComplete s) || idleTimeoutTriggered s then Some s else tell (scrolled v) s.

Definition stopMonitors : page -> option page := tell (fun _ => [MonitorStream.Stop]).
Definition killMonitors : page -> option page := tell (fun _ => [MonitorStream.Kill]).

(** skin.js, monitorsSetScale of one monitor, and MonitorStream's setScale below
    it, as they run where there is no select of a scale. *)
Definition scale_event (v : view) (m : monitor) : MonitorStream.event :=
  let id := m_id m in
  let width := js_parseInt (VNum (num_of_Z (default 0 (clientWidth v id)) * panzoom v id)%num) in
  let newscale := if ntruthy width then js_parseInt (VNum (Fin 100 * width / m_width m)%num) else Fin 0 in
  let newscale := (newscale + js_parseInt (VNum (newscale / Fin 100 * quality v)%num))%num in
  MonitorStream.Scaled (frame_scale v id) newscale (quality v).

(** monitorsSetRate without an id. *)
Definition monitorsSetRate (fps : jsval) : page -> option page := tell (fun _ => [MonitorStream.MaxFPS fps]).

(** ** Inactivity *)

Definition stopPlayback (s : page) : option page :=
  match stopMonitors (s <| idleTimeoutTriggered := true |>) with
  | Some s =>
      Some (if dialog s then emit ShowDialog (s <| dialog_shown := true |>)
            else emit RequestDialog (s <| dialog_asked := S (dialog_asked s) |>))
  | None => None
  end.

Definition resetTimer (s : page) : page :=
  let s := s <| timers := drop (time s) (timers s) |> in
  add_timer TIdle s <| time := Some (next s) |>.

(** ** The frames of the monitors *)

Definition setTriggerChangedMonitors (id : option Z) (s : page) : page :=
  if bool_decide (id ∈ changedMonitors s) then s else s <| changedMonitors := (changedMonitors s ++ [id])%list |>.

(** Without an id: every stream of the page. *)
Definition triggerAll (s : page) : page :=
  fold_left (fun s m => setTriggerChangedMonitors (Some (m_id m)) s) (monitors s) s.

Definition setRatioForMonitor (v : view) (avg : string) (m : monitor) : monitor :=
  if m_novideo m then m
  else m <| m_css := frame_height (m_ratio m) avg (m_width m) (m_height m)
                       (num_of_Z (default 0 (clientWidth v (m_id m)))) ++ "px" |>.

Definition set_ratio_of (v : view) (id : Z) (s : page) : page :=
  s <| monitors := map (fun m => if m_id m =? id then setRatioForMonitor v (averageMonitorsRatio s) m else m) (monitors s) |>.

Definition find_monitor (id : Z) (s : page) : option monitor := List.find (fun m => m_id m =? id) (monitors s).

Definition ready (v : view) (grid : bool) (m : monitor) : bool := (m_novideo m || (20 <? offsetHeight v (m_id m))) && grid.

(** [changedMonitors.splice(k, 1)] *)
Definition splice (k : nat) (s : page) : page := s <| changedMonitors := delete k (changedMonitors s) |>.

Section Page.
Variable cfg : config.

(** The forEach over the reversed copy; a TypeError ends it where it is. *)
Fixpoint serve (v : view) (object : list (option Z)) (k : nat) (s : page) : option page :=
  match object with
  | [] => Some s
  | item :: object =>
      (* [object.length - 1 - index] *)
      let k := Nat.pred k in
      match item with
      | None | Some 0 => serve v object k (splice k s)
      | Some id =>
          match find_monitor id s with
          | None => Some s
          | Some m =>
              let s := if ready v (objGridStack s) m
                       then splice k (emit (GridResize id) (set_ratio_of v id s)) else s in
              match tell (only id (fun m => [scale_event v m])) s with
              | Some s => serve v object k (if audio_shown cfg then emit GridColumns s else s)
              | None => None
              end
          end
      end
  end.

(** The tick of resizeInterval. *)
Definition resize_fires (v : view) (s : page) : option page :=
  serve v (rev (changedMonitors s)) (length (changedMonitors s)) s.

(** observerMontage; [None] is the id NaN. *)
Definition resized (scrollbar : bool) (ids : list (option Z)) (s : page) : page :=
  let seen := scrollBarExists s in
  let s := s <| scrollBarExists := Some scrollbar |> in
  if match seen with Some b => negb (Bool.eqb b scrollbar) | None => false end then s
  else fold_left (fun s id => if editing s then s else setTriggerChangedMonitors id s) ids s.

(** ** Waiting until the monitors are in their places *)

(** One monitor of checkEndMonitorsPlaced: in its place once its element has the
    width it had at the last look. *)
Definition look (v : view) (d : gmap Z movable) (m : monitor) : gmap Z movable :=
  match d !! m_id m with
  | Some mv =>
      if mv_stop mv then d
      else match clientWidth v (m_id m) with
           | Some w => if (w =? mv_width mv) && negb (w =? 0)
                       then <[m_id m := Movable (mv_width mv) true]> d
                       else <[m_id m := Movable w false]> d
           | None => d
           end
  | None => d
  end.

Definition at_rest : movable := Movable 0 false.
Definition clear_movable (d : gmap Z movable) (m : monitor) : gmap Z movable := <[m_id m := at_rest]> d.

Definition all_stopped (d : gmap Z movable) : bool := bool_decide (map_Forall (fun _ mv => mv_stop mv = true) d).

Definition checkEndMonitorsPlaced (v : view) (s : page) : bool * page :=
  let d := fold_left (look v) (monitors s) (movableMonitorData s) in
  if all_stopped d then (true, s <| movableMonitorData := fold_left clear_movable (monitors s) d |>)
  else (false, s <| movableMonitorData := d |>).

Definition waitingMonitorsPlaced (a : action) (s : page) : page := add_timer (TWait a) s.

Fixpoint layout_of (id : Z) (ls : list (Z * layout)) : option layout :=
  match ls with
  | [] => None
  | (i, l) :: ls => if i =? id then Some l else layout_of id ls
  end.

Definition current_layout (s : page) : option layout :=
  match zmMontageLayout s with Some id => layout_of id (layouts cfg) | None => None end.

Definition isPresetLayout (name : string) : bool := existsb (String.eqb name) (ZM_PRESET_LAYOUT_NAMES cfg).

Definition initGridStack (saved : option string) (s : page) : page := emit (GridInit saved) (s <| objGridStack := true |>).
Definition destroyGridStack (s : page) : page := if objGridStack s then emit GridDestroy s else s.

(** The callback of the interval [h]. *)
Definition wait_fires (v : view) (h : nat) (a : action) (s : page) : option page :=
  let '(placed, s) := checkEndMonitorsPlaced v s in
  if negb placed then Some s
  else
    let clear s := s <| timers := delete h (timers s) |> in
    match a with
    | StartMonitors => option_map (fun s => clear (s <| monitorInitComplete := true |>)) (startMonitors v s)
    | ChangeRatio =>
        match current_layout s with
        | None => Some s                                (* a TypeError: no such layout *)
        | Some l => if negb (isPresetLayout (lo_name l)) then Some s
                    else Some (clear (initGridStack None (destroyGridStack s)))
        end
    end.

(** ** The selects of the ratios *)

Definition offered (value : string) : bool := existsb (fun '(k, _) => String.eqb k value) presetRatio.
Definition setSelected (old value : string) : string := if offered value then value else old.

Definition setSelectedRatioForAllMonitors (value : string) (s : page) : page :=
  s <| monitors := map (fun m => m <| m_ratio := setSelected (m_ratio m) value |>) (monitors s) |>.

Definition changeRatioForAll (s : page) : page :=
  let value := ratio s in
  let s := emit (SetCookie "zmMontageRatioForAll" value) (s <| cookieRatio := value |>) in
  waitingMonitorsPlaced ChangeRatio (triggerAll (setSelectedRatioForAllMonitors value s)).

Definition defaultPresetRatio : string := "auto".

(** One select of checkRatioForAllMonitors: the value so far, and whether all agree. *)
Definition compare_ratio (acc : string * bool) (m : monitor) : string * bool :=
  let prev := if String.eqb acc.1 "" then m_ratio m else acc.1 in
  (prev, acc.2 && String.eqb (m_ratio m) prev).

Definition checkRatioForAllMonitors (s : page) : page :=
  let s := if String.eqb (ratio s) "" then s <| ratio := setSelected (ratio s) defaultPresetRatio |> else s in
  let '(prev, same) := fold_left compare_ratio (monitors s) ("", true) in
  s <| ratio := if same then setSelected (ratio s) prev else "" |>.

(** The user picks a ratio for the monitor of that id. *)
Definition pick_ratio (id : Z) (value : string) (s : page) : page :=
  s <| monitors := map (fun m => if m_id m =? id then m <| m_ratio := setSelected (m_ratio m) value |> else m) (monitors s) |>.
Definition changeRatio (id : Z) (s : page) : page := setTriggerChangedMonitors (Some id) (checkRatioForAllMonitors s).

(** ** Layouts *)

Definition set_ratios (v : view) (s : page) : page :=
  s <| monitors := map (setRatioForMonitor v (averageMonitorsRatio s)) (monitors s) |>.

Definition put_widths (w : num) (s : page) : page := fold_left (fun s m => emit (GridWidth (m_id m) w) s) (monitors s) s.

Definition layoutColumns : num := Fin 48.

Definition show_preset (v : view) (name : string) (s : page) : page :=
  let s := changeRatioForAll (s <| ratio := setSelected (ratio s) (cookieRatio s) |>) in
  let width := (layoutColumns / stringToNumber (if String.eqb name "Auto" then autoLayoutName cfg else name))%num in
  initGridStack None (set_ratios v (put_widths width s)).

(** [for (const [key, value] of Object.entries(..))] *)
Definition load_ratios (rs : list (Z * string)) (s : page) : page := fold_left (fun s '(id, value) => pick_ratio id value s) rs s.

Definition show_custom (v : view) (l : layout) (s : page) : page :=
  let s := set_ratios v (put_widths (Fin 12) s) in
  match lo_grid l with
  | Some grid =>
      let s := match lo_ratios l with
               | Some rs => load_ratios rs s
               | None => setSelectedRatioForAllMonitors (if String.eqb (ratio s) "" then defaultPresetRatio else ratio s) s
               end in
      initGridStack (Some grid) (checkRatioForAllMonitors s)
  | None => emit OldLayout (initGridStack None s)
  end.

(** [ddm.val(id)]: an option of the select, or none. *)
Definition choose_layout (id : Z) (s : page) : page :=
  s <| zmMontageLayout := if bool_decide (is_Some (layout_of id (layouts cfg))) then Some id else None |>.

Definition selectLayout (v : view) (s : page) : page :=
  if editing s then s <| changedMonitors := [] |>
  else match current_layout s, zmMontageLayout s with
       | Some l, Some id =>
           if id =? 0 then s <| changedMonitors := [] |>
           else
             let s := destroyGridStack s in
             let s := if isPresetLayout (lo_name l) then show_preset v (lo_name l) s else show_custom v l s in
             emit (SetCookie "zmMontageLayout" (Z_to_string id)) (add_timer TScroll s)
       | _, _ => s <| changedMonitors := [] |>
       end.

Definition edit_layout (s : page) : page :=
  let s := emit (GridMove true) (s <| editing := true |>) in
  match current_layout s with
  | Some l => if negb (user_Id cfg =? 0) && ((lo_userId l =? 0) || negb (lo_userId l =? user_Id cfg))
              then emit SaysNotYours s else s
  | None => s                                           (* a TypeError when there is a user *)
  end.

(** What save_layout puts into the form. *)
Definition positions (v : view) (name : string) (s : page) : layout :=
  Layout name (user_Id cfg) (Some (grid_saved v)) (Some (map (fun m => (m_id m, m_ratio m)) (monitors s))).

(** [typed]: the text of the field Name. *)
Definition save_layout (v : view) (typed : string) (s : page) : page :=
  let submit name s := emit (Submit name (positions v name s)) (s <| editing := false |>) in
  if String.eqb typed "" then
    match current_layout s with
    | None => s                                         (* a TypeError: nothing is selected *)
    | Some l =>
        let name := lo_name l in
        if isPresetLayout name then emit SaysBuiltin s
        else if negb (user_Id cfg =? 0) && negb (lo_userId l =? user_Id cfg) && negb (canEdit_System cfg)
                && negb (String.eqb name (lo_name l)) then emit SaysOthers s
        else submit name s
    end
  else if isPresetLayout typed then emit SaysName s
  else submit typed s.

Definition cancel_layout (v : view) (s : page) : page :=
  selectLayout v (emit (GridMove false) (s <| editing := false |>)).

(** ** The page's visibility *)

Definition hide_page (s : page) : page :=
  let s := s <| timers := drop (TimerHideShow s) (timers s) |> in
  add_timer THide s <| TimerHideShow := Some (next s) |>.

(** The streams read the credential off the page. *)
Definition share (s : page) : option page := tell (fun _ => [MonitorStream.NewAuth (relay s)]) s.

(** One effect of auth-helpers, at the moment of [v]. *)
Definition run_effect (v : view) (s : option page) (fx : Auth.effect unit) : option page :=
  match s with
  | None => None
  | Some s =>
      let s := emit (AuthFx fx) s in
      match fx with
      | Auth.Run _ => startVisibleMonitors v s
      | Auth.SetNavBar data => share (s <| relay := (Auth.update (relay s) data).1 |>)
      | _ => Some s
      end
  end.

Definition with_auth (v : view) (r : Auth.state unit * list (Auth.effect unit)) (s : page) : option page :=
  fold_left (run_effect v) r.2 (Some (s <| auth := r.1 |>)).

Definition show_page (v : view) (s : page) : option page :=
  let s := s <| timers := drop (TimerHideShow s) (timers s) |> <| TimerHideShow := None |> in
  if idleTimeoutTriggered s then Some s
  else with_auth v (Auth.whenAuthFresh (thisUrl cfg) (Some (relay s)) tt (auth s)) s.

(** ** What can happen *)

Inductive event :=
| Scroll                                  (* scrollend, and resize of the window *)
| Fire (h : nat)
| Visibility (hidden : bool)
| Activity                                (* a key, or the mouse *)
| DialogDone | DialogFail | DialogClosed
| ProbeDone (data : option Auth.auth_data) | ProbeFail (httpStatus : Z)
| Resized (scrollbar : bool) (ids : list (option Z))
| RatioAll (value : string) | Ratio (id : Z) (value : string)
| ChooseLayout (id : Z) | EditLayout | CancelLayout | SaveLayout (typed : string)
| StatusPosition (position : string)
| Rate (fps : jsval)
| Leave (submit : bool)                   (* a link of the header, the snapshot, the filter's form *)
| Own (id : Z) (e : MonitorStream.event). (* what happens to a stream of itself *)

(** The browser runs the callback of handle [h]; an interval stays set. *)
Definition fire (v : view) (h : nat) (s : page) : option page :=
  let once := s <| timers := delete h (timers s) |> in
  match timers s !! h with
  | None => Some s
  | Some THide => stopMonitors once
  | Some TIdle => stopPlayback once
  | Some TScroll => on_scroll v once
  | Some TResize => resize_fires v s
  | Some (TWait a) => wait_fires v h a s
  end.

(** The answer to the request for the dialog.  One that comes while there is a
    dialog replaces it; of that only the count of requests is modelled. *)
Definition dialog_done (s : page) : page :=
  let s := s <| dialog_asked := Nat.pred (dialog_asked s) |> in
  if dialog s then s else emit ShowDialog (s <| dialog := true |> <| dialog_shown := true |>).

(** hidden.bs.modal *)
Definition dialog_closed (v : view) (s : page) : option page :=
  let s := s <| dialog_shown := false |> <| idleTimeoutTriggered := false |> in
  with_auth v (Auth.whenAuthFresh (thisUrl cfg) (Some (relay s)) tt (auth s)) s.

(** What a stream does to the page's credential is seen by the others. *)
Definition own (id : Z) (e : MonitorStream.event) (s : page) : option page :=
  match tell (only id (fun _ => [e])) s with
  | None => None
  | Some s =>
      match find_monitor id s with
      | Some m => if String.eqb (MonitorStream.relay (m_stream m)) (relay s) then Some s
                  else share (s <| relay := MonitorStream.relay (m_stream m) |>)
      | None => Some s
      end
  end.

Definition changeMonitorStatusPosition (position : string) (s : page) : page :=
  emit (SetCookie "zmMonitorStatusPositionSelected" position) (triggerAll s).

Definition step (v : view) (s : page) (e : event) : option page :=
  match e with
  | Scroll => on_scroll v s
  | Fire h => fire v h s
  | Visibility true => Some (hide_page s)
  | Visibility false => show_page v s
  | Activity => Some (if viewing_timeout cfg then resetTimer s else s)
  | DialogDone => Some (if Nat.eqb (dialog_asked s) 0 then s else dialog_done s)
  | DialogFail => Some (s <| dialog_asked := Nat.pred (dialog_asked s) |>)
  | DialogClosed => if dialog_shown s then dialog_closed v s else Some s
  | ProbeDone d => if Auth.authRevalidating (auth s) then with_auth v (Auth.probe_done d (auth s)) s else Some s
  | ProbeFail st =>
      if Auth.authRevalidating (auth s) then with_auth v (Auth.probe_fail (thisUrl cfg) "montage" st (auth s)) s else Some s
  | Resized b ids => Some (resized b ids s)
  | RatioAll value => Some (changeRatioForAll (s <| ratio := setSelected (ratio s) value |>))
  | Ratio id value => Some (changeRatio id (pick_ratio id value s))
  | ChooseLayout id => Some (selectLayout v (choose_layout id s))
  | EditLayout => Some (edit_layout s)
  | CancelLayout => Some (cancel_layout v s)
  | SaveLayout typed => Some (save_layout v typed s)
  | StatusPosition p => Some (changeMonitorStatusPosition p s)
  | Rate fps => option_map (emit (SetCookie "zmMontageRate" (js_to_string fps))) (monitorsSetRate fps s)
  | Leave submit =>
      killMonitors (if submit then s <| timers := drop (resizeInterval s) (timers s) |> else s)
  | Own id e => own id e s
  end.

Fixpoint run (s : page) (es : list (view * event)) : option page :=
  match es with
  | [] => Some s
  | (v, e) :: es => match step v s e with Some s => run s es | None => None end
  end.

(** buildRatioSelect: the first of the options is selected. *)
Definition buildRatioSelect : string := match presetRatio with (k, _) :: _ => k | [] => "" end.

(** The page as initPage leaves it; [shown] is the layout PHP has selected. *)
Definition initPage (v : view) (ms : list monitor) (shown : option Z) (cookie rl position : string) : page :=
  let ms := map (fun m => m <| m_ratio := buildRatioSelect |>) ms in
  let s := Page ms false false false [] None (fold_left clear_movable ms ∅) None None None ∅ 1 shown buildRatioSelect cookie
             (calculateAverageMonitorsRatio (map (fun m => wide_ratio (m_width m) (m_height m)) ms))
             false false false 0 Auth.init rl [] in
  let s := if viewing_timeout cfg then resetTimer s else s in
  let s := add_timer TResize s <| resizeInterval := Some (next s) |> in
  let s := changeMonitorStatusPosition position (selectLayout v s) in
  waitingMonitorsPlaced StartMonitors s.
End Page.

(** ** A run of the page is a run of each of its streams *)

Section Projection.
Variable cfg : config.
(** The events a stream may be told. *)
Variable P : MonitorStream.event -> Prop.

(** [m'] is [m] after some events of its stream. *)
Definition moved (m m' : monitor) : Prop :=
  m_id m' = m_id m /\ m_cfg m' = m_cfg m /\
  exists es, Forall P es /\ MonitorStream.run (m_cfg m) (m_stream m) es = Some (m_stream m').

Lemma moved_same m m' : m_id m' = m_id m -> m_cfg m' = m_cfg m -> m_stream m' = m_stream m -> moved m m'.
Proof. intros E1 E2 E3. split; [exact E1|]. split; [exact E2|]. exists []. split; [constructor|]. cbn. congruence. Qed.

Lemma moved_trans m1 m2 m3 : moved m1 m2 -> moved m2 m3 -> moved m1 m3.
Proof.
  intros (I1 & C1 & es & F1 & R1) (I2 & C2 & es' & F2 & R2). split; [congruence|]. split; [congruence|].
  exists (es ++ es')%list. split; [apply Forall_app; split; assumption|].
  rewrite MonitorStream.run_app, R1. rewrite <- C1. exact R2.
Qed.

Definition all_moved (ms ms' : list monitor) : Prop := Forall2 moved ms ms'.

Lemma all_moved_refl ms : all_moved ms ms.
Proof. induction ms; constructor; [apply moved_same; reflexivity|assumption]. Qed.

Lemma all_moved_trans ms1 ms2 ms3 : all_moved ms1 ms2 -> all_moved ms2 ms3 -> all_moved ms1 ms3.
Proof.
  intros H. revert ms3. induction H as [|m m' ms ms' Hm _ IH]; intros ms3 H3; inversion H3; subst; constructor.
  - eapply moved_trans; eassumption.
  - apply IH. assumption.
Qed.

Lemma all_moved_map (f : monitor -> monitor) ms :
  (forall m, m_id (f m) = m_id m /\ m_cfg (f m) = m_cfg m /\ m_stream (f m) = m_stream m) -> all_moved ms (map f ms).
Proof. intros H. induction ms as [|m ms IH]; constructor; [destruct (H m) as (? & ? & ?); apply moved_same; assumption|exact IH]. Qed.

Lemma tell_all_moved f ms ms' : (forall m, Forall P (f m)) -> tell_all f ms = Some ms' -> all_moved ms ms'.
Proof.
  intros Hf. revert ms'. induction ms as [|m ms IH]; intros ms'; cbn; [intros [= <-]; constructor|].
  destruct (MonitorStream.run _ _ _) as [st|] eqn:R; [|discriminate].
  destruct (tell_all f ms) as [ms1|] eqn:T; [|discriminate]. intros [= <-]. constructor; [|apply IH; reflexivity].
  split; [reflexivity|]. split; [reflexivity|]. exists (f m). split; [apply Hf|exact R].
Qed.

(** Every monitor has an entry among the widths looked at, and nothing else has. *)
Definition tracked (s : page) : Prop := forall id, is_Some (movableMonitorData s !! id) <-> id ∈ map m_id (monitors s).

Lemma all_moved_ids ms ms' : all_moved ms ms' -> map m_id ms' = map m_id ms.
Proof. induction 1 as [|m m' ms ms' (E & _) _ IH]; cbn; [reflexivity|]. rewrite E, IH. reflexivity. Qed.

(** The streams' own invariant, and default players that are in their lists. *)
Definition sound (ms : list monitor) : Prop :=
  Forall (fun m => MonitorStream.good (m_stream m) /\ MonitorStream.default_listed (m_stream m)) ms.

Lemma run_total (mcfg : MonitorStream.config) es : forall st, MonitorStream.good st -> MonitorStream.default_listed st ->
  exists st', MonitorStream.run mcfg st es = Some st' /\ MonitorStream.good st' /\ MonitorStream.default_listed st'.
Proof.
  induction es as [|e es IH]; intros st G L; cbn; [eauto|].
  destruct (MonitorStream.step_total mcfg e st G L) as [st1 E]. rewrite E.
  destruct (MonitorStream.step_good mcfg st e st1 G E) as [G1 D1]. apply IH; [exact G1|].
  unfold MonitorStream.default_listed in *. congruence.
Qed.

Lemma all_moved_sound ms ms' : all_moved ms ms' -> sound ms -> sound ms'.
Proof.
  induction 1 as [|m m' ms ms' (_ & _ & es & _ & R) _ IH]; intros S; [constructor|].
  apply Forall_cons in S as [[G L] S]. constructor; [|apply IH, S].
  destruct (run_total (m_cfg m) es _ G L) as (st & R' & G' & L'). rewrite R in R'. injection R' as <-. split; assumption.
Qed.

Lemma tell_all_total f ms : sound ms -> is_Some (tell_all f ms).
Proof.
  induction 1 as [|m ms [G L] _ [ms' IH]]; cbn; [eauto|]. destruct (run_total (m_cfg m) (f m) _ G L) as (st & R & _).
  rewrite R, IH. cbn. eauto.
Qed.

(** From the page [s], a handler leaves a page whose streams have moved. *)
Definition follows (s s' : page) : Prop := all_moved (monitors s) (monitors s') /\ (tracked s -> tracked s').
Definition followsO (s : page) (o : option page) : Prop :=
  match o with Some s' => follows s s' | None => ~ sound (monitors s) end.

(** The two members that [follows] looks at. *)
Definition watched (s : page) : list monitor * gmap Z movable := (monitors s, movableMonitorData s).

Lemma follows_trans s1 s2 s3 : follows s1 s2 -> follows s2 s3 -> follows s1 s3.
Proof. intros [A1 T1] [A2 T2]. split; [eapply all_moved_trans; eassumption|tauto]. Qed.
Lemma follows_same s t u : follows s t -> watched u = watched t -> follows s u.
Proof. unfold watched, follows, tracked. intros H [= -> ->]. exact H. Qed.
Lemma follows_refl s : follows s s.
Proof. split; [apply all_moved_refl|tauto]. Qed.
Lemma follows_map s t f u : follows s t -> watched u = (map f (monitors t), movableMonitorData t) ->
  (forall m, m_id (f m) = m_id m /\ m_cfg (f m) = m_cfg m /\ m_stream (f m) = m_stream m) -> follows s u.
Proof.
  unfold watched. intros H [= Em Ed] Hf. eapply follows_trans; [exact H|].
  assert (A : all_moved (monitors t) (monitors u)) by (rewrite Em; apply all_moved_map, Hf).
  split; [exact A|]. unfold tracked. rewrite Ed, (all_moved_ids _ _ A). tauto.
Qed.
Lemma followsO_some s t : follows s t -> followsO s (Some t).
Proof. intros H. exact H. Qed.
Lemma followsO_bind s (o : option page) (f : page -> option page) : followsO s o ->
  (forall u, follows s u -> followsO s (f u)) -> followsO s (match o with Some u => f u | None => None end).
Proof. destruct o as [u|]; intros H Hf; [apply Hf, H|exact H]. Qed.
Lemma followsO_map s (o : option page) (f : page -> page) : followsO s o ->
  (forall u, follows s u -> follows s (f u)) -> followsO s (option_map f o).
Proof. destruct o as [u|]; intros H Hf; [apply Hf, H|exact H]. Qed.

Lemma follows_tell s t f : follows s t -> (forall m, Forall P (f m)) -> followsO s (tell f t).
Proof.
  intros H Hf. unfold tell. destruct (tell_all f (monitors t)) as [ms|] eqn:T; cbn [option_map followsO].
  2: { intros S. destruct (tell_all_total f (monitors t) (all_moved_sound _ _ (proj1 H) S)) as [ms Hms]. congruence. }
  eapply follows_trans; [exact H|]. pose proof (tell_all_moved f _ ms Hf T) as A. split; [exact A|].
  unfold tracked. cbn [upd]. fields. rewrite (all_moved_ids _ _ A). tauto.
Qed.

(** A fold of changes that leave the streams alone. *)
Lemma follows_fold {A} (f : page -> A -> page) xs s t : follows s t ->
  (forall u x, follows s u -> follows s (f u x)) -> follows s (fold_left f xs t).
Proof. intros H Hf. revert t H. induction xs as [|x xs IH]; intros t H; cbn; [exact H|]. apply IH, Hf, H. Qed.

(** The events the page's own handlers tell its streams. *)
Definition page_event (e : MonitorStream.event) : bool :=
  match e with
  | MonitorStream.SetPlayer _ _ | MonitorStream.Start _ _ | MonitorStream.Stop | MonitorStream.Kill
  | MonitorStream.MaxFPS _ | MonitorStream.Scaled _ _ _ | MonitorStream.NewAuth _ => true
  | _ => false
  end.
Hypothesis P_page : forall e, page_event e = true -> P e.

Ltac told := intros; repeat (case_match || constructor); apply P_page; reflexivity.

Lemma follows_startVisible v s t : follows s t -> followsO s (startVisibleMonitors v t).
Proof. intros H. apply follows_tell; [exact H|]. unfold startVisible, start_player. told. Qed.
Lemma follows_startMonitors v s t : follows s t -> followsO s (startMonitors v t).
Proof. intros H. apply follows_tell; [exact H|]. unfold startInView, start_player. told. Qed.
Lemma follows_scroll v s t : follows s t -> followsO s (on_scroll v t).
Proof.
  intros H. unfold on_scroll. destruct (_ || _); [apply followsO_some, H|]. apply follows_tell; [exact H|]. unfold scrolled. told.
Qed.
Lemma follows_stop s t : follows s t -> followsO s (stopMonitors t).
Proof. intros H. apply follows_tell; [exact H|told]. Qed.
Lemma follows_kill s t : follows s t -> followsO s (killMonitors t).
Proof. intros H. apply follows_tell; [exact H|told]. Qed.
Lemma follows_share s t : follows s t -> followsO s (share t).
Proof. intros H. apply follows_tell; [exact H|told]. Qed.

Lemma follows_trigger s t id : follows s t -> follows s (setTriggerChangedMonitors id t).
Proof. intros H. unfold setTriggerChangedMonitors. case_bool_decide; [exact H|exact (follows_same _ _ _ H eq_refl)]. Qed.

Lemma follows_triggerAll s t : follows s t -> follows s (triggerAll t).
Proof. intros H. apply follows_fold; [exact H|]. intros u m. apply follows_trigger. Qed.

Lemma follows_stopPlayback s t : follows s t -> followsO s (stopPlayback t).
Proof.
  intros H. unfold stopPlayback. apply (followsO_bind s _ (fun s => Some _)).
  { apply follows_stop. exact (follows_same _ _ _ H eq_refl). }
  intros u Hu. apply followsO_some. destruct (dialog u); exact (follows_same _ _ _ Hu eq_refl).
Qed.

Lemma set_ratio_frame v avg m : m_id (setRatioForMonitor v avg m) = m_id m /\ m_cfg (setRatioForMonitor v avg m) = m_cfg m /\
  m_stream (setRatioForMonitor v avg m) = m_stream m.
Proof. unfold setRatioForMonitor. destruct (m_novideo m); repeat split. Qed.

Lemma follows_serve v object : forall k s t, follows s t -> followsO s (serve cfg v object k t).
Proof.
  induction object as [|item object IH]; intros k s t H; cbn [serve]; [apply followsO_some, H|]. cbv zeta.
  assert (Hs : forall u, follows s u -> follows s (splice (Nat.pred k) u)) by (intros u Hu; exact (follows_same _ _ _ Hu eq_refl)).
  destruct item as [id|]; [|apply IH, Hs, H].
  assert (Hm : followsO s (match find_monitor id t with
      | None => Some t
      | Some m =>
          match tell (only id (fun m => [scale_event v m]))
                  (if ready v (objGridStack t) m then splice (Nat.pred k) (emit (GridResize id) (set_ratio_of v id t)) else t) with
          | Some s => serve cfg v object (Nat.pred k) (if audio_shown cfg then emit GridColumns s else s)
          | None => None
          end end)).
  { destruct (find_monitor id t) as [m|]; [|apply followsO_some, H].
    set (u := if ready _ _ _ then _ else t).
    assert (Hu : follows s u).
    { unfold u. destruct (ready _ _ _); [|exact H]. apply Hs. eapply follows_map; [exact H|reflexivity|].
      intros m'. cbn beta. destruct (m_id m' =? id); [apply set_ratio_frame|repeat split]. }
    pose proof (follows_tell s u (only id (fun m => [scale_event v m])) Hu ltac:(unfold only; told)) as Ht.
    apply (followsO_bind s (tell _ u) (fun w => serve _ _ _ _ _) Ht). intros w Hw. apply IH.
    destruct (audio_shown cfg); exact (follows_same _ _ _ Hw eq_refl). }
  destruct id; first [apply IH, Hs, H | exact Hm].
Qed.

Lemma follows_resized s t b ids : follows s t -> follows s (resized b ids t).
Proof.
  intros H. unfold resized. destruct (match scrollBarExists t with Some _ => _ | None => _ end); [exact (follows_same _ _ _ H eq_refl)|].
  apply follows_fold; [exact (follows_same _ _ _ H eq_refl)|]. intros u x Hu. destruct (editing u); [exact Hu|apply follows_trigger, Hu].
Qed.

(** Nothing of the streams changes. *)
Lemma watched_widths w s : watched (put_widths w s) = watched s.
Proof.
  unfold put_widths. assert (H : forall ms u, watched (fold_left (fun s m => emit (GridWidth (m_id m) w) s) ms u) = watched u).
  { induction ms as [|m ms IH]; intros u; [reflexivity|]. cbn. rewrite IH. reflexivity. }
  apply H.
Qed.

(** The looks keep the entries as they are; the clearing gives each monitor one. *)
Lemma look_dom v d m id : is_Some (look v d m !! id) <-> is_Some (d !! id).
Proof.
  unfold look. destruct (d !! m_id m) as [mv|] eqn:E; [|tauto]. destruct (mv_stop mv); [tauto|].
  assert (H : forall x, is_Some (<[m_id m := x]> d !! id) <-> is_Some (d !! id)).
  { intros x. destruct (decide (m_id m = id)) as [<-|N]; [rewrite lookup_insert_eq, E|rewrite lookup_insert_ne by exact N; tauto].
    split; eauto. }
  destruct (clientWidth v (m_id m)) as [w|]; [|tauto]. destruct (_ && _); apply H.
Qed.

Lemma looks_dom v ms d id : is_Some (fold_left (look v) ms d !! id) <-> is_Some (d !! id).
Proof. revert d. induction ms as [|m ms IH]; intros d; cbn; [tauto|]. rewrite IH, look_dom. tauto. Qed.

Lemma clears_dom ms d id : is_Some (fold_left clear_movable ms d !! id) <-> is_Some (d !! id) \/ id ∈ map m_id ms.
Proof.
  revert d. induction ms as [|m ms IH]; intros d; cbn; [rewrite elem_of_nil; tauto|]. rewrite IH, elem_of_cons.
  unfold clear_movable. destruct (decide (m_id m = id)) as [<-|N].
  - rewrite lookup_insert_eq. split; [tauto|]. intros _. left. eauto.
  - rewrite lookup_insert_ne by exact N. split; [tauto|]. intros [H|[H|H]]; [tauto|congruence|tauto].
Qed.

Lemma follows_look v s t : follows s t -> follows s (checkEndMonitorsPlaced v t).2.
Proof.
  intros H. eapply follows_trans; [exact H|]. unfold checkEndMonitorsPlaced.
  destruct (all_stopped _); (split; [apply all_moved_refl|]); unfold tracked; fields; intros T id.
  - rewrite clears_dom, looks_dom, (T id). tauto.
  - rewrite looks_dom. apply T.
Qed.

Lemma follows_destroy s t : follows s t -> follows s (destroyGridStack t).
Proof. intros H. unfold destroyGridStack. destruct (objGridStack t); exact (follows_same _ _ _ H eq_refl). Qed.

Lemma follows_wait v h a s t : follows s t -> followsO s (wait_fires cfg v h a t).
Proof.
  intros H. unfold wait_fires. destruct (checkEndMonitorsPlaced v t) as [placed u] eqn:C.
  pose proof (follows_look v s t H) as Hu. rewrite C in Hu. cbn [snd] in Hu.
  destruct (negb placed); [apply followsO_some, Hu|]. destruct a.
  - apply followsO_map; [apply follows_startMonitors, Hu|]. intros w Hw. exact (follows_same _ _ _ Hw eq_refl).
  - destruct (current_layout cfg u) as [l|]; [|apply followsO_some, Hu].
    destruct (negb _); apply followsO_some; [exact Hu|]. pose proof (follows_destroy s u Hu) as Hd.
    exact (follows_same _ _ _ Hd eq_refl).
Qed.

Lemma follows_ratioAll s t : follows s t -> follows s (changeRatioForAll t).
Proof.
  intros H. unfold changeRatioForAll, waitingMonitorsPlaced, setSelectedRatioForAllMonitors. cbv zeta.
  set (u := triggerAll _). cut (follows s u); [intros Hu; exact (follows_same _ _ _ Hu eq_refl)|].
  apply follows_triggerAll. eapply follows_map; [exact H|reflexivity|]. intros m. repeat split.
Qed.

Lemma follows_check s t : follows s t -> follows s (checkRatioForAllMonitors t).
Proof.
  intros H. unfold checkRatioForAllMonitors. set (u := if String.eqb _ _ then _ else t).
  assert (Hu : follows s u) by (unfold u; destruct (String.eqb _ _); [exact (follows_same _ _ _ H eq_refl)|exact H]).
  destruct (fold_left _ _ _) as [prev same]. exact (follows_same _ _ _ Hu eq_refl).
Qed.

Lemma follows_pick s t id value : follows s t -> follows s (pick_ratio id value t).
Proof. intros H. eapply follows_map; [exact H|reflexivity|]. intros m. cbn beta. destruct (m_id m =? id); repeat split. Qed.

Lemma follows_set_ratios v s t : follows s t -> follows s (set_ratios v t).
Proof. intros H. eapply follows_map; [exact H|reflexivity|]. intros m. apply set_ratio_frame. Qed.

Lemma follows_widths w s t : follows s t -> follows s (put_widths w t).
Proof. intros H. exact (follows_same _ _ _ H (watched_widths w t)). Qed.

Lemma follows_grid o s t : follows s t -> follows s (initGridStack o t).
Proof. intros H. exact (follows_same _ _ _ H eq_refl). Qed.

Lemma follows_preset v name s t : follows s t -> follows s (show_preset cfg v name t).
Proof.
  intros H. apply (follows_same s t (t <| ratio := setSelected (ratio t) (cookieRatio t) |>)) in H; [|reflexivity].
  apply follows_grid, follows_set_ratios, follows_widths, follows_ratioAll, H.
Qed.

Lemma follows_custom v l s t : follows s t -> follows s (show_custom v l t).
Proof.
  intros H. unfold show_custom. cbv zeta.
  pose proof (follows_set_ratios v s _ (follows_widths (Fin 12) s _ H)) as Hw. set (u := set_ratios _ _) in *. clearbody u.
  destruct (lo_grid l) as [grid|]; [|exact (follows_same _ _ _ Hw eq_refl)].
  set (w := match lo_ratios l with Some _ => _ | None => _ end).
  assert (Hl : follows s w).
  { unfold w. destruct (lo_ratios l) as [rs|].
    - apply follows_fold; [exact Hw|]. intros x [id value]. apply follows_pick.
    - eapply follows_map; [exact Hw|reflexivity|]. intros m. repeat split. }
  exact (follows_same _ _ _ (follows_check s w Hl) eq_refl).
Qed.

Lemma follows_layout v s t : follows s t -> follows s (selectLayout cfg v t).
Proof.
  intros H. unfold selectLayout. destruct (editing t); [exact (follows_same _ _ _ H eq_refl)|].
  destruct (current_layout cfg t) as [l|]; [|exact (follows_same _ _ _ H eq_refl)].
  destruct (zmMontageLayout t) as [id|]; [|exact (follows_same _ _ _ H eq_refl)].
  destruct (id =? 0); [exact (follows_same _ _ _ H eq_refl)|]. cbv zeta.
  pose proof (follows_destroy s t H) as Hd. set (u := destroyGridStack t) in *. clearbody u.
  set (w := if isPresetLayout cfg (lo_name l) then _ else _).
  assert (Hw : follows s w) by (unfold w; destruct (isPresetLayout cfg _); [apply follows_preset, Hd|apply follows_custom, Hd]).
  exact (follows_same _ _ _ Hw eq_refl).
Qed.

Lemma follows_effect v s o fx : followsO s o -> followsO s (run_effect v o fx).
Proof.
  intros H. destruct o as [t|]; [|exact H]. cbn [followsO] in H. cbn [run_effect].
  assert (Ht : follows s (emit (AuthFx fx) t)) by exact (follows_same _ _ _ H eq_refl).
  destruct fx as [u|u|data|cb]; cbn [run_effect]; try (apply followsO_some, Ht).
  - apply follows_share. exact (follows_same _ _ _ Ht eq_refl).
  - apply follows_startVisible, Ht.
Qed.

Lemma follows_auth v s t r : follows s t -> followsO s (with_auth v r t).
Proof.
  intros H. unfold with_auth. assert (H1 : followsO s (Some (t <| auth := r.1 |>))) by (apply followsO_some; exact (follows_same _ _ _ H eq_refl)).
  revert H1. generalize (Some (t <| auth := r.1 |>)). induction r.2 as [|fx fxs IH]; intros o Ho; [exact Ho|]. cbn.
  apply IH, follows_effect, Ho.
Qed.

Lemma follows_own id e s t : P e -> follows s t -> followsO s (own id e t).
Proof.
  intros He H. unfold own. pose proof (follows_tell s t (only id (fun _ => [e])) H) as Ht.
  specialize (Ht ltac:(intros m; unfold only; destruct (_ =? _); repeat constructor; exact He)).
  destruct (tell _ t) as [u|]; [|exact Ht]. cbn [followsO] in Ht.
  destruct (find_monitor id u); [|apply followsO_some, Ht]. destruct (String.eqb _ _); [apply followsO_some, Ht|].
  apply follows_share. exact (follows_same _ _ _ Ht eq_refl).
Qed.

Definition event_ok (e : event) : Prop := match e with Own _ e => P e | _ => True end.

Lemma follows_step v s e : event_ok e -> followsO s (step cfg v s e).
Proof.
  intros He. pose proof (follows_refl s) as H.
  destruct e; cbn [step]; try (apply followsO_some).
  - apply follows_scroll, H.
  - unfold fire. cbv zeta. assert (Ho : follows s (s <| timers := delete h (timers s) |>)) by exact (follows_same _ _ _ H eq_refl).
    destruct (timers s !! h) as [[| | | |a]|].
    + apply follows_stop, Ho.
    + apply follows_stopPlayback, Ho.
    + apply follows_scroll, Ho.
    + apply follows_serve, H.
    + apply follows_wait, H.
    + apply followsO_some, H.
  - destruct hidden; [apply followsO_some; exact (follows_same _ _ _ H eq_refl)|]. unfold show_page. cbv zeta.
    destruct (idleTimeoutTriggered _); [apply followsO_some|apply follows_auth]; exact (follows_same _ _ _ H eq_refl).
  - destruct (viewing_timeout cfg); exact (follows_same _ _ _ H eq_refl).
  - destruct (Nat.eqb _ _); [exact H|]. unfold dialog_done. cbv zeta. destruct (dialog _); exact (follows_same _ _ _ H eq_refl).
  - exact (follows_same _ _ _ H eq_refl).
  - destruct (dialog_shown s); [|apply followsO_some, H]. apply follows_auth. exact (follows_same _ _ _ H eq_refl).
  - destruct (Auth.authRevalidating _); [apply follows_auth, H|apply followsO_some, H].
  - destruct (Auth.authRevalidating _); [apply follows_auth, H|apply followsO_some, H].
  - apply follows_resized, H.
  - apply follows_ratioAll. exact (follows_same _ _ _ H eq_refl).
  - apply follows_trigger, follows_check, follows_pick, H.
  - apply follows_layout. exact (follows_same _ _ _ H eq_refl).
  - unfold edit_layout. cbv zeta. destruct (current_layout cfg _); [|exact (follows_same _ _ _ H eq_refl)].
    destruct (_ && _); exact (follows_same _ _ _ H eq_refl).
  - apply follows_layout. exact (follows_same _ _ _ H eq_refl).
  - unfold save_layout. cbv zeta. repeat case_match; exact (follows_same _ _ _ H eq_refl).
  - pose proof (follows_triggerAll s s H) as Ht. exact (follows_same _ _ _ Ht eq_refl).
  - apply followsO_map; [apply follows_tell; [exact H|told]|]. intros u Hu. exact (follows_same _ _ _ Hu eq_refl).
  - apply follows_kill. destruct submit; exact (follows_same _ _ _ H eq_refl).
  - apply follows_own; assumption.
Qed.

Lemma follows_run es : forall s, Forall (fun ve => event_ok ve.2) es -> followsO s (run cfg s es).
Proof.
  induction es as [|[v e] es IH]; intros s F; cbn [run]; [apply follows_refl|].
  apply Forall_cons in F as [He F]. pose proof (follows_step v s e He) as H. destruct (step cfg v s e) as [t|]; [|exact H].
  cbn [followsO] in H. pose proof (IH t F) as R. destruct (run cfg t es) as [u|]; cbn [followsO] in *.
  - eapply follows_trans; eassumption.
  - intros S. apply R. exact (all_moved_sound _ _ (proj1 H) S).
Qed.

(** What initPage makes of the monitors it is given. *)
Lemma follows_init v ms shown cookie rl position :
  let s := initPage cfg v ms shown cookie rl position in all_moved ms (monitors s) /\ tracked s.
Proof.
  unfold initPage. cbv zeta. set (ms' := map _ ms).
  assert (Hm : all_moved ms ms') by (apply all_moved_map; intros m; repeat split).
  set (p := Page ms' _ _ _ _ _ _ _ _ _ _ _ _ _ _ _ _ _ _ _ _ _ _).
  set (q := if viewing_timeout cfg then _ else p).
  assert (Hq : watched q = (ms', fold_left clear_movable ms' ∅)) by (unfold q; destruct (viewing_timeout cfg); reflexivity).
  set (w := add_timer TResize q <| resizeInterval := _ |>).
  assert (Hw : follows w (selectLayout cfg v w)) by apply follows_layout, follows_refl.
  pose proof (follows_triggerAll w _ Hw) as [A T]. assert (Em : monitors w = ms') by exact (f_equal fst Hq).
  assert (Ed : movableMonitorData w = fold_left clear_movable ms' ∅) by exact (f_equal snd Hq). rewrite Em in A. split; [eapply all_moved_trans; [exact Hm|exact A]|]. apply T. unfold tracked.
  rewrite Em, Ed. intros id. rewrite clears_dom, lookup_empty. split; [intros [[x [=]]|H]; exact H|tauto].
Qed.
End Projection.

Definition fresh (m : monitor) : Prop := exists key dp src rl, m_stream m = MonitorStream.create key dp src rl.

(** What holds of every page that was reached. *)
Lemma reached_tracked cfg v ms shown cookie rl position es s :
  run cfg (initPage cfg v ms shown cookie rl position) es = Some s -> tracked s.
Proof.
  intros R. pose (P := fun _ : MonitorStream.event => True).
  pose proof (follows_init cfg P v ms shown cookie rl position) as [_ T].
  pose proof (follows_run cfg P (fun _ _ => I) es (initPage cfg v ms shown cookie rl position)) as F. rewrite R in F.
  destruct F as [_ F]; [|exact (F T)]. apply Forall_forall. intros [v' e] _. destruct e; exact I.
Qed.

Lemma reached_sound cfg v ms shown cookie rl position es s :
  Forall (fun m => fresh m /\ MonitorStream.default_listed (m_stream m)) ms ->
  run cfg (initPage cfg v ms shown cookie rl position) es = Some s -> sound (monitors s).
Proof.
  intros S0 R. pose (P := fun _ : MonitorStream.event => True).
  pose proof (follows_init cfg P v ms shown cookie rl position) as [A0 _].
  pose proof (follows_run cfg P (fun _ _ => I) es (initPage cfg v ms shown cookie rl position)) as F. rewrite R in F.
  destruct F as [A _]; [apply Forall_forall; intros [v' e] _; destruct e; exact I|].
  apply (all_moved_sound P _ _ A), (all_moved_sound P _ _ A0). apply (Forall_impl _ _ _ S0).
  intros m [(key & dp & src & rl' & E) L]. split; [rewrite E; apply MonitorStream.good_create|exact L].
Qed.
End MontagePage.
