(* ===== verification/MontageWall.v ===== *)
(** What the wall of live streams of MontagePage.v promises.

    - Every stream is run through calls its own object allows, so no zms is lost
      sight of and every handler returns ([wall_ledger], [wall_total]).
    - Streams are started once the monitors are in their places ([waits_end]),
      but for the wait that is never cleared ([leaked_wait_starves]).
    - A user who is gone gets no streams until he is back ([idle_stays_stopped]),
      with the exceptions proved: the probe ([probe_wakes_idle]) and the dialog
      that fails ([failed_dialog_strands]).
    - A page that was hidden resumes what it played ([hidden_page_resumes]).
    - Frames that have changed are fitted, ratios averaged, layouts saved and
      shown again; what is out of view, and what only counts as such.

    The witnesses run a page with two monitors. *)
From S2P Require Import JsString AuthHelpers EventStream MonitorStream MontagePage.

Module Wall.
Import MontagePage.
#[local] Existing Instance MonitorStream.eta_state.
#[local] Open Scope string_scope.
#[local] Open Scope Z_scope.

(** ** What holds of a stream holds on the wall *)

Definition no_reconnect (e : event) : Prop := match e with Own _ e => MonitorStream.is_auth_done e = false | _ => True end.

Lemma page_no_reconnect e : page_event e = true -> MonitorStream.is_auth_done e = false.
Proof. destruct e; cbn; congruence. Qed.

(** C7: on the whole page, whatever the user, the browser and the server do, no
    zms process is lost sight of as long as no img reconnect is answered: every
    key a stream of the page held at the start or opened since is the one it
    holds, or its zms was told to quit. *)
Theorem wall_ledger (cfg : config) (v : view) (ms : list monitor) (shown : option Z) (cookie rl position : string)
    (es : list (view * event)) (s : page) (i : nat) (m0 m : monitor) (k : string) :
  Forall fresh ms -> Forall (fun ve => no_reconnect ve.2) es ->
  run cfg (initPage cfg v ms shown cookie rl position) es = Some s ->
  ms !! i = Some m0 -> monitors s !! i = Some m -> k <> "" ->
  MonitorStream.connKey (m_stream m0) = Some k \/ MonitorStream.opened k (MonitorStream.out (m_stream m)) ->
  MonitorStream.connKey (m_stream m) = Some k \/ MonitorStream.told_to_quit k (MonitorStream.out (m_stream m)).
Proof.
  intros Fr F R Hi Hm Hk Ho. pose (P := fun e => MonitorStream.is_auth_done e = false).
  pose proof (follows_init cfg P v ms shown cookie rl position) as [A0 _].
  pose proof (follows_run cfg P page_no_reconnect es (initPage cfg v ms shown cookie rl position)) as A1. rewrite R in A1.
  destruct (A1 F) as [A2 _]. pose proof (all_moved_trans P _ _ _ A0 A2) as A.
  destruct (Forall2_lookup_l _ _ _ i m0 A Hi) as (m' & Hm' & _ & _ & es' & F' & R'). rewrite Hm in Hm'. injection Hm' as <-.
  assert (Hf : fresh m0) by (rewrite Forall_forall in Fr; apply Fr, list_elem_of_lookup; eauto).
  destruct Hf as (key & dp & src & rl' & E). rewrite E in *.
  destruct (MonitorStream.run_keeps _ es' _ _ (MonitorStream.good_create key dp src rl') F' R') as [(new & En & Hn) _ _].
  rewrite En in Ho |- *. exact (Hn k Hk Ho).
Qed.

(** The handlers of the page always return: when every default player is one
    of the list, no sequence of events overflows the stack of any stream. *)
Theorem wall_total (cfg : config) (v : view) (ms : list monitor) (shown : option Z) (cookie rl position : string)
    (es : list (view * event)) :
  Forall (fun m => fresh m /\ MonitorStream.default_listed (m_stream m)) ms ->
  is_Some (run cfg (initPage cfg v ms shown cookie rl position) es).
Proof.
  intros S0. pose (P := fun _ : MonitorStream.event => True).
  pose proof (follows_init cfg P v ms shown cookie rl position) as [A0 _].
  pose proof (follows_run cfg P (fun _ _ => I) es (initPage cfg v ms shown cookie rl position)) as A1.
  destruct (run cfg _ es) as [s|]; [eauto|]. exfalso. apply A1.
  - apply Forall_forall. intros [v' e] _. destruct e; exact I.
  - apply (all_moved_sound P _ _ A0). apply (Forall_impl _ _ _ S0). intros m [(key & dp & src & rl' & E) L].
    split; [rewrite E; apply MonitorStream.good_create|exact L].
Qed.

(** ** Waiting for the placement *)

Section Waits.
Variable cfg : config.
Variable v : view.

Definition is_wait (t : timer) : bool := match t with TWait _ => true | _ => false end.
Definition pending_waits (s : page) : gmap nat timer := filter (fun ht => is_wait ht.2 = true) (timers s).
Definition waits (s : page) : nat := size (pending_waits s).

(** Every stream's element has a width that does not change any more. *)
Definition settled (s : page) : Prop :=
  forall id, id ∈ map m_id (monitors s) -> exists w, clientWidth v id = Some w /\ w <> 0.

(** Nothing waits for a change of ratio, or the layout shown is one of the preset. *)
Definition no_leak (s : page) : Prop :=
  (exists l, current_layout cfg s = Some l /\ isPresetLayout cfg (lo_name l) = true) \/
  (forall h, timers s !! h <> Some (TWait ChangeRatio)).

(** Ticks of the waits, in any order. *)
Inductive waiting : page -> list nat -> page -> Prop :=
| waiting_nil s : waiting s [] s
| waiting_tick s h a t hs u :
    timers s !! h = Some (TWait a) -> fire cfg v h s = Some t -> waiting t hs u -> waiting s (h :: hs) u.

(** The widths recorded are the present ones. *)
Definition recorded (d : gmap Z movable) : Prop :=
  forall id mv, d !! id = Some mv -> mv_stop mv = true \/ clientWidth v id = Some (mv_width mv) /\ mv_width mv <> 0.

Lemma look_records d m id mv w : clientWidth v (m_id m) = Some w -> w <> 0 -> look v d m !! id = Some mv ->
  (id = m_id m -> mv_stop mv = true \/ clientWidth v id = Some (mv_width mv) /\ mv_width mv <> 0) /\
  (id <> m_id m -> d !! id = Some mv).
Proof.
  intros W N. unfold look. destruct (d !! m_id m) as [old|] eqn:E.
  2: { intros H. split; [intros ->; congruence|intros _; exact H]. }
  destruct (mv_stop old) eqn:S; [intros H; split; [intros ->; rewrite E in H; injection H as <-; left; exact S|intros _; exact H]|].
  rewrite W. destruct (_ && _); intros H; (split; [intros ->; rewrite lookup_insert_eq in H; injection H as <-|
    intros M; rewrite lookup_insert_ne in H by congruence; exact H]); [left; reflexivity|right; split; [exact W|exact N]].
Qed.

Lemma look_stopped d m id mv : look v d m !! id = Some mv -> (exists old, d !! id = Some old /\ mv_stop old = true) -> mv_stop mv = true.
Proof.
  unfold look. intros H (old & E & S). destruct (decide (m_id m = id)) as [<-|N].
  - rewrite E, S in H. congruence.
  - destruct (d !! m_id m) as [o|]; [|congruence]. destruct (mv_stop o); [congruence|].
    destruct (clientWidth v (m_id m)); [|congruence]. destruct (_ && _); rewrite lookup_insert_ne in H by exact N; congruence.
Qed.

Lemma look_other d m id : id <> m_id m -> look v d m !! id = d !! id.
Proof.
  intros N. unfold look. destruct (d !! m_id m); [|reflexivity]. destruct (mv_stop _); [reflexivity|].
  destruct (clientWidth _ _); [|reflexivity]. destruct (_ && _); rewrite lookup_insert_ne by congruence; reflexivity.
Qed.

Lemma looks_other ms : forall d id, ~ id ∈ map m_id ms -> fold_left (look v) ms d !! id = d !! id.
Proof.
  induction ms as [|m ms IH]; intros d id N; [reflexivity|]. cbn [fold_left]. cbn [map] in N. rewrite elem_of_cons in N.
  rewrite IH by tauto. apply look_other. tauto.
Qed.

(** After the looks, everything that was looked at is recorded; what was recorded
    has stopped. *)
Lemma looks_record ms : forall d, (forall id, id ∈ map m_id ms -> exists w, clientWidth v id = Some w /\ w <> 0) ->
  forall id mv, fold_left (look v) ms d !! id = Some mv -> id ∈ map m_id ms \/ recorded d ->
  mv_stop mv = true \/ clientWidth v id = Some (mv_width mv) /\ mv_width mv <> 0.
Proof.
  induction ms as [|m ms IH]; intros d W id mv; cbn.
  - intros H [Hin|R]; [apply elem_of_nil in Hin as []|exact (R id mv H)].
  - intros H Hin. destruct (decide (id ∈ map m_id ms)) as [I|I].
    + apply (IH (look v d m)) ; [intros id' Hid'; apply W; cbn; apply list_elem_of_further, Hid'|exact H|left; exact I].
    + destruct (W (m_id m) (list_elem_of_here _ _)) as (w & Ew & Nw).
      assert (E : look v d m !! id = Some mv) by (rewrite <- H; symmetry; apply looks_other, I).
      destruct (look_records d m id mv w Ew Nw E) as [L1 L2]. destruct (decide (id = m_id m)) as [->|N]; [apply L1; reflexivity|].
      destruct Hin as [Hin|R]; [apply elem_of_cons in Hin as [Hin|Hin]; [congruence|contradiction]|]. exact (R id mv (L2 N)).
Qed.

Lemma looks_stopped ms : forall d id mv, fold_left (look v) ms d !! id = Some mv ->
  (exists old, d !! id = Some old /\ mv_stop old = true) -> mv_stop mv = true.
Proof.
  induction ms as [|m ms IH]; intros d id mv H O; cbn in H; [destruct O as (old & E & S); congruence|].
  apply (IH _ id mv H). destruct O as (old & E & S).
  destruct (look v d m !! id) as [mv1|] eqn:E1.
  - exists mv1. split; [reflexivity|]. apply (look_stopped d m id mv1 E1). eauto.
  - exfalso. assert (is_Some (look v d m !! id)) as [x Hx] by (apply look_dom; eauto). congruence.
Qed.

Lemma looks_finish ms : forall d, recorded d ->
  forall id mv, fold_left (look v) ms d !! id = Some mv -> id ∈ map m_id ms -> mv_stop mv = true.
Proof.
  induction ms as [|m ms IH]; intros d R id mv; cbn; [intros _ Hin; apply elem_of_nil in Hin as []|].
  intros H Hin. destruct (decide (id = m_id m)) as [->|N].
  - apply (looks_stopped ms _ _ _ H). assert (is_Some (d !! m_id m)) as [old E].
    { apply (look_dom v d m), (looks_dom v ms). eauto. }
    unfold look. rewrite E. destruct (mv_stop old) eqn:S; [eauto|].
    destruct (R _ _ E) as [S'|[W N]]; [congruence|]. rewrite W. apply Z.eqb_neq in N. rewrite Z.eqb_refl, N. cbn [negb andb].
    rewrite lookup_insert_eq. eauto.
  - apply elem_of_cons in Hin as [Hin|Hin]; [congruence|]. refine (IH _ _ id mv H Hin).
    intros id' mv' E'. unfold look in E'. destruct (d !! m_id m) as [old|] eqn:E; [|exact (R _ _ E')].
    destruct (mv_stop old) eqn:S; [exact (R _ _ E')|]. destruct (R _ _ E) as [S'|[W Nw]]; [congruence|].
    rewrite W in E'. pose proof Nw as Nz. apply Z.eqb_neq in Nz. rewrite Z.eqb_refl, Nz in E'. cbn [negb andb] in E'.
    destruct (decide (id' = m_id m)) as [->|M]; [rewrite lookup_insert_eq in E'; injection E' as <-; left; reflexivity|].
    rewrite lookup_insert_ne in E' by congruence. exact (R _ _ E').
Qed.

Lemma check_finishes s : tracked s -> recorded (movableMonitorData s) -> (checkEndMonitorsPlaced v s).1 = true.
Proof.
  intros T R. unfold checkEndMonitorsPlaced. set (d := fold_left (look v) _ _).
  assert (E : all_stopped d = true).
  { apply bool_decide_eq_true. intros id mv H. apply (looks_finish (monitors s) _ R id mv H).
    apply T. apply (looks_dom v (monitors s)). eauto. }
  rewrite E. reflexivity.
Qed.

Lemma check_records s : tracked s -> settled s -> (checkEndMonitorsPlaced v s).1 = false ->
  recorded (movableMonitorData (checkEndMonitorsPlaced v s).2).
Proof.
  intros T W. unfold checkEndMonitorsPlaced. destruct (all_stopped _); [discriminate|]. intros _ id mv H. change
    (fold_left (look v) (monitors s) (movableMonitorData s) !! id = Some mv) in H.
  apply (looks_record (monitors s) _ W id mv H). left. apply T. apply (looks_dom v (monitors s)). eauto.
Qed.

Lemma check_frame s : let t := (checkEndMonitorsPlaced v s).2 in
  timers t = timers s /\ zmMontageLayout t = zmMontageLayout s /\ monitorInitComplete t = monitorInitComplete s /\
  monitors t = monitors s.
Proof. unfold checkEndMonitorsPlaced. destruct (all_stopped _); repeat split. Qed.

Lemma tell_frame f s t : tell f s = Some t -> exists ms, t = s <| monitors := ms |>.
Proof. unfold tell. destruct (tell_all f (monitors s)); intros [= <-]. eauto. Qed.

Lemma pending_lookup s h a : timers s !! h = Some (TWait a) -> pending_waits s !! h = Some (TWait a).
Proof. intros H. apply map_lookup_filter_Some. split; [exact H|reflexivity]. Qed.

Lemma waits_served s t h a : timers s !! h = Some (TWait a) -> timers t = delete h (timers s) -> S (waits t) = waits s.
Proof.
  intros Ha E. unfold waits, pending_waits. rewrite E, map_filter_delete. apply pending_lookup in Ha.
  fold (pending_waits s). rewrite map_size_delete_Some by eauto.
  assert (N : size (pending_waits s) <> 0%nat); [|lia]. intros H0. apply map_size_empty_inv in H0.
  rewrite H0, lookup_empty in Ha. discriminate.
Qed.

(** One tick of a wait: it is served, or the widths are recorded now and were
    not before. *)
Record ticked (s : page) (h : nat) (t : page) : Prop := {
  tk_tracked : tracked t; tk_settled : settled t; tk_leak : no_leak t;
  tk_waits : S (waits t) = waits s \/
    waits t = waits s /\ recorded (movableMonitorData t) /\ ~ recorded (movableMonitorData s);
  tk_start : forall h', timers s !! h' = Some (TWait StartMonitors) ->
    timers t !! h' = Some (TWait StartMonitors) \/ monitorInitComplete t = true;
  tk_init : monitorInitComplete s = true -> monitorInitComplete t = true;
}.

Lemma no_leak_less s t : no_leak s -> zmMontageLayout t = zmMontageLayout s ->
  (forall h, timers t !! h = timers s !! h \/ timers t !! h = None) -> no_leak t.
Proof.
  intros [(l & C & L)|N] E Ht.
  - left. exists l. split; [|exact L]. unfold current_layout in *. rewrite E. exact C.
  - right. intros h. destruct (Ht h) as [-> | ->]; [apply N|discriminate].
Qed.

Lemma served_tick s h a t : tracked t -> settled t -> no_leak s -> timers s !! h = Some (TWait a) ->
  timers t = delete h (timers s) -> zmMontageLayout t = zmMontageLayout s ->
  (a = StartMonitors -> monitorInitComplete t = true) -> (monitorInitComplete s = true -> monitorInitComplete t = true) ->
  ticked s h t.
Proof.
  intros T W N Ha E El Hi Hm. split; [exact T|exact W| | | |exact Hm].
  - apply (no_leak_less s t N El). intros h'. rewrite E.
    destruct (decide (h' = h)) as [->|D]; [right; apply lookup_delete_eq|left; apply lookup_delete_ne; congruence].
  - left. exact (waits_served s t h a Ha E).
  - intros h' Hs. destruct (decide (h' = h)) as [->|D].
    + right. apply Hi. congruence.
    + left. rewrite E, lookup_delete_ne by congruence. exact Hs.
Qed.

Lemma wait_ticks s h a t : tracked s -> settled s -> no_leak s -> timers s !! h = Some (TWait a) ->
  fire cfg v h s = Some t -> ticked s h t.
Proof.
  intros T W N Ha Hf.
  pose proof (follows_step cfg (fun _ => True) (fun _ _ => I) v s (Fire h) I) as F. cbn [step] in F. rewrite Hf in F.
  destruct F as [A Ft]. specialize (Ft T). apply all_moved_ids in A.
  assert (Wt : settled t) by (intros id; rewrite A; apply W).
  unfold fire in Hf. rewrite Ha in Hf. unfold wait_fires in Hf. cbv zeta in Hf.
  destruct (check_frame s) as (Et & El & Ei & Em). pose proof (check_records s T W) as R. pose proof (check_finishes s T) as Fin.
  destruct (checkEndMonitorsPlaced v s) as [placed u]. cbn [fst snd] in *. destruct placed; cbn [negb] in Hf.
  2: { injection Hf as <-. split; [exact Ft|exact Wt| | | |].
       - apply (no_leak_less s u N El). intros h'. left. rewrite Et. reflexivity.
       - right. split; [unfold waits, pending_waits; rewrite Et; reflexivity|]. split; [apply R; reflexivity|].
         intros Rs. discriminate (Fin Rs).
       - intros h' Hs. left. rewrite Et. exact Hs.
       - rewrite Ei. tauto. }
  destruct a.
  - destruct (startMonitors v u) as [w|] eqn:Es; [|discriminate]. injection Hf as <-.
    apply tell_frame in Es as [ms ->]. apply (served_tick s h StartMonitors); try assumption; try reflexivity.
    + fields. rewrite Et. reflexivity.
  - destruct N as [(l & C & L)|N]; [|destruct (N h Ha)].
    unfold current_layout in C, Hf. rewrite El, C, L in Hf. cbn [negb] in Hf. injection Hf as <-.
    assert (G : forall x, timers (initGridStack None (destroyGridStack x)) = timers x /\
      zmMontageLayout (initGridStack None (destroyGridStack x)) = zmMontageLayout x /\
      monitorInitComplete (initGridStack None (destroyGridStack x)) = monitorInitComplete x)
      by (intros x; unfold destroyGridStack; destruct (objGridStack x); repeat split).
    destruct (G u) as (G1 & G2 & G3). apply (served_tick s h ChangeRatio); try assumption.
    + left. exists l. split; assumption.
    + refine (eq_trans (f_equal (delete h) G1) _). rewrite Et. reflexivity.
    + exact (eq_trans G2 El).
    + discriminate.
    + intros Hi. refine (eq_trans G3 _). congruence.
Qed.

(** A tick that only records comes before one that serves, or is the last. *)
Definition unfinished (u : page) : nat := if Nat.eqb (waits u) 0 then 0 else 1.

Lemma waiting_bound s hs u : waiting s hs u -> tracked s -> settled s -> no_leak s ->
  (length hs + 2 * waits u <= 2 * waits s + unfinished u)%nat /\
  (recorded (movableMonitorData s) -> waits s <> 0%nat -> (S (length hs) + 2 * waits u <= 2 * waits s + unfinished u)%nat) /\
  tracked u /\ settled u /\ no_leak u /\
  (forall h, timers s !! h = Some (TWait StartMonitors) ->
     timers u !! h = Some (TWait StartMonitors) \/ monitorInitComplete u = true) /\
  (monitorInitComplete s = true -> monitorInitComplete u = true).
Proof.
  induction 1 as [s|s h a t hs u Ha Hf _ IH]; intros T W N.
  - split; [cbn; lia|]. split; [intros _ Hw; unfold unfinished; destruct (Nat.eqb_spec (waits s) 0); cbn; lia|].
    repeat (split; [assumption|]). split; [tauto|tauto].
  - destruct (wait_ticks s h a t T W N Ha Hf) as [T1 W1 N1 Hw Hs Hi].
    destruct (IH T1 W1 N1) as (B1 & B2 & T2 & W2 & N2 & S2 & I2). cbn [length].
    assert (Hpos : waits s <> 0%nat).
    { intros H0. apply map_size_empty_inv in H0. pose proof (pending_lookup s h a Ha) as P. rewrite H0, lookup_empty in P. discriminate. }
    split; [|split; [|repeat (split; [assumption|])]].
    + destruct Hw as [Hw|(Hw & R & _)]; [lia|]. specialize (B2 R ltac:(lia)). lia.
    + intros R _. destruct Hw as [Hw|(_ & _ & Hn)]; [lia|contradiction].
    + split; [|tauto]. intros h' Hh. destruct (Hs h' Hh) as [H|H]; [apply S2, H|right; apply I2, H].
Qed.

Lemma wait_proceeds s h a : sound (monitors s) -> timers s !! h = Some (TWait a) -> is_Some (fire cfg v h s).
Proof.
  intros S Ha. pose proof (follows_step cfg (fun _ => True) (fun _ _ => I) v s (Fire h) I) as F. cbn [step] in F.
  destruct (fire cfg v h s); [eauto|]. destruct (F S).
Qed.

Lemma waiting_sound s hs u : waiting s hs u -> sound (monitors s) -> sound (monitors u).
Proof.
  induction 1 as [s|s h a t hs u Ha Hf _ IH]; intros S; [exact S|]. apply IH.
  pose proof (follows_step cfg (fun _ => True) (fun _ _ => I) v s (Fire h) I) as F. cbn [step] in F. rewrite Hf in F.
  exact (all_moved_sound _ _ _ (proj1 F) S).
Qed.

End Waits.

(** ** The wait that is not cleared *)

Section Leak.
Variable cfg : config.
Variable v : view.

Lemma looks_first ms : forall d, NoDup (map m_id ms) -> (forall id, id ∈ map m_id ms -> d !! id = Some at_rest) ->
  (forall id, id ∈ map m_id ms -> exists w, clientWidth v id = Some w /\ w <> 0) ->
  forall id, id ∈ map m_id ms -> exists w, clientWidth v id = Some w /\ w <> 0 /\
    fold_left (look v) ms d !! id = Some (Movable w false).
Proof.
  induction ms as [|m ms IH]; intros d Nd R W id Hin; cbn in *; [apply elem_of_nil in Hin as []|].
  apply NoDup_cons in Nd as [Nm Nd]. assert (Hm : m_id m ∈ m_id m :: map m_id ms) by apply list_elem_of_here.
  destruct (W _ Hm) as (w & Ew & Nw). apply elem_of_cons in Hin as [->|Hin].
  - exists w. split; [exact Ew|]. split; [exact Nw|]. rewrite looks_other by exact Nm.
    unfold look. rewrite (R _ Hm), Ew. cbn [at_rest mv_stop mv_width]. apply Z.eqb_neq in Nw. rewrite Nw. cbn [andb].
    apply lookup_insert_eq.
  - apply IH; [exact Nd| |intros id' H; apply W, list_elem_of_further, H|exact Hin].
    intros id' H. rewrite look_other by (intros ->; contradiction). apply R, list_elem_of_further, H.
Qed.

Lemma clears_rest ms : forall d, (forall id, d !! id = Some at_rest \/ id ∈ map m_id ms \/ d !! id = None) ->
  forall id, fold_left clear_movable ms d !! id = Some at_rest \/ fold_left clear_movable ms d !! id = None.
Proof.
  induction ms as [|m ms IH]; intros d H id; cbn.
  - destruct (H id) as [H1|[H1|H1]]; [left; exact H1|apply elem_of_nil in H1 as []|right; exact H1].
  - apply IH. intros id'. unfold clear_movable. destruct (decide (m_id m = id')) as [<-|N].
    + left. apply lookup_insert_eq.
    + rewrite lookup_insert_ne by exact N. destruct (H id') as [H1|[H1|H1]]; [tauto| |tauto].
      cbn in H1. apply elem_of_cons in H1 as [H1|H1]; [congruence|tauto].
Qed.

(** Two looks at widths that are settled, from rest: the second finds everything
    in its place, and leaves everything at rest again. *)
Lemma two_looks s : tracked s -> NoDup (map m_id (monitors s)) -> monitors s <> [] -> settled v s ->
  (forall id, id ∈ map m_id (monitors s) -> movableMonitorData s !! id = Some at_rest) ->
  exists d, checkEndMonitorsPlaced v s = (false, s <| movableMonitorData := d |>) /\
    checkEndMonitorsPlaced v (s <| movableMonitorData := d |>) = (true, s).
Proof.
  intros T Nd Ne W R. set (d := fold_left (look v) (monitors s) (movableMonitorData s)). exists d.
  pose proof (looks_first _ _ Nd R W) as L. fold d in L.
  assert (Td : tracked (s <| movableMonitorData := d |>)).
  { intros id. change (is_Some (d !! id) <-> id ∈ map m_id (monitors s)). unfold d. rewrite looks_dom. apply T. }
  split.
  - unfold checkEndMonitorsPlaced. fold d. assert (E : all_stopped d = false); [|rewrite E; reflexivity].
    apply bool_decide_eq_false. intros A. destruct (monitors s) as [|m ms] eqn:Em; [congruence|].
    destruct (L (m_id m) (list_elem_of_here _ _)) as (w & _ & _ & H). specialize (A _ _ H). discriminate.
  - assert (Rd : recorded v d).
    { intros id mv H. right. assert (Hin : id ∈ map m_id (monitors s)) by (apply Td; eexists; exact H).
      destruct (L id Hin) as (w & Ew & Nw & H'). rewrite H in H'. injection H' as ->. split; assumption. }
    pose proof (check_finishes v _ Td Rd) as F. revert F. unfold checkEndMonitorsPlaced.
    change (monitors (s <| movableMonitorData := d |>)) with (monitors s).
    change (movableMonitorData (s <| movableMonitorData := d |>)) with d. destruct (all_stopped _); [|discriminate]. intros _.
    f_equal. set (d2 := fold_left clear_movable _ _).
    assert (E : d2 = movableMonitorData s); [|rewrite E; destruct s; reflexivity].
    assert (D : forall id, is_Some (d2 !! id) <-> id ∈ map m_id (monitors s)).
    { intros id. unfold d2. rewrite clears_dom, looks_dom. rewrite (Td id : is_Some (d !! id) <-> id ∈ map m_id (monitors s)). tauto. }
    apply map_eq. intros id. destruct (decide (id ∈ map m_id (monitors s))) as [Hin|Hout].
    + rewrite (R id Hin). destruct (proj2 (D id) Hin) as [mv Hmv].
      assert (Hc : d2 !! id = Some at_rest \/ d2 !! id = None); [|destruct Hc as [Hc|Hc]; [exact Hc|congruence]].
      apply clears_rest. intros id'. destruct (decide (id' ∈ map m_id (monitors s))) as [Hin'|Hout]; [tauto|]. right. right.
      rewrite looks_other by exact Hout. apply eq_None_not_Some. intros H. apply Hout, Td, H.
    + transitivity (@None movable); [|symmetry]; apply eq_None_not_Some; intros H; apply Hout; [apply D, H|apply T, H].
Qed.

(** Under a layout of the user's a wait for a change of ratio is never
    cleared; it goes on looking at the widths, and resets what it has seen.  If
    one of them ticks after each tick of the wait that is to start the streams,
    that one never comes to its end: after any number of rounds the page is as
    it was, and no stream has been started. *)
Theorem leaked_wait_starves (s : page) (start leaked : nat) (l : layout) (n : nat) :
  tracked s -> NoDup (map m_id (monitors s)) -> monitors s <> [] -> settled v s ->
  (forall id, id ∈ map m_id (monitors s) -> movableMonitorData s !! id = Some at_rest) ->
  timers s !! start = Some (TWait StartMonitors) -> timers s !! leaked = Some (TWait ChangeRatio) ->
  current_layout cfg s = Some l -> isPresetLayout cfg (lo_name l) = false ->
  run cfg s (concat (replicate n [(v, Fire start); (v, Fire leaked)])) = Some s.
Proof.
  intros T Nd Ne W R Hs Hl C L. induction n as [|n IH]; [reflexivity|]. cbn [replicate concat app run step].
  destruct (two_looks s T Nd Ne W R) as (d & E1 & E2). unfold fire at 1. rewrite Hs. unfold wait_fires at 1. rewrite E1.
  cbn [negb]. unfold fire at 1. change (timers (s <| movableMonitorData := d |>)) with (timers s). rewrite Hl.
  unfold wait_fires at 1. rewrite E2. cbn [negb]. cbv zeta. rewrite C, L. exact IH.
Qed.
End Leak.

(** ** Inactivity *)

Section Idle.
Variable cfg : config.
(** The request for the dialog has failed, and there is none. *)
Variable stranded : bool.

(** The inactivity timer has stopped the page, and nothing is on its way that
    would start a stream. *)
Record asleep (s : page) : Prop := {
  as_idle : idleTimeoutTriggered s = true;
  as_down : Forall MonitorStream.down (map m_stream (monitors s));
  as_probe : Auth.authPendingCallbacks (auth s) = [];
  as_waits : forall h, timers s !! h <> Some (TWait StartMonitors);
  as_dialog : stranded = true -> dialog_shown s = false /\ dialog_asked s = 0%nat;
}.

Definition asks (s : page) : bool * nat := (dialog_shown s, dialog_asked s).
Definition sleeping (s : page) := (idleTimeoutTriggered s, map m_stream (monitors s), auth s, timers s, asks s).

Lemma asks_dialog s t : asks t = asks s -> (stranded = true -> dialog_shown s = false /\ dialog_asked s = 0%nat) ->
  stranded = true -> dialog_shown t = false /\ dialog_asked t = 0%nat.
Proof. unfold asks. intros [= -> ->] H. exact H. Qed.

Lemma asleep_same s t : asleep s -> sleeping t = sleeping s -> asleep t.
Proof. intros [A1 A2 A3 A4 A5] [= E1 E2 E3 E4 E5 E6]. split; [congruence..|]. rewrite E5, E6. exact A5. Qed.

Lemma asleep_map f s t : asleep s -> sleeping t = (idleTimeoutTriggered s, map m_stream (map f (monitors s)), auth s, timers s, asks s) ->
  (forall m, m_stream (f m) = m_stream m) -> asleep t.
Proof. intros A E Hf. apply (asleep_same s t A). rewrite E. unfold sleeping. rewrite map_map. do 4 f_equal. apply map_ext, Hf. Qed.

Lemma asleep_add tm s : tm <> TWait StartMonitors -> asleep s -> asleep (add_timer tm s).
Proof.
  intros N [A1 A2 A3 A4 A5]. split; [exact A1|exact A2|exact A3| |exact A5]. intros h. change (<[next s := tm]> (timers s) !! h <> Some (TWait StartMonitors)).
  destruct (decide (next s = h)) as [<-|D]; [rewrite lookup_insert_eq; congruence|rewrite lookup_insert_ne by exact D; apply A4].
Qed.

Lemma asleep_delete h s t : asleep s ->
  sleeping t = (idleTimeoutTriggered s, map m_stream (monitors s), auth s, delete h (timers s), asks s) -> asleep t.
Proof.
  intros [A1 A2 A3 A4 A5] [= E1 E2 E3 E4 E5 E6]. split; [congruence..| |rewrite E5, E6; exact A5]. intros h'. rewrite E4.
  destruct (decide (h = h')) as [<-|D]; [rewrite lookup_delete_eq; discriminate|rewrite lookup_delete_ne by exact D; apply A4].
Qed.

Lemma asleep_drop h s t : asleep s ->
  sleeping t = (idleTimeoutTriggered s, map m_stream (monitors s), auth s, drop h (timers s), asks s) -> asleep t.
Proof. destruct h as [h|]; [apply asleep_delete|apply asleep_same]. Qed.

(** What a page whose user is gone tells its streams. *)
Definition harmless (e : MonitorStream.event) : bool :=
  match e with
  | MonitorStream.Stop | MonitorStream.Kill | MonitorStream.MaxFPS _ | MonitorStream.Scaled _ _ _ | MonitorStream.NewAuth _ => true
  | _ => false
  end.

Lemma harmless_run mcfg es : forall st st', Forall (fun e => harmless e = true) es -> MonitorStream.down st ->
  MonitorStream.run mcfg st es = Some st' -> MonitorStream.down st'.
Proof.
  induction es as [|e es IH]; intros st st' F D; cbn; [intros [= <-]; exact D|]. apply Forall_cons in F as [Fe F].
  pose proof (MonitorStream.down_step mcfg st e D) as S. destruct (MonitorStream.step mcfg st e) as [st1|]; [|discriminate].
  apply IH; [exact F|]. apply S. destruct e; try discriminate Fe; reflexivity.
Qed.

Definition sleepsO (o : option page) : Prop := match o with Some s => asleep s | None => True end.

Lemma sleeps_tell f s : (forall m st, m ∈ monitors s -> MonitorStream.down (m_stream m) ->
    MonitorStream.run (m_cfg m) (m_stream m) (f m) = Some st -> MonitorStream.down st) ->
  asleep s -> sleepsO (tell f s).
Proof.
  intros Hf [A1 A2 A3 A4 A5]. unfold tell. destruct (tell_all f (monitors s)) as [ms'|] eqn:E; [|exact I].
  cut (Forall MonitorStream.down (map m_stream ms')); [intros D; split; assumption|]. clear A1 A3 A4 A5.
  revert ms' A2 Hf E. induction (monitors s) as [|m ms IH]; intros ms' A2 Hf; cbn; [intros [= <-]; constructor|].
  cbn in A2. apply Forall_cons in A2 as [D A2]. destruct (MonitorStream.run _ _ _) as [st|] eqn:R; [|discriminate].
  destruct (tell_all f ms) as [ms1|]; [|discriminate]. intros [= <-]. cbn. constructor.
  - exact (Hf m st (list_elem_of_here _ _) D R).
  - apply (IH ms1 A2); [|reflexivity]. intros m' st' Hm. apply Hf, list_elem_of_further, Hm.
Qed.

Lemma sleeps_harmless f s : (forall m, Forall (fun e => harmless e = true) (f m)) -> asleep s -> sleepsO (tell f s).
Proof. intros Hf. apply sleeps_tell. intros m st _ D. apply harmless_run; [apply Hf|exact D]. Qed.

Lemma sleeps_stop s : asleep s -> sleepsO (stopMonitors s).
Proof. apply sleeps_harmless. intros m. repeat constructor. Qed.

(** From any page: the streams are stopped. *)
Lemma stop_all_down s t : stopMonitors s = Some t ->
  Forall MonitorStream.down (map m_stream (monitors t)) /\ exists ms, t = s <| monitors := ms |>.
Proof.
  unfold stopMonitors, tell. destruct (tell_all _ (monitors s)) as [ms'|] eqn:E; [|discriminate]. intros [= <-].
  split; [|eauto]. change (Forall MonitorStream.down (map m_stream ms')). revert ms' E.
  induction (monitors s) as [|m ms IH]; intros ms'; cbn; [intros [= <-]; constructor|].
  destruct (tell_all _ ms) as [ms1|]; [|discriminate]. intros [= <-]. cbn. constructor; [apply MonitorStream.stop_down|apply IH; reflexivity].
Qed.

Lemma sleeps_trigger id s : asleep s -> asleep (setTriggerChangedMonitors id s).
Proof. intros A. unfold setTriggerChangedMonitors. case_bool_decide; [exact A|(refine (asleep_same _ _ A _); reflexivity)]. Qed.

Lemma sleeps_fold {X} (f : page -> X -> page) xs s : asleep s -> (forall u x, asleep u -> asleep (f u x)) -> asleep (fold_left f xs s).
Proof. intros A Hf. revert s A. induction xs as [|x xs IH]; intros s A; cbn; [exact A|]. apply IH, Hf, A. Qed.

Lemma sleeps_triggerAll s : asleep s -> asleep (triggerAll s).
Proof. intros A. apply sleeps_fold; [exact A|]. intros u m. apply sleeps_trigger. Qed.

Lemma stream_set_ratio v avg m : m_stream (setRatioForMonitor v avg m) = m_stream m.
Proof. unfold setRatioForMonitor. destruct (m_novideo m); reflexivity. Qed.

Lemma sleeps_serve v object : forall k s, asleep s -> sleepsO (serve cfg v object k s).
Proof.
  induction object as [|item object IH]; intros k s A; cbn [serve]; [exact A|]. cbv zeta.
  assert (Hs : forall u, asleep u -> asleep (splice (Nat.pred k) u)) by (intros u Au; (refine (asleep_same _ _ Au _); reflexivity)).
  destruct item as [id|]; [|apply IH, Hs, A].
  assert (Hm : sleepsO (match find_monitor id s with
      | None => Some s
      | Some m =>
          match tell (only id (fun m => [scale_event v m]))
                  (if ready v (objGridStack s) m then splice (Nat.pred k) (emit (GridResize id) (set_ratio_of v id s)) else s) with
          | Some s => serve cfg v object (Nat.pred k) (if audio_shown cfg then emit GridColumns s else s)
          | None => None
          end end)).
  { destruct (find_monitor id s) as [m|]; [|exact A]. set (u := if ready _ _ _ then _ else s).
    assert (Au : asleep u).
    { unfold u. destruct (ready _ _ _); [|exact A]. apply Hs. eapply asleep_map; [exact A|reflexivity|].
      intros m'. cbn beta. destruct (m_id m' =? id); [apply stream_set_ratio|reflexivity]. }
    pose proof (sleeps_harmless (only id (fun m => [scale_event v m])) u) as T.
    destruct (tell _ u) as [w|]; [|exact I]. apply IH. cbn [sleepsO] in T.
    assert (Aw : asleep w) by (apply T; [intros m'; unfold only; destruct (_ =? _); repeat constructor|exact Au]).
    destruct (audio_shown cfg); [(refine (asleep_same _ _ Aw _); reflexivity)|exact Aw]. }
  destruct id; first [apply IH, Hs, A | exact Hm].
Qed.

Ltac still_asleep A := refine (asleep_same _ _ A _); reflexivity.

Lemma sleeps_destroy s : asleep s -> asleep (destroyGridStack s).
Proof. intros A. unfold destroyGridStack. destruct (objGridStack s); [still_asleep A|exact A]. Qed.

Lemma sleeps_grid o s : asleep s -> asleep (initGridStack o s).
Proof. intros A. still_asleep A. Qed.

Lemma sleeps_wait v h a s : asleep s -> timers s !! h = Some (TWait a) -> sleepsO (wait_fires cfg v h a s).
Proof.
  intros A Ht. unfold wait_fires. destruct (checkEndMonitorsPlaced v s) as [placed u] eqn:C.
  assert (Au : asleep u).
  { refine (asleep_same _ _ A _). unfold checkEndMonitorsPlaced in C. destruct (all_stopped _); injection C as _ <-; reflexivity. }
  clear C. destruct (negb placed); [exact Au|]. destruct a; [destruct (as_waits _ A h Ht)|].
  destruct (current_layout cfg u) as [l|]; [|exact Au]. destruct (negb _); [exact Au|].
  pose proof (sleeps_grid None _ (sleeps_destroy u Au)) as Ag. set (w := initGridStack _ _) in *. clearbody w.
  refine (asleep_delete h _ _ Ag _). reflexivity.
Qed.

Lemma sleeps_ratioAll s : asleep s -> asleep (changeRatioForAll s).
Proof.
  intros A. unfold changeRatioForAll, waitingMonitorsPlaced. cbv zeta. apply asleep_add; [discriminate|]. apply sleeps_triggerAll.
  unfold setSelectedRatioForAllMonitors. eapply asleep_map; [exact A|reflexivity|]. reflexivity.
Qed.

Lemma sleeps_check s : asleep s -> asleep (checkRatioForAllMonitors s).
Proof.
  intros A. unfold checkRatioForAllMonitors. set (u := if String.eqb _ _ then _ else s).
  assert (Au : asleep u) by (unfold u; destruct (String.eqb _ _); [still_asleep A|exact A]). clearbody u.
  destruct (fold_left _ _ _) as [prev same]. still_asleep Au.
Qed.

Lemma sleeps_pick id value s : asleep s -> asleep (pick_ratio id value s).
Proof. intros A. eapply asleep_map; [exact A|reflexivity|]. intros m. cbn beta. destruct (m_id m =? id); reflexivity. Qed.

Lemma sleeps_set_ratios v s : asleep s -> asleep (set_ratios v s).
Proof. intros A. eapply asleep_map; [exact A|reflexivity|]. intros m. apply stream_set_ratio. Qed.

Lemma sleeps_widths w s : asleep s -> asleep (put_widths w s).
Proof. intros A. apply sleeps_fold; [exact A|]. intros u m Au. still_asleep Au. Qed.

Lemma sleeps_preset v name s : asleep s -> asleep (show_preset cfg v name s).
Proof.
  intros A. assert (A1 : asleep (s <| ratio := setSelected (ratio s) (cookieRatio s) |>)) by still_asleep A.
  apply sleeps_grid, sleeps_set_ratios, sleeps_widths, sleeps_ratioAll, A1.
Qed.

Lemma sleeps_custom v l s : asleep s -> asleep (show_custom v l s).
Proof.
  intros A. unfold show_custom. cbv zeta. pose proof (sleeps_set_ratios v _ (sleeps_widths (Fin 12) s A)) as Aw.
  set (u := set_ratios _ _) in *. clearbody u. destruct (lo_grid l) as [grid|]; [|still_asleep Aw].
  apply sleeps_grid, sleeps_check. destruct (lo_ratios l) as [rs|].
  - apply sleeps_fold; [exact Aw|]. intros x [id value]. apply sleeps_pick.
  - eapply asleep_map; [exact Aw|reflexivity|]. reflexivity.
Qed.

Lemma sleeps_layout v s : asleep s -> asleep (selectLayout cfg v s).
Proof.
  intros A. unfold selectLayout. destruct (editing s); [still_asleep A|]. destruct (current_layout cfg s) as [l|]; [|still_asleep A].
  destruct (zmMontageLayout s) as [id|]; [|still_asleep A]. destruct (id =? 0); [still_asleep A|]. cbv zeta.
  pose proof (sleeps_destroy s A) as Ad. set (u := destroyGridStack s) in *. clearbody u.
  set (w := if isPresetLayout cfg _ then _ else _).
  assert (Aw : asleep w) by (unfold w; destruct (isPresetLayout cfg _); [apply sleeps_preset|apply sleeps_custom]; exact Ad).
  clearbody w. pose proof (asleep_add TScroll w ltac:(discriminate) Aw) as Aa. set (x := add_timer _ w) in *. clearbody x. still_asleep Aa.
Qed.

Lemma sleeps_share s : asleep s -> sleepsO (share s).
Proof. apply sleeps_harmless. intros m. repeat constructor. Qed.

(** The answer of a probe nobody waits for. *)
Lemma sleeps_effect v o fx : sleepsO o -> Auth.ran fx = [] -> sleepsO (run_effect v o fx).
Proof.
  intros A. destruct o as [s|]; [|intros _; exact I]. cbn [sleepsO] in A. cbn [run_effect].
  assert (Ae : asleep (emit (AuthFx fx) s)) by still_asleep A. destruct fx as [u|u|data|cb]; intros R; try exact Ae.
  - apply sleeps_share. still_asleep Ae.
  - discriminate R.
Qed.

Lemma sleeps_auth v r s : asleep s -> Auth.authPendingCallbacks r.1 = [] -> Forall (fun fx => Auth.ran fx = []) r.2 ->
  sleepsO (with_auth v r s).
Proof.
  intros [A1 A2 _ A4 A5] Ep F. unfold with_auth. assert (A : sleepsO (Some (s <| auth := r.1 |>))) by (split; assumption).
  revert A. generalize (Some (s <| auth := r.1 |>)). induction F as [|fx fxs Hf _ IH]; intros o A; [exact A|]. cbn.
  apply IH, sleeps_effect; assumption.
Qed.

Lemma probe_quiet (a : Auth.state unit) : Auth.authPendingCallbacks a = [] ->
  Auth.authPendingCallbacks (Auth.probe_always a).1 = [] /\ (Auth.probe_always a).2 = [].
Proof. intros E. unfold Auth.probe_always. cbv zeta. rewrite E. destruct (Auth.authGoingToLogin _); split; reflexivity. Qed.

Lemma login_quiet (b : bool) u w (a : Auth.state unit) : Auth.authPendingCallbacks a = [] ->
  let r := if b then Auth.goToLogin u w a else (a, []) in
  Auth.authPendingCallbacks r.1 = [] /\ Forall (fun fx => Auth.ran fx = []) r.2.
Proof.
  intros P. cbv zeta. destruct b; [|split; [exact P|constructor]]. unfold Auth.goToLogin.
  destruct (Auth.authGoingToLogin a); (split; [exact P|repeat constructor]).
Qed.

Lemma sleeps_own id e s : asleep s -> (forall m, m ∈ monitors s -> m_id m = id -> MonitorStream.wakes (m_stream m) e = false) ->
  sleepsO (own id e s).
Proof.
  intros A Hw. unfold own.
  pose proof (sleeps_tell (only id (fun _ => [e])) s) as T. destruct (tell _ s) as [u|]; [|exact I].
  assert (Au : asleep u).
  { apply T; [|exact A]. intros m st Hm D. unfold only. destruct (m_id m =? id) eqn:E; cbn; [|intros [= <-]; exact D].
    apply Z.eqb_eq in E. pose proof (MonitorStream.down_step (m_cfg m) (m_stream m) e D (Hw m Hm E)) as S.
    destruct (MonitorStream.step _ _ e) as [st1|]; [|discriminate]. intros [= <-]. exact S. }
  clear T. destruct (find_monitor id u) as [m|]; [|exact Au]. destruct (String.eqb _ _); [exact Au|]. apply sleeps_share. still_asleep Au.
Qed.

(** The events that do not get the page going again. *)
Definition undisturbed (s : page) (e : event) : bool :=
  match e with
  | DialogClosed => stranded || negb (dialog_shown s)
  | Fire h => negb (stranded && bool_decide (timers s !! h = Some TIdle))
  | Own id e => forallb (fun m => negb ((m_id m =? id) && MonitorStream.wakes (m_stream m) e)) (monitors s)
  | _ => true
  end.

Lemma sleeps_step v s e : asleep s -> undisturbed s e = true -> sleepsO (step cfg v s e).
Proof.
  intros A U. destruct e; cbn [step]; cbn [undisturbed] in U.
  - unfold on_scroll. rewrite (as_idle _ A), orb_true_r. exact A.
  - unfold fire. cbv zeta. assert (Ao : asleep (s <| timers := delete h (timers s) |>)) by (refine (asleep_delete h _ _ A _); reflexivity).
    destruct (timers s !! h) as [[| | | |a]|] eqn:Ht.
    + apply sleeps_stop, Ao.
    + assert (F : stranded = false) by (destruct stranded; [rewrite bool_decide_eq_true_2 in U by first [exact Ht|reflexivity]; discriminate U|reflexivity]).
      unfold stopPlayback. set (u := _ <| idleTimeoutTriggered := true |>).
      assert (Au : asleep u) by (destruct Ao; split; assumption || reflexivity).
      pose proof (sleeps_stop u Au) as S. destruct (stopMonitors u) as [w|]; [|exact I]. cbn [sleepsO] in S |- *.
      destruct S as [S1 S2 S3 S4 _]. destruct (dialog w); split; first [assumption|rewrite F; discriminate].
    + unfold on_scroll. change (idleTimeoutTriggered (s <| timers := delete h (timers s) |>)) with (idleTimeoutTriggered s).
      rewrite (as_idle _ A), orb_true_r. exact Ao.
    + apply sleeps_serve, A.
    + apply sleeps_wait; assumption.
    + exact A.
  - destruct hidden.
    + cbn [sleepsO]. unfold hide_page. cbv zeta. set (u := s <| timers := drop (TimerHideShow s) (timers s) |>).
      assert (Au : asleep u) by (refine (asleep_drop (TimerHideShow s) _ _ A _); reflexivity). clearbody u.
      pose proof (asleep_add THide u ltac:(discriminate) Au) as Aa. set (w := add_timer THide u) in *. clearbody w. still_asleep Aa.
    + unfold show_page. cbv zeta. set (u := s <| timers := drop (TimerHideShow s) (timers s) |> <| TimerHideShow := None |>).
      assert (Au : asleep u) by (refine (asleep_drop (TimerHideShow s) _ _ A _); reflexivity). clearbody u.
      rewrite (as_idle _ Au). exact Au.
  - cbn [sleepsO]. destruct (viewing_timeout cfg); [|exact A]. unfold resetTimer. cbv zeta. set (u := s <| timers := drop (time s) (timers s) |>).
    assert (Au : asleep u) by (refine (asleep_drop (time s) _ _ A _); reflexivity). clearbody u.
    pose proof (asleep_add TIdle u ltac:(discriminate) Au) as Aa. set (w := add_timer TIdle u) in *. clearbody w. still_asleep Aa.
  - cbn [sleepsO]. destruct (Nat.eqb_spec (dialog_asked s) 0) as [E|N]; [exact A|].
    assert (F : stranded = false) by (destruct stranded eqn:Es; [destruct (as_dialog _ A Es); congruence|reflexivity]).
    destruct A as [A1 A2 A3 A4 _]. unfold dialog_done. cbv zeta. destruct (dialog _); split; first [assumption|rewrite F; discriminate].
  - destruct A as [A1 A2 A3 A4 A5]. split; try assumption. intros Es. destruct (A5 Es) as [D1 D2]. split; [exact D1|].
    change (Nat.pred (dialog_asked s) = 0%nat). rewrite D2. reflexivity.
  - assert (D : dialog_shown s = false) by (apply orb_true_iff in U as [U|U]; [apply (as_dialog _ A U)|apply negb_true_iff, U]). rewrite D. exact A.
  - destruct (Auth.authRevalidating _); [|exact A]. pose proof (probe_quiet _ (as_probe _ A)) as [P1 P2].
    unfold Auth.probe_done. destruct (Auth.probe_always (auth s)) as [a fx]. cbn [fst snd] in P1, P2. subst fx.
    apply sleeps_auth; [exact A|exact P1|]. repeat constructor.
  - destruct (Auth.authRevalidating _); [|exact A]. unfold Auth.probe_fail.
    match goal with |- context [if ?b then Auth.goToLogin ?u ?w ?x else _] => pose proof (login_quiet b u w x (as_probe _ A)) as G; cbv zeta in G; destruct (if b then _ else _) as [c fx] end.
    cbn [fst snd] in G. destruct G as [Pb Ff]. pose proof (probe_quiet c Pb) as [P1 P2].
    destruct (Auth.probe_always c) as [a fx']. cbn [fst snd] in P1, P2. subst fx'. apply sleeps_auth; [exact A|exact P1|].
    cbn [snd]. rewrite app_nil_r. exact Ff.
  - cbn [sleepsO]. unfold resized. cbv zeta. destruct (match scrollBarExists s with Some _ => _ | None => _ end); [still_asleep A|].
    apply sleeps_fold; [still_asleep A|]. intros u x Au. destruct (editing u); [exact Au|apply sleeps_trigger, Au].
  - apply sleeps_ratioAll. still_asleep A.
  - apply sleeps_trigger, sleeps_check, sleeps_pick, A.
  - apply sleeps_layout. still_asleep A.
  - cbn [sleepsO]. unfold edit_layout. cbv zeta. destruct (current_layout cfg _); [destruct (_ && _)|]; still_asleep A.
  - apply sleeps_layout. still_asleep A.
  - cbn [sleepsO]. unfold save_layout. cbv zeta. repeat case_match; first [exact A|still_asleep A].
  - cbn [sleepsO]. pose proof (sleeps_triggerAll s A) as At. unfold changeMonitorStatusPosition. set (u := triggerAll s) in *. clearbody u. still_asleep At.
  - assert (T : sleepsO (monitorsSetRate fps s)) by (apply sleeps_harmless; [intros m; repeat constructor|exact A]).
    destruct (monitorsSetRate fps s) as [u|]; [|exact I]. cbn [option_map sleepsO] in *. still_asleep T.
  - apply sleeps_harmless; [intros m; repeat constructor|]. destruct submit; [|exact A].
    refine (asleep_drop (resizeInterval s) _ _ A _); reflexivity.
  - apply sleeps_own; [exact A|]. intros m Hm E. pose proof (forallb_elem _ _ m U Hm) as W. cbv beta in W.
    rewrite E, Z.eqb_refl in W. apply negb_true_iff, W.
Qed.

(** Every event finds the page undisturbed by it. *)
Fixpoint undisturbed_run (s : page) (es : list (view * event)) : bool :=
  match es with
  | [] => true
  | (v, e) :: es => undisturbed s e && match step cfg v s e with Some t => undisturbed_run t es | None => true end
  end.

Lemma sleeps_run es : forall s u, asleep s -> undisturbed_run s es = true -> run cfg s es = Some u -> asleep u.
Proof.
  induction es as [|[v e] es IH]; intros s u A; cbn; [intros _ [= <-]; exact A|]. intros [Ue Us]%andb_true_iff.
  pose proof (sleeps_step v s e A Ue) as S. destruct (step cfg v s e) as [t|]; [|discriminate]. apply IH; assumption.
Qed.

Definition quiet_streams (s : page) : Prop := forall m, m ∈ monitors s -> MonitorStream.down (m_stream m).

Lemma asleep_quiet s : asleep s -> quiet_streams s.
Proof. intros A m Hm. pose proof (as_down _ A) as D. rewrite Forall_map, Forall_forall in D. exact (D m Hm). Qed.
End Idle.

(** When the inactivity timer fires and nothing else is on its way, the page
    falls asleep. *)
Lemma idle_falls_asleep v h s t cfg : timers s !! h = Some TIdle -> Auth.authPendingCallbacks (auth s) = [] ->
  (forall h', timers s !! h' <> Some (TWait StartMonitors)) -> fire cfg v h s = Some t ->
  asleep false t /\ dialog t = dialog s /\ dialog_shown t = (dialog s || dialog_shown s)%bool /\
  dialog_asked t = (if dialog s then dialog_asked s else S (dialog_asked s)).
Proof.
  intros Ht Hp Hw. unfold fire. rewrite Ht. unfold stopPlayback. cbv zeta. set (u := _ <| idleTimeoutTriggered := true |>).
  destruct (stopMonitors u) as [w|] eqn:E; [|discriminate]. intros [= <-]. destruct (stop_all_down u w E) as [D [ms ->]].
  assert (A : asleep false (u <| monitors := ms |>)).
  { split; [reflexivity|exact D|exact Hp| |discriminate]. intros h'. change (delete h (timers s) !! h' <> Some (TWait StartMonitors)).
    destruct (decide (h = h')) as [<-|N]; [rewrite lookup_delete_eq; discriminate|rewrite lookup_delete_ne by exact N; apply Hw]. }
  change (dialog (u <| monitors := ms |>)) with (dialog s). destruct A as [A1 A2 A3 A4 _].
  destruct (dialog s) eqn:Ed; (split; [split; first [assumption|discriminate]|]); repeat split; exact Ed.
Qed.

(** Once the user has been inactive for the time allowed, no stream plays
    until the user has dismissed the dialog: not by scrolling, resizing, showing
    the page again, changing ratios or layouts, by answers and timers of the
    page or errors of the streams; all but the restart a stream has itself
    scheduled before. *)
Theorem idle_stays_stopped (cfg : config) (v : view) (h : nat) (s t u : page) (es : list (view * event)) :
  timers s !! h = Some TIdle -> Auth.authPendingCallbacks (auth s) = [] ->
  (forall h', timers s !! h' <> Some (TWait StartMonitors)) -> fire cfg v h s = Some t ->
  undisturbed_run cfg false t es = true -> run cfg t es = Some u -> quiet_streams u.
Proof.
  intros Ht Hp Hw Hf U R. destruct (idle_falls_asleep v h s t cfg Ht Hp Hw Hf) as [A _].
  exact (asleep_quiet false u (sleeps_run cfg false es t u A U R)).
Qed.

(** When the request for the dialog fails, the page stays stopped under the
    hands of its user: there is no dialog to dismiss, and nothing the user does
    starts a stream until the inactivity timer has fired once more. *)
Theorem failed_dialog_strands (cfg : config) (v : view) (h : nat) (s t u : page) (es : list (view * event)) :
  timers s !! h = Some TIdle -> Auth.authPendingCallbacks (auth s) = [] ->
  (forall h', timers s !! h' <> Some (TWait StartMonitors)) ->
  dialog s = false -> dialog_shown s = false -> dialog_asked s = 0%nat ->
  run cfg s [(v, Fire h); (v, DialogFail)] = Some t -> undisturbed_run cfg true t es = true -> run cfg t es = Some u ->
  quiet_streams u.
Proof.
  intros Ht Hp Hw Hd Hs Ha R0 U R. cbn [run step] in R0. destruct (fire cfg v h s) as [w|] eqn:Hf; [|discriminate].
  injection R0 as <-. destruct (idle_falls_asleep v h s w cfg Ht Hp Hw Hf) as (A & _ & E2 & E3). rewrite Hd in E2, E3.
  refine (asleep_quiet true u (sleeps_run cfg true es _ u _ U R)). destruct A as [A1 A2 A3 A4 _]. split; try assumption.
  intros _. split; [change (dialog_shown w = false); rewrite E2; exact Hs|]. change (Nat.pred (dialog_asked w) = 0%nat).
  rewrite E3, Ha. reflexivity.
Qed.

(** ** Hiding the page and coming back *)

Lemma tell_all_at f ms ms' i m : tell_all f ms = Some ms' -> ms !! i = Some m ->
  exists st, MonitorStream.run (m_cfg m) (m_stream m) (f m) = Some st /\ ms' !! i = Some (m <| m_stream := st |>).
Proof.
  revert ms' i. induction ms as [|x ms IH]; intros ms' i; [discriminate|]. cbn.
  destruct (MonitorStream.run (m_cfg x) (m_stream x) (f x)) as [st|] eqn:R; [|discriminate].
  destruct (tell_all f ms) as [ms1|]; [|discriminate]. intros [= <-]. destruct i as [|i]; cbn.
  - intros [= ->]. eauto.
  - apply IH. reflexivity.
Qed.

Lemma tell_at f s t i m : tell f s = Some t -> monitors s !! i = Some m ->
  exists st, MonitorStream.run (m_cfg m) (m_stream m) (f m) = Some st /\ monitors t !! i = Some (m <| m_stream := st |>).
Proof.
  unfold tell. destruct (tell_all f (monitors s)) as [ms'|] eqn:E; [|discriminate]. intros [= <-] H. exact (tell_all_at f _ _ i m E H).
Qed.

Lemma zero_count p (cs : list (string * Z)) : MonitorStream.getCount p (map (fun '(n, _) => (n, 0)) cs) = 0.
Proof. induction cs as [|[n c] cs IH]; cbn; [reflexivity|]. destruct (has n p); [reflexivity|exact IH]. Qed.

(** [monitor.setPlayer(monitor.player)] clears errors and nothing else. *)
Lemma set_player_zms t : MonitorStream.stopped_zms t ->
  let u := MonitorStream.setPlayer (MonitorStream.player t) "" t in
  MonitorStream.stopped_zms u /\ MonitorStream.out u = MonitorStream.out t /\ MonitorStream.connKey u = MonitorStream.connKey t /\
  MonitorStream.stream_connkey u = MonitorStream.stream_connkey t /\ MonitorStream.el_src u = MonitorStream.el_src t.
Proof.
  intros [Ac D P C Au Sp K Ap T]. rewrite P. cbv zeta. split; [|repeat split].
  split; try assumption; [reflexivity|]. exact (zero_count "zms" (MonitorStream.playerPriority t)).
Qed.

(** A credential that is as it was changes nothing. *)
Lemma same_auth_zms t rl : MonitorStream.relay t = rl -> MonitorStream.stopped_zms t ->
  MonitorStream.stopped_zms (t <| MonitorStream.relay := rl |>).
Proof. intros E [Ac D P C Au Sp K Ap T]. split; try assumption. unfold MonitorStream.srcAuthCurrent in *. rewrite E in Au. exact Au. Qed.

(** What is kept of the page while it is hidden and its credential is looked up. *)
Record resting (s : page) : Prop := {
  rs_idle : idleTimeoutTriggered s = false;
  rs_probe : Auth.authRevalidating (auth s) = false; rs_calls : Auth.authPendingCallbacks (auth s) = [];
  rs_login : Auth.authGoingToLogin (auth s) = false; rs_hash : Auth.hash (relay s) <> "";
}.

Lemma startVisible_resumes v m : in_view v m = true -> MonitorStream.stopped_zms (m_stream m) ->
  exists st, MonitorStream.run (m_cfg m) (m_stream m) (startVisible v m) = Some st /\
    MonitorStream.out st = (MonitorStream.out (m_stream m) ++
      [MonitorStream.Request (MonitorStream.stream_connkey (m_stream m)) MonitorStream.CMD_PLAY])%list /\
    MonitorStream.connKey st = MonitorStream.connKey (m_stream m) /\ MonitorStream.started st = true.
Proof.
  intros Hv Hz. unfold startVisible, start_player. rewrite Hv. pose proof (MonitorStream.sz_down _ Hz) as [D _]. rewrite D.
  cbn [negb andb MonitorStream.run MonitorStream.step].
  destruct (set_player_zms _ Hz) as (Hu & O & Ek & Es & _). set (u := MonitorStream.setPlayer _ _ _) in *. clearbody u.
  destruct (MonitorStream.start_resumes (m_cfg m) (random v (m_id m)) "" u Hu) as (st & -> & O' & Ek' & _ & S & _).
  exists st. split; [reflexivity|]. split; [rewrite O', O, Es; reflexivity|]. split; [congruence|exact S].
Qed.

Lemma probe_starts url rl : Auth.hash rl <> "" ->
  Auth.whenAuthFresh url (Some rl) tt Auth.init = (Auth.State false true [tt], [Auth.GetJSON (Auth.authProbeUrl url)]).
Proof. intros H. unfold Auth.whenAuthFresh. rewrite (proj2 (String.eqb_neq _ _) H). reflexivity. Qed.

(** The four steps, as calls on the streams. *)
Lemma hide_show_steps cfg v1 v2 s u : resting s ->
  run cfg s [(v1, Visibility true); (v1, Fire (next s)); (v2, Visibility false); (v2, ProbeDone None)] = Some u ->
  exists s1 s2 s3 w1 w2 w3, stopMonitors s1 = Some w1 /\ share s2 = Some w2 /\ startVisibleMonitors v2 s3 = Some w3 /\
    monitors s1 = monitors s /\ monitors s2 = monitors w1 /\ relay s2 = relay s /\ monitors s3 = monitors w2 /\ monitors u = monitors w3.
Proof.
  intros [Hi Hp Hc Hl Hh]. cbn [run step]. unfold fire at 1. unfold hide_page. cbv zeta.
  set (s0 := add_timer THide _ <| TimerHideShow := _ |>).
  assert (Ht : timers s0 !! next s = Some THide) by apply lookup_insert_eq. rewrite Ht.
  set (s1 := s0 <| timers := delete (next s) (timers s0) |>).
  destruct (stopMonitors s1) as [w1|] eqn:E1; [|discriminate]. pose proof (tell_frame _ _ _ E1) as [ms1 F1].
  unfold show_page. cbv zeta. set (s1' := w1 <| timers := _ |> <| TimerHideShow := None |>).
  assert (Hi' : idleTimeoutTriggered s1' = false) by (unfold s1'; rewrite F1; exact Hi). rewrite Hi'.
  assert (Ha : auth s1' = auth s) by (unfold s1'; rewrite F1; reflexivity).
  assert (Hr : relay s1' = relay s) by (unfold s1'; rewrite F1; reflexivity). rewrite Ha, Hr.
  assert (Hm : monitors s1' = monitors w1) by reflexivity. clearbody s1'.
  assert (Ea : auth s = Auth.init) by (destruct (auth s); cbn in Hp, Hc, Hl; subst; reflexivity). rewrite Ea.
  rewrite (probe_starts _ (relay s) Hh). unfold with_auth at 1. cbn [fst snd fold_left run_effect]. cbv zeta.
  set (s2 := emit _ _). change (Auth.authRevalidating (auth s2)) with true. cbv iota.
  assert (P : Auth.probe_done None (auth s2) = (Auth.init, [Auth.SetNavBar None; Auth.Run tt])) by reflexivity. rewrite P. clear P.
  assert (H2 : monitors s2 = monitors w1 /\ relay s2 = relay s) by (split; [exact Hm|exact Hr]). clearbody s2.
  unfold with_auth. cbn [fst snd fold_left run_effect]. cbv zeta. set (s2' := _ <| relay := _ |>).
  assert (H2' : monitors s2' = monitors w1 /\ relay s2' = relay s) by exact H2. clearbody s2'.
  destruct (share s2') as [w2|] eqn:E2; [|discriminate]. cbn [run_effect]. cbv zeta. set (s3 := emit _ w2). assert (H3 : monitors s3 = monitors w2) by reflexivity.
  clearbody s3. destruct (startVisibleMonitors v2 s3) as [w3|] eqn:E3; [|discriminate]. intros [= <-].
  exists s1, s2', s3, w1, w2, w3. destruct H2' as [H2a H2b]. repeat (split; [first [assumption|reflexivity]|]). reflexivity.
Qed.


(** ** The tick that fits the frames *)

Section Frames.
Variable cfg : config.
Variable v : view.

(** What decides whether a frame can be fitted. *)
Definition shape (s : page) : list (Z * bool) * bool := (map (fun m => (m_id m, m_novideo m)) (monitors s), objGridStack s).

Definition waits_for (s : page) (item : option Z) : bool :=
  match item with
  | None | Some 0 => false
  | Some id => match find_monitor id s with Some m => negb (ready v (objGridStack s) m) | None => true end
  end.

Lemma find_shape id ms ms' : map (fun m => (m_id m, m_novideo m)) ms = map (fun m => (m_id m, m_novideo m)) ms' ->
  option_map (fun m => (m_id m, m_novideo m)) (List.find (fun m => m_id m =? id) ms) =
  option_map (fun m => (m_id m, m_novideo m)) (List.find (fun m => m_id m =? id) ms').
Proof.
  revert ms'. induction ms as [|m ms IH]; intros [|m' ms']; cbn; try discriminate; [reflexivity|].
  intros [= E1 E2 E3]. rewrite <- E1. destruct (m_id m =? id); [cbn; congruence|apply IH, E3].
Qed.

Lemma waits_shape s t item : shape t = shape s -> waits_for t item = waits_for s item.
Proof.
  unfold shape, waits_for. intros [= Em Eg]. destruct item as [id|]; [|reflexivity]. rewrite Eg.
  pose proof (find_shape id _ _ Em) as F. unfold find_monitor. destruct (List.find _ (monitors t)) as [m|], (List.find _ (monitors s)) as [m'|];
    cbn in F; try discriminate F; [|reflexivity]. injection F as Ei En. unfold ready. rewrite Ei, En. reflexivity.
Qed.

Lemma tell_shape f s t : tell f s = Some t -> shape t = shape s /\ changedMonitors t = changedMonitors s.
Proof.
  intros E. destruct (tell_frame _ _ _ E) as [ms ->]. split; [|reflexivity]. revert E. unfold tell.
  destruct (tell_all f (monitors s)) as [ms'|] eqn:T; [|discriminate]. intros E.
  assert (ms' = ms) as -> by (injection E; congruence). clear E. unfold shape. f_equal. change (map (fun m => (m_id m, m_novideo m)) ms = map (fun m => (m_id m, m_novideo m)) (monitors s)).
  revert ms T. induction (monitors s) as [|m l IH]; intros ms; cbn; [intros [= <-]; reflexivity|].
  destruct (MonitorStream.run _ _ _); [|discriminate]. destruct (tell_all f l) as [l'|]; [|discriminate]. intros [= <-].
  cbn. rewrite (IH l' eq_refl). reflexivity.
Qed.

Lemma set_ratio_shape id s : shape (set_ratio_of v id s) = shape s.
Proof.
  unfold shape, set_ratio_of. f_equal. change (map (fun m => (m_id m, m_novideo m)) (map (fun m => if m_id m =? id then setRatioForMonitor v (averageMonitorsRatio s) m else m) (monitors s)) = map (fun m => (m_id m, m_novideo m)) (monitors s)).
  rewrite map_map. apply map_ext. intros m. destruct (m_id m =? id); [|reflexivity].
  destruct m as [i w h c [] r css st]; reflexivity.
Qed.

Lemma splice_middle xs x ys s : changedMonitors s = (xs ++ x :: ys)%list -> changedMonitors (splice (length xs) s) = (xs ++ ys)%list.
Proof. intros E. change (delete (length xs) (changedMonitors s) = (xs ++ ys)%list). rewrite E. apply delete_middle. Qed.

Lemma serve_filters xs : forall ys s t, changedMonitors s = (xs ++ ys)%list ->
  (forall id, Some id ∈ xs -> id <> 0 -> is_Some (find_monitor id s)) ->
  serve cfg v (rev xs) (length xs) s = Some t ->
  shape t = shape s /\ changedMonitors t = (List.filter (waits_for s) xs ++ ys)%list.
Proof.
  induction xs as [|x xs IH] using rev_ind; intros ys s t Ec Hk; cbn; [intros [= <-]; split; [reflexivity|exact Ec]|].
  rewrite rev_app_distr, length_app, Nat.add_1_r, List.filter_app. cbn [rev app serve Nat.pred].
  rewrite <- app_assoc in Ec. cbn [app] in Ec.
  assert (Next : forall u ys', shape u = shape s -> changedMonitors u = (xs ++ ys')%list ->
    serve cfg v (rev xs) (length xs) u = Some t -> shape t = shape s /\ changedMonitors t = (List.filter (waits_for s) xs ++ ys')%list).
  { intros u ys' Es Eu E. destruct (IH ys' u t Eu) as [T1 T2]; [|exact E|].
    - intros id Hid Hn. destruct (Hk id) as [m Hm]; [apply elem_of_app; left; exact Hid|exact Hn|].
      unfold shape in Es. injection Es as Em _. pose proof (find_shape id _ _ Em) as F. unfold find_monitor in *. rewrite Hm in F.
      destruct (List.find _ (monitors u)); [eauto|discriminate F].
    - split; [congruence|]. rewrite T2. f_equal. apply List.filter_ext. intros y. apply waits_shape, Es. }
  assert (Gone : forall u, shape u = shape s -> changedMonitors u = changedMonitors s ->
    serve cfg v (rev xs) (length xs) (splice (length xs) u) = Some t ->
    shape t = shape s /\ changedMonitors t = (List.filter (waits_for s) xs ++ ys)%list).
  { intros u Es Eu. apply Next; [exact Es|]. apply (splice_middle xs x). congruence. }
  destruct x as [id|]; [|cbn [waits_for List.filter app]; rewrite app_nil_r; apply Gone; reflexivity].
  destruct (decide (id = 0)) as [->|Hn]; [cbn [waits_for List.filter app]; rewrite app_nil_r; apply Gone; reflexivity|].
  destruct (Hk id) as [m Hm]; [apply elem_of_app; right; apply list_elem_of_here|exact Hn|].
  assert (Step : match find_monitor id s with
      | None => Some s
      | Some m =>
          match tell (only id (fun m => [scale_event v m]))
                  (if ready v (objGridStack s) m then splice (length xs) (emit (GridResize id) (set_ratio_of v id s)) else s) with
          | Some s => serve cfg v (rev xs) (length xs) (if audio_shown cfg then emit GridColumns s else s)
          | None => None
          end end = Some t -> shape t = shape s /\
      changedMonitors t = ((List.filter (waits_for s) xs ++ (if waits_for s (Some id) then [Some id] else [])) ++ ys)%list).
  { assert (Ew : waits_for s (Some id) = negb (ready v (objGridStack s) m)) by (unfold waits_for; rewrite Hm; destruct id; [contradiction|reflexivity..]).
    rewrite Hm, Ew. destruct (ready v (objGridStack s) m); cbn [negb].
    - set (u := splice _ _). assert (Su : shape u = shape s) by (refine (eq_trans _ (set_ratio_shape id s)); reflexivity).
      assert (Cu : changedMonitors u = (xs ++ ys)%list) by (apply (splice_middle xs (Some id)); exact Ec). clearbody u.
      destruct (tell _ u) as [w|] eqn:T; [|discriminate]. apply tell_shape in T as [Tw Cw]. rewrite app_nil_r.
      apply Next; destruct (audio_shown cfg); first [exact (eq_trans Tw Su)|exact (eq_trans Cw Cu)].
    - destruct (tell _ s) as [w|] eqn:T; [|discriminate]. apply tell_shape in T as [Tw Cw]. rewrite <- app_assoc.
      apply Next; destruct (audio_shown cfg); first [exact Tw|exact (eq_trans Cw Ec)]. }
  cbn [List.filter]. destruct id; [contradiction|exact Step..].
Qed.

(** A tick serves every frame that can be fitted and takes it off the list,
    although it splices the list it walks over; the others stay, in their order. *)
Theorem frames_served (s t : page) :
  (forall id, Some id ∈ changedMonitors s -> id <> 0 -> is_Some (find_monitor id s)) ->
  resize_fires cfg v s = Some t -> changedMonitors t = List.filter (waits_for s) (changedMonitors s).
Proof.
  intros Hk E. destruct (serve_filters (changedMonitors s) [] s t) as [_ H]; [rewrite app_nil_r; reflexivity|exact Hk|exact E|].
  rewrite app_nil_r in H. exact H.
Qed.
End Frames.

(** ** The aspect ratios *)

Definition off (avg : num) (value : string) : num := nabs (string_to_number value - avg)%num.

Lemma preset_finite : Forall (fun kv => exists q, string_to_number kv.2 = Fin q) presetRatio.
Proof. repeat constructor; vm_compute; eauto. Qed.

Lemma off_not_NaN avg q value : avg = Fin q -> (exists p, string_to_number value = Fin p) -> off avg value <> NaN.
Proof. intros -> [p E]. unfold off. rewrite E. rewrite nabs_sub. destruct (rnd _) eqn:R; cbn; try discriminate. exfalso. exact (rnd_not_NaN _ R). Qed.

Lemma nearest_fold avg vs : forall v0, (forall value, value ∈ v0 :: vs -> off avg value <> NaN) ->
  let r := fold_left (nearer avg) vs v0 in
  r ∈ v0 :: vs /\ forall value, value ∈ v0 :: vs -> nle (off avg r) (off avg value).
Proof.
  induction vs as [|v1 vs IH]; intros v0 F; cbn.
  - split; [apply list_elem_of_here|]. intros value H. apply list_elem_of_singleton in H as ->. apply nle_refl, F, list_elem_of_here.
  - set (v2 := nearer avg v0 v1). assert (N0 : off avg v0 <> NaN) by apply F, list_elem_of_here.
    assert (N1 : off avg v1 <> NaN) by apply F, list_elem_of_further, list_elem_of_here.
    assert (H2 : (v2 = v0 \/ v2 = v1) /\ nle (off avg v2) (off avg v0) /\ nle (off avg v2) (off avg v1)).
    { unfold v2, nearer. fold (off avg v1) (off avg v0). destruct (nltb (off avg v1) (off avg v0)) eqn:L.
      - split; [tauto|]. split; [apply nlt_nle; exact L|apply nle_refl, N1].
      - split; [tauto|]. split; [apply nle_refl, N0|apply nltb_false; assumption]. }
    clearbody v2. destruct H2 as (H2 & L0 & L1). destruct (IH v2) as [I1 I2].
    { intros value H. apply elem_of_cons in H as [->|H]; [destruct H2 as [->| ->]; assumption|].
      apply F. do 2 apply list_elem_of_further. exact H. }
    cbn in I1, I2. split.
    + apply elem_of_cons in I1 as [->|I1]; [|do 2 apply list_elem_of_further; exact I1].
      destruct H2 as [->| ->]; [apply list_elem_of_here|apply list_elem_of_further, list_elem_of_here].
    + intros value H. pose proof (I2 v2 (list_elem_of_here _ _)) as B. apply elem_of_cons in H as [->|H]; [exact (nle_trans _ _ _ B L0)|].
      apply elem_of_cons in H as [->|H]; [exact (nle_trans _ _ _ B L1)|]. apply I2, list_elem_of_further, H.
Qed.

(** With finite dimensions, the ratio "auto" stands for is the preset one at
    the least distance from the average of the monitors. *)
Theorem average_nearest (arr : list num) (q : Q) :
  average arr = Fin q ->
  let r := calculateAverageMonitorsRatio arr in
  r ∈ map snd presetRatio /\ forall value, value ∈ map snd presetRatio -> nle (off (average arr) r) (off (average arr) value).
Proof.
  intros E. assert (F : forall value, value ∈ map snd presetRatio -> off (average arr) value <> NaN).
  { intros value H. apply (off_not_NaN _ q value E). apply list_elem_of_fmap in H as (kv & -> & Hkv).
    pose proof preset_finite as P. rewrite Forall_forall in P. exact (P kv Hkv). }
  exact (nearest_fold (average arr) _ _ F).
Qed.

Lemma nadd_NaN xs : fold_left nadd xs NaN = NaN.
Proof. induction xs as [|x xs IH]; [reflexivity|exact IH]. Qed.

Lemma total_NaN xs : forall t, NaN ∈ xs -> fold_left nadd xs t = NaN.
Proof.
  induction xs as [|x xs IH]; intros t H; [apply elem_of_nil in H as []|]. cbn. apply elem_of_cons in H as [<-|H]; [|apply IH, H].
  assert (nadd t NaN = NaN) as -> by (destruct t as [|[]|]; reflexivity). apply nadd_NaN.
Qed.

Lemma no_average arr : NaN ∈ arr -> calculateAverageMonitorsRatio arr = "".
Proof.
  intros H. unfold calculateAverageMonitorsRatio, average. rewrite (total_NaN arr _ H).
  change (NaN / num_of_Z (Z.of_nat (length arr)))%num with NaN. vm_compute. reflexivity.
Qed.

Lemma over_zero w : 0 < w <= 2 ^ 53 -> (num_of_Z w / Fin 0)%num = Infty false.
Proof.
  intros H. destruct (num_of_Z_exact w) as (q & -> & E); [lia|]. unfold ndiv.
  assert (Hq : (0 < q)%Q) by (rewrite E; change 0%Q with (inject_Z 0); rewrite <- Zlt_Qlt; lia).
  change (Qeq_bool 0 0) with true. cbv iota. unfold qsign.
  destruct (Qeq_bool q 0) eqn:Z; [apply Qeq_bool_iff in Z; rewrite Z in Hq; discriminate Hq|].
  rewrite (proj2 (Qle_bool_iff 0 q)); [reflexivity|]. apply Qlt_le_weak, Hq.
Qed.

(** One monitor without dimensions takes the average away from all: every
    landscape frame whose ratio is "auto" is given the height Infinitypx. *)
Theorem no_size_no_average (v : view) (arr : list num) (m : monitor) (w : Z) :
  NaN ∈ arr -> m_novideo m = false -> m_ratio m = "auto" -> (m_width m / m_height m >? Fin 1)%num = true ->
  clientWidth v (m_id m) = Some w -> 0 < w <= 2 ^ 53 ->
  m_css (setRatioForMonitor v (calculateAverageMonitorsRatio arr) m) = "Infinitypx".
Proof.
  intros Hn Hv Hr Hl Hw Hi. rewrite (no_average arr Hn). unfold setRatioForMonitor. rewrite Hv.
  change (frame_height (m_ratio m) "" (m_width m) (m_height m) (num_of_Z (default 0 (clientWidth v (m_id m)))) ++ "px" = "Infinitypx").
  rewrite Hr, Hw. unfold frame_height. rewrite Hl. change (String.eqb "auto" "real") with false.
  change (String.eqb "auto" "auto") with true. cbv iota zeta. change (string_to_number "") with (Fin 0). change (default 0 (Some w)) with w.
  rewrite (over_zero w Hi). reflexivity.
Qed.

(** ** Layouts *)

Section Layouts.
Variable cfg : config.

Definition ratios (s : page) : list (Z * string) := map (fun m => (m_id m, m_ratio m)) (monitors s).

(** The ratio a layout has for a monitor, or its own where it has none. *)
Definition ratio_from (rs : list (Z * string)) (m : Z * string) : Z * string :=
  match List.find (fun kv => kv.1 =? m.1) rs with Some kv => (m.1, kv.2) | None => m end.

Lemma pick_ratios id value s : offered value = true ->
  ratios (pick_ratio id value s) = map (fun m => if m.1 =? id then (m.1, value) else m) (ratios s).
Proof.
  intros O. unfold ratios, pick_ratio. change (monitors (s <| monitors := ?x |>)) with x. rewrite !map_map. apply map_ext.
  intros m. cbn [fst]. destruct (m_id m =? id); [|reflexivity]. unfold setSelected. rewrite O. reflexivity.
Qed.

Lemma load_all rs : forall s, Forall (fun kv => offered kv.2 = true) rs -> NoDup (map fst rs) ->
  ratios (load_ratios rs s) = map (ratio_from rs) (ratios s).
Proof.
  induction rs as [|[id value] rs IH]; intros s O Nd; cbn.
  - symmetry. apply map_id.
  - apply Forall_cons in O as [Ov O]. apply NoDup_cons in Nd as [Ni Nd]. fold (load_ratios rs (pick_ratio id value s)).
    rewrite (IH _ O Nd), (pick_ratios id value s Ov), map_map. apply map_ext. intros [i r]. unfold ratio_from. cbn [fst List.find snd].
    rewrite (Z.eqb_sym id i). destruct (i =? id) eqn:E; cbn [fst]; [|reflexivity]. apply Z.eqb_eq in E as ->.
    destruct (List.find (fun kv => kv.1 =? id) rs) as [kv|] eqn:F; [|reflexivity]. exfalso. apply Ni.
    apply List.find_some in F as [F1 F2]. apply Z.eqb_eq in F2. rewrite <- F2. apply list_elem_of_fmap. exists kv.
    split; [reflexivity|apply list_elem_of_In, F1].
Qed.

Lemma find_own (rs : list (Z * string)) i r : NoDup (map fst rs) -> (i, r) ∈ rs -> List.find (fun kv => kv.1 =? i) rs = Some (i, r).
Proof.
  induction rs as [|[j q] rs IH]; intros Nd H; [apply elem_of_nil in H as []|]. cbn in Nd |- *. apply NoDup_cons in Nd as [Nj Nd].
  apply elem_of_cons in H as [[= <- <-]|H]; [rewrite Z.eqb_refl; reflexivity|].
  destruct (Z.eqb_spec j i) as [->|N]; [|apply IH; assumption]. exfalso. apply Nj. apply list_elem_of_fmap. exists (i, r). split; [reflexivity|exact H].
Qed.

Lemma ratios_frame s t : map (fun m => (m_id m, m_ratio m)) (monitors t) = map (fun m => (m_id m, m_ratio m)) (monitors s) -> ratios t = ratios s.
Proof. intros H. exact H. Qed.

Lemma ratios_set v s : ratios (set_ratios v s) = ratios s.
Proof.
  unfold ratios, set_ratios. change (monitors (s <| monitors := ?x |>)) with x. rewrite map_map. apply map_ext. intros m.
  unfold setRatioForMonitor. destruct (m_novideo m); reflexivity.
Qed.

Lemma ratios_widths w s : ratios (put_widths w s) = ratios s.
Proof. unfold ratios. rewrite (f_equal fst (watched_widths w s) : monitors (put_widths w s) = monitors s). reflexivity. Qed.

Lemma ratios_check s : ratios (checkRatioForAllMonitors s) = ratios s.
Proof.
  unfold checkRatioForAllMonitors. set (u := if String.eqb _ _ then _ else s).
  assert (E : ratios u = ratios s) by (unfold u; destruct (String.eqb _ _); reflexivity). clearbody u.
  destruct (fold_left _ _ _) as [prev same]. exact E.
Qed.

(** The folded comparison. *)
Lemma compare_all ms : forall acc, acc.1 <> "" -> Forall (fun m => m_ratio m <> "") ms ->
  fold_left compare_ratio ms acc = (acc.1, acc.2 && forallb (fun m => String.eqb (m_ratio m) acc.1) ms).
Proof.
  induction ms as [|m ms IH]; intros [prev same] N F; cbn [fold_left forallb fst snd]; [rewrite andb_true_r; reflexivity|].
  apply Forall_cons in F as [Fm F]. unfold compare_ratio at 2. cbn [fst snd] in *. rewrite (proj2 (String.eqb_neq _ _) N).
  rewrite (IH (prev, same && String.eqb (m_ratio m) prev) N F). cbn [fst snd]. rewrite andb_assoc. reflexivity.
Qed.

(** After a check the select of the ratio for all shows the ratio the monitors
    have in common, and nothing when they differ. *)
Theorem main_shows_common (s : page) (m : monitor) (ms : list monitor) :
  monitors s = m :: ms -> Forall (fun m => offered (m_ratio m) = true) (m :: ms) ->
  ratio (checkRatioForAllMonitors s) =
    if forallb (fun m' => String.eqb (m_ratio m') (m_ratio m)) ms then m_ratio m else "".
Proof.
  intros E F. apply Forall_cons in F as [Fm F]. unfold checkRatioForAllMonitors. set (u := if String.eqb _ _ then _ else s).
  assert (Eu : monitors u = m :: ms) by (unfold u; destruct (String.eqb _ _); exact E). clearbody u. rewrite Eu. cbn [fold_left].
  assert (Ne : forall x, offered x = true -> x <> "") by (intros x O ->; discriminate O).
  assert (E0 : compare_ratio ("", true) m = (m_ratio m, true)).
  { unfold compare_ratio. cbn [fst snd]. change (String.eqb "" "") with true. cbv iota. rewrite String.eqb_refl. reflexivity. }
  rewrite E0, compare_all; [|apply Ne, Fm|apply (Forall_impl _ _ _ F); intros x O; exact (Ne _ O)]. cbn [fst snd andb].
  unfold setSelected. rewrite Fm. reflexivity.
Qed.

(** Saving a layout and showing it again gives every monitor of it the ratio
    it had, whatever was set in between, and leaves the others theirs. *)
Theorem saved_layout_restores (v v' : view) (name typed : string) (s t u : page) (l : layout) (id : Z) :
  NoDup (map fst (ratios s)) -> Forall (fun kv => offered kv.2 = true) (ratios s) ->
  save_layout cfg v typed s = t -> out t = (out s ++ [Submit name l])%list ->
  editing u = false -> id <> 0 -> layout_of id (layouts cfg) = Some l -> isPresetLayout cfg (lo_name l) = false ->
  let w := selectLayout cfg v' (choose_layout cfg id u) in
  ratios w = map (ratio_from (ratios s)) (ratios u) /\
  (forall i r, (i, r) ∈ ratios s -> i ∈ map fst (ratios u) -> (i, r) ∈ ratios w).
Proof.
  intros Nd O Hs Ho Hu Hid Hl Hp. cbv zeta.
  assert (El : l = positions cfg v name s).
  { revert Hs Ho. unfold save_layout. cbv zeta.
    assert (K : forall e, out (emit e s) = (out s ++ [Submit name l])%list -> e = Submit name l)
      by (intros e H; apply app_inv_head in H; congruence).
    assert (K2 : forall n, out (emit (Submit n (positions cfg v n s)) (s <| editing := false |>)) = (out s ++ [Submit name l])%list -> l = positions cfg v name s)
      by (intros n H; apply app_inv_head in H; congruence).
    assert (K3 : out s <> (out s ++ [Submit name l])%list) by (intros H; apply (f_equal length) in H; rewrite length_app in H; cbn in H; lia).
    repeat case_match; intros Hst Hout; subst t; first [contradiction|apply K2 in Hout; exact Hout|apply K in Hout; discriminate Hout]. }
  assert (Ew : ratios (selectLayout cfg v' (choose_layout cfg id u)) = map (ratio_from (ratios s)) (ratios u)).
  { unfold selectLayout. set (c := choose_layout cfg id u). assert (Ec : editing c = false) by exact Hu. rewrite Ec.
    assert (Es : zmMontageLayout c = Some id).
    { unfold c, choose_layout. rewrite Hl. fields. reflexivity. }
    assert (Rc : ratios c = ratios u) by reflexivity. clearbody c. unfold current_layout. rewrite Es, Hl, (proj2 (Z.eqb_neq _ _) Hid), Hp.
    cbv zeta. set (d := destroyGridStack c). assert (Rd : ratios d = ratios u) by (rewrite <- Rc; unfold d, destroyGridStack; destruct (objGridStack c); reflexivity).
    clearbody d. unfold show_custom. cbv zeta. set (x := set_ratios _ _).
    assert (Rx : ratios x = ratios u) by (unfold x; rewrite ratios_set, ratios_widths; exact Rd). clearbody x.
    rewrite El. cbn [positions lo_grid lo_ratios]. set (y := load_ratios _ x).
    assert (Ry : ratios y = map (ratio_from (ratios s)) (ratios u)) by (refine (eq_trans (load_all _ x O Nd) _); rewrite Rx; reflexivity).
    clearbody y. rewrite <- Ry, <- (ratios_check y). set (z := checkRatioForAllMonitors y). clearbody z. reflexivity. }
  split; [exact Ew|]. intros i r Hin Hi. rewrite Ew. apply list_elem_of_fmap in Hi as ([j q] & -> & Hj). apply list_elem_of_fmap.
  exists (j, q). split; [|exact Hj]. unfold ratio_from. cbn [fst]. rewrite (find_own _ j r Nd Hin). reflexivity.
Qed.
End Layouts.

(** ** What counts as out of view *)

(** An element between the sides of the window is out of view exactly when it
    lies above the header's edge or below the window. *)
Theorem out_of_view_spec (sc : screen) (r : rect) :
  let width := nor (innerWidth sc) (docWidth sc) in
  let height := nor (innerHeight sc) (docHeight sc) in
  nle (Fin 0) (left r) -> nle (left r) (right r) -> nle (right r) width -> nle (top r) (bottom r) ->
  nle (nor (innerHeight sc - headerHeight sc)%num (docHeight sc - headerHeight sc)%num) height ->
  out_all (isOutOfViewport sc r) = ((bottom r <? headerHeight sc)%num || (top r >? height)%num)%bool.
Proof.
  cbv zeta. set (width := nor (innerWidth sc) _). set (height := nor (innerHeight sc) _). set (below := nor _ _). intros H1 H2 H3 H4 H5.
  unfold out_all, isOutOfViewport. fold width height below. cbn [topUp topDown out_left bottomUp bottomDown out_right].
  destruct (nle_not_NaN _ _ H1) as [_ Nl]. destruct (nle_not_NaN _ _ H2) as [_ Nr]. destruct (nle_not_NaN _ _ H3) as [_ Nw].
  destruct (nle_not_NaN _ _ H4) as [Nt Nb].
  assert (L : (left r <? Fin 0)%num = false) by (apply nltb_false; [exact Nl|discriminate|exact H1]).
  assert (R : (right r >? width)%num = false) by (apply nltb_false; [exact Nw|exact Nr|exact H3]).
  assert (L2 : (left r >? width)%num = false) by (apply nltb_false; [exact Nw|exact Nl|exact (nle_trans _ _ _ H2 H3)]).
  rewrite L, L2, R. cbn [orb]. rewrite andb_false_l, orb_false_r. f_equal.
  - destruct (bottom r <? headerHeight sc)%num eqn:B; [|apply andb_false_r]. rewrite andb_true_r.
    exact (nle_lt_trans _ _ _ H4 B).
  - destruct (top r >? height)%num eqn:T; [|apply andb_false_l]. rewrite andb_true_l.
    exact (nle_lt_trans _ _ _ H5 (nlt_le_trans _ _ _ T H4)).
Qed.

(** A stream that reaches over both sides of the window, as one the user has
    zoomed into does, counts as out of view: the next scroll stops it. *)
Theorem zoomed_stream_stopped (v : view) (s t : page) (i : nat) (m : monitor) :
  monitorInitComplete s = true -> idleTimeoutTriggered s = false -> monitors s !! i = Some m ->
  nlt (left (rects v (m_id m))) (Fin 0) ->
  nlt (nor (innerWidth (scr v)) (docWidth (scr v))) (right (rects v (m_id m))) ->
  on_scroll v s = Some t -> exists m', monitors t !! i = Some m' /\ MonitorStream.started (m_stream m') = false.
Proof.
  intros Hi Hd Hm Hl Hr. unfold on_scroll. rewrite Hi, Hd. cbn [negb orb]. intros E.
  destruct (tell_at _ _ _ i m E Hm) as (st & R & H). exists (m <| m_stream := st |>). split; [exact H|].
  change (MonitorStream.started st = false). revert R. unfold scrolled, in_view.
  assert (O : out_all (isOutOfViewport (scr v) (rects v (m_id m))) = true).
  { unfold out_all, isOutOfViewport. cbn [out_left out_right]. unfold nlt in Hl, Hr. rewrite Hl, Hr. cbn [orb andb]. apply orb_true_r. }
  rewrite O. cbn [negb]. destruct (MonitorStream.started (m_stream m)) eqn:S; cbn; intros [= <-]; [apply MonitorStream.stop_not_started|exact S].
Qed.

(** ** A page with two monitors *)

Definition mine : layout := Layout "Mine" 5 (Some "saved") (Some [(7, "4:3"); (8, "16:9")]).
Definition demo_cfg : config :=
  Config [(1, mine); (2, Layout "Auto" 0 None None)] ["Freeform"; "Auto"; "2 Wide"] "2 Wide" true false 5 false "index.php".
Definition demo_rect (id : Z) : rect := if id =? 7 then Rect (Fin 100) (Fin 0) (Fin 500) (Fin 600) else Rect (Fin 900) (Fin 0) (Fin 1300) (Fin 600).
Definition demo_view : view :=
  View (Screen (Fin 1200) (Fin 800) (Fin 1200) (Fin 800) (Fin 60)) demo_rect (fun _ => Some 600) (fun _ => 400)
    (fun _ => Fin 1) (fun _ => Fin 50) (Fin 0) (fun id => if id =? 7 then Fin (1 # 2) else Fin (1 # 4)) "saved".
Definition demo_monitor (id : Z) (key : string) : monitor :=
  Monitor id (Fin 1920) (Fin 1080) MonitorStream.demo_cfg false "" ""
    (MonitorStream.create (Some key) "zms" "" "user=u&auth=123abc").
Definition demo_monitors : list monitor := [demo_monitor 7 "111111"; demo_monitor 8 "222222"].
#[local] Notation demo_page shown := (initPage demo_cfg demo_view demo_monitors shown "" "user=u&auth=123abc" "hidden").
#[local] Notation at_view es := (map (fun e => (demo_view, e)) es).
#[local] Notation demo_after shown es := (default (demo_page shown) (run demo_cfg (demo_page shown) (at_view es))).

(** Placed and started; 4 is the wait of initPage under the layout Mine. *)
Definition started_events : list event := [Fire 4; Fire 4].
#[local] Notation demo_started := (demo_after (Some 1) started_events).

Lemma wall_ledger_witness :
  let es := at_view (started_events ++ [Visibility true; Fire 5; Visibility false; ProbeDone None])%list in
  exists s m k, run demo_cfg (demo_page (Some 1)) es = Some s /\ monitors s !! 0%nat = Some m /\
    MonitorStream.opened k (MonitorStream.out (m_stream m)) /\
    (MonitorStream.connKey (m_stream m) = Some k \/ MonitorStream.told_to_quit k (MonitorStream.out (m_stream m))).
Proof.
  cbv zeta. set (es := at_view _).
  destruct (run demo_cfg (demo_page (Some 1)) es) as [s|] eqn:R; [|vm_compute in R; discriminate].
  destruct (monitors s !! 0%nat) as [m|] eqn:E; [|vm_compute in R; injection R as <-; vm_compute in E; discriminate].
  assert (O : MonitorStream.opened "500000" (MonitorStream.out (m_stream m))).
  { vm_compute in R. injection R as <-. vm_compute in E. injection E as <-. eexists. apply list_elem_of_In. vm_compute. right. left. reflexivity. }
  exists s, m, "500000". split; [reflexivity|]. split; [exact E|]. split; [exact O|].
  apply (wall_ledger demo_cfg demo_view demo_monitors (Some 1) "" "user=u&auth=123abc" "hidden" es s 0 (demo_monitor 7 "111111") m "500000").
  - repeat constructor; do 4 eexists; reflexivity.
  - unfold es. repeat constructor.
  - exact R.
  - reflexivity.
  - exact E.
  - discriminate.
  - right. exact O.
Defined.

Lemma demo_fresh : Forall (fun m => fresh m /\ MonitorStream.default_listed (m_stream m)) demo_monitors.
Proof. repeat constructor; do 4 eexists; reflexivity. Qed.

Lemma wall_total_witness : is_Some (run demo_cfg (demo_page (Some 2)) (at_view [Scroll; Leave true])).
Proof. apply wall_total. exact demo_fresh. Defined.

Lemma demo_settled s : map m_id (monitors s) = [7; 8] -> settled demo_view s.
Proof. intros _ id _. exists 600. split; [reflexivity|lia]. Qed.

(** The same ticks, computed. *)
Fixpoint tick_all (cfg : config) (v : view) (s : page) (hs : list nat) : option page :=
  match hs with
  | [] => Some s
  | h :: hs =>
      match timers s !! h with
      | Some (TWait _) => match fire cfg v h s with Some t => tick_all cfg v t hs | None => None end
      | _ => None
      end
  end.

Lemma tick_all_waiting cfg v hs : forall s u, tick_all cfg v s hs = Some u -> waiting cfg v s hs u.
Proof.
  induction hs as [|h hs IH]; intros s u; cbn; [intros [= <-]; constructor|].
  destruct (timers s !! h) as [[| | | |a]|] eqn:E; try discriminate. destruct (fire cfg v h s) as [t|] eqn:F; [|discriminate].
  intros H. eapply waiting_tick; [exact E|exact F|apply IH, H].
Qed.

(** Under the preset layout two waits run: 3 for the ratio, 5 for the start. *)
#[local] Notation demo_placed := (default (demo_page (Some 2)) (tick_all demo_cfg demo_view (demo_page (Some 2)) [3; 5; 3; 3]%nat)).


(** Under the layout Mine the user picks a ratio before the streams are started:
    4 is the wait for the start, 5 the one that stays. *)
Lemma leaked_wait_starves_witness :
  let s := demo_after (Some 1) [RatioAll "4:3"] in
  run demo_cfg s (concat (replicate 1000 [(demo_view, Fire 4); (demo_view, Fire 5)])) = Some s.
Proof.
  cbv zeta. apply (leaked_wait_starves demo_cfg demo_view _ 4 5 mine 1000).
  - apply (reached_tracked demo_cfg demo_view demo_monitors (Some 1) "" "user=u&auth=123abc" "hidden" (at_view [RatioAll "4:3"])).
    vm_compute. reflexivity.
  - vm_compute. apply (bool_decide_unpack _). vm_compute. exact I.
  - vm_compute. discriminate.
  - apply demo_settled. vm_compute. reflexivity.
  - intros id Hid. assert (H : id = 7 \/ id = 8) by (vm_compute in Hid; apply list_elem_of_In in Hid; cbn in Hid; intuition lia).
    destruct H as [-> | ->]; vm_compute; reflexivity.
  - vm_compute. reflexivity.
  - vm_compute. reflexivity.
  - vm_compute. reflexivity.
  - vm_compute. reflexivity.
Defined.

(** No wait for the start is set, computed. *)
Definition started_up (s : page) : bool := bool_decide (map_Forall (fun _ t => t <> TWait StartMonitors) (timers s)).
Lemma started_up_ok s : started_up s = true -> forall h, timers s !! h <> Some (TWait StartMonitors).
Proof. intros H h E. apply bool_decide_eq_true in H. exact (H h _ E eq_refl). Qed.

(** 1 is the inactivity timer; the user scrolls, comes and goes, the streams break. *)
Definition idle_events : list event :=
  [DialogDone; Scroll; Activity; Visibility true; Visibility false; ChooseLayout 2; Own 7 MonitorStream.ElementError;
   Own 8 (MonitorStream.PlayerError true); Fire 2].
#[local] Notation demo_idle := (default demo_started (fire demo_cfg demo_view 1 demo_started)).

Lemma idle_stays_stopped_witness :
  undisturbed_run demo_cfg false demo_idle (at_view idle_events) = true /\
  exists u, run demo_cfg demo_idle (at_view idle_events) = Some u /\ quiet_streams u.
Proof.
  assert (U : undisturbed_run demo_cfg false demo_idle (at_view idle_events) = true) by (vm_compute; reflexivity).
  split; [exact U|]. exists (default demo_idle (run demo_cfg demo_idle (at_view idle_events))).
  assert (R : run demo_cfg demo_idle (at_view idle_events) = Some (default demo_idle (run demo_cfg demo_idle (at_view idle_events))))
    by (vm_compute; reflexivity).
  split; [exact R|]. apply (idle_stays_stopped demo_cfg demo_view 1 demo_started demo_idle _ (at_view idle_events)).
  - vm_compute. reflexivity.
  - vm_compute. reflexivity.
  - apply started_up_ok. vm_compute. reflexivity.
  - vm_compute. reflexivity.
  - exact U.
  - exact R.
Defined.

Definition stranded_events : list event :=
  [Activity; Scroll; DialogClosed; Visibility true; Visibility false; RatioAll "16:9"; ChooseLayout 2; Fire 2; Scroll].
#[local] Notation demo_stranded := (default demo_started (run demo_cfg demo_started (at_view [Fire 1; DialogFail]))).

Lemma failed_dialog_strands_witness :
  undisturbed_run demo_cfg true demo_stranded (at_view stranded_events) = true /\
  exists u, run demo_cfg demo_stranded (at_view stranded_events) = Some u /\ quiet_streams u.
Proof.
  assert (U : undisturbed_run demo_cfg true demo_stranded (at_view stranded_events) = true) by (vm_compute; reflexivity).
  split; [exact U|]. exists (default demo_stranded (run demo_cfg demo_stranded (at_view stranded_events))).
  assert (R : run demo_cfg demo_stranded (at_view stranded_events) =
    Some (default demo_stranded (run demo_cfg demo_stranded (at_view stranded_events)))) by (vm_compute; reflexivity).
  split; [exact R|]. apply (failed_dialog_strands demo_cfg demo_view 1 demo_started demo_stranded _ (at_view stranded_events)).
  - vm_compute. reflexivity.
  - vm_compute. reflexivity.
  - apply started_up_ok. vm_compute. reflexivity.
  - vm_compute. reflexivity.
  - vm_compute. reflexivity.
  - vm_compute. reflexivity.
  - vm_compute. reflexivity.
  - exact U.
  - exact R.
Defined.

(** Error: a probe that is under way when the inactivity timer fires starts
    the streams again when it is answered, behind the dialog that asks whether
    anyone is watching. *)
Theorem probe_wakes_idle :
  let es := (started_events ++ [Visibility true; Visibility false; Fire 1; DialogDone; ProbeDone None])%list in
  exists u m, run demo_cfg (demo_page (Some 1)) (at_view es) = Some u /\ idleTimeoutTriggered u = true /\ dialog_shown u = true /\
    monitors u !! 0%nat = Some m /\ MonitorStream.started (m_stream m) = true.
Proof.
  cbv zeta. set (es := (started_events ++ _)%list). exists (demo_after (Some 1) es), (default (demo_monitor 7 "111111") (monitors (demo_after (Some 1) es) !! 0%nat)).
  split; [vm_compute; reflexivity|]. split; [vm_compute; reflexivity|]. split; [vm_compute; reflexivity|].
  split; vm_compute; reflexivity.
Qed.


Lemma frames_served_witness :
  let s := demo_after (Some 1) [Resized false [Some 8; None; Some 7]] in
  changedMonitors (default s (resize_fires demo_cfg demo_view s)) = List.filter (waits_for demo_view s) (changedMonitors s).
Proof.
  cbv zeta. apply (frames_served demo_cfg demo_view).
  - intros id Hid _. assert (H : id = 7 \/ id = 8) by (vm_compute in Hid; apply list_elem_of_In in Hid; cbn in Hid; intuition congruence).
    destruct H as [-> | ->]; vm_compute; eauto.
  - vm_compute. reflexivity.
Defined.

(** Saved under Mine, then other ratios, and Mine again. *)
#[local] Notation demo_edited := (demo_after (Some 1) [EditLayout]).
#[local] Notation demo_changed := (demo_after (Some 1) [RatioAll "1:1"; Ratio 8 "real"]).

Lemma saved_layout_restores_witness :
  out (save_layout demo_cfg demo_view "" demo_edited) = (out demo_edited ++ [Submit "Mine" mine])%list /\
  ratios demo_changed = [(7, "1:1"); (8, "real")] /\
  let w := selectLayout demo_cfg demo_view (choose_layout demo_cfg 1 demo_changed) in
  ratios w = map (ratio_from (ratios demo_edited)) (ratios demo_changed) /\
  (forall i r, (i, r) ∈ ratios demo_edited -> i ∈ map fst (ratios demo_changed) -> (i, r) ∈ ratios w).
Proof.
  assert (O : out (save_layout demo_cfg demo_view "" demo_edited) = (out demo_edited ++ [Submit "Mine" mine])%list) by (vm_compute; reflexivity).
  split; [exact O|]. split; [vm_compute; reflexivity|].
  apply (saved_layout_restores demo_cfg demo_view demo_view "Mine" "" demo_edited (save_layout demo_cfg demo_view "" demo_edited) demo_changed mine 1).
  - apply (bool_decide_unpack _). vm_compute. exact I.
  - apply (bool_decide_unpack _). vm_compute. exact I.
  - reflexivity.
  - exact O.
  - vm_compute. reflexivity.
  - discriminate.
  - reflexivity.
  - vm_compute. reflexivity.
Defined.

Lemma main_shows_common_witness :
  ratio (checkRatioForAllMonitors demo_edited) = "" /\ ratio (checkRatioForAllMonitors (demo_after (Some 1) [RatioAll "1:1"])) = "1:1".
Proof.
  split.
  - rewrite (main_shows_common demo_edited (default (demo_monitor 7 "") (monitors demo_edited !! 0%nat)) (tail (monitors demo_edited)));
      [vm_compute; reflexivity|vm_compute; reflexivity|apply (bool_decide_unpack _); vm_compute; exact I].
  - set (s := demo_after (Some 1) [RatioAll "1:1"]).
    rewrite (main_shows_common s (default (demo_monitor 7 "") (monitors s !! 0%nat)) (tail (monitors s)));
      [vm_compute; reflexivity|vm_compute; reflexivity|apply (bool_decide_unpack _); vm_compute; exact I].
Defined.

Lemma average_nearest_witness :
  let arr := [Fin 2; Fin (5 # 4)] in
  calculateAverageMonitorsRatio arr = "1.600" /\ nle (off (average arr) "1.600") (off (average arr) "1.667").
Proof.
  cbv zeta. split; [vm_compute; reflexivity|].
  destruct (average_nearest [Fin 2; Fin (5 # 4)] (13 # 8)) as [_ H]; [vm_compute; reflexivity|].
  apply (H "1.667"). apply (bool_decide_unpack _). vm_compute. exact I.
Defined.

Lemma zoomed_stream_stopped_witness :
  let wide := View (scr demo_view) (fun _ => Rect (Fin 100) (Fin (-50)) (Fin 500) (Fin 1250)) (clientWidth demo_view)
    (offsetHeight demo_view) (panzoom demo_view) (frame_scale demo_view) (quality demo_view) (random demo_view) "" in
  exists m', monitors (default demo_started (on_scroll wide demo_started)) !! 0%nat = Some m' /\ MonitorStream.started (m_stream m') = false.
Proof.
  intros wide. apply (zoomed_stream_stopped wide demo_started _ 0 (default (demo_monitor 7 "") (monitors demo_started !! 0%nat)));
    vm_compute; reflexivity.
Defined.
End Wall.
