(* ===== verification/WatchPage.v ===== *)
(** web/skins/classic/views/js/watch.js: the live view of one monitor, and the
    cycle that goes from one monitor to the next.

    The page makes a [MonitorStream] for the monitor it shows and another one for
    each monitor it goes on to; none of them is ever let go of, so the page has a
    list of [slot]s of which the last is the variable monitorStream.  What the
    page calls on a stream is an event of that stream's [MonitorStream.step], and
    what a stream calls on the page ([onPlay], [onPause], the buttons of the
    replay) is read off the stream's effects.  The cycle, the countdown, the
    timers, the dialog of the inactivity timeout, what [stopPage] remembers for
    [startPage], the buttons, the selects and the page's one credential are the
    page's.  What the browser measures at the moment of an event is a [view].

    Monitors of type WebSite, the old panning and zooming, the commands that move
    a camera, the table of events, the volume and the audio display are left out. *)
From S2P Require Import JsString AuthHelpers EventStream MonitorStream.

Module WatchPage.
#[local] Existing Instance MonitorStream.eta_state.
#[local] Open Scope string_scope.
#[local] Open Scope Z_scope.

(** ** Monitors and their streams *)

(** An entry of monitorData. *)
Record monitor := Monitor {
  m_id : Z; m_width : num; m_height : num;
  m_cfg : MonitorStream.config;
  m_connKey : option string;
  DefaultPlayer : string;
  m_src : string;                   (* the img of streamHTML *)
  Path : string; SecondPath : string; Restream : bool;
  monitorStreamReplayBuffer : bool; (* a number other than 0 *)
  monitorControllable : bool;
}.

(** A [MonitorStream] the page has made; [onplay] is the member of that name. *)
Record slot := Slot { s_mon : monitor; onplay : bool; s_stream : MonitorStream.state }.
#[export] Instance eta_slot : Eta slot := fun sl => Slot (s_mon sl) (onplay sl) (s_stream sl).

Definition with_onplay (b : bool) (c : MonitorStream.config) : MonitorStream.config :=
  MonitorStream.Config (MonitorStream.id c) (MonitorStream.url c) (MonitorStream.url_to_zms c)
    (MonitorStream.StreamChannel c) (MonitorStream.RTSPServer c) (MonitorStream.Go2RTCEnabled c)
    (MonitorStream.RTSP2WebEnabled c) (MonitorStream.janusEnabled c) (MonitorStream.ZM_GO2RTC_PATH c)
    (MonitorStream.ZM_RTSP2WEB_PATH c) (MonitorStream.currentView c) (MonitorStream.hls_loaded c)
    (MonitorStream.hls_supported c) (MonitorStream.hls_native c) (MonitorStream.sound_on_alarm c)
    (MonitorStream.popup_on_alarm c) (MonitorStream.has_onalarm c) b (MonitorStream.STATE_ALARM c)
    (MonitorStream.STATE_ALERT c).

Definition slot_cfg (sl : slot) : MonitorStream.config := with_onplay (onplay sl) (m_cfg (s_mon sl)).

(** ** The page *)

(** prevStateStarted *)
Inductive was := Paused | Played | Stopped.
#[export] Instance was_eq_dec : EqDecision was.
Proof. solve_decision. Defined.

(** What a pending timer will do. *)
Inductive timer :=
| TCycle                            (* nextCycleView, an interval *)
| THide                             (* stopPage, 15 s after the page was hidden *)
| TStartPage                        (* resume and pageshow *)
| TIdle                             (* stopPlayback *)
| TPlaced                           (* streamPrepareStart's interval *)
| TScale                            (* initPage's interval of 300 ms *)
| TPlay                             (* changePlayer *)
| TChannel (streamChannel : string). (* monitorChangeStreamChannel *)
#[export] Instance timer_eq_dec : EqDecision timer.
Proof. solve_decision. Defined.

Inductive effect :=
| RequestDialog | ShowDialog
| SetCookie (name value : string)
| ShowMonitor (id : Z)              (* the title, the URL and the history *)
| AuthFx (fx : Auth.effect unit).

(** A button's class, and whether it is disabled. *)
Record button := Button { b_class : string; b_disabled : bool }.

Record config := Config {
  monitorData : list monitor;
  viewing_timeout : bool;           (* ZM_WEB_VIEWING_TIMEOUT > 0 *)
  canEdit_Monitors : bool;
  hasPtzControls : bool;            (* the column #ptzControls is in the document *)
  thisUrl : string;
}.

Record page := Page {
  streams : list slot;
  monIdx : Z; monitorId : Z; currentMonitor : monitor;
  cycle : bool; cycleIntervalId : option nat; secondsToCycle : Z;
  seconds_text : string;            (* the element #secondsToCycle *)
  cyclePeriod : Z;                  (* the select of the period *)
  idleTimeoutTriggered : bool;
  prevStateStarted : option was; prevStateCycle : option bool;
  hidden : bool;                    (* document.hidden *)
  TimerHideShow : option nat;
  time : option nat;                (* the timer of inactivityTime *)
  updateScale : bool;
  timers : gmap nat timer; next : nat;
  dialog : option bool;             (* AYSWModal in the document, with its cycle_was *)
  dialog_shown : bool;
  dialog_asked : list bool;         (* the requests for it under way, each with its cycle_was *)
  buttons : gmap string button;
  players : list MonitorStream.player_option; player : option string;
  channels : list MonitorStream.player_option; channel : option string;
  scale : string; streamQuality : string;
  cookiePlayer : string; cookieChannel : string;
  analyse_frames : bool;
  alarm_clicks : nat;               (* how often cmdAlarm and cmdForce are bound to their buttons *)
  nav_active : gset Z;              (* the links of class active, by their monitors *)
  sidebar : bool; controls : bool;  (* the side columns that are visible *)
  ptz_disabled : bool;
  wrapperClass : string;
  auth : Auth.state unit;
  relay : string;                   (* zmAuth *)
  out : list effect;
}.
#[export] Instance eta_page : Eta page := fun s =>
  Page (streams s) (monIdx s) (monitorId s) (currentMonitor s) (cycle s) (cycleIntervalId s) (secondsToCycle s)
    (seconds_text s) (cyclePeriod s) (idleTimeoutTriggered s) (prevStateStarted s) (prevStateCycle s) (hidden s)
    (TimerHideShow s) (time s) (updateScale s) (timers s) (next s) (dialog s) (dialog_shown s) (dialog_asked s)
    (buttons s) (players s) (player s) (channels s) (channel s) (scale s) (streamQuality s) (cookiePlayer s)
    (cookieChannel s) (analyse_frames s) (alarm_clicks s) (nav_active s) (sidebar s) (controls s) (ptz_disabled s)
    (wrapperClass s) (auth s) (relay s) (out s).

(** What the browser measures, and the number it draws. *)
Record view := View {
  random : num;
  el_paused : bool;                 (* of the stream's element, or of the video in it *)
  ready : bool;                     (* readyState >= 2 *)
  alarm_off : bool; force_off : bool;   (* hasClass('disabled') of the two alarm buttons *)
  offsetHeight : option Z;          (* of the stream's element; [None] where there is none *)
  clientWidth : num; innerWidth : num; innerHeight : num;
  panzoom : num;
  autoScale : num;                  (* of scaleToFit *)
  frame_scale : num;                (* what setStreamScale measures *)
  cookie_ptzShow : bool;
}.

Definition emit (e : effect) (s : page) : page := s <| out := (out s ++ [e])%list |>.

Definition drop (h : option nat) (t : gmap nat timer) : gmap nat timer :=
  match h with Some h => delete h t | None => t end.

Definition add_timer (t : timer) (s : page) : page := s <| timers := <[next s := t]> (timers s) |> <| next := S (next s) |>.

(** ** Calls on the streams *)

(** The slot of monitorStream. *)
Definition current (s : page) : nat := Nat.pred (length (streams s)).
Definition monitorStream (s : page) : option slot := last (streams s).

(** [None]: a call overflowed the stack. *)
Definition tell_slot (i : nat) (es : list MonitorStream.event) (s : page) : option page :=
  match streams s !! i with
  | Some sl =>
      option_map (fun st => s <| streams := <[i := sl <| s_stream := st |>]> (streams s) |>)
        (MonitorStream.run (slot_cfg sl) (s_stream sl) es)
  | None => Some s
  end.
Definition tell (es : list MonitorStream.event) (s : page) : option page := tell_slot (current s) es s.

(** A member of the stream the page shows. *)
Definition ask {A} (d : A) (f : MonitorStream.state -> A) (s : page) : A :=
  match monitorStream s with Some sl => f (s_stream sl) | None => d end.

(** [monitorStream.start(monitorStream.currentChannelStream)] *)
Definition start_stream (v : view) (s : page) : option page :=
  tell [MonitorStream.Start (random v) (ask "" MonitorStream.currentChannelStream s)] s.

Definition set_onplay (b : bool) (s : page) : page :=
  s <| streams := alter (fun sl => sl <| onplay := b |>) (current s) (streams s) |>.

(** ** The scale *)

(** The width monitorsSetScale asks for, [None] for auto. *)
Definition asked_width (v : view) (sc : string) (m : monitor) : option num :=
  let ratio := (m_width m / m_height m)%num in
  if String.eqb sc "100" then Some (m_width m)
  else if String.eqb sc "fit_to_width" then Some (js_parseInt (VNum (clientWidth v * panzoom v)%num))
  else if has "px" sc then
    Some (if (ratio >? Fin 1)%num then parseInt sc else js_parseInt (VNum (parseInt sc * ratio)%num))
  else None.

(** setScale, with the element at the bottom set; then the quality. *)
Definition new_scale (v : view) (sc quality : string) (m : monitor) : num :=
  let newscale :=
    match asked_width v sc m with
    | None =>
        let fit := js_parseInt (VNum (autoScale v * panzoom v)%num) in
        if (fit <? Fin 25)%num then Fin 25 else fit
    | Some w => if ntruthy w then js_parseInt (VNum (Fin 100 * w / m_width m)%num) else w
    end in
  if String.eqb quality "" then newscale
  else (newscale + js_parseInt (VNum (newscale / Fin 100 * string_to_number quality)%num))%num.

Definition monitorsSetScale (v : view) (s : page) : option page :=
  match monitorStream s with
  | Some sl =>
      tell [MonitorStream.Scaled (frame_scale v) (new_scale v (scale s) (streamQuality s) (s_mon sl))
              (string_to_number (streamQuality s))] s
  | None => Some s
  end.

(** ** The buttons *)

(** skin.js *)
Definition setButtonState (id cls : string) (s : page) : page :=
  match buttons s !! id with
  | Some _ =>
      let disabled := String.eqb cls "unavail" ||
        (String.eqb cls "active" && (String.eqb id "pauseBtn" || String.eqb id "playBtn")) in
      s <| buttons := <[id := Button cls disabled]> (buttons s) |>
  | None => s
  end.

Definition setButtonStateWatch (id cls : string) (s : page) : page :=
  match buttons s !! id with
  | Some _ => s <| buttons := <[id := Button cls (String.eqb cls "unavail")]> (buttons s) |>
  | None => s
  end.

(** The four buttons of the replay, where there is a buffer to replay. *)
Definition replay_buttons (fastFwd slowFwd slowRev fastRev : string) (s : page) : page :=
  if monitorStreamReplayBuffer (currentMonitor s) then
    setButtonState "fastRevBtn" fastRev (setButtonState "slowRevBtn" slowRev
      (setButtonState "slowFwdBtn" slowFwd (setButtonState "fastFwdBtn" fastFwd s)))
  else s.

Definition onPause (s : page) : page :=
  let s := setButtonStateWatch "pauseBtn" "hidden" s in
  let s := setButtonStateWatch "playBtn" "active" s in
  let s := setButtonState "stopBtn" "inactive" s in
  replay_buttons "inactive" "inactive" "inactive" "inactive" s.

(** [monitorStream.status.delayed == true] *)
Definition delayed (st : MonitorStream.state) : bool :=
  match MonitorStream.status st with Some x => MonitorStream.is_true (MonitorStream.st_delayed x) | None => false end.

Definition onPlay (s : page) : page :=
  let s := setButtonStateWatch "pauseBtn" "inactive" s in
  let s := setButtonStateWatch "stopBtn" "inactive" s in
  let s := setButtonStateWatch "playBtn" "hidden" s in
  if ask false delayed s then replay_buttons "inactive" "inactive" "inactive" "inactive" s
  else replay_buttons "unavail" "unavail" "unavail" "unavail" s.

(** updatePlayerControls("stop") *)
Definition updatePlayerControls_stop (s : page) : page :=
  let s := replay_buttons "unavail" "unavail" "unavail" "unavail" (set_onplay false s) in
  setButtonStateWatch "pauseBtn" "hidden" (setButtonStateWatch "stopBtn" "unavail" (setButtonStateWatch "playBtn" "inactive" s)).

(** ** The player's commands *)

Definition streamCmdPause (action : bool) (s : page) : option page :=
  let s := onPause s in if action then tell [MonitorStream.Pause] s else Some s.

Definition streamCmdPlay (v : view) (action : bool) (s : page) : option page :=
  if hidden s && action then Some (s <| prevStateStarted := Some Played |>)
  else
    let s := onPlay s in
    if action then
      s ← tell [MonitorStream.SetActive true] s;
      if ask false MonitorStream.started s then tell [MonitorStream.Play] s else start_stream v s
    else Some s.

Definition streamCmdStop (s : page) : option page :=
  option_map updatePlayerControls_stop (tell [MonitorStream.SetActive false; MonitorStream.Stop] s).

Definition moving (s : page) : page :=
  setButtonState "stopBtn" "inactive" (setButtonState "playBtn" "inactive" (setButtonState "pauseBtn" "inactive" s)).

Definition send (action : bool) (c : MonitorStream.command) (s : page) : option page :=
  if action then tell [MonitorStream.Send c] s else Some s.

Definition streamCmdFastFwd (action : bool) (s : page) : option page :=
  send action MonitorStream.CMD_FASTFWD (replay_buttons "inactive" "inactive" "inactive" "inactive" (moving s)).
Definition streamCmdFastRev (action : bool) (s : page) : option page :=
  send action MonitorStream.CMD_FASTREV (replay_buttons "inactive" "inactive" "inactive" "inactive" (moving s)).

Definition streamCmdSlowFwd (action : bool) (s : page) : option page :=
  s ← send action MonitorStream.CMD_SLOWFWD (replay_buttons "inactive" "active" "inactive" "inactive" (moving s));
  let s := setButtonState "pauseBtn" "active" s in
  Some (if monitorStreamReplayBuffer (currentMonitor s) then setButtonState "slowFwdBtn" "inactive" s else s).
Definition streamCmdSlowRev (action : bool) (s : page) : option page :=
  s ← send action MonitorStream.CMD_SLOWREV (replay_buttons "inactive" "inactive" "active" "inactive" (moving s));
  let s := setButtonState "pauseBtn" "active" s in
  Some (if monitorStreamReplayBuffer (currentMonitor s) then setButtonState "slowRevBtn" "inactive" s else s).

(** zoomOutClick *)
Definition streamCmdZoomOut (s : page) : option page := tell [MonitorStream.Send MonitorStream.CMD_ZOOMOUT] s.
Definition streamCmdZoomStop (s : page) : option page := tell [MonitorStream.Send MonitorStream.CMD_ZOOMSTOP] s.
Definition zoomOutClick (ctrlKey : bool) (s : page) : option page :=
  if ctrlKey then streamCmdZoomStop s else streamCmdZoomOut s.

(** cmdAlarm and cmdForce, as often as they are bound to the button. *)
Definition alarm_command (off on : string) (is_off : bool) : MonitorStream.event :=
  MonitorStream.Alarm (if is_off then on else off).
Definition click_alarm (v : view) (s : page) : option page :=
  tell (repeat (alarm_command "disableAlarms" "enableAlarms" (alarm_off v)) (alarm_clicks s)) s.
Definition click_force (v : view) (s : page) : option page :=
  tell (repeat (alarm_command "cancelForcedAlarm" "forceAlarm" (force_off v)) (alarm_clicks s)) s.

Definition toggleAnalyseFrames (s : page) : option page :=
  let s := s <| analyse_frames := negb (ask (analyse_frames s) MonitorStream.analyse_frames s) |> in
  tell [MonitorStream.Analyse (analyse_frames s)] s.

(** ** The columns at the sides *)

Definition changeObjectClass (s : page) : page :=
  s <| wrapperClass := if sidebar s then (if controls s then "col-sm-7" else "col-sm-9")
                       else if controls s then "col-sm-10" else "col-sm-12" |>.

Definition js_bool (b : bool) : string := if b then "true" else "false".

Definition cycleToggle (v : view) (s : page) : option page :=
  let s := s <| sidebar := negb (sidebar s) |> in
  monitorsSetScale v (changeObjectClass (emit (SetCookie "zmCycleShow" (js_bool (sidebar s))) s)).

(** ** The selects of the channel and of the player *)

(** skin.js, for the entry of monitorData that is found, if any. *)
Definition manage_channel (m : option monitor) (o : MonitorStream.player_option) : MonitorStream.player_option :=
  let value := MonitorStream.po_value o in
  let path f := default "" (option_map f m) in
  let restream := default false (option_map Restream m) in
  let with_ b := MonitorStream.PlayerOption value b in
  if String.eqb value "Secondary" || String.eqb value "CameraDirectSecondary" then with_ (String.eqb (path SecondPath) "")
  else if String.eqb value "Restream" || String.eqb value "ZoneMinderPrimary" then with_ (negb restream)
  else if String.eqb value "CameraDirectPrimary" then with_ (String.eqb (path Path) "")
  else o.

(** [select.querySelector('option:not([disabled])')] *)
Definition first_open (opts : list MonitorStream.player_option) : option string :=
  option_map MonitorStream.po_value (List.find (fun o => negb (MonitorStream.po_disabled o)) opts).

Definition first_enabled (opts : list MonitorStream.player_option) : string := default "Restream" (first_open opts).

(** What manageChannelStream leaves chosen of the options it has gone through. *)
Definition still_chosen (opts : list MonitorStream.player_option) (ch : option string) : option string :=
  match ch ≫= fun value => MonitorStream.option_at value opts with
  | Some o =>
      if MonitorStream.po_disabled o then
        if existsb (fun o => String.eqb (MonitorStream.po_value o) "CameraDirectPrimary" && negb (MonitorStream.po_disabled o)) opts
        then Some "CameraDirectPrimary"
        else match first_open opts with Some value => Some value | None => ch end
      else ch
  | None => ch
  end.

(** [select.value = value] *)
Definition select_value (value : string) (opts : list MonitorStream.player_option) : option string :=
  option_map MonitorStream.po_value (MonitorStream.option_at value opts).

(** The channel of the cookie, or the monitor's, or the first one there is. *)
Definition pick_channel (cookie : string) (m : monitor) (opts : list MonitorStream.player_option) : string :=
  let value := if String.eqb cookie "" then MonitorStream.StreamChannel (m_cfg m) else cookie in
  match MonitorStream.option_at value opts with
  | Some o => if MonitorStream.po_disabled o then first_enabled opts else value
  | None => value
  end.

Section Page.
Variable cfg : config.

Definition find_monitor (id : Z) : option monitor := List.find (fun m => m_id m =? id) (monitorData cfg).

Definition manageChannelStream (s : page) : page :=
  let opts := map (manage_channel (find_monitor (monitorId s))) (channels s) in
  s <| channels := opts |> <| channel := still_chosen opts (channel s) |>.

Definition setChannelStream (s : page) : option page :=
  let s := manageChannelStream s in
  if has "zms" (ask "" MonitorStream.activePlayer s) then Some s
  else
    let value := pick_channel (cookieChannel s) (currentMonitor s) (channels s) in
    tell [MonitorStream.SetChannel value] (s <| channel := select_value value (channels s) |>).

(** ** The camera's column *)

Definition applyMonitorControllable (v : view) (s : page) : page :=
  changeObjectClass
    (if monitorControllable (currentMonitor s)
     then s <| ptz_disabled := false |> <| controls := cookie_ptzShow v && hasPtzControls cfg |>
     else s <| ptz_disabled := true |> <| controls := false |>).

Definition ptzToggle (v : view) (s : page) : option page :=
  if ptz_disabled s then Some s
  else
    let show := negb (controls s) in
    let s := s <| controls := show && hasPtzControls cfg |> in
    monitorsSetScale v (changeObjectClass (emit (SetCookie "ptzShow" (js_bool show)) s)).

(** ** Starting a stream *)

(** The new stream with its player; its handlers are not set yet. *)
Definition new_stream (s : page) : page :=
  let m := currentMonitor s in
  let st := MonitorStream.create (m_connKey m) (DefaultPlayer m) (m_src m) (relay s) in
  let '(opts, sel, st) := MonitorStream.manageAvailablePlayers (m_cfg m) (cookiePlayer s) (players s) (player s) st in
  s <| streams := (streams s ++ [Slot m false st])%list |> <| players := opts |> <| player := sel |>.

Definition streamStart (v : view) (s : page) : option page :=
  s ← setChannelStream (new_stream s);
  s ← streamCmdPlay v true s;
  let s := set_onplay true s in
  Some (if canEdit_Monitors cfg then s <| alarm_clicks := S (alarm_clicks s) |> else s).

Definition streamPrepareStart (v : view) (s : page) : option page :=
  s ← streamStart v s;
  Some (setButtonStateWatch "stopBtn" "active" (add_timer TPlaced s)).

Definition streamReStart (v : view) (oldId newId : Z) (s : page) : option page :=
  match find_monitor newId with
  | None => Some (s <| monitorId := newId |>)           (* a TypeError: there is no such monitor *)
  | Some m =>
      let s := emit (ShowMonitor newId) (s <| currentMonitor := m |> <| monitorId := newId |>) in
      s ← tell [MonitorStream.SetActive false; MonitorStream.Kill] s;
      let s := s <| nav_active := {[newId]} ∪ (nav_active s ∖ {[oldId]}) |> in
      streamPrepareStart v (applyMonitorControllable v s)
  end.

(** ** The cycle *)

(** [monitorData[i]] *)
Definition data_at (i : Z) : option monitor := if i <? 0 then None else monitorData cfg !! Z.to_nat i.
Definition count : Z := Z.of_nat (length (monitorData cfg)).

Definition clear_cycle (s : page) : page := s <| timers := drop (cycleIntervalId s) (timers s) |>.

Definition cyclePause (s : page) : page := clear_cycle s <| cycle := false |>.

Definition cycleStart (s : page) : page :=
  let s := clear_cycle s in
  let s := if secondsToCycle s =? 0 then s <| secondsToCycle := cyclePeriod s |> else s in
  add_timer TCycle s <| cycleIntervalId := Some (next s) |> <| cycle := true |>.

Definition cycleStop (s : page) : page := cyclePause (s <| secondsToCycle := 0 |> <| seconds_text := "" |>).

(** From the monitor at one index to that at another. *)
Definition go_to (v : view) (i : Z) (s : page) : option page :=
  let s := clear_cycle s in
  match data_at (monIdx s) with
  | None => Some s                                      (* a TypeError *)
  | Some old =>
      let s := s <| monIdx := i |> in
      match data_at i with
      | None => Some s                                  (* a TypeError *)
      | Some new =>
          s ← streamReStart v (m_id old) (m_id new) s;
          Some (if cycle s then cycleStart s else s)
      end
  end.

Definition cycleNext (v : view) (s : page) : option page := go_to v ((monIdx s + 1) mod count) s.
Definition cyclePrev (v : view) (s : page) : option page :=
  go_to v (if monIdx s <=? 0 then count - 1 else monIdx s - 1) s.

Definition playerErrorLimitReached (st : MonitorStream.state) : bool :=
  negb (String.eqb (MonitorStream.selectedPlayer st) "") &&
  (MonitorStream.getCountStreamErrors (MonitorStream.player st) st >=? MonitorStream.limitCountErrors).

Definition gave_up (s : page) : bool :=
  ask false (fun st => MonitorStream.fatalError st || playerErrorLimitReached st) s.

Definition nextCycleView (v : view) (s : page) : option page :=
  let s := if ready v then s <| secondsToCycle := secondsToCycle s - 1 |> else s in
  s ← (if (secondsToCycle s <=? 0) || gave_up s then cycleNext v s else Some s);
  Some (s <| seconds_text := Z_to_string (secondsToCycle s) |>).

(** handleClick on the link of the [k]-th monitor. *)
Definition click_link (v : view) (k : nat) (s : page) : option page :=
  match monitorData cfg !! k, monitorStream s with
  | Some m, Some sl =>
      streamReStart v (m_id (s_mon sl)) (m_id m) (cycleStop s <| monIdx := Z.of_nat k |>)
  | _, _ => Some s
  end.

Definition cyclePeriodChange (p : Z) (s : page) : page :=
  emit (SetCookie "zmCyclePeriod" (Z_to_string p)) (s <| cyclePeriod := p |>).

(** ** The selects *)

Definition enabled (value : string) (opts : list MonitorStream.player_option) : bool :=
  match MonitorStream.option_at value opts with Some o => negb (MonitorStream.po_disabled o) | None => false end.

Definition monitorChangeStreamChannel (value : string) (s : page) : option page :=
  if enabled value (channels s) then
    s ← tell [MonitorStream.SetChannel value] (s <| channel := Some value |>);
    let s := emit (SetCookie "zmStreamChannel" value) (s <| cookieChannel := value |>) in
    let p := ask "" MonitorStream.activePlayer s in
    if negb (String.eqb p "") && (has "go2rtc" p || has "rtsp2web" p)
    then option_map (add_timer (TChannel value)) (streamCmdStop s) else Some s
  else Some s.

Definition changePlayer (value : string) (s : page) : option page :=
  if enabled value (players s) then
    let s := emit (SetCookie "zmWatchPlayer" value) (s <| player := Some value |> <| cookiePlayer := value |>) in
    s ← streamCmdStop s;
    s ← tell [MonitorStream.SetPlayer value value] s;
    option_map (add_timer TPlay) (setChannelStream s)
  else Some s.

Definition changeScale (v : view) (value : string) (s : page) : option page :=
  monitorsSetScale v
    (emit (SetCookie "zmCycleScale" value)
       (emit (SetCookie ("zmWatchScaleNew" ++ Z_to_string (monitorId s)) value) (s <| scale := value |>))).
Definition changeStreamQuality (v : view) (value : string) (s : page) : option page :=
  monitorsSetScale v (emit (SetCookie "zmStreamQuality" value) (s <| streamQuality := value |>)).
Definition changeRate (value : string) (s : page) : option page :=
  option_map (emit (SetCookie "zmWatchRate" value)) (tell [MonitorStream.MaxFPS (VStr value)] s).

(** ** Inactivity *)

Definition stopPlayback (s : page) : option page :=
  s ← streamCmdStop (s <| idleTimeoutTriggered := true |>);
  let cycle_was := cycle s in
  let s := cyclePause s in
  Some (match dialog s with
        | Some _ => emit ShowDialog (s <| dialog_shown := true |>)
        | None => emit RequestDialog (s <| dialog_asked := (dialog_asked s ++ [cycle_was])%list |>)
        end).

Definition resetTimer (s : page) : page :=
  let s := s <| timers := drop (time s) (timers s) |> in
  add_timer TIdle s <| time := Some (next s) |>.

(** The answer to the first request under way; one that comes while there is a
    dialog replaces it, of which only the end of the request is modelled. *)
Definition dialog_done (s : page) : page :=
  match dialog_asked s with
  | [] => s
  | cycle_was :: asked =>
      let s := s <| dialog_asked := asked |> in
      match dialog s with
      | Some _ => s
      | None => emit ShowDialog (s <| dialog := Some cycle_was |> <| dialog_shown := true |>)
      end
  end.

(** hidden.bs.modal *)
Definition dialog_closed (v : view) (s : page) : option page :=
  match dialog s with
  | Some cycle_was =>
      if dialog_shown s then
        s ← streamCmdPlay v true (s <| dialog_shown := false |> <| idleTimeoutTriggered := false |>);
        Some (if cycle_was then cycleStart s else s)
      else Some s
  | None => Some s
  end.

(** ** Hiding and showing the page *)

Definition clear_hide (s : page) : page := s <| timers := drop (TimerHideShow s) (timers s) |> <| TimerHideShow := None |>.

Definition paused (v : view) (st : MonitorStream.state) : bool :=
  String.eqb (MonitorStream.zmsState st) "paused" || el_paused v.

Definition stopPage (v : view) (s : page) : option page :=
  let s := clear_hide s in
  let s := s <| prevStateCycle := Some (cycle s) |> in
  let s := if cycle s then cycleStop s else s in
  match monitorStream s with
  | None => Some s
  | Some sl =>
      if MonitorStream.started (s_stream sl) then
        if paused v (s_stream sl) then Some (s <| prevStateStarted := Some Paused |>)
        else tell [MonitorStream.SetActive false; MonitorStream.Stop] (s <| prevStateStarted := Some Played |>)
      else Some (s <| prevStateStarted := Some Stopped |>)
  end.

(** What startPage hands to whenAuthFresh. *)
Definition start_now (v : view) (s : page) : option page :=
  s ← (if bool_decide (prevStateStarted s = Some Played) && negb (idleTimeoutTriggered s) then
         s ← tell [MonitorStream.SetActive true] (onPlay (s <| prevStateStarted := None |>));
         s ← start_stream v s;
         monitorsSetScale v s
       else if ask false (paused v) s then Some (s <| prevStateStarted := None |>)
       else Some s);
  Some (match prevStateCycle s with
        | Some true => cycleStart (s <| prevStateCycle := None |>)
        | _ => s
        end).

(** The streams read the credential off the page. *)
Definition share (s : page) : option page :=
  foldr (fun i r => s ← r; tell_slot i [MonitorStream.NewAuth (relay s)] s) (Some s) (seq 0 (length (streams s))).

(** One effect of auth-helpers, at the moment of [v]. *)
Definition run_effect (v : view) (r : option page) (fx : Auth.effect unit) : option page :=
  s ← r;
  let s := emit (AuthFx fx) s in
  match fx with
  | Auth.Run _ => start_now v s
  | Auth.SetNavBar data => share (s <| relay := (Auth.update (relay s) data).1 |>)
  | _ => Some s
  end.

Definition with_auth (v : view) (r : Auth.state unit * list (Auth.effect unit)) (s : page) : option page :=
  fold_left (run_effect v) r.2 (Some (s <| auth := r.1 |>)).

Definition startPage (v : view) (s : page) : option page :=
  let s := clear_hide s in
  with_auth v (Auth.whenAuthFresh (thisUrl cfg) (Some (relay s)) tt (auth s)) s.

Definition hide_page (s : page) : page :=
  let s := s <| timers := drop (TimerHideShow s) (timers s) |> in
  add_timer THide s <| TimerHideShow := Some (next s) |>.

(** ** What can happen *)

(** The buttons under the picture. *)
Inductive dvr := BPause | BPlay | BStop | BFastFwd | BSlowFwd | BSlowRev | BFastRev.

Definition dvr_id (b : dvr) : string :=
  match b with
  | BPause => "pauseBtn" | BPlay => "playBtn" | BStop => "stopBtn" | BFastFwd => "fastFwdBtn"
  | BSlowFwd => "slowFwdBtn" | BSlowRev => "slowRevBtn" | BFastRev => "fastRevBtn"
  end.

Definition dvr_command (v : view) (b : dvr) (s : page) : option page :=
  match b with
  | BPause => streamCmdPause true s
  | BPlay => streamCmdPlay v true s
  | BStop => streamCmdStop s
  | BFastFwd => streamCmdFastFwd true s
  | BSlowFwd => streamCmdSlowFwd true s
  | BSlowRev => streamCmdSlowRev true s
  | BFastRev => streamCmdFastRev true s
  end.

(** A click on one of them, which the document sees too; a disabled button has none. *)
Definition click_dvr (v : view) (b : dvr) (s : page) : option page :=
  match buttons s !! dvr_id b with
  | Some (Button _ false) => option_map cyclePause (dvr_command v b s)
  | _ => Some s
  end.

Inductive event :=
| Fire (h : nat)
| Visibility (hidden : bool) | Freeze | Resume | PageHide | PageShow
| Activity                          (* a key, or the mouse *)
| DialogDone | DialogFail | DialogClosed
| ProbeDone (data : option Auth.auth_data) | ProbeFail (httpStatus : Z)
| CyclePlay | CyclePause | CycleNext | CyclePrev | CyclePeriod (p : Z) | Link (k : nat)
| Dvr (b : dvr) | ZoomOut (ctrlKey : bool)
| ChooseChannel (value : string) | ChoosePlayer (value : string)
| ChooseScale (value : string) | ChooseQuality (value : string) | Rate (value : string)
| AnalyseClick | AlarmClick | ForceClick | CycleToggle | PtzToggle
| Resized                           (* the observer, and the zoom *)
| Own (i : nat) (e : MonitorStream.event).   (* what happens to a stream of itself *)

Definition placed (v : view) (h : nat) (s : page) : option page :=
  match offsetHeight v with
  | Some y => if 20 <? y then monitorsSetScale v (s <| timers := delete h (timers s) |>) else Some s
  | None => Some s
  end.

(** The browser runs the callback of handle [h]; an interval stays set. *)
Definition fire (v : view) (h : nat) (s : page) : option page :=
  let once := s <| timers := delete h (timers s) |> in
  match timers s !! h with
  | None => Some s
  | Some TCycle => nextCycleView v s
  | Some THide => stopPage v once
  | Some TStartPage => if hidden once then Some once else startPage v once
  | Some TIdle => stopPlayback once
  | Some TPlaced => placed v h s
  | Some TScale =>
      if updateScale s then option_map (fun s => s <| updateScale := false |>) (monitorsSetScale v s) else Some s
  | Some TPlay => s ← streamCmdPlay v true once; monitorsSetScale v s
  | Some (TChannel ch) =>
      s ← tell [MonitorStream.SetActive true; MonitorStream.Start (random v) ch] once;
      monitorsSetScale v (onPlay s)
  end.

(** What a stream calls on the page when a status arrives. *)
Definition page_call (r : option page) (e : MonitorStream.effect) : option page :=
  s ← r;
  match e with
  | MonitorStream.Calls MonitorStream.OnPause => Some (onPause s)
  | MonitorStream.Calls MonitorStream.OnPlay => Some (onPlay s)
  | MonitorStream.Calls MonitorStream.SlowFwd => streamCmdSlowFwd false s
  | MonitorStream.Calls MonitorStream.FastFwd => streamCmdFastFwd false s
  | MonitorStream.Calls MonitorStream.SlowRev => streamCmdSlowRev false s
  | MonitorStream.Calls MonitorStream.FastRev => streamCmdFastRev false s
  | _ => Some s
  end.

(** An event of one of the streams: the calls it makes on the page, and the
    credential, which the other streams see. *)
Definition own (i : nat) (e : MonitorStream.event) (s : page) : option page :=
  match streams s !! i with
  | None => Some s
  | Some sl =>
      s ← tell_slot i [e] s;
      match streams s !! i with
      | None => Some s
      | Some sl' =>
          let new := List.skipn (length (MonitorStream.out (s_stream sl))) (MonitorStream.out (s_stream sl')) in
          s ← fold_left page_call new (Some s);
          let rl := MonitorStream.relay (s_stream sl') in
          if String.eqb rl (relay s) then Some s else share (s <| relay := rl |>)
      end
  end.

Definition step (v : view) (s : page) (e : event) : option page :=
  match e with
  | Fire h => fire v h s
  | Visibility true => Some (hide_page (s <| hidden := true |>))
  | Visibility false => startPage v (s <| hidden := false |>)
  | Freeze | PageHide => stopPage v s
  | Resume | PageShow => Some (add_timer TStartPage s)
  | Activity => Some (if viewing_timeout cfg then resetTimer s else s)
  | DialogDone => Some (dialog_done s)
  | DialogFail => Some (s <| dialog_asked := List.tl (dialog_asked s) |>)
  | DialogClosed => dialog_closed v s
  | ProbeDone d => if Auth.authRevalidating (auth s) then with_auth v (Auth.probe_done d (auth s)) s else Some s
  | ProbeFail st =>
      if Auth.authRevalidating (auth s) then with_auth v (Auth.probe_fail (thisUrl cfg) "watch" st (auth s)) s else Some s
  | CyclePlay => Some (cycleStart s)
  | CyclePause => Some (cyclePause s)
  | CycleNext => cycleNext v s
  | CyclePrev => cyclePrev v s
  | CyclePeriod p => Some (cyclePeriodChange p s)
  | Link k => click_link v k s
  | Dvr b => click_dvr v b s
  | ZoomOut ctrl => option_map cyclePause (zoomOutClick ctrl s)
  | ChooseChannel value => monitorChangeStreamChannel value s
  | ChoosePlayer value => changePlayer value s
  | ChooseScale value => changeScale v value s
  | ChooseQuality value => changeStreamQuality v value s
  | Rate value => changeRate value s
  | AnalyseClick => toggleAnalyseFrames s
  | AlarmClick => click_alarm v s
  | ForceClick => click_force v s
  | CycleToggle => cycleToggle v s
  | PtzToggle => ptzToggle v s
  | Resized => Some (s <| updateScale := true |>)
  | Own i e => own i e s
  end.

Fixpoint run (s : page) (es : list (view * event)) : option page :=
  match es with
  | [] => Some s
  | (v, e) :: es => match step v s e with Some s => run s es | None => None end
  end.

(** The buttons of watch.php. *)
Definition first_buttons : gmap string button :=
  list_to_map (map (fun '(id, cls, disabled) => (id, Button cls disabled))
    [("fastRevBtn", "unavail", true); ("slowRevBtn", "unavail", true); ("stopBtn", "unavail", true);
     ("pauseBtn", "active", false); ("playBtn", "hidden", true); ("slowFwdBtn", "unavail", true);
     ("fastFwdBtn", "unavail", true)]).

(** What the page of PHP says: the monitor's index, the cycle and its period, the
    selects and the cookies, and the columns that are visible. *)
Record request := Request {
  r_index : nat; r_cycle : bool; r_period : Z; r_hidden : bool;
  r_players : list MonitorStream.player_option; r_player : option string;
  r_channels : list MonitorStream.player_option; r_channel : option string;
  r_scale : string; r_quality : string; r_cookiePlayer : string; r_cookieChannel : string;
  r_sidebar : bool; r_controls : bool; r_relay : string;
}.

(** initPage, for a monitor that is there. *)
Definition initPage (v : view) (r : request) : option page :=
  match monitorData cfg !! r_index r with
  | None => None
  | Some m =>
      let s := Page [] (Z.of_nat (r_index r)) (m_id m) m (r_cycle r) None 0 "" (r_period r) false None None (r_hidden r)
                 None None false ∅ 1 None false [] first_buttons (r_players r) (r_player r) (r_channels r) (r_channel r)
                 (r_scale r) (r_quality r) (r_cookiePlayer r) (r_cookieChannel r) false 0 {[m_id m]} (r_sidebar r)
                 (r_controls r) false "" Auth.init (r_relay r) [] in
      let s := if (1 <? count) && cycle s then cycleStart s else cyclePause s in
      let s := if viewing_timeout cfg then resetTimer s else s in
      let s := changeObjectClass (add_timer TScale s) in
      streamPrepareStart v (applyMonitorControllable v s)
  end.
End Page.
End WatchPage.
