(* ===== verification/WatchView.v ===== *)
(** The theorems of the live view ([WatchPage]).

    A handler of the page is made of calls on its streams, which leave the rest of
    the page alone ([steady]), of changes of its clock (the timers and the cycle)
    and of changes of monitor.  [Walk] takes a property that survives each of
    these through every handler; the invariant of the page, the ledger of the zms
    processes and the totality of the handlers are three uses of it. *)
From S2P Require Import JsString AuthHelpers EventStream MonitorStream WatchPage.

Module Watch.
Import WatchPage.
#[local] Existing Instance MonitorStream.eta_state.
#[local] Open Scope string_scope.
#[local] Open Scope Z_scope.

(** ** A run of a stream, under either value of its member onplay *)

Fixpoint srun (m : monitor) (st : MonitorStream.state) (es : list (bool * MonitorStream.event)) : option MonitorStream.state :=
  match es with
  | [] => Some st
  | (b, e) :: es =>
      match MonitorStream.step (with_onplay b (m_cfg m)) st e with Some st => srun m st es | None => None end
  end.

Lemma srun_app m es es' : forall st, srun m st (es ++ es') = match srun m st es with Some st' => srun m st' es' | None => None end.
Proof.
  induction es as [|[b e] es IH]; intros st; [reflexivity|]. cbn [srun app].
  destruct (MonitorStream.step _ _ _); [apply IH|reflexivity].
Qed.

Lemma srun_run m b es : forall st,
  srun m st (map (fun e => (b, e)) es) = MonitorStream.run (with_onplay b (m_cfg m)) st es.
Proof.
  induction es as [|e es IH]; intros st; [reflexivity|]. cbn [srun map MonitorStream.run].
  destruct (MonitorStream.step _ _ _); [apply IH|reflexivity].
Qed.

(** A stream of good form under a default player that is in its list. *)
Definition fit (st : MonitorStream.state) : Prop := MonitorStream.good st /\ MonitorStream.default_listed st.

Lemma run_fit c es : forall st, fit st -> exists st', MonitorStream.run c st es = Some st' /\ fit st'.
Proof.
  induction es as [|e es IH]; intros st [G L]; cbn; [exists st; split; [reflexivity|split; assumption]|].
  destruct (MonitorStream.step_total c e st G L) as [st1 E]. rewrite E.
  destruct (MonitorStream.step_good c st e st1 G E) as [G1 D1]. apply IH. split; [exact G1|].
  unfold MonitorStream.default_listed in *. congruence.
Qed.

Lemma srun_fit m es : forall st st', fit st -> srun m st es = Some st' -> fit st'.
Proof.
  induction es as [|[b e] es IH]; intros st st' F; cbn; [intros [= <-]; exact F|].
  destruct (run_fit (with_onplay b (m_cfg m)) [e] st F) as (st1 & R & F1). cbn in R.
  destruct (MonitorStream.step _ _ _); [|discriminate]. injection R as <-. apply IH, F1.
Qed.

Lemma srun_keeps m es : forall st st', MonitorStream.good st ->
  Forall (fun e => MonitorStream.is_auth_done e.2 = false) es -> srun m st es = Some st' -> MonitorStream.keeps st st'.
Proof.
  induction es as [|[b e] es IH]; intros st st' G F; cbn; [intros [= <-]; apply MonitorStream.keeps_refl, G|].
  apply Forall_cons in F as [Fe F]. destruct (MonitorStream.step _ _ _) as [st1|] eqn:E; [|discriminate]. intros R.
  pose proof (MonitorStream.keeps_step _ st e G Fe st1 E) as K.
  eapply MonitorStream.keeps_trans; [exact K|]. apply IH; [apply K|exact F|exact R].
Qed.

Lemma srun_retired m es : forall st st', MonitorStream.retired st ->
  Forall (fun e => MonitorStream.sets_active e.2 = false) es -> srun m st es = Some st' -> MonitorStream.retired st'.
Proof.
  induction es as [|[b e] es IH]; intros st st' D F; cbn; [intros [= <-]; exact D|].
  apply Forall_cons in F as [Fe F]. pose proof (MonitorStream.retired_step (with_onplay b (m_cfg m)) st e D Fe) as D1.
  destruct (MonitorStream.step _ _ _) as [st1|]; [|discriminate]. intros R. exact (IH st1 st' D1 F R).
Qed.

(** ** Handlers that leave all but the streams alone *)

Section Steady.
(** The events a stream may be told. *)
Variable P : MonitorStream.event -> Prop.

(** [sl'] is [sl] after some events; [old]: none of them makes it active. *)
Definition moved (old : bool) (sl sl' : slot) : Prop :=
  s_mon sl' = s_mon sl /\
  exists es, Forall (fun e => P e.2 /\ (old = true -> MonitorStream.sets_active e.2 = false)) es /\
    srun (s_mon sl) (s_stream sl) es = Some (s_stream sl').

Lemma slot_moved_same old sl sl' : s_mon sl' = s_mon sl -> s_stream sl' = s_stream sl -> moved old sl sl'.
Proof. intros E1 E2. split; [exact E1|]. exists []. split; [constructor|]. cbn. congruence. Qed.

Lemma slot_moved_trans old s1 s2 s3 : moved old s1 s2 -> moved old s2 s3 -> moved old s1 s3.
Proof.
  intros (M1 & es1 & F1 & R1) (M2 & es2 & F2 & R2). split; [congruence|]. exists (es1 ++ es2)%list.
  split; [apply Forall_app; split; assumption|]. rewrite srun_app, R1. rewrite <- M1. exact R2.
Qed.

(** The monitor, and what the page's timers are part of. *)
Definition core (s : page) : Z * Z * monitor * gset Z := (monIdx s, monitorId s, currentMonitor s, nav_active s).
Definition clock (s : page) : bool * option nat * gmap nat timer * nat * option nat * option nat :=
  (cycle s, cycleIntervalId s, timers s, next s, TimerHideShow s, time s).
(** The countdown, and what the page knows of itself. *)
Definition tally (s : page) : Z * Z * bool * option bool * bool * Auth.state unit :=
  (secondsToCycle s, cyclePeriod s, idleTimeoutTriggered s, prevStateCycle s, hidden s, auth s).
Definition base (s : page) := (streams s, core s, clock s).
Definition kept (s : page) := (base s, tally s).

Definition slots_move (ss ss' : list slot) : Prop :=
  length ss' = length ss /\
  forall i sl, ss !! i = Some sl -> exists sl', ss' !! i = Some sl' /\ moved (bool_decide (S i < length ss)%nat) sl sl'.

Definition steady (s t : page) : Prop :=
  core t = core s /\ clock t = clock s /\ slots_move (streams s) (streams t) /\ tally t = tally s.

Lemma slots_move_refl ss : slots_move ss ss.
Proof. split; [reflexivity|]. intros i sl E. exists sl. split; [exact E|]. apply slot_moved_same; reflexivity. Qed.

Lemma slots_move_trans s1 s2 s3 : slots_move s1 s2 -> slots_move s2 s3 -> slots_move s1 s3.
Proof.
  intros [L1 H1] [L2 H2]. split; [congruence|]. intros i sl E. destruct (H1 i sl E) as (sl1 & E1 & M1).
  destruct (H2 i sl1 E1) as (sl2 & E2 & M2). exists sl2. split; [exact E2|]. rewrite L1 in M2.
  eapply slot_moved_trans; eassumption.
Qed.

Lemma steady_refl s : steady s s.
Proof. split; [reflexivity|]. split; [reflexivity|]. split; [apply slots_move_refl|reflexivity]. Qed.

Lemma steady_trans s t u : steady s t -> steady t u -> steady s u.
Proof.
  intros (C1 & K1 & M1 & T1) (C2 & K2 & M2 & T2). split; [congruence|]. split; [congruence|].
  split; [eapply slots_move_trans; eassumption|congruence].
Qed.

Lemma steady_same s t u : steady s t -> kept u = kept t -> steady s u.
Proof.
  intros (C & K & M & T) E. split; [rewrite <- C; exact (f_equal (fun x => x.1.1.2) E)|].
  split; [rewrite <- K; exact (f_equal (fun x => x.1.2) E)|].
  assert (E1 : streams u = streams t) by exact (f_equal (fun x => x.1.1.1) E). rewrite E1. split; [exact M|].
  rewrite <- T. exact (f_equal snd E).
Qed.

(** The streams fit, and those of the monitors will. *)
Definition listed_player (p : string) : bool := MonitorStream.listed (if String.eqb p "" then "default" else p).
Definition sound (s : page) : Prop :=
  Forall (fun sl => fit (s_stream sl)) (streams s) /\ listed_player (DefaultPlayer (currentMonitor s)) = true.

Lemma steady_sound s t : steady s t -> sound s -> sound t.
Proof.
  intros (C & _ & [L M] & _) [F D]. split; [|injection C as _ _ E _; rewrite E; exact D].
  apply Forall_forall. intros sl' Hin. apply list_elem_of_lookup in Hin as [i Ei].
  assert (Hi : (i < length (streams s))%nat) by (rewrite <- L; apply lookup_lt_Some in Ei; exact Ei).
  apply lookup_lt_is_Some in Hi as [sl E]. destruct (M i sl E) as (sl1 & E1 & _ & es & _ & R).
  assert (sl1 = sl') as -> by congruence. rewrite Forall_forall in F.
  eapply srun_fit; [|exact R]. apply F, list_elem_of_lookup. eauto.
Qed.

Definition steadyO (s : page) (o : option page) : Prop :=
  match o with Some t => steady s t | None => ~ sound s end.

Lemma steadyO_some s t : steady s t -> steadyO s (Some t).
Proof. intros H. exact H. Qed.

Lemma steadyO_trans s t o : steady s t -> steadyO t o -> steadyO s o.
Proof.
  destruct o as [u|]; cbn; [apply steady_trans|]. intros H N S. exact (N (steady_sound s t H S)).
Qed.

Lemma steadyO_bind s o (f : page -> option page) : steadyO s o -> (forall t, steady s t -> steadyO s (f t)) -> steadyO s (o ≫= f).
Proof. destruct o as [t|]; cbn; [auto|]. intros H _. exact H. Qed.

Lemma steadyO_map s o (f : page -> page) : steadyO s o -> (forall t, steady s t -> steady s (f t)) -> steadyO s (option_map f o).
Proof. destruct o as [t|]; cbn; auto. Qed.

(** The list with one of its slots replaced. *)
Lemma slots_move_insert ss i sl sl' : ss !! i = Some sl -> moved (bool_decide (S i < length ss)%nat) sl sl' ->
  slots_move ss (<[i := sl']> ss).
Proof.
  intros E M. split; [apply length_insert|]. intros j slj Ej. destruct (decide (j = i)) as [->|N].
  - exists sl'. split; [apply list_lookup_insert_eq; apply lookup_lt_Some in E; exact E|]. assert (slj = sl) as -> by congruence. exact M.
  - exists slj. split; [rewrite list_lookup_insert_ne by congruence; exact Ej|]. apply slot_moved_same; reflexivity.
Qed.

Lemma steady_tell_slot i es s t : steady s t -> Forall P es ->
  (S i = length (streams t) \/ Forall (fun e => MonitorStream.sets_active e = false) es) -> steadyO s (tell_slot i es t).
Proof.
  intros H HP Hi. apply (steadyO_trans s t _ H). unfold tell_slot. destruct (streams t !! i) as [sl|] eqn:E; [|apply steady_refl].
  destruct (MonitorStream.run _ _ _) as [st|] eqn:R; cbn.
  - split; [reflexivity|]. split; [reflexivity|]. split; [|reflexivity]. apply (slots_move_insert _ i sl); [exact E|].
    split; [reflexivity|]. exists (map (fun e => (onplay sl, e)) es). split; [|rewrite srun_run; exact R].
    apply Forall_map. cbn. apply Forall_and. split; [exact HP|]. destruct Hi as [Hi|Hi].
    + apply Forall_true. intros e O. apply bool_decide_eq_true in O. lia.
    + eapply Forall_impl; [exact Hi|]. intros e He _. exact He.
  - intros [F _]. rewrite Forall_forall in F. assert (Hin : sl ∈ streams t) by (apply list_elem_of_lookup; eauto).
    destruct (run_fit (slot_cfg sl) es _ (F sl Hin)) as (st & R' & _). congruence.
Qed.

Lemma steady_tell es s t : steady s t -> Forall P es -> steadyO s (tell es t).
Proof.
  intros H HP. unfold tell, current. destruct (streams t) as [|sl ss] eqn:E.
  - unfold tell_slot. rewrite E. exact H.
  - apply steady_tell_slot; [exact H|exact HP|]. left. rewrite E. reflexivity.
Qed.

Lemma steady_onplay b s t : steady s t -> steady s (set_onplay b t).
Proof.
  intros H. apply (steady_trans s t _ H). split; [reflexivity|]. split; [reflexivity|]. split; [|reflexivity].
  change (streams (set_onplay b t)) with (alter (fun sl => sl <| onplay := b |>) (current t) (streams t)).
  split; [apply length_alter|]. intros i sl E. destruct (decide (current t = i)) as [<-|N].
  - exists (sl <| onplay := b |>). split; [rewrite list_lookup_alter_eq, E; reflexivity|]. apply slot_moved_same; reflexivity.
  - exists sl. split; [rewrite list_lookup_alter_ne by exact N; exact E|]. apply slot_moved_same; reflexivity.
Qed.

(** The events the page's own handlers tell its streams: the calls that start
    nothing, and the start. *)
Definition calm_event (e : MonitorStream.event) : bool :=
  match e with
  | MonitorStream.SetPlayer _ _ | MonitorStream.SetChannel _ | MonitorStream.SetActive _
  | MonitorStream.Stop | MonitorStream.Kill | MonitorStream.Pause | MonitorStream.Play | MonitorStream.Send _
  | MonitorStream.Alarm _ | MonitorStream.Analyse _ | MonitorStream.MaxFPS _ | MonitorStream.Scaled _ _ _
  | MonitorStream.NewAuth _ => true
  | _ => false
  end.
Definition page_event (e : MonitorStream.event) : bool :=
  match e with MonitorStream.Start _ _ => true | _ => calm_event e end.
Lemma page_calm e : calm_event e = true -> page_event e = true.
Proof. destruct e; auto. Qed.
Hypothesis P_calm : forall e, calm_event e = true -> P e.
Hypothesis P_start : forall r c, P (MonitorStream.Start r c).

Ltac told := repeat (constructor; [first [apply P_calm; reflexivity|apply P_start]|]); constructor.
Ltac same H := exact (steady_same _ _ _ H eq_refl).

Lemma steady_start v s t : steady s t -> steadyO s (start_stream v t).
Proof. intros H. apply steady_tell; [exact H|told]. Qed.

Lemma steady_scale v s t : steady s t -> steadyO s (monitorsSetScale v t).
Proof. intros H. unfold monitorsSetScale. destruct (monitorStream t); [|exact H]. apply steady_tell; [exact H|told]. Qed.

Lemma kept_setButtonState id cls s : kept (setButtonState id cls s) = kept s.
Proof. unfold setButtonState. destruct (buttons s !! id); reflexivity. Qed.
Lemma kept_setButtonStateWatch id cls s : kept (setButtonStateWatch id cls s) = kept s.
Proof. unfold setButtonStateWatch. destruct (buttons s !! id); reflexivity. Qed.
Lemma kept_replay a b c d s : kept (replay_buttons a b c d s) = kept s.
Proof.
  unfold replay_buttons. destruct (monitorStreamReplayBuffer _); [|reflexivity].
  etransitivity; [apply kept_setButtonState|]. etransitivity; [apply kept_setButtonState|]. etransitivity; apply kept_setButtonState.
Qed.
Lemma kept_onPause s : kept (onPause s) = kept s.
Proof.
  unfold onPause. cbv zeta. etransitivity; [apply kept_replay|]. etransitivity; [apply kept_setButtonState|].
  etransitivity; [apply kept_setButtonStateWatch|]. apply kept_setButtonStateWatch.
Qed.
Lemma kept_onPlay s : kept (onPlay s) = kept s.
Proof.
  unfold onPlay. cbv zeta.
  destruct (ask _ _ _); (etransitivity; [apply kept_replay|]; etransitivity; [apply kept_setButtonStateWatch|];
    etransitivity; apply kept_setButtonStateWatch).
Qed.
Lemma kept_moving s : kept (moving s) = kept s.
Proof. unfold moving. etransitivity; [apply kept_setButtonState|]. etransitivity; apply kept_setButtonState. Qed.

Lemma steady_kept s t u : kept u = kept t -> steady s t -> steady s u.
Proof. intros E H. exact (steady_same s t u H E). Qed.

Lemma steady_controls s t : steady s t -> steady s (updatePlayerControls_stop t).
Proof.
  intros H. unfold updatePlayerControls_stop. cbv zeta. eapply steady_kept.
  { etransitivity; [apply kept_setButtonStateWatch|]. etransitivity; [apply kept_setButtonStateWatch|].
    etransitivity; [apply kept_setButtonStateWatch|]. apply kept_replay. }
  apply steady_onplay, H.
Qed.

Lemma steady_pause b s t : steady s t -> steadyO s (streamCmdPause b t).
Proof.
  intros H. unfold streamCmdPause. cbv zeta. assert (Hu : steady s (onPause t)) by (eapply steady_kept; [apply kept_onPause|exact H]).
  destruct b; [apply steady_tell; [exact Hu|told]|exact Hu].
Qed.

Lemma steady_play v b s t : steady s t -> steadyO s (streamCmdPlay v b t).
Proof.
  intros H. unfold streamCmdPlay. destruct (_ && _); [same H|]. cbv zeta.
  assert (Hu : steady s (onPlay t)) by (eapply steady_kept; [apply kept_onPlay|exact H]).
  destruct b; [|exact Hu]. apply steadyO_bind; [apply steady_tell; [exact Hu|told]|]. intros u Kt.
  destruct (ask _ _ _); [apply steady_tell; [exact Kt|told]|apply steady_start, Kt].
Qed.

Lemma steady_stop s t : steady s t -> steadyO s (streamCmdStop t).
Proof.
  intros H. apply steadyO_map; [apply steady_tell; [exact H|told]|]. intros u Hu. apply steady_controls, Hu.
Qed.

Lemma steady_send b c s t : steady s t -> steadyO s (send b c t).
Proof. intros H. unfold send. destruct b; [apply steady_tell; [exact H|told]|exact H]. Qed.

Lemma steady_replayed a b c d s t : steady s t -> steady s (replay_buttons a b c d (moving t)).
Proof. intros H. eapply steady_kept; [etransitivity; [apply kept_replay|apply kept_moving]|exact H]. Qed.

(** The four commands of the replay. *)
Lemma steady_replay (x : bool) s t : steady s t ->
  steadyO s (streamCmdFastFwd x t) /\ steadyO s (streamCmdFastRev x t) /\
  steadyO s (streamCmdSlowFwd x t) /\ steadyO s (streamCmdSlowRev x t).
Proof.
  intros H. split; [apply steady_send, steady_replayed, H|]. split; [apply steady_send, steady_replayed, H|].
  split; (apply steadyO_bind; [apply steady_send, steady_replayed, H|]; intros u Hu; cbv zeta; apply steadyO_some;
    destruct (monitorStreamReplayBuffer _); repeat (eapply steady_kept; [apply kept_setButtonState|]); exact Hu).
Qed.

Lemma steady_alarms v s t : steady s t -> steadyO s (click_alarm v t) /\ steadyO s (click_force v t).
Proof.
  intros H. split; (apply steady_tell; [exact H|]); (induction (alarm_clicks t) as [|n IH]; [constructor|]);
    (constructor; [apply P_calm; reflexivity|exact IH]).
Qed.

Lemma steady_analyse s t : steady s t -> steadyO s (toggleAnalyseFrames t).
Proof. intros H. unfold toggleAnalyseFrames. cbv zeta. apply steady_tell; [same H|told]. Qed.

Lemma steady_zoom b s t : steady s t -> steadyO s (zoomOutClick b t).
Proof. intros H. unfold zoomOutClick. destruct b; apply steady_tell; solve [exact H|told]. Qed.

Lemma steady_cycleToggle v s t : steady s t -> steadyO s (cycleToggle v t).
Proof. intros H. unfold cycleToggle. cbv zeta. apply steady_scale. same H. Qed.

Section Config.
Variable cfg : config.

Lemma steady_ptzToggle v s t : steady s t -> steadyO s (ptzToggle cfg v t).
Proof. intros H. unfold ptzToggle. destruct (ptz_disabled t); [exact H|]. cbv zeta. apply steady_scale. same H. Qed.

Lemma steady_channel s t : steady s t -> steadyO s (setChannelStream cfg t).
Proof.
  intros H. unfold setChannelStream. cbv zeta. set (u := manageChannelStream cfg t).
  assert (Hu : steady s u) by (exact H). clearbody u.
  destruct (has _ _); [exact Hu|]. apply steady_tell; [same Hu|told].
Qed.
End Config.

Lemma steady_share s t : steady s t -> steadyO s (share t).
Proof.
  intros H. unfold share. assert (G : forall l, steadyO s (foldr (fun i r => s ← r; tell_slot i [MonitorStream.NewAuth (relay s)] s) (Some t) l)).
  { induction l as [|i l IH]; cbn [foldr]; [exact H|]. apply steadyO_bind; [exact IH|]. intros u Hu.
    apply steady_tell_slot; [exact Hu|told|right; repeat constructor]. }
  apply G.
Qed.

Lemma steady_call s r e : steadyO s r -> steadyO s (page_call r e).
Proof.
  intros H. unfold page_call. apply steadyO_bind; [exact H|]. intros t Ht.
  destruct (steady_replay false s t Ht) as (? & ? & ? & ?).
  destruct e; try exact Ht. match goal with p : MonitorStream.page_call |- _ => destruct p end; try assumption.
  - eapply steady_kept; [apply kept_onPause|exact Ht].
  - eapply steady_kept; [apply kept_onPlay|exact Ht].
Qed.

Lemma steady_own i e s t : steady s t -> P e -> MonitorStream.sets_active e = false -> steadyO s (own i e t).
Proof.
  intros H HP HA. unfold own. destruct (streams t !! i) as [sl|]; [|exact H].
  apply steadyO_bind; [apply steady_tell_slot; [exact H|repeat constructor; exact HP|right; repeat constructor; exact HA]|].
  intros u Hu. destruct (streams u !! i) as [sl'|]; [|exact Hu]. apply steadyO_bind.
  - generalize (List.skipn (length (MonitorStream.out (s_stream sl))) (MonitorStream.out (s_stream sl'))). intros l.
    assert (Hr : steadyO s (Some u)) by exact Hu. revert Hr. generalize (Some u). induction l as [|x l IH]; intros r Hr; cbn [fold_left]; [exact Hr|].
    apply IH, steady_call, Hr.
  - intros w Hw. cbv zeta. destruct (String.eqb _ _); [exact Hw|]. apply steady_share. same Hw.
Qed.

(** ** Through every handler *)

(** The timers of which the page keeps no handle. *)
Definition plain (tm : timer) : bool := match tm with TCycle | THide | TIdle => false | _ => true end.

(** What happens to a stream of itself, and nothing the page does to it. *)
Definition of_itself (e : MonitorStream.event) : bool :=
  match e with
  | MonitorStream.PlayerError _ | MonitorStream.Go2rtcError _ | MonitorStream.JanusReady | MonitorStream.MseStopped
  | MonitorStream.Fire _ _ _ | MonitorStream.ElementError | MonitorStream.ElementLoad | MonitorStream.Reply_ _ _ _ _
  | MonitorStream.AuthDone _ _ _ | MonitorStream.AuthFail _ _ => true
  | _ => false
  end.

Lemma of_itself_inactive e : of_itself e = true -> MonitorStream.sets_active e = false.
Proof. destruct e; (reflexivity || discriminate). Qed.

Definition legal (e : event) : Prop :=
  match e with Own _ e => of_itself e = true /\ P e | _ => True end.

Section Walk.
Variable cfg : config.
Variable K : page -> Prop.
(** What follows where a call does not return. *)
Variable B : Prop.

Definition post (o : option page) : Prop := match o with Some t => K t | None => B end.

Hypothesis K_bad : forall s, K s -> ~ sound s -> B.
Hypothesis K_steady : forall s t, K s -> steady s t -> K t.
Hypothesis K_same : forall s t, K s -> base t = base s -> K t.
Hypothesis K_pause : forall s, K s -> K (cyclePause s).
Hypothesis K_start : forall s, K s -> K (cycleStart s).
Hypothesis K_timer : forall s tm, K s -> plain tm = true -> K (add_timer tm s).
Hypothesis K_gone : forall s h, K s -> timers s !! h <> Some TCycle -> K (s <| timers := delete h (timers s) |>).
Hypothesis K_clear_hide : forall s, K s -> K (clear_hide s).
Hypothesis K_hide : forall s, K s -> K (hide_page s).
Hypothesis K_reset : forall s, K s -> K (resetTimer s).
Hypothesis K_next : forall v s, K s -> post (cycleNext cfg v s).
Hypothesis K_prev : forall v s, K s -> post (cyclePrev cfg v s).
Hypothesis K_link : forall v k s, K s -> post (click_link cfg v k s).

Lemma walk s o : K s -> steadyO s o -> post o.
Proof. intros H. destruct o as [t|]; cbn; [apply K_steady, H|apply K_bad, H]. Qed.

Lemma post_bind o (f : page -> option page) : post o -> (forall t, K t -> post (f t)) -> post (o ≫= f).
Proof. destruct o as [t|]; cbn; auto. Qed.
Lemma post_map o (f : page -> page) : post o -> (forall t, K t -> K (f t)) -> post (option_map f o).
Proof. destruct o as [t|]; cbn; auto. Qed.


Ltac aside := match goal with H : K ?s |- K _ => refine (K_same s _ H _); reflexivity end.
Ltac walks L := match goal with H : K ?s |- post _ => apply (walk s _ H); apply L, steady_refl end.

Lemma K_stop s : K s -> K (cycleStop s).
Proof. intros H. apply K_pause. aside. Qed.

Lemma post_nextCycle v s : K s -> post (nextCycleView cfg v s).
Proof.
  intros H. unfold nextCycleView. cbv zeta. set (u := if ready v then _ else s).
  assert (Hu : K u) by (unfold u; destruct (ready v); [aside|exact H]). clearbody u. apply post_bind.
  - destruct (_ || _); [apply K_next|]; exact Hu.
  - intros t Ht. (refine (K_same t _ Ht _); reflexivity).
Qed.

Lemma post_stopPage v s : K s -> post (stopPage v s).
Proof.
  intros H. unfold stopPage. cbv zeta. apply K_clear_hide in H. set (a := clear_hide s) in *. clearbody a.
  set (b := a <| prevStateCycle := _ |>). assert (Hb : K b) by aside. clearbody b. clear H.
  set (c := if cycle b then _ else b). assert (Hc : K c) by (unfold c; destruct (cycle b); [apply K_stop|]; exact Hb).
  clearbody c. clear Hb b. destruct (monitorStream c) as [sl|]; [|exact Hc].
  destruct (MonitorStream.started _); [|cbn; aside]. destruct (paused _ _); [cbn; aside|].
  apply (walk c _ Hc). apply steady_tell; [|told]. exact (steady_same _ _ _ (steady_refl c) eq_refl).
Qed.

Lemma post_start_now v s : K s -> post (start_now v s).
Proof.
  intros H. unfold start_now. apply post_bind.
  - destruct (_ && _).
    + apply post_bind.
      * apply (walk s _ H). apply steady_tell; [|told]. eapply steady_kept; [apply kept_onPlay|].
        exact (steady_same _ _ _ (steady_refl s) eq_refl).
      * intros t Ht. apply post_bind; [walks steady_start|]. intros u Hu. walks steady_scale.
    + destruct (ask _ _ _); [cbn; aside|exact H].
  - intros t Ht. cbn. destruct (prevStateCycle t) as [[]|]; [|exact Ht..]. apply K_start. aside.
Qed.

Lemma post_auth v r s : K s -> post (with_auth v r s).
Proof.
  intros H. unfold with_auth. assert (Hr : post (Some (s <| auth := r.1 |>))) by (cbn; aside). revert Hr.
  generalize (Some (s <| auth := r.1 |>)). induction r.2 as [|fx l IH]; intros o Ho; cbn [fold_left]; [exact Ho|]. apply IH.
  unfold run_effect. apply post_bind; [exact Ho|]. intros t Ht. cbv zeta. set (u := emit _ t). assert (Hu : K u) by aside. clearbody u.
  destruct fx; [exact Hu|exact Hu| |apply post_start_now, Hu]. clear H Ht.
  set (w := u <| relay := _ |>). assert (Hw : K w) by aside. clearbody w. clear Hu. walks steady_share.
Qed.

Lemma post_startPage v s : K s -> post (startPage cfg v s).
Proof. intros H. unfold startPage. cbv zeta. apply post_auth, K_clear_hide, H. Qed.

Lemma post_idle s : K s -> post (stopPlayback s).
Proof.
  intros H. unfold stopPlayback. apply post_bind.
  { set (a := s <| idleTimeoutTriggered := true |>). assert (Ha : K a) by aside. clearbody a. clear H. walks steady_stop. }
  intros t Ht. cbv zeta. apply K_pause in Ht. set (u := cyclePause t) in *. clearbody u. cbn.
  destruct (dialog u); (refine (K_same u _ Ht _); reflexivity).
Qed.

Lemma post_closed v s : K s -> post (dialog_closed v s).
Proof.
  intros H. unfold dialog_closed. destruct (dialog s) as [c|]; [|exact H]. destruct (dialog_shown s); [|exact H]. apply post_bind.
  - set (a := s <| dialog_shown := false |> <| idleTimeoutTriggered := false |>). assert (Ha : K a) by aside.
    clearbody a. clear H. walks steady_play.
  - intros t Ht. cbn. destruct c; [apply K_start|]; exact Ht.
Qed.

Lemma post_channel value s : K s -> post (monitorChangeStreamChannel value s).
Proof.
  intros H. unfold monitorChangeStreamChannel. destruct (enabled _ _); [|exact H]. apply post_bind.
  { apply (walk s _ H). apply steady_tell; [exact (steady_same _ _ _ (steady_refl s) eq_refl)|told]. }
  intros t Ht. cbv zeta. set (u := emit _ _). assert (Hu : K u) by (refine (K_same t _ Ht _); reflexivity). clearbody u. clear H Ht.
  destruct (_ && _); [|exact Hu]. apply post_map; [walks steady_stop|]. intros w Hw. apply K_timer; [exact Hw|reflexivity].
Qed.

Lemma post_player value s : K s -> post (changePlayer cfg value s).
Proof.
  intros H. unfold changePlayer. destruct (enabled _ _); [|exact H]. cbv zeta. set (u := emit _ _).
  assert (Hu : K u) by (refine (K_same s _ H _); reflexivity). clearbody u. clear H. apply post_bind; [walks steady_stop|].
  intros t Ht. apply post_bind; [apply (walk t _ Ht); apply steady_tell; [apply steady_refl|told]|].
  intros w Hw. apply post_map; [walks steady_channel|]. intros x Hx. apply K_timer; [exact Hx|reflexivity].
Qed.

Lemma post_dvr v b s : K s -> post (click_dvr v b s).
Proof.
  intros H. unfold click_dvr. destruct (buttons s !! dvr_id b) as [[cls []]|]; [exact H| |exact H].
  apply post_map; [|exact K_pause]. apply (walk s _ H).
  destruct (steady_replay true s s (steady_refl s)) as (? & ? & ? & ?).
  destruct b; cbn [dvr_command]; try assumption; [apply steady_pause|apply steady_play|apply steady_stop]; apply steady_refl.
Qed.

Lemma post_placed v h s : K s -> timers s !! h <> Some TCycle -> post (placed v h s).
Proof.
  intros H Hh. unfold placed. destruct (offsetHeight v); [|exact H]. destruct (_ <? _); [|exact H].
  pose proof (K_gone s h H Hh) as Hg. set (u := s <| timers := _ |>) in *. clearbody u. clear H Hh. walks steady_scale.
Qed.

Lemma post_fire v h s : K s -> post (fire cfg v h s).
Proof.
  intros H. unfold fire. cbv zeta. destruct (timers s !! h) as [tm|] eqn:T; [|exact H].
  assert (Ho : tm <> TCycle -> K (s <| timers := delete h (timers s) |>)) by (intros N; apply K_gone; [exact H|congruence]).
  set (u := s <| timers := delete h (timers s) |>) in *. clearbody u. destruct tm.
  - apply post_nextCycle, H.
  - apply post_stopPage, Ho. discriminate.
  - destruct (hidden u); [|apply post_startPage]; apply Ho; discriminate.
  - apply post_idle, Ho. discriminate.
  - apply post_placed; [exact H|congruence].
  - destruct (updateScale s); [|exact H]. apply post_map; [clear Ho; walks steady_scale|]. intros t Ht. (refine (K_same t _ Ht _); reflexivity).
  - assert (Hu : K u) by (apply Ho; discriminate). clear H Ho. apply post_bind; [walks steady_play|]. intros t Ht. walks steady_scale.
  - assert (Hu : K u) by (apply Ho; discriminate). clear H Ho.
    apply post_bind; [apply (walk u _ Hu); apply steady_tell; [apply steady_refl|told]|]. intros t Ht.
    apply (walk t _ Ht), steady_scale. eapply steady_kept; [apply kept_onPlay|apply steady_refl].
Qed.

Lemma post_step v s e : K s -> legal e -> post (step cfg v s e).
Proof.
  intros H L. destruct e; cbn [step].
  - apply post_fire, H.
  - destruct hidden0.
    + cbn. apply K_hide. aside.
    + apply post_startPage. aside.
  - apply post_stopPage, H.
  - cbn. apply K_timer; [exact H|reflexivity].
  - apply post_stopPage, H.
  - cbn. apply K_timer; [exact H|reflexivity].
  - cbn. destruct (viewing_timeout cfg); [apply K_reset|]; exact H.
  - unfold dialog_done. destruct (dialog_asked s) as [|c asked]; [exact H|]. cbv zeta. change (dialog (s <| dialog_asked := asked |>)) with (dialog s).
    destruct (dialog s); (refine (K_same s _ H _); reflexivity).
  - cbn. aside.
  - apply post_closed, H.
  - destruct (Auth.authRevalidating _); [apply post_auth|]; exact H.
  - destruct (Auth.authRevalidating _); [apply post_auth|]; exact H.
  - apply K_start, H.
  - apply K_pause, H.
  - apply K_next, H.
  - apply K_prev, H.
  - cbn. unfold cyclePeriodChange. aside.
  - apply K_link, H.
  - apply post_dvr, H.
  - apply post_map; [walks steady_zoom|exact K_pause].
  - apply post_channel, H.
  - apply post_player, H.
  - unfold changeScale. apply (walk s _ H), steady_scale. exact (steady_same _ _ _ (steady_refl s) eq_refl).
  - unfold changeStreamQuality. apply (walk s _ H), steady_scale. exact (steady_same _ _ _ (steady_refl s) eq_refl).
  - unfold changeRate. apply post_map; [apply (walk s _ H); apply steady_tell; [apply steady_refl|told]|]. intros t Ht. (refine (K_same t _ Ht _); reflexivity).
  - walks steady_analyse.
  - apply (walk s _ H), steady_alarms, steady_refl.
  - apply (walk s _ H), steady_alarms, steady_refl.
  - walks steady_cycleToggle.
  - walks steady_ptzToggle.
  - cbn. aside.
  - destruct L as [L1 L2]. apply (walk s _ H), steady_own; [apply steady_refl|exact L2|apply of_itself_inactive, L1].
Qed.

Lemma post_run es : forall s, K s -> Forall (fun e => legal e.2) es -> post (run cfg s es).
Proof.
  induction es as [|[v e] es IH]; intros s H F; cbn; [exact H|]. apply Forall_cons in F as [Fe F].
  pose proof (post_step v s e H Fe) as Hs. destruct (step cfg v s e) as [t|]; [apply IH; [exact Hs|exact F]|exact Hs].
Qed.
End Walk.
End Steady.

(** ** The page's timers *)

(** The variable that has the handle of a timer. *)
Definition owner (tm : timer) (s : page) : option nat :=
  match tm with TCycle => cycleIntervalId s | THide => TimerHideShow s | TIdle => time s | _ => None end.

(** A timer of these kinds is the one its variable knows; a handle that is out of
    date is nobody else's. *)
Record owned (s : page) : Prop := {
  o_fresh : forall h, (next s <= h)%nat -> timers s !! h = None;
  o_owned : forall tm h, plain tm = false -> timers s !! h = Some tm -> owner tm s = Some h;
  o_handle : forall tm h, owner tm s = Some h -> (h < next s)%nat /\ forall tm', timers s !! h = Some tm' -> tm' = tm;
}.

(** Nothing of that kind is under way. *)
Definition none_of (tm : timer) (s : page) : Prop := forall h, timers s !! h <> Some tm.

Lemma owned_same s t : owned s -> clock t = clock s -> owned t.
Proof.
  intros [F O H] E. assert (Et : timers t = timers s) by exact (f_equal (fun x => x.1.1.1.2) E).
  assert (En : next t = next s) by exact (f_equal (fun x => x.1.1.2) E).
  assert (Eo : forall tm, owner tm t = owner tm s).
  { intros []; cbn; [exact (f_equal (fun x => x.1.1.1.1.2) E)|exact (f_equal (fun x => x.1.2) E)|reflexivity
    |exact (f_equal snd E)|reflexivity..]. }
  split; intros *; rewrite ?Et, ?En, ?Eo; [apply F|apply O|apply H].
Qed.

Lemma owned_delete s h : owned s -> owned (s <| timers := delete h (timers s) |>).
Proof.
  intros [F O H]. split; intros *.
  - intros Hn. change (delete h (timers s) !! h0 = None). apply lookup_delete_None. right. exact (F h0 Hn).
  - intros Hp Ht. change (delete h (timers s) !! h0 = Some tm) in Ht. apply lookup_delete_Some in Ht as [_ Ht]. exact (O tm h0 Hp Ht).
  - intros Ho. destruct (H tm h0 Ho) as [Hn Hu]. split; [exact Hn|]. intros tm' Ht.
    change (delete h (timers s) !! h0 = Some tm') in Ht. apply lookup_delete_Some in Ht as [_ Ht]. exact (Hu tm' Ht).
Qed.

Lemma owned_drop s tm : owned s -> plain tm = false ->
  owned (s <| timers := drop (owner tm s) (timers s) |>) /\ none_of tm (s <| timers := drop (owner tm s) (timers s) |>).
Proof.
  intros O Hp. destruct (owner tm s) as [h|] eqn:E; cbn [drop].
  - split; [apply owned_delete, O|]. intros h' Ht. change (delete h (timers s) !! h' = Some tm) in Ht.
    apply lookup_delete_Some in Ht as [N Ht]. apply (o_owned s O tm h' Hp) in Ht. congruence.
  - assert (N : none_of tm s) by (intros h Ht; apply (o_owned s O tm h Hp) in Ht; congruence). split; [|exact N].
    (refine (owned_same s _ O _); reflexivity).
Qed.

(** A timer of a kind of which there is none, with its variable. *)
Lemma owned_set s t tm : owned s -> none_of tm s ->
  timers t = <[next s := tm]> (timers s) -> next t = S (next s) ->
  (forall k, k <> tm -> plain k = false -> owner k t = owner k s) -> (plain tm = false -> owner tm t = Some (next s)) -> owned t.
Proof.
  intros [F O H] N Et En Eo Eh. split; intros *.
  - rewrite En, Et. intros Hn. rewrite lookup_insert_ne by lia. apply F. lia.
  - rewrite Et. intros Hp Ht. destruct (decide (next s = h)) as [<-|Nh].
    + rewrite lookup_insert_eq in Ht. injection Ht as <-. apply Eh, Hp.
    + rewrite lookup_insert_ne in Ht by exact Nh. destruct (decide (tm0 = tm)) as [->|Nk]; [destruct (N h Ht)|].
      rewrite (Eo tm0 Nk Hp). exact (O tm0 h Hp Ht).
  - rewrite En, Et. intros Ho.
    assert (Hp : plain tm0 = false) by (destruct tm0; (reflexivity || discriminate Ho)).
    destruct (decide (tm0 = tm)) as [->|Nk].
    + rewrite (Eh Hp) in Ho. injection Ho as <-. split; [lia|]. intros tm'. rewrite lookup_insert_eq. congruence.
    + rewrite (Eo tm0 Nk Hp) in Ho. destruct (H tm0 h Ho) as [Hn Hu]. split; [lia|]. intros tm'.
      rewrite lookup_insert_ne by lia. apply Hu.
Qed.

Lemma owned_add s tm : owned s -> plain tm = true -> owned (add_timer tm s).
Proof.
  intros [F O H] Hp. split; intros *.
  - intros Hn. change (S (next s) <= h)%nat in Hn. change (<[next s := tm]> (timers s) !! h = None). rewrite lookup_insert_ne by lia. apply F. lia.
  - intros Hk Ht. change (<[next s := tm]> (timers s) !! h = Some tm0) in Ht.
    destruct (decide (next s = h)) as [<-|Nh]; [rewrite lookup_insert_eq in Ht; congruence|].
    rewrite lookup_insert_ne in Ht by exact Nh. exact (O tm0 h Hk Ht).
  - intros Ho. destruct (H tm0 h Ho) as [Hn Hu]. split; [change (h < S (next s))%nat; lia|]. intros tm' Ht.
    change (<[next s := tm]> (timers s) !! h = Some tm') in Ht. rewrite lookup_insert_ne in Ht by lia. exact (Hu tm' Ht).
Qed.

(** The interval of the cycle is there when the cycle is on, and only then. *)
Definition cycling (s : page) : Prop :=
  if cycle s then exists h, cycleIntervalId s = Some h /\ timers s !! h = Some TCycle else none_of TCycle s.

Definition ticking (s : page) : Prop := owned s /\ cycling s.

Lemma ticking_same s t : ticking s -> clock t = clock s -> ticking t.
Proof.
  intros [O C] E. split; [exact (owned_same s t O E)|]. unfold cycling, none_of in *.
  assert (Et : timers t = timers s) by exact (f_equal (fun x => x.1.1.1.2) E).
  assert (Ec : cycle t = cycle s) by exact (f_equal (fun x => x.1.1.1.1.1) E).
  assert (Ei : cycleIntervalId t = cycleIntervalId s) by exact (f_equal (fun x => x.1.1.1.1.2) E).
  rewrite Ec, Ei, Et. exact C.
Qed.

Lemma cycling_off s : cycle s = false -> none_of TCycle s -> cycling s.
Proof. unfold cycling. intros ->. auto. Qed.

Lemma clear_cycle_owned s : owned s -> owned (clear_cycle s) /\ none_of TCycle (clear_cycle s).
Proof. intros O. exact (owned_drop s TCycle O eq_refl). Qed.

Lemma pause_ticking s : owned s -> ticking (cyclePause s).
Proof.
  intros O. destruct (clear_cycle_owned s O) as [O' N]. unfold cyclePause. set (u := clear_cycle s) in *. clearbody u.
  split; [|apply cycling_off; [reflexivity|exact N]].
  split; [apply (o_fresh u O')|apply (o_owned u O')|apply (o_handle u O')].
Qed.

Lemma start_ticking s : owned s -> ticking (cycleStart s).
Proof.
  intros O. destruct (clear_cycle_owned s O) as [O' N]. unfold cycleStart. cbv zeta. set (u := clear_cycle s) in *. clearbody u.
  set (w := if secondsToCycle u =? 0 then _ else u). assert (Ew : clock w = clock u) by (unfold w; destruct (_ =? _); reflexivity).
  assert (Nw : none_of TCycle w) by (unfold none_of; replace (timers w) with (timers u) by (unfold w; destruct (_ =? _); reflexivity); exact N).
  apply (owned_same u w) in O'; [|exact Ew]. clearbody w. clear N Ew u. split.
  - apply (owned_set w _ TCycle O' Nw); [reflexivity|reflexivity| |reflexivity].
    intros k Nk Hk. destruct k; (reflexivity || discriminate Hk || congruence).
  - cbn. exists (next w). split; [reflexivity|]. apply lookup_insert_eq.
Qed.

(** A change of the timers that leaves the cycle's interval as it is. *)
Lemma cycling_timers s t : cycling s -> cycle t = cycle s -> cycleIntervalId t = cycleIntervalId s ->
  (forall h, timers t !! h = Some TCycle <-> timers s !! h = Some TCycle) -> cycling t.
Proof.
  unfold cycling, none_of. intros C -> Ei E. rewrite Ei. destruct (cycle s).
  - destruct C as (h & C1 & C2). exists h. split; [exact C1|]. apply E, C2.
  - intros h Ht. apply E in Ht. exact (C h Ht).
Qed.

Lemma gone_ticking s h : ticking s -> timers s !! h <> Some TCycle -> ticking (s <| timers := delete h (timers s) |>).
Proof.
  intros [O C] N. split; [apply owned_delete, O|]. apply (cycling_timers s); [exact C|reflexivity..|]. intros h'.
  change (delete h (timers s) !! h' = Some TCycle <-> timers s !! h' = Some TCycle). rewrite lookup_delete_Some. split; [tauto|].
  intros Ht. split; [congruence|exact Ht].
Qed.

(** The handle of another kind of timer is not the cycle's. *)
Lemma owner_not_cycle s tm h : owned s -> tm <> TCycle -> owner tm s = Some h -> timers s !! h <> Some TCycle.
Proof. intros O N Ho Ht. destruct (o_handle s O tm h Ho) as [_ Hu]. specialize (Hu _ Ht). congruence. Qed.

Lemma drop_ticking s tm : ticking s -> plain tm = false -> tm <> TCycle -> ticking (s <| timers := drop (owner tm s) (timers s) |>).
Proof.
  intros T Hp N. destruct (owner tm s) as [h|] eqn:E; cbn [drop].
  - apply gone_ticking; [exact T|]. exact (owner_not_cycle s tm h (proj1 T) N E).
  - (refine (ticking_same s _ T _); reflexivity).
Qed.

Lemma add_cycling s tm t : cycling s -> owned s -> tm <> TCycle -> timers t = <[next s := tm]> (timers s) ->
  cycle t = cycle s -> cycleIntervalId t = cycleIntervalId s -> cycling t.
Proof.
  intros C O N Et Ec Ei. apply (cycling_timers s); [exact C|exact Ec|exact Ei|]. intros h. rewrite Et.
  destruct (decide (next s = h)) as [<-|Nh]; [|rewrite lookup_insert_ne by exact Nh; reflexivity].
  rewrite lookup_insert_eq, (o_fresh s O (next s)) by lia. split; [congruence|discriminate].
Qed.

Lemma timer_ticking s tm : ticking s -> plain tm = true -> ticking (add_timer tm s).
Proof.
  intros [O C] Hp. split; [apply owned_add; assumption|]. apply (add_cycling s tm); [exact C|exact O| |reflexivity..].
  intros ->. discriminate Hp.
Qed.

(** One of the timers of a variable, set anew. *)
Lemma renew_ticking s tm t : ticking s -> plain tm = false -> tm <> TCycle ->
  let u := s <| timers := drop (owner tm s) (timers s) |> in
  timers t = <[next u := tm]> (timers u) -> next t = S (next u) -> cycle t = cycle u -> cycleIntervalId t = cycleIntervalId u ->
  (forall k, k <> tm -> plain k = false -> owner k t = owner k u) -> owner tm t = Some (next u) -> ticking t.
Proof.
  intros T Hp N u Et En Ec Ei Eo Eh. destruct (owned_drop s tm (proj1 T) Hp) as [O' Nu].
  destruct (drop_ticking s tm T Hp N) as [_ C']. fold u in O', Nu, C'. clearbody u. split.
  - apply (owned_set u t tm O' Nu Et En Eo). intros _. exact Eh.
  - exact (add_cycling u tm t C' O' N Et Ec Ei).
Qed.

Lemma hide_ticking s : ticking s -> ticking (hide_page s).
Proof.
  intros T. apply (renew_ticking s THide _ T); [reflexivity|discriminate|reflexivity..| |reflexivity].
  intros k Nk Hk. destruct k; (reflexivity || discriminate Hk || congruence).
Qed.

Lemma reset_ticking s : ticking s -> ticking (resetTimer s).
Proof.
  intros T. apply (renew_ticking s TIdle _ T); [reflexivity|discriminate|reflexivity..| |reflexivity].
  intros k Nk Hk. destruct k; (reflexivity || discriminate Hk || congruence).
Qed.

Lemma clear_hide_ticking s : ticking s -> ticking (clear_hide s).
Proof.
  intros T. destruct (owned_drop s THide (proj1 T) eq_refl) as [O' N].
  pose proof (drop_ticking s THide T eq_refl ltac:(discriminate)) as [_ C']. unfold clear_hide.
  change (TimerHideShow s) with (owner THide s). set (u := s <| timers := drop (owner THide s) (timers s) |>) in *. clearbody u. split.
  - split; [apply (o_fresh u O')| |].
    + intros tm h Hp Ht. pose proof (o_owned u O' tm h Hp Ht) as Ho. destruct tm; try exact Ho. destruct (N h Ht).
    + intros tm h Ho. apply (o_handle u O'). destruct tm; (exact Ho || discriminate Ho).
  - exact (cycling_timers u _ C' eq_refl eq_refl (fun h => iff_refl _)).
Qed.

(** ** A change of monitor *)

(** A stream that the page has just made. *)
Definition born (m : monitor) (st : MonitorStream.state) : Prop :=
  exists rl value, st = MonitorStream.setPlayer value value (MonitorStream.create (m_connKey m) (DefaultPlayer m) (m_src m) rl).

Lemma born_fit m st : born m st -> listed_player (DefaultPlayer m) = true -> fit st.
Proof.
  intros (rl & value & ->) L. set (c := MonitorStream.create _ _ _ _).
  assert (Fc : fit c) by (split; [apply MonitorStream.good_create|exact L]). clearbody c.
  destruct (run_fit (m_cfg m) [MonitorStream.SetPlayer value value] c Fc) as (st' & [= <-] & F). exact F.
Qed.

Lemma clock_add tm s t : clock t = clock s -> clock (add_timer tm t) = clock (add_timer tm s).
Proof.
  unfold clock. intros [= E1 E2 E3 E4 E5 E6].
  change ((cycle t, cycleIntervalId t, <[next t := tm]> (timers t), S (next t), TimerHideShow t, time t) =
    (cycle s, cycleIntervalId s, <[next s := tm]> (timers s), S (next s), TimerHideShow s, time s)). congruence.
Qed.

Lemma new_stream_spec s : exists st, born (currentMonitor s) st /\
  streams (new_stream s) = (streams s ++ [Slot (currentMonitor s) false st])%list /\
  core (new_stream s) = core s /\ clock (new_stream s) = clock s /\ tally (new_stream s) = tally s.
Proof.
  unfold new_stream. cbv zeta. unfold MonitorStream.manageAvailablePlayers. cbv zeta.
  set (sel := match player s with Some _ => _ | None => None end). set (opts := map _ (players s)).
  eexists. split; [|repeat split]. eexists _, _. reflexivity.
Qed.

Section Change.
Variable cfg : config.
Variable P : MonitorStream.event -> Prop.
Hypothesis P_page : forall e, page_event e = true -> P e.

#[local] Definition calm e (H : calm_event e = true) : P e := P_page e (page_calm e H).
#[local] Definition start r c : P (MonitorStream.Start r c) := P_page (MonitorStream.Start r c) eq_refl.

(** The streams of [s] after the page has gone on to [m]: the last is given up,
    and a new one made, and then the others are left in peace. *)
Definition handed_over (s : page) (m : monitor) (ss : list slot) : Prop :=
  exists s1 st, tell [MonitorStream.SetActive false; MonitorStream.Kill] s = Some s1 /\ born m st /\
    slots_move P (streams s1 ++ [Slot m false st]) ss.

Lemma prepare_spec v s :
  match streamPrepareStart cfg v s with
  | Some t =>
      core t = core s /\ clock t = clock (add_timer TPlaced s) /\ tally t = tally s /\
      exists st, born (currentMonitor s) st /\ slots_move P (streams s ++ [Slot (currentMonitor s) false st]) (streams t)
  | None => ~ sound s
  end.
Proof.
  destruct (new_stream_spec s) as (st & Hb & Es & Ec & Ek & Et). unfold streamPrepareStart, streamStart.
  set (u := new_stream s) in *. clearbody u.
  assert (H : steadyO P u (s ← (s ← setChannelStream cfg u; s ← streamCmdPlay v true s; let s := set_onplay true s in
     Some (if canEdit_Monitors cfg then s <| alarm_clicks := S (alarm_clicks s) |> else s)); Some (setButtonStateWatch "stopBtn" "active" s))).
  { apply steadyO_bind; [apply steadyO_bind; [apply steady_channel; [exact calm|apply steady_refl]|]|].
    - intros t Ht. apply steadyO_bind; [apply steady_play; [exact calm|exact start|exact Ht]|]. intros w Hw. cbv zeta. apply steadyO_some.
      apply (steady_onplay P true) in Hw. destruct (canEdit_Monitors cfg); [|exact Hw]. refine (steady_same P _ _ _ Hw _). reflexivity.
    - intros t Ht. apply steadyO_some. eapply steady_kept; [apply kept_setButtonStateWatch|exact Ht]. }
  set (o := s ← setChannelStream cfg u; _) in *. destruct o as [t|]; cbn in H |- *.
  - assert (K : kept (setButtonStateWatch "stopBtn" "active" (add_timer TPlaced t)) = kept (add_timer TPlaced t)) by apply kept_setButtonStateWatch.
    assert (K' : kept (setButtonStateWatch "stopBtn" "active" t) = kept t) by apply kept_setButtonStateWatch.
    apply (steady_kept P u _ t (eq_sym K')) in H. destruct H as (C & Kt & M & Ta). clear K'.
    split; [etransitivity; [exact (f_equal (fun x => x.1.1.2) K)|]; etransitivity; [|exact Ec]; exact C|].
    split; [etransitivity; [exact (f_equal (fun x => x.1.2) K)|]; apply clock_add; congruence|]. split.
    + etransitivity; [exact (f_equal snd K)|]. etransitivity; [|exact Et]. exact Ta.
    + exists st. split; [exact Hb|]. rewrite Es in M.
      assert (Eq : streams (setButtonStateWatch "stopBtn" "active" (add_timer TPlaced t)) = streams t) by exact (f_equal (fun x => x.1.1.1) K).
      rewrite Eq. exact M.
  - intros [F L]. apply H. split.
    + rewrite Es. apply Forall_app. split; [exact F|]. apply Forall_singleton. exact (born_fit _ _ Hb L).
    + assert (currentMonitor u = currentMonitor s) as -> by exact (f_equal (fun x => x.1.2) Ec). exact L.
Qed.

Lemma restart_spec v oldId newId s m : find_monitor cfg newId = Some m ->
  match streamReStart cfg v oldId newId s with
  | Some t =>
      core t = (monIdx s, newId, m, {[newId]} ∪ (nav_active s ∖ {[oldId]})) /\ clock t = clock (add_timer TPlaced s) /\
      tally t = tally s /\ handed_over s m (streams t)
  | None => ~ (sound s /\ listed_player (DefaultPlayer m) = true)
  end.
Proof.
  intros Hm. unfold streamReStart. rewrite Hm. cbv zeta. set (a := emit _ _).
  assert (Es : streams a = streams s) by reflexivity.
  pose proof (steady_tell P [MonitorStream.SetActive false; MonitorStream.Kill] a a (steady_refl P a)
    ltac:(repeat (constructor; [apply P_page; reflexivity|]); constructor)) as H.
  assert (Ta : tell [MonitorStream.SetActive false; MonitorStream.Kill] a =
    option_map (fun t => a <| streams := streams t |>) (tell [MonitorStream.SetActive false; MonitorStream.Kill] s)).
  { unfold tell, tell_slot, current. rewrite Es. destruct (streams s !! _) as [sl|]; [|reflexivity].
    destruct (MonitorStream.run _ _ _); reflexivity. }
  rewrite Ta in H |- *. unfold handed_over.
  destruct (tell [MonitorStream.SetActive false; MonitorStream.Kill] s) as [s1|] eqn:T; cbn [option_map mbind option_bind] in H |- *.
  - set (b := applyMonitorControllable _ _ _).
    assert (Kb : kept b = (streams s1, (monIdx s, newId, m, {[newId]} ∪ (nav_active s ∖ {[oldId]})), clock s, tally s)).
    { unfold b, applyMonitorControllable. destruct (monitorControllable _); reflexivity. }
    assert (Sb : sound s /\ listed_player (DefaultPlayer m) = true -> sound b).
    { intros [[F _] L]. assert (Sa : sound a) by (split; [exact F|exact L]).
      apply (steady_sound P a _ H) in Sa. destruct Sa as [Fa _]. split.
      - assert (streams b = streams s1) as -> by exact (f_equal (fun x => x.1.1.1) Kb). exact Fa.
      - assert (currentMonitor b = m) as -> by exact (f_equal (fun x => x.1.1.2.1.2) Kb). exact L. }
    pose proof (prepare_spec v b) as Hp.
    assert (E1 : streams b = streams s1) by exact (f_equal (fun x => x.1.1.1) Kb).
    assert (E2 : core b = (monIdx s, newId, m, {[newId]} ∪ (nav_active s ∖ {[oldId]}))) by exact (f_equal (fun x => x.1.1.2) Kb).
    assert (E3 : currentMonitor b = m) by exact (f_equal (fun x => x.1.1.2.1.2) Kb).
    assert (E4 : clock (add_timer TPlaced b) = clock (add_timer TPlaced s)).
    { apply clock_add. exact (f_equal (fun x => x.1.2) Kb). }
    assert (E5 : tally b = tally s) by exact (f_equal snd Kb).
    rewrite E1, E2, E3, E4, E5 in Hp. clearbody b. destruct (streamPrepareStart cfg v b) as [t|].
    + destruct Hp as (C & Kc & Tl & st & Hb & M). split; [exact C|]. split; [exact Kc|]. split; [exact Tl|]. exists s1, st. auto.
    + intros Hs. exact (Hp (Sb Hs)).
  - intros [[F _] L]. apply H. split; [exact F|exact L].
Qed.
End Change.

Lemma slots_move_inv P ss ss' i sl' : slots_move P ss ss' -> ss' !! i = Some sl' ->
  exists sl, ss !! i = Some sl /\ moved P (bool_decide (S i < length ss)%nat) sl sl'.
Proof.
  intros [L M] E. assert (Hi : (i < length ss)%nat) by (rewrite <- L; apply lookup_lt_Some in E; exact E).
  apply lookup_lt_is_Some in Hi as [sl Es]. exists sl. split; [exact Es|]. destruct (M i sl Es) as (x & Ex & Mx). congruence.
Qed.

Lemma moved_retired P sl sl' : moved P true sl sl' -> MonitorStream.retired (s_stream sl) -> MonitorStream.retired (s_stream sl').
Proof.
  intros (_ & es & F & R) D. eapply srun_retired; [exact D| |exact R]. eapply Forall_impl; [exact F|]. intros e [_ H]. apply H, eq_refl.
Qed.

(** All the streams but the one shown are given up. *)
Definition others_retired (ss : list slot) : Prop :=
  forall i sl, ss !! i = Some sl -> (S i < length ss)%nat -> MonitorStream.retired (s_stream sl).

Lemma others_move P ss ss' : slots_move P ss ss' -> others_retired ss -> others_retired ss'.
Proof.
  intros M H i sl' E Hi. destruct (slots_move_inv P ss ss' i sl' M E) as (sl & Es & Mv). rewrite (proj1 M) in Hi.
  rewrite (bool_decide_true _ Hi) in Mv. exact (moved_retired P sl sl' Mv (H i sl Es Hi)).
Qed.

Lemma last_move P ss ss' : slots_move P ss ss' -> option_map s_mon (last ss') = option_map s_mon (last ss).
Proof.
  intros M. rewrite !last_lookup. rewrite (proj1 M). destruct (ss !! Nat.pred (length ss)) as [sl|] eqn:E.
  - destruct (proj2 M _ sl E) as (sl' & -> & Mon & _). cbn. rewrite Mon. reflexivity.
  - destruct (ss' !! Nat.pred (length ss)) as [sl'|] eqn:E'; [|reflexivity].
    destruct (slots_move_inv P ss ss' _ sl' M E') as (sl & Es & _). congruence.
Qed.

(** The stream that is told to is given up. *)
Lemma given_up s s1 : tell [MonitorStream.SetActive false; MonitorStream.Kill] s = Some s1 -> others_retired (streams s) ->
  length (streams s1) = length (streams s) /\ forall i sl, streams s1 !! i = Some sl -> MonitorStream.retired (s_stream sl).
Proof.
  intros T H. unfold tell, tell_slot in T. destruct (streams s !! current s) as [sl|] eqn:E.
  - destruct (MonitorStream.run _ _ _) as [st|] eqn:R; [|discriminate]. injection T as <-.
    change (streams (s <| streams := <[current s := sl <| s_stream := st |>]> (streams s) |>))
      with (<[current s := sl <| s_stream := st |>]> (streams s)). split; [apply length_insert|]. intros i x Ex.
    apply list_lookup_insert_Some in Ex as [(<- & <- & _)|[N Ex]].
    + exact (MonitorStream.retired_by _ MonitorStream.Kill _ _ (or_introl eq_refl) R).
    + apply (H i x Ex). apply lookup_lt_Some in Ex. unfold current in N. lia.
  - injection T as <-. split; [reflexivity|]. intros i x Ex. unfold current in E. apply lookup_ge_None in E.
    apply lookup_lt_Some in Ex. lia.
Qed.

Section View.
Variable cfg : config.
Variable P : MonitorStream.event -> Prop.
Hypothesis P_page : forall e, page_event e = true -> P e.
Hypothesis unique : NoDup (map m_id (monitorData cfg)).

Definition all_listed : Prop := Forall (fun m => listed_player (DefaultPlayer m) = true) (monitorData cfg).

(** The monitor shown is that of the index, of its link and of the last stream. *)
Record shown (s : page) : Prop := {
  s_at : data_at cfg (monIdx s) = Some (currentMonitor s);
  s_id : m_id (currentMonitor s) = monitorId s;
  s_nav : nav_active s = {[monitorId s]};
  s_last : option_map s_mon (monitorStream s) = Some (currentMonitor s);
  s_rest : others_retired (streams s);
  s_sound : all_listed -> sound s;
}.

Lemma data_at_in i m : data_at cfg i = Some m -> m ∈ monitorData cfg.
Proof. unfold data_at. destruct (i <? 0); [discriminate|]. intros E. apply list_elem_of_lookup. eauto. Qed.

Lemma find_unique m : m ∈ monitorData cfg -> find_monitor cfg (m_id m) = Some m.
Proof.
  unfold find_monitor. revert unique. induction (monitorData cfg) as [|x xs IH]; intros U Hin; [apply elem_of_nil in Hin as []|].
  cbn in U |- *. apply NoDup_cons in U as [Nx U]. apply elem_of_cons in Hin as [->|Hin]; [rewrite Z.eqb_refl; reflexivity|].
  destruct (m_id x =? m_id m) eqn:E; [|exact (IH U Hin)]. apply Z.eqb_eq in E. destruct Nx. rewrite E. apply list_elem_of_fmap_2, Hin.
Qed.

Lemma shown_steady s t : shown s -> steady P s t -> shown t.
Proof.
  intros [A I N La R S] St. pose proof St as (C & _ & M & _). unfold core in C. injection C as E1 E2 E3 E4.
  split; rewrite ?E1, ?E2, ?E3, ?E4; try assumption.
  - unfold monitorStream. rewrite (last_move P _ _ M). exact La.
  - exact (others_move P _ _ M R).
  - intros H. exact (steady_sound P s t St (S H)).
Qed.

Lemma shown_same s t : shown s -> streams t = streams s -> core t = core s -> shown t.
Proof.
  intros [A I N La R S] E C. unfold core in C. injection C as E1 E2 E3 E4.
  split; unfold monitorStream, sound in *; rewrite ?E, ?E1, ?E2, ?E3, ?E4; assumption.
Qed.

(** The page goes on to the monitor at [i]. *)
Lemma shown_restart v i s u m : shown s -> data_at cfg i = Some m ->
  streams u = streams s -> nav_active u = nav_active s -> currentMonitor u = currentMonitor s -> monIdx u = i ->
  match streamReStart cfg v (monitorId s) (m_id m) u with
  | Some t => shown t /\ clock t = clock (add_timer TPlaced u) /\ tally t = tally u /\ handed_over P u m (streams t)
  | None => ~ all_listed
  end.
Proof.
  intros [A I N La R S] Hi Es En Em Ei. pose proof (restart_spec cfg P P_page v (monitorId s) (m_id m) u m (find_unique m (data_at_in i m Hi))) as H.
  destruct (streamReStart cfg v _ _ u) as [t|].
  - destruct H as (C & Kc & Ta & H). unfold core in C. rewrite Ei, En, N in C. injection C as E1 E2 E3 E4.
    split; [|split; [exact Kc|split; [exact Ta|exact H]]]. pose proof H as (s1 & st & T & Hb & M).
    destruct (given_up u s1 T) as [L D]; [rewrite Es; exact R|]. split.
    + rewrite E1, E3. exact Hi.
    + rewrite E2, E3. reflexivity.
    + rewrite E4, E2, difference_diag_L, union_empty_r_L. reflexivity.
    + unfold monitorStream. rewrite (last_move P _ _ M), last_app, E3. reflexivity.
    + apply (others_move P _ _ M). intros j sl Ej Hj. rewrite length_app in Hj. cbn in Hj.
      rewrite lookup_app_l in Ej by lia. exact (D j sl Ej).
    + intros Hl. assert (Lm : listed_player (DefaultPlayer m) = true)
        by (unfold all_listed in Hl; rewrite Forall_forall in Hl; apply Hl, (data_at_in i m Hi)).
      destruct (S Hl) as [F _]. rewrite <- Es in F.
      pose proof (steady_tell P [MonitorStream.SetActive false; MonitorStream.Kill] u u (steady_refl P u)
        ltac:(repeat (constructor; [apply P_page; reflexivity|]); constructor)) as St. rewrite T in St. cbn in St.
      destruct St as (_ & _ & M1 & _). split; [|rewrite E3; exact Lm]. apply Forall_forall. intros sl' Hin.
      apply list_elem_of_lookup in Hin as [j Ej]. destruct (slots_move_inv P _ _ j sl' M Ej) as (sl & Esl & _ & es & _ & Rn).
      eapply srun_fit; [|exact Rn]. apply lookup_app_Some in Esl as [Esl|[_ Esl]].
      * destruct (slots_move_inv P _ _ j sl M1 Esl) as (sl0 & E0 & _ & es0 & _ & R0). eapply srun_fit; [|exact R0].
        rewrite Forall_forall in F. apply F, list_elem_of_lookup. eauto.
      * apply list_lookup_singleton_Some in Esl as [_ <-]. exact (born_fit m st Hb Lm).
  - intros Hl. apply H. destruct (S Hl) as [F Lc]. split; [split; [rewrite Es; exact F|rewrite Em; exact Lc]|].
    unfold all_listed in Hl. rewrite Forall_forall in Hl. apply Hl, (data_at_in i m Hi).
Qed.

Definition view_ok (s : page) : Prop := shown s /\ ticking s.

(** Going on to a monitor of the list, from a page of the cycle. *)
Lemma go_ok v i m s : view_ok s -> data_at cfg i = Some m -> post view_ok (~ all_listed) (go_to cfg v i s).
Proof.
  intros [Sh [O C]] Hi. unfold go_to. destruct (clear_cycle_owned s O) as [Oc Nc]. set (a := clear_cycle s) in *. cbv zeta.
  change (monIdx a) with (monIdx s). rewrite (s_at s Sh), Hi, (s_id s Sh).
  set (b := a <| monIdx := i |>).
  pose proof (shown_restart v i s b m Sh Hi eq_refl eq_refl eq_refl eq_refl) as H.
  destruct (streamReStart _ _ _ _ _) as [t|]; [|exact H]. destruct H as (St & Kt & _ & _). cbn.
  assert (Ot : owned t).
  { apply (owned_same (add_timer TPlaced a)); [apply owned_add; [exact Oc|reflexivity]|]. exact Kt. }
  destruct (cycle t) eqn:Ec.
  - split; [|apply start_ticking, Ot]. refine (shown_same t _ St _ _); unfold cycleStart; cbv zeta; destruct (_ =? _); reflexivity.
  - split; [exact St|]. split; [exact Ot|]. apply cycling_off; [exact Ec|]. unfold none_of.
    assert (timers t = <[next a := TPlaced]> (timers a)) as -> by exact (f_equal (fun x => x.1.1.1.2) Kt).
    intros h. destruct (decide (next a = h)) as [<-|N]; [rewrite lookup_insert_eq; discriminate|].
    rewrite lookup_insert_ne by exact N. apply Nc.
Qed.

Lemma at_range i m : data_at cfg i = Some m -> 0 <= i < count cfg.
Proof.
  unfold data_at, count. destruct (Z.ltb_spec i 0); [discriminate|]. intros E. apply lookup_lt_Some in E. lia.
Qed.
Lemma range_at i : 0 <= i < count cfg -> exists m, data_at cfg i = Some m.
Proof.
  unfold data_at, count. intros H. destruct (Z.ltb_spec i 0); [lia|]. apply lookup_lt_is_Some. lia.
Qed.

Lemma next_range s : shown s -> 0 <= (monIdx s + 1) mod count cfg < count cfg.
Proof. intros Sh. pose proof (at_range _ _ (s_at s Sh)). apply Z.mod_pos_bound. lia. Qed.
Lemma prev_range s : shown s -> 0 <= (if monIdx s <=? 0 then count cfg - 1 else monIdx s - 1) < count cfg.
Proof. intros Sh. pose proof (at_range _ _ (s_at s Sh)). destruct (Z.leb_spec (monIdx s) 0); lia. Qed.

Lemma next_ok v s : view_ok s -> post view_ok (~ all_listed) (cycleNext cfg v s).
Proof. intros H. destruct (range_at _ (next_range s (proj1 H))) as [m Hm]. exact (go_ok v _ m s H Hm). Qed.
Lemma prev_ok v s : view_ok s -> post view_ok (~ all_listed) (cyclePrev cfg v s).
Proof. intros H. destruct (range_at _ (prev_range s (proj1 H))) as [m Hm]. exact (go_ok v _ m s H Hm). Qed.

Lemma link_ok v k s : view_ok s -> post view_ok (~ all_listed) (click_link cfg v k s).
Proof.
  intros [Sh T]. unfold click_link. destruct (monitorData cfg !! k) as [m|] eqn:Ek; [|split; assumption].
  destruct (monitorStream s) as [sl|] eqn:Es; [|split; assumption].
  assert (Hm : data_at cfg (Z.of_nat k) = Some m).
  { unfold data_at. destruct (Z.ltb_spec (Z.of_nat k) 0); [lia|]. rewrite Nat2Z.id. exact Ek. }
  pose proof (s_last s Sh) as La. rewrite Es in La. injection La as La. rewrite La, (s_id s Sh).
  pose proof (pause_ticking (s <| secondsToCycle := 0 |> <| seconds_text := "" |>)) as Tp.
  change (cyclePause (s <| secondsToCycle := 0 |> <| seconds_text := "" |>)) with (cycleStop s) in Tp.
  assert (To : ticking (cycleStop s)) by (apply Tp; refine (owned_same s _ (proj1 T) _); reflexivity). clear Tp.
  set (u := cycleStop s <| monIdx := Z.of_nat k |>).
  pose proof (shown_restart v (Z.of_nat k) s u m Sh Hm eq_refl eq_refl eq_refl eq_refl) as H.
  destruct (streamReStart _ _ _ _ _) as [t|]; [|exact H]. destruct H as (St & Kt & _ & _). split; [exact St|].
  apply (ticking_same (add_timer TPlaced (cycleStop s))); [apply timer_ticking; [exact To|reflexivity]|]. exact Kt.
Qed.

Lemma view_steady s t : view_ok s -> steady P s t -> view_ok t.
Proof. intros [Sh T] St. split; [exact (shown_steady s t Sh St)|]. exact (ticking_same s t T (proj1 (proj2 St))). Qed.

Lemma view_clock s t : view_ok s -> streams t = streams s -> core t = core s -> ticking t -> view_ok t.
Proof. intros [Sh _] E C T. split; [exact (shown_same s t Sh E C)|exact T]. Qed.

Lemma view_ok_run es s : view_ok s -> Forall (fun e => legal P e.2) es -> post view_ok (~ all_listed) (run cfg s es).
Proof.
  intros H F. apply (post_run P (fun e H => P_page e (page_calm e H)) (fun r c => P_page (MonitorStream.Start r c) eq_refl) cfg); try assumption; clear s H es F.
  - intros s [Sh _] N L. exact (N (s_sound s Sh L)).
  - exact view_steady.
  - intros s t H E. apply (view_clock s); [exact H|exact (f_equal (fun x => x.1.1) E)|exact (f_equal (fun x => x.1.2) E)|].
    exact (ticking_same s t (proj2 H) (f_equal snd E)).
  - intros s H. apply (view_clock s); [exact H|reflexivity|reflexivity|]; apply pause_ticking, (proj2 H).
  - intros s H. assert (E : streams (cycleStart s) = streams s /\ core (cycleStart s) = core s)
      by (unfold cycleStart; cbv zeta; destruct (_ =? _); split; reflexivity).
    apply (view_clock s _ H (proj1 E) (proj2 E)), start_ticking, (proj2 H).
  - intros s tm H Hp. apply (view_clock s); [exact H|reflexivity|reflexivity|]; apply timer_ticking; [apply H|exact Hp].
  - intros s h H N. apply (view_clock s); [exact H|reflexivity|reflexivity|]; apply gone_ticking; [apply H|exact N].
  - intros s H. apply (view_clock s); [exact H|reflexivity|reflexivity|]; apply clear_hide_ticking, H.
  - intros s H. apply (view_clock s); [exact H|reflexivity|reflexivity|]; apply hide_ticking, H.
  - intros s H. apply (view_clock s); [exact H|reflexivity|reflexivity|]; apply reset_ticking, H.
  - exact next_ok.
  - exact prev_ok.
  - exact link_ok.
Qed.

Lemma view_ok_init v r : match monitorData cfg !! r_index r with
  | Some _ => post view_ok (~ all_listed) (initPage cfg v r)
  | None => initPage cfg v r = None
  end.
Proof.
  unfold initPage. destruct (monitorData cfg !! r_index r) as [m|] eqn:Em; [|reflexivity]. cbv zeta.
  set (s0 := Page _ _ _ _ _ _ _ _ _ _ _ _ _ _ _ _ _ _ _ _ _ _ _ _ _ _ _ _ _ _ _ _ _ _ _ _ _ _ _ _).
  assert (C0 : (streams s0, core s0) = ([], (Z.of_nat (r_index r), m_id m, m, {[m_id m]}))) by reflexivity.
  assert (O0 : owned s0).
  { split; intros *; [reflexivity|cbn; rewrite lookup_empty; discriminate|destruct tm; discriminate]. }
  clearbody s0. set (s1 := if _ && cycle s0 then cycleStart s0 else cyclePause s0).
  assert (H1 : ticking s1 /\ (streams s1, core s1) = (streams s0, core s0)).
  { unfold s1. destruct (_ && _); (split; [first [apply start_ticking|apply pause_ticking]; exact O0|]); [|reflexivity].
    unfold cycleStart. cbv zeta. destruct (_ =? _); reflexivity. }
  clearbody s1. destruct H1 as [T1 C1]. set (s2 := if viewing_timeout cfg then resetTimer s1 else s1).
  assert (H2 : ticking s2 /\ (streams s2, core s2) = (streams s1, core s1))
    by (unfold s2; destruct (viewing_timeout cfg); split; [apply reset_ticking, T1|reflexivity|exact T1|reflexivity]).
  clearbody s2. destruct H2 as [T2 C2]. set (s3 := applyMonitorControllable _ _ _).
  assert (H3 : ticking s3 /\ (streams s3, core s3) = (streams s2, core s2)).
  { split; [|unfold s3, applyMonitorControllable; destruct (monitorControllable _); reflexivity].
    apply (ticking_same (add_timer TScale s2)); [apply timer_ticking; [exact T2|reflexivity]|].
    unfold s3, applyMonitorControllable; destruct (monitorControllable _); reflexivity. }
  clearbody s3. destruct H3 as [T3 C3]. rewrite C2, C1, C0 in C3. injection C3 as E0 E1 E2 E3 E4. clear - P_page unique Em T3 E0 E1 E2 E3 E4.
  assert (Ha : data_at cfg (Z.of_nat (r_index r)) = Some m).
  { unfold data_at. destruct (Z.ltb_spec (Z.of_nat (r_index r)) 0); [lia|]. rewrite Nat2Z.id. exact Em. }
  pose proof (prepare_spec cfg P P_page v s3) as H. destruct (streamPrepareStart cfg v s3) as [t|].
  - destruct H as (C & Kt & _ & st & Hb & M). rewrite E0, E3 in M. unfold core in C. injection C as F1 F2 F3 F4. split.
    + split.
      * rewrite F1, F3, E1, E3. exact Ha.
      * rewrite F2, F3, E2, E3. reflexivity.
      * rewrite F4, F2, E4, E2. reflexivity.
      * unfold monitorStream. rewrite (last_move P _ _ M), F3, E3. reflexivity.
      * apply (others_move P _ _ M). intros [|j] sl Ej Hj; cbn in Hj; lia.
      * intros L. assert (Lm : listed_player (DefaultPlayer m) = true)
          by (unfold all_listed in L; rewrite Forall_forall in L; apply L, (data_at_in _ _ Ha)).
        split; [|rewrite F3, E3; exact Lm]. apply Forall_forall. intros sl' Hin. apply list_elem_of_lookup in Hin as [j Ej].
        destruct (slots_move_inv P _ _ j sl' M Ej) as (sl & Esl & _ & es & _ & Rn). eapply srun_fit; [|exact Rn].
        apply list_lookup_singleton_Some in Esl as [_ <-]. rewrite E3 in Hb. exact (born_fit m st Hb Lm).
    + exact (ticking_same (add_timer TPlaced s3) t (timer_ticking s3 TPlaced T3 eq_refl) Kt).
  - intros L. apply H. split; [rewrite E0; constructor|]. rewrite E3. unfold all_listed in L. rewrite Forall_forall in L.
    apply L, (data_at_in _ _ Ha).
Qed.

(** Only the streams matter to a call on them. *)
Lemma tell_streams es s u s1 : tell es s = Some s1 -> streams u = streams s ->
  exists u1, tell es u = Some u1 /\ streams u1 = streams s1.
Proof.
  unfold tell, tell_slot, current. intros T E. rewrite E. destruct (streams s !! _) as [sl|]; [|injection T as <-; eauto].
  destruct (MonitorStream.run _ _ _) as [st|]; [|discriminate]. injection T as <-. eexists. split; [reflexivity|]. reflexivity.
Qed.

(** What going on to the monitor at [i] leaves. *)
Record gone_on (s : page) (i : Z) (m : monitor) (t : page) : Prop := {
  g_view : view_ok t;
  g_at : monIdx t = i; g_monitor : currentMonitor t = m;
  g_streams : handed_over P s m (streams t);
  g_cycle : cycle t = cycle s;
  g_seconds : secondsToCycle t = if cycle s && (secondsToCycle s =? 0) then cyclePeriod s else secondsToCycle s;
  g_period : cyclePeriod t = cyclePeriod s;
}.

Lemma go_spec v i m s : view_ok s -> data_at cfg i = Some m -> all_listed -> exists t, go_to cfg v i s = Some t /\ gone_on s i m t.
Proof.
  intros H Hi L. pose proof (go_ok v i m s H Hi) as Ho. destruct (go_to cfg v i s) as [t|] eqn:G; [|destruct (Ho L)].
  exists t. split; [reflexivity|]. destruct H as [Sh [O C]]. unfold go_to in G. cbv zeta in G.
  set (a := clear_cycle s) in *. change (monIdx a) with (monIdx s) in G. rewrite (s_at s Sh), Hi, (s_id s Sh) in G.
  set (b := a <| monIdx := i |>) in *.
  pose proof (shown_restart v i s b m Sh Hi eq_refl eq_refl eq_refl eq_refl) as R.
  pose proof (restart_spec cfg P P_page v (monitorId s) (m_id m) b m (find_unique m (data_at_in i m Hi))) as R'.
  destruct (streamReStart _ _ _ _ _) as [u|]; [|destruct (R L)]. cbn in G. destruct R as (_ & Kt & Ta & s1 & st & T & Hb & M).
  destruct R' as (Cu & _). assert (Eb : tally b = tally s /\ cycle b = cycle s /\ streams b = streams s /\ monIdx b = i) by (repeat split).
  clearbody b. clear a. destruct Eb as (Eb1 & Eb2 & Eb3 & Eb4). rewrite Eb1 in Ta.
  assert (Ec : cycle u = cycle s) by (rewrite <- Eb2; exact (f_equal (fun x => x.1.1.1.1.1) Kt)).
  destruct (tell_streams _ b s s1 T (eq_sym Eb3)) as (s1' & T' & E1). rewrite <- E1 in M.
  assert (Et : core t = core u /\ streams t = streams u /\ cycle t = cycle u /\ cyclePeriod t = cyclePeriod u /\
    secondsToCycle t = if cycle u && (secondsToCycle u =? 0) then cyclePeriod u else secondsToCycle u).
  { destruct (cycle u) eqn:Eu; injection G as <-; [|repeat split; exact Eu]. unfold cycleStart. cbv zeta.
    change (secondsToCycle (clear_cycle u)) with (secondsToCycle u). destruct (_ =? _); repeat split. }
  destruct Et as (F1 & F2 & F3 & F4 & F5). rewrite Ec in F3, F5. unfold tally in Ta. injection Ta as E2 E3 _ _ _ _.
  rewrite E2, E3 in F5. split; [exact Ho|..]; try assumption.
  - assert (monIdx t = monIdx u) as -> by exact (f_equal (fun x => x.1.1.1) F1). rewrite <- Eb4. exact (f_equal (fun x => x.1.1.1) Cu).
  - assert (currentMonitor t = currentMonitor u) as -> by exact (f_equal (fun x => x.1.2) F1). exact (f_equal (fun x => x.1.2) Cu).
  - rewrite F2. exists s1', st. auto.
  - congruence.
Qed.

Lemma handed_over_length s m ss : streams s <> [] -> handed_over P s m ss -> length ss = S (length (streams s)).
Proof.
  intros N (s1 & st & T & _ & M). rewrite (proj1 M), length_app. cbn. unfold tell, tell_slot in T.
  destruct (streams s !! current s) as [sl|]; [|injection T as <-; lia]. destruct (MonitorStream.run _ _ _); [|discriminate].
  injection T as <-. change (length (<[current s := sl <| s_stream := s0 |>]> (streams s)) + 1 = S (length (streams s)))%nat.
  rewrite length_insert. lia.
Qed.
End View.

(** ** The ledger *)

(** A stream that has kept account of its zms processes since it was made. *)
Definition accounted (sl : slot) : Prop := exists st, born (s_mon sl) st /\ MonitorStream.keeps st (s_stream sl).

Lemma born_out m st : born m st -> MonitorStream.out st = [] /\ MonitorStream.connKey st = m_connKey m.
Proof.
  intros (rl & value & ->). unfold MonitorStream.setPlayer. destruct (has _ _); [split; reflexivity|].
  destruct (has _ _); [|split; reflexivity]. unfold MonitorStream.setRTSP2WebType. repeat case_match; split; reflexivity.
Qed.

Lemma born_good m st : born m st -> MonitorStream.good st.
Proof.
  intros (rl & value & ->). set (c := MonitorStream.create _ _ _ _). assert (G : MonitorStream.good c) by apply MonitorStream.good_create.
  clearbody c. exact (proj1 (MonitorStream.step_good (m_cfg m) c (MonitorStream.SetPlayer value value) _ G eq_refl)).
Qed.

Definition not_reconnected (e : MonitorStream.event) : Prop := MonitorStream.is_auth_done e = false.

Lemma moved_accounted old sl sl' : moved not_reconnected old sl sl' -> accounted sl -> accounted sl'.
Proof.
  intros (Mon & es & F & R) (st & Hb & K). exists st. rewrite Mon. split; [exact Hb|].
  eapply MonitorStream.keeps_trans; [exact K|]. apply (srun_keeps _ _ _ _ (MonitorStream.k_good _ _ K)) with (2 := R).
  eapply Forall_impl; [exact F|]. intros e [H _]. exact H.
Qed.

Lemma move_accounted ss ss' : slots_move not_reconnected ss ss' -> Forall accounted ss -> Forall accounted ss'.
Proof.
  intros M F. apply Forall_forall. intros sl' Hin. apply list_elem_of_lookup in Hin as [i Ei].
  destruct (slots_move_inv _ _ _ i sl' M Ei) as (sl & Es & Mv). apply (moved_accounted _ _ _ Mv).
  rewrite Forall_forall in F. apply F, list_elem_of_lookup. eauto.
Qed.

Lemma page_not_reconnected e : page_event e = true -> not_reconnected e.
Proof. unfold not_reconnected. destruct e; (reflexivity || discriminate). Qed.

Definition books (s : page) : Prop := Forall accounted (streams s).

Lemma new_accounted m st : born m st -> accounted (Slot m false st).
Proof. intros Hb. exists st. split; [exact Hb|]. apply MonitorStream.keeps_refl, (born_good m st Hb). Qed.

Lemma books_prepare cfg v s : books s -> post books True (streamPrepareStart cfg v s).
Proof.
  intros H. pose proof (prepare_spec cfg not_reconnected page_not_reconnected v s) as Hp.
  destruct (streamPrepareStart cfg v s) as [t|]; [|exact I]. destruct Hp as (_ & _ & _ & st & Hb & M).
  apply (move_accounted _ _ M). apply Forall_app. split; [exact H|]. apply Forall_singleton, new_accounted, Hb.
Qed.

Lemma books_restart cfg v a b s : books s -> post books True (streamReStart cfg v a b s).
Proof.
  intros H. destruct (find_monitor cfg b) as [m|] eqn:F.
  - pose proof (restart_spec cfg not_reconnected page_not_reconnected v a b s m F) as Hr.
    destruct (streamReStart cfg v a b s) as [t|]; [|exact I]. destruct Hr as (_ & _ & _ & s1 & st & T & Hb & M).
    apply (move_accounted _ _ M). apply Forall_app. split; [|apply Forall_singleton, new_accounted, Hb].
    pose proof (steady_tell not_reconnected [MonitorStream.SetActive false; MonitorStream.Kill] s s (steady_refl _ s)
      ltac:(repeat (constructor; [reflexivity|]); constructor)) as St. rewrite T in St. exact (move_accounted _ _ (proj1 (proj2 (proj2 St))) H).
  - unfold streamReStart. rewrite F. exact H.
Qed.

Lemma books_start s : books s -> books (cycleStart s).
Proof. unfold books, cycleStart. cbv zeta. destruct (_ =? _); auto. Qed.

Lemma books_go cfg v i s : books s -> post books True (go_to cfg v i s).
Proof.
  intros H. unfold go_to. cbv zeta. destruct (data_at cfg (monIdx (clear_cycle s))) as [old|]; [|exact H].
  destruct (data_at cfg i) as [new|]; [|exact H]. set (u := clear_cycle s <| monIdx := i |>).
  assert (Hu : books u) by exact H. clearbody u. apply post_bind; [apply books_restart, Hu|]. intros t Ht. cbn.
  destruct (cycle t); [apply books_start|]; exact Ht.
Qed.

Lemma books_run cfg es s : books s -> Forall (fun e => legal not_reconnected e.2) es -> post books True (run cfg s es).
Proof.
  intros H F. apply (post_run not_reconnected (fun e H => page_not_reconnected e (page_calm e H)) (fun r c => eq_refl) cfg); try assumption; clear s H es F; try (intros; exact I || assumption).
  - intros s t H (_ & _ & M & _). exact (move_accounted _ _ M H).
  - intros s t H E. unfold books. assert (streams t = streams s) as -> by exact (f_equal (fun x => x.1.1) E). exact H.
  - intros s. exact (books_start s).
  - intros v s. apply books_go.
  - intros v s. apply books_go.
  - intros v k s H. unfold click_link. destruct (monitorData cfg !! k); [|exact H]. destruct (monitorStream s); [|exact H].
    apply books_restart. exact H.
Qed.

Lemma books_init cfg v r : post books True (initPage cfg v r).
Proof.
  unfold initPage. destruct (monitorData cfg !! r_index r); [|exact I]. cbv zeta. apply books_prepare.
  set (s0 := Page _ _ _ _ _ _ _ _ _ _ _ _ _ _ _ _ _ _ _ _ _ _ _ _ _ _ _ _ _ _ _ _ _ _ _ _ _ _ _ _).
  assert (H0 : books s0) by constructor. clearbody s0. unfold applyMonitorControllable.
  set (s1 := if _ && cycle s0 then cycleStart s0 else cyclePause s0).
  assert (H1 : books s1) by (unfold s1; destruct (_ && _); [apply books_start|]; exact H0). clearbody s1.
  destruct (viewing_timeout cfg), (monitorControllable _); exact H1.
Qed.
End Watch.
