(* ===== verification/WatchTour.v ===== *)
(** What the live view of WatchPage.v promises.

    - The page shows one monitor, its link and its last stream ([watch_shows]);
      the cycle has one interval, and only while it is on ([one_cycle_interval]);
      a stream the page has gone on from is down for good ([replaced_stay_down]).
    - No zms of any of its streams is lost sight of ([watch_ledger]); every
      handler returns ([watch_total]).
    - Going on and back again shows the same monitor ([next_then_prev]), going on
      as often as there are monitors makes the round ([tour]), and a monitor is
      shown for as many ticks as the period says ([countdown]).
    - A page that was hidden plays on under the zms it had ([hidden_view_resumes]),
      unless it was frozen too ([freeze_forgets]) or never shown
      ([background_tab_stays_stopped]).
    - Behind the dialog of the inactivity timeout nothing plays ([idle_view_rests]),
      but for the cycle of a page that was hidden ([hidden_idle_cycles]).
    - What the handlers leave open: the zms of a stopped stream
      ([stopped_not_quit]), the cycle the dialog remembers ([stale_cycle_was]), the
      buttons bound again ([alarm_sent_twice]), the reconnect of a stream that was
      replaced ([replaced_stream_reconnects]).

    The witnesses run a page with two monitors. *)
From S2P Require Import JsString AuthHelpers EventStream MonitorStream WatchPage WatchView.

Module Tour.
Import WatchPage Watch.
#[local] Existing Instance MonitorStream.eta_state.
#[local] Open Scope string_scope.
#[local] Open Scope Z_scope.

(** ** Runs of the page *)

Definition anything (e : MonitorStream.event) : Prop := True.
Lemma page_anything e : page_event e = true -> anything e.
Proof. intros _. exact I. Qed.

(** The events of the streams are such as happen to a stream of itself. *)
Definition natural (e : view * event) : Prop := match e.2 with Own _ e => of_itself e = true | _ => True end.
Definition naturalb (e : view * event) : bool := match e.2 with Own _ e => of_itself e | _ => true end.

Lemma natural_legal es : Forall natural es -> Forall (fun e => legal anything e.2) es.
Proof. intros F. eapply Forall_impl; [exact F|]. intros [v []] H; try exact I. split; [exact H|exact I]. Qed.

Lemma naturalb_spec es : forallb naturalb es = true -> Forall natural es.
Proof.
  intros H. apply Forall_forall. intros e Hin. rewrite forallb_forall in H. apply list_elem_of_In, H in Hin.
  unfold naturalb, natural in *. destruct e.2; try exact I. exact Hin.
Qed.

(** The page after its start and some events. *)
Definition reached (cfg : config) (v : view) (r : request) (es : list (view * event)) : option page :=
  s ← initPage cfg v r; run cfg s es.

Section Reached.
Variable cfg : config.
Hypothesis unique : NoDup (map m_id (monitorData cfg)).

Lemma reached_ok v r es s : Forall natural es -> reached cfg v r es = Some s -> view_ok cfg s.
Proof.
  unfold reached. intros F R. pose proof (view_ok_init cfg anything page_anything v r) as H.
  destruct (monitorData cfg !! r_index r); [|rewrite H in R; discriminate]. destruct (initPage cfg v r) as [s0|]; [|discriminate].
  pose proof (view_ok_run cfg anything page_anything unique es s0 H (natural_legal es F)) as H1. cbn in R. rewrite R in H1. exact H1.
Qed.

Lemma reached_total v r es : (r_index r < length (monitorData cfg))%nat -> all_listed cfg -> Forall natural es ->
  is_Some (reached cfg v r es).
Proof.
  intros Hi L F. unfold reached. pose proof (view_ok_init cfg anything page_anything v r) as H.
  apply lookup_lt_is_Some in Hi as [m Hm]. rewrite Hm in H. destruct (initPage cfg v r) as [s0|]; [|destruct (H L)].
  pose proof (view_ok_run cfg anything page_anything unique es s0 H (natural_legal es F)) as H1. cbn.
  destruct (run cfg s0 es); [eauto|destruct (H1 L)].
Qed.

(** A run may be cut in two. *)
Lemma run_in_two es es' : forall s, run cfg s (es ++ es') = match run cfg s es with Some t => run cfg t es' | None => None end.
Proof.
  induction es as [|[v e] es IH]; intros s; [reflexivity|]. cbn [run app]. destruct (step cfg v s e); [apply IH|reflexivity].
Qed.
End Reached.

(** C8: C: whatever happens, the page shows one monitor: the one of its index in
    monitorData is the current one, its link is the only active one, and the
    stream of the page is that monitor's. *)
Theorem watch_shows (cfg : config) (v : view) (r : request) (es : list (view * event)) (s : page) :
  NoDup (map m_id (monitorData cfg)) -> Forall natural es -> reached cfg v r es = Some s ->
  data_at cfg (monIdx s) = Some (currentMonitor s) /\ m_id (currentMonitor s) = monitorId s /\
  nav_active s = {[monitorId s]} /\ option_map s_mon (monitorStream s) = Some (currentMonitor s).
Proof. intros U F R. destruct (reached_ok cfg U v r es s F R) as [[A I N La _ _] _]. auto. Qed.

(** C9: C: however cyclePause, cycleStart and the handlers that call them follow upon
    each other, there is one interval of the cycle while the cycle is on and none
    while it is off, and its handle is the one cyclePause clears. *)
Theorem one_cycle_interval (cfg : config) (v : view) (r : request) (es : list (view * event)) (s : page) (h : nat) :
  NoDup (map m_id (monitorData cfg)) -> Forall natural es -> reached cfg v r es = Some s ->
  timers s !! h = Some TCycle <-> cycle s = true /\ cycleIntervalId s = Some h.
Proof.
  intros U F R. destruct (reached_ok cfg U v r es s F R) as [_ [O C]]. unfold cycling in C. split.
  - intros T. pose proof (o_owned s O TCycle h eq_refl T) as Ho. destruct (cycle s); [auto|destruct (C h T)].
  - intros [Ec Ei]. rewrite Ec in C. destruct C as (h' & E & T). congruence.
Qed.

(** A stream the page has gone on from is down for good: it plays nothing, is
    not about to, and every restart still under way finds it inactive. *)
Theorem replaced_stay_down (cfg : config) (v : view) (r : request) (es : list (view * event)) (s : page) (i : nat) (sl : slot) :
  NoDup (map m_id (monitorData cfg)) -> Forall natural es -> reached cfg v r es = Some s ->
  streams s !! i = Some sl -> (S i < length (streams s))%nat ->
  MonitorStream.started (s_stream sl) = false /\ MonitorStream.starting (s_stream sl) = false /\
  MonitorStream.isActive (s_stream sl) = false.
Proof.
  intros U F R E Hi. destruct (reached_ok cfg U v r es s F R) as [Sh _]. destruct (s_rest cfg s Sh i sl E Hi) as [[D1 D2] D3]. auto.
Qed.

(** No zms of any stream the page ever made is lost sight of, as long as no
    reconnect of an img is answered: every key a stream was given or opened is the
    one it holds, or its zms was told to quit. *)
Theorem watch_ledger (cfg : config) (v : view) (r : request) (es : list (view * event)) (s : page) (sl : slot) (k : string) :
  Forall (fun e => legal not_reconnected e.2) es -> reached cfg v r es = Some s -> sl ∈ streams s -> k <> "" ->
  m_connKey (s_mon sl) = Some k \/ MonitorStream.opened k (MonitorStream.out (s_stream sl)) ->
  MonitorStream.connKey (s_stream sl) = Some k \/ MonitorStream.told_to_quit k (MonitorStream.out (s_stream sl)).
Proof.
  unfold reached. intros F R Hin Hk Ho. pose proof (books_init cfg v r) as H0. destruct (initPage cfg v r) as [s0|]; [|discriminate].
  pose proof (books_run cfg es s0 H0 F) as H. cbn in R. rewrite R in H. cbn in H. unfold books in H. rewrite Forall_forall in H.
  destruct (H sl Hin) as (st & Hb & [(new & En & Hn) _ _]). destruct (born_out _ st Hb) as [E0 E1].
  rewrite E0 in En. rewrite En in Ho |- *. rewrite E1 in Hn. exact (Hn k Hk Ho).
Qed.

(** Every handler of the page returns, whatever happens, when the monitors'
    default players are among those a stream knows. *)
Theorem watch_total (cfg : config) (v : view) (r : request) (es : list (view * event)) :
  NoDup (map m_id (monitorData cfg)) -> (r_index r < length (monitorData cfg))%nat -> all_listed cfg -> Forall natural es ->
  is_Some (reached cfg v r es).
Proof. intros U. apply reached_total, U. Qed.

(** ** The round of the monitors *)

Section Round.
Variable cfg : config.
Hypothesis unique : NoDup (map m_id (monitorData cfg)).
Hypothesis listed : all_listed cfg.

Lemma next_spec v s : view_ok cfg s ->
  exists m t, data_at cfg ((monIdx s + 1) mod count cfg) = Some m /\ cycleNext cfg v s = Some t /\
    gone_on cfg anything s ((monIdx s + 1) mod count cfg) m t.
Proof.
  intros H. destruct (range_at cfg _ (next_range cfg s (proj1 H))) as [m Hm].
  destruct (go_spec cfg anything page_anything unique v _ m s H Hm listed) as (t & G & Ht). eauto.
Qed.

Lemma prev_spec v s : view_ok cfg s ->
  exists m t, data_at cfg (if monIdx s <=? 0 then count cfg - 1 else monIdx s - 1) = Some m /\ cyclePrev cfg v s = Some t /\
    gone_on cfg anything s (if monIdx s <=? 0 then count cfg - 1 else monIdx s - 1) m t.
Proof.
  intros H. destruct (range_at cfg _ (prev_range cfg s (proj1 H))) as [m Hm].
  destruct (go_spec cfg anything page_anything unique v _ m s H Hm listed) as (t & G & Ht). eauto.
Qed.

Lemma prev_of_next n i : 0 <= i < n -> (let j := (i + 1) mod n in if j <=? 0 then n - 1 else j - 1) = i.
Proof.
  intros H. cbv zeta. destruct (Z.eq_dec (i + 1) n) as [E|N].
  - rewrite E, Z.mod_same by lia. cbn. lia.
  - rewrite Z.mod_small by lia. destruct (Z.leb_spec (i + 1) 0); lia.
Qed.

Lemma nexts vs : forall s, view_ok cfg s ->
  exists t, run cfg s (map (fun v => (v, CycleNext)) vs) = Some t /\ view_ok cfg t /\
    monIdx t = (monIdx s + Z.of_nat (length vs)) mod count cfg /\ length (streams t) = (length (streams s) + length vs)%nat.
Proof.
  induction vs as [|v vs IH]; intros s H.
  - exists s. split; [reflexivity|]. split; [exact H|]. pose proof (at_range cfg _ _ (s_at cfg s (proj1 H))). cbn.
    rewrite Z.add_0_r, Z.mod_small by lia. split; [reflexivity|lia].
  - destruct (next_spec v s H) as (m & t & _ & E & G). cbn [run map step]. rewrite E.
    destruct (IH t (g_view _ _ _ _ _ _ G)) as (u & R & Hu & Iu & Lu). exists u. split; [exact R|]. split; [exact Hu|].
    pose proof (at_range cfg _ _ (s_at cfg s (proj1 H))). rewrite Iu, (g_at _ _ _ _ _ _ G), Lu. split.
    + rewrite Z.add_mod_idemp_l by lia. f_equal. cbn [length]. lia.
    + rewrite (handed_over_length anything s m _ ltac:(intros E0; pose proof (s_last cfg s (proj1 H)) as La; unfold monitorStream in La; rewrite E0 in La; discriminate) (g_streams _ _ _ _ _ _ G)). cbn. lia.
Qed.
End Round.

(** Going on to the next monitor and back again shows the monitor that was
    shown before, whatever the browser measures on the way. *)
Theorem next_then_prev (cfg : config) (v1 v2 : view) (s : page) :
  NoDup (map m_id (monitorData cfg)) -> all_listed cfg -> view_ok cfg s ->
  exists t u, cycleNext cfg v1 s = Some t /\ cyclePrev cfg v2 t = Some u /\
    monIdx u = monIdx s /\ currentMonitor u = currentMonitor s /\ cycle u = cycle s.
Proof.
  intros U L H. destruct (next_spec cfg U L v1 s H) as (m & t & _ & E1 & G1).
  destruct (prev_spec cfg U L v2 t (g_view _ _ _ _ _ _ G1)) as (m' & u & Hm & E2 & G2). exists t, u. split; [exact E1|]. split; [exact E2|].
  pose proof (at_range cfg _ _ (s_at cfg s (proj1 H))) as Hr.
  assert (Ei : monIdx u = monIdx s) by (rewrite (g_at _ _ _ _ _ _ G2), (g_at _ _ _ _ _ _ G1); exact (prev_of_next _ _ Hr)).
  split; [exact Ei|]. split; [|rewrite (g_cycle _ _ _ _ _ _ G2); apply G1].
  pose proof (s_at cfg u (proj1 (g_view _ _ _ _ _ _ G2))) as Au. rewrite Ei, (s_at cfg s (proj1 H)) in Au. congruence.
Qed.

(** Going on [k] times shows the monitor [k] places further, round the end of
    the list, through a new stream each time; after as many as there are monitors
    it is the first one again. *)
Theorem tour (cfg : config) (vs : list view) (s : page) :
  NoDup (map m_id (monitorData cfg)) -> all_listed cfg -> view_ok cfg s ->
  exists t, run cfg s (map (fun v => (v, CycleNext)) vs) = Some t /\
    data_at cfg ((monIdx s + Z.of_nat (length vs)) mod count cfg) = Some (currentMonitor t) /\
    length (streams t) = (length (streams s) + length vs)%nat /\
    (Z.of_nat (length vs) = count cfg -> currentMonitor t = currentMonitor s).
Proof.
  intros U L H. destruct (nexts cfg U L vs s H) as (t & R & Ht & It & Lt). exists t. split; [exact R|].
  pose proof (s_at cfg t (proj1 Ht)) as At. rewrite It in At. split; [exact At|]. split; [exact Lt|]. intros E. rewrite E in At.
  pose proof (at_range cfg _ _ (s_at cfg s (proj1 H))) as Hr.
  rewrite Z.add_mod, Z.mod_same, Z.add_0_r, Z.mod_mod, Z.mod_small, (s_at cfg s (proj1 H)) in At by lia. congruence.
Qed.

(** ** The countdown *)

(** The ticks that count: those at which the picture is there. *)
Definition ready_ticks (vs : list view) : Z := Z.of_nat (length (List.filter ready vs)).

Lemma tick_counts cfg v s h : timers s !! h = Some TCycle -> gave_up s = false ->
  (if ready v then 1 else 0) < secondsToCycle s ->
  exists t, step cfg v s (Fire h) = Some t /\ base t = base s /\ cyclePeriod t = cyclePeriod s /\ gave_up t = false /\
    secondsToCycle t = secondsToCycle s - (if ready v then 1 else 0).
Proof.
  intros T G L. cbn [step]. unfold fire. rewrite T. unfold nextCycleView. cbv zeta.
  set (u := if ready v then _ else s).
  assert (Hu : base u = base s /\ cyclePeriod u = cyclePeriod s /\ gave_up u = gave_up s /\
    secondsToCycle u = secondsToCycle s - (if ready v then 1 else 0)).
  { unfold u. destruct (ready v); [repeat split|]. rewrite Z.sub_0_r. repeat split. }
  clearbody u. destruct Hu as (Eb & Ep & Eg & Es). rewrite Eg, G, Es.
  destruct (Z.leb_spec (secondsToCycle s - (if ready v then 1 else 0)) 0); [lia|]. cbn [orb mbind option_bind].
  eexists. split; [reflexivity|]. split; [exact Eb|]. split; [exact Ep|]. split; [rewrite <- G, <- Eg; reflexivity|exact Es].
Qed.

Lemma ticks_count cfg h vs : forall s, timers s !! h = Some TCycle -> gave_up s = false -> ready_ticks vs < secondsToCycle s ->
  exists t, run cfg s (map (fun v => (v, Fire h)) vs) = Some t /\ base t = base s /\ cyclePeriod t = cyclePeriod s /\
    gave_up t = false /\ secondsToCycle t = secondsToCycle s - ready_ticks vs.
Proof.
  unfold ready_ticks. induction vs as [|v vs IH]; intros s T G L.
  - exists s. cbn. rewrite Z.sub_0_r. auto.
  - cbn [List.filter] in L. assert (E : Z.of_nat (length (if ready v then v :: List.filter ready vs else List.filter ready vs)) =
      (if ready v then 1 else 0) + Z.of_nat (length (List.filter ready vs))) by (destruct (ready v); cbn [length]; lia).
    rewrite E in L. destruct (tick_counts cfg v s h T G) as (t & St & Eb & Ep & Eg & Es); [lia|].
    destruct (IH t) as (u & R & Fb & Fp & Fg & Fs); [|exact Eg|lia|].
    + rewrite <- T. f_equal. exact (f_equal (fun x => x.2.1.1.1.2) Eb).
    + exists u. cbn [run map List.filter]. rewrite St, R, Fb, Fp, Fs, Es, E. split; [reflexivity|]. split; [exact Eb|].
      split; [exact Ep|]. split; [exact Fg|lia].
Qed.


(** ** Hiding and showing the page *)

Lemma tell_current es s sl : monitorStream s = Some sl ->
  tell es s = option_map (fun st => s <| streams := <[current s := sl <| s_stream := st |>]> (streams s) |>)
                (MonitorStream.run (slot_cfg sl) (s_stream sl) es).
Proof.
  unfold monitorStream. rewrite last_lookup. intros E. unfold tell, tell_slot, current. rewrite E. reflexivity.
Qed.

Lemma last_insert (ss : list slot) sl x : last ss = Some sl -> last (<[Nat.pred (length ss) := x]> ss) = Some x.
Proof.
  rewrite !last_lookup, length_insert. intros E. apply list_lookup_insert_eq. apply lookup_lt_Some in E. exact E.
Qed.

(** The stream shown, after a change of it. *)
Lemma monitorStream_insert s sl x : monitorStream s = Some sl ->
  monitorStream (s <| streams := <[current s := x]> (streams s) |>) = Some x.
Proof. intros E. exact (last_insert (streams s) sl x E). Qed.

(** Nothing but its activity differs in a stream stopped after it was made inactive. *)
Lemma stop_inactive s : MonitorStream.activePlayer s = "zms" -> MonitorStream.started s = true -> MonitorStream.isActive s = true ->
  MonitorStream.stop false (s <| MonitorStream.isActive := false |>) <| MonitorStream.isActive := true |> = MonitorStream.stop false s.
Proof. intros A S Ac. destruct s. cbn in A, S, Ac. subst. reflexivity. Qed.

Lemma stop_inactive_out s : MonitorStream.activePlayer s = "zms" -> MonitorStream.started s = true ->
  MonitorStream.out (MonitorStream.stop false (s <| MonitorStream.isActive := false |>)) = MonitorStream.out (MonitorStream.stop false s).
Proof. intros A S. destruct s. cbn in A, S. subst. reflexivity. Qed.

(** A new scale of a stream under a key sends nothing. *)
Lemma scaled_quiet m n q s : MonitorStream.key_truthy (MonitorStream.connKey s) = true ->
  let t := MonitorStream.setStreamScale m n q s in
  MonitorStream.out t = MonitorStream.out s /\ MonitorStream.connKey t = MonitorStream.connKey s /\
  MonitorStream.started t = MonitorStream.started s.
Proof.
  intros K. unfold MonitorStream.setStreamScale. cbv zeta. set (u := s <| MonitorStream.scale := _ |>).
  change (MonitorStream.connKey u) with (MonitorStream.connKey s). rewrite K, andb_false_r. repeat split.
Qed.

(** What the page keeps of itself while it is hidden. *)
Definition state_of (s : page) := (core s, cycle s, secondsToCycle s, cyclePeriod s, idleTimeoutTriggered s, auth s, relay s).

(** stopPage on a stream that plays. *)
Lemma stopPage_playing v s sl : monitorStream s = Some sl -> MonitorStream.started (s_stream sl) = true ->
  paused v (s_stream sl) = false ->
  exists t, stopPage v s = Some t /\
    monitorStream t = Some (sl <| s_stream := MonitorStream.stop false (s_stream sl <| MonitorStream.isActive := false |>) |>) /\
    prevStateStarted t = Some Played /\ prevStateCycle t = Some (cycle s) /\
    state_of t = (core s, false, if cycle s then 0 else secondsToCycle s, cyclePeriod s, idleTimeoutTriggered s, auth s, relay s).
Proof.
  intros E St Pa. unfold stopPage. cbv zeta. set (a := clear_hide s <| prevStateCycle := _ |>).
  set (b := if cycle a then cycleStop a else a).
  assert (Hb : streams b = streams s /\ prevStateCycle b = Some (cycle s) /\
    state_of b = (core s, false, if cycle s then 0 else secondsToCycle s, cyclePeriod s, idleTimeoutTriggered s, auth s, relay s)).
  { unfold b. change (cycle a) with (cycle s). split; [destruct (cycle s); reflexivity|].
    split; [transitivity (prevStateCycle a); [destruct (cycle s); reflexivity|reflexivity]|].
    destruct (cycle s) eqn:Ec; [reflexivity|]. unfold state_of. change (cycle a) with (cycle s). rewrite Ec. reflexivity. }
  clearbody b. clear a. destruct Hb as (Eb & Ep & Es).
  assert (Em : monitorStream b = Some sl) by (unfold monitorStream; rewrite Eb; exact E). rewrite Em, St, Pa.
  set (c := b <| prevStateStarted := Some Played |>). assert (Em' : monitorStream c = Some sl) by exact Em.
  rewrite (tell_current _ c sl Em'). cbn [MonitorStream.run MonitorStream.step option_map].
  eexists. split; [reflexivity|]. split; [exact (monitorStream_insert c sl _ Em')|]. split; [reflexivity|]. split; [exact Ep|exact Es].
Qed.

(** All of the page that a call on the stream shown leaves. *)
Definition remains (s : page) := (core s, clock s, tally s, prevStateStarted s, relay s).

Lemma told es s sl st : monitorStream s = Some sl -> MonitorStream.run (slot_cfg sl) (s_stream sl) es = Some st ->
  exists t, tell es s = Some t /\ monitorStream t = Some (sl <| s_stream := st |>) /\ remains t = remains s.
Proof.
  intros E R. rewrite (tell_current es s sl E), R. eexists. split; [reflexivity|].
  split; [exact (monitorStream_insert s sl _ E)|reflexivity].
Qed.

Lemma onPlay_remains s : remains (onPlay s) = remains s /\ streams (onPlay s) = streams s.
Proof.
  pose proof (kept_onPlay s) as K. assert (P : (prevStateStarted (onPlay s), relay (onPlay s)) = (prevStateStarted s, relay s)).
  { unfold onPlay. cbv zeta.
    assert (Hw : forall id c u, (prevStateStarted (setButtonStateWatch id c u), relay (setButtonStateWatch id c u)) = (prevStateStarted u, relay u))
      by (intros id c u; unfold setButtonStateWatch; destruct (buttons u !! id); reflexivity).
    assert (Hs : forall id c u, (prevStateStarted (setButtonState id c u), relay (setButtonState id c u)) = (prevStateStarted u, relay u))
      by (intros id c u; unfold setButtonState; destruct (buttons u !! id); reflexivity).
    assert (Hr : forall x1 x2 x3 x4 u, (prevStateStarted (replay_buttons x1 x2 x3 x4 u), relay (replay_buttons x1 x2 x3 x4 u)) = (prevStateStarted u, relay u))
      by (intros *; unfold replay_buttons; destruct (monitorStreamReplayBuffer _); [rewrite !Hs|]; reflexivity).
    destruct (ask _ _ _); rewrite Hr, !Hw; reflexivity. }
  split; [|exact (f_equal (fun x => x.1.1.1) K)]. unfold remains. injection P as -> ->.
  rewrite (f_equal (fun x => x.1.1.2) K : core (onPlay s) = core s), (f_equal (fun x => x.1.2) K : clock (onPlay s) = clock s),
    (f_equal snd K : tally (onPlay s) = tally s). reflexivity.
Qed.

(** monitorsSetScale on a stream under a key. *)
Lemma scale_told v s sl : monitorStream s = Some sl -> MonitorStream.key_truthy (MonitorStream.connKey (s_stream sl)) = true ->
  exists t st, monitorsSetScale v s = Some t /\ monitorStream t = Some (sl <| s_stream := st |>) /\ remains t = remains s /\
    MonitorStream.out st = MonitorStream.out (s_stream sl) /\ MonitorStream.connKey st = MonitorStream.connKey (s_stream sl) /\
    MonitorStream.started st = MonitorStream.started (s_stream sl).
Proof.
  intros E K. unfold monitorsSetScale. rewrite E.
  set (e := MonitorStream.Scaled _ _ _).
  destruct (told [e] s sl _ E eq_refl) as (t & T & M & R). exists t. eexists. split; [exact T|]. split; [exact M|]. split; [exact R|].
  apply scaled_quiet, K.
Qed.

(** What startPage does of the cycle, in the end. *)
Definition end_start (s : page) : page :=
  match prevStateCycle s with Some true => cycleStart (s <| prevStateCycle := None |>) | _ => s end.

Lemma end_start_spec s : monitorStream (end_start s) = monitorStream s /\ prevStateStarted (end_start s) = prevStateStarted s /\
  core (end_start s) = core s /\ cycle (end_start s) = match prevStateCycle s with Some true => true | _ => cycle s end /\
  secondsToCycle (end_start s) = match prevStateCycle s with
                                 | Some true => if secondsToCycle s =? 0 then cyclePeriod s else secondsToCycle s
                                 | _ => secondsToCycle s end.
Proof.
  unfold end_start. destruct (prevStateCycle s) as [[]|]; [|auto..]. unfold cycleStart. cbv zeta.
  change (secondsToCycle (clear_cycle (s <| prevStateCycle := None |>))) with (secondsToCycle s).
  destruct (secondsToCycle s =? 0); repeat split.
Qed.

(** startPage's callback on the stream it stopped. *)
Lemma start_now_resumes v s sl : monitorStream s = Some sl -> prevStateStarted s = Some Played -> idleTimeoutTriggered s = false ->
  MonitorStream.stopped_zms (s_stream sl <| MonitorStream.isActive := true |>) ->
  exists t st, start_now v s = Some t /\ monitorStream t = Some (sl <| s_stream := st |>) /\
    MonitorStream.out st = (MonitorStream.out (s_stream sl) ++
      [MonitorStream.Request (MonitorStream.stream_connkey (s_stream sl)) MonitorStream.CMD_PLAY])%list /\
    MonitorStream.connKey st = MonitorStream.connKey (s_stream sl) /\ MonitorStream.started st = true /\
    prevStateStarted t = None /\ core t = core s /\
    cycle t = (match prevStateCycle s with Some true => true | _ => cycle s end) /\
    secondsToCycle t = match prevStateCycle s with
                       | Some true => if secondsToCycle s =? 0 then cyclePeriod s else secondsToCycle s
                       | _ => secondsToCycle s end.
Proof.
  intros E Pl Id Hz. unfold start_now. rewrite Pl, Id. change (bool_decide (Some Played = Some Played)) with true. cbn [negb andb].
  set (a0 := s <| prevStateStarted := None |>). destruct (onPlay_remains a0) as [Ra Sa].
  assert (R0 : remains a0 = (core s, clock s, tally s, None, relay s)) by reflexivity. rewrite R0 in Ra. clear R0.
  assert (Ea : monitorStream (onPlay a0) = Some sl) by (unfold monitorStream; rewrite Sa; exact E).
  set (a := onPlay a0) in *. clearbody a. clear a0 Sa.
  destruct (told [MonitorStream.SetActive true] a sl _ Ea eq_refl) as (b & -> & Eb & Rb). cbn [mbind option_bind].
  set (sl1 := sl <| s_stream := _ |>) in *. unfold start_stream. set (ch := ask _ _ b). clearbody ch.
  destruct (MonitorStream.start_resumes (slot_cfg sl1) (random v) ch _ Hz) as (st1 & R1 & O1 & K1 & _ & S1 & _).
  assert (Run1 : MonitorStream.run (slot_cfg sl1) (s_stream sl1) [MonitorStream.Start (random v) ch] = Some st1).
  { cbn [MonitorStream.run MonitorStream.step]. exact (f_equal (fun o => match o with Some s' => Some s' | None => None end) R1). }
  destruct (told _ b sl1 st1 Eb Run1) as (c & -> & Ec & Rc). cbn [mbind option_bind]. clear Run1.
  set (sl2 := sl1 <| s_stream := st1 |>) in *.
  assert (Kk : MonitorStream.key_truthy (MonitorStream.connKey (s_stream sl2)) = true)
    by (change (s_stream sl2) with st1; rewrite K1; exact (MonitorStream.sz_key _ Hz)).
  destruct (scale_told v c sl2 Ec Kk) as (d & st2 & -> & Ed & Rd & O2 & K2 & S2). cbn [mbind option_bind].
  change (s_stream sl2) with st1 in O2, K2, S2. rewrite Rc, Rb, Ra in Rd. clear Kk Ec Rc Eb Rb Ea Ra c b a.
  fold (end_start d). destruct (end_start_spec d) as (G1 & G2 & G3 & G4 & G5). exists (end_start d), st2.
  split; [reflexivity|]. split; [rewrite G1; exact Ed|]. split; [rewrite O2, O1; reflexivity|].
  split; [rewrite K2, K1; reflexivity|]. split; [rewrite S2; exact S1|].
  assert (F1 : core d = core s) by exact (f_equal (fun x => x.1.1.1.1) Rd).
  assert (F2 : cycle d = cycle s) by exact (f_equal (fun x => x.1.1.1.2.1.1.1.1.1) Rd).
  assert (F3 : tally d = tally s) by exact (f_equal (fun x => x.1.1.2) Rd).
  assert (F4 : prevStateStarted d = None) by exact (f_equal (fun x => x.1.2) Rd).
  unfold tally in F3. injection F3 as T1 T2 T3 T4 T5 T6. rewrite F1 in G3. rewrite F2, T4 in G4. rewrite T1, T2, T4 in G5. rewrite F4 in G2.
  split; [exact G2|]. split; [exact G3|]. split; [exact G4|exact G5].
Qed.

(** Without a hash startPage does not wait for the probe. *)
Lemma startPage_now cfg v s : Auth.hash (relay s) = "" -> exists e, startPage cfg v s = start_now v e /\
  (streams e, prevStateStarted e, prevStateCycle e, relay e) = (streams s, prevStateStarted s, prevStateCycle s, relay s) /\
  (core e, cycle e, secondsToCycle e, cyclePeriod e, idleTimeoutTriggered e) =
    (core s, cycle s, secondsToCycle s, cyclePeriod s, idleTimeoutTriggered s).
Proof.
  intros Ha. unfold startPage. cbv zeta. set (d := clear_hide s). assert (Rd : relay d = relay s) by reflexivity.
  unfold Auth.whenAuthFresh. rewrite Rd, Ha. change (String.eqb "" "") with true. cbv iota.
  exists (emit (AuthFx (Auth.Run tt)) (d <| auth := auth d |>)). split; [reflexivity|]. split; reflexivity.
Qed.


(** stopPage where nothing plays. *)
Lemma stopPage_stopped v s sl : monitorStream s = Some sl -> MonitorStream.started (s_stream sl) = false -> cycle s = false ->
  exists t, stopPage v s = Some t /\ streams t = streams s /\ prevStateStarted t = Some Stopped /\
    prevStateCycle t = Some false /\ state_of t = state_of s.
Proof.
  intros E St Ec. unfold stopPage. cbv zeta. set (a := clear_hide s <| prevStateCycle := _ |>).
  assert (Ea : monitorStream a = Some sl) by exact E. change (cycle a) with (cycle s). rewrite Ec, Ea, St.
  eexists. split; [reflexivity|]. split; [reflexivity|]. split; [reflexivity|].
  split; [change (Some (cycle s) = Some false); congruence|reflexivity].
Qed.

Lemma start_now_nothing v s : prevStateStarted s <> Some Played -> prevStateCycle s <> Some true ->
  exists t, start_now v s = Some t /\ streams t = streams s /\ cycle t = cycle s.
Proof.
  intros N1 N2. unfold start_now. rewrite (bool_decide_false _ N1). cbn [andb].
  set (o := if ask false (paused v) s then Some (s <| prevStateStarted := None |>) else Some s).
  assert (Ho : exists a, o = Some a /\ streams a = streams s /\ cycle a = cycle s /\ prevStateCycle a = prevStateCycle s)
    by (unfold o; destruct (ask _ _ _); eexists; repeat split).
  destruct Ho as (a & -> & E1 & E2 & E3). cbn [mbind option_bind]. rewrite E3. eexists. split; [reflexivity|].
  destruct (prevStateCycle s) as [[]|]; [congruence|auto..].
Qed.

(** C29: C: a hidden page that is frozen as well has forgotten what it played: the
    second stopPage writes over what the first one remembered, and when the page
    is shown again the stream stays stopped and the cycle off. *)
Theorem freeze_forgets (cfg : config) (v0 v1 v2 v3 : view) (s : page) (sl : slot) :
  monitorStream s = Some sl -> MonitorStream.playing_zms (s_stream sl) -> paused v1 (s_stream sl) = false ->
  Auth.hash (relay s) = "" ->
  exists u sl', run cfg s [(v0, Visibility true); (v1, Fire (next s)); (v2, Freeze); (v3, Visibility false)] = Some u /\
    monitorStream u = Some sl' /\ MonitorStream.started (s_stream sl') = false /\
    MonitorStream.out (s_stream sl') = (MonitorStream.out (s_stream sl) ++
      [MonitorStream.Request (MonitorStream.connKey (s_stream sl)) MonitorStream.CMD_STOP])%list /\
    cycle u = false.
Proof.
  intros E Hz Pa Ha. cbn [run step]. set (a := hide_page _). assert (Ta : timers a !! next s = Some THide) by apply lookup_insert_eq.
  unfold fire. rewrite Ta. cbv zeta. set (b := a <| timers := _ |>). assert (Eb : monitorStream b = Some sl) by exact E.
  assert (Rb : relay b = relay s) by reflexivity. clearbody b. clear a Ta.
  destruct (stopPage_playing v1 b sl Eb (MonitorStream.pz_started _ Hz) Pa) as (c & -> & Ec & _ & _ & F).
  set (sl1 := sl <| s_stream := _ |>) in *.
  destruct (MonitorStream.stop_zms _ (MonitorStream.pz_activePlayer _ Hz) (MonitorStream.pz_started _ Hz)) as (O1 & _).
  assert (St : MonitorStream.started (s_stream sl1) = false) by apply MonitorStream.stop_not_started.
  assert (Cc : cycle c = false) by exact (f_equal (fun x => x.1.1.1.1.1.2) F).
  assert (Rc : relay c = relay s) by (rewrite <- Rb; exact (f_equal snd F)). clear F.
  destruct (stopPage_stopped v2 c sl1 Ec St Cc) as (d & -> & Ed & P1 & P2 & G).
  set (e := d <| hidden := false |>). assert (He : Auth.hash (relay e) = "") by
    (rewrite <- Ha, <- Rc; exact (f_equal (fun x => Auth.hash x.2) G)).
  destruct (startPage_now cfg v3 e He) as (w & -> & Fw & Gw).
  assert (Fw' : (streams w, prevStateStarted w, prevStateCycle w) = (streams d, prevStateStarted d, prevStateCycle d)) by exact (f_equal fst Fw).
  assert (Cw : cycle w = cycle d) by exact (f_equal (fun x => x.1.1.1.2) Gw). clear Fw Gw He. clear e. injection Fw' as W1 W2 W3.
  destruct (start_now_nothing v3 w) as (u & -> & Eu & Cu); [congruence..|]. exists u, sl1. split; [reflexivity|].
  split; [unfold monitorStream; rewrite Eu, W1, Ed; exact Ec|]. split; [exact St|].
  split; [|rewrite Cu, Cw; etransitivity; [exact (f_equal (fun x => x.1.1.1.1.1.2) G)|exact Cc]].
  change (s_stream sl1) with (MonitorStream.stop false (s_stream sl <| MonitorStream.isActive := false |>)).
  rewrite stop_inactive_out, O1, (MonitorStream.g_keys _ (MonitorStream.pz_good _ Hz));
    [reflexivity|exact (MonitorStream.pz_activePlayer _ Hz)|exact (MonitorStream.pz_started _ Hz)].
Qed.

(** ** A user who is gone *)

(** An event that leaves a stream down which is down. *)
Definition rests (e : MonitorStream.event) : Prop :=
  match e with MonitorStream.Start _ _ | MonitorStream.Fire _ _ _ => False | _ => True end.

Lemma calm_rests e : calm_event e = true -> rests e.
Proof. destruct e; (exact (fun _ => I) || discriminate). Qed.

Lemma srun_down m es : forall st st', MonitorStream.down st -> Forall (fun e => rests e.2) es -> srun m st es = Some st' ->
  MonitorStream.down st'.
Proof.
  induction es as [|[b e] es IH]; intros st st' D F; cbn; [intros [= <-]; exact D|]. apply Forall_cons in F as [Fe F].
  assert (W : MonitorStream.wakes st e = false) by (destruct e; (reflexivity || destruct Fe)).
  pose proof (MonitorStream.down_step (with_onplay b (m_cfg m)) st e D W) as D1.
  destruct (MonitorStream.step _ _ _) as [st1|]; [|discriminate]. intros R. exact (IH st1 st' D1 F R).
Qed.

Definition stream_down (s : page) : Prop := exists sl, monitorStream s = Some sl /\ MonitorStream.down (s_stream sl).

Lemma steady_down s t : steady rests s t -> stream_down s -> stream_down t.
Proof.
  intros (_ & _ & [L M] & _) (sl & E & D). unfold stream_down, monitorStream in *. rewrite last_lookup in E |- *. rewrite L.
  destruct (M _ sl E) as (sl' & E' & _ & es & F & R). exists sl'. split; [exact E'|].
  apply (srun_down (s_mon sl) es _ _ D); [|exact R]. eapply Forall_impl; [exact F|]. intros e [H _]. exact H.
Qed.

(** A timer that starts no stream. *)
Definition idle_timer (tm : timer) : bool := match tm with TCycle | TPlay | TChannel _ => false | _ => true end.
Definition idle_timers (s : page) : Prop := forall h tm, timers s !! h = Some tm -> idle_timer tm = true.

Lemma idle_timers_delete s t h : idle_timers s -> timers t = delete h (timers s) -> idle_timers t.
Proof. intros H E h' tm. rewrite E, lookup_delete_Some. intros [_ Ht]. exact (H h' tm Ht). Qed.
Lemma idle_timers_drop s t h : idle_timers s -> timers t = drop h (timers s) -> idle_timers t.
Proof. destruct h as [h|]; [apply idle_timers_delete|]. intros H E h' tm. rewrite E. apply H. Qed.
Lemma idle_timers_add s t h tm : idle_timers s -> idle_timer tm = true -> timers t = <[h := tm]> (timers s) -> idle_timers t.
Proof.
  intros H Hi E h' tm'. rewrite E. destruct (decide (h = h')) as [<-|N]; [rewrite lookup_insert_eq; congruence|].
  rewrite lookup_insert_ne by exact N. apply H.
Qed.

(** The page behind the dialog, or on its way there. *)
Record asleep (s : page) : Prop := {
  a_down : stream_down s; a_timers : idle_timers s; a_cycle : cycle s = false;
  a_idle : idleTimeoutTriggered s = true; a_prev : prevStateCycle s <> Some true;
}.

Lemma asleep_steady s t : asleep s -> steady rests s t -> asleep t.
Proof.
  intros [D T C I N] St. pose proof St as (_ & K & _ & Ta). split.
  - exact (steady_down s t St D).
  - unfold idle_timers in *. assert (timers t = timers s) as -> by exact (f_equal (fun x => x.1.1.1.2) K). exact T.
  - rewrite <- C. exact (f_equal (fun x => x.1.1.1.1.1) K).
  - rewrite <- I. exact (f_equal (fun x => x.1.1.1.2) Ta).
  - assert (prevStateCycle t = prevStateCycle s) as -> by exact (f_equal (fun x => x.1.1.2) Ta). exact N.
Qed.

(** What [asleep] looks at, but for the timers. *)
Definition drowsy (s : page) := (streams s, cycle s, idleTimeoutTriggered s, prevStateCycle s).

Lemma asleep_with s t : asleep s -> drowsy t = drowsy s -> idle_timers t -> asleep t.
Proof.
  unfold drowsy. intros [D T C I N] [= E1 E2 E3 E4] T'. split; unfold stream_down, monitorStream in *; rewrite ?E1, ?E2, ?E3, ?E4; assumption.
Qed.
Lemma asleep_unmoved s t : asleep s -> drowsy t = drowsy s -> timers t = timers s -> asleep t.
Proof. intros H E Et. apply (asleep_with s t H E). unfold idle_timers. rewrite Et. apply H. Qed.

Definition asleepO (o : option page) : Prop := match o with Some t => asleep t | None => True end.

Lemma asleep_walk s o : asleep s -> steadyO rests s o -> asleepO o.
Proof. destruct o as [t|]; cbn; [apply asleep_steady|auto]. Qed.
Lemma asleep_bind o (f : page -> option page) : asleepO o -> (forall t, asleep t -> asleepO (f t)) -> asleepO (o ≫= f).
Proof. destruct o as [t|]; cbn; auto. Qed.

Lemma asleep_stopPage v s : asleep s -> asleepO (stopPage v s).
Proof.
  intros H. pose proof H as [(sl & E & [D1 D2]) T C I N]. unfold stopPage. cbv zeta.
  set (a := clear_hide s <| prevStateCycle := _ |>). change (cycle a) with (cycle s). rewrite C.
  assert (Ea : monitorStream a = Some sl) by exact E. rewrite Ea, D1. split.
  - exists sl. split; [exact E|split; assumption].
  - eapply (idle_timers_drop s); [exact T|reflexivity].
  - exact C.
  - exact I.
  - change (Some (cycle s) <> Some true). congruence.
Qed.

Lemma asleep_start_now v s : asleep s -> asleepO (start_now v s).
Proof.
  intros H. unfold start_now. rewrite (a_idle s H). cbn [negb]. rewrite andb_false_r.
  set (o := if ask false (paused v) s then Some (s <| prevStateStarted := None |>) else Some s).
  assert (Ho : exists a, o = Some a /\ asleep a).
  { unfold o. destruct (ask _ _ _); [|eauto]. eexists. split; [reflexivity|]. apply (asleep_unmoved s); [exact H|reflexivity..]. }
  destruct Ho as (a & -> & Ha). cbn [mbind option_bind]. pose proof (a_prev a Ha) as N.
  destruct (prevStateCycle a) as [[]|]; [congruence|exact Ha..].
Qed.

Lemma asleep_clear_hide s : asleep s -> asleep (clear_hide s).
Proof. intros H. apply (asleep_with s); [exact H|reflexivity|]. eapply (idle_timers_drop s); [apply H|reflexivity]. Qed.

Lemma asleep_auth v r s : asleep s -> asleepO (with_auth v r s).
Proof.
  intros H. unfold with_auth. assert (Hr : asleepO (Some (s <| auth := r.1 |>))) by (apply (asleep_unmoved s); [exact H|reflexivity..]).
  revert Hr. generalize (Some (s <| auth := r.1 |>)). induction r.2 as [|fx l IH]; intros o Ho; cbn [fold_left]; [exact Ho|]. apply IH.
  unfold run_effect. apply asleep_bind; [exact Ho|]. intros t Ht. cbv zeta. set (u := emit _ t).
  assert (Hu : asleep u) by (apply (asleep_unmoved t); [exact Ht|reflexivity..]). clearbody u.
  destruct fx; [exact Hu|exact Hu| |apply asleep_start_now, Hu]. set (w := u <| relay := _ |>).
  assert (Hw : asleep w) by (apply (asleep_unmoved u); [exact Hu|reflexivity..]). clearbody w.
  apply (asleep_walk w _ Hw). apply steady_share; [exact calm_rests|apply steady_refl].
Qed.

Lemma asleep_startPage cfg v s : asleep s -> asleepO (startPage cfg v s).
Proof. intros H. unfold startPage. cbv zeta. apply asleep_auth, asleep_clear_hide, H. Qed.

Lemma asleep_pause s : asleep s -> asleep (cyclePause s).
Proof.
  intros H. apply (asleep_with s); [exact H| |eapply (idle_timers_drop s); [apply H|reflexivity]].
  unfold drowsy. rewrite (a_cycle s H). reflexivity.
Qed.
Lemma asleep_then_pause o : asleepO o -> asleepO (option_map cyclePause o).
Proof. destruct o as [t|]; [exact (asleep_pause t)|auto]. Qed.

Lemma asleep_idle s : asleep s -> asleepO (stopPlayback s).
Proof.
  intros H. unfold stopPlayback. apply asleep_bind.
  - set (a := s <| idleTimeoutTriggered := true |>). assert (Ha : asleep a).
    { apply (asleep_unmoved s); [exact H| |reflexivity]. unfold drowsy. rewrite (a_idle s H). reflexivity. }
    clearbody a. apply (asleep_walk a _ Ha). apply steady_stop; [exact calm_rests|apply steady_refl].
  - intros t Ht. cbv zeta. apply asleep_pause in Ht. set (u := cyclePause t) in *. clearbody u.
    destruct (dialog u); (apply (asleep_unmoved u); [exact Ht|reflexivity..]).
Qed.


(** One event of a stream, which does not wake the one shown. *)
Lemma asleep_tell_slot i e s : asleep s -> (i = current s -> ask false (fun st => MonitorStream.wakes st e) s = false) ->
  asleepO (tell_slot i [e] s).
Proof.
  intros H W. unfold tell_slot. destruct (streams s !! i) as [sl|] eqn:E; [|exact H]. cbn [MonitorStream.run].
  destruct (MonitorStream.step (slot_cfg sl) (s_stream sl) e) as [st|] eqn:R; [|exact I]. cbn [option_map asleepO].
  set (sl' := sl <| s_stream := st |>). pose proof H as [(sl0 & E0 & D) T C Id N]. split; try assumption.
  unfold stream_down. unfold monitorStream in *.
  change (streams (s <| streams := <[i := sl']> (streams s) |>)) with (<[i := sl']> (streams s)).
  rewrite last_lookup in E0 |- *. rewrite length_insert. destruct (decide (i = current s)) as [Ei|Ni].
  - exists sl'. split; [subst i; apply list_lookup_insert_eq; apply lookup_lt_Some in E0; exact E0|].
    assert (sl = sl0) as -> by (unfold current in Ei; rewrite Ei in E; congruence).
    specialize (W Ei). unfold ask, monitorStream in W. rewrite last_lookup, E0 in W.
    pose proof (MonitorStream.down_step (slot_cfg sl0) (s_stream sl0) e D W) as D'. rewrite R in D'. exact D'.
  - exists sl0. split; [rewrite list_lookup_insert_ne by exact Ni; exact E0|exact D].
Qed.

Lemma asleep_calls l : forall o, asleepO o -> asleepO (fold_left page_call l o).
Proof.
  induction l as [|x l IH]; intros o Ho; cbn [fold_left]; [exact Ho|]. apply IH. destruct o as [t|]; [|exact I].
  apply (asleep_walk t _ Ho). apply steady_call; [exact calm_rests|]. apply steady_refl.
Qed.

Lemma asleep_own i e s : asleep s -> (i = current s -> ask false (fun st => MonitorStream.wakes st e) s = false) ->
  asleepO (own i e s).
Proof.
  intros H W. unfold own. destruct (streams s !! i) as [sl|]; [|exact H]. apply asleep_bind; [apply asleep_tell_slot; assumption|].
  intros t Ht. destruct (streams t !! i) as [sl'|]; [|exact Ht]. apply asleep_bind; [apply asleep_calls, Ht|].
  intros u Hu. cbv zeta. destruct (String.eqb _ _); [exact Hu|]. set (w := u <| relay := _ |>).
  assert (Hw : asleep w) by (apply (asleep_unmoved u); [exact Hu|reflexivity..]). clearbody w.
  apply (asleep_walk w _ Hw). apply steady_share; [exact calm_rests|apply steady_refl].
Qed.

(** What may happen while the user is gone: anything but the dismissal of the
    dialog, the buttons and links that start a stream, and the restart a stream
    had already scheduled. *)
Definition undisturbed (s : page) (e : event) : bool :=
  match e with
  | DialogClosed | CyclePlay | CycleNext | CyclePrev | Link _ | Dvr BPlay | ChooseChannel _ | ChoosePlayer _ => false
  | Own i e => negb (bool_decide (i = current s) && ask false (fun st => MonitorStream.wakes st e) s)
  | _ => true
  end.

Lemma asleep_fire cfg v h s : asleep s -> asleepO (fire cfg v h s).
Proof.
  intros H. unfold fire. cbv zeta. destruct (timers s !! h) as [tm|] eqn:T; [|exact H].
  pose proof (a_timers s H h tm T) as Hi. set (u := s <| timers := delete h (timers s) |>).
  assert (Hu : asleep u) by (apply (asleep_with s); [exact H|reflexivity|]; eapply (idle_timers_delete s); [apply H|reflexivity]).
  destruct tm; try discriminate Hi.
  - apply asleep_stopPage, Hu.
  - destruct (hidden u); [exact Hu|]. apply asleep_startPage, Hu.
  - apply asleep_idle, Hu.
  - unfold placed. destruct (offsetHeight v); [|exact H]. destruct (_ <? _); [|exact H].
    apply (asleep_walk u _ Hu). apply steady_scale; [exact calm_rests|apply steady_refl].
  - destruct (updateScale s); [|exact H].
    pose proof (asleep_walk s _ H (steady_scale rests calm_rests v s s (steady_refl rests s))) as Ha.
    destruct (monitorsSetScale v s) as [t|]; [|exact I]. cbn. apply (asleep_unmoved t); [exact Ha|reflexivity..].
Qed.

Lemma asleep_step cfg v s e : asleep s -> undisturbed s e = true -> asleepO (step cfg v s e).
Proof.
  intros H U. pose proof (steady_refl rests s) as St. destruct e; cbn [step undisturbed] in *; try discriminate U.
  - apply asleep_fire, H.
  - destruct hidden0.
    + cbn [asleepO]. apply (asleep_with s); [exact H|reflexivity|].
      eapply (idle_timers_add (s <| timers := drop (TimerHideShow s) (timers s) |>) _ _ THide); [|reflexivity|reflexivity].
      eapply (idle_timers_drop s); [apply H|reflexivity].
    + apply asleep_startPage. apply (asleep_unmoved s); [exact H|reflexivity..].
  - apply asleep_stopPage, H.
  - cbn [asleepO]. apply (asleep_with s); [exact H|reflexivity|]. eapply (idle_timers_add s _ _ TStartPage); [apply H|reflexivity|reflexivity].
  - apply asleep_stopPage, H.
  - cbn [asleepO]. apply (asleep_with s); [exact H|reflexivity|]. eapply (idle_timers_add s _ _ TStartPage); [apply H|reflexivity|reflexivity].
  - cbn [asleepO]. destruct (viewing_timeout cfg); [|exact H]. apply (asleep_with s); [exact H|reflexivity|].
    eapply (idle_timers_add (s <| timers := drop (time s) (timers s) |>) _ _ TIdle); [|reflexivity|reflexivity].
    eapply (idle_timers_drop s); [apply H|reflexivity].
  - cbn [asleepO]. unfold dialog_done. destruct (dialog_asked s) as [|c asked]; [exact H|]. cbv zeta.
    change (dialog (s <| dialog_asked := asked |>)) with (dialog s). destruct (dialog s); (apply (asleep_unmoved s); [exact H|reflexivity..]).
  - cbn [asleepO]. apply (asleep_unmoved s); [exact H|reflexivity..].
  - destruct (Auth.authRevalidating _); [apply asleep_auth|]; exact H.
  - destruct (Auth.authRevalidating _); [apply asleep_auth|]; exact H.
  - apply asleep_pause, H.
  - cbn [asleepO]. apply (asleep_unmoved s); [exact H|reflexivity..].
  - destruct b; try discriminate U; unfold click_dvr;
      (destruct (buttons s !! dvr_id _) as [[cls []]|]; [exact H| |exact H]);
      apply asleep_then_pause; cbn [dvr_command];
      apply (asleep_walk s _ H); destruct (steady_replay rests calm_rests true s s St) as (? & ? & ? & ?); try assumption.
    + apply steady_pause; [exact calm_rests|exact St].
    + apply steady_stop; [exact calm_rests|exact St].
  - apply asleep_then_pause, (asleep_walk s _ H). apply steady_zoom; [exact calm_rests|exact St].
  - apply (asleep_walk s _ H). apply steady_scale; [exact calm_rests|]. refine (steady_same rests s s _ St _). reflexivity.
  - apply (asleep_walk s _ H). apply steady_scale; [exact calm_rests|]. refine (steady_same rests s s _ St _). reflexivity.
  - unfold changeRate. pose proof (asleep_walk s _ H (steady_tell rests [MonitorStream.MaxFPS (VStr value)] s s St
      ltac:(repeat constructor))) as Ha. destruct (tell _ s) as [t|]; [|exact I]. cbn. apply (asleep_unmoved t); [exact Ha|reflexivity..].
  - apply (asleep_walk s _ H). apply steady_analyse; [exact calm_rests|exact St].
  - apply (asleep_walk s _ H). apply steady_alarms; [exact calm_rests|exact St].
  - apply (asleep_walk s _ H). apply steady_alarms; [exact calm_rests|exact St].
  - apply (asleep_walk s _ H). apply steady_cycleToggle; [exact calm_rests|exact St].
  - apply (asleep_walk s _ H). apply steady_ptzToggle; [exact calm_rests|exact St].
  - cbn [asleepO]. apply (asleep_unmoved s); [exact H|reflexivity..].
  - apply asleep_own; [exact H|]. intros ->. rewrite bool_decide_true in U by reflexivity. apply negb_true_iff in U. exact U.
Qed.

Fixpoint undisturbed_run (cfg : config) (s : page) (es : list (view * event)) : bool :=
  match es with
  | [] => true
  | (v, e) :: es =>
      undisturbed s e && match step cfg v s e with Some s => undisturbed_run cfg s es | None => true end
  end.

Lemma asleep_run cfg es : forall s, asleep s -> undisturbed_run cfg s es = true -> asleepO (run cfg s es).
Proof.
  induction es as [|[v e] es IH]; intros s H U; cbn; [exact H|]. cbn in U. apply andb_true_iff in U as [U1 U2].
  pose proof (asleep_step cfg v s e H U1) as Hs. destruct (step cfg v s e) as [t|]; [exact (IH t Hs U2)|exact I].
Qed.

(** The buttons of a stopped stream leave the stream itself. *)
Lemma controls_shown w sl : monitorStream w = Some sl ->
  exists sl', monitorStream (updatePlayerControls_stop w) = Some sl' /\ s_stream sl' = s_stream sl.
Proof.
  unfold updatePlayerControls_stop. cbv zeta. set (y := replay_buttons _ _ _ _ _). intros E.
  assert (Ey : streams y = streams (set_onplay false w)) by exact (f_equal (fun z => z.1.1.1) (kept_replay _ _ _ _ (set_onplay false w))).
  assert (Ez : streams (setButtonStateWatch "pauseBtn" "hidden" (setButtonStateWatch "stopBtn" "unavail" (setButtonStateWatch "playBtn" "inactive" y))) = streams y).
  { etransitivity; [exact (f_equal (fun z => z.1.1.1) (kept_setButtonStateWatch _ _ _))|].
    etransitivity; [exact (f_equal (fun z => z.1.1.1) (kept_setButtonStateWatch _ _ _))|].
    exact (f_equal (fun z => z.1.1.1) (kept_setButtonStateWatch _ _ _)). }
  unfold monitorStream in E |- *. rewrite Ez, Ey.
  change (streams (set_onplay false w)) with (alter (fun sl => sl <| onplay := false |>) (current w) (streams w)).
  rewrite last_lookup in E |- *. rewrite length_alter. unfold current. rewrite list_lookup_alter_eq, E. eexists. split; reflexivity.
Qed.

(** The inactivity timer puts the page to sleep. *)
Lemma idle_asleep cfg v h s t : view_ok cfg s -> timers s !! h = Some TIdle ->
  (forall h tm, timers s !! h = Some tm -> tm = TCycle \/ idle_timer tm = true) -> prevStateCycle s <> Some true ->
  fire cfg v h s = Some t -> asleep t.
Proof.
  intros [Sh [O C]] T Hq N. unfold fire. rewrite T. cbv zeta. unfold stopPlayback.
  set (u := s <| timers := delete h (timers s) |> <| idleTimeoutTriggered := true |>).
  assert (Ou : owned u) by (refine (owned_same (s <| timers := delete h (timers s) |>) u (owned_delete s h O) _); reflexivity).
  destruct (monitorStream s) as [sl|] eqn:E; [|pose proof (s_last cfg s Sh) as La; rewrite E in La; discriminate].
  unfold streamCmdStop.
  destruct (told [MonitorStream.SetActive false; MonitorStream.Stop] u sl _ E eq_refl) as (w & -> & Ew & Rw).
  assert (Fw : timers w = timers u /\ cycleIntervalId w = cycleIntervalId u /\ idleTimeoutTriggered w = true /\ prevStateCycle w = prevStateCycle s /\ clock w = clock u).
  { repeat split; [exact (f_equal (fun x => x.1.1.1.2.1.1.1.2) Rw)|exact (f_equal (fun x => x.1.1.1.2.1.1.1.1.2) Rw)
    |exact (f_equal (fun x => x.1.1.2.1.1.1.2) Rw)|exact (f_equal (fun x => x.1.1.2.1.1.2) Rw)|exact (f_equal (fun x => x.1.1.1.2) Rw)]. }
  destruct Fw as (F1 & F2 & F3 & F4 & F5). apply (owned_same u w) in Ou; [|exact F5].
  cbn [option_map mbind option_bind]. cbv zeta. set (x := updatePlayerControls_stop w).
  pose proof (steady_controls anything w w (steady_refl anything w)) as (_ & Kx & Mx & Tx). fold x in Kx, Mx, Tx.
  assert (Dx : stream_down x).
  { destruct (controls_shown w _ Ew) as (sl' & E1 & E2). exists sl'. split; [exact E1|]. rewrite E2. apply MonitorStream.stop_down. }
  assert (Ox : owned x) by exact (owned_same w x Ou Kx). destruct (clear_cycle_owned x Ox) as [_ Nx].
  assert (Ix : idleTimeoutTriggered x = true) by (rewrite <- F3; exact (f_equal (fun z => z.1.1.1.2) Tx)).
  assert (Px : prevStateCycle x <> Some true) by (rewrite <- F4 in N; rewrite (f_equal (fun z => z.1.1.2) Tx : prevStateCycle x = prevStateCycle w); exact N).
  assert (Ax : asleep (cyclePause x)).
  { split; [exact Dx| |reflexivity|exact Ix|exact Px]. intros h' tm Ht.
    change (timers (cyclePause x)) with (timers (clear_cycle x)) in Ht.
    assert (Ntm : tm <> TCycle) by (intros ->; exact (Nx h' Ht)).
    assert (Hw : timers w !! h' = Some tm).
    { unfold clear_cycle in Ht. change (drop (cycleIntervalId x) (timers x) !! h' = Some tm) in Ht.
      rewrite (f_equal (fun z => z.1.1.1.2) Kx : timers x = timers w) in Ht.
      destruct (cycleIntervalId x); cbn in Ht; [apply lookup_delete_Some in Ht; tauto|exact Ht]. }
    rewrite F1 in Hw. change (delete h (timers s) !! h' = Some tm) in Hw. apply lookup_delete_Some in Hw as [_ Hw].
    destruct (Hq h' tm Hw); [congruence|assumption]. }
  set (z := cyclePause x) in *. clearbody z. intros [= <-].
  destruct (dialog z); (apply (asleep_unmoved z); [exact Ax|reflexivity..]).
Qed.


(** ** A page with two monitors *)

Definition demo_monitor (id : Z) (key : string) : monitor :=
  Monitor id (Fin 1920) (Fin 1080) MonitorStream.demo_cfg (Some key) "zms" "" "" "" false false false.
Definition demo_cfg : config := Config [demo_monitor 3 "111111"; demo_monitor 7 "222222"] true true false "/zm/index.php".
Definition demo_view : view :=
  View (Fin (1 # 2)) false true false true (Some 400) (Fin 600) (Fin 1200) (Fin 800) (Fin 1) (Fin 50) (Fin 50) false.
Definition demo_request (cyc : bool) : request :=
  Request 0 cyc 2 false [MonitorStream.PlayerOption "" false; MonitorStream.PlayerOption "zms" false] (Some "")
    [MonitorStream.PlayerOption "Restream" false] (Some "Restream") "0" "0" "" "" false false "".
#[local] Notation at_view es := (map (fun e => (demo_view, e)) es).
#[local] Notation demo_page cyc es := (reached demo_cfg demo_view (demo_request cyc) (at_view es)).
#[local] Notation demo_at cyc es :=
  (default (Page [] 0 0 (demo_monitor 3 "") false None 0 "" 0 false None None false None None false ∅ 0 None false [] ∅ [] None [] None
              "" "" "" "" false 0 ∅ false false false "" Auth.init "" []) (demo_page cyc es)).

Lemma demo_unique : NoDup (map m_id (monitorData demo_cfg)).
Proof. apply (bool_decide_unpack _). vm_compute. exact I. Qed.
Lemma demo_listed : all_listed demo_cfg.
Proof. repeat constructor. Qed.
Lemma demo_ok cyc es : is_Some (demo_page cyc es) -> forallb naturalb (at_view es) = true -> view_ok demo_cfg (demo_at cyc es).
Proof.
  intros [s E] F. rewrite E. exact (reached_ok demo_cfg demo_unique demo_view (demo_request cyc) (at_view es) s (naturalb_spec _ F) E).
Qed.

(** The streams break, the user goes to and fro, hides the page and shows it. *)
Definition demo_events : list event :=
  [Own 0 MonitorStream.ElementLoad; CycleNext; Own 1 MonitorStream.ElementError; Own 0 (MonitorStream.PlayerError true);
   Link 0; CyclePlay; Visibility true; Freeze; Visibility false; CyclePrev; ChoosePlayer "zms"; Activity].

Lemma watch_shows_witness : let s := demo_at true demo_events in
  data_at demo_cfg (monIdx s) = Some (currentMonitor s) /\ m_id (currentMonitor s) = monitorId s /\
  nav_active s = {[monitorId s]} /\ option_map s_mon (monitorStream s) = Some (currentMonitor s).
Proof.
  cbv zeta. apply (watch_shows demo_cfg demo_view (demo_request true) (at_view demo_events)).
  - exact demo_unique.
  - apply naturalb_spec. vm_compute. reflexivity.
  - vm_compute. reflexivity.
Defined.

Lemma one_cycle_interval_witness : let s := demo_at true [CyclePlay; CyclePlay; Dvr BPause; CyclePlay] in
  timers s !! 8%nat = Some TCycle <-> cycle s = true /\ cycleIntervalId s = Some 8%nat.
Proof.
  cbv zeta. apply (one_cycle_interval demo_cfg demo_view (demo_request true) (at_view [CyclePlay; CyclePlay; Dvr BPause; CyclePlay])).
  - exact demo_unique.
  - apply naturalb_spec. vm_compute. reflexivity.
  - vm_compute. reflexivity.
Defined.

Lemma replaced_stay_down_witness : exists sl, streams (demo_at true demo_events) !! 0%nat = Some sl /\
  MonitorStream.started (s_stream sl) = false /\ MonitorStream.starting (s_stream sl) = false /\
  MonitorStream.isActive (s_stream sl) = false.
Proof.
  destruct (streams (demo_at true demo_events) !! 0%nat) as [sl|] eqn:E; [|vm_compute in E; discriminate].
  exists sl. split; [reflexivity|].
  apply (replaced_stay_down demo_cfg demo_view (demo_request true) (at_view demo_events) (demo_at true demo_events) 0 sl).
  - exact demo_unique.
  - apply naturalb_spec. vm_compute. reflexivity.
  - vm_compute. reflexivity.
  - exact E.
  - apply Nat.ltb_lt. vm_compute. reflexivity.
Defined.

Lemma watch_ledger_witness : exists sl, streams (demo_at false [CycleNext; CycleNext]) !! 1%nat = Some sl /\
  (MonitorStream.connKey (s_stream sl) = Some "500000" \/ MonitorStream.told_to_quit "500000" (MonitorStream.out (s_stream sl))).
Proof.
  destruct (streams (demo_at false [CycleNext; CycleNext]) !! 1%nat) as [sl|] eqn:E; [|vm_compute in E; discriminate].
  exists sl. split; [reflexivity|].
  apply (watch_ledger demo_cfg demo_view (demo_request false) (at_view [CycleNext; CycleNext]) (demo_at false [CycleNext; CycleNext]) sl "500000").
  - repeat constructor.
  - vm_compute. reflexivity.
  - apply list_elem_of_lookup. exists 1%nat. exact E.
  - discriminate.
  - right. vm_compute in E. injection E as <-. eexists. vm_compute. apply list_elem_of_further, list_elem_of_here.
Defined.

Lemma watch_total_witness : is_Some (demo_page true demo_events).
Proof.
  apply watch_total; [exact demo_unique|cbn; lia|exact demo_listed|]. apply naturalb_spec. vm_compute. reflexivity.
Defined.

Lemma next_then_prev_witness : let s := demo_at true [] in
  exists t u, cycleNext demo_cfg demo_view s = Some t /\ cyclePrev demo_cfg demo_view t = Some u /\
    monIdx u = monIdx s /\ currentMonitor u = currentMonitor s /\ cycle u = cycle s.
Proof.
  cbv zeta. apply (next_then_prev demo_cfg demo_view demo_view (demo_at true [])); [exact demo_unique|exact demo_listed|].
  apply demo_ok; [vm_compute; eauto|reflexivity].
Defined.

Lemma tour_witness : let s := demo_at true [] in
  exists t, run demo_cfg s (map (fun v => (v, CycleNext)) [demo_view; demo_view; demo_view]) = Some t /\
    data_at demo_cfg ((monIdx s + 3) mod count demo_cfg) = Some (currentMonitor t) /\
    length (streams t) = (length (streams s) + 3)%nat /\ (3 = count demo_cfg -> currentMonitor t = currentMonitor s).
Proof.
  cbv zeta. apply (tour demo_cfg [demo_view; demo_view; demo_view] (demo_at true [])); [exact demo_unique|exact demo_listed|].
  apply demo_ok; [vm_compute; eauto|reflexivity].
Defined.

(** Two seconds, and one tick at which there is no picture. *)
Definition blind_view : view :=
  View (Fin (1 # 2)) false false false true (Some 400) (Fin 600) (Fin 1200) (Fin 800) (Fin 1) (Fin 50) (Fin 50) false.


#[local] Notation demo_playing := (demo_at true [Own 0 MonitorStream.ElementLoad]).
#[local] Notation demo_slot := (default (Slot (demo_monitor 3 "") false (MonitorStream.create None "" "" "")) (monitorStream demo_playing)).

Lemma demo_plays : monitorStream demo_playing = Some demo_slot /\ MonitorStream.playing_zms (s_stream demo_slot) /\
  paused demo_view (s_stream demo_slot) = false.
Proof.
  split; [vm_compute; reflexivity|]. split; [|vm_compute; reflexivity].
  repeat split; vm_compute; reflexivity.
Qed.


Lemma freeze_forgets_witness : exists u sl',
  run demo_cfg demo_playing [(demo_view, Visibility true); (demo_view, Fire (next demo_playing)); (demo_view, Freeze); (demo_view, Visibility false)] = Some u /\
  monitorStream u = Some sl' /\ MonitorStream.started (s_stream sl') = false /\
  MonitorStream.out (s_stream sl') = (MonitorStream.out (s_stream demo_slot) ++
    [MonitorStream.Request (MonitorStream.connKey (s_stream demo_slot)) MonitorStream.CMD_STOP])%list /\
  cycle u = false.
Proof.
  destruct demo_plays as (E & Hz & Pa).
  apply (freeze_forgets demo_cfg demo_view demo_view demo_view demo_view demo_playing demo_slot E Hz Pa). vm_compute. reflexivity.
Defined.

(** 2 is the inactivity timer. *)
Definition gone_events : list event :=
  [DialogDone; Own 0 MonitorStream.ElementError; Activity; Visibility true; Visibility false; Freeze; Resume; Fire 3; Dvr BPause;
   Own 0 (MonitorStream.PlayerError true); AlarmClick; Resized; Fire 3].
#[local] Notation demo_gone := (default demo_playing (fire demo_cfg demo_view 2 demo_playing)).


(** ** What the handlers leave open *)

(** A stream that was stopped before it is given up is not told to quit: its zms
    keeps the key, and runs on. *)
Theorem stopped_not_quit (s : MonitorStream.state) : MonitorStream.playing_zms s ->
  let t := MonitorStream.kill (MonitorStream.stop false s <| MonitorStream.isActive := false |>) in
  MonitorStream.out t = (MonitorStream.out s ++ [MonitorStream.Request (MonitorStream.connKey s) MonitorStream.CMD_STOP])%list /\
  MonitorStream.connKey t = MonitorStream.connKey s.
Proof.
  intros Hz. pose proof (MonitorStream.g_keys _ (MonitorStream.pz_good _ Hz)) as Gk. destruct Hz as [_ Ac St T _ A _ _ _].
  destruct s. cbn in Ac, St, T, A, Gk. subst. split; reflexivity.
Qed.

(** The same on the page: stopped, then gone on from. *)
Example stop_then_next_leaks : let s := demo_at true [Own 0 MonitorStream.ElementLoad; Dvr BStop; CycleNext] in
  exists sl, streams s !! 0%nat = Some sl /\ (1 < length (streams s))%nat /\
    MonitorStream.connKey (s_stream sl) = Some "500000" /\
    List.filter (fun e => match e with MonitorStream.Request (Some k) _ => String.eqb k "500000" | _ => false end)
      (MonitorStream.out (s_stream sl)) =
    [MonitorStream.Request (Some "500000") MonitorStream.CMD_QUERY; MonitorStream.Request (Some "500000") MonitorStream.CMD_STOP].
Proof. eexists. split; [vm_compute; reflexivity|]. split; [apply Nat.ltb_lt; vm_compute; reflexivity|]. repeat split; vm_compute; reflexivity. Qed.

(** The inactivity timer goes off while the page is hidden with the cycle on: when
    it is shown again the cycle runs behind the dialog and starts the next stream. *)
Example hidden_idle_cycles :
  let s := demo_at true [Own 0 MonitorStream.ElementLoad; Visibility true; Fire 5; Fire 2; DialogDone; Visibility false; Fire 6; Fire 6] in
  dialog_shown s = true /\ idleTimeoutTriggered s = true /\ cycle s = true /\ monIdx s = 1 /\
  ask false MonitorStream.started s = true.
Proof. repeat split; vm_compute; reflexivity. Qed.

(** The dialog restarts the cycle as it was at the first timeout, not at this one. *)
Example stale_cycle_was :
  let first := demo_at true [Fire 2; DialogDone; DialogClosed; CyclePause; Activity] in
  cycle first = false /\ cycle (demo_at true [Fire 2; DialogDone; DialogClosed; CyclePause; Activity; Fire 6; DialogClosed]) = true /\
  timers first !! 6%nat = Some TIdle.
Proof. repeat split; vm_compute; reflexivity. Qed.

(** Each stream binds the alarm buttons once more: a click sends as many requests,
    each aborting the one before. *)
Example alarm_sent_twice :
  List.filter (fun e => match e with MonitorStream.AlarmRequest _ _ | MonitorStream.AbortRequest => true | _ => false end)
    (ask [] MonitorStream.out (demo_at false [CycleNext; ForceClick])) =
  [MonitorStream.AlarmRequest (Some "500000") "forceAlarm"; MonitorStream.AbortRequest;
   MonitorStream.AlarmRequest (Some "500000") "forceAlarm"].
Proof. vm_compute. reflexivity. Qed.


(** The reconnect of an img outlives its stream: a zms is opened for a monitor the
    page has gone on from, under a key that nobody will tell to quit. *)
Example replaced_stream_reconnects :
  let s := demo_at false [Own 0 MonitorStream.ElementError; CycleNext; Own 0 (MonitorStream.Fire 2 (Fin 0) "");
                          Own 0 (MonitorStream.AuthDone (Fin 0) None "/zm/cgi-bin/nph-zms?monitor=7&connkey=500000&scale=100&mode=jpeg")] in
  exists sl, streams s !! 0%nat = Some sl /\ (1 < length (streams s))%nat /\ MonitorStream.isActive (s_stream sl) = false /\
    last (MonitorStream.out (s_stream sl)) =
      Some (MonitorStream.OpenSrc "/zm/cgi-bin/nph-zms?monitor=7&connkey=000001&scale=100&mode=jpeg" (Some "000001")).
Proof.
  eexists. split; [vm_compute; reflexivity|]. split; [apply Nat.ltb_lt; vm_compute; reflexivity|]. split; vm_compute; reflexivity.
Qed.

(** A page opened in a background tab that is frozen before it is ever shown
    forgets the play it had put off, and shows a stopped stream. *)
Example background_tab_stays_stopped :
  let r := demo_request true in
  let hidden_request := Request 0 true 2 true (r_players r) (r_player r) (r_channels r) (r_channel r) "0" "0" "" "" false false "" in
  let at_start := default (demo_at true []) (reached demo_cfg demo_view hidden_request []) in
  let s := default at_start (run demo_cfg at_start (at_view [Freeze; Resume; Visibility false])) in
  prevStateStarted at_start = Some Played /\ ask true MonitorStream.started s = false /\ hidden s = false.
Proof. split; [vm_compute; reflexivity|]. split; vm_compute; reflexivity. Qed.
End Tour.
