(* ===== verification/ZmsHints.v ===== *)
(** web/skins/classic/views/js/event-zms-hints.js: which event comes before and
    after the one zms is playing, as the event page keeps it and sends it to zms.

    [Hints] is the object that create() returns: its variables are the [state]
    and each method is a function on it.  [now] is Date.now(), an integer of
    milliseconds; event ids are what parseInt returned, so they may be NaN, which
    equals nothing.  [Wire] puts the object next to the network and to zms: the
    commands take() hands out are sent as separate requests, which reach zms and
    are answered in any order. *)
From S2P Require Import JsString.

Module Hints.

Definition BOUNDARY_REFRESH_MS : Z := 5000.
Definition LOOKUP_RETRY_MS : Z := 2000.
Definition LOOKUP_TIMEOUT_MS : Z := 5000.

Inductive progress := Unsent | Sending | Sent.
#[export] Instance progress_eq_dec : EqDecision progress.
Proof. solve_decision. Defined.

Record hints_t := Neighbours {
  src : num; next : num; prev : num; fetched : Z;
  state_ : progress; batch : Z; inflight : Z; failed : bool;
}.
#[export] Instance eta_hints : Eta hints_t := fun h =>
  Neighbours (src h) (next h) (prev h) (fetched h) (state_ h) (batch h) (inflight h) (failed h).

Record lookup_t := Lookup { l_src : num; at_ : Z; pending : bool; id : Z }.
#[export] Instance eta_lookup : Eta lookup_t := fun l => Lookup (l_src l) (at_ l) (pending l) (id l).

Record state := State {
  hints : option hints_t;
  lookup : option lookup_t;
  lookups : Z;
  batches : Z;
  unanswered : gmap Z Z;
}.
#[export] Instance eta_state : Eta state := fun s =>
  State (hints s) (lookup s) (lookups s) (batches s) (unanswered s).

Definition create : state := State None None 0 0 ∅.

Definition set (src_ next_ prev_ : num) (now : Z) (s : state) : state :=
  let fresh := Neighbours src_ next_ prev_ now Unsent 0 0 false in
  match hints s with
  | Some h =>
      if (src h =? src_)%num && (next h =? next_)%num && (prev h =? prev_)%num
      then s <| hints := Some (h <| fetched := now |>) |>
      else s <| hints := Some fresh |>
  | None => s <| hints := Some fresh |>
  end.

Record command := Command { dir : Z; eventid : num; srcid : num; cbatch : Z }.

Definition take (current : num) (s : state) : list command * state :=
  match hints s with
  | Some h =>
      if negb (src h =? current)%num || negb (bool_decide (state_ h = Unsent))
         || negb (bool_decide (unanswered s = ∅))
      then ([], s)
      else
        let b := batches s + 1 in
        let h := h <| state_ := Sending |> <| batch := b |> <| inflight := 2 |> <| failed := false |> in
        ([Command 0 (next h) (src h) b; Command 1 (prev h) (src h) b],
         s <| batches := b |> <| unanswered := <[b := 2]> (unanswered s) |> <| hints := Some h |>)
  | None => ([], s)
  end.

(** What response() does to the map of unanswered commands. *)
Definition answered (b : Z) (m : gmap Z Z) : gmap Z Z :=
  match m !! b with
  | Some n => if n - 1 >? 0 then <[b := n - 1]> m else delete b m
  | None => m
  end.

Definition response (b : Z) (delivered : bool) (s : state) : state :=
  let s := s <| unanswered := answered b (unanswered s) |> in
  match hints s with
  | Some h =>
      if negb (batch h =? b) || negb (bool_decide (state_ h = Sending)) then s
      else
        let h := if delivered then h else h <| failed := true |> in
        let h := h <| inflight := inflight h - 1 |> in
        if inflight h >? 0 then s <| hints := Some h |>
        else s <| hints := Some (h <| state_ := if failed h then Unsent else Sent |>) |>
  | None => s
  end.

Definition reset (s : state) : state :=
  let s := s <| unanswered := ∅ |> in
  match hints s with
  | Some h => s <| hints := Some (h <| state_ := Unsent |> <| batch := 0 |>) |>
  | None => s
  end.

Definition needsLookup (current : num) (reverse : bool) (now : Z) (paused : bool) (s : state) : bool :=
  let same := match lookup s with Some l => (l_src l =? current)%num | None => false end in
  let at_lookup := match lookup s with Some l => at_ l | None => 0 end in
  let is_pending := match lookup s with Some l => pending l | None => false end in
  if same && is_pending && (now - at_lookup <? LOOKUP_TIMEOUT_MS) then false
  else
    match hints s with
    | Some h =>
        if negb (src h =? current)%num then negb same || (now - at_lookup >=? LOOKUP_RETRY_MS)
        else if negb paused && negb ((if reverse then prev h else next h) =? Fin 0)%num then false
        else
          let asked := if same then Z.max at_lookup (fetched h) else fetched h in
          now - asked >=? BOUNDARY_REFRESH_MS
    | None => negb same || (now - at_lookup >=? LOOKUP_RETRY_MS)
    end.

Definition lookingUp (src_ : num) (now : Z) (s : state) : Z * state :=
  let n := lookups s + 1 in
  (n, s <| lookups := n |> <| lookup := Some (Lookup src_ now true n) |>).

Definition isLatestLookup (n : Z) (s : state) : bool :=
  match lookup s with Some l => id l =? n | None => false end.

Definition lookupDone (n : Z) (s : state) : state :=
  match lookup s with
  | Some l => if id l =? n then s <| lookup := Some (l <| pending := false |>) |> else s
  | None => s
  end.

End Hints.

Module Wire.
Import Hints.

(** A request that carries one command to the zms process that was running when
    it was sent, and whether it got there. *)
Record flight := Flight { cmd : command; to : nat; reached : bool }.
#[export] Instance eta_flight : Eta flight := fun f => Flight (cmd f) (to f) (reached f).

(** The object, the requests under way, the number of zms processes before this
    one, the command each direction of this zms was last given, and the commands
    the server refused. *)
Record sys := Sys {
  page : Hints.state; net : list flight; proc : nat; held : gmap Z command; refused : list command;
}.
#[export] Instance eta_sys : Eta sys := fun s => Sys (page s) (net s) (proc s) (held s) (refused s).

Definition init : sys := Sys create [] 0 ∅ [].

(** What a request comes back with: zms took the command, the server turned it
    down for good, or it is unknown whether it arrived. *)
Inductive verdict := Delivered | Refused | Failed.
#[export] Instance verdict_eq_dec : EqDecision verdict.
Proof. solve_decision. Defined.

Inductive action :=
| ASet (src next prev : num) (now : Z)
| ATake (current : num)
| AReset
| ALookup (src : num) (now : Z)
| ALookupDone (n : Z)
| AReach (k : nat)
| AAnswer (k : nat) (v : verdict).

(** A restarted zms is a new process: what is still under way was sent to the
    old one.  An answer is [Delivered] only once zms has the command. *)
Definition act (s : sys) (a : action) : sys :=
  match a with
  | ASet src next prev now => s <| page := set src next prev now (page s) |>
  | ATake current =>
      let '(cs, p) := take current (page s) in
      s <| page := p |> <| net := (net s ++ map (fun c => Flight c (proc s) false) cs)%list |>
  | AReset => s <| page := reset (page s) |> <| proc := S (proc s) |> <| held := ∅ |>
  | ALookup src now => s <| page := snd (lookingUp src now (page s)) |>
  | ALookupDone n => s <| page := lookupDone n (page s) |>
  | AReach k =>
      match net s !! k with
      | Some f =>
          s <| net := <[k := f <| reached := true |>]> (net s) |>
            <| held := if bool_decide (to f = proc s) then <[dir (cmd f) := cmd f]> (held s) else held s |>
      | None => s
      end
  | AAnswer k v =>
      match net s !! k with
      | Some f =>
          if bool_decide (v = Delivered) && negb (reached f) then s
          else
            s <| net := delete k (net s) |>
              <| page := response (cbatch (cmd f)) (negb (bool_decide (v = Failed))) (page s) |>
              <| refused := if bool_decide (v = Refused) then cmd f :: refused s else refused s |>
      | None => s
      end
  end.

Definition run (acts : list action) (s : sys) : sys := fold_left act acts s.

(** The two commands of a batch. *)
Definition commands (h : hints_t) : list command :=
  [Command 0 (next h) (src h) (batch h); Command 1 (prev h) (src h) (batch h)].

(** The requests under way to the zms that is running. *)
Definition ours (s : sys) : list flight := filter (fun f => to f = proc s) (net s).

Definition settled (s : sys) (c : command) : Prop := held s !! dir c = Some c \/ c ∈ refused s.

(** ** The invariant *)

Definition hint_ok (s : sys) (h : hints_t) : Prop :=
  match state_ h with
  | Unsent => True
  | Sending =>
      unanswered (page s) = {[batch h := inflight h]} /\
      (forall f, f ∈ ours s -> cmd f ∈ commands h /\ (reached f = true -> held s !! dir (cmd f) = Some (cmd f))) /\
      (failed h = false -> forall c, c ∈ commands h -> settled s c \/ exists f, f ∈ ours s /\ cmd f = c)
  | Sent => unanswered (page s) = ∅ /\ forall c, c ∈ commands h -> settled s c
  end.

Definition flight_ok (s : sys) (f : flight) : Prop :=
  (to f <= proc s)%nat /\ 0 < cbatch (cmd f) <= batches (page s) /\
  ((to f < proc s)%nat -> unanswered (page s) !! cbatch (cmd f) = None).

Definition pending_ok (s : sys) : Prop :=
  (unanswered (page s) = ∅ /\ ours s = []) \/
  exists b n, unanswered (page s) = {[b := n]} /\ b <= batches (page s) /\ n = Z.of_nat (length (ours s)) /\ 1 <= n <= 2 /\
    forall f, f ∈ ours s -> cbatch (cmd f) = b.

Record inv (s : sys) : Prop := {
  inv_nonneg : 0 <= batches (page s);
  inv_flights : forall f, f ∈ net s -> flight_ok s f;
  inv_pending : pending_ok s;
  inv_hints : forall h, hints (page s) = Some h -> hint_ok s h;
}.

Lemma commands_elem h c : c ∈ commands h <->
  c = Command 0 (next h) (src h) (batch h) \/ c = Command 1 (prev h) (src h) (batch h).
Proof.
  unfold commands. rewrite !elem_of_cons. pose proof (not_elem_of_nil c). tauto.
Qed.

Lemma commands_dir h c c' : c ∈ commands h -> c' ∈ commands h -> dir c = dir c' -> c = c'.
Proof. rewrite !commands_elem. intros [->| ->] [->| ->] E; first [reflexivity|discriminate E]. Qed.

Lemma ours_elem s f : f ∈ ours s <-> to f = proc s /\ f ∈ net s.
Proof. unfold ours. rewrite list_elem_of_filter. reflexivity. Qed.

Lemma idle_pending s : pending_ok s -> unanswered (page s) = ∅ -> ours s = [].
Proof.
  intros H Eu. destruct H as [[_ E]|(b & n & E & _)]; [exact E|]. exfalso.
  rewrite Eu in E. symmetry in E. exact (map_non_empty_singleton _ _ E).
Qed.

Lemma inv_init : inv init.
Proof. split; [fields; lia|intros f H; inversion H|left; split; reflexivity|discriminate]. Qed.

(** A step that changes neither the requests nor what they are waited for. *)
Lemma inv_page s p : inv s -> batches p = batches (page s) -> unanswered p = unanswered (page s) ->
  (forall h, hints p = Some h -> state_ h = Unsent \/
     exists h', hints (page s) = Some h' /\ state_ h = state_ h' /\ commands h = commands h' /\ batch h = batch h' /\
       inflight h = inflight h' /\ failed h = failed h') ->
  inv (s <| page := p |>).
Proof.
  intros [Hn Hf Hp Hh] Eb Eu E. split.
  - fields. lia.
  - intros f Hin. unfold flight_ok. fields. rewrite Eb, Eu. exact (Hf f Hin).
  - unfold pending_ok, ours. fields. rewrite Eu, Eb. exact Hp.
  - intros h Eh. unfold hint_ok. unfold upd in Eh; cbn in Eh. fields.
    destruct (E h Eh) as [->|(h' & Eh' & -> & Ec & E1 & E2 & E3)]; [exact I|].
    specialize (Hh h' Eh'). unfold hint_ok, ours, settled in *. fields. rewrite Eu, Ec, E1, E2, E3. exact Hh.
Qed.

Lemma inv_set src next prev now s : inv s -> inv (act s (ASet src next prev now)).
Proof.
  intros H. cbn [act]. apply inv_page; [exact H| | |]; unfold set; repeat case_match; try reflexivity;
    fields; intros h' [= <-]; try (left; reflexivity).
  right. eexists. repeat split; eassumption || reflexivity.
Qed.

Lemma inv_take current s : inv s -> inv (act s (ATake current)).
Proof.
  intros H. cbn [act]. unfold take.
  destruct (hints (page s)) as [h|] eqn:Eh; [|fields; rewrite app_nil_r; destruct s; exact H].
  destruct (negb (src h =? current)%num || _ || _) eqn:C; [fields; rewrite app_nil_r; destruct s; exact H|].
  bool_to_prop. destruct H as [Hn Hf Hp _].
  match goal with X : unanswered _ = ∅ |- _ => rename X into Eu end.
  assert (Eo : ours s = []) by (apply idle_pending; assumption).
  set (b := batches (page s) + 1).
  assert (Fresh : forall f, f ∈ net s -> cbatch (cmd f) <> b) by (intros f Hin; destruct (Hf f Hin) as (_ & ? & _); lia).
  assert (Eo' : filter (fun f => to f = proc s) (net s ++ [Flight (Command 0 (next h) (src h) b) (proc s) false;
      Flight (Command 1 (prev h) (src h) b) (proc s) false])%list
    = [Flight (Command 0 (next h) (src h) b) (proc s) false; Flight (Command 1 (prev h) (src h) b) (proc s) false]).
  { rewrite filter_app. fold (ours s). rewrite Eo, app_nil_l. rewrite !filter_cons_True by reflexivity. reflexivity. }
  split.
  - fields. lia.
  - intros f. fields. intros Hin. apply elem_of_app in Hin. unfold flight_ok. fields.
    destruct Hin as [Hin|Hin].
    + destruct (Hf f Hin) as (T1 & T2 & T3). repeat split; [exact T1|lia|lia|].
      intros Hlt. rewrite lookup_insert_ne by (intros E; exact (Fresh f Hin (eq_sym E))). exact (T3 Hlt).
    + cbn in Hin. rewrite !elem_of_cons in Hin. destruct Hin as [->|[->|Hin]]; [| |inversion Hin]; fields; repeat split; lia.
  - right. exists b, 2. unfold ours. fields. rewrite Eo', Eu. repeat split; try lia.
    intros f. rewrite !elem_of_cons. intros [->|[->|Hin]]; [reflexivity|reflexivity|inversion Hin].
  - intros h' [= <-]. unfold hint_ok, ours, settled. fields. rewrite Eo', Eu. split; [reflexivity|]. split.
    + intros f. rewrite !elem_of_cons. intros [->|[->|Hin]]; [| |inversion Hin]; fields;
        (split; [rewrite commands_elem; tauto|discriminate]).
    + intros _ c. rewrite commands_elem. fields. intros [->| ->]; right;
        [exists (Flight (Command 0 (next h) (src h) b) (proc s) false)|exists (Flight (Command 1 (prev h) (src h) b) (proc s) false)];
        rewrite !elem_of_cons; tauto.
Qed.

Lemma inv_reset s : inv s -> inv (act s AReset).
Proof.
  intros [Hn Hf Hp Hh].
  assert (T : forall f, f ∈ net s -> (to f < S (proc s))%nat) by (intros f Hin; destruct (Hf f Hin) as (? & _); lia).
  assert (E : forall p, batches p = batches (page s) -> unanswered p = ∅ ->
     (forall h, hints p = Some h -> state_ h = Unsent) -> inv (s <| page := p |> <| proc := S (proc s) |> <| held := ∅ |>)).
  { intros p Eb Eu Es. split.
    - fields. lia.
    - intros f Hin. unfold flight_ok. fields. rewrite Eb, Eu. destruct (Hf f Hin) as (? & ? & _). repeat split; try lia.
    - left. split; [exact Eu|]. unfold ours. fields. apply filter_none. intros f Hin. specialize (T f Hin). lia.
    - intros h Eh. unfold hint_ok. rewrite (Es h Eh). exact I. }
  cbn [act]. unfold reset. apply E; fields; destruct (hints (page s)) as [h|]; try reflexivity; fields; [intros h' [= <-]; reflexivity|discriminate].
Qed.

(** What reaching zms and being answered do to the requests under way. *)
Lemma ours_reach s k f : net s !! k = Some f ->
  let s' := act s (AReach k) in
  length (ours s') = length (ours s) /\
  (forall g, g ∈ net s' -> exists g', g' ∈ net s /\ to g = to g' /\ cmd g = cmd g' /\ (g = g' \/ g' = f)) /\
  (forall g, g ∈ ours s -> exists g', g' ∈ ours s' /\ cmd g' = cmd g).
Proof.
  intros E s'. destruct (lookup_split _ _ _ E) as (ys & zs & En & _ & Ei).
  assert (En' : net s' = (ys ++ f <| reached := true |> :: zs)%list)
    by (unfold s'; cbn [act]; rewrite E; fields; apply Ei).
  assert (Ep : proc s' = proc s) by (unfold s'; cbn [act]; rewrite E; reflexivity).
  repeat split.
  - unfold ours. rewrite Ep, En, En', !filter_app, !length_app, !filter_cons. fields.
    destruct (decide (to f = proc s)); reflexivity.
  - intros g. rewrite En', elem_of_app, elem_of_cons. intros [Hg|[->|Hg]].
    + exists g. rewrite En, elem_of_app. tauto.
    + exists f. rewrite En, elem_of_app, elem_of_cons. tauto.
    + exists g. rewrite En, elem_of_app, elem_of_cons. tauto.
  - intros g. rewrite ours_elem, En, elem_of_app, elem_of_cons. intros [Et Hg].
    destruct Hg as [Hg|[->|Hg]].
    + exists g. rewrite ours_elem, Ep, En', elem_of_app. tauto.
    + exists (f <| reached := true |>). rewrite ours_elem, Ep, En', elem_of_app, elem_of_cons. tauto.
    + exists g. rewrite ours_elem, Ep, En', elem_of_app, elem_of_cons. tauto.
Qed.

Lemma inv_reach k s : inv s -> inv (act s (AReach k)).
Proof.
  intros H. destruct (net s !! k) as [f|] eqn:E; [|cbn [act]; rewrite E; exact H].
  destruct (ours_reach s k f E) as (L & N & O). revert L N O.
  assert (Pg : page (act s (AReach k)) = page s) by (cbn [act]; rewrite E; reflexivity).
  assert (Pr : proc (act s (AReach k)) = proc s) by (cbn [act]; rewrite E; reflexivity).
  assert (Rf : refused (act s (AReach k)) = refused s) by (cbn [act]; rewrite E; reflexivity).
  assert (Hd : held (act s (AReach k)) = if bool_decide (to f = proc s) then <[dir (cmd f) := cmd f]> (held s) else held s)
    by (cbn [act]; rewrite E; reflexivity).
  assert (Fin : f ∈ net s) by (apply (list_elem_of_lookup_2 _ _ _ E)).
  set (s' := act s (AReach k)) in *. intros L N O.
  destruct H as [Hn Hf Hp Hh]. split.
  - rewrite Pg. exact Hn.
  - intros g Hg. destruct (N g Hg) as (g' & Hg' & Et & Ec & _). unfold flight_ok. rewrite Pg, Pr, Et, Ec. exact (Hf g' Hg').
  - unfold pending_ok. rewrite Pg. destruct Hp as [[Eu Eo]|(b & n & Eu & Hb & El & Hr & Hc)].
    + left. split; [exact Eu|]. rewrite Eo in L. destruct (ours s'); [reflexivity|discriminate].
    + right. exists b, n. rewrite L. repeat split; try assumption; try lia.
      intros g. rewrite ours_elem. intros [Et Hg]. destruct (N g Hg) as (g' & Hg' & Et' & Ec & _).
      rewrite Ec. apply Hc. rewrite ours_elem. split; congruence.
  - intros h Eh. rewrite Pg in Eh. specialize (Hh h Eh). unfold hint_ok in *. rewrite Pg.
    assert (Keep : forall c, c ∈ commands h -> (to f = proc s -> cmd f ∈ commands h) ->
        held s !! dir c = Some c -> held s' !! dir c = Some c).
    { intros c Hc Hcf Hs. rewrite Hd. case_bool_decide as T; [|exact Hs].
      destruct (decide (dir (cmd f) = dir c)) as [D|D]; [|rewrite lookup_insert_ne by exact D; exact Hs].
      rewrite (commands_dir h _ _ (Hcf T) Hc D), lookup_insert_eq. reflexivity. }
    destruct (state_ h); [exact I| |].
    + destruct Hh as (Eu & Hc & Hs).
      assert (Cf : to f = proc s -> cmd f ∈ commands h) by (intros T; apply Hc; rewrite ours_elem; auto).
      split; [exact Eu|]. split.
      * intros g. rewrite ours_elem. intros [Et Hg]. destruct (N g Hg) as (g' & Hg' & Et' & Ec & Eg).
        assert (Og : g' ∈ ours s) by (rewrite ours_elem; split; congruence). destruct (Hc g' Og) as (C1 & C2).
        rewrite Ec. split; [exact C1|]. intros R. destruct Eg as [->| ->].
        -- apply Keep; auto.
        -- rewrite Hd, bool_decide_true by congruence. apply lookup_insert_eq.
      * intros Ef c Hcc. destruct (Hs Ef c Hcc) as [[S|S]|(g & Og & Eg)].
        -- left. left. apply Keep; auto.
        -- left. right. rewrite Rf. exact S.
        -- right. destruct (O g Og) as (g' & Og' & Eg'). exists g'. split; congruence.
    + destruct Hh as (Eu & Hs). split; [exact Eu|]. intros c Hcc. destruct (Hs c Hcc) as [S|S].
      * left. apply Keep; auto. intros T. exfalso.
        assert (In : f ∈ ours s) by (rewrite ours_elem; auto).
        rewrite (idle_pending s Hp Eu) in In. inversion In.
      * right. rewrite Rf. exact S.
Qed.

(** ** An answer *)

Lemma answered_None b m : m !! b = None -> answered b m = m.
Proof. unfold answered. intros ->. reflexivity. Qed.

Lemma answered_singleton b n : 1 <= n <= 2 ->
  answered b {[b := n]} = if n =? 1 then ∅ else {[b := n - 1]}.
Proof.
  intros Hn. unfold answered. rewrite lookup_singleton_eq. destruct (n - 1 >? 0) eqn:E.
  - rewrite Z.gtb_ltb in E. bool_to_prop. destruct (n =? 1) eqn:E1; bool_to_prop; [lia|]. apply insert_singleton_eq.
  - rewrite Z.gtb_ltb in E. bool_to_prop. destruct (n =? 1) eqn:E1; bool_to_prop; [|lia]. apply delete_singleton_eq.
Qed.

(** What is left of the object: the hints' fields response() keeps. *)
Lemma response_hints b d p h' : hints (response b d p) = Some h' ->
  exists h, hints p = Some h /\
    ((h' = h /\ (batch h <> b \/ state_ h <> Sending)) \/
     (batch h = b /\ state_ h = Sending /\ commands h' = commands h /\ batch h' = batch h /\
      inflight h' = inflight h - 1 /\ failed h' = (if d then failed h else true) /\
      state_ h' = if inflight h - 1 >? 0 then Sending else if failed h' then Unsent else Sent)).
Proof.
  unfold response. fields. intros H. destruct (hints p) as [h|]; [|discriminate]. exists h. split; [reflexivity|].
  destruct (negb (batch h =? b) || negb (bool_decide (state_ h = Sending))) eqn:C.
  - injection H as <-. left. split; [reflexivity|]. apply orb_true_iff in C. bool_to_prop.
    destruct C; bool_to_prop; tauto.
  - bool_to_prop. right. destruct d; revert H; fields; destruct (inflight h - 1 >? 0); intros [= <-]; repeat split; assumption || reflexivity.
Qed.

Lemma response_other b d p : batches (response b d p) = batches p /\ unanswered (response b d p) = answered b (unanswered p).
Proof. unfold response. repeat case_match; split; reflexivity. Qed.

(** The state after an answer, by its parts. *)
Section Answer.
Variables (s : sys) (k : nat) (v : verdict) (f : flight).
Hypothesis (Hinv : inv s) (Hk : net s !! k = Some f) (Hv : v = Delivered -> reached f = true).

Let s' := act s (AAnswer k v).
Let d := negb (bool_decide (v = Failed)).

Lemma answer_parts :
  page s' = response (cbatch (cmd f)) d (page s) /\ proc s' = proc s /\ held s' = held s /\
  refused s' = (if bool_decide (v = Refused) then cmd f :: refused s else refused s) /\ net s' = delete k (net s).
Proof.
  unfold s', d. cbn [act]. rewrite Hk. case_bool_decide as E; [rewrite (Hv E)|]; cbn; repeat split; reflexivity.
Qed.

Lemma answer_net g : g ∈ net s' -> g ∈ net s.
Proof. destruct answer_parts as (_ & _ & _ & _ & ->). apply list_elem_of_delete_inv. Qed.

Lemma answer_ours g : g ∈ ours s' -> g ∈ ours s.
Proof.
  rewrite !ours_elem. destruct answer_parts as (_ & -> & _). intros [? ?%answer_net]. auto.
Qed.

(** Only the request that was answered is gone. *)
Lemma answer_keeps g : g ∈ ours s -> g ∈ ours s' \/ g = f.
Proof.
  rewrite !ours_elem. destruct answer_parts as (_ & -> & _ & _ & ->). intros [Et Hg].
  destruct (lookup_split _ _ _ Hk) as (ys & zs & En & E & _).
  rewrite E, elem_of_app. rewrite En, elem_of_app, elem_of_cons in Hg. tauto.
Qed.

Lemma answer_length : length (ours s) = (length (ours s') + if bool_decide (to f = proc s) then 1 else 0)%nat.
Proof.
  unfold ours. destruct answer_parts as (_ & -> & _ & _ & ->).
  destruct (lookup_split _ _ _ Hk) as (ys & zs & -> & -> & _).
  rewrite !filter_app, !length_app, filter_cons. case_bool_decide; [rewrite decide_True by assumption|rewrite decide_False by assumption]; cbn; lia.
Qed.

Lemma answer_settled c : settled s c -> settled s' c.
Proof.
  unfold settled. destruct answer_parts as (_ & _ & -> & -> & _). intros [H|H]; [tauto|].
  right. case_bool_decide; [apply list_elem_of_further|]; exact H.
Qed.

Lemma f_in : f ∈ net s.
Proof. apply (list_elem_of_lookup_2 _ _ _ Hk). Qed.

Lemma answer_flights g : g ∈ net s' -> flight_ok s' g.
Proof.
  intros Hg. destruct (inv_flights s Hinv g (answer_net g Hg)) as (T1 & T2 & T3). unfold flight_ok.
  destruct answer_parts as (-> & -> & _). destruct (response_other (cbatch (cmd f)) d (page s)) as (-> & ->).
  repeat split; try lia. intros Hlt. specialize (T3 Hlt). unfold answered.
  destruct (unanswered (page s) !! cbatch (cmd f)) as [n|] eqn:En; [|exact T3].
  destruct (decide (cbatch (cmd f) = cbatch (cmd g))) as [E|E]; [congruence|].
  destruct (n - 1 >? 0); [rewrite lookup_insert_ne by exact E|rewrite lookup_delete_ne by exact E]; exact T3.
Qed.

(** A request to the process before this one is not waited for. *)
Lemma answer_old : to f <> proc s -> unanswered (page s) !! cbatch (cmd f) = None.
Proof. intros Ht. destruct (inv_flights s Hinv f f_in) as (T1 & _ & T3). apply T3. lia. Qed.

Lemma answer_new : to f = proc s -> exists n, unanswered (page s) = {[cbatch (cmd f) := n]} /\ 1 <= n <= 2 /\
  cbatch (cmd f) <= batches (page s) /\ n = Z.of_nat (length (ours s)).
Proof.
  intros Ht. assert (O : f ∈ ours s) by (rewrite ours_elem; split; [exact Ht|apply f_in]).
  destruct (inv_pending s Hinv) as [[_ E]|(b & n & E & Hb & Hl & Hn & Hc)]; [rewrite E in O; inversion O|].
  exists n. rewrite (Hc f O). repeat split; (assumption || lia).
Qed.

Lemma answer_pending : pending_ok s'.
Proof.
  pose proof answer_length as L. destruct answer_parts as (Ep & Er & _).
  unfold pending_ok. rewrite Ep. destruct (response_other (cbatch (cmd f)) d (page s)) as (-> & ->).
  case_bool_decide as Ht.
  - destruct (answer_new Ht) as (n & Eu & Hn & Hb & Hl). rewrite Eu, answered_singleton by exact Hn.
    destruct (n =? 1) eqn:E1; bool_to_prop.
    + left. split; [reflexivity|]. destruct (ours s'); [reflexivity|cbn in L; lia].
    + right. exists (cbatch (cmd f)), (n - 1). repeat split; try lia; try assumption.
      intros g Hg. destruct (inv_pending s Hinv) as [[_ E]|(b & m & E & _ & _ & _ & Hc)].
      * specialize (answer_ours g Hg). rewrite E. intros X. inversion X.
      * rewrite (Hc g (answer_ours g Hg)). symmetry. apply Hc. rewrite ours_elem. split; [exact Ht|apply f_in].
  - rewrite answered_None by (apply answer_old, Ht).
    destruct (inv_pending s Hinv) as [[E1 E2]|(b & n & E1 & Hb & Hl & Hn & Hc)].
    + left. split; [exact E1|]. rewrite E2 in L. destruct (ours s'); [reflexivity|discriminate].
    + right. exists b, n. repeat split; try assumption; try lia. intros g Hg. apply Hc, answer_ours, Hg.
Qed.
Lemma answer_settles : d = true ->
  (reached f = true -> held s !! dir (cmd f) = Some (cmd f)) -> settled s' (cmd f).
Proof.
  intros Hd Hr. unfold settled. destruct answer_parts as (_ & _ & -> & -> & _). unfold d in Hd.
  destruct v; [left; apply Hr, Hv; reflexivity|right|discriminate Hd].
  rewrite bool_decide_true by reflexivity. apply list_elem_of_here.
Qed.

Lemma answer_hints h' : hints (page s') = Some h' -> hint_ok s' h'.
Proof.
  unfold hint_ok at 1. destruct answer_parts as (Ep & Er & _). rewrite Ep.
  destruct (response_other (cbatch (cmd f)) d (page s)) as (_ & Eu'). rewrite Eu'.
  intros Eh'. destruct (response_hints _ _ _ _ Eh') as (h & Eh & Cs).
  pose proof (inv_hints s Hinv h Eh) as Hh. unfold hint_ok in Hh.
  destruct Cs as [(-> & Cn)|(Eb & Es & Ec & Eb' & Ei & Ef & Est)].
  - destruct (state_ h); [exact I| |].
    + destruct Hh as (Eu & Hc & Hs). destruct Cn as [Cn|Cn]; [|congruence].
      assert (Nf : to f <> proc s).
      { intros Ht. destruct (answer_new Ht) as (n & Eu2 & _). rewrite Eu in Eu2.
        apply map_singleton_inj in Eu2. tauto. }
      rewrite answered_None by (apply answer_old, Nf). split; [exact Eu|]. split.
      * intros g Hg. destruct (Hc g (answer_ours g Hg)) as (C1 & C2). split; [exact C1|].
        destruct answer_parts as (_ & _ & -> & _). exact C2.
      * intros Hf c Hcc. destruct (Hs Hf c Hcc) as [S|(g & Og & Eg)]; [left; apply answer_settled, S|].
        right. destruct (answer_keeps g Og) as [K| ->]; [exists g; auto|].
        exfalso. apply Nf. rewrite ours_elem in Og. apply Og.
    + destruct Hh as (Eu & Hs). rewrite Eu. split; [reflexivity|]. intros c Hcc. apply answer_settled, Hs, Hcc.
  - rewrite Es in Hh. destruct Hh as (Eu & Hc & Hs).
    assert (Ht : to f = proc s).
    { destruct (decide (to f = proc s)) as [E|E]; [exact E|]. exfalso.
      pose proof (answer_old E) as N. rewrite Eu, Eb, lookup_singleton_eq in N. discriminate. }
    destruct (answer_new Ht) as (n & Eu2 & Hn & _ & Hl). rewrite Eu, Eb in Eu2. apply map_singleton_inj in Eu2.
    destruct Eu2 as (_ & En). rewrite Eu, Eb, answered_singleton by lia.
    assert (Of : f ∈ ours s) by (rewrite ours_elem; split; [exact Ht|apply f_in]).
    assert (Hs' : failed h' = false -> forall c, c ∈ commands h -> settled s' c \/ exists g, g ∈ ours s' /\ cmd g = c).
    { intros Hf c Hcc. rewrite Ef in Hf. destruct d eqn:Ed; [|discriminate].
      destruct (Hs Hf c Hcc) as [S|(g & Og & Eg)]; [left; apply answer_settled, S|].
      destruct (answer_keeps g Og) as [K| ->]; [right; exists g; auto|]. left. rewrite <- Eg.
      apply (answer_settles Ed), (Hc f Of). }
    pose proof answer_length as L. rewrite bool_decide_true in L by exact Ht.
    rewrite Est, Ec. destruct (inflight h - 1 >? 0) eqn:E1; rewrite Z.gtb_ltb in E1; bool_to_prop.
    + destruct (inflight h =? 1) eqn:E2; bool_to_prop; [lia|]. rewrite Eb', Eb, Ei. split; [reflexivity|]. split; [|exact Hs'].
      intros g Hg. destruct (Hc g (answer_ours g Hg)) as (C1 & C2). split; [exact C1|].
      destruct answer_parts as (_ & _ & -> & _). exact C2.
    + destruct (inflight h =? 1) eqn:E2; bool_to_prop; [|lia].
      destruct (failed h') eqn:Ef'; [exact I|]. split; [reflexivity|]. intros c Hcc.
      destruct (Hs' eq_refl c Hcc) as [S|(g & Og & _)]; [exact S|].
      assert (Z0 : length (ours s') = 0%nat) by lia. apply nil_length_inv in Z0. rewrite Z0 in Og. inversion Og.
Qed.
End Answer.

Lemma inv_answer k v s : inv s -> inv (act s (AAnswer k v)).
Proof.
  intros H. destruct (net s !! k) as [f|] eqn:E; [|cbn [act]; rewrite E; exact H].
  destruct (bool_decide (v = Delivered) && negb (reached f)) eqn:C; [cbn [act]; rewrite E, C; exact H|].
  assert (Hv : v = Delivered -> reached f = true).
  { intros ->. rewrite bool_decide_true in C by reflexivity. bool_to_prop. destruct (reached f); [reflexivity|discriminate]. }
  split.
  - destruct (answer_parts s k v f E Hv) as (-> & _). destruct (response_other (cbatch (cmd f)) (negb (bool_decide (v = Failed))) (page s)) as (-> & _).
    apply inv_nonneg, H.
  - intros g. apply (answer_flights s k v f H E Hv).
  - apply (answer_pending s k v f H E Hv).
  - intros h. apply (answer_hints s k v f H E Hv).
Qed.

Lemma inv_act s a : inv s -> inv (act s a).
Proof.
  intros H. destruct a; auto using inv_set, inv_take, inv_reset, inv_reach, inv_answer.
  - apply inv_page; [exact H|reflexivity|reflexivity|]. fields. intros h Eh. right. exists h. auto 10.
  - apply inv_page; [exact H| | |]; unfold lookupDone; destruct (lookup (page s)) as [l|]; try reflexivity;
      try (destruct (id l =? n); reflexivity); fields; intros h Eh; right; exists h;
      [destruct (id l =? n)|]; auto 10.
Qed.

Lemma inv_run acts s : inv s -> inv (run acts s).
Proof. revert s. induction acts as [|a acts IH]; intros s H; [exact H|]. apply IH, inv_act, H. Qed.

Lemma inv_reachable acts : inv (run acts init).
Proof. apply inv_run, inv_init. Qed.

(** ** What the object promises *)

Lemma inv_sent s h c : inv s -> hints (page s) = Some h -> state_ h = Sent -> c ∈ commands h -> settled s c.
Proof. intros H Eh Es. pose proof (inv_hints s H h Eh) as Hh. unfold hint_ok in Hh. rewrite Es in Hh. apply Hh. Qed.

(** However requests and answers are delayed, reordered and lost, and however
    often zms is restarted, once the hints count as sent the zms that is running
    holds exactly the next and the previous event they name, each unless the
    server refused that very command. *)
Theorem sent_hints_held (acts : list action) (h : hints_t) (c : command) :
  let s := run acts init in
  hints (page s) = Some h -> state_ h = Sent -> c ∈ commands h ->
  held s !! dir c = Some c \/ c ∈ refused s.
Proof. intros s. apply inv_sent, inv_reachable. Qed.

Definition n_ (z : Z) : num := num_of_Z z.

(** The previous event's command overtakes the next event's, whose first answer is
    lost; zms is then restarted and given both again. *)
Definition sample_run : list action :=
  [ASet (n_ 10) (n_ 12) (n_ 8) 1000; ATake (n_ 10); AReach 1; AAnswer 1 Delivered; AReach 0; AAnswer 0 Failed;
   ATake (n_ 10); AReset; AReach 0; ATake (n_ 10); AReach 3; AReach 2; AAnswer 0 Delivered; AAnswer 1 Delivered; AAnswer 1 Delivered].

Lemma sent_hints_held_witness :
  exists h, hints (page (run sample_run init)) = Some h /\ state_ h = Sent /\
    forall c, c ∈ commands h -> held (run sample_run init) !! dir c = Some c \/ c ∈ refused (run sample_run init).
Proof.
  eexists. split; [vm_compute; reflexivity|]. split; [reflexivity|]. intros c.
  exact (sent_hints_held sample_run _ c ltac:(vm_compute; reflexivity) eq_refl).
Defined.

(** The commands under way to the running zms are never more than two and
    always of one batch; while any is, take() hands out none. *)
Theorem one_batch_in_flight (acts : list action) :
  let s := run acts init in
  (length (ours s) <= 2)%nat /\
  (forall f g, f ∈ ours s -> g ∈ ours s -> cbatch (cmd f) = cbatch (cmd g)) /\
  (ours s <> [] -> forall current, fst (take current (page s)) = []).
Proof.
  intros s. pose proof (inv_reachable acts) as H. fold s in H.
  destruct (inv_pending s H) as [[Eu E]|(b & n & Eu & _ & Hl & Hn & Hc)].
  - rewrite E. repeat split; [cbn; lia|intros f g X; inversion X|congruence].
  - repeat split; [lia|intros f g X Y; rewrite (Hc f X), (Hc g Y); reflexivity|]. intros _ current.
    unfold take. destruct (hints (page s)); [|reflexivity]. rewrite (bool_decide_false (unanswered (page s) = ∅)), orb_true_r; [reflexivity|].
    rewrite Eu. apply map_non_empty_singleton.
Qed.

Lemma inv_unsent s h : inv s -> ours s = [] -> hints (page s) = Some h -> state_ h <> Sent -> state_ h = Unsent /\ unanswered (page s) = ∅.
Proof.
  intros H Eo Eh Ns. pose proof (inv_hints s H h Eh) as Hh. unfold hint_ok in Hh.
  assert (Eu : unanswered (page s) = ∅).
  { destruct (inv_pending s H) as [[E _]|(b & n & _ & _ & Hl & Hn & _)]; [exact E|]. rewrite Eo in Hl. cbn in Hl. lia. }
  destruct (state_ h); [tauto| |congruence]. destruct Hh as (E & _). rewrite Eu in E. symmetry in E.
  destruct (map_non_empty_singleton _ _ E).
Qed.

(** C39: Sending is never stuck: once every command to the running zms has been
    answered, the hints are sent, or the next report of their event sends both
    again under a new batch number. *)
Theorem hints_never_stuck (acts : list action) (h : hints_t) :
  let s := run acts init in
  hints (page s) = Some h -> ours s = [] -> src h <> NaN ->
  state_ h = Sent \/
  fst (take (src h) (page s)) =
    [Command 0 (next h) (src h) (batches (page s) + 1); Command 1 (prev h) (src h) (batches (page s) + 1)].
Proof.
  intros s Eh Eo Nn. destruct (decide (state_ h = Sent)) as [E|E]; [left; exact E|]. right.
  destruct (inv_unsent s h (inv_reachable acts) Eo Eh E) as (Es & Eu). unfold take.
  rewrite Eh, Es, Eu. unfold neqb. rewrite (nle_refl _ Nn). reflexivity.
Qed.

Lemma hints_never_stuck_witness :
  let acts := firstn 6 sample_run in
  exists h, hints (page (run acts init)) = Some h /\ ours (run acts init) = [] /\
    (state_ h = Sent \/ fst (take (src h) (page (run acts init))) =
      [Command 0 (next h) (src h) (batches (page (run acts init)) + 1);
       Command 1 (prev h) (src h) (batches (page (run acts init)) + 1)]).
Proof.
  intros acts. eexists. split; [vm_compute; reflexivity|]. split; [vm_compute; reflexivity|].
  exact (hints_never_stuck acts _ ltac:(vm_compute; reflexivity) ltac:(vm_compute; reflexivity) ltac:(vm_compute; discriminate)).
Defined.

(** How far apart lookups are: never again for the same event within
    LOOKUP_RETRY_MS, nor within LOOKUP_TIMEOUT_MS of one that is unanswered. *)
Lemma needsLookup_paced current reverse now paused p l :
  needsLookup current reverse now paused p = true -> lookup p = Some l -> neqb (l_src l) current = true ->
  at_ l + LOOKUP_RETRY_MS <= now /\ (pending l = true -> at_ l + LOOKUP_TIMEOUT_MS <= now).
Proof.
  unfold needsLookup, LOOKUP_RETRY_MS, LOOKUP_TIMEOUT_MS, BOUNDARY_REFRESH_MS. intros H El Es. rewrite El, Es in H. cbn [andb negb orb] in H.
  destruct (pending l && (now - at_ l <? 5000)) eqn:C; [discriminate|].
  assert (P : pending l = true -> at_ l + 5000 <= now).
  { intros E. rewrite E in C. cbn in C. bool_to_prop. lia. }
  split; [|exact P]. rewrite !Z.geb_leb in H. destruct (hints p) as [h|].
  - destruct (negb (src h =? current)%num); [bool_to_prop; lia|].
    destruct (negb paused && _); [discriminate|]. rewrite Z.geb_leb in H. bool_to_prop. lia.
  - bool_to_prop. lia.
Qed.
End Wire.
