(* ===== verification/EventPage.v ===== *)
(** web/skins/classic/views/js/event.js: playing an event, with zms or in video.js.

    The page's globals, its intervals, the stream image and the player form one
    [state]; the neighbour hints and the requests that carry them are the [sys] of
    ZmsHints.  Every function of the source is a function on the state that
    appends what it asks of the outside world to [out]; an [event] is what the
    browser calls back with.  The player is video.js, an interface here: [vid] is
    [None] when zms plays.  Titles, statistics, button colours, the progress bar
    and the drawing of zones are not modelled. *)
From S2P Require Import JsString AuthHelpers ZmsHints.

Module EventPage.

(** ** The rates the page offers, in percent, and stepping through them *)

Definition rates : list num :=
  map num_of_Z [-1600; -1000; -500; -200; -100; -50; -25; 0; 25; 50; 100; 200; 500; 1000; 1600].

(** [list.indexOf(current)] *)
Fixpoint indexOf (xs : list num) (x : num) : option nat :=
  match xs with
  | [] => None
  | y :: xs => if (y =? x)%num then Some 0%nat else S <$> indexOf xs x
  end.

(** The scan for the nearest: [best] is list[index], [i] the index of the rest. *)
Fixpoint nearest_from (xs : list num) (current best : num) (index i : nat) : nat :=
  match xs with
  | [] => index
  | y :: xs =>
      if (nabs (y - current) <? nabs (best - current))%num
      then nearest_from xs current y i (S i)
      else nearest_from xs current best index (S i)
  end.

Definition nearest (xs : list num) (current : num) : nat :=
  match xs with [] => 0%nat | x :: xs => nearest_from xs current x 0 1 end.

Definition stepRate (list : list num) (current : num) (direction : Z) : option num :=
  match list with
  | [] => None
  | _ =>
      if negb (isFinite current) then None
      else
        let index := match indexOf list current with Some i => i | None => nearest list current end in
        let next := Z.of_nat index + direction in
        if (next <? 0) || (next >=? Z.of_nat (length list)) then None else list !! Z.to_nat next
  end.

(** ** video.js, as far as the page relies on it *)

Class Player (V : Type) := {
  playbackRate : V -> num;
  set_playbackRate : num -> V -> V;
  currentTime : V -> num;
  set_currentTime : num -> V -> V;
  paused : V -> bool;
  play : V -> V;
  pause : V -> V;
}.

(** A rate that was set is the rate until it is set again. *)
Class PlayerLaws (V : Type) `{Player V} : Prop := {
  rate_set : forall r v, playbackRate (set_playbackRate r v) = r;
  rate_time : forall t v, playbackRate (set_currentTime t v) = playbackRate v;
  rate_play : forall v, playbackRate (play v) = playbackRate v;
  rate_pause : forall v, playbackRate (pause v) = playbackRate v;
  paused_pause : forall v, paused (pause v) = true;
}.

(** A player that keeps its rate, its time and whether it is stopped. *)
Record tape := Tape { t_rate : num; t_time : num; t_stopped : bool }.
#[export] Instance tape_player : Player tape := {
  playbackRate := t_rate;
  set_playbackRate r v := Tape r (t_time v) (t_stopped v);
  currentTime := t_time;
  set_currentTime t v := Tape (t_rate v) (nmax (Fin 0) t) (t_stopped v);
  paused := t_stopped;
  play v := Tape (t_rate v) (t_time v) false;
  pause v := Tape (t_rate v) (t_time v) true;
}.
#[export] Instance tape_laws : PlayerLaws tape.
Proof. split; reflexivity. Qed.

(** ** The page *)

Inductive command :=
| CMD_PAUSE | CMD_PLAY | CMD_QUERY | CMD_QUIT | CMD_FASTFWD | CMD_FASTREV | CMD_SLOWFWD | CMD_SLOWREV
| CMD_VARPLAY (rate : num) | CMD_SEEK (offset : num) | CMD_SCALE (scale : num).
#[export] Instance command_is_query (c : command) : Decision (c = CMD_QUERY).
Proof. destruct c; first [left; reflexivity|right; discriminate]. Defined.

(** The status of a reply, and the reply to a command. *)
Record status_t := Status {
  st_duration : jsval; st_progress : jsval; st_event : jsval; st_rate : jsval; st_paused : jsval;
  st_scale : jsval; st_auth : Auth.auth_data;
}.
Record reply := Reply { result : string; rstatus : option status_t }.

Record near_reply := NearEvents { n_result : string; EventId : jsval; PrevEventId : jsval; NextEventId : jsval }.

Record event_data := EventData { Id : jsval; Length : jsval; EndDateTime : jsval }.
#[export] Instance eta_event_data : Eta event_data := fun e => EventData (Id e) (Length e) (EndDateTime e).

(** The stream image: the parameters of its address, and the handler that waits
    for its first frame, with the offset to seek to then. *)
Record img_t := Img { params : list (string * string); onload : option (option num) }.

Inductive effect :=
| Request (url : string) (c : command)
| EventQuery (eventId : jsval)
| AlarmCues (eventId : jsval)
| NearQuery (eventId : num) (now : Z)
| OpenStream (params : list (string * string))
| GoTo (url : string)
| RateCookie (rate : num)
| Message (text : string).

Record config := Config {
  monitorUrl : string; thisUrl : string; filterQuery : string; sortQuery : string;
  replayMode : string; streamQuality : num; date_parse : string -> num;
}.

Record state {V : Type} := State {
  vid : option V;
  eventData : event_data;
  prevEventId : num;
  nextEventId : num;
  lastEventId : jsval;
  zmsBroke : bool;
  polling : bool;                    (* streamCmdInterval is running *)
  streamStatus : option status_t;
  evtStream : option img_t;
  currentScale : num;
  revSpeed : num;
  intervalRewind : option nat;
  intervals : list nat;              (* rewind intervals that are running *)
  next_interval : nat;
  rate_select : jsval;
  shows_pause : bool;                (* the pause button is shown, not the play button *)
  relay : string;
  wire : Wire.sys;
  out : list effect;
}.
Arguments state : clear implicits.
#[export] Instance eta_state {V} : Eta (state V) := fun s =>
  State V (vid s) (eventData s) (prevEventId s) (nextEventId s) (lastEventId s) (zmsBroke s) (polling s)
    (streamStatus s) (evtStream s) (currentScale s) (revSpeed s) (intervalRewind s) (intervals s) (next_interval s)
    (rate_select s) (shows_pause s) (relay s) (wire s) (out s).

Section Page.
Context {V : Type} `{Player V}.
Variable (cfg : config).

Definition emit (e : effect) (s : state V) : state V := s <| out := (out s ++ [e])%list |>.
Definition hints_act (a : Wire.action) (s : state V) : state V := s <| wire := Wire.act (wire s) a |>.
Definition with_vid (f : V -> V) (s : state V) : state V := s <| vid := f <$> vid s |>.

Definition streamReq (c : command) (s : state V) : state V :=
  emit (Request (Auth.appendTo (relay s) (monitorUrl cfg)) c) s.

Definition streamPause (s : state V) : state V := s <| shows_pause := false |>.
Definition streamPlay (s : state V) : state V := s <| shows_pause := true |>.

Definition set_rate (r : num) (s : state V) : state V := emit (RateCookie r) (s <| rate_select := VNum r |>).

Definition clear_rewind (s : state V) : state V :=
  match intervalRewind s with
  | Some i => s <| intervals := filter (fun j => j <> i) (intervals s) |>
  | None => s
  end.

Definition start_rewind (s : state V) : state V :=
  s <| intervals := next_interval s :: intervals s |> <| intervalRewind := Some (next_interval s) |>
    <| next_interval := S (next_interval s) |>.

Definition stopRewind (s : state V) : state V :=
  clear_rewind s <| intervalRewind := None |> <| revSpeed := Fin (1 # 2) |>.

Definition stopFastRev (s : state V) : state V :=
  set_rate (num_of_Z 100) (with_vid (set_playbackRate (num_of_Z 1)) (stopRewind s)).

Definition pauseClicked (s : state V) : state V :=
  match vid s with
  | Some _ =>
      let s := match intervalRewind s with Some _ => stopFastRev s | None => s end in
      with_vid pause s
  | None => streamPause (streamReq CMD_PAUSE s)
  end.

(** The callback of the rewind interval; no player, no interval. *)
Definition rewind_tick (s : state V) : state V :=
  match vid s with
  | Some v =>
      if (currentTime v <=? num_of_Z 0)%num then with_vid pause (clear_rewind s)
      else with_vid (fun v => set_currentTime (currentTime v - revSpeed s / num_of_Z 2)%num v)
             (with_vid (set_playbackRate (num_of_Z 0)) s)
  | None => s
  end.

Definition changeRate (s : state V) : state V :=
  let rate := js_parseInt (rate_select s) in
  let s :=
    if negb (ntruthy rate) then pauseClicked s
    else if (rate <? num_of_Z 0)%num then
      match vid s with
      | Some _ => start_rewind (clear_rewind (s <| revSpeed := (- rate / num_of_Z 100)%num |>))
      | None => streamReq (CMD_VARPLAY rate) s
      end
    else
      match vid s with
      | Some _ => with_vid (set_playbackRate (rate / num_of_Z 100)%num) (stopRewind s)
      | None => streamReq (CMD_VARPLAY rate) s
      end in
  emit (RateCookie rate) s.

Definition deltaScale (s : state V) : num :=
  parseInt (num_to_string (currentScale s / num_of_Z 100 * streamQuality cfg)%num).

Definition streamScale (scale : num) (s : state V) : state V :=
  let scale := (scale + deltaScale s)%num in
  match evtStream s with
  | Some _ => streamReq (CMD_SCALE (if (scale >? num_of_Z 100)%num then num_of_Z 100 else scale)) s
  | None => s
  end.

Definition eventQuery (eventId : jsval) (s : state V) : state V := emit (EventQuery eventId) s.

Definition sendZmsHints (eventId : jsval) (s : state V) : state V :=
  hints_act (Wire.ATake (js_parseInt eventId)) s.

Definition nearEventsQuery (now : Z) (eventId : jsval) (s : state V) : state V :=
  emit (NearQuery (js_parseInt eventId) now) (hints_act (Wire.ALookup (js_parseInt eventId) now) s).

Definition checkStreamForErrors (result : string) : bool := String.eqb result "Error".

(** The steps of getCmdResponse on a status: the length, the event zms is on, the
    lookup of its neighbours, play or pause, the scale. *)
Definition status_length (st : status_t) (s : state V) : state V :=
  if js_truthy (st_duration st) && negb (loose_equals (st_duration st) (VNum (js_parseFloat (Length (eventData s)))))
  then s <| eventData := eventData s <| Length := st_duration st |> |> else s.

Definition status_event (eventId : jsval) (s : state V) : state V :=
  if js_truthy (lastEventId s) then
    if negb (loose_equals eventId (lastEventId s))
    then emit (AlarmCues eventId) (eventQuery eventId s) <| lastEventId := eventId |>
    else s
  else s <| lastEventId := eventId |>.

Definition is_paused (st : status_t) : bool := loose_equals (st_paused st) (VBool true).

Definition status_lookup (now : Z) (st : status_t) (s : state V) : state V :=
  if Hints.needsLookup (js_parseInt (st_event st)) (js_Number (st_rate st) <? num_of_Z 0)%num now (is_paused st)
       (Wire.page (wire s))
  then nearEventsQuery now (st_event st) s else s.

Definition status_rate (st : status_t) (s : state V) : state V :=
  if is_paused st then streamPause s
  else streamPlay (set_rate (js_Number (st_rate st) * num_of_Z 100)%num s).

Definition status_scale (st : status_t) (s : state V) : state V :=
  if ntruthy (currentScale s) && negb (match st_scale st with VUndef => true | _ => false end)
     && negb (loose_equals (st_scale st) (VNum (currentScale s + deltaScale s)%num))
  then streamScale (currentScale s) s else s.

Definition getCmdResponse (now : Z) (r : option reply) (s : state V) : state V :=
  match r with
  | None => s <| zmsBroke := true |>
  | Some r =>
      if checkStreamForErrors (result r) then s <| zmsBroke := true |>
      else
        let s := s <| zmsBroke := false |> <| streamStatus := rstatus r |> in
        match rstatus r with
        | None => s
        | Some st =>
            let s := status_length st s in
            let s := status_event (st_event st) s in
            let s := status_lookup now st s in
            let s := sendZmsHints (st_event st) s in
            let s := status_rate st s in
            let s := status_scale st s in
            s <| relay := fst (Auth.update (relay s) (Some (st_auth st))) |>
        end
  end.

Definition vjsPlay (s : state V) : state V :=
  let s := match intervalRewind s with Some _ => stopFastRev s | None => s end in
  match vid s with
  | Some v => streamPlay (set_rate (playbackRate v * num_of_Z 100)%num s)
  | None => s
  end.

(** [url.searchParams]: the first value of a name; set replaces the first pair of
    the name and drops the others; delete drops them all. *)
Definition param_get (name : string) (ps : list (string * string)) : option string :=
  snd <$> List.find (fun p => String.eqb (fst p) name) ps.

Definition param_delete (name : string) (ps : list (string * string)) : list (string * string) :=
  List.filter (fun p => negb (String.eqb (fst p) name)) ps.

Fixpoint param_set (name value : string) (ps : list (string * string)) : list (string * string) :=
  match ps with
  | [] => [(name, value)]
  | p :: ps => if String.eqb (fst p) name then (name, value) :: param_delete name ps else p :: param_set name value ps
  end.

Definition restartZmsStream (onReady : option num) (s : state V) : state V :=
  match evtStream s with
  | None => s
  | Some img =>
      let ps := param_set "scale" (num_to_string (currentScale s)) (params img) in
      let ps :=
        if js_truthy (lastEventId s) && negb (bool_decide (param_get "event" ps = Some (js_to_string (lastEventId s))))
        then param_delete "frame" (param_set "event" (js_to_string (lastEventId s)) ps) else ps in
      emit (OpenStream ps) (s <| evtStream := Some (Img ps (Some onReady)) |>)
  end.

Definition streamSeek (offset : num) (s : state V) : state V :=
  match vid s with
  | Some _ => with_vid (set_currentTime offset) s
  | None => if zmsBroke s then restartZmsStream (Some offset) s else streamReq (CMD_SEEK offset) s
  end.

(** The image's onload. *)
Definition img_onload (s : state V) : state V :=
  match evtStream s with
  | Some (Img ps (Some onReady)) =>
      let s := s <| evtStream := Some (Img ps None) |> <| zmsBroke := false |> in
      let s := hints_act Wire.AReset s in
      match onReady with Some offset => streamSeek offset s | None => s end
  | _ => s
  end.

Definition playClicked (s : state V) : state V :=
  let s := if negb (js_truthy (rate_select s)) then s <| rate_select := VNum (num_of_Z 100) |> else s in
  match vid s with
  | Some v => if paused v then with_vid play s else vjsPlay s
  | None =>
      let s := if zmsBroke s then restartZmsStream None s else streamReq CMD_PLAY s in
      streamPlay s
  end.

Definition streamFastFwd (s : state V) : state V :=
  match vid s with
  | Some _ =>
      let s := if negb (revSpeed s =? Fin (1 # 2))%num then stopFastRev s else s in
      match vid s with
      | Some v =>
          match stepRate rates (playbackRate v * num_of_Z 100)%num 1 with
          | None => s
          | Some next => set_rate next (with_vid (set_playbackRate (next / num_of_Z 100)%num) s)
          end
      | None => s
      end
  | None => streamReq CMD_FASTFWD s
  end.

Variable (spf : num).

Definition streamSlowFwd (s : state V) : state V :=
  match vid s with
  | Some _ => with_vid (fun v => set_currentTime (currentTime v + spf)%num v) s
  | None => streamReq CMD_SLOWFWD s
  end.

Definition streamSlowRev (s : state V) : state V :=
  match vid s with
  | Some _ => with_vid (fun v => set_currentTime (currentTime v - spf)%num v) s
  | None => streamReq CMD_SLOWREV s
  end.

Definition streamFastRev (s : state V) : state V :=
  match vid s with
  | Some v =>
      match stepRate rates (revSpeed s * num_of_Z (-100))%num (-1) with
      | None => s
      | Some next =>
          let s := clear_rewind (s <| revSpeed := (- next / num_of_Z 100)%num |>) in
          let s := emit (RateCookie (playbackRate v * num_of_Z 100)%num) (s <| rate_select := VNum next |>) in
          start_rewind s
      end
  | None => streamReq CMD_FASTREV s
  end.

Definition goToEvent (eventId : num) (s : state V) : state V :=
  emit (GoTo (thisUrl cfg ++ "?view=event&eid=" ++ num_to_string eventId ++ filterQuery cfg ++ sortQuery cfg)) s.

Definition quit_zms (s : state V) : state V :=
  match vid s with None => streamReq CMD_QUIT s | Some _ => s end.

Definition streamPrev (s : state V) : state V :=
  if negb (prevEventId s =? num_of_Z 0)%num then goToEvent (prevEventId s) (quit_zms s) else s.

Definition streamNext (s : state V) : state V :=
  if (nextEventId s =? num_of_Z 0)%num then
    let s := emit (Message "No more events") (pauseClicked s) in
    match vid s with None => s <| zmsBroke := true |> | Some _ => s end
  else goToEvent (nextEventId s) (quit_zms s).

Definition prevEvent (s : state V) : state V :=
  if ntruthy (prevEventId s) then streamPrev (eventQuery (VNum (prevEventId s)) s) else s.

Definition nextEvent (s : state V) : state V :=
  if ntruthy (nextEventId s) then streamNext (eventQuery (VNum (nextEventId s)) s) else s.

(** Date.parse answers a number, on which getTime is undefined: with a date that
    parses, the branch that would wait for the next event is never entered. *)
Definition vjsReplay (s : state V) : state V :=
  if String.eqb (replayMode cfg) "single" then with_vid play s
  else if String.eqb (replayMode cfg) "all" then
    if (nextEventId s =? num_of_Z 0)%num then emit (Message "No more events") s
    else if negb (js_truthy (EndDateTime (eventData s))) then streamNext s
    else
      let date := date_parse cfg (js_to_string (EndDateTime (eventData s))) in
      if negb (ntruthy date) then streamNext s else s
  else if String.eqb (replayMode cfg) "gapless" then streamNext s
  else s.

Definition streamQuery (s : state V) : state V :=
  if zmsBroke s then s <| polling := false |> else streamReq CMD_QUERY s.

Definition getEventResponse (result : string) (e : event_data) (s : state V) : state V :=
  if checkStreamForErrors result then s else s <| eventData := e |>.

Definition getNearEventsResponse (now : Z) (r : near_reply) (s : state V) : state V :=
  if checkStreamForErrors (n_result r) then s
  else
    let srcEventId := js_parseInt (EventId r) in
    if match vid s with None => true | Some _ => false end && js_truthy (lastEventId s)
       && negb (srcEventId =? js_parseInt (lastEventId s))%num
    then s
    else
      let s := s <| prevEventId := js_parseInt (PrevEventId r) |> <| nextEventId := js_parseInt (NextEventId r) |> in
      match vid s with
      | None =>
          let s := hints_act (Wire.ASet srcEventId (nextEventId s) (prevEventId s) now) s in
          if js_truthy (lastEventId s) then sendZmsHints (lastEventId s) s else s
      | Some _ => s
      end.

(** The lookup's done (with a reply) or fail, then always. *)
Definition near_settles (now : Z) (lookup : Z) (r : option near_reply) (s : state V) : state V :=
  let s :=
    match r with
    | Some r => if Hints.isLatestLookup lookup (Wire.page (wire s)) then getNearEventsResponse now r s else s
    | None => s
    end in
  hints_act (Wire.ALookupDone lookup) s.

(** What the reply to a hint says: its result and reason; [None] is a null reply. *)
Definition hint_verdict (r : option (string * string)) : Wire.verdict :=
  match r with
  | None => Wire.Failed
  | Some (result, reason) =>
      if String.eqb result "Error" then if String.eqb reason "invalid" then Wire.Refused else Wire.Failed
      else Wire.Delivered
  end.

(** ** The page's life *)

(** A select offers its options only; video.js's own menu offers the same rates. *)
Inductive event :=
| PollTick                                       (* streamCmdInterval *)
| CmdReply (now : Z) (r : option reply)
| NearSettles (now lookup : Z) (r : option near_reply)
| HintReaches (k : nat)
| HintSettles (k : nat) (r : option (option (string * string)))   (* [None]: the request failed *)
| ImgLoads
| EventReply (result : string) (e : event_data)
| RewindTick (interval : nat)
| PlayerMoves (t : num) | PlayerRate (rate : nat)
| VideoEnds
| SelectsRate (rate : nat)
| ClicksPlay | ClicksPause | ClicksFastFwd | ClicksFastRev | ClicksSlowFwd | ClicksSlowRev
| Seeks (offset : num) | ClicksPrev | ClicksNext.

Definition handle (s : state V) (e : event) : state V :=
  match e with
  | PollTick => if polling s then streamQuery s else s
  | CmdReply now r => getCmdResponse now r s
  | NearSettles now lookup r => near_settles now lookup r s
  | HintReaches k => hints_act (Wire.AReach k) s
  | HintSettles k r => hints_act (Wire.AAnswer k (match r with Some r => hint_verdict r | None => Wire.Failed end)) s
  | ImgLoads => img_onload s
  | EventReply result e => getEventResponse result e s
  | RewindTick i => if bool_decide (i ∈ intervals s) then rewind_tick s else s
  | PlayerMoves t => with_vid (set_currentTime t) s
  | PlayerRate i => match rates !! i with Some r => with_vid (set_playbackRate (r / num_of_Z 100)%num) s | None => s end
  | VideoEnds => match vid s with Some _ => vjsReplay s | None => s end
  | SelectsRate i =>
      match rates !! i with Some r => changeRate (s <| rate_select := VStr (num_to_string r) |>) | None => s end
  | ClicksPlay => playClicked s
  | ClicksPause => pauseClicked s
  | ClicksFastFwd => streamFastFwd s
  | ClicksFastRev => streamFastRev s
  | ClicksSlowFwd => streamSlowFwd s
  | ClicksSlowRev => streamSlowRev s
  | Seeks offset => streamSeek offset s
  | ClicksPrev => prevEvent s
  | ClicksNext => nextEvent s
  end.

Definition run (es : list event) (s : state V) : state V := fold_left handle es s.

(** initPage: the globals, the poll when zms plays, the neighbours of the event. *)
Definition initPage (video : option V) (e : event_data) (img : option img_t) (scale : num) (auth_relay : string) (now : Z)
    : state V :=
  let polls := match video with Some _ => false | None => true end in
  nearEventsQuery now (Id e)
    (State V video e (num_of_Z 0) (num_of_Z 0) (VNum (num_of_Z 0)) false polls None img scale (Fin (1 # 2))
       None [] 0 (VStr "100") true auth_relay Wire.init []).
End Page.

(** ** What the functions leave alone *)

Definition is_lookup (e : effect) : option (num * Z) :=
  match e with NearQuery i now => Some (i, now) | _ => None end.
Definition is_query (e : effect) : bool :=
  match e with Request _ CMD_QUERY => true | _ => false end.

(** The lookups of neighbours and the status queries among the effects. *)
Definition lookups (es : list effect) : list (num * Z) := omap is_lookup es.
Definition queries (es : list effect) : nat := tally is_query es.

Section Calm.
Context {V : Type} `{Player V}.
Variables (cfg : config) (spf : num).

(** [s'] has the hints, the poll, the lookups and the status queries of [s]. *)
Record calm (s s' : state V) : Prop := {
  calm_wire : wire s' = wire s;
  calm_polling : polling s' = polling s;
  calm_lookups : lookups (out s') = lookups (out s);
  calm_queries : queries (out s') = queries (out s);
}.

Lemma calm_refl s : calm s s.
Proof. split; reflexivity. Qed.

Lemma calm_emit e s x : is_lookup e = None -> is_query e = false -> calm s x -> calm s (emit e x).
Proof.
  intros E1 E2 [C1 C2 C3 C4]. split; [exact C1|exact C2| |].
  - change (out (emit e x)) with (out x ++ [e])%list. unfold lookups. rewrite omap_app. cbn. rewrite E1, app_nil_r. exact C3.
  - change (out (emit e x)) with (out x ++ [e])%list. unfold queries. rewrite tally_app. cbn. rewrite E2, Nat.add_0_r. exact C4.
Qed.

Ltac set_field := let C := fresh in intros C; destruct C as [C1 C2 C3 C4]; split; [exact C1|exact C2|exact C3|exact C4].
Lemma calm_vid v s x : calm s x -> calm s (x <| vid := v |>). Proof. set_field. Qed.
Lemma calm_eventData v s x : calm s x -> calm s (x <| eventData := v |>). Proof. set_field. Qed.
Lemma calm_prevEventId v s x : calm s x -> calm s (x <| prevEventId := v |>). Proof. set_field. Qed.
Lemma calm_nextEventId v s x : calm s x -> calm s (x <| nextEventId := v |>). Proof. set_field. Qed.
Lemma calm_lastEventId v s x : calm s x -> calm s (x <| lastEventId := v |>). Proof. set_field. Qed.
Lemma calm_zmsBroke v s x : calm s x -> calm s (x <| zmsBroke := v |>). Proof. set_field. Qed.
Lemma calm_streamStatus v s x : calm s x -> calm s (x <| streamStatus := v |>). Proof. set_field. Qed.
Lemma calm_evtStream v s x : calm s x -> calm s (x <| evtStream := v |>). Proof. set_field. Qed.
Lemma calm_revSpeed v s x : calm s x -> calm s (x <| revSpeed := v |>). Proof. set_field. Qed.
Lemma calm_intervalRewind v s x : calm s x -> calm s (x <| intervalRewind := v |>). Proof. set_field. Qed.
Lemma calm_intervals v s x : calm s x -> calm s (x <| intervals := v |>). Proof. set_field. Qed.
Lemma calm_next_interval v s x : calm s x -> calm s (x <| next_interval := v |>). Proof. set_field. Qed.
Lemma calm_rate_select v s x : calm s x -> calm s (x <| rate_select := v |>). Proof. set_field. Qed.
Lemma calm_shows_pause v s x : calm s x -> calm s (x <| shows_pause := v |>). Proof. set_field. Qed.
Lemma calm_relay v s x : calm s x -> calm s (x <| relay := v |>). Proof. set_field. Qed.

Create HintDb calm discriminated.
#[local] Hint Resolve calm_refl calm_emit calm_vid calm_eventData calm_prevEventId calm_nextEventId calm_lastEventId calm_zmsBroke
  calm_streamStatus calm_evtStream calm_revSpeed calm_intervalRewind calm_intervals calm_next_interval calm_rate_select
  calm_shows_pause calm_relay : calm.
#[local] Hint Extern 1 (is_lookup _ = None) => reflexivity : calm.
#[local] Hint Extern 1 (is_query _ = false) => reflexivity : calm.

#[local] Opaque upd.

Lemma calm_clear_rewind s x : calm s x -> calm s (clear_rewind x).
Proof. intros C. unfold clear_rewind. case_match; auto with calm. Qed.
#[local] Hint Resolve calm_clear_rewind : calm.
Lemma calm_pauseClicked s x : calm s x -> calm s (pauseClicked cfg x).
Proof.
  intros C. unfold pauseClicked, stopFastRev, stopRewind, streamPause, streamReq, set_rate, with_vid.
  repeat case_match; auto 12 with calm.
Qed.
#[local] Hint Resolve calm_pauseClicked : calm.

Ltac open_leaves :=
  unfold stopFastRev, stopRewind, start_rewind, set_rate, goToEvent, quit_zms, streamPlay, streamPause, eventQuery, streamReq,
    with_vid.
Ltac calm := intros C; open_leaves; cbv zeta; repeat case_match; auto 15 with calm.

Lemma calm_changeRate s x : calm s x -> calm s (changeRate cfg x).
Proof. unfold changeRate. calm. Qed.
Lemma calm_rewind_tick s x : calm s x -> calm s (rewind_tick x).
Proof. unfold rewind_tick. calm. Qed.
Lemma calm_streamPrev s x : calm s x -> calm s (streamPrev cfg x).
Proof. unfold streamPrev. calm. Qed.
Lemma calm_streamNext s x : calm s x -> calm s (streamNext cfg x).
Proof. unfold streamNext. calm. Qed.
#[local] Hint Resolve calm_changeRate calm_rewind_tick calm_streamPrev calm_streamNext : calm.
Lemma calm_prevEvent s x : calm s x -> calm s (prevEvent cfg x).
Proof. unfold prevEvent. calm. Qed.
Lemma calm_nextEvent s x : calm s x -> calm s (nextEvent cfg x).
Proof. unfold nextEvent. calm. Qed.
Lemma calm_vjsReplay s x : calm s x -> calm s (vjsReplay cfg x).
Proof. unfold vjsReplay. calm. Qed.
Lemma calm_vjsPlay s x : calm s x -> calm s (vjsPlay x).
Proof. unfold vjsPlay. calm. Qed.
Lemma calm_restart o s x : calm s x -> calm s (restartZmsStream o x).
Proof. unfold restartZmsStream. calm. Qed.
#[local] Hint Resolve calm_vjsPlay calm_restart : calm.
Lemma calm_playClicked s x : calm s x -> calm s (playClicked cfg x).
Proof. unfold playClicked. calm. Qed.
Lemma calm_streamFastFwd s x : calm s x -> calm s (streamFastFwd cfg x).
Proof. unfold streamFastFwd. calm. Qed.
Lemma calm_streamFastRev s x : calm s x -> calm s (streamFastRev cfg x).
Proof. unfold streamFastRev. calm. Qed.
Lemma calm_streamSlowFwd s x : calm s x -> calm s (streamSlowFwd cfg spf x).
Proof. unfold streamSlowFwd. calm. Qed.
Lemma calm_streamSlowRev s x : calm s x -> calm s (streamSlowRev cfg spf x).
Proof. unfold streamSlowRev. calm. Qed.
Lemma calm_streamSeek o s x : calm s x -> calm s (streamSeek cfg o x).
Proof. unfold streamSeek. calm. Qed.
Lemma calm_status_length st s x : calm s x -> calm s (status_length st x).
Proof. unfold status_length. calm. Qed.
Lemma calm_status_event e s x : calm s x -> calm s (status_event e x).
Proof. unfold status_event. calm. Qed.
Lemma calm_status_rate st s x : calm s x -> calm s (status_rate st x).
Proof. unfold status_rate. calm. Qed.
Lemma calm_status_scale st s x : calm s x -> calm s (status_scale cfg st x).
Proof. unfold status_scale, streamScale. calm. Qed.
Lemma calm_getEventResponse r e s x : calm s x -> calm s (getEventResponse r e x).
Proof. unfold getEventResponse. calm. Qed.

(** Every event but these leaves the hints, the poll and the two logs alone. *)
Lemma calm_handle s e :
  match e with PollTick | CmdReply _ _ | NearSettles _ _ _ | HintReaches _ | HintSettles _ _ | ImgLoads => True
  | _ => calm s (handle cfg spf s e) end.
Proof.
  pose proof (calm_refl s). destruct e; try exact I; cbn [handle]; unfold with_vid; repeat case_match;
    auto using calm_changeRate, calm_rewind_tick, calm_prevEvent, calm_nextEvent, calm_vjsReplay, calm_playClicked, calm_pauseClicked,
      calm_streamFastFwd, calm_streamFastRev, calm_streamSlowFwd, calm_streamSlowRev, calm_streamSeek, calm_getEventResponse,
      calm_vid, calm_rate_select.
Qed.
End Calm.

(** ** The page and the hints' protocol *)

Section Protocol.
Context {V : Type} `{Player V}.
Variables (cfg : config) (spf : num).

(** The last lookup the object knows of. *)
Definition last_lookup (w : Wire.sys) : option (num * Z) :=
  (fun l => (Hints.l_src l, Hints.at_ l)) <$> Hints.lookup (Wire.page w).

Lemma last_lookup_act w a : (forall i now, a <> Wire.ALookup i now) -> last_lookup (Wire.act w a) = last_lookup w.
Proof.
  intros N. unfold last_lookup. destruct a as [src next prev now|cur| |i now|n|k|k v]; try reflexivity.
  - cbn [Wire.act]. unfold Hints.set. fields. repeat case_match; reflexivity.
  - cbn [Wire.act]. assert (E : Hints.lookup (snd (Hints.take cur (Wire.page w))) = Hints.lookup (Wire.page w))
      by (unfold Hints.take; repeat case_match; reflexivity).
    destruct (Hints.take cur (Wire.page w)) as [cs p]. cbn in E. fields. rewrite E. reflexivity.
  - cbn [Wire.act]. unfold Hints.reset. fields. repeat case_match; reflexivity.
  - destruct (N i now eq_refl).
  - cbn [Wire.act]. fields. unfold Hints.lookupDone. destruct (Hints.lookup (Wire.page w)) as [l|] eqn:E; [|rewrite E; reflexivity].
    destruct (Hints.id l =? n); [reflexivity|rewrite E; reflexivity].
  - cbn [Wire.act]. repeat case_match; reflexivity.
  - cbn [Wire.act]. repeat case_match; try reflexivity; fields; unfold Hints.response; fields; repeat case_match; reflexivity.
Qed.

(** ** Lookups are paced *)

Definition apart (p q : num * Z) : Prop := neqb (fst p) (fst q) = true -> snd p + Hints.LOOKUP_RETRY_MS <= snd q.
Definition paced (ls : list (num * Z)) : Prop :=
  forall pre p q post, ls = (pre ++ p :: q :: post)%list -> apart p q.

Lemma paced_snoc ls q : paced ls -> (forall p, last ls = Some p -> apart p q) -> paced (ls ++ [q]).
Proof.
  intros P L pre p r post E. destruct post as [|x post _] using rev_ind.
  - assert (E' : (ls ++ [q] = (pre ++ [p]) ++ [r])%list) by (rewrite E, <- app_assoc; reflexivity).
    apply app_inj_tail in E'. destruct E' as [-> ->]. apply L, last_snoc.
  - assert (E' : (ls ++ [q] = (pre ++ p :: r :: post) ++ [x])%list) by (rewrite E, <- !app_assoc; reflexivity).
    apply app_inj_tail in E'. destruct E' as [-> _]. exact (P pre p r post eq_refl).
Qed.

(** What holds of the hints' side of the page between two events. *)
Record sound (s : state V) : Prop := {
  sound_wire : Wire.inv (wire s);
  sound_last : last (lookups (out s)) = last_lookup (wire s);
  sound_paced : paced (lookups (out s));
}.

Lemma sound_calm s s' : calm s s' -> sound s -> sound s'.
Proof. intros [E1 _ E3 _] [S1 S2 S3]. split; rewrite ?E1, ?E3; assumption. Qed.

Lemma sound_act a s : (forall i now, a <> Wire.ALookup i now) -> sound s -> sound (hints_act a s).
Proof.
  intros N [S1 S2 S3]. split.
  - apply Wire.inv_act, S1.
  - change (last (lookups (out s)) = last_lookup (Wire.act (wire s) a)). rewrite last_lookup_act by exact N. exact S2.
  - exact S3.
Qed.

Lemma lookups_snoc es i now : lookups (es ++ [NearQuery i now]) = (lookups es ++ [(i, now)])%list.
Proof. unfold lookups. rewrite omap_app. reflexivity. Qed.

Lemma sound_nearEventsQuery now eventId s : sound s ->
  (forall p, last_lookup (wire s) = Some p -> apart p (js_parseInt eventId, now)) ->
  sound (nearEventsQuery now eventId s).
Proof.
  intros [S1 S2 S3] Ha. split.
  - apply Wire.inv_act, S1.
  - change (last (lookups (out s ++ [NearQuery (js_parseInt eventId) now])) = Some (js_parseInt eventId, now)).
    rewrite lookups_snoc. apply last_snoc.
  - change (paced (lookups (out s ++ [NearQuery (js_parseInt eventId) now]))).
    rewrite lookups_snoc. apply paced_snoc; [exact S3|]. intros p E. apply Ha. rewrite <- S2. exact E.
Qed.

Lemma sound_status_lookup now st s : sound s -> sound (status_lookup now st s).
Proof.
  intros S. unfold status_lookup. destruct (Hints.needsLookup _ _ _ _ _) eqn:N; [|exact S].
  apply sound_nearEventsQuery; [exact S|]. unfold last_lookup.
  destruct (Hints.lookup (Wire.page (wire s))) as [l|] eqn:E; [|discriminate].
  intros p [= <-] Eq. exact (proj1 (Wire.needsLookup_paced _ _ _ _ _ _ N E Eq)).
Qed.

Lemma sound_getCmdResponse now r s : sound s -> sound (getCmdResponse cfg now r s).
Proof.
  intros S. pose proof (fun x => calm_refl (V:=V) x) as R. unfold getCmdResponse.
  destruct r as [r|]; [|eapply sound_calm; [apply calm_zmsBroke, R|exact S]].
  destruct (checkStreamForErrors (result r)); [eapply sound_calm; [apply calm_zmsBroke, R|exact S]|].
  cbv zeta. destruct (rstatus r) as [st|]; [|eapply sound_calm; [apply calm_streamStatus, calm_zmsBroke, R|exact S]].
  eapply sound_calm; [apply calm_relay, calm_status_scale, calm_status_rate, R|]. apply sound_act; [discriminate|].
  apply sound_status_lookup.
  eapply sound_calm; [apply calm_status_event, calm_status_length, calm_streamStatus, calm_zmsBroke, R|exact S].
Qed.

Lemma sound_getNearEventsResponse now r s : sound s -> sound (getNearEventsResponse now r s).
Proof.
  intros S. unfold getNearEventsResponse. repeat case_match; try exact S; unfold sendZmsHints; repeat (apply sound_act; [discriminate|]);
    (eapply sound_calm; [apply calm_nextEventId, calm_prevEventId, calm_refl|exact S]).
Qed.

Lemma sound_handle s e : sound s -> sound (handle cfg spf s e).
Proof.
  intros S. pose proof (calm_handle cfg spf s e) as C. destruct e; try (eapply sound_calm; [exact C|exact S]); clear C; cbn [handle].
  - case_match; [|exact S]. unfold streamQuery. case_match; [destruct S as [S1 S2 S3]; split; assumption|].
    destruct S as [S1 S2 S3].
    assert (L : lookups (out s ++ [Request (Auth.appendTo (relay s) (monitorUrl cfg)) CMD_QUERY]) = lookups (out s))
      by (unfold lookups; rewrite omap_app; apply app_nil_r).
    split; [exact S1| |].
    + change (out (streamReq cfg CMD_QUERY s)) with (out s ++ [Request (Auth.appendTo (relay s) (monitorUrl cfg)) CMD_QUERY])%list.
      rewrite L. exact S2.
    + change (out (streamReq cfg CMD_QUERY s)) with (out s ++ [Request (Auth.appendTo (relay s) (monitorUrl cfg)) CMD_QUERY])%list.
      rewrite L. exact S3.
  - apply sound_getCmdResponse, S.
  - unfold near_settles. apply sound_act; [discriminate|]. repeat case_match; try exact S. apply sound_getNearEventsResponse, S.
  - apply sound_act; [discriminate|exact S].
  - apply sound_act; [discriminate|exact S].
  - unfold img_onload. repeat case_match; try exact S.
    + eapply sound_calm; [apply calm_streamSeek, calm_refl|]. apply sound_act; [discriminate|].
      eapply sound_calm; [apply calm_zmsBroke, calm_evtStream, calm_refl|exact S].
    + apply sound_act; [discriminate|]. eapply sound_calm; [apply calm_zmsBroke, calm_evtStream, calm_refl|exact S].
Qed.

Lemma sound_run es s : sound s -> sound (run cfg spf es s).
Proof. revert s. induction es as [|e es IH]; intros s S; [exact S|]. apply IH, sound_handle, S. Qed.

Lemma sound_init video e img scale auth_relay now : sound (initPage video e img scale auth_relay now).
Proof.
  unfold initPage. apply sound_nearEventsQuery; [|intros p E; discriminate].
  split; [apply Wire.inv_init|reflexivity|]. intros pre p q post E. destruct pre; discriminate E.
Qed.


(** The page never asks for the neighbours of one event twice within
    LOOKUP_RETRY_MS, unless it asked about another event in between. *)
Theorem lookups_are_paced video e img scale auth_relay now (es : list event) pre a t1 b t2 post :
  let s := run cfg spf es (initPage video e img scale auth_relay now) in
  lookups (out s) = (pre ++ (a, t1) :: (b, t2) :: post)%list -> neqb a b = true ->
  t1 + Hints.LOOKUP_RETRY_MS <= t2.
Proof. intros s E. exact (sound_paced _ (sound_run es _ (sound_init video e img scale auth_relay now)) _ _ _ _ E). Qed.

(** ** The poll *)

(** [s'] polls no more than [s] does, and has asked for no more. *)
Definition still (s s' : state V) : Prop := polling s' = false /\ queries (out s') = queries (out s).

Lemma still_calm s x s' : still s x -> calm x s' -> still s s'.
Proof. intros [P Q] [_ E2 _ E4]. split; congruence. Qed.

Lemma still_act a s x : still s x -> still s (hints_act a x).
Proof. intros [P Q]. split; assumption. Qed.

Lemma still_nearEventsQuery now i s x : still s x -> still s (nearEventsQuery now i x).
Proof.
  intros [P Q]. split; [exact P|].
  change (queries (out x ++ [NearQuery (js_parseInt i) now]) = queries (out s)).
  unfold queries in *. rewrite tally_app, Q. apply Nat.add_0_r.
Qed.

Lemma still_handle s e : polling s = false -> still s (handle cfg spf s e).
Proof.
  intros Hp. assert (S : still s s) by (split; [exact Hp|reflexivity]).
  pose proof (calm_handle cfg spf s e) as C. destruct e; try (eapply still_calm; [exact S|exact C]); clear C; cbn [handle].
  - rewrite Hp. exact S.
  - pose proof (fun x => calm_refl (V:=V) x) as R. unfold getCmdResponse.
    repeat case_match; try (eapply still_calm; [exact S|apply calm_zmsBroke, R]);
      try (eapply still_calm; [exact S|apply calm_streamStatus, calm_zmsBroke, R]).
    eapply still_calm; [|apply calm_relay, calm_status_scale, calm_status_rate, R]. apply still_act.
    assert (S' : forall x, still s x -> still s (status_lookup now s0 x))
      by (intros x Sx; unfold status_lookup; case_match; [apply still_nearEventsQuery|]; exact Sx).
    apply S'. eapply still_calm; [exact S|apply calm_status_event, calm_status_length, calm_streamStatus, calm_zmsBroke, R].
  - unfold near_settles. apply still_act. repeat case_match; try exact S. unfold getNearEventsResponse, sendZmsHints.
    repeat case_match; try exact S; repeat apply still_act;
      (eapply still_calm; [exact S|apply calm_nextEventId, calm_prevEventId, calm_refl]).
  - apply still_act, S.
  - apply still_act, S.
  - unfold img_onload. repeat case_match; try exact S.
    + eapply still_calm; [apply still_act|apply calm_streamSeek, calm_refl].
      eapply still_calm; [exact S|apply calm_zmsBroke, calm_evtStream, calm_refl].
Qed.

Lemma error_reply now st (s : state V) : getCmdResponse cfg now (Some (Reply "Error" st)) s = s <| zmsBroke := true |>.
Proof. reflexivity. Qed.

(** After one failed command and the next tick of the poll, the page never
    asks zms for its status again, although a restart makes the stream work: no
    sequence of events sets the interval anew. *)
Theorem polling_never_resumes (s : state V) (now : Z) (st : option status_t) (es : list event) :
  let broken := run cfg spf [CmdReply now (Some (Reply "Error" st)); PollTick] s in
  polling (run cfg spf es broken) = false /\ queries (out (run cfg spf es broken)) = queries (out s).
Proof.
  cbv zeta.
  assert (B : still s (run cfg spf [CmdReply now (Some (Reply "Error" st)); PollTick] s)).
  { unfold run. cbn [fold_left handle]. rewrite error_reply. destruct (polling (s <| zmsBroke := true |>)) eqn:P.
    - split; reflexivity.
    - split; [exact P|reflexivity]. }
  revert B. generalize (run cfg spf [CmdReply now (Some (Reply "Error" st)); PollTick] s). intros x B.
  revert x B. induction es as [|e es IH]; intros x [B1 B2]; [split; assumption|].
  destruct (still_handle x e B1) as [C1 C2]. apply IH. split; [exact C1|congruence].
Qed.
End Protocol.

(** ** Rates *)

(** The speeds the page may rewind at, and those it may play at. *)
Definition reverse_speeds : list num := map (fun r => - r / num_of_Z 100)%num (take 7 rates).
Definition speeds : list num := map (fun r => r / num_of_Z 100)%num rates.

Lemma stepRate_in list current direction next : stepRate list current direction = Some next -> next ∈ list.
Proof.
  unfold stepRate. destruct list as [|x xs]; [discriminate|]. destruct (negb (isFinite current)); [discriminate|].
  cbv zeta. destruct (_ || _); [discriminate|]. apply list_elem_of_lookup_2.
Qed.

(** Decided by going through the seven speeds. *)
Lemma stepRate_reverse speed next : speed ∈ reverse_speeds ->
  stepRate rates (speed * num_of_Z (-100))%num (-1) = Some next -> (- next / num_of_Z 100)%num ∈ reverse_speeds.
Proof.
  intros Hs E.
  assert (A : forallb (fun sp => match stepRate rates (sp * num_of_Z (-100))%num (-1) with
      | Some next => bool_decide ((- next / num_of_Z 100)%num ∈ reverse_speeds) | None => true end) reverse_speeds = true)
    by (vm_compute; reflexivity).
  pose proof (forallb_elem _ _ _ A Hs) as B. cbv beta in B. rewrite E in B. exact (bool_decide_eq_true_1 _ B).
Qed.

Section Rates.
Context {V : Type} `{PlayerLaws V}.
Variables (cfg : config) (spf : num).

(** The page's speed is one of the reverse speeds, the player's one of those it
    was ever given, and no rewind interval runs but the one the page knows. *)
Record tuned (s : state V) : Prop := {
  tuned_reverse : revSpeed s ∈ reverse_speeds;
  tuned_player : forall v, vid s = Some v -> playbackRate v ∈ speeds;
  tuned_interval : intervals s = [] \/ exists i, intervalRewind s = Some i /\ intervals s = [i];
}.

Ltac set_field := let C := fresh in intros C; destruct C as [C1 C2 C3]; split; [exact C1|exact C2|exact C3].
Lemma tuned_emit e x : tuned x -> tuned (emit e x). Proof. set_field. Qed.
Lemma tuned_eventData v x : tuned x -> tuned (x <| eventData := v |>). Proof. set_field. Qed.
Lemma tuned_prevEventId v x : tuned x -> tuned (x <| prevEventId := v |>). Proof. set_field. Qed.
Lemma tuned_nextEventId v x : tuned x -> tuned (x <| nextEventId := v |>). Proof. set_field. Qed.
Lemma tuned_lastEventId v x : tuned x -> tuned (x <| lastEventId := v |>). Proof. set_field. Qed.
Lemma tuned_zmsBroke v x : tuned x -> tuned (x <| zmsBroke := v |>). Proof. set_field. Qed.
Lemma tuned_polling v x : tuned x -> tuned (x <| polling := v |>). Proof. set_field. Qed.
Lemma tuned_streamStatus v x : tuned x -> tuned (x <| streamStatus := v |>). Proof. set_field. Qed.
Lemma tuned_evtStream v x : tuned x -> tuned (x <| evtStream := v |>). Proof. set_field. Qed.
Lemma tuned_rate_select v x : tuned x -> tuned (x <| rate_select := v |>). Proof. set_field. Qed.
Lemma tuned_shows_pause v x : tuned x -> tuned (x <| shows_pause := v |>). Proof. set_field. Qed.
Lemma tuned_relay v x : tuned x -> tuned (x <| relay := v |>). Proof. set_field. Qed.
Lemma tuned_wire v x : tuned x -> tuned (x <| wire := v |>). Proof. set_field. Qed.

Lemma tuned_revSpeed r x : r ∈ reverse_speeds -> tuned x -> tuned (x <| revSpeed := r |>).
Proof. intros Hr [C1 C2 C3]. split; [exact Hr|exact C2|exact C3]. Qed.

Lemma tuned_player_rate r x : r ∈ speeds -> tuned x -> tuned (with_vid (set_playbackRate r) x).
Proof.
  intros Hr [C1 C2 C3]. split; [exact C1| |exact C3]. intros v E. change (set_playbackRate r <$> vid x = Some v) in E.
  destruct (vid x) as [v0|]; [|discriminate]. injection E as <-. rewrite rate_set. exact Hr.
Qed.

Lemma tuned_player_other f x : (forall v, playbackRate (f v) = playbackRate v) -> tuned x -> tuned (with_vid f x).
Proof.
  intros Hf [C1 C2 C3]. split; [exact C1| |exact C3]. intros v E. change (f <$> vid x = Some v) in E.
  destruct (vid x) as [v0|]; [|discriminate]. injection E as <-. rewrite Hf. apply C2. reflexivity.
Qed.

Lemma clear_intervals x : tuned x -> intervals (clear_rewind x) = [].
Proof.
  intros [_ _ C]. unfold clear_rewind. destruct C as [E|(i & Ei & E)].
  - destruct (intervalRewind x); [|exact E]. fields. rewrite E. reflexivity.
  - rewrite Ei. fields. rewrite E, filter_cons_False by tauto. reflexivity.
Qed.

Lemma tuned_clear x : tuned x -> tuned (clear_rewind x).
Proof.
  intros T. pose proof (clear_intervals x T) as E. unfold clear_rewind in *. destruct (intervalRewind x); [|exact T].
  destruct T as [C1 C2 _]. split; [exact C1|exact C2|left; exact E].
Qed.

Lemma half_reverse : Fin (1 # 2) ∈ reverse_speeds.
Proof. apply (bool_decide_eq_true_1 _). vm_compute. reflexivity. Qed.

Lemma one_speed : num_of_Z 1 ∈ speeds.
Proof. apply (bool_decide_eq_true_1 _). vm_compute. reflexivity. Qed.

Lemma zero_speed : num_of_Z 0 ∈ speeds.
Proof. apply (bool_decide_eq_true_1 _). vm_compute. reflexivity. Qed.

Lemma rate_speed r : r ∈ rates -> (r / num_of_Z 100)%num ∈ speeds.
Proof. intros Hr. unfold speeds. apply list_elem_of_fmap. exists r. auto. Qed.

(** stopRewind leaves no interval running. *)
Lemma tuned_stopRewind x : tuned x -> tuned (stopRewind x) /\ intervals (stopRewind x) = [].
Proof.
  intros T. pose proof (clear_intervals x T) as E. destruct (tuned_clear x T) as [C1 C2 _]. split.
  - split; [exact half_reverse|exact C2|left; exact E].
  - exact E.
Qed.

Lemma tuned_start x : intervals x = [] -> tuned x -> tuned (start_rewind x).
Proof.
  intros E [C1 C2 _]. split; [exact C1|exact C2|]. right. exists (next_interval x). split; [reflexivity|].
  change (next_interval x :: intervals x = [next_interval x]). rewrite E. reflexivity.
Qed.

Create HintDb tuned discriminated.
#[local] Hint Resolve tuned_emit tuned_eventData tuned_prevEventId tuned_nextEventId tuned_lastEventId tuned_zmsBroke tuned_polling
  tuned_streamStatus tuned_evtStream tuned_rate_select tuned_shows_pause tuned_relay tuned_wire tuned_revSpeed tuned_player_rate
  tuned_player_other tuned_clear tuned_start clear_intervals one_speed zero_speed rate_speed rate_time rate_play rate_pause : tuned.
#[local] Opaque upd.

Ltac tune :=
  unfold set_rate, goToEvent, quit_zms, streamPlay, streamPause, eventQuery, streamReq;
  cbv zeta; repeat case_match; auto 15 with tuned.

Lemma tuned_stopFastRev x : tuned x -> tuned (stopFastRev x).
Proof. intros T. unfold stopFastRev. pose proof (proj1 (tuned_stopRewind x T)). tune. Qed.
#[local] Hint Resolve tuned_stopFastRev : tuned.
Lemma tuned_pauseClicked x : tuned x -> tuned (pauseClicked cfg x).
Proof. intros T. unfold pauseClicked. tune. Qed.
#[local] Hint Resolve tuned_pauseClicked : tuned.
Lemma tuned_rewind_tick x : tuned x -> tuned (rewind_tick x).
Proof. intros T. unfold rewind_tick. tune. Qed.
Lemma tuned_streamPrev x : tuned x -> tuned (streamPrev cfg x).
Proof. intros T. unfold streamPrev. tune. Qed.
Lemma tuned_streamNext x : tuned x -> tuned (streamNext cfg x).
Proof. intros T. unfold streamNext. tune. Qed.
#[local] Hint Resolve tuned_rewind_tick tuned_streamPrev tuned_streamNext : tuned.
Lemma tuned_prevEvent x : tuned x -> tuned (prevEvent cfg x).
Proof. intros T. unfold prevEvent. tune. Qed.
Lemma tuned_nextEvent x : tuned x -> tuned (nextEvent cfg x).
Proof. intros T. unfold nextEvent. tune. Qed.
Lemma tuned_vjsReplay x : tuned x -> tuned (vjsReplay cfg x).
Proof. intros T. unfold vjsReplay. tune. Qed.
Lemma tuned_vjsPlay x : tuned x -> tuned (vjsPlay x).
Proof. intros T. unfold vjsPlay. tune. Qed.
Lemma tuned_restart o x : tuned x -> tuned (restartZmsStream o x).
Proof. intros T. unfold restartZmsStream. tune. Qed.
#[local] Hint Resolve tuned_vjsPlay tuned_restart : tuned.
Lemma tuned_playClicked x : tuned x -> tuned (playClicked cfg x).
Proof. intros T. unfold playClicked. tune. Qed.
Lemma tuned_streamSeek o x : tuned x -> tuned (streamSeek cfg o x).
Proof. intros T. unfold streamSeek. tune. Qed.
Lemma tuned_streamScale o x : tuned x -> tuned (streamScale cfg o x).
Proof. intros T. unfold streamScale. tune. Qed.
#[local] Hint Resolve tuned_prevEvent tuned_nextEvent tuned_vjsReplay tuned_playClicked tuned_streamSeek tuned_streamScale : tuned.

Lemma tuned_streamFastFwd x : tuned x -> tuned (streamFastFwd cfg x).
Proof.
  intros T. unfold streamFastFwd. destruct (vid x); [|tune]. cbv zeta.
  set (y := if negb _ then stopFastRev x else x). assert (Ty : tuned y) by (unfold y; tune). clearbody y.
  destruct (vid y); [|exact Ty]. destruct (stepRate rates _ 1) as [next|] eqn:E; [|exact Ty].
  apply stepRate_in in E. tune.
Qed.

Lemma tuned_streamFastRev x : tuned x -> tuned (streamFastRev cfg x).
Proof.
  intros T. unfold streamFastRev. destruct (vid x); [|tune].
  destruct (stepRate rates (revSpeed x * num_of_Z (-100))%num (-1)) as [next|] eqn:E; [|exact T].
  apply (stepRate_reverse _ _ (tuned_reverse x T)) in E. cbv zeta.
  set (y := x <| revSpeed := (- next / num_of_Z 100)%num |>). assert (Ty : tuned y) by (unfold y; auto with tuned).
  apply tuned_start; [|auto with tuned]. exact (clear_intervals y Ty).
Qed.

Lemma reverse_rate r : r ∈ rates -> (r <? num_of_Z 0)%num = true -> (- r / num_of_Z 100)%num ∈ reverse_speeds.
Proof.
  assert (A : forallb (fun r => negb (r <? num_of_Z 0)%num || bool_decide ((- r / num_of_Z 100)%num ∈ reverse_speeds)) rates = true)
    by (vm_compute; reflexivity).
  intros Hr Hn. pose proof (forallb_elem _ _ _ A Hr) as B. cbv beta in B. rewrite Hn in B. exact (bool_decide_eq_true_1 _ B).
Qed.

(** An option of the select is read back as the rate it stands for. *)
Lemma option_rate r : r ∈ rates -> js_parseInt (VStr (num_to_string r)) = r.
Proof.
  assert (A : forallb (fun r => bool_decide (js_parseInt (VStr (num_to_string r)) = r)) rates = true) by (vm_compute; reflexivity).
  intros Hr. exact (bool_decide_eq_true_1 _ (forallb_elem _ _ _ A Hr)).
Qed.

Lemma tuned_changeRate x r : r ∈ rates -> rate_select x = VStr (num_to_string r) -> tuned x -> tuned (changeRate cfg x).
Proof.
  intros Hr Er T. unfold changeRate. rewrite Er, (option_rate r Hr). cbv zeta. apply tuned_emit.
  destruct (negb (ntruthy r)); [auto with tuned|]. destruct (r <? num_of_Z 0)%num eqn:N.
  - destruct (vid x); [|tune]. pose proof (reverse_rate r Hr N).
    set (y := x <| revSpeed := (- r / num_of_Z 100)%num |>). assert (Ty : tuned y) by (unfold y; auto with tuned).
    apply tuned_start; [exact (clear_intervals y Ty)|auto with tuned].
  - destruct (vid x); [|tune]. pose proof (proj1 (tuned_stopRewind x T)). auto with tuned.
Qed.

Lemma tuned_status_length st x : tuned x -> tuned (status_length st x).
Proof. intros T. unfold status_length. tune. Qed.
Lemma tuned_status_event i x : tuned x -> tuned (status_event i x).
Proof. intros T. unfold status_event. tune. Qed.
Lemma tuned_status_lookup now st x : tuned x -> tuned (status_lookup now st x).
Proof. intros T. unfold status_lookup, nearEventsQuery, hints_act. tune. Qed.
Lemma tuned_status_rate st x : tuned x -> tuned (status_rate st x).
Proof. intros T. unfold status_rate. tune. Qed.
Lemma tuned_status_scale st x : tuned x -> tuned (status_scale cfg st x).
Proof. intros T. unfold status_scale. tune. Qed.
#[local] Hint Resolve tuned_status_length tuned_status_event tuned_status_lookup tuned_status_rate tuned_status_scale : tuned.
Lemma tuned_getCmdResponse now r x : tuned x -> tuned (getCmdResponse cfg now r x).
Proof. intros T. unfold getCmdResponse, sendZmsHints, hints_act. tune. Qed.

Lemma tuned_handle e x : tuned x -> tuned (handle cfg spf x e).
Proof.
  intros T. destruct e; cbn [handle]; try solve [auto with tuned].
  - unfold streamQuery. tune.
  - apply tuned_getCmdResponse, T.
  - unfold near_settles, getNearEventsResponse, sendZmsHints, hints_act. tune.
  - unfold hints_act. tune.
  - unfold hints_act. tune.
  - unfold img_onload, hints_act. tune.
  - unfold getEventResponse. tune.
  - tune.
  - destruct (rates !! rate) as [r|] eqn:E; [|exact T]. apply list_elem_of_lookup_2 in E. auto with tuned.
  - tune.
  - destruct (rates !! rate) as [r|] eqn:E; [|exact T]. apply list_elem_of_lookup_2 in E.
    apply (tuned_changeRate _ r E); [reflexivity|auto with tuned].
  - apply tuned_streamFastFwd, T.
  - apply tuned_streamFastRev, T.
  - unfold streamSlowFwd. tune.
  - unfold streamSlowRev. tune.
Qed.

Lemma tuned_run es x : tuned x -> tuned (run cfg spf es x).
Proof. revert x. induction es as [|e es IH]; intros x T; [exact T|]. apply IH, tuned_handle, T. Qed.

Lemma tuned_init video e img scale auth_relay now : (forall v, video = Some v -> playbackRate v ∈ speeds) ->
  tuned (initPage video e img scale auth_relay now).
Proof. intros Hv. split; [exact half_reverse|exact Hv|left; reflexivity]. Qed.


(** At most one rewind interval runs, the one the page can clear; and choosing
    a forward rate stops it and plays at exactly that rate. *)
Theorem one_rewind_interval video e img scale auth_relay now (es : list event) :
  (forall v, video = Some v -> playbackRate v ∈ speeds) ->
  let s := run cfg spf es (initPage video e img scale auth_relay now) in
  (intervals s = [] \/ exists i, intervalRewind s = Some i /\ intervals s = [i]) /\
  forall v i r, vid s = Some v -> rates !! i = Some r -> nltb (num_of_Z 0) r = true ->
    let s' := handle cfg spf s (SelectsRate i) in
    intervals s' = [] /\ playbackRate <$> vid s' = Some (r / num_of_Z 100)%num.
Proof.
  intros Hv s. pose proof (tuned_run es _ (tuned_init video e img scale auth_relay now Hv)) as T. fold s in T.
  split; [apply (tuned_interval _ T)|]. intros v i r Ev Ei Hr.
  assert (Er : r ∈ rates) by (apply (list_elem_of_lookup_2 _ _ _ Ei)).
  assert (F : ntruthy r = true /\ (r <? num_of_Z 0)%num = false).
  { assert (A : forallb (fun r => negb (nltb (num_of_Z 0) r) || (ntruthy r && negb (r <? num_of_Z 0)%num)) rates = true)
      by (vm_compute; reflexivity).
    pose proof (forallb_elem _ _ _ A Er) as B. cbv beta in B. rewrite Hr in B. cbn [negb orb] in B. bool_to_prop. auto. }
  cbn [handle]. rewrite Ei. unfold changeRate. change (rate_select (s <| rate_select := VStr (num_to_string r) |>)) with (VStr (num_to_string r)).
  rewrite (option_rate r Er). destruct F as [F1 F2]. cbv zeta. rewrite F1, F2. cbn [negb].
  set (y := s <| rate_select := VStr (num_to_string r) |>). assert (Ty : tuned y) by (unfold y; auto with tuned).
  assert (Ey : vid y = Some v) by exact Ev. clearbody y. rewrite Ey. pose proof (proj2 (tuned_stopRewind y Ty)) as C. split; [exact C|].
  change (playbackRate <$> (set_playbackRate (r / num_of_Z 100)%num <$> vid (clear_rewind y)) = Some (r / num_of_Z 100)%num).
  assert (Ec : vid (clear_rewind y) = Some v) by (unfold clear_rewind; case_match; exact Ey).
  rewrite Ec. cbn. rewrite rate_set. reflexivity.
Qed.

Lemma vid_with_vid f (x : state V) : vid (with_vid f x) = f <$> vid x.
Proof. reflexivity. Qed.

Lemma vid_clear_rewind (x : state V) : vid (clear_rewind x) = vid x.
Proof. unfold clear_rewind. case_match; reflexivity. Qed.

(** Fast forward stops a rewind only when its speed is not one half: after the
    rate -1/2x is chosen, fast forward leaves the rewind interval running, and its
    next tick sets the player's rate back to 0. *)
Theorem fastfwd_keeps_rewinding (s : state V) (v : V) :
  vid s = Some v ->
  let s' := run cfg spf [SelectsRate 5; ClicksFastFwd] s in
  exists i, i ∈ intervals s' /\ forall w, vid s' = Some w -> nleb (currentTime w) (num_of_Z 0) = false ->
    playbackRate <$> vid (handle cfg spf s' (RewindTick i)) = Some (num_of_Z 0).
Proof.
  intros Ev s'. set (s1 := handle cfg spf s (SelectsRate 5)).
  assert (P : revSpeed s1 = Fin (1 # 2) /\ next_interval s ∈ intervals s1 /\ vid s1 = Some v).
  { unfold s1. cbn [handle]. change (rates !! 5%nat) with (Some (num_of_Z (-50))). cbv beta iota. unfold changeRate.
    change (rate_select (s <| rate_select := VStr (num_to_string (num_of_Z (-50))) |>)) with (VStr (num_to_string (num_of_Z (-50)))).
    rewrite option_rate by (apply (bool_decide_eq_true_1 _); vm_compute; reflexivity). cbv zeta.
    change (ntruthy (num_of_Z (-50))) with true. change (num_of_Z (-50) <? num_of_Z 0)%num with true.
    change (vid (s <| rate_select := VStr (num_to_string (num_of_Z (-50))) |>)) with (vid s). rewrite Ev. cbn [negb].
    set (y := s <| rate_select := _ |> <| revSpeed := _ |>).
    assert (Ey : revSpeed (clear_rewind y) = revSpeed y /\ next_interval (clear_rewind y) = next_interval y /\ vid (clear_rewind y) = vid y)
      by (unfold clear_rewind; destruct (intervalRewind y); repeat split; reflexivity).
    destruct Ey as (E1 & E2 & E3). repeat split.
    - change (revSpeed (clear_rewind y) = Fin (1 # 2)). rewrite E1. change ((- num_of_Z (-50) / num_of_Z 100)%num = Fin (1 # 2)). vm_compute. reflexivity.
    - change (next_interval s ∈ next_interval (clear_rewind y) :: intervals (clear_rewind y)). rewrite E2. apply list_elem_of_here.
    - change (vid (clear_rewind y) = Some v). rewrite E3. exact Ev. }
  destruct P as (P1 & P2 & P3). exists (next_interval s).
  assert (Q : intervals s' = intervals s1).
  { change s' with (streamFastFwd cfg s1). unfold streamFastFwd. rewrite P3, P1. change (Fin (1 # 2) =? Fin (1 # 2))%num with true.
    cbn [negb]. cbv zeta. rewrite P3. case_match; reflexivity. }
  split; [rewrite Q; exact P2|]. intros w Ew Et. cbn [handle]. rewrite bool_decide_true by (rewrite Q; exact P2).
  unfold rewind_tick. rewrite Ew, Et, !vid_with_vid, Ew. cbn. rewrite rate_time, rate_set. reflexivity.
Qed.

(** A rewind that reached the start leaves the player at rate 0, and the play
    button then plays at that rate: the video stands still until it is paused. *)
Theorem rewind_end_stuck (s : state V) (v : V) (i : nat) :
  vid s = Some v -> tuned s -> intervals s = [i] -> playbackRate v = num_of_Z 0 -> nle (currentTime v) (num_of_Z 0) ->
  let s' := run cfg spf [RewindTick i; ClicksPlay] s in
  intervals s' = [] /\ vid s' = Some (play (pause v)) /\ playbackRate (play (pause v)) = num_of_Z 0.
Proof.
  intros Ev T Ei Er Et s'. set (s1 := handle cfg spf s (RewindTick i)).
  assert (E1 : s1 = with_vid pause (clear_rewind s)).
  { unfold s1. cbn [handle]. rewrite bool_decide_true by (rewrite Ei; apply list_elem_of_here).
    unfold rewind_tick. rewrite Ev. unfold nle in Et. rewrite Et. reflexivity. }
  assert (E2 : vid s1 = Some (pause v)) by (rewrite E1, vid_with_vid, vid_clear_rewind, Ev; reflexivity).
  assert (E3 : intervals s1 = []) by (rewrite E1; exact (clear_intervals s T)).
  change s' with (playClicked cfg s1). unfold playClicked. cbv zeta.
  set (y := if negb _ then _ else s1). assert (Ey : vid y = Some (pause v) /\ intervals y = []) by (unfold y; case_match; auto).
  destruct Ey as (Ey1 & Ey2). clearbody y. rewrite Ey1, paused_pause, vid_with_vid, Ey1.
  split; [exact Ey2|]. split; [reflexivity|]. rewrite rate_play, rate_pause. exact Er.
Qed.

(** In the mode that replays all events one after the other, the end of a
    video whose event has an end date that parses does nothing at all, although
    there is a next event. *)
Theorem replay_all_stops (s : state V) (v : V) :
  replayMode cfg = "all" -> vid s = Some v -> neqb (nextEventId s) (num_of_Z 0) = false ->
  js_truthy (EndDateTime (eventData s)) = true ->
  ntruthy (date_parse cfg (js_to_string (EndDateTime (eventData s)))) = true ->
  handle cfg spf s VideoEnds = s.
Proof.
  intros Em Ev En Ee Ed. cbn [handle]. rewrite Ev. unfold vjsReplay. rewrite Em. cbn -[String.eqb nextEventId].
  change (String.eqb "all" "single") with false. change (String.eqb "all" "all") with true. cbv iota.
  rewrite En, Ee, Ed. reflexivity.
Qed.
End Rates.

(** ** Stepping through the rates *)

Lemma isFinite_Fin a : isFinite a = true -> exists q, a = Fin q.
Proof. destruct a as [| |q]; try discriminate. intros _. exists q. reflexivity. Qed.

Definition closest (xs : list num) (c : num) (j : nat) : Prop :=
  exists x, xs !! j = Some x /\ forall k y, xs !! k = Some y -> nle (nabs (x - c)) (nabs (y - c)).

Lemma distance_not_NaN p q : nabs (Fin p - Fin q)%num <> NaN.
Proof. rewrite nabs_sub. unfold rnd. repeat case_match; discriminate. Qed.

Lemma nearest_from_closest rest : forall done best index c,
  Forall (fun x => isFinite x = true) (done ++ rest)%list -> isFinite c = true ->
  done !! index = Some best -> (forall k y, done !! k = Some y -> nle (nabs (best - c)) (nabs (y - c))) ->
  closest (done ++ rest)%list c (nearest_from rest c best index (length done)).
Proof.
  induction rest as [|y rest IH]; intros done best index c Hf Hc Hb Hm; cbn [nearest_from].
  - rewrite app_nil_r. exists best. auto.
  - assert (E : (done ++ y :: rest = (done ++ [y]) ++ rest)%list) by (rewrite <- app_assoc; reflexivity).
    assert (L : S (length done) = length (done ++ [y])) by (rewrite length_app; cbn; lia).
    assert (Fy : isFinite y = true) by (rewrite Forall_app, Forall_cons in Hf; apply Hf).
    assert (Fb : isFinite best = true).
    { rewrite Forall_app in Hf. exact (proj1 (Forall_forall _ _) (proj1 Hf) _ (list_elem_of_lookup_2 _ _ _ Hb)). }
    pose proof Hc as Hc'. apply isFinite_Fin in Hc as (c0 & ->), Fy as (y0 & ->), Fb as (b0 & ->).
    rewrite L. destruct (nabs (Fin y0 - Fin c0) <? nabs (Fin b0 - Fin c0))%num eqn:C.
    + rewrite E in Hf |- *. apply IH; [exact Hf|exact Hc'|apply list_lookup_middle; reflexivity|]. intros k z Hk.
      apply lookup_snoc_Some in Hk. destruct Hk as [[_ Hk]|[_ <-]]; [|apply nle_refl, distance_not_NaN].
      eapply nle_trans; [apply nlt_nle, C|exact (Hm k z Hk)].
    + apply nltb_false in C; try apply distance_not_NaN.
      rewrite E in Hf |- *. apply IH; [exact Hf|exact Hc'|apply lookup_app_l_Some, Hb|]. intros k z Hk.
      apply lookup_snoc_Some in Hk. destruct Hk as [[_ Hk]|[_ <-]]; [exact (Hm k z Hk)|exact C].
Qed.

Lemma indexOf_Some xs c j : indexOf xs c = Some j -> exists x, xs !! j = Some x /\ neqb x c = true.
Proof.
  revert j. induction xs as [|x xs IH]; intros j; cbn [indexOf]; [discriminate|].
  destruct (x =? c)%num eqn:E; [intros [= <-]; exists x; auto|].
  destruct (indexOf xs c) as [j'|]; [|discriminate]. intros [= <-]. destruct (IH j' eq_refl) as (y & Hy). exists y. exact Hy.
Qed.

Lemma indexOf_closest xs c j : Forall (fun x => isFinite x = true) xs -> isFinite c = true ->
  indexOf xs c = Some j -> closest xs c j.
Proof.
  intros Hf Hc E. destruct (indexOf_Some _ _ _ E) as (x & Hx & Ex). exists x. split; [exact Hx|]. intros k y Hy.
  rewrite Forall_forall in Hf. pose proof (Hf x (list_elem_of_lookup_2 _ _ _ Hx)) as Fx.
  pose proof (Hf y (list_elem_of_lookup_2 _ _ _ Hy)) as Fy.
  apply isFinite_Fin in Hc as (c0 & ->), Fx as (x0 & ->), Fy as (y0 & ->). rewrite !nabs_sub. apply nabs_rnd_mono.
  unfold neqb in Ex. bool_to_prop. apply nle_Fin in H. apply nle_Fin in H0.
  assert (Q0 : (x0 + Qred (- c0) == 0)%Q) by (rewrite Qred_correct; lra). rewrite Q0. apply Qabs_nonneg.
Qed.

(** From any finite rate, listed or not, stepRate goes to the neighbour, in the
    direction asked, of a rate of the list that is nowhere farther than another,
    and answers null exactly when that neighbour would be off the list. *)
Theorem stepRate_spec (list : list num) (current : num) (direction : Z) :
  Forall (fun x => isFinite x = true) list -> list <> [] -> isFinite current = true ->
  exists j, closest list current j /\
    stepRate list current direction =
      (if (0 <=? Z.of_nat j + direction) && (Z.of_nat j + direction <? Z.of_nat (length list))
       then list !! Z.to_nat (Z.of_nat j + direction) else None).
Proof.
  intros Hf Hn Hc.
  exists (match indexOf list current with Some i => i | None => nearest list current end). split.
  - destruct (indexOf list current) as [j|] eqn:E; [exact (indexOf_closest _ _ _ Hf Hc E)|].
    destruct list as [|x xs]; [congruence|]. apply (nearest_from_closest xs [x] x 0 current Hf Hc eq_refl).
    intros [|k] y Hy; [|discriminate Hy]. injection Hy as <-.
    apply Forall_cons in Hf. destruct Hf as [Fx _]. apply isFinite_Fin in Hc as (c0 & ->), Fx as (x0 & ->).
    apply nle_refl, distance_not_NaN.
  - unfold stepRate. destruct list as [|x xs]; [congruence|]. rewrite Hc. cbn [negb]. cbv zeta.
    set (j := match indexOf (x :: xs) current with Some i => i | None => nearest (x :: xs) current end). clearbody j.
    destruct (Z.ltb_spec (Z.of_nat j + direction) 0), (Z.leb_spec 0 (Z.of_nat j + direction)); try lia; [reflexivity|].
    rewrite Z.geb_leb. cbn [orb andb].
    destruct (Z.leb_spec (Z.of_nat (length (x :: xs))) (Z.of_nat j + direction)),
      (Z.ltb_spec (Z.of_nat j + direction) (Z.of_nat (length (x :: xs)))); try lia; reflexivity.
Qed.

Lemma stepRate_spec_witness :
  exists j, closest rates (num_of_Z (-30)) j /\
    stepRate rates (num_of_Z (-30)) 1 =
      (if (0 <=? Z.of_nat j + 1) && (Z.of_nat j + 1 <? Z.of_nat (length rates)) then rates !! Z.to_nat (Z.of_nat j + 1) else None).
Proof.
  apply (stepRate_spec rates (num_of_Z (-30)) 1); [repeat constructor|discriminate|reflexivity].
Defined.

(** ** Addresses of the stream image *)

Lemma param_get_delete name n ps : param_get name (param_delete n ps) = if String.eqb n name then None else param_get name ps.
Proof.
  induction ps as [|[k v] ps IH]; cbn [param_delete List.filter fst]; [case_match; reflexivity|].
  destruct (String.eqb k n) eqn:E; cbn [negb].
  - fold (param_delete n ps). rewrite IH. apply String.eqb_eq in E as ->. destruct (String.eqb n name) eqn:E2; [reflexivity|].
    unfold param_get. cbn [List.find fst]. rewrite E2. reflexivity.
  - unfold param_get in *. cbn [List.find fst]. destruct (String.eqb k name) eqn:E2; [|exact IH].
    apply String.eqb_eq in E2 as ->. rewrite String.eqb_sym, E. reflexivity.
Qed.

Lemma param_get_set name n v ps : param_get name (param_set n v ps) = if String.eqb n name then Some v else param_get name ps.
Proof.
  induction ps as [|[k w] ps IH].
  - cbn [param_set]. unfold param_get. cbn [List.find fst]. destruct (String.eqb n name); reflexivity.
  - cbn [param_set fst]. destruct (String.eqb k n) eqn:E.
    + apply String.eqb_eq in E as ->. pose proof (param_get_delete name n ps) as D. unfold param_get in *. cbn [List.find fst].
      destruct (String.eqb n name); [reflexivity|exact D].
    + unfold param_get in *. cbn [List.find fst]. destruct (String.eqb k name) eqn:E2; [|exact IH].
      apply String.eqb_eq in E2 as ->. rewrite String.eqb_sym, E. reflexivity.
Qed.

Section Restart.
Context {V : Type} `{Player V}.
Variables (cfg : config) (spf : num).

(** Seeking while zms is broken opens the stream anew, on the event zms had
    moved on to and with every other parameter but the scale unchanged; when its
    first frame arrives zms counts as working, the hints as not sent, and exactly
    the seek that was asked for is sent. *)
Theorem seek_restarts (s : state V) (img : img_t) (offset : num) :
  vid s = None -> zmsBroke s = true -> evtStream s = Some img ->
  let s' := run cfg spf [Seeks offset; ImgLoads] s in
  exists ps,
    out s' = (out s ++ [OpenStream ps; Request (Auth.appendTo (relay s) (monitorUrl cfg)) (CMD_SEEK offset)])%list /\
    zmsBroke s' = false /\
    wire s' = Wire.act (wire s) Wire.AReset /\
    (js_truthy (lastEventId s) = true -> param_get "event" ps = Some (js_to_string (lastEventId s))) /\
    (forall name, name <> "scale" -> name <> "event" -> name <> "frame" -> param_get name ps = param_get name (params img)).
Proof.
  intros Ev Eb Ei s'. set (s1 := streamSeek cfg offset s).
  set (p1 := param_set "scale" (num_to_string (currentScale s)) (params img)).
  set (ps := if js_truthy (lastEventId s) && negb (bool_decide (param_get "event" p1 = Some (js_to_string (lastEventId s))))
        then param_delete "frame" (param_set "event" (js_to_string (lastEventId s)) p1) else p1).
  assert (E1 : s1 = emit (OpenStream ps) (s <| evtStream := Some (Img ps (Some (Some offset))) |>)).
  { unfold s1, streamSeek. rewrite Ev, Eb. unfold restartZmsStream. rewrite Ei. reflexivity. }
  exists ps. change s' with (img_onload cfg s1). rewrite E1. unfold img_onload.
  change (evtStream (emit ?e (?x <| evtStream := ?v |>))) with v. cbv beta iota zeta.
  set (y := hints_act Wire.AReset _).
  assert (Ey : vid y = None /\ zmsBroke y = false) by (split; [exact Ev|reflexivity]). destruct Ey as (Ey1 & Ey2).
  unfold streamSeek. rewrite Ey1, Ey2. refine (conj _ (conj Ey2 (conj eq_refl (conj _ _)))).
  - unfold y. change (out (streamReq cfg ?c ?x)) with (out x ++ [Request (Auth.appendTo (relay x) (monitorUrl cfg)) c])%list.
    change ((out s ++ [OpenStream ps]) ++ [Request (Auth.appendTo (relay s) (monitorUrl cfg)) (CMD_SEEK offset)]
      = out s ++ [OpenStream ps; Request (Auth.appendTo (relay s) (monitorUrl cfg)) (CMD_SEEK offset)])%list.
    rewrite <- app_assoc. reflexivity.
  - intros T. unfold ps. rewrite T. cbn [andb]. case_bool_decide as D; cbn [negb]; [exact D|].
    rewrite param_get_delete, param_get_set. reflexivity.
  - intros name N1 N2 N3. apply String.eqb_neq in N1, N2, N3. rewrite String.eqb_sym in N1, N2, N3.
    unfold ps. case_match; unfold p1; rewrite ?param_get_delete, ?param_get_set, ?N1, ?N2, ?N3; reflexivity.
Qed.
End Restart.

(** ** The properties at work *)

Definition sample_config (mode : string) : config :=
  Config "https://zm/index.php" "https://zm/" "&filter=1" "&sort=Id" mode (num_of_Z 0)
    (fun s => if String.eqb s "2024-05-01 10:00:00" then num_of_Z 1714557600000 else NaN).

Definition sample_event : event_data := EventData (VNum (num_of_Z 10)) (VStr "60.00") (VStr "2024-05-01 10:00:00").

Definition sample_status (event : Z) : status_t :=
  Status (VNum (num_of_Z 60)) (VNum (num_of_Z 1)) (VNum (num_of_Z event)) (VNum (num_of_Z 1)) (VBool false) VUndef (Auth.AuthData "" "").

(** zms plays event 10; its neighbours are found, sent, and arrive out of order. *)
Definition zms_run : list event :=
  [CmdReply 1100 (Some (Reply "Ok" (Some (sample_status 10))));
   NearSettles 1200 1 (Some (NearEvents "Ok" (VStr "10") (VStr "8") (VStr "12")));
   HintReaches 1; HintSettles 1 (Some (Some ("Ok", ""))); HintReaches 0; HintSettles 0 (Some (Some ("Ok", "")));
   CmdReply 61000 (Some (Reply "Ok" (Some (sample_status 12))))].

Definition sample_img : option img_t :=
  Some (Img [("source", "event"); ("event", "10"); ("frame", "5"); ("scale", "50")] None).


Lemma lookups_are_paced_witness :
  let es := [CmdReply 1100 (Some (Reply "Ok" (Some (sample_status 10)))); NearSettles 1200 1 None;
             CmdReply 1300 (Some (Reply "Ok" (Some (sample_status 10)))); CmdReply 3000 (Some (Reply "Ok" (Some (sample_status 10))))] in
  lookups (out (run (V:=tape) (sample_config "none") (Fin 0) es (initPage None sample_event sample_img (num_of_Z 100) "auth=abc" 1000)))
    = [(num_of_Z 10, 1000); (num_of_Z 10, 3000)] /\
  1000 + Hints.LOOKUP_RETRY_MS <= 3000.
Proof.
  intros es. split; [vm_compute; reflexivity|].
  exact (lookups_are_paced (V:=tape) (sample_config "none") (Fin 0) None sample_event sample_img (num_of_Z 100) "auth=abc" 1000
    es [] (num_of_Z 10) 1000 (num_of_Z 10) 3000 [] ltac:(vm_compute; reflexivity) ltac:(vm_compute; reflexivity)).
Defined.

Definition sample_tape : tape := Tape (num_of_Z 1) (num_of_Z 30) false.

(** Rewind, rewind faster, forward again, as fast as it goes. *)
Definition tape_run : list event :=
  [ClicksFastRev; RewindTick 0; ClicksFastRev; RewindTick 1; SelectsRate 10; ClicksFastFwd; ClicksFastFwd; ClicksFastFwd; ClicksFastFwd;
   ClicksFastFwd].

Lemma sample_listed v : Some sample_tape = Some v -> playbackRate v ∈ speeds.
Proof. intros [= <-]. exact one_speed. Qed.


Lemma one_rewind_interval_witness :
  let s := run (sample_config "none") (Fin 0) (firstn 4 tape_run)
             (initPage (Some sample_tape) sample_event None (num_of_Z 100) "" 0) in
  intervals s = [1%nat] /\
  (let s' := handle (sample_config "none") (Fin 0) s (SelectsRate 10) in
   intervals s' = [] /\ playbackRate <$> vid s' = Some (num_of_Z 100 / num_of_Z 100)%num).
Proof.
  intros s. split; [vm_compute; reflexivity|].
  apply (proj2 (one_rewind_interval (sample_config "none") (Fin 0) (Some sample_tape) sample_event None (num_of_Z 100) "" 0
    (firstn 4 tape_run) sample_listed) (Tape (num_of_Z 0) (Fin (57 # 2)) false) 10%nat); vm_compute; reflexivity.
Defined.

Lemma fastfwd_keeps_rewinding_witness :
  let s := initPage (Some sample_tape) sample_event None (num_of_Z 100) "" 0 in
  let s' := run (sample_config "none") (Fin 0) [SelectsRate 5; ClicksFastFwd] s in
  exists i, i ∈ intervals s' /\ forall w, vid s' = Some w -> nleb (currentTime w) (num_of_Z 0) = false ->
    playbackRate <$> vid (handle (sample_config "none") (Fin 0) s' (RewindTick i)) = Some (num_of_Z 0).
Proof. intros s. exact (fastfwd_keeps_rewinding (sample_config "none") (Fin 0) s sample_tape eq_refl). Defined.

Lemma rewind_end_stuck_witness :
  let s := run (sample_config "none") (Fin 0) [ClicksFastRev; PlayerMoves (Fin (1 # 4)); RewindTick 0]
             (initPage (Some sample_tape) sample_event None (num_of_Z 100) "" 0) in
  let s' := run (sample_config "none") (Fin 0) [RewindTick 0; ClicksPlay] s in
  intervals s' = [] /\ vid s' = Some (Tape (num_of_Z 0) (Fin 0) false) /\ playbackRate (Tape (num_of_Z 0) (Fin 0) false) = num_of_Z 0.
Proof.
  intros s.
  exact (rewind_end_stuck (V:=tape) (sample_config "none") (Fin 0) s (Tape (num_of_Z 0) (Fin 0) false) 0%nat ltac:(vm_compute; reflexivity)
    (tuned_run (sample_config "none") (Fin 0) _ _ (tuned_init (Some sample_tape) sample_event None (num_of_Z 100) "" 0 sample_listed))
    ltac:(vm_compute; reflexivity) eq_refl eq_refl).
Defined.

Lemma replay_all_stops_witness :
  let s := run (sample_config "all") (Fin 0) [NearSettles 1200 1 (Some (NearEvents "Ok" (VStr "10") (VStr "8") (VStr "12")))]
             (initPage (Some sample_tape) sample_event None (num_of_Z 100) "" 0) in
  handle (sample_config "all") (Fin 0) s VideoEnds = s.
Proof.
  intros s. apply (replay_all_stops (sample_config "all") (Fin 0) s sample_tape); vm_compute; reflexivity.
Defined.

Lemma seek_restarts_witness :
  let s := run (V:=tape) (sample_config "none") (Fin 0) (zms_run ++ [CmdReply 62000 (Some (Reply "Error" None))])%list
             (initPage None sample_event sample_img (num_of_Z 100) "auth=abc" 1000) in
  let s' := run (sample_config "none") (Fin 0) [Seeks (num_of_Z 7); ImgLoads] s in
  exists ps,
    out s' = (out s ++ [OpenStream ps; Request (Auth.appendTo (relay s) (monitorUrl (sample_config "none"))) (CMD_SEEK (num_of_Z 7))])%list /\
    zmsBroke s' = false /\ wire s' = Wire.act (wire s) Wire.AReset /\
    (js_truthy (lastEventId s) = true -> param_get "event" ps = Some (js_to_string (lastEventId s))) /\
    (forall name, name <> "scale" -> name <> "event" -> name <> "frame" ->
       param_get name ps = param_get name (params (Img [("source", "event"); ("event", "10"); ("frame", "5"); ("scale", "50")] None))).
Proof.
  intros s. exact (seek_restarts (sample_config "none") (Fin 0) s
    (Img [("source", "event"); ("event", "10"); ("frame", "5"); ("scale", "50")] None) (num_of_Z 7)
    ltac:(vm_compute; reflexivity) ltac:(vm_compute; reflexivity) ltac:(vm_compute; reflexivity)).
Defined.
End EventPage.
