(* ===== verification/ZoneForm.v ===== *)
(** The zone editor's form: views/js/zone.js.

    The page is one state: the values and the disabled flags of the controls of
    document.zoneForm, the pixel twins of the six thresholds, the colour picker,
    the polygon zone.Points with its coordinate inputs, and zone.Area.  A control
    newZone[F] is called F here.  What the page shows or sends is [out]; where the
    handlers read the position of a dragged marker or the size of the picture,
    these are arguments.  Markers, the SVG polygon and the streams are not
    modelled. *)
From stdpp Require Import gmap.
From Stdlib Require Import QArith Qround Lqa HexString.
From S2P Require Import Prelude JsNum JsString NumText.

Open Scope Z_scope.
Open Scope string_scope.
Open Scope js_scope.

(** ** Text and numbers the form needs *)

Definition parseInt16 (s : string) : num :=
  let '(neg, s) := read_sign (trim_start s) in
  let s := if starts_with "0x" s || starts_with "0X" s then slice_from s 2 else s in
  match read_digits 16 s 0 0 with
  | (_, O, _) => NaN
  | (z, _, _) => num_of_Z (signed neg z)
  end.

(** [n.toString(16)] of a whole number *)
Definition to_string16 (n : num) : string :=
  match n with
  | Fin q =>
      match Qfloor q with
      | Z0 => "0"
      | Zpos p => Raw.of_pos p ""
      | Zneg p => "-" ++ Raw.of_pos p ""
      end
  | _ => num_to_string n
  end.

(** [s.slice(-2)] *)
Definition last2 (s : string) : string := slice_from s (String.length s - 2).

(** [n.toFixed(2)]: the whole number of hundredths nearest to |n|, the larger of
    two. *)
Definition toFixed2 (n : num) : string :=
  match n with
  | Fin q =>
      if Qle_bool (inject_Z (10 ^ 21)) (Qabs q) then num_to_string n
      else
        let h := Qfloor (Qabs q * 100 + (1 # 2)) in
        (if qsign q then "-" else "") ++ Z_to_string (h / 100) ++ "."
          ++ (if (h mod 100 <? 10)%Z then "0" else "") ++ Z_to_string (h mod 100)
  | _ => num_to_string n
  end.

(** [ToInt32] *)
Definition wrap32 (z : Z) : Z := (z + 2 ^ 31) mod 2 ^ 32 - 2 ^ 31.
Definition to_int32 (n : num) : Z :=
  match n with Fin q => wrap32 (Z.quot (Qnum q) (Zpos (Qden q))) | _ => 0 end.
Definition shl (z k : Z) : Z := wrap32 (Z.shiftl z k).

(** The text of a number input is a floating-point number as HTML writes them, or
    empty. *)
Definition valid_float (s : string) : bool :=
  let s := match s with String c s' => if Ascii.eqb c "-" then s' else s | _ => s end in
  let '(_, ni, s1) := read_digits 10 s 0 0 in
  let exponent t := match whole_exponent t with Some _ => true | None => false end in
  match s1 with
  | String c s' =>
      if Ascii.eqb c "." then
        let '(_, nf, s2) := read_digits 10 s' 0 0 in negb (nf =? 0)%nat && exponent s2
      else negb (ni =? 0)%nat && exponent s1
  | EmptyString => negb (ni =? 0)%nat
  end.

(** The text a number input keeps of what is assigned to it. *)
Definition number_text (v : jsval) : string :=
  let s := js_to_string v in if valid_float s then s else "".

(** A colour input keeps #rrggbb in lower case, and black otherwise. *)
Definition colour_text (s : string) : string :=
  match toLowerCase s with
  | String c s' =>
      if Ascii.eqb c "#" && (String.length s' =? 6)%nat
         && all_chars (fun c => match digit_val 16 c with Some _ => true | None => false end) s'
      then String c s' else "#000000"
  | EmptyString => "#000000"
  end.

(** ** What a number input keeps *)

Lemma exp_string_whole e : exists z, whole_exponent (exp_string e) = Some z.
Proof.
  unfold exp_string. destruct (Z_to_string_digits (Z.abs e) ltac:(lia)) as [D V].
  assert (N : Z_to_string (Z.abs e) <> "").
  { destruct (Z.eq_dec e 0) as [->|Ne]; [discriminate|]. destruct (Z_to_string_length (Z.abs e) ltac:(lia)) as (L & _).
    intros E. rewrite E in L. cbn in L. lia. }
  assert (L : String.length (Z_to_string (Z.abs e)) <> 0%nat) by (destruct (Z_to_string (Z.abs e)); [congruence|discriminate]).
  pose proof (read_digits_all (Z_to_string (Z.abs e)) "" 0 0 D I) as R. rewrite append_nil_r in R. cbn [Nat.add] in R.
  cbn [String.append whole_exponent]. change (Ascii.eqb "e" "e" || Ascii.eqb "e" "E") with true. cbv iota.
  destruct (e <? 0)%Z; cbn [String.append read_sign].
  - change (Ascii.eqb "-" "-") with true. cbv iota. rewrite R. destruct (String.length _); [congruence|]. eexists. reflexivity.
  - change (Ascii.eqb "+" "-") with false. change (Ascii.eqb "+" "+") with true. cbv iota. rewrite R.
    destruct (String.length _); [congruence|]. eexists. reflexivity.
Qed.

Definition ending (t : string) : Prop := t = "" \/ exists e, t = exp_string e.

Lemma ending_stops t : ending t -> stops t /\ (exists z, whole_exponent t = Some z)
  /\ match t with String c _ => Ascii.eqb c "." = false | "" => True end.
Proof.
  intros [->|[e ->]]; [repeat split; exists 0; reflexivity|].
  destruct (exp_string_reads e) as (S & _ & P). split; [exact S|]. split; [apply exp_string_whole|exact P].
Qed.

(** The formats of Number::toString: digits, perhaps a fraction, perhaps an
    exponent. *)
Inductive numeral : string -> Prop :=
| whole a t : digits a -> a <> "" -> ending t -> numeral (a ++ t)
| fractional a b t : digits a -> a <> "" -> digits b -> b <> "" -> ending t -> numeral (a ++ "." ++ b ++ t).

Lemma pos_to_string_numeral q : (0 < q)%Q -> double q -> numeral (pos_to_string q).
Proof.
  intros Hq Hd. destruct (dec_exp_spec q Hq Hd) as [N1 N2].
  pose proof (shortest_digits q (dec_exp q) Hq Hd N1 N2 17 1 ltac:(lia) ltac:(lia)) as S.
  unfold pos_to_string. destruct (shortest 17 q (dec_exp q) 1) as [[s n] k]. destruct S as (Hk & Hs & _).
  assert (Ps : 0 < s) by (assert (0 < 10 ^ (k - 1)) by (apply Z.pow_pos_nonneg; lia); lia).
  destruct (Z_to_string_digits s ltac:(lia)) as [D _]. pose proof (Z_to_string_width s k Hk Hs) as W.
  set (ds := Z_to_string s) in *.
  assert (ne : forall w, (0 < String.length w)%nat -> w <> "") by (intros [|] L; [cbn in L; lia|discriminate]).
  assert (cut : forall m, (0 < m)%nat -> (m < String.length ds)%nat ->
    digits (slice ds 0 m) /\ slice ds 0 m <> "" /\ digits (slice_from ds m) /\ slice_from ds m <> "").
  { intros m M0 M1. destruct (split_at ds m ltac:(lia)) as [Es El].
    pose proof (append_length (slice ds 0 m) (slice_from ds m)) as L. rewrite Es, El in L.
    assert (Dd : digits (slice ds 0 m) /\ digits (slice_from ds m)) by (apply digits_app; rewrite Es; exact D).
    destruct Dd. repeat split; try assumption; apply ne; lia. }
  destruct ((k <=? n) && (n <=? 21))%Z eqn:C1.
  { rewrite <- (append_nil_r (_ ++ _)). apply whole; [apply digits_app; split; [exact D|apply digits_zeros]| |left; reflexivity].
    apply ne. rewrite append_length. lia. }
  destruct ((0 <? n) && (n <=? 21))%Z eqn:C2.
  { bool_to_prop. assert (n < k) by (apply andb_false_iff in C1; destruct C1; bool_to_prop; lia).
    destruct (cut (Z.to_nat n) ltac:(lia) ltac:(lia)) as (A1 & A2 & A3 & A4).
    rewrite <- (append_nil_r (slice_from _ _)). apply fractional; try assumption. left. reflexivity. }
  destruct ((-6 <? n) && (n <=? 0))%Z.
  { change ("0." ++ zeros (Z.to_nat (- n)) ++ ds) with ("0" ++ "." ++ (zeros (Z.to_nat (- n)) ++ ds)).
    rewrite <- (append_nil_r (zeros _ ++ ds)). apply fractional; try reflexivity; try discriminate; [| |left; reflexivity].
    - apply digits_app. split; [apply digits_zeros|exact D].
    - apply ne. rewrite append_length. lia. }
  destruct (k =? 1)%Z eqn:C4.
  { apply whole; [exact D|apply ne; lia|right; eexists; reflexivity]. }
  bool_to_prop. destruct (cut 1%nat ltac:(lia) ltac:(lia)) as (A1 & A2 & A3 & A4).
  apply fractional; try assumption. right. eexists. reflexivity.
Qed.

Definition unsigned_valid (s : string) : bool :=
  let '(_, ni, s1) := read_digits 10 s 0 0 in
  let exponent t := match whole_exponent t with Some _ => true | None => false end in
  match s1 with
  | String c s' =>
      if Ascii.eqb c "." then
        let '(_, nf, s2) := read_digits 10 s' 0 0 in negb (nf =? 0)%nat && exponent s2
      else negb (ni =? 0)%nat && exponent s1
  | EmptyString => negb (ni =? 0)%nat
  end.

Lemma numeral_valid s : numeral s -> unsigned_valid s = true /\ digit_first s.
Proof.
  intros [a t D N E|a b t D N Db Nb E]; (split; [|apply digits_first; assumption]);
    destruct (ending_stops t E) as (S & [z Z] & P); unfold unsigned_valid.
  - rewrite read_digits_all by assumption. cbn [Nat.add].
    destruct t as [|c t]; [rewrite length_pos by exact N; reflexivity|]. rewrite P, Z, length_pos by exact N. reflexivity.
  - rewrite read_digits_all by (assumption || reflexivity). cbn [String.append Nat.add].
    change (Ascii.eqb "." ".") with true. cbv iota. rewrite read_digits_all by assumption. cbn [Nat.add].
    rewrite Z, length_pos by exact Nb. reflexivity.
Qed.

Lemma valid_float_unsigned s : digit_first s -> valid_float s = unsigned_valid s.
Proof.
  destruct s as [|c s]; [intros []|]. cbn [digit_first]. intros H. destruct (digit_not_other c H) as (_ & M & _).
  unfold valid_float. rewrite M. reflexivity.
Qed.

(** A finite number assigned to a number input is kept in full. *)
Lemma number_text_finite q : wf (Fin q) -> number_text (VNum (Fin q)) = num_to_string (Fin q).
Proof.
  intros [Hd _]. unfold number_text, js_to_string. enough (valid_float (num_to_string (Fin q)) = true) as -> by reflexivity.
  unfold num_to_string. destruct (q ?= 0)%Q eqn:C; [reflexivity| |].
  - apply Qlt_alt in C. assert (Hd' : double (- q)) by (unfold double in *; rewrite rndq_opp, Hd; reflexivity).
    exact (proj1 (numeral_valid _ (pos_to_string_numeral (- q) ltac:(lra) Hd'))).
  - apply Qgt_alt in C. destruct (numeral_valid _ (pos_to_string_numeral q C Hd)) as [V F].
    rewrite valid_float_unsigned by exact F. exact V.
Qed.

Lemma number_text_idem v : number_text (VStr (number_text v)) = number_text v.
Proof. unfold number_text. cbn [js_to_string]. destruct (valid_float (js_to_string v)) eqn:E; [rewrite E|]; reflexivity. Qed.

(** It is read back as the number, and is not empty. *)
Lemma number_text_reads q : wf (Fin q) ->
  (exists v, parseFloat (number_text (VNum (Fin q))) = Fin v /\ (v == q)%Q) /\ number_text (VNum (Fin q)) <> "".
Proof.
  intros W. rewrite number_text_finite by exact W. destruct (parseFloat_to_string q W) as (v & E & Ev).
  split; [exists v; auto|]. intros N. rewrite N in E. vm_compute in E. discriminate E.
Qed.

Module Zone.

(** ** The page's data *)

(** zone.js.php *)
Definition maxX : num := Fin 100.
Definition maxY : num := Fin 100.
Definition monitorArea : num := Fin 10000.

Record preset := Preset { CheckMethodIndex : Z; settings : gmap string string }.

Record zcfg := ZCfg {
  monitorPixelArea : num;
  monitorData_width : num;            (** monitorData[0] *)
  monitorData_height : num;
  presets : gmap string preset;
  optTypes : list string;             (** the options of the two selects *)
  optCheckMethods : list string;
  selfIntersecting : bool;
  controls : list string              (** the named controls in the order of the form *)
}.

Notation pt := (num * num)%type.

(** The messages of validateForm, by the names of their texts. *)
Inductive message :=
| selfIntersectingString | alarmRGBUnsetString | minPixelThresUnsetString | minPixelThresLtMaxString
| filterUnsetString | minAlarmAreaUnsetString | minAlarmAreaLtMaxString | minFilterAreaUnsetString
| minFilterAreaLtMaxString | minFilterLtMinAlarmString | minBlobAreaUnsetString | minBlobAreaLtMaxString
| minBlobLtMinFilterString | minBlobsUnsetString | minBlobsLtMaxString.

Inductive zout :=
| Alert (errors : list message)
| Submit (sent : gmap string string)
| PrivacyAlert
| StopMonitors.

Record page := Page {
  vals : gmap string string;
  off : gset string;
  twins : gmap string string;
  picker : string;
  points : list pt;
  inputs : list (string * string);
  Area : num;
  initialState : option string;
  initialValues : gmap string string;
  initialPoints : option (list pt);
  marked : list bool;
  resetDisabled : bool;
  out : list zout
}.

#[export] Instance eta_page : Eta page := fun s =>
  Page (vals s) (off s) (twins s) (picker s) (points s) (inputs s) (Area s) (initialState s)
    (initialValues s) (initialPoints s) (marked s) (resetDisabled s) (out s).

(** ** Controls *)

Definition thresholds : list string :=
  ["MinAlarmPixels"; "MaxAlarmPixels"; "MinFilterPixels"; "MaxFilterPixels"; "MinBlobPixels"; "MaxBlobPixels"].
Definition colour_fields : list string := ["newAlarmRgbR"; "newAlarmRgbG"; "newAlarmRgbB"].
Definition byte_fields : list string := ["MinPixelThreshold"; "MaxPixelThreshold"] ++ colour_fields.
Definition filter_fields : list string := ["FilterX"; "FilterY"].
Definition count_fields : list string := ["MinBlobs"; "MaxBlobs"; "OverloadFrames"; "ExtendAlarmFrames"].
Definition number_fields : list string := (thresholds ++ byte_fields ++ filter_fields ++ count_fields)%list.

Definition value (f : string) (s : page) : string := default "" (vals s !! f).

(** What control [f] keeps of a value assigned to it: one of its options, a
    number's text, or the text. *)
Definition kept (cfg : zcfg) (f : string) (v : jsval) : string :=
  if String.eqb f "Type" then
    (if bool_decide (js_to_string v ∈ optTypes cfg) then js_to_string v else "")
  else if String.eqb f "CheckMethod" then
    (if bool_decide (js_to_string v ∈ optCheckMethods cfg) then js_to_string v else "")
  else if bool_decide (f ∈ number_fields) then number_text v
  else js_to_string v.

Definition assign (cfg : zcfg) (f : string) (v : jsval) (s : page) : page :=
  s <| vals := <[f := kept cfg f v]> (vals s) |>.

Definition twin (f : string) (s : page) : string := default "" (twins s !! f).
Definition set_twin (f : string) (v : jsval) (s : page) : page :=
  s <| twins := <[f := number_text v]> (twins s) |>.

Definition twin_id (f : string) : string := f ++ "_px".

Definition disable (fs : list string) (s : page) : page := s <| off := list_to_set fs ∪ off s |>.
Definition enable (fs : list string) (s : page) : page := s <| off := off s ∖ list_to_set fs |>.
Definition set_disabled (f : string) (b : bool) (s : page) : page :=
  if b then disable [f] s else enable [f] s.

Definition say (o : zout) (s : page) : page := s <| out := (out s ++ [o])%list |>.

(** ** Change detection *)

Definition reread (x : num) : num := parseFloat (num_to_string x).

(** The value formState compares: a number by its value. *)
Definition normal (number : bool) (v : string) : string :=
  if number && negb (String.eqb v "") then num_to_string (parseFloat v) else v.

Definition control_name (f : string) : string :=
  if bool_decide (f ∈ number_fields) && negb (bool_decide (f ∈ colour_fields))
     || bool_decide (f ∈ ["NumCoords"; "Coords"; "AlarmRGB"; "Name"; "Type"; "Units"; "CheckMethod"; "Area"])
  then "newZone[" ++ f ++ "]" else f.

Definition point_entry (i : nat) (p : string * string) : list string :=
  let n := "newZone[Points][" ++ Z_to_string (Z.of_nat i) ++ "]" in
  [n ++ "[x]=" ++ normal true p.1; n ++ "[y]=" ++ normal true p.2].

(** The rows are dealt out to two tables. *)
Definition point_entries (ps : list (string * string)) : list string :=
  let rows := imap (fun i p => (i, p)) ps in
  (concat (map (fun r => point_entry r.1 r.2) (List.filter (fun r => Nat.even r.1) rows))
   ++ concat (map (fun r => point_entry r.1 r.2) (List.filter (fun r => Nat.odd r.1) rows)))%list.

Definition formState (cfg : zcfg) (s : page) : string :=
  join "&" (map (fun f => (control_name f ++ "=" ++ normal (bool_decide (f ∈ number_fields)) (value f s))%string) (controls cfg)
            ++ point_entries (inputs s))%list.

Definition point_changed (p : pt) (original : option pt) : bool :=
  match original with
  | None => true
  | Some o => negb (String.eqb (toFixed2 (reread p.1)) (toFixed2 (reread o.1)))
              || negb (String.eqb (toFixed2 (reread p.2)) (toFixed2 (reread o.2)))
  end.

Definition markChangedPoints (s : page) : page :=
  match initialPoints s with
  | None => s
  | Some o => s <| marked := imap (fun i p => point_changed p (o !! i)) (points s) |>
  end.

Definition checkDirty (cfg : zcfg) (s : page) : page :=
  match initialState s with
  | None => s
  | Some i => markChangedPoints (s <| resetDisabled := String.eqb (formState cfg s) i |>)
  end.

(** ** Disabled controls *)

Definition syncPixelInputStates (s : page) : page :=
  foldl (fun s f => set_disabled (twin_id f) (bool_decide (f ∈ off s)) s) s thresholds.

Definition hex2 (v : string) : string := last2 ("0" ++ to_string16 (nor (parseInt v) (Fin 0))).

Definition alarmColourFromInputs (s : page) : page :=
  let s := s <| picker := colour_text ("#" ++ hex2 (value "newAlarmRgbR" s) ++ hex2 (value "newAlarmRgbG" s)
                                           ++ hex2 (value "newAlarmRgbB" s)) |> in
  set_disabled "alarmColour" (bool_decide ("newAlarmRgbR" ∈ off s)) s.

(** [picker.value.substr(a, 2)] read as hexadecimal *)
Definition channel (colour : string) (a : nat) : num := parseInt16 (slice colour a (a + 2)).

Definition alarmColourToInputs (cfg : zcfg) (s : page) : page :=
  let c := picker s in
  let s := assign cfg "newAlarmRgbR" (VNum (channel c 1)) s in
  let s := assign cfg "newAlarmRgbG" (VNum (channel c 3)) s in
  let s := assign cfg "newAlarmRgbB" (VNum (channel c 5)) s in
  checkDirty cfg s.

Definition filter_min_max : list string := ["FilterX"; "FilterY"; "MinFilterPixels"; "MaxFilterPixels"].
Definition blob_min_max : list string := ["MinBlobPixels"; "MaxBlobPixels"; "MinBlobs"; "MaxBlobs"].

Definition applyCheckMethod (s : page) : page :=
  let s :=
    if String.eqb (value "CheckMethod" s) "AlarmedPixels" then disable blob_min_max (disable filter_min_max s)
    else if String.eqb (value "CheckMethod" s) "FilteredPixels" then disable blob_min_max (enable filter_min_max s)
    else enable blob_min_max (enable filter_min_max s) in
  syncPixelInputStates s.

Definition always_on : list string :=
  ["CheckMethod"; "MinPixelThreshold"; "MaxPixelThreshold"; "MinAlarmPixels"; "MaxAlarmPixels"; "OverloadFrames"].

Definition not_measured (s : page) : bool :=
  String.eqb (value "Type" s) "Inactive" || String.eqb (value "Type" s) "Privacy".

Definition applyZoneType (s : page) : page :=
  let s :=
    if not_measured s then
      disable (["presetSelector"] ++ colour_fields ++ always_on ++ filter_min_max ++ blob_min_max
               ++ ["ExtendAlarmFrames"])%list s
    else if String.eqb (value "Type" s) "Preclusive" then
      applyCheckMethod (enable ("presetSelector" :: always_on ++ ["ExtendAlarmFrames"])%list (disable colour_fields s))
    else
      applyCheckMethod (disable ["ExtendAlarmFrames"] (enable ("presetSelector" :: colour_fields ++ always_on)%list s)) in
  alarmColourFromInputs (syncPixelInputStates s).

(** ** Percentages and pixels *)

Definition pixelArea (cfg : zcfg) (s : page) : num :=
  nround (Area s / monitorArea * monitorPixelArea cfg)%num.

Definition updatePixelFromPercent (cfg : zcfg) (f : string) (s : page) : page :=
  if negb (bool_decide (f ∈ thresholds)) then s
  else if negb (String.eqb (value f s) "") && (Fin 0 <? pixelArea cfg s)%num then
    set_twin f (VNum (nround (parseFloat (value f s) * pixelArea cfg s / Fin 100)%num)) s
  else set_twin f (VStr "") s.

Definition updatePercentFromPixel (cfg : zcfg) (f : string) (s : page) : page :=
  let area := pixelArea cfg s in
  if negb (String.eqb (twin f s) "") && (Fin 0 <? area)%num then
    let px := nmax (Fin 0) (nmin (parseInt (twin f s)) area) in
    let s := set_twin f (VNum px) s in
    assign cfg f (VNum (nround (px / area * Fin 10000)%num / Fin 100)%num) s
  else assign cfg f (VStr "") s.

Definition updateAllPixelDisplays (cfg : zcfg) (s : page) : page :=
  let areaPct := nround (Area s / monitorArea * Fin 100)%num in
  let s := assign cfg "Area" (VNum areaPct) s in
  foldl (fun s f => updatePixelFromPercent cfg f s) s thresholds.

Definition preset_fields : list string :=
  ["MinPixelThreshold"; "MaxPixelThreshold"; "FilterX"; "FilterY"; "MinAlarmPixels"; "MaxAlarmPixels";
   "MinFilterPixels"; "MaxFilterPixels"; "MinBlobPixels"; "MaxBlobPixels"; "MinBlobs"; "MaxBlobs";
   "OverloadFrames"; "ExtendAlarmFrames"].

Definition preset_value (p : preset) (f : string) : jsval :=
  match settings p !! f with Some v => VStr v | None => VUndef end.

(** [select.selectedIndex = i]: out of range, nothing is selected. *)
Definition option_at (cfg : zcfg) (i : Z) : string :=
  if (i <? 0)%Z then "" else default "" (optCheckMethods cfg !! Z.to_nat i).

Definition applyPreset (cfg : zcfg) (presetId : string) (s : page) : page :=
  match presets cfg !! presetId with
  | None => s
  | Some p =>
      let s := assign cfg "CheckMethod" (VStr (option_at cfg (CheckMethodIndex p))) s in
      let s := foldl (fun s f => assign cfg f (preset_value p f) s) s preset_fields in
      let s := applyCheckMethod s in
      let s := assign cfg "Area" (VNum (Fin 100)) s in
      updateAllPixelDisplays cfg s
  end.

(** ** Limits *)

Definition constrainValue (value loVal hiVal : num) : num :=
  if (value <? loVal)%num then loVal else if (hiVal <? value)%num then hiVal else value.

Definition limitRange (cfg : zcfg) (f : string) (minValue maxValue : num) (s : page) : page :=
  if String.eqb (value f s) "" then s
  else
    let currentValue := parseFloat (value f s) in
    let constrainedValue := constrainValue currentValue (js_parseInt (VNum minValue)) (js_parseInt (VNum maxValue)) in
    if (constrainedValue =? currentValue)%num then s else assign cfg f (VNum constrainedValue) s.

Definition limitRangeToUnsignedByte (cfg : zcfg) (f : string) (s : page) : page :=
  if String.eqb (value f s) "" then s
  else assign cfg f (VNum (constrainValue (parseInt (value f s)) (Fin 0) (Fin 255))) s.

Definition limitFilter (cfg : zcfg) (f : string) (s : page) : page :=
  let s := assign cfg f (VNum (nfloor ((js_Number (VStr (value f s)) - Fin 1) / Fin 2) * Fin 2 + Fin 1)%num) s in
  assign cfg f (VNum (constrainValue (parseInt (value f s)) (Fin 3) (Fin 15))) s.

Definition limitArea (cfg : zcfg) (f : string) (s : page) : page :=
  updatePixelFromPercent cfg f (limitRange cfg f (Fin 0) (Fin 100) s).

(** The oninput handlers set by initPage. *)
Definition oninput (cfg : zcfg) (f : string) (s : page) : page :=
  if bool_decide (f ∈ byte_fields) then
    let s := limitRangeToUnsignedByte cfg f s in
    if bool_decide (f ∈ colour_fields) then alarmColourFromInputs s else s
  else if bool_decide (f ∈ filter_fields) then limitFilter cfg f s
  else if bool_decide (f ∈ thresholds) then limitArea cfg f s
  else s.

(** ** The polygon *)

Definition getCoordString (s : page) : string :=
  join " " (map (fun p : pt => toFixed2 (reread p.1) ++ "," ++ toFixed2 (reread p.2)) (points s)).

Definition trap (a b : pt) : num :=
  ((reread a.1 * reread b.2 - reread b.1 * reread a.2) / Fin 2)%num.

Fixpoint trap_loop (float_area : num) (first : pt) (coords : list pt) : num :=
  match coords with
  | [] => float_area
  | [last_] => float_area + trap last_ first
  | a :: (b :: _) as rest => trap_loop (float_area + trap a b)%num first rest
  end%num.

(** Without a point the last step reads a property of undefined. *)
Definition Polygon_calcArea (coords : list pt) : option num :=
  match coords with
  | [] => None
  | first :: _ => Some (nround (nabs (trap_loop (Fin 0) first coords)))
  end.

Definition updateArea (cfg : zcfg) (s : page) : page :=
  match Polygon_calcArea (points s) with
  | None => s
  | Some a => checkDirty cfg (updateAllPixelDisplays cfg (s <| Area := a |>))
  end.

Definition fixed_input (p : pt) : string * string :=
  (number_text (VStr (toFixed2 (reread p.1))), number_text (VStr (toFixed2 (reread p.2)))).

Definition drawZonePoints (cfg : zcfg) (s : page) : page :=
  checkDirty cfg (s <| inputs := map fixed_input (points s) |>).

(** [Math.round(px / frame * max * 100) / 100] within the picture *)
Definition frame_percent (px frame max : num) : num :=
  constrainValue (nround (px / frame * max * Fin 100) / Fin 100)%num (Fin 0) max.

(** updateActivePoint up to its call of updateArea; [left] and [top] are the
    marker's position. *)
Definition movePoint (index : nat) (left top frameW frameH : num) (s : page) : page :=
  let point_left := if (left <? Fin 0)%num then Fin 0 else left in
  let point_top := if (top <? Fin 0)%num then Fin 0 else top in
  let x := frame_percent point_left frameW maxX in
  let y := frame_percent point_top frameH maxY in
  s <| points := <[index := (x, y)]> (points s) |>
    <| inputs := <[index := (number_text (VStr (toFixed2 x)), number_text (VStr (toFixed2 y)))]> (inputs s) |>.

(** limitPointValue on a coordinate input holding [text]: its new text. *)
Definition limitPointValue (text : string) (loVal hiVal : num) : string :=
  number_text (VNum (constrainValue (parseFloat text) loVal hiVal)).

(** updateX and updateY up to their call of updateArea; [text] is what the input
    holds. *)
Definition moveX (index : nat) (text : string) (s : page) : page :=
  let text := limitPointValue text (Fin 0) maxX in
  let x := parseFloat text in
  s <| inputs := alter (fun p => (text, p.2)) index (inputs s) |>
    <| points := alter (fun p => (x, p.2)) index (points s) |>.
Definition moveY (index : nat) (text : string) (s : page) : page :=
  let text := limitPointValue text (Fin 0) maxY in
  let y := parseFloat text in
  s <| inputs := alter (fun p => (p.1, text)) index (inputs s) |>
    <| points := alter (fun p => (p.1, y)) index (points s) |>.

Definition midpoint (a b : num) : num :=
  (nround ((reread a + reread b) / Fin 2 * Fin 100) / Fin 100)%num.

Definition addPoint (cfg : zcfg) (index : nat) (s : page) : page :=
  let nextIndex := if (length (points s) - 1 <=? index)%nat then 0%nat else S index in
  match points s !! index, points s !! nextIndex with
  | Some a, Some b =>
      let new := (midpoint a.1 b.1, midpoint a.2 b.2) in
      let s := if (nextIndex =? 0)%nat then s <| points := (points s ++ [new])%list |>
               else s <| points := (take nextIndex (points s) ++ new :: drop nextIndex (points s))%list |> in
      drawZonePoints cfg s
  | _, _ => s
  end.

Definition delPoint (cfg : zcfg) (index : nat) (s : page) : page :=
  drawZonePoints cfg (s <| points := delete index (points s) |>).

(** ** Saving and resetting *)

Definition empty (f : string) (s : page) : bool := String.eqb (value f s) "".

(** The first two conditions of a pair of limits. *)
Definition limit_errors (read : string -> num) (unset ltmax : message) (min max : string) (s : page) : list message :=
  if empty min s || (read (value min s) <=? Fin 0)%num then [unset]
  else if (read (value max s) <=? read (value min s))%num && (Fin 0 <? read (value max s))%num then [ltmax]
  else [].

(** ... and the third: not above the limit before. *)
Definition nested_errors (unset ltmax above : message) (min max before : string) (s : page) : list message :=
  match limit_errors parseFloat unset ltmax min max s with
  | [] => if (parseFloat (value before s) <? parseFloat (value min s))%num then [above] else []
  | es => es
  end.

Definition filtered (s : page) : bool :=
  String.eqb (value "CheckMethod" s) "FilteredPixels" || String.eqb (value "CheckMethod" s) "Blobs".

Definition threshold_errors (s : page) : list message :=
  (limit_errors parseInt minPixelThresUnsetString minPixelThresLtMaxString "MinPixelThreshold" "MaxPixelThreshold" s
   ++ (if filtered s && (empty "FilterX" s || empty "FilterY" s) then [filterUnsetString] else [])
   ++ limit_errors parseFloat minAlarmAreaUnsetString minAlarmAreaLtMaxString "MinAlarmPixels" "MaxAlarmPixels" s
   ++ (if filtered s then
         nested_errors minFilterAreaUnsetString minFilterAreaLtMaxString minFilterLtMinAlarmString
           "MinFilterPixels" "MaxFilterPixels" "MinAlarmPixels" s else [])
   ++ (if String.eqb (value "CheckMethod" s) "Blobs" then
         nested_errors minBlobAreaUnsetString minBlobAreaLtMaxString minBlobLtMinFilterString
           "MinBlobPixels" "MaxBlobPixels" "MinFilterPixels" s
         ++ limit_errors parseInt minBlobsUnsetString minBlobsLtMaxString "MinBlobs" "MaxBlobs" s else []))%list.

Definition form_errors (cfg : zcfg) (s : page) : list message :=
  ((if selfIntersecting cfg then [selfIntersectingString] else [])
   ++ (if not_measured s then []
       else (if empty "newAlarmRgbR" s || empty "newAlarmRgbG" s || empty "newAlarmRgbB" s
             then [alarmRGBUnsetString] else []) ++ threshold_errors s))%list.

Definition byte_value (f : string) (s : page) : Z := to_int32 (js_Number (VStr (value f s))).
Definition alarm_rgb (s : page) : Z :=
  Z.lor (Z.lor (shl (byte_value "newAlarmRgbR" s) 16) (shl (byte_value "newAlarmRgbG" s) 8))
        (byte_value "newAlarmRgbB" s).
Definition set_AlarmRGB (cfg : zcfg) (s : page) : page := assign cfg "AlarmRGB" (VNum (num_of_Z (alarm_rgb s))) s.

Definition validateForm (cfg : zcfg) (s : page) : bool * page :=
  let errors := form_errors cfg s in
  let s := if not_measured s then s else set_AlarmRGB cfg s in
  match errors with
  | [] => (true, s)
  | _ => (false, say (Alert errors) s)
  end.

Definition submitForm (cfg : zcfg) (s : page) : page :=
  let s := set_AlarmRGB cfg s in
  let s := assign cfg "NumCoords" (VNum (num_of_Z (Z.of_nat (length (points s))))) s in
  let s := assign cfg "Coords" (VStr (getCoordString s)) s in
  let s := assign cfg "Area" (VNum (Area s)) s in
  say (Submit (filter (fun c => c.1 ∉ off s) (vals s))) s.

Definition saveChanges (cfg : zcfg) (s : page) : page :=
  let '(ok, s) := validateForm cfg s in
  if ok then
    let s := submitForm cfg s in
    let s := if String.eqb (value "Type" s) "Privacy" then say PrivacyAlert s else s in
    say StopMonitors s
  else s.

(** [JSON.parse(JSON.stringify(x))] of a coordinate; the null that stands for NaN
    reads as NaN wherever a coordinate is read. *)
Definition json_coord (x : num) : num := match x with Fin _ => reread x | _ => NaN end.
Definition json_points (ps : list pt) : list pt := map (fun p : pt => (json_coord p.1, json_coord p.2)) ps.

(** resetChanges up to its call of updateArea. *)
Definition restore (cfg : zcfg) (s : page) : page :=
  let s := s <| points := json_points (default [] (initialPoints s)) |> in
  let s := drawZonePoints cfg s in
  let s := foldl (fun s f => match initialValues s !! f with Some v => assign cfg f (VStr v) s | None => s end)
                 s (controls cfg) in
  alarmColourFromInputs (applyZoneType s).

Definition resetChanges (cfg : zcfg) (s : page) : page := checkDirty cfg (updateArea cfg (restore cfg s)).

Definition initially_off : list string :=
  ("presetSelector" :: "CheckMethod" :: byte_fields ++ filter_fields ++ thresholds
   ++ ["MinBlobs"; "MaxBlobs"; "OverloadFrames"])%list.

(** The snapshot of the loaded state that ends initPage. *)
Definition takeInitial (cfg : zcfg) (s : page) : page :=
  let s := s <| initialPoints := Some (json_points (points s)) |> in
  let s := s <| initialValues := vals s |> in
  s <| initialState := Some (formState cfg s) |>.

Definition initPage (cfg : zcfg) (s : page) : page :=
  let s := disable initially_off s in
  let s := updateAllPixelDisplays cfg (applyCheckMethod (applyZoneType s)) in
  let s := drawZonePoints cfg (alarmColourFromInputs s) in
  checkDirty cfg (takeInitial cfg s).
(** ** What the operations leave alone *)

Section Frame.
Context (cfg : zcfg).

Lemma vals_disable fs s : vals (disable fs s) = vals s. Proof. reflexivity. Qed.
Lemma vals_enable fs s : vals (enable fs s) = vals s. Proof. reflexivity. Qed.
Lemma vals_set_disabled f b s : vals (set_disabled f b s) = vals s. Proof. destruct b; reflexivity. Qed.
Lemma vals_set_twin f v s : vals (set_twin f v s) = vals s. Proof. reflexivity. Qed.
Lemma vals_say o s : vals (say o s) = vals s. Proof. reflexivity. Qed.

Lemma vals_foldl (g : page -> string -> page) fs : (forall s f, vals (g s f) = vals s) ->
  forall s, vals (foldl g s fs) = vals s.
Proof. intros H. induction fs as [|f fs IH]; intros s; cbn [foldl]; [reflexivity|]. rewrite IH. apply H. Qed.

Lemma vals_syncPixelInputStates s : vals (syncPixelInputStates s) = vals s.
Proof. apply vals_foldl. intros. apply vals_set_disabled. Qed.

Lemma vals_applyCheckMethod s : vals (applyCheckMethod s) = vals s.
Proof. unfold applyCheckMethod. rewrite vals_syncPixelInputStates. destruct (String.eqb _ _); [reflexivity|]. destruct (String.eqb _ _); reflexivity. Qed.

Lemma vals_alarmColourFromInputs s : vals (alarmColourFromInputs s) = vals s.
Proof. unfold alarmColourFromInputs. rewrite vals_set_disabled. reflexivity. Qed.

Lemma vals_applyZoneType s : vals (applyZoneType s) = vals s.
Proof.
  unfold applyZoneType. rewrite vals_alarmColourFromInputs, vals_syncPixelInputStates. destruct (not_measured s); [reflexivity|].
  destruct (String.eqb _ _); rewrite vals_applyCheckMethod; reflexivity.
Qed.

Lemma vals_updatePixelFromPercent f s : vals (updatePixelFromPercent cfg f s) = vals s.
Proof. unfold updatePixelFromPercent. destruct (negb (bool_decide _)); [reflexivity|]. destruct (_ && _); reflexivity. Qed.

Lemma vals_checkDirty s : vals (checkDirty cfg s) = vals s.
Proof.
  unfold checkDirty, markChangedPoints. destruct (initialState s); [|reflexivity].
  change (initialPoints (s <| resetDisabled := String.eqb (formState cfg s) s0 |>)) with (initialPoints s).
  destruct (initialPoints s); reflexivity.
Qed.

Lemma vals_drawZonePoints s : vals (drawZonePoints cfg s) = vals s.
Proof. unfold drawZonePoints. rewrite vals_checkDirty. reflexivity. Qed.

Lemma vals_addPoint i s : vals (addPoint cfg i s) = vals s.
Proof.
  unfold addPoint. destruct (points s !! i); [|reflexivity]. destruct (points s !! _); [|reflexivity].
  rewrite vals_drawZonePoints. destruct (_ =? 0)%nat; reflexivity.
Qed.

Lemma vals_delPoint i s : vals (delPoint cfg i s) = vals s.
Proof. unfold delPoint. rewrite vals_drawZonePoints. reflexivity. Qed.

Lemma vals_updateAll s : vals (updateAllPixelDisplays cfg s)
  = vals (assign cfg "Area" (VNum (nround (Area s / monitorArea * Fin 100)%num)) s).
Proof. unfold updateAllPixelDisplays. apply (vals_foldl (fun s f => updatePixelFromPercent cfg f s)). intros. apply vals_updatePixelFromPercent. Qed.

Lemma value_vals f s t : vals s = vals t -> value f s = value f t.
Proof. unfold value. intros ->. reflexivity. Qed.

Lemma value_assign f g v s : value f (assign cfg g v s) = if String.eqb f g then kept cfg g v else value f s.
Proof.
  unfold value, assign. change (vals (s <| vals := ?m |>)) with m. destruct (String.eqb_spec f g) as [->|N].
  - rewrite lookup_insert_eq. reflexivity.
  - rewrite lookup_insert_ne by congruence. reflexivity.
Qed.

Lemma value_updateAll f s : f <> "Area" -> value f (updateAllPixelDisplays cfg s) = value f s.
Proof.
  intros N. rewrite (value_vals _ _ _ (vals_updateAll s)), value_assign. destruct (String.eqb_spec f "Area"); [congruence|reflexivity].
Qed.

(** Each control of a list assigned a value of its own. *)
Definition assign_all (g : string -> jsval) (fs : list string) (s : page) : page := foldl (fun s f => assign cfg f (g f) s) s fs.

Lemma value_assign_all g f fs : forall s,
  value f (assign_all g fs s) = if bool_decide (f ∈ fs) then kept cfg f (g f) else value f s.
Proof.
  induction fs as [|x fs IH]; intros s; cbn [assign_all foldl]; [reflexivity|].
  change (foldl _ ?t fs) with (assign_all g fs t). rewrite IH, value_assign.
  destruct (decide (f ∈ fs)) as [H|H].
  - rewrite !bool_decide_true; [reflexivity|right; exact H|exact H].
  - rewrite (bool_decide_false (f ∈ fs)) by exact H. destruct (String.eqb_spec f x) as [->|N].
    + rewrite bool_decide_true by left. reflexivity.
    + rewrite bool_decide_false; [reflexivity|]. rewrite elem_of_cons. tauto.
Qed.

Lemma kept_idem f v : kept cfg f (VStr (kept cfg f v)) = kept cfg f v.
Proof.
  unfold kept. destruct (String.eqb f "Type") eqn:T.
  { cbn [js_to_string]. destruct (bool_decide (js_to_string v ∈ _)) eqn:B; [rewrite B; reflexivity|destruct (bool_decide ("" ∈ _)); reflexivity]. }
  destruct (String.eqb f "CheckMethod") eqn:M.
  { cbn [js_to_string]. destruct (bool_decide (js_to_string v ∈ _)) eqn:B; [rewrite B; reflexivity|destruct (bool_decide ("" ∈ _)); reflexivity]. }
  destruct (bool_decide _); [apply number_text_idem|reflexivity].
Qed.

Lemma kept_empty f : kept cfg f (VStr "") = "".
Proof.
  unfold kept. cbn [js_to_string]. destruct (String.eqb f "Type"); [destruct (bool_decide _); reflexivity|].
  destruct (String.eqb f "CheckMethod"); [destruct (bool_decide _); reflexivity|]. destruct (bool_decide _); reflexivity.
Qed.

(** Every control holds a value it keeps. *)
Definition tidy (m : gmap string string) : Prop := forall f v, m !! f = Some v -> kept cfg f (VStr v) = v.

Lemma tidy_insert m f v : tidy m -> kept cfg f (VStr v) = v -> tidy (<[f := v]> m).
Proof.
  intros T K g w. destruct (decide (g = f)) as [->|N].
  - rewrite lookup_insert_eq. intros [= <-]. exact K.
  - rewrite lookup_insert_ne by congruence. apply T.
Qed.

Lemma tidy_assign f v s : tidy (vals s) -> tidy (vals (assign cfg f v s)).
Proof. intros T. apply (tidy_insert _ f _ T). apply kept_idem. Qed.

Lemma tidy_value m f s : tidy (vals s) -> m = value f s -> kept cfg f (VStr m) = m.
Proof. intros T ->. unfold value. destruct (vals s !! f) as [v|] eqn:E; cbn [default]; [apply (T f v E)|apply kept_empty]. Qed.

Lemma tidy_foldl (g : page -> string -> page) fs : (forall s f, tidy (vals s) -> tidy (vals (g s f))) ->
  forall s, tidy (vals s) -> tidy (vals (foldl g s fs)).
Proof. intros H. induction fs as [|f fs IH]; intros s T; cbn [foldl]; [exact T|]. apply IH, H, T. Qed.

Lemma tidy_updateAll s : tidy (vals s) -> tidy (vals (updateAllPixelDisplays cfg s)).
Proof. intros T. rewrite vals_updateAll. apply tidy_assign, T. Qed.

Lemma tidy_updateArea s : tidy (vals s) -> tidy (vals (updateArea cfg s)).
Proof. intros T. unfold updateArea. destruct (Polygon_calcArea _); [|exact T]. rewrite vals_checkDirty. apply tidy_updateAll, T. Qed.

Lemma tidy_oninput f s : tidy (vals s) -> tidy (vals (oninput cfg f s)).
Proof.
  intros T. unfold oninput, limitRangeToUnsignedByte, limitArea, limitRange, limitFilter.
  destruct (bool_decide (f ∈ byte_fields)).
  { destruct (bool_decide _); rewrite ?vals_alarmColourFromInputs; (destruct (String.eqb _ _); [exact T|apply tidy_assign, T]). }
  destruct (bool_decide (f ∈ filter_fields)); [apply tidy_assign, tidy_assign, T|].
  destruct (bool_decide (f ∈ thresholds)); [|exact T]. rewrite vals_updatePixelFromPercent.
  destruct (String.eqb _ _); [exact T|]. destruct (_ =? _)%num; [exact T|apply tidy_assign, T].
Qed.

Lemma tidy_updatePercentFromPixel f s : tidy (vals s) -> tidy (vals (updatePercentFromPixel cfg f s)).
Proof. intros T. unfold updatePercentFromPixel. destruct (_ && _); apply tidy_assign, T. Qed.

Lemma tidy_applyPreset p s : tidy (vals s) -> tidy (vals (applyPreset cfg p s)).
Proof.
  intros T. unfold applyPreset. destruct (presets cfg !! p); [|exact T]. apply tidy_updateAll, tidy_assign.
  rewrite vals_applyCheckMethod. apply tidy_foldl; [intros; apply tidy_assign; assumption|apply tidy_assign, T].
Qed.

Lemma tidy_alarmColourToInputs s : tidy (vals s) -> tidy (vals (alarmColourToInputs cfg s)).
Proof. intros T. unfold alarmColourToInputs. rewrite vals_checkDirty. do 3 apply tidy_assign. exact T. Qed.

Lemma tidy_restore s : tidy (vals s) -> tidy (vals (restore cfg s)).
Proof.
  intros T. unfold restore. rewrite vals_alarmColourFromInputs, vals_applyZoneType.
  apply (tidy_foldl (fun s f => match initialValues s !! f with Some v => assign cfg f (VStr v) s | None => s end)).
  - intros t f Tt. destruct (initialValues t !! f); [apply tidy_assign|]; exact Tt.
  - rewrite vals_drawZonePoints. exact T.
Qed.

Lemma tidy_saveChanges s : tidy (vals s) -> tidy (vals (saveChanges cfg s)).
Proof.
  intros T. unfold saveChanges, validateForm.
  assert (T' : tidy (vals (if not_measured s then s else set_AlarmRGB cfg s))) by (destruct (not_measured s); [exact T|apply tidy_assign, T]).
  destruct (form_errors cfg s); [|exact T'].
  rewrite vals_say. unfold submitForm. destruct (String.eqb _ "Privacy"); rewrite ?vals_say; do 4 apply tidy_assign; exact T'.
Qed.

End Frame.

Lemma vals_takeInitial cfg s : vals (takeInitial cfg s) = vals s.
Proof. destruct s. reflexivity. Qed.

Lemma tidy_initPage cfg s : tidy cfg (vals s) -> tidy cfg (vals (initPage cfg s)).
Proof.
  intros T. unfold initPage. rewrite vals_checkDirty, vals_takeInitial, vals_drawZonePoints, vals_alarmColourFromInputs.
  apply tidy_updateAll. rewrite vals_applyCheckMethod, vals_applyZoneType. exact T.
Qed.

(** ** The polygon's part of the state *)

Section Shape.
Context (cfg : zcfg).

Definition shape (s : page) := (points s, inputs s, Area s, initialPoints s).

Lemma shape_foldl (g : page -> string -> page) fs : (forall s f, shape (g s f) = shape s) ->
  forall s, shape (foldl g s fs) = shape s.
Proof. intros H. induction fs as [|f fs IH]; intros s; cbn [foldl]; [reflexivity|]. rewrite IH. apply H. Qed.

Lemma shape_assign f v s : shape (assign cfg f v s) = shape s. Proof. reflexivity. Qed.
Lemma shape_set_disabled f b s : shape (set_disabled f b s) = shape s. Proof. destruct b; reflexivity. Qed.
Lemma shape_set_twin f v s : shape (set_twin f v s) = shape s. Proof. reflexivity. Qed.
Lemma shape_disable fs s : shape (disable fs s) = shape s. Proof. reflexivity. Qed.
Lemma shape_enable fs s : shape (enable fs s) = shape s. Proof. reflexivity. Qed.

Lemma shape_sync s : shape (syncPixelInputStates s) = shape s.
Proof. apply shape_foldl. intros. apply shape_set_disabled. Qed.

Lemma shape_applyCheckMethod s : shape (applyCheckMethod s) = shape s.
Proof. unfold applyCheckMethod. rewrite shape_sync. destruct (String.eqb _ _); [reflexivity|]. destruct (String.eqb _ _); reflexivity. Qed.

Lemma shape_alarmColourFromInputs s : shape (alarmColourFromInputs s) = shape s.
Proof. unfold alarmColourFromInputs. rewrite shape_set_disabled. reflexivity. Qed.

Lemma shape_applyZoneType s : shape (applyZoneType s) = shape s.
Proof.
  unfold applyZoneType. rewrite shape_alarmColourFromInputs, shape_sync. destruct (not_measured s); [reflexivity|].
  destruct (String.eqb _ _); rewrite shape_applyCheckMethod; reflexivity.
Qed.

Lemma shape_updatePixelFromPercent f s : shape (updatePixelFromPercent cfg f s) = shape s.
Proof. unfold updatePixelFromPercent. destruct (negb (bool_decide _)); [reflexivity|]. destruct (_ && _); reflexivity. Qed.

Lemma shape_updateAll s : shape (updateAllPixelDisplays cfg s) = shape s.
Proof. unfold updateAllPixelDisplays. rewrite (shape_foldl (fun s f => updatePixelFromPercent cfg f s)); [reflexivity|]. intros. apply shape_updatePixelFromPercent. Qed.

Lemma shape_checkDirty s : shape (checkDirty cfg s) = shape s.
Proof.
  unfold checkDirty, markChangedPoints. destruct (initialState s); [|reflexivity].
  change (initialPoints (s <| resetDisabled := String.eqb (formState cfg s) s0 |>)) with (initialPoints s).
  destruct (initialPoints s); reflexivity.
Qed.

Lemma shape_oninput f s : shape (oninput cfg f s) = shape s.
Proof.
  unfold oninput, limitRangeToUnsignedByte, limitArea, limitRange, limitFilter.
  destruct (bool_decide (f ∈ byte_fields)).
  { destruct (bool_decide _); rewrite ?shape_alarmColourFromInputs; destruct (String.eqb _ _); reflexivity. }
  destruct (bool_decide (f ∈ filter_fields)); [reflexivity|].
  destruct (bool_decide (f ∈ thresholds)); [|reflexivity]. rewrite shape_updatePixelFromPercent.
  destruct (String.eqb _ _); [reflexivity|]. destruct (_ =? _)%num; reflexivity.
Qed.

Lemma shape_updatePercentFromPixel f s : shape (updatePercentFromPixel cfg f s) = shape s.
Proof. unfold updatePercentFromPixel. destruct (_ && _); reflexivity. Qed.

Lemma shape_alarmColourToInputs s : shape (alarmColourToInputs cfg s) = shape s.
Proof. unfold alarmColourToInputs. rewrite shape_checkDirty. reflexivity. Qed.

Lemma shape_points s t : shape s = shape t -> points s = points t /\ inputs s = inputs t /\ Area s = Area t.
Proof. unfold shape. intros [= -> -> -> _]. auto. Qed.

Lemma shape_initial s t : shape s = shape t -> initialPoints s = initialPoints t.
Proof. unfold shape. congruence. Qed.

Lemma shape_updateArea s t : shape s = shape t -> shape (updateArea cfg s) = shape (updateArea cfg t).
Proof.
  intros E. destruct (shape_points s t E) as (P & I & _). unfold updateArea. rewrite P.
  destruct (Polygon_calcArea (points t)); [|exact E]. rewrite !shape_checkDirty, !shape_updateAll.
  unfold shape. fields. rewrite P, I, (shape_initial s t E). reflexivity.
Qed.

Lemma shape_moves s t : shape s = shape t ->
  (forall i x y w h, shape (movePoint i x y w h s) = shape (movePoint i x y w h t))
  /\ (forall i v, shape (moveX i v s) = shape (moveX i v t)) /\ (forall i v, shape (moveY i v s) = shape (moveY i v t)).
Proof.
  intros E. destruct (shape_points s t E) as (P & I & A). unfold shape, movePoint, moveX, moveY.
  repeat split; intros; fields; rewrite P, I, A, (shape_initial s t E); reflexivity.
Qed.

Lemma shape_draw s t : points s = points t -> Area s = Area t -> initialPoints s = initialPoints t -> shape (drawZonePoints cfg s) = shape (drawZonePoints cfg t).
Proof. intros P A N. unfold drawZonePoints. rewrite !shape_checkDirty. unfold shape. fields. rewrite P, A, N. reflexivity. Qed.

Lemma shape_addPoint i s t : shape s = shape t -> shape (addPoint cfg i s) = shape (addPoint cfg i t).
Proof.
  intros E. destruct (shape_points s t E) as (P & _ & A). unfold addPoint. rewrite P.
  destruct (points t !! i); [|exact E]. destruct (points t !! _); [|exact E].
  destruct (_ =? 0)%nat; apply shape_draw; fields; rewrite ?P, ?A, ?(shape_initial s t E); reflexivity.
Qed.

Lemma shape_delPoint i s t : shape s = shape t -> shape (delPoint cfg i s) = shape (delPoint cfg i t).
Proof. intros E. destruct (shape_points s t E) as (P & _ & A). unfold delPoint. apply shape_draw; fields; rewrite ?P, ?A, ?(shape_initial s t E); reflexivity. Qed.

End Shape.

(** ** What an oninput handler makes of a field *)

Section Limits.
Context (cfg : zcfg).

(** The text the handlers of initPage leave in field [f]. *)
Definition limited (f text : string) : string := value f (oninput cfg f (Page {[f := text]} ∅ ∅ "" [] [] NaN None ∅ None [] false [])).

Lemma value_oninput f g s t : value f s = value f t ->
  value g (oninput cfg f s) = if String.eqb g f then value f (oninput cfg f t) else value g s.
Proof.
  intros E. unfold oninput, limitRangeToUnsignedByte, limitArea, limitRange, limitFilter.
  assert (V : forall s t v w, v = w -> value g (assign cfg f v s) = if String.eqb g f then value f (assign cfg f w t) else value g s).
  { intros s' t' v w ->. rewrite !value_assign, String.eqb_refl. destruct (String.eqb g f); reflexivity. }
  assert (U : value g s = if String.eqb g f then value f t else value g s) by (destruct (String.eqb_spec g f) as [->|]; auto).
  assert (C : forall h s, value h (alarmColourFromInputs s) = value h s) by (intros; apply value_vals, vals_alarmColourFromInputs).
  assert (P : forall h k s, value h (updatePixelFromPercent cfg k s) = value h s) by (intros; apply value_vals, vals_updatePixelFromPercent).
  destruct (bool_decide (f ∈ byte_fields)).
  { destruct (bool_decide _); rewrite ?C, E; (destruct (String.eqb (value f t) ""); [exact U|apply V; reflexivity]). }
  destruct (bool_decide (f ∈ filter_fields)).
  { rewrite !value_assign, !String.eqb_refl, E. destruct (String.eqb g f); reflexivity. }
  destruct (bool_decide (f ∈ thresholds)); [|exact U]. rewrite !P, E.
  destruct (String.eqb (value f t) ""); [exact U|]. destruct (_ =? _)%num; [exact U|apply V; reflexivity].
Qed.

Lemma value_oninput_limited f g s : value g (oninput cfg f s) = if String.eqb g f then limited f (value f s) else value g s.
Proof. unfold limited. apply value_oninput. unfold value at 2. cbn. rewrite lookup_singleton_eq. reflexivity. Qed.

Lemma value_updatePercentFromPixel f g s t : f ∈ thresholds -> Area s = Area t -> twin f s = twin f t ->
  value g (updatePercentFromPixel cfg f s) = if String.eqb g f then value f (updatePercentFromPixel cfg f t) else value g s.
Proof.
  intros _ A T. unfold updatePercentFromPixel, pixelArea. rewrite A, T.
  destruct (_ && _); rewrite !value_assign, String.eqb_refl; destruct (String.eqb g f); reflexivity.
Qed.
End Limits.

(** ** Which controls are disabled *)

Section Disabled.
Context (cfg : zcfg).

Definition twin_ids : list string := map twin_id thresholds.
(** The controls whose state depends on the check method. *)
Definition adjustable : list string := (filter_min_max ++ blob_min_max ++ twin_ids)%list.

Definition agree (E : list string) (o o' : gset string) : Prop := forall x, x ∉ E -> (x ∈ o <-> x ∈ o').

Lemma agree_refl E o : agree E o o. Proof. intros x _. reflexivity. Qed.
Lemma agree_trans E o o' o'' : agree E o o' -> agree E o' o'' -> agree E o o''.
Proof. intros A B x H. rewrite (A x H). apply B, H. Qed.
Lemma agree_sym E o o' : agree E o o' -> agree E o' o.
Proof. intros A x H. rewrite (A x H). reflexivity. Qed.

Lemma off_foldl (g : page -> string -> page) fs : (forall s f, off (g s f) = off s) -> forall s, off (foldl g s fs) = off s.
Proof. intros H. induction fs as [|f fs IH]; intros s; cbn [foldl]; [reflexivity|]. rewrite IH. apply H. Qed.

Lemma off_checkDirty s : off (checkDirty cfg s) = off s.
Proof.
  unfold checkDirty, markChangedPoints. destruct (initialState s); [|reflexivity].
  change (initialPoints (s <| resetDisabled := String.eqb (formState cfg s) s0 |>)) with (initialPoints s).
  destruct (initialPoints s); reflexivity.
Qed.

Lemma off_updatePixelFromPercent f s : off (updatePixelFromPercent cfg f s) = off s.
Proof. unfold updatePixelFromPercent. destruct (negb (bool_decide _)); [reflexivity|]. destruct (_ && _); reflexivity. Qed.

Lemma off_updateAll s : off (updateAllPixelDisplays cfg s) = off s.
Proof. unfold updateAllPixelDisplays. rewrite (off_foldl (fun s f => updatePixelFromPercent cfg f s)); [reflexivity|]. intros. apply off_updatePixelFromPercent. Qed.

Lemma off_updateArea s : off (updateArea cfg s) = off s.
Proof. unfold updateArea. destruct (Polygon_calcArea _); [|reflexivity]. rewrite off_checkDirty, off_updateAll. reflexivity. Qed.

Lemma off_draw s : off (drawZonePoints cfg s) = off s.
Proof. unfold drawZonePoints. rewrite off_checkDirty. reflexivity. Qed.

Lemma off_addPoint i s : off (addPoint cfg i s) = off s.
Proof.
  unfold addPoint. destruct (points s !! i); [|reflexivity]. destruct (points s !! _); [|reflexivity].
  rewrite off_draw. destruct (_ =? 0)%nat; reflexivity.
Qed.

Lemma off_delPoint i s : off (delPoint cfg i s) = off s.
Proof. unfold delPoint. rewrite off_draw. reflexivity. Qed.

Lemma off_assign_all g fs s : off (assign_all cfg g fs s) = off s.
Proof. apply off_foldl. reflexivity. Qed.

Lemma off_updatePercentFromPixel f s : off (updatePercentFromPixel cfg f s) = off s.
Proof. unfold updatePercentFromPixel. destruct (_ && _); reflexivity. Qed.

Lemma agree_disable E fs s t : agree E (off s) (off t) -> agree E (off (disable fs s)) (off (disable fs t)).
Proof. intros A x H. change (x ∈ list_to_set fs ∪ off s <-> x ∈ (list_to_set fs ∪ off t : gset string)). specialize (A x H). set_solver. Qed.

Lemma agree_enable E fs s t : agree E (off s) (off t) -> agree E (off (enable fs s)) (off (enable fs t)).
Proof. intros A x H. change (x ∈ off s ∖ list_to_set fs <-> x ∈ (off t ∖ list_to_set fs : gset string)). specialize (A x H). set_solver. Qed.

Lemma agree_set E f b s t : agree E (off s) (off t) -> agree E (off (set_disabled f b s)) (off (set_disabled f b t)).
Proof. intros A. destruct b; [apply agree_disable|apply agree_enable]; exact A. Qed.

Lemma agree_self E f b s : f ∈ E -> agree E (off (set_disabled f b s)) (off s).
Proof.
  intros Hf x H. assert (x <> f) by congruence. destruct b.
  - change (x ∈ list_to_set [f] ∪ off s <-> x ∈ off s). set_solver.
  - change (x ∈ off s ∖ list_to_set [f] <-> x ∈ off s). set_solver.
Qed.

Lemma agree_alarmColour E s t : "newAlarmRgbR" ∉ E -> agree E (off s) (off t) ->
  agree E (off (alarmColourFromInputs s)) (off (alarmColourFromInputs t)).
Proof.
  intros N A. unfold alarmColourFromInputs.
  change (off (s <| picker := ?c |>)) with (off s). change (off (t <| picker := ?c |>)) with (off t).
  rewrite (bool_decide_ext _ _ (A _ N)). apply agree_set. exact A.
Qed.

Lemma agree_sync_self E s : (forall f, f ∈ thresholds -> twin_id f ∈ E) -> agree E (off (syncPixelInputStates s)) (off s).
Proof.
  intros H. unfold syncPixelInputStates. revert s. induction thresholds as [|f fs IH]; intros s; cbn [foldl]; [apply agree_refl|].
  eapply agree_trans; [apply IH; intros g Hg; apply H; right; exact Hg|]. apply agree_self, H. left.
Qed.

Lemma twin_id_inj f g : twin_id f = twin_id g -> f = g.
Proof.
  unfold twin_id. revert g. induction f as [|c f IH]; intros [|d g] E; cbn in E; try discriminate E; [reflexivity| | |].
  - exfalso. injection E as <- E. destruct g as [|? [|? g]]; try discriminate E. destruct g; discriminate E.
  - exfalso. injection E as -> E. destruct f as [|? [|? f]]; try discriminate E. destruct f; discriminate E.
  - injection E as -> E. f_equal. apply IH, E.
Qed.

Lemma elem_set_disabled x f b s : x ∈ off (set_disabled f b s) <-> (x = f /\ b = true) \/ (x <> f /\ x ∈ off s).
Proof.
  destruct b.
  - change (x ∈ ({[f]} ∪ ∅) ∪ off s <-> (x = f /\ true = true) \/ (x <> f /\ x ∈ off s)). destruct (decide (x = f)); set_solver.
  - change (x ∈ off s ∖ ({[f]} ∪ ∅) <-> (x = f /\ false = true) \/ (x <> f /\ x ∈ off s)). destruct (decide (x = f)); set_solver.
Qed.

Lemma sync_agree_loop fs : (forall f g, f ∈ fs -> g ∈ fs -> f <> twin_id g) -> forall s t,
  agree (map twin_id fs) (off s) (off t) -> (forall f, f ∈ fs -> (f ∈ off s <-> f ∈ off t)) ->
  off (foldl (fun s f => set_disabled (twin_id f) (bool_decide (f ∈ off s)) s) s fs)
  = off (foldl (fun s f => set_disabled (twin_id f) (bool_decide (f ∈ off s)) s) t fs).
Proof.
  induction fs as [|f fs IH]; intros D s t A S; cbn [foldl].
  { apply set_eq. intros x. apply A. apply not_elem_of_nil. }
  assert (B : bool_decide (f ∈ off s) = bool_decide (f ∈ off t)) by (apply bool_decide_ext, S; left).
  apply IH.
  - intros g h Hg Hh. apply D; right; assumption.
  - intros x Hx. rewrite !elem_set_disabled, B. destruct (decide (x = twin_id f)) as [->|N]; [tauto|].
    rewrite (A x) by (cbn [map]; rewrite elem_of_cons; tauto). tauto.
  - intros g Hg. rewrite !elem_set_disabled, B, (S g) by (right; exact Hg).
    assert (g <> twin_id f) by (apply D; [right; exact Hg|left]). tauto.
Qed.

Lemma threshold_no_twin f : f ∈ thresholds -> f ∉ twin_ids.
Proof.
  intros Hf Ht. assert (D : forallb (fun f => negb (bool_decide (f ∈ twin_ids))) thresholds = true) by (vm_compute; reflexivity).
  pose proof (forallb_elem _ _ _ D Hf) as B. cbv beta in B. rewrite bool_decide_true in B by exact Ht. discriminate B.
Qed.

(** After the twins follow their fields, pages that agree on all but the twins
    have the same controls disabled. *)
Lemma sync_agree s t : agree twin_ids (off s) (off t) -> off (syncPixelInputStates s) = off (syncPixelInputStates t).
Proof.
  intros A. apply sync_agree_loop; [|exact A|].
  - intros f g Hf Hg ->. apply (threshold_no_twin _ Hf). apply list_elem_of_fmap. exists g. auto.
  - intros f Hf. apply A, threshold_no_twin, Hf.
Qed.

(** applyCheckMethod decides the adjustable controls by the method alone, and
    leaves the others. *)
Lemma agree_method s t : value "CheckMethod" s = value "CheckMethod" t -> agree adjustable (off s) (off t) ->
  off (applyCheckMethod s) = off (applyCheckMethod t).
Proof.
  intros M A. unfold applyCheckMethod. rewrite M. apply sync_agree. intros x Hx.
  assert (G : x ∉ filter_min_max -> x ∉ blob_min_max -> (x ∈ off s <-> x ∈ off t)).
  { intros H1 H2. apply A. unfold adjustable. rewrite !elem_of_app. tauto. }
  destruct (String.eqb _ _); [|destruct (String.eqb _ _)].
  - change (x ∈ list_to_set blob_min_max ∪ (list_to_set filter_min_max ∪ off s)
      <-> x ∈ (list_to_set blob_min_max ∪ (list_to_set filter_min_max ∪ off t) : gset string)).
    rewrite !elem_of_union, !elem_of_list_to_set. destruct (decide (x ∈ blob_min_max)); [tauto|]. destruct (decide (x ∈ filter_min_max)); tauto.
  - change (x ∈ list_to_set blob_min_max ∪ (off s ∖ list_to_set filter_min_max)
      <-> x ∈ (list_to_set blob_min_max ∪ (off t ∖ list_to_set filter_min_max) : gset string)).
    rewrite !elem_of_union, !elem_of_difference, !elem_of_list_to_set. destruct (decide (x ∈ blob_min_max)); [tauto|]. destruct (decide (x ∈ filter_min_max)); tauto.
  - change (x ∈ (off s ∖ list_to_set filter_min_max) ∖ list_to_set blob_min_max
      <-> x ∈ ((off t ∖ list_to_set filter_min_max) ∖ list_to_set blob_min_max : gset string)).
    rewrite !elem_of_difference, !elem_of_list_to_set. destruct (decide (x ∈ blob_min_max)); [tauto|]. destruct (decide (x ∈ filter_min_max)); tauto.
Qed.

Lemma agree_method_self s : agree adjustable (off (applyCheckMethod s)) (off s).
Proof.
  unfold applyCheckMethod. eapply agree_trans.
  { apply agree_sync_self. intros f Hf. unfold adjustable. rewrite !elem_of_app. right. right. apply list_elem_of_fmap. exists f. auto. }
  intros x Hx. unfold adjustable in Hx. rewrite !elem_of_app in Hx.
  destruct (String.eqb _ _); [|destruct (String.eqb _ _)].
  - change (x ∈ list_to_set blob_min_max ∪ (list_to_set filter_min_max ∪ off s) <-> x ∈ off s).
    rewrite !elem_of_union, !elem_of_list_to_set. tauto.
  - change (x ∈ list_to_set blob_min_max ∪ (off s ∖ list_to_set filter_min_max) <-> x ∈ off s).
    rewrite !elem_of_union, !elem_of_difference, !elem_of_list_to_set. tauto.
  - change (x ∈ (off s ∖ list_to_set filter_min_max) ∖ list_to_set blob_min_max <-> x ∈ off s).
    rewrite !elem_of_difference, !elem_of_list_to_set. tauto.
Qed.

Lemma agree_zone_type s t : not_measured s = false -> not_measured t = false -> value "Type" s = value "Type" t ->
  agree adjustable (off s) (off t) -> agree adjustable (off (applyZoneType s)) (off (applyZoneType t)).
Proof.
  intros M N T A. unfold applyZoneType. rewrite M, N, T.
  apply agree_alarmColour; [apply (bool_decide_unpack (_ ∉ _)); vm_compute; exact I|].
  assert (K : forall u v, agree adjustable (off u) (off v) ->
    agree adjustable (off (syncPixelInputStates (applyCheckMethod u))) (off (syncPixelInputStates (applyCheckMethod v)))).
  { intros u v B.
    assert (H : forall f, f ∈ thresholds -> twin_id f ∈ adjustable).
    { intros f Hf. unfold adjustable. rewrite !elem_of_app. right. right. apply list_elem_of_fmap. exists f. auto. }
    eapply agree_trans; [apply agree_sync_self, H|]. eapply agree_trans; [apply agree_method_self|].
    eapply agree_trans; [exact B|]. eapply agree_trans; [apply agree_sym, agree_method_self|]. apply agree_sym, agree_sync_self, H. }
  destruct (String.eqb _ "Preclusive"); apply K.
  - apply agree_enable, agree_disable, A.
  - apply agree_disable, agree_enable, A.
Qed.

Lemma agree_oninput f s t : agree adjustable (off s) (off t) -> agree adjustable (off (oninput cfg f s)) (off (oninput cfg f t)).
Proof.
  intros A. assert (O : forall u, off (limitRangeToUnsignedByte cfg f u) = off u /\ off (limitFilter cfg f u) = off u /\ off (limitArea cfg f u) = off u).
  { intros u. unfold limitRangeToUnsignedByte, limitFilter, limitArea, limitRange. rewrite off_updatePixelFromPercent.
    repeat split; [destruct (String.eqb _ _); reflexivity|]. destruct (String.eqb _ _); [reflexivity|]. destruct (_ =? _)%num; reflexivity. }
  unfold oninput. destruct (bool_decide (f ∈ byte_fields)).
  - destruct (bool_decide _); [apply agree_alarmColour; [apply (bool_decide_unpack (_ ∉ _)); vm_compute; exact I|]|];
      rewrite (proj1 (O s)), (proj1 (O t)); exact A.
  - destruct (bool_decide (f ∈ filter_fields)); [destruct (O s) as (_ & -> & _), (O t) as (_ & -> & _); exact A|].
    destruct (bool_decide (f ∈ thresholds)); [destruct (O s) as (_ & _ & ->), (O t) as (_ & _ & ->)|]; exact A.
Qed.
End Disabled.

(** ** The polygon stays in the picture *)

Section Polygon.
Context (cfg : zcfg).

Definition coord (x : num) : Prop := exists q, x = Fin q /\ wf (Fin q) /\ (0 <= q)%Q /\ (q <= 100)%Q.
Definition vertex (p : pt) : Prop := coord p.1 /\ coord p.2.
Definition polygon (ps : list pt) : Prop := Forall vertex ps /\ (3 <= length ps)%nat.

Lemma constrain_coord v : wf v -> coord (constrainValue v (Fin 0) (Fin 100)).
Proof.
  intros W. unfold constrainValue.
  destruct (v <? Fin 0)%num eqn:L; [exists 0%Q; repeat split; try apply (wf_Z 0); lra || lia|].
  destruct (Fin 100 <? v)%num eqn:U; [exists 100%Q; repeat split; try apply (wf_Z 100); lra || lia|].
  destruct v as [|[]|q]; try discriminate; [destruct W|]. cbn in L, U. apply negb_false_iff, Qle_bool_iff in L, U.
  exists q. repeat split; try apply W; assumption.
Qed.

Lemma parseFloat_number s : parseFloat s <> NaN -> wf (parseFloat s).
Proof.
  intros N. destruct (parseFloat s) as [|b|q] eqn:E; [congruence|exact I|]. rewrite <- E. apply parseFloat_wf. rewrite E. reflexivity.
Qed.

Lemma reread_coord x : coord x -> coord (reread x).
Proof.
  intros (q & -> & W & L & U). unfold reread. destruct (parseFloat_to_string q W) as (v & E & Ev).
  rewrite E. exists v. split; [reflexivity|]. split; [rewrite <- E; apply parseFloat_number; rewrite E; discriminate|]. rewrite Ev. auto.
Qed.

Lemma typed_coord text : parseFloat text <> NaN -> coord (parseFloat (limitPointValue text (Fin 0) (Fin 100))).
Proof.
  intros N. unfold limitPointValue. destruct (constrain_coord (parseFloat text) (parseFloat_number _ N)) as (q & -> & W & L & U).
  destruct (number_text_reads q W) as [(v & E & Ev) _]. rewrite E. exists v. split; [reflexivity|].
  split; [rewrite <- E; apply parseFloat_number; rewrite E; discriminate|]. rewrite Ev. auto.
Qed.

Lemma ndiv_wf a l : wf a -> (0 < l)%Q -> wf (a / Fin l)%num.
Proof.
  intros W Hl. destruct a as [|s|q]; [destruct W|exact I|]. cbn [ndiv].
  destruct (Qeq_bool l 0) eqn:E; [apply Qeq_bool_iff in E; lra|]. apply rnd_wf.
Qed.

Lemma nmul_const_wf a l : wf a -> (0 < l)%Q -> wf (a * Fin l)%num.
Proof.
  intros W Hl. apply nmul_wf. destruct a as [|s|q]; [destruct W| |apply rnd_not_NaN]. cbn [nmul].
  destruct (Qeq_bool l 0) eqn:E; [apply Qeq_bool_iff in E; lra|discriminate].
Qed.

(** Hundredths of a number are representable. *)
Lemma hundredths_wf a : a <> NaN -> wf (nround a / Fin 100)%num.
Proof. destruct a as [|s|q]; [congruence|intros _; exact I|]. intros _. cbn [nround ndiv]. apply rnd_wf. Qed.

Lemma frame_coord px frame : wf px -> (0 < frame)%Q -> coord (frame_percent px (Fin frame) (Fin 100)).
Proof.
  intros W F. apply constrain_coord, hundredths_wf, wf_not_NaN.
  apply nmul_const_wf; [|reflexivity]. apply nmul_const_wf; [|reflexivity]. apply ndiv_wf; assumption.
Qed.

Lemma midpoint_coord a b : coord a -> coord b -> coord (midpoint a b).
Proof.
  intros Ha Hb. apply reread_coord in Ha, Hb. unfold midpoint.
  destruct Ha as (p & -> & _ & P0 & P1), Hb as (q & -> & _ & Q0 & Q1).
  assert (S : nle (Fin 0) (Fin p + Fin q)%num /\ nle (Fin p + Fin q)%num (Fin 200)).
  { split; [apply rnd_ge_wf; try apply (wf_Z 0); lia || lra|apply rnd_le_wf; try apply (wf_Z 200); lia || lra]. }
  destruct S as [S0 S1]. set (s := (Fin p + Fin q)%num) in *.
  assert (H0 : nle (Fin (inject_Z 0)) (s / Fin 2 * Fin 100)%num).
  { pose proof (nmul_mono_const _ _ 100 (ndiv_mono _ _ 2 S0 eq_refl) eq_refl) as M. exact M. }
  assert (H1 : nle (s / Fin 2 * Fin 100)%num (Fin (inject_Z 10000))).
  { pose proof (nmul_mono_const _ _ 100 (ndiv_mono _ _ 2 S1 eq_refl) eq_refl) as M. exact M. }
  pose proof (hundredths_wf _ (proj2 (nle_not_NaN _ _ H0))) as W.
  apply nround_ge_Z in H0. apply nround_le_Z in H1.
  pose proof (ndiv_mono _ _ 100 H0 eq_refl) as D0. pose proof (ndiv_mono _ _ 100 H1 eq_refl) as D1.
  set (r := (nround (s / Fin 2 * Fin 100) / Fin 100)%num) in *. clearbody r.
  change (nle (Fin 0) r) in D0. change (nle r (Fin 100)) in D1.
  destruct r as [|[]|r]; try discriminate D0; try discriminate D1. apply nle_Fin in D0, D1. exists r. auto.
Qed.

Lemma polygon_insert i p ps : vertex p -> polygon ps -> polygon (<[i := p]> ps).
Proof. intros V [F L]. split; [apply Forall_insert; assumption|rewrite length_insert; exact L]. Qed.

Lemma polygon_alter (g : pt -> pt) i ps : (forall p, vertex p -> vertex (g p)) -> polygon ps -> polygon (alter g i ps).
Proof. intros V [F L]. split; [apply Forall_alter; [exact F|]; intros p _ Hp; apply V, Hp|rewrite length_alter; exact L]. Qed.

Lemma polygon_move i x y w h s : wf x -> wf y -> (0 < w)%Q -> (0 < h)%Q -> polygon (points s) ->
  polygon (points (movePoint i x y (Fin w) (Fin h) s)).
Proof.
  intros Wx Wy Hw Hh P. unfold movePoint. fields. apply polygon_insert; [|exact P].
  assert (Z : wf (Fin 0)) by (apply (wf_Z 0); lia).
  split; apply frame_coord; try assumption; destruct (_ <? _)%num; assumption.
Qed.

Lemma polygon_moveX i text s : parseFloat text <> NaN -> polygon (points s) -> polygon (points (moveX i text s)).
Proof. intros N P. unfold moveX. fields. apply polygon_alter; [|exact P]. intros p [_ V]. split; [apply typed_coord, N|exact V]. Qed.

Lemma polygon_moveY i text s : parseFloat text <> NaN -> polygon (points s) -> polygon (points (moveY i text s)).
Proof. intros N P. unfold moveY. fields. apply polygon_alter; [|exact P]. intros p [V _]. split; [exact V|apply typed_coord, N]. Qed.

Lemma points_checkDirty s : points (checkDirty cfg s) = points s /\ initialPoints (checkDirty cfg s) = initialPoints s.
Proof. pose proof (shape_checkDirty cfg s) as E. split; [apply (shape_points _ _ E)|apply (shape_initial _ _ E)]. Qed.

Lemma points_draw s : points (drawZonePoints cfg s) = points s /\ initialPoints (drawZonePoints cfg s) = initialPoints s.
Proof. unfold drawZonePoints. destruct (points_checkDirty (s <| inputs := map fixed_input (points s) |>)) as [-> ->]. split; reflexivity. Qed.

Lemma polygon_add i s : polygon (points s) -> polygon (points (addPoint cfg i s)).
Proof.
  intros P. unfold addPoint. set (k := if (length (points s) - 1 <=? i)%nat then 0%nat else S i). destruct (points s !! i) as [a|] eqn:Ea; [|exact P].
  destruct (points s !! k) as [b|] eqn:Eb; [|exact P]. rewrite (proj1 (points_draw _)). destruct P as [F L].
  assert (V : vertex (midpoint a.1 b.1, midpoint a.2 b.2)).
  { destruct (proj1 (Forall_lookup _ _) F _ _ Ea), (proj1 (Forall_lookup _ _) F _ _ Eb). split; apply midpoint_coord; assumption. }
  destruct (_ =? 0)%nat; fields.
  - split; [apply Forall_app; auto|rewrite length_app; lia].
  - split; [apply Forall_app; split; [apply Forall_take, F|constructor; [exact V|apply Forall_drop, F]]|].
    rewrite length_app, length_take. cbn [length]. rewrite length_drop. lia.
Qed.

Lemma polygon_delete i s : (3 < length (points s))%nat -> polygon (points s) -> polygon (points (delPoint cfg i s)).
Proof.
  intros G [F L]. unfold delPoint. rewrite (proj1 (points_draw _)). fields. split; [apply Forall_delete, F|].
  rewrite delete_take_drop, length_app, length_take, length_drop. lia.
Qed.

Lemma polygon_json ps : polygon ps -> polygon (json_points ps).
Proof.
  intros [F L]. unfold json_points. split; [|rewrite length_map; exact L]. apply Forall_map. eapply Forall_impl; [exact F|].
  assert (J : forall x, coord x -> coord (json_coord x)) by (intros x C; pose proof (reread_coord x C) as R; destruct C as (q & -> & _); exact R).
  intros p [A B]. split; apply J; assumption.
Qed.

Lemma points_restore s : points (restore cfg s) = json_points (default [] (initialPoints s)) /\ initialPoints (restore cfg s) = initialPoints s.
Proof.
  set (t := drawZonePoints cfg (s <| points := json_points (default [] (initialPoints s)) |>)).
  assert (E : shape (restore cfg s) = shape t).
  { unfold restore. rewrite shape_alarmColourFromInputs, shape_applyZoneType. cbv zeta. fold t.
    apply (shape_foldl (fun s f => match initialValues s !! f with Some v => assign cfg f (VStr v) s | None => s end)).
    intros u f. destruct (initialValues u !! f); reflexivity. }
  rewrite (shape_initial _ _ E). destruct (shape_points _ _ E) as (-> & _). subst t.
  destruct (points_draw (s <| points := json_points (default [] (initialPoints s)) |>)) as [-> ->]. split; reflexivity.
Qed.

Lemma shape_saveChanges s : shape (saveChanges cfg s) = shape s.
Proof.
  unfold saveChanges, validateForm.
  assert (T : shape (if not_measured s then s else set_AlarmRGB cfg s) = shape s) by (destruct (not_measured s); reflexivity).
  destruct (form_errors cfg s); [|exact T]. cbv zeta. rewrite <- T. unfold submitForm. destruct (String.eqb _ "Privacy"); reflexivity.
Qed.

Lemma shape_applyPreset p s : shape (applyPreset cfg p s) = shape s.
Proof.
  unfold applyPreset. destruct (presets cfg !! p); [|reflexivity]. rewrite shape_updateAll, shape_assign, shape_applyCheckMethod.
  rewrite (shape_foldl (fun s f => assign cfg f (preset_value p0 f) s)); reflexivity.
Qed.

Lemma points_updateArea s : points (updateArea cfg s) = points s /\ initialPoints (updateArea cfg s) = initialPoints s.
Proof.
  unfold updateArea. destruct (Polygon_calcArea _); [|auto]. destruct (points_checkDirty (updateAllPixelDisplays cfg (s <| Area := n |>))) as [-> ->].
  pose proof (shape_updateAll cfg (s <| Area := n |>)) as E. split; [apply (shape_points _ _ E)|apply (shape_initial _ _ E)].
Qed.
End Polygon.

(** ** What is sent *)

Section Saving.
Context (cfg : zcfg).

Lemma form_errors_values s t : (forall f, f <> "Area" -> value f s = value f t) -> form_errors cfg s = form_errors cfg t.
Proof.
  intros H. unfold form_errors, threshold_errors, nested_errors, limit_errors, not_measured, filtered, empty.
  repeat match goal with |- context [value ?f s] => rewrite (H f) by discriminate end. reflexivity.
Qed.

(** A form without errors is sent with the coordinates of zone.Points and with
    zone.Area. *)
Lemma saved_fields s : form_errors cfg s = [] -> "Coords" ∉ off s -> "Area" ∉ off s ->
  exists sent, Submit sent ∈ out (saveChanges cfg s) /\ sent !! "Coords" = Some (getCoordString s) /\ sent !! "Area" = Some (num_to_string (Area s)).
Proof.
  intros E C A. unfold saveChanges, validateForm. rewrite E. cbv zeta.
  set (t := if not_measured s then s else set_AlarmRGB cfg s).
  assert (T : points t = points s /\ Area t = Area s /\ off t = off s) by (subst t; destruct (not_measured s); repeat split).
  clearbody t. destruct T as (T1 & T2 & T3). unfold submitForm.
  set (u := assign cfg "Area" _ _).
  assert (U : vals u !! "Coords" = Some (getCoordString t) /\ vals u !! "Area" = Some (num_to_string (Area t)) /\ off u = off t).
  { subst u. unfold assign. fields. rewrite lookup_insert_ne by discriminate. rewrite !lookup_insert_eq. repeat split. }
  destruct U as (U1 & U2 & U3). clearbody u. exists (filter (fun c => c.1 ∉ off u) (vals u)). split.
  - assert (I : Submit (filter (fun c => c.1 ∉ off u) (vals u)) ∈ out (say (Submit (filter (fun c => c.1 ∉ off u) (vals u))) u))
      by (unfold say; fields; rewrite elem_of_app; right; left).
    destruct (String.eqb _ "Privacy"); unfold say in *; revert I; fields; rewrite !elem_of_app; tauto.
  - split; apply map_lookup_filter_Some; cbn [fst].
    + rewrite U1, U3, T3. unfold getCoordString. rewrite T1. auto.
    + rewrite U2, U3, T3, T2. auto.
Qed.

(** Deleting a vertex leaves zone.Area alone: the form is accepted and sent
    with the new coordinates and the area of the old polygon, and the thresholds
    keep the pixels they had. *)
Theorem delete_keeps_area i s : form_errors cfg s = [] -> "Coords" ∉ off s -> "Area" ∉ off s ->
  exists sent, Submit sent ∈ out (saveChanges cfg (delPoint cfg i s))
    /\ sent !! "Coords" = Some (getCoordString (s <| points := delete i (points s) |>))
    /\ sent !! "Area" = Some (num_to_string (Area s))
    /\ twins (delPoint cfg i s) = twins s.
Proof.
  intros E C A. assert (P : points (delPoint cfg i s) = delete i (points s)) by (unfold delPoint; rewrite (proj1 (points_draw cfg _)); reflexivity).
  assert (Ar : Area (delPoint cfg i s) = Area s).
  { unfold delPoint, drawZonePoints. pose proof (shape_checkDirty cfg (s <| points := delete i (points s) |> <| inputs := map fixed_input (delete i (points s)) |>)) as S.
    apply (shape_points _ _ S). }
  destruct (saved_fields (delPoint cfg i s)) as (sent & S1 & S2 & S3).
  - rewrite (form_errors_values _ s); [exact E|]. intros f _. apply value_vals, vals_delPoint.
  - rewrite off_delPoint. exact C.
  - rewrite off_delPoint. exact A.
  - exists sent. split; [exact S1|]. split; [rewrite S2; unfold getCoordString; rewrite P; reflexivity|]. split; [rewrite S3, Ar; reflexivity|].
    unfold delPoint, drawZonePoints, checkDirty, markChangedPoints. destruct (initialState _); [|reflexivity].
    destruct (initialPoints _); reflexivity.
Qed.

(** An emptied coordinate input makes the vertex NaN, and the form is accepted and
    sent with it. *)
Lemma cleared_coordinate_saved i p s : points s !! i = Some p -> form_errors cfg s = [] -> "Coords" ∉ off s -> "Area" ∉ off s ->
  let t := updateArea cfg (moveX i "" s) in
  exists sent, Submit sent ∈ out (saveChanges cfg t) /\ sent !! "Coords" = Some (getCoordString t) /\ points t !! i = Some (NaN, p.2).
Proof.
  intros P E C A t. assert (V : forall f, f <> "Area" -> value f t = value f s).
  { intros f N. subst t. unfold updateArea. destruct (Polygon_calcArea (points (moveX i "" s))); [|reflexivity].
    rewrite (value_vals _ _ _ (vals_checkDirty cfg _)), value_updateAll by exact N. reflexivity. }
  assert (O : off t = off s) by (subst t; rewrite off_updateArea; reflexivity).
  assert (Q : points t !! i = Some (NaN, p.2)).
  { subst t. rewrite (proj1 (points_updateArea cfg _)). unfold moveX. fields. rewrite list_lookup_alter, decide_True, P by reflexivity. reflexivity. }
  destruct (saved_fields t) as (sent & S1 & S2 & _); [rewrite (form_errors_values _ s) by exact V; exact E|rewrite O; exact C|rewrite O; exact A|].
  exists sent. auto.
Qed.
End Saving.

(** ** A page to run on *)

Definition demo_cfg : zcfg :=
  ZCfg (num_of_Z 307200) (num_of_Z 640) (num_of_Z 480)
    {["1" := Preset 2 (list_to_map [("MinPixelThreshold", "25"); ("MinAlarmPixels", "3"); ("MinFilterPixels", "2");
                                     ("MinBlobPixels", "1"); ("MinBlobs", "1"); ("FilterX", "3"); ("FilterY", "3")])]}
    ["Active"; "Inclusive"; "Exclusive"; "Preclusive"; "Inactive"; "Privacy"]
    ["AlarmedPixels"; "FilteredPixels"; "Blobs"] false
    ["NumCoords"; "Coords"; "AlarmRGB"; "Name"; "Type"; "newAlarmRgbR"; "newAlarmRgbG"; "newAlarmRgbB"; "CheckMethod";
     "MinPixelThreshold"; "MaxPixelThreshold"; "FilterX"; "FilterY"; "Area"; "MinAlarmPixels"; "MaxAlarmPixels"].

Definition demo_vals : list (string * string) :=
  [("NumCoords", "5"); ("Coords", ""); ("AlarmRGB", ""); ("Name", "All"); ("Type", "Active"); ("newAlarmRgbR", "255");
   ("newAlarmRgbG", "0"); ("newAlarmRgbB", "0"); ("CheckMethod", "AlarmedPixels"); ("MinPixelThreshold", "25");
   ("MaxPixelThreshold", ""); ("FilterX", ""); ("FilterY", "5"); ("Area", "100"); ("MinAlarmPixels", "3"); ("MaxAlarmPixels", "75")].

(** The whole picture, as a square with a fifth vertex. *)
Definition demo_points : list pt :=
  [(Fin 0, Fin 0); (Fin 100, Fin 0); (Fin 100, Fin 50); (Fin 100, Fin 100); (Fin 0, Fin 100)].

Definition demo_page : page :=
  Page (list_to_map demo_vals) ∅ ∅ "" demo_points [] (Fin 10000) None ∅ None [] false [].

Lemma tidy_list cfg l : forallb (fun c => String.eqb (kept cfg c.1 (VStr c.2)) c.2) l = true -> tidy cfg (list_to_map l).
Proof.
  intros H f v E. apply elem_of_list_to_map_2 in E. pose proof (forallb_elem _ _ _ H E) as K. apply String.eqb_eq in K. exact K.
Qed.

Lemma delete_keeps_area_witness :
  let s := initPage demo_cfg demo_page in
  (exists sent, Submit sent ∈ out (saveChanges demo_cfg (delPoint demo_cfg 1 s))
    /\ sent !! "Coords" = Some (getCoordString (s <| points := delete 1%nat (points s) |>))
    /\ sent !! "Area" = Some (num_to_string (Area s))
    /\ twins (delPoint demo_cfg 1 s) = twins s)
  /\ num_to_string (Area s) = "10000" /\ Polygon_calcArea (delete 1%nat (points s)) = Some (Fin 7500).
Proof.
  split; [|split; vm_compute; reflexivity].
  exact (delete_keeps_area demo_cfg 1 (initPage demo_cfg demo_page) ltac:(vm_compute; reflexivity)
    ltac:(apply (bool_decide_unpack _); vm_compute; exact I) ltac:(apply (bool_decide_unpack _); vm_compute; exact I)).
Defined.

(** An inactive zone is loaded with its filter fields enabled: initPage calls
    applyCheckMethod after applyZoneType. *)
Example inactive_loaded :
  let s := initPage demo_cfg (demo_page <| vals := <["Type" := "Inactive"]> (<["CheckMethod" := "Blobs"]> (list_to_map demo_vals)) |>) in
  map (fun f => bool_decide (f ∈ off s)) ["CheckMethod"; "MinAlarmPixels"; "FilterX"; "MinBlobPixels"; "MinBlobPixels_px"]
  = [true; true; false; false; false].
Proof. vm_compute. reflexivity. Qed.

(** The picker and the three inputs show one colour, and it is what is sent. *)
Example colour_shown :
  let s := alarmColourToInputs demo_cfg (demo_page <| picker := colour_text "#0AFF7f" |>) in
  (map (fun f => value f s) colour_fields, picker (alarmColourFromInputs s), alarm_rgb s) = (["10"; "255"; "127"], "#0aff7f", 720767).
Proof. vm_compute. reflexivity. Qed.

End Zone.
