(* ===== verification/ZoneObjectSize.v ===== *)
(** The measuring tool of the zone editor: views/js/zone-object-size.js.

    The user draws a rectangle round the smallest object that should alarm, and
    the thresholds of the zone are derived from it.  Module [ObjectSize] has the
    derivation, then the tool as a state next to the page of [ZoneForm] and one
    step per event of the page.  The order in which the two scripts attach their
    listeners is part of the model ([bindings]).  The still picture that can stand
    in for the live view, and the label beside the rectangle, are not modelled. *)
From stdpp Require Import gmap.
From Stdlib Require Import QArith Qround Lqa.
From S2P Require Import Prelude JsNum JsString NumText ZoneForm.
Import Zone.

Open Scope Z_scope.
Open Scope string_scope.
Open Scope js_scope.

Module ObjectSize.

(** ** The derivation *)

Definition DEFAULT_PIXEL_THRESHOLD : num := Fin 40.
Definition MIN_FILTER_KERNEL : num := Fin 3.

Definition MANAGED_FIELDS : list string :=
  ["MinPixelThreshold"; "MaxPixelThreshold"; "FilterX"; "FilterY"; "MinAlarmPixels"; "MaxAlarmPixels";
   "MinFilterPixels"; "MaxFilterPixels"; "MinBlobPixels"; "MaxBlobPixels"; "MinBlobs"; "MaxBlobs"; "OverloadFrames"].

Record ratios_t := Ratios { fraction : num; filter_ratio : num; blob_ratio : num }.
Record px_t := Px { alarm : num; filter_px : num; blob : num }.

(** The literal 0.01 *)
Definition hundredth : num := rnd (1 # 100).

Definition asPercentField (pct : num) : num :=
  nmin (Fin 100) (nmax hundredth (nround (pct * Fin 100)%num / Fin 100)%num).

Definition objectThresholdPixels (boxPx : num) (ratios : ratios_t) : option px_t :=
  if negb (Fin 0 <? boxPx)%num then None
  else
    let alarm := (fraction ratios * boxPx)%num in
    let filter := (alarm * filter_ratio ratios)%num in
    Some (Px alarm filter (filter * blob_ratio ratios)%num).

Definition pixelsToPercent (px zonePx : num) : jsval :=
  if negb (Fin 0 <? px)%num || negb (Fin 0 <? zonePx)%num then VNull
  else VNum (asPercentField (px / zonePx * Fin 100)%num).

Definition keepOr (current fallback : jsval) : jsval :=
  match current with
  | VUndef | VNull => fallback
  | _ => if String.eqb (js_to_string current) "" then fallback else current
  end.

(** A member of an object of texts. *)
Definition member (f : string) (o : gmap string string) : jsval :=
  match o !! f with Some v => VStr v | None => VUndef end.

Definition zoneSettingsForObject (boxPx zonePx : num) (current : gmap string string) (ratios : ratios_t)
    : option (list (string * jsval)) :=
  match objectThresholdPixels boxPx ratios with
  | None => None
  | Some px =>
      if negb (Fin 0 <? zonePx)%num then None
      else Some
        [("CheckMethod", VStr "Blobs");
         ("MinPixelThreshold", keepOr (member "MinPixelThreshold" current) (VNum DEFAULT_PIXEL_THRESHOLD));
         ("MaxPixelThreshold", VStr "");
         ("FilterX", keepOr (member "FilterX" current) (VNum MIN_FILTER_KERNEL));
         ("FilterY", keepOr (member "FilterY" current) (VNum MIN_FILTER_KERNEL));
         ("MinAlarmPixels", pixelsToPercent (alarm px) zonePx);
         ("MaxAlarmPixels", VStr "");
         ("MinFilterPixels", pixelsToPercent (filter_px px) zonePx);
         ("MaxFilterPixels", VStr "");
         ("MinBlobPixels", pixelsToPercent (blob px) zonePx);
         ("MaxBlobPixels", VStr "");
         ("MinBlobs", VNum (Fin 1));
         ("MaxBlobs", VStr "");
         ("OverloadFrames", VNum (Fin 0))]
  end.

Fixpoint setting (f : string) (values : list (string * jsval)) : jsval :=
  match values with
  | [] => VUndef
  | (g, v) :: rest => if String.eqb f g then v else setting f rest
  end.

Definition objectTooNarrowToFilter (rectWpx rectHpx filterX filterY : num) : bool :=
  (rectWpx <? nmax (nor filterX (Fin 0)) MIN_FILTER_KERNEL)%num
  || (rectHpx <? nmax (nor filterY (Fin 0)) MIN_FILTER_KERNEL)%num.

Definition normalizeRatio (value : string) : option num :=
  let n := nround (parseFloat value) in
  if negb (Fin 1 <=? n)%num || negb (n <=? Fin 100)%num then None else Some n.

Definition boxPercentForPixels (wPx hPx width height : num) : option (pt * pt) :=
  if negb (Fin 0 <? wPx)%num || negb (Fin 0 <? hPx)%num then None
  else if negb (Fin 0 <? width)%num || negb (Fin 0 <? height)%num then None
  else
    let w := nmin maxX (wPx / width * maxX)%num in
    let h := nmin maxY (hPx / height * maxY)%num in
    let x := ((maxX - w) / Fin 2)%num in
    let y := ((maxY - h) / Fin 2)%num in
    Some ((x, y), ((x + w)%num, (y + h)%num)).

(** ** The tool *)

Inductive warning := FilterTooSmall (fx fy : num) | Inactive | SizeNeeded.

Record tool := Tool {
  form : page;
  armed : bool;
  dragging : bool;
  startPct : pt;
  undoSnapshot : option (gmap string string);
  snapshotTaken : bool;
  lastBox : option (pt * pt);
  ratio_values : gmap string string;   (** the three ratio inputs, by key *)
  changed : gset string;               (** controls with the class objectSizeChanged *)
  undoShown : bool;
  panelShown : bool;
  rect : option (num * num * num * num);
  widthPx : string;
  heightPx : string;
  cookies : list (string * string);
  warnings : list warning
}.

#[export] Instance eta_tool : Eta tool := fun s =>
  Tool (form s) (armed s) (dragging s) (startPct s) (undoSnapshot s) (snapshotTaken s) (lastBox s) (ratio_values s)
    (changed s) (undoShown s) (panelShown s) (rect s) (widthPx s) (heightPx s) (cookies s) (warnings s).

Definition RATIO_INPUTS : list (string * string) :=
  [("fraction", "zmZoneObjectFraction"); ("filter", "zmZoneFilterRatio"); ("blob", "zmZoneBlobRatio")].

Section Tool.
Context (cfg : zcfg) (defaultValue : string -> string).

Definition currentRatio (key : string) (s : tool) : num :=
  let pct := parseFloat (default "" (ratio_values s !! key)) in
  let pct := if negb (Fin 0 <? pct)%num || negb (pct <=? Fin 100)%num then parseFloat (defaultValue key) else pct in
  (pct / Fin 100)%num.

Definition currentRatios (s : tool) : ratios_t :=
  Ratios (currentRatio "fraction" s) (currentRatio "filter" s) (currentRatio "blob" s).

Definition zoneIsMeasurable (s : tool) : bool := negb (not_measured (form s)).

(** A pointer event and the rectangle of the picture. *)
Record pointer := Pointer { clientX : num; clientY : num; left : num; top : num; width : num; height : num }.

Definition toPercent (evt : pointer) : pt :=
  (constrainValue ((clientX evt - left evt) / width evt * maxX)%num (Fin 0) maxX,
   constrainValue ((clientY evt - top evt) / height evt * maxY)%num (Fin 0) maxY).

Definition drawRect (a b : pt) (s : tool) : tool :=
  s <| rect := Some (nmin a.1 b.1, nmin a.2 b.2, nabs (b.1 - a.1)%num, nabs (b.2 - a.2)%num) |>.
Definition hideRect (s : tool) : tool := s <| rect := None |>.

Definition markChanged (f : string) (b : bool) (s : tool) : tool :=
  s <| changed := if b then {[f]} ∪ changed s else changed s ∖ {[f]} |>.
Definition clearChangeMarks (s : tool) : tool :=
  foldl (fun s f => markChanged f false s) s (MANAGED_FIELDS ++ ["CheckMethod"])%list.

Definition forgetMeasurement (s : tool) : tool :=
  let s := clearChangeMarks s in
  let s := s <| undoSnapshot := None |> <| snapshotTaken := false |> <| lastBox := None |> <| undoShown := false |> in
  let s := if armed s then s else s <| panelShown := false |> in
  hideRect s.

Definition setArmed (on : bool) (s : tool) : tool :=
  s <| armed := on |> <| panelShown := on || bool_decide (lastBox s <> None) |>.

Definition snapshot (z : page) : gmap string string :=
  list_to_map (map (fun f => (f, value f z)) ("CheckMethod" :: MANAGED_FIELDS)).

Definition takeSnapshot (s : tool) : tool := s <| undoSnapshot := Some (snapshot (form s)) |> <| undoShown := true |>.

Definition on_form (g : page -> page) (s : tool) : tool := s <| form := g (form s) |>.

(** [el.value = snapshot[field]] *)
Definition put_back (snap : gmap string string) (f : string) (z : page) : page := assign cfg f (member f snap) z.

Definition undo (s : tool) : tool :=
  match undoSnapshot s with
  | None => s
  | Some snap =>
      let z := put_back snap "CheckMethod" (form s) in
      let z := applyCheckMethod z in
      let z := foldl (fun z f => put_back snap f z) z MANAGED_FIELDS in
      forgetMeasurement (s <| form := updateAllPixelDisplays cfg z |>)
  end.

Definition box_width (a b : pt) : num := (nabs (b.1 - a.1) / maxX * monitorData_width cfg)%num.
Definition box_height (a b : pt) : num := (nabs (b.2 - a.2) / maxY * monitorData_height cfg)%num.
Definition zone_pixels (s : tool) : num := (Area (form s) / monitorArea * monitorPixelArea cfg)%num.

(** The assignments of apply, with the marks against the snapshot. *)
Definition write_settings (snap : gmap string string) (values : list (string * jsval)) (s : tool) : tool :=
  let s := on_form (fun z => applyCheckMethod (assign cfg "CheckMethod" (setting "CheckMethod" values) z)) s in
  let s := markChanged "CheckMethod"
             (negb (String.eqb (js_to_string (member "CheckMethod" snap)) (js_to_string (setting "CheckMethod" values)))) s in
  let s := foldl (fun s f =>
             markChanged f (negb (String.eqb (js_to_string (setting f values)) (js_to_string (member f snap))))
               (on_form (assign cfg f (setting f values)) s)) s MANAGED_FIELDS in
  on_form (updateAllPixelDisplays cfg) s.

Definition apply (a b : pt) (s : tool) : bool * tool :=
  let boxPx := (box_width a b * box_height a b)%num in
  if negb (Fin 0 <? boxPx)%num || negb (Fin 0 <? zone_pixels s)%num then (false, s)
  else
    let s := if snapshotTaken s then s else takeSnapshot s <| snapshotTaken := true |> in
    let s := s <| lastBox := Some (a, b) |> in
    let snap := default ∅ (undoSnapshot s) in
    match zoneSettingsForObject boxPx (zone_pixels s) snap (currentRatios s) with
    | None => (false, s)
    | Some values => (true, write_settings snap values s)
    end.

Definition size_text (n : num) : string := if (Fin 0 <? n)%num then number_text (VNum (nround n)) else "".
Definition showBoxSize (wPx hPx : num) (s : tool) : tool :=
  s <| widthPx := size_text wPx |> <| heightPx := size_text hPx |>.

Definition kernel (f : string) (s : tool) : num :=
  nmax (nor (parseInt10 (value f (form s))) (Fin 0)) MIN_FILTER_KERNEL.

Definition finishDrag (a b : pt) (s : tool) : tool :=
  let '(ok, s) := apply a b s in
  if negb ok then s
  else
    let s := showBoxSize (box_width a b) (box_height a b) s in
    if objectTooNarrowToFilter (box_width a b) (box_height a b) (kernel "FilterX" s) (kernel "FilterY" s)
    then s <| warnings := (warnings s ++ [FilterTooSmall (kernel "FilterX" s) (kernel "FilterY" s)])%list |>
    else s.

(** updateArea as init wraps it. *)
Definition updateArea (s : tool) : tool :=
  match Polygon_calcArea (points (form s)) with
  | None => s
  | Some _ =>
      let s := on_form (Zone.updateArea cfg) s in
      match lastBox s with Some (a, b) => (apply a b s).2 | None => s end
  end.

Definition warn (w : warning) (s : tool) : tool := s <| warnings := (warnings s ++ [w])%list |>.

(** ** The listeners init attaches *)

Definition objectSizeBtn_click (s : tool) : tool :=
  if negb (armed s) && negb (zoneIsMeasurable s) then warn Inactive s
  else
    let s := if armed s then s else forgetMeasurement s in
    setArmed (negb (armed s)) s.

Definition cookie_of (key : string) : string :=
  match List.find (fun spec => String.eqb spec.1 key) RATIO_INPUTS with Some spec => spec.2 | None => "" end.

Definition ratio_change (key text : string) (s : tool) : tool :=
  let v := match normalizeRatio (number_text (VStr text)) with Some n => number_text (VNum n) | None => number_text (VStr (defaultValue key)) end in
  let s := s <| ratio_values := <[key := v]> (ratio_values s) |> <| cookies := (cookies s ++ [(cookie_of key, v)])%list |> in
  match lastBox s with Some (a, b) => (apply a b s).2 | None => s end.

Definition type_change (s : tool) : tool :=
  if zoneIsMeasurable s then s
  else forgetMeasurement (if armed s then setArmed false s else s).

Definition releaseField (f : string) (s : tool) : tool :=
  let s := markChanged f false s in
  match undoSnapshot s with
  | None => s
  | Some snap => s <| undoSnapshot := Some (<[f := value f (form s)]> snap) |>
  end.

Definition applyTypedSize (w h : string) (s : tool) : tool :=
  if negb (zoneIsMeasurable s) then warn Inactive s
  else
    let w := number_text (VStr w) in
    let h := number_text (VStr h) in
    let s := s <| widthPx := w |> <| heightPx := h |> in
    match boxPercentForPixels (parseFloat w) (parseFloat h) (monitorData_width cfg) (monitorData_height cfg) with
    | None => warn SizeNeeded s
    | Some (a, b) => finishDrag a b (drawRect a b s)
    end.

Definition pointerdown (primary : bool) (evt : pointer) (s : tool) : tool :=
  if negb (armed s) then s
  else if negb primary then s
  else if negb (zoneIsMeasurable s) then forgetMeasurement (setArmed false s)
  else
    let at_ := toPercent evt in
    drawRect at_ at_ (s <| dragging := true |> <| startPct := at_ |>).

Definition pointermove (evt : pointer) (s : tool) : tool :=
  if negb (armed s) || negb (dragging s) then s
  else
    let at_ := toPercent evt in
    (apply (startPct s) at_ (drawRect (startPct s) at_ s)).2.

Definition endDrag (evt : pointer) (s : tool) : tool :=
  if negb (armed s) || negb (dragging s) then s
  else
    let at_ := toPercent evt in
    finishDrag (startPct s) at_ (drawRect (startPct s) at_ (s <| dragging := false |>)).

(** ** Which listeners run, and in which order

    Both scripts attach theirs on DOMContentLoaded: zone-object-size.js listens on
    the document, zone.js on the window, which the event reaches after the
    document.  So [init] comes first ([loaded]); the comments of
    zone-object-size.js describe the other order ([documented]). *)
Inductive field_listener := Release | Oninput.
Inductive reset_handler := ResetChanges | Wrapped (resetHandler : option reset_handler).

Record bindings := Bindings {
  field_listeners : list field_listener;   (** of a managed field and of its pixel twin *)
  reset_onclick : option reset_handler
}.
Definition unbound : bindings := Bindings [] None.
Definition bind_init (b : bindings) : bindings :=
  Bindings (field_listeners b ++ [Release])%list (Some (Wrapped (reset_onclick b))).
Definition bind_initPage (b : bindings) : bindings :=
  Bindings (field_listeners b ++ [Oninput])%list (Some ResetChanges).
Definition loaded : bindings := bind_initPage (bind_init unbound).
Definition documented : bindings := bind_init (bind_initPage unbound).

Fixpoint run_reset (h : reset_handler) (s : tool) : tool :=
  match h with
  | ResetChanges => on_form (checkDirty cfg) (updateArea (on_form (restore cfg) s))
  | Wrapped inner =>
      let s := if armed s then setArmed false s else s in
      let s := showBoxSize (Fin 0) (Fin 0) (forgetMeasurement s) in
      match inner with Some h => run_reset h s | None => s end
  end.

Inductive event :=
| Input (f text : string)              (** the user edits a number field *)
| TwinInput (f text : string)          (** ... or its pixel twin *)
| ChangeMethod (v : string)
| ChangeType (v : string)
| ChangePreset (presetId : string)
| PickColour (v : string)
| DragPoint (i : nat) (x y frameW frameH : num)
| InputX (i : nat) (text : string)
| InputY (i : nat) (text : string)
| Add (i : nat)
| Delete (i : nat)
| Redraw
| ToolClick
| Down (primary : bool) (evt : pointer)
| Move (evt : pointer)
| Up (evt : pointer)
| TypedSize (w h : string)
| RatioChange (key text : string)
| Undo
| Reset
| Save.

Definition listen (f : string) (own : tool -> tool) (l : list field_listener) (s : tool) : tool :=
  foldl (fun s x => match x with Release => releaseField f s | Oninput => own s end) s l.

(** The listeners of field [f]: only a managed field has the tool's. *)
Definition listeners_of (b : bindings) (f : string) : list field_listener :=
  if bool_decide (f ∈ MANAGED_FIELDS) then field_listeners b else [Oninput].

Definition step (b : bindings) (s : tool) (e : event) : tool :=
  match e with
  | Input f text =>
      let s := on_form (assign cfg f (VStr text)) s in
      on_form (checkDirty cfg) (listen f (on_form (oninput cfg f)) (listeners_of b f) s)
  | TwinInput f text =>
      let s := on_form (set_twin f (VStr text)) s in
      on_form (checkDirty cfg) (listen f (on_form (updatePercentFromPixel cfg f)) (listeners_of b f) s)
  | ChangeMethod v =>
      let s := on_form (fun z => applyCheckMethod (assign cfg "CheckMethod" (VStr v) z)) s in
      on_form (checkDirty cfg) (releaseField "CheckMethod" s)
  | ChangeType v =>
      let s := on_form (fun z => applyZoneType (assign cfg "Type" (VStr v) z)) s in
      on_form (checkDirty cfg) (type_change s)
  | ChangePreset p => on_form (checkDirty cfg) (forgetMeasurement (on_form (applyPreset cfg p) s))
  | PickColour v => on_form (fun z => alarmColourToInputs cfg (z <| picker := colour_text v |>)) s
  | DragPoint i x y w h =>
      if (i <? length (inputs (form s)))%nat then updateArea (on_form (movePoint i x y w h) s) else s
  | InputX i text => on_form (checkDirty cfg) (updateArea (on_form (moveX i (number_text (VStr text))) s))
  | InputY i text => on_form (checkDirty cfg) (updateArea (on_form (moveY i (number_text (VStr text))) s))
  | Add i => on_form (addPoint cfg i) s
  | Delete i => if (3 <? length (points (form s)))%nat then on_form (delPoint cfg i) s else s
  | Redraw => on_form (drawZonePoints cfg) s
  | ToolClick => objectSizeBtn_click s
  | Down primary evt => pointerdown primary evt s
  | Move evt => pointermove evt s
  | Up evt => endDrag evt s
  | TypedSize w h => applyTypedSize w h s
  | RatioChange k text => on_form (checkDirty cfg) (ratio_change k text s)
  | Undo => undo s
  | Reset => match reset_onclick b with Some h => run_reset h s | None => s end
  | Save => on_form (saveChanges cfg) s
  end.

Definition run (b : bindings) (s : tool) (es : list event) : tool := foldl (step b) s es.

End Tool.
(** ** The derivation keeps the order of the thresholds *)

Lemma hundredth_fin : exists h, hundredth = Fin h /\ (0 < h)%Q /\ (h <= 1)%Q.
Proof. eexists. split; [vm_compute; reflexivity|]. split; reflexivity || discriminate. Qed.

Lemma percent_mono p q : nle p q -> nle (asPercentField p) (asPercentField q).
Proof.
  intros H. unfold asPercentField. destruct hundredth_fin as (h & E & _). rewrite E.
  apply nmin_mono; [|discriminate]. apply nmax_mono; [|discriminate].
  apply ndiv_mono; [|reflexivity]. apply nround_mono, nmul_mono_const; [exact H|reflexivity].
Qed.

(** Between 0.01 and 100 and representable, whatever the percentage. *)
Lemma percent_bounds p : p <> NaN -> exists q, asPercentField p = Fin q /\ wf (Fin q) /\ (0 < q)%Q /\ (q <= 100)%Q.
Proof.
  intros N. assert (W : wf hundredth) by apply rnd_wf. destruct hundredth_fin as (h & E & H0 & H1).
  assert (D : wf (nround (p * Fin 100)%num / Fin 100)%num).
  { destruct (p * Fin 100)%num as [|b|q] eqn:M; cbn [nround ndiv]; [|exact I|apply rnd_wf].
    destruct p as [|b|q]; [congruence|discriminate M|]. exfalso. apply (rnd_not_NaN (q * 100)). exact M. }
  pose proof (nmax_spec hundredth _ (wf_not_NaN _ W) (wf_not_NaN _ D)) as (A1 & _ & _).
  set (m := nmax hundredth _) in *.
  assert (Wm : wf m) by (apply nmax_wf; assumption).
  pose proof (nmin_spec (Fin 100) m ltac:(discriminate) (wf_not_NaN _ Wm)) as (B1 & _ & B3).
  assert (Wr : wf (nmin (Fin 100) m)) by (apply nmin_wf; [apply (wf_Z 100); lia|exact Wm]).
  assert (L : nle hundredth (nmin (Fin 100) m)).
  { destruct B3 as [-> | ->]; [rewrite E; apply nle_Fin; lra|exact A1]. }
  unfold asPercentField. fold m. rewrite E in L.
  pose proof (nle_between_finite _ _ _ L B1 eq_refl eq_refl) as F.
  destruct (nmin (Fin 100) m) as [|[]|q]; try discriminate F. exists q. apply nle_Fin in L, B1.
  split; [reflexivity|]. split; [exact Wr|]. split; lra.
Qed.

(** A ratio input holds a whole percentage. *)
Definition whole_ratio (v : string) : Prop := nle (Fin 1) (parseFloat v) /\ nle (parseFloat v) (Fin 100).

Section Derivation.
Context (cfg : zcfg) (defaultValue : string -> string).

Lemma currentRatio_share key s : whole_ratio (default "" (ratio_values s !! key)) ->
  nle (Fin (pow2 (-7))) (currentRatio defaultValue key s) /\ nle (currentRatio defaultValue key s) (Fin 1).
Proof.
  intros [L U]. unfold currentRatio. set (p := parseFloat _) in *.
  assert (Z0 : (Fin 0 <? p)%num = true) by (apply (nlt_le_trans (Fin 0) (Fin 1) p); [reflexivity|exact L]).
  rewrite Z0. change ((p <=? Fin 100)%num = true) in U. rewrite U. cbn [negb orb].
  destruct (ndiv_unit p 100 ltac:(apply nle_trans with (Fin 1); [reflexivity|exact L]) U eq_refl) as [_ S].
  split; [|exact S]. eapply nle_trans; [|apply (ndiv_mono (Fin 1) p 100 L); reflexivity]. vm_compute. reflexivity.
Qed.

(** The thresholds of a box of at least one pixel are positive and nested. *)
Lemma thresholds_nested boxPx r : nle (Fin 1) boxPx -> wf boxPx ->
  (nle (Fin (pow2 (-7))) (fraction r) /\ nle (fraction r) (Fin 1)) ->
  (nle (Fin (pow2 (-7))) (filter_ratio r) /\ nle (filter_ratio r) (Fin 1)) ->
  (nle (Fin (pow2 (-7))) (blob_ratio r) /\ nle (blob_ratio r) (Fin 1)) ->
  exists px, objectThresholdPixels boxPx r = Some px /\
    nlt (Fin 0) (blob px) /\ nle (blob px) (filter_px px) /\ nle (filter_px px) (alarm px).
Proof.
  intros B W [F1 F2] [G1 G2] [H1 H2]. unfold objectThresholdPixels.
  assert (P : (Fin 0 <? boxPx)%num = true) by (apply (nlt_le_trans (Fin 0) (Fin 1) boxPx); [reflexivity|exact B]).
  rewrite P. cbn [negb]. eexists. split; [reflexivity|]. cbn [alarm filter_px blob].
  destruct (nmul_share (fraction r) boxPx (pow2 (-7)) 1 eq_refl eq_refl F1 F2 B W) as [[A1 A2] _];
    [vm_compute; reflexivity|discriminate|].
  pose proof (nmul_wf _ _ (proj2 (nle_not_NaN _ _ A1))) as Wa. set (alarm_ := (fraction r * boxPx)%num) in *.
  destruct (nmul_share (filter_ratio r) alarm_ (pow2 (-7)) (pow2 (-7) * 1) eq_refl eq_refl G1 G2 A1 Wa) as [_ [C1 C2]];
    [vm_compute; reflexivity|discriminate|].
  pose proof (nmul_wf _ _ (proj2 (nle_not_NaN _ _ C1))) as Wf. set (filter_ := (alarm_ * filter_ratio r)%num) in *.
  destruct (nmul_share (blob_ratio r) filter_ (pow2 (-7)) (pow2 (-7) * (pow2 (-7) * 1)) eq_refl eq_refl H1 H2 C1 Wf) as [_ [D1 D2]];
    [vm_compute; reflexivity|discriminate|].
  split; [|split; assumption]. eapply nlt_le_trans; [|exact D1]. reflexivity.
Qed.

(** A positive share of a zone is stored as a percentage that is read back in
    (0, 100], in the order of the shares. *)
Lemma stored_percent px zonePx : nlt (Fin 0) px -> nlt (Fin 0) zonePx -> isFinite zonePx = true ->
  exists q, pixelsToPercent px zonePx = VNum (Fin q) /\ asPercentField (px / zonePx * Fin 100)%num = Fin q
    /\ wf (Fin q) /\ (0 < q)%Q /\ (q <= 100)%Q.
Proof.
  intros P Z F. unfold pixelsToPercent. change ((Fin 0 <? px)%num = true) in P. change ((Fin 0 <? zonePx)%num = true) in Z.
  rewrite P, Z. cbn [negb orb]. destruct zonePx as [| |z]; try discriminate F. apply nlt_Fin in Z.
  assert (N : (px / Fin z * Fin 100)%num <> NaN).
  { pose proof (ndiv_mono (Fin 0) px z (nlt_nle _ _ P) Z) as D.
    pose proof (nmul_mono_const _ _ 100 D eq_refl) as M. exact (proj2 (nle_not_NaN _ _ M)). }
  destruct (percent_bounds _ N) as (q & E & Wq & L & U). rewrite E. exists q. auto.
Qed.

Lemma stored_order px px' zonePx : nle px px' -> nlt (Fin 0) zonePx -> isFinite zonePx = true ->
  nle (asPercentField (px / zonePx * Fin 100)%num) (asPercentField (px' / zonePx * Fin 100)%num).
Proof.
  intros L Z F. destruct zonePx as [| |z]; try discriminate F. apply nlt_Fin in Z.
  apply percent_mono, nmul_mono_const; [apply ndiv_mono; assumption|reflexivity].
Qed.

End Derivation.

(** ** The state the tool keeps *)

Section Invariant.
Context (cfg : zcfg) (defaultValue : string -> string).

Definition keys : list string := ["fraction"; "filter"; "blob"].

(** Everything but marks, messages and what is shown. *)
Definition core (s : tool) := (form s, undoSnapshot s, snapshotTaken s, lastBox s, ratio_values s).

Lemma core_markChanged f b s : core (markChanged f b s) = core s. Proof. reflexivity. Qed.
Lemma core_setArmed on s : core (setArmed on s) = core s. Proof. reflexivity. Qed.
Lemma core_drawRect a b s : core (drawRect a b s) = core s. Proof. reflexivity. Qed.
Lemma core_showBoxSize w h s : core (showBoxSize w h s) = core s. Proof. reflexivity. Qed.
Lemma core_warn w s : core (warn w s) = core s. Proof. reflexivity. Qed.

Lemma core_clearChangeMarks s : core (clearChangeMarks s) = core s.
Proof.
  unfold clearChangeMarks. generalize (MANAGED_FIELDS ++ ["CheckMethod"])%list. intros fs. revert s.
  induction fs as [|f fs IH]; intros s; cbn [foldl]; [reflexivity|]. rewrite IH. reflexivity.
Qed.

Lemma core_forget s : core (forgetMeasurement s) = (form s, None, false, None, ratio_values s).
Proof.
  pose proof (core_clearChangeMarks s) as C. unfold forgetMeasurement. set (t := clearChangeMarks s) in *. clearbody t.
  unfold core in *. injection C as E1 _ _ _ E5. rewrite <- E1, <- E5.
  destruct t as [fm [|] dr sp un tk lb rv ch us ps rc wp hp ck wn]; reflexivity.
Qed.

Lemma core_form t z a b c d : core t = (z, a, b, c, d) -> form t = z.
Proof. unfold core. congruence. Qed.

Lemma form_forget s : form (forgetMeasurement s) = form s.
Proof. exact (core_form _ _ _ _ _ _ (core_forget s)). Qed.

Lemma on_form_core (g : page -> page) s : core (on_form g s) = (g (form s), undoSnapshot s, snapshotTaken s, lastBox s, ratio_values s).
Proof. reflexivity. Qed.

(** The fields that hold the settings of a measurement. *)
Definition written (values : list (string * jsval)) (z : page) : page :=
  updateAllPixelDisplays cfg (assign_all cfg (fun f => setting f values) MANAGED_FIELDS
    (applyCheckMethod (assign cfg "CheckMethod" (setting "CheckMethod" values) z))).

Lemma core_write_settings snap values s :
  core (write_settings cfg snap values s) = (written values (form s), undoSnapshot s, snapshotTaken s, lastBox s, ratio_values s).
Proof.
  unfold write_settings. set (t := markChanged "CheckMethod" _ _).
  assert (T : core t = (applyCheckMethod (assign cfg "CheckMethod" (setting "CheckMethod" values) (form s)),
    undoSnapshot s, snapshotTaken s, lastBox s, ratio_values s)) by reflexivity.
  clearbody t. rewrite on_form_core. unfold written. 
  assert (G : forall fs u, let v := foldl (fun s f => markChanged f (negb (String.eqb (js_to_string (setting f values)) (js_to_string (member f snap))))
               (on_form (assign cfg f (setting f values)) s)) u fs in
    core v = (assign_all cfg (fun f => setting f values) fs (form u), undoSnapshot u, snapshotTaken u, lastBox u, ratio_values u)).
  { induction fs as [|f fs IH]; intros u; [reflexivity|]. cbn [foldl]. cbv zeta. rewrite IH. reflexivity. }
  specialize (G MANAGED_FIELDS t). cbv zeta in G. set (u := foldl _ t MANAGED_FIELDS) in *. clearbody u. unfold core in *. injection T as E1 E2 E3 E4 E5. injection G as -> -> -> -> ->.
  rewrite E1, E2, E3, E4, E5. reflexivity.
Qed.

Lemma tidy_written values z : tidy cfg (vals z) -> tidy cfg (vals (written values z)).
Proof.
  intros T. unfold written. apply tidy_updateAll. apply tidy_foldl; [intros; apply tidy_assign; assumption|].
  rewrite vals_applyCheckMethod. apply tidy_assign, T.
Qed.

Lemma value_written values z f : f ∈ "CheckMethod" :: MANAGED_FIELDS -> value f (written values z) = kept cfg f (setting f values).
Proof.
  intros H. unfold written. rewrite value_updateAll by (intros ->; revert H; apply (bool_decide_unpack _); vm_compute; exact I).
  rewrite value_assign_all. destruct (decide (f ∈ MANAGED_FIELDS)) as [M|M]; [rewrite bool_decide_true by exact M; reflexivity|].
  rewrite bool_decide_false by exact M. apply elem_of_cons in H as [->|H]; [|contradiction].
  rewrite (value_vals _ _ _ (vals_applyCheckMethod _)), value_assign. reflexivity.
Qed.

(** What apply does: nothing, or a measurement against the snapshot it has or
    takes. *)
Definition reference (s : tool) : gmap string string :=
  if snapshotTaken s then default ∅ (undoSnapshot s) else snapshot (form s).

Lemma apply_spec a b s :
  (apply cfg defaultValue a b s = (false, s)
   /\ ((Fin 0 <? box_width cfg a b * box_height cfg a b)%num && (Fin 0 <? zone_pixels cfg s)%num) = false) \/
  exists values s', apply cfg defaultValue a b s = (true, s')
    /\ nlt (Fin 0) (box_width cfg a b * box_height cfg a b)%num /\ nlt (Fin 0) (zone_pixels cfg s)
    /\ zoneSettingsForObject (box_width cfg a b * box_height cfg a b)%num (zone_pixels cfg s) (reference s)
         (currentRatios defaultValue s) = Some values
    /\ core s' = (written values (form s), (if snapshotTaken s then undoSnapshot s else Some (snapshot (form s))), true,
                   Some (a, b), ratio_values s).
Proof.
  unfold apply. destruct (Fin 0 <? _)%num eqn:B; [|left; auto].
  destruct (Fin 0 <? zone_pixels cfg s)%num eqn:Z; [|left; auto]. cbn [negb orb]. right.
  set (t := if snapshotTaken s then s else takeSnapshot s <| snapshotTaken := true |>).
  assert (T : core t = (form s, (if snapshotTaken s then undoSnapshot s else Some (snapshot (form s))), true, lastBox s, ratio_values s)).
  { subst t. destruct s as [fm ar dr sp un [|] lb rv ch us ps rc wp hp ck wn]; reflexivity. }
  clearbody t. set (u := t <| lastBox := Some (a, b) |>).
  assert (U : core u = (form s, (if snapshotTaken s then undoSnapshot s else Some (snapshot (form s))), true, Some (a, b), ratio_values s)).
  { subst u. destruct t. unfold core in *. cbn in *. injection T as -> -> -> _ ->. reflexivity. }
  clearbody u. clear T t. unfold core in U. injection U as E1 E2 E3 E4 E5.
  assert (R : default ∅ (undoSnapshot u) = reference s) by (rewrite E2; unfold reference; destruct (snapshotTaken s); reflexivity).
  assert (Zu : zone_pixels cfg u = zone_pixels cfg s) by (unfold zone_pixels; rewrite E1; reflexivity).
  assert (C : currentRatios defaultValue u = currentRatios defaultValue s) by (unfold currentRatios, currentRatio; rewrite E5; reflexivity).
  rewrite R, Zu, C. destruct (zoneSettingsForObject _ _ _ _) as [values|] eqn:V.
  - exists values, (write_settings cfg (reference s) values u). repeat split; try assumption.
    rewrite core_write_settings, E1, E2, E3, E4, E5. reflexivity.
  - exfalso. unfold zoneSettingsForObject, objectThresholdPixels in V. rewrite B, Z in V. discriminate V.
Qed.

(** The parts of the state agree, and every text is one its control keeps. *)
Record inv (s : tool) : Prop := {
  inv_form : tidy cfg (vals (form s));
  inv_snap : match undoSnapshot s with
             | None => snapshotTaken s = false /\ lastBox s = None
             | Some snap => snapshotTaken s = true /\ tidy cfg snap
             end;
  inv_ratios : forall key, key ∈ keys -> whole_ratio (default "" (ratio_values s !! key))
}.

Lemma inv_core s t : core t = core s -> inv s -> inv t.
Proof.
  unfold core. intros [= E1 E2 E3 E4 E5] [F S R]. constructor; rewrite ?E1, ?E2, ?E3, ?E4, ?E5; assumption.
Qed.

Lemma inv_with_form z s t : core t = (z, undoSnapshot s, snapshotTaken s, lastBox s, ratio_values s) -> tidy cfg (vals z) -> inv s -> inv t.
Proof. unfold core. intros [= E1 E2 E3 E4 E5] T [F S R]. constructor; rewrite ?E1, ?E2, ?E3, ?E4, ?E5; assumption. Qed.

Lemma inv_on_form g s : inv s -> tidy cfg (vals (g (form s))) -> inv (on_form g s).
Proof. intros I T. exact (inv_with_form _ s _ (on_form_core g s) T I). Qed.

Lemma inv_parts t z un tk lb rv : core t = (z, un, tk, lb, rv) -> tidy cfg (vals z) ->
  match un with None => tk = false /\ lb = None | Some snap => tk = true /\ tidy cfg snap end ->
  (forall key, key ∈ keys -> whole_ratio (default "" (rv !! key))) -> inv t.
Proof. unfold core. intros [= E1 E2 E3 E4 E5] T S R. constructor; rewrite ?E1, ?E2, ?E3, ?E4, ?E5; assumption. Qed.

Lemma inv_forget s : inv s -> inv (forgetMeasurement s).
Proof. intros [F S R]. eapply inv_parts; [apply core_forget|exact F|split; reflexivity|exact R]. Qed.

Lemma tidy_snapshot z : tidy cfg (vals z) -> tidy cfg (snapshot z).
Proof.
  intros T f v H. apply elem_of_list_to_map_2, list_elem_of_fmap in H as (g & E & _).
  inversion E. exact (tidy_value cfg (value g z) g z T eq_refl).
Qed.

Lemma inv_apply a b s : inv s -> inv (apply cfg defaultValue a b s).2.
Proof.
  intros I. destruct (apply_spec a b s) as [[-> _]|(values & s' & -> & _ & _ & _ & C)]; [exact I|]. cbn [snd].
  destruct I as [F S R]. eapply inv_parts; [exact C|apply tidy_written, F| |exact R].
  destruct (undoSnapshot s) as [snap|]; destruct S as [-> S]; split; try reflexivity; [exact S|apply tidy_snapshot, F].
Qed.

Lemma inv_setArmed on s : inv s -> inv (setArmed on s). Proof. apply inv_core, core_setArmed. Qed.
Lemma inv_drawRect a b s : inv s -> inv (drawRect a b s). Proof. apply inv_core, core_drawRect. Qed.
Lemma inv_showBoxSize w h s : inv s -> inv (showBoxSize w h s). Proof. apply inv_core, core_showBoxSize. Qed.
Lemma inv_warn w s : inv s -> inv (warn w s). Proof. apply inv_core, core_warn. Qed.

Lemma inv_checkDirty s : inv s -> inv (on_form (checkDirty cfg) s).
Proof. intros I. apply inv_on_form; [exact I|]. rewrite vals_checkDirty. apply I. Qed.

Lemma inv_finishDrag a b s : inv s -> inv (finishDrag cfg defaultValue a b s).
Proof.
  intros I. apply (inv_apply a b) in I. unfold finishDrag. destruct (apply _ _ a b s) as [ok t]. cbn [snd] in I.
  destruct ok; [|exact I]. cbn [negb]. apply (inv_showBoxSize (box_width cfg a b) (box_height cfg a b)) in I.
  destruct (objectTooNarrowToFilter _ _ _ _); [|exact I]. exact (inv_warn _ _ I).
Qed.

Lemma inv_updateArea s : inv s -> inv (updateArea cfg defaultValue s).
Proof.
  intros I. unfold updateArea. destruct (Polygon_calcArea _); [|exact I].
  assert (J : inv (on_form (Zone.updateArea cfg) s)) by (apply inv_on_form; [exact I|apply tidy_updateArea, I]).
  destruct (lastBox _) as [[a b]|]; [apply inv_apply|]; exact J.
Qed.

Lemma inv_release f s : inv s -> inv (releaseField f s).
Proof.
  intros I. apply (inv_core _ (markChanged f false s)) in I; [|reflexivity]. unfold releaseField. set (t := markChanged f false s) in *.
  clearbody t. destruct (undoSnapshot t) as [snap|] eqn:E; [|exact I]. destruct I as [F S R]. rewrite E in S.
  eapply (inv_parts _ (form t) (Some _)); [reflexivity|exact F| |exact R]. split; [apply S|].
  apply tidy_insert; [apply S|]. exact (tidy_value cfg _ f (form t) F eq_refl).
Qed.

Lemma inv_listen f g l : (forall s, inv s -> inv (g s)) -> forall s, inv s -> inv (listen f g l s).
Proof.
  intros G. induction l as [|[] l IH]; intros s I; cbn [listen foldl]; [exact I| |]; apply IH; [apply inv_release|apply G]; exact I.
Qed.

Lemma tidy_put_back snap z : tidy cfg (vals z) -> forall fs, tidy cfg (vals (foldl (fun z f => put_back cfg snap f z) z fs)).
Proof. intros T fs. apply tidy_foldl; [intros; apply tidy_assign; assumption|exact T]. Qed.

Lemma inv_undo s : inv s -> inv (undo cfg s).
Proof.
  intros I. unfold undo. destruct (undoSnapshot s) as [snap|]; [|exact I]. apply inv_forget.
  apply (inv_with_form _ s _ (on_form_core (fun _ => _) s)); [|exact I]. apply tidy_updateAll, tidy_put_back.
  rewrite vals_applyCheckMethod. apply tidy_assign, I.
Qed.

Hypothesis defaults : forall key, key ∈ keys -> whole_ratio (number_text (VStr (defaultValue key))).

Lemma normalizeRatio_whole text n : normalizeRatio text = Some n -> whole_ratio (number_text (VNum n)).
Proof.
  unfold normalizeRatio. destruct (Fin 1 <=? _)%num eqn:L; [|discriminate]. destruct (_ <=? Fin 100)%num eqn:U; [|discriminate].
  cbn [negb orb]. intros [= <-]. destruct (nround (parseFloat text)) as [|[]|q] eqn:E; try discriminate.
  assert (Z : exists z, q = inject_Z z) by (destruct (parseFloat text); try discriminate E; injection E as <-; eexists; reflexivity).
  destruct Z as [z ->]. apply nle_Fin in L, U. change 1%Q with (inject_Z 1) in L. change 100%Q with (inject_Z 100) in U.
  rewrite <- Zle_Qle in L, U. unfold whole_ratio. destruct (number_text_reads (inject_Z z) ltac:(apply wf_Z; lia)) as [(v & -> & Ev) _].
  split; apply nle_Fin; rewrite Ev; [change 1%Q with (inject_Z 1)|change 100%Q with (inject_Z 100)]; rewrite <- Zle_Qle; assumption.
Qed.

(** The ratio in its field and its cookie. *)
Lemma inv_ratio_state key text s : inv s ->
  let v := match normalizeRatio (number_text (VStr text)) with Some n => number_text (VNum n) | None => number_text (VStr (defaultValue key)) end in
  inv (s <| ratio_values := <[key := v]> (ratio_values s) |> <| cookies := (cookies s ++ [(cookie_of key, v)])%list |>).
Proof.
  intros I v. set (t := s <| ratio_values := _ |> <| cookies := _ |>).
  assert (C : core t = (form s, undoSnapshot s, snapshotTaken s, lastBox s, <[key := v]> (ratio_values s))) by (destruct s; reflexivity).
  clearbody t. eapply inv_parts; [exact C|apply I|apply I|]. intros k Hk. destruct (decide (k = key)) as [->|N].
  - rewrite lookup_insert_eq. cbn [default]. subst v. destruct (normalizeRatio _) eqn:E; [exact (normalizeRatio_whole _ _ E)|apply defaults, Hk].
  - rewrite lookup_insert_ne by congruence. apply I, Hk.
Qed.

Lemma inv_ratio_change key text s : inv s -> inv (ratio_change cfg defaultValue key text s).
Proof.
  intros I. apply (inv_ratio_state key text) in I. cbv zeta in I. unfold ratio_change.
  destruct (lastBox _) as [[a b]|]; [apply inv_apply|]; exact I.
Qed.

Lemma inv_run_reset : forall h s, inv s -> inv (run_reset cfg defaultValue h s).
Proof.
  fix IH 1. intros [|inner] s I; cbn [run_reset].
  - apply inv_checkDirty, inv_updateArea, inv_on_form; [exact I|apply tidy_restore, I].
  - assert (J : inv (showBoxSize (Fin 0) (Fin 0) (forgetMeasurement (if armed s then setArmed false s else s)))).
    { apply inv_showBoxSize, inv_forget. destruct (armed s); [apply inv_setArmed|]; exact I. }
    destruct inner as [h|]; [apply IH|]; exact J.
Qed.

Lemma inv_pointer primary evt s : inv s -> inv (pointerdown primary evt s) /\ inv (pointermove cfg defaultValue evt s) /\ inv (endDrag cfg defaultValue evt s).
Proof.
  intros I. unfold pointerdown, pointermove, endDrag. destruct (armed s); cbn [negb orb]; [|auto].
  split; [|destruct (dragging s); cbn [negb]; [|auto]; split; [apply inv_apply, inv_drawRect, I|]].
  - destruct primary; cbn [negb]; [|exact I]. destruct (zoneIsMeasurable s); cbn [negb]; [|apply inv_forget, inv_setArmed, I].
    apply inv_drawRect, (inv_core s); [destruct s; reflexivity|exact I].
  - apply inv_finishDrag, inv_drawRect, (inv_core s); [reflexivity|exact I].
Qed.

Lemma inv_step b s e : inv s -> inv (step cfg defaultValue b s e).
Proof.
  intros I. pose proof (inv_form s I) as T. destruct e; cbn [step].
  - apply inv_checkDirty, inv_listen; [intros t J; apply inv_on_form, tidy_oninput, J; exact J|]. apply inv_on_form, tidy_assign, T. exact I.
  - apply inv_checkDirty, inv_listen; [intros t J; apply inv_on_form, tidy_updatePercentFromPixel, J; exact J|]. apply inv_on_form, T. exact I.
  - apply inv_checkDirty, inv_release, inv_on_form; [exact I|]. rewrite vals_applyCheckMethod. apply tidy_assign, T.
  - apply inv_checkDirty. set (t := on_form _ s).
    assert (J : inv t) by (apply inv_on_form; [exact I|]; rewrite vals_applyZoneType; apply tidy_assign, T).
    unfold type_change. destruct (zoneIsMeasurable t); [exact J|]. apply inv_forget. destruct (armed t); [apply inv_setArmed|]; exact J.
  - apply inv_checkDirty, inv_forget, inv_on_form, tidy_applyPreset, T. exact I.
  - apply inv_on_form, tidy_alarmColourToInputs, T. exact I.
  - destruct (_ <? _)%nat; [|exact I]. apply inv_updateArea, inv_on_form, T. exact I.
  - apply inv_checkDirty, inv_updateArea, inv_on_form, T. exact I.
  - apply inv_checkDirty, inv_updateArea, inv_on_form, T. exact I.
  - apply inv_on_form; [exact I|]. rewrite vals_addPoint. exact T.
  - destruct (_ <? _)%nat; [|exact I]. apply inv_on_form; [exact I|]. rewrite vals_delPoint. exact T.
  - apply inv_on_form; [exact I|]. rewrite vals_drawZonePoints. exact T.
  - unfold objectSizeBtn_click. destruct (negb (armed s) && _); [apply inv_warn, I|]. apply inv_setArmed.
    destruct (armed s); [exact I|apply inv_forget, I].
  - apply inv_pointer, I.
  - apply (inv_pointer true), I.
  - apply (inv_pointer true), I.
  - unfold applyTypedSize. destruct (negb _); [apply inv_warn, I|]. cbv zeta. set (t := s <| widthPx := _ |> <| heightPx := _ |>).
    assert (J : inv t) by (apply (inv_core s); [destruct s; reflexivity|exact I]).
    destruct (boxPercentForPixels _ _ _ _) as [[x y]|]; [apply inv_finishDrag, inv_drawRect, J|apply inv_warn, J].
  - apply inv_checkDirty, inv_ratio_change, I.
  - apply inv_undo, I.
  - destruct (reset_onclick b); [apply inv_run_reset|]; exact I.
  - apply inv_on_form, tidy_saveChanges, T. exact I.
Qed.

Lemma tool_inv_run b es : forall s, inv s -> inv (run cfg defaultValue b s es).
Proof. induction es as [|e es IH]; intros s I; [exact I|]. apply IH, inv_step, I. Qed.
End Invariant.

(** Membership in a closed list. *)
Ltac in_list := apply (bool_decide_unpack _); vm_compute; exact Logic.I.

Section Measured.
Context (cfg : zcfg) (defaultValue : string -> string).

(** The page as initPage leaves it, with the tool not used yet. *)
Definition start (z : page) (rv : gmap string string) : tool :=
  Tool (initPage cfg z) false false (Fin 0, Fin 0) None false None rv ∅ false false None "" "" [] [].

Lemma inv_start z rv : tidy cfg (vals z) -> (forall key, key ∈ keys -> whole_ratio (default "" (rv !! key))) ->
  inv cfg (start z rv).
Proof. intros T R. eapply inv_parts; [reflexivity|apply tidy_initPage, T|split; reflexivity|exact R]. Qed.

Lemma tidy_reference s : inv cfg s -> tidy cfg (reference s).
Proof.
  intros [F S _]. unfold reference. destruct (undoSnapshot s) as [snap|]; destruct S as [-> S]; [exact S|apply tidy_snapshot, F].
Qed.

(** A kept setting is not empty. *)
Lemma keepOr_kept f snap n : tidy cfg snap -> wf (Fin n) -> f ∈ number_fields ->
  kept cfg f (keepOr (member f snap) (VNum (Fin n))) <> "".
Proof.
  intros T W N.
  assert (K : forall v, kept cfg f v = number_text v).
  { intros v. unfold kept. destruct (String.eqb_spec f "Type") as [->|_]; [exfalso; revert N; apply (bool_decide_unpack _); vm_compute; exact I|].
    destruct (String.eqb_spec f "CheckMethod") as [->|_]; [exfalso; revert N; apply (bool_decide_unpack _); vm_compute; exact I|].
    rewrite bool_decide_true by exact N. reflexivity. }
  unfold member, keepOr. destruct (snap !! f) as [v|] eqn:E; [|rewrite K; apply number_text_reads, W].
  cbn [js_to_string]. destruct (String.eqb_spec v "") as [->|Nv]; [rewrite K; apply number_text_reads, W|].
  rewrite (T f v E). exact Nv.
Qed.

Hypothesis blobs : "Blobs" ∈ optCheckMethods cfg.

(** The fields after a measurement of a box of at least a pixel. *)
Record measured (z : page) : Prop := {
  m_method : value "CheckMethod" z = "Blobs";
  m_filter : value "FilterX" z <> "" /\ value "FilterY" z <> "";
  m_max : forall f, f ∈ ["MaxPixelThreshold"; "MaxAlarmPixels"; "MaxFilterPixels"; "MaxBlobPixels"; "MaxBlobs"] -> value f z = "";
  m_blobs : value "MinBlobs" z = "1";
  m_min : exists a f b, parseFloat (value "MinAlarmPixels" z) = Fin a /\ parseFloat (value "MinFilterPixels" z) = Fin f
            /\ parseFloat (value "MinBlobPixels" z) = Fin b /\ (0 < b)%Q /\ (b <= f)%Q /\ (f <= a)%Q /\ (a <= 100)%Q;
  m_set : forall f, f ∈ ["MinAlarmPixels"; "MinFilterPixels"; "MinBlobPixels"] -> value f z <> ""
}.

Lemma kept_number f v : f ∈ number_fields -> f <> "Type" -> f <> "CheckMethod" -> kept cfg f v = number_text v.
Proof.
  intros N A B. unfold kept. destruct (String.eqb_spec f "Type"); [congruence|]. destruct (String.eqb_spec f "CheckMethod"); [congruence|].
  rewrite bool_decide_true by exact N. reflexivity.
Qed.

Lemma written_measures boxPx zonePx snap r values z : tidy cfg snap -> nle (Fin 1) boxPx -> isFinite zonePx = true ->
  (nle (Fin (pow2 (-7))) (fraction r) /\ nle (fraction r) (Fin 1)) ->
  (nle (Fin (pow2 (-7))) (filter_ratio r) /\ nle (filter_ratio r) (Fin 1)) ->
  (nle (Fin (pow2 (-7))) (blob_ratio r) /\ nle (blob_ratio r) (Fin 1)) -> wf boxPx ->
  zoneSettingsForObject boxPx zonePx snap r = Some values ->
  (forall f, f ∈ "CheckMethod" :: MANAGED_FIELDS -> value f z = kept cfg f (setting f values)) -> measured z.
Proof.
  intros T B F R1 R2 R3 W V G.
  destruct (thresholds_nested _ r B W R1 R2 R3) as (px & Ep & P0 & P1 & P2).
  unfold zoneSettingsForObject in V. rewrite Ep in V. destruct (Fin 0 <? zonePx)%num eqn:Pz; [|discriminate V]. cbn [negb] in V.
  pose proof (nlt_le_trans _ _ _ P0 P1) as P01. pose proof (nlt_le_trans _ _ _ P01 P2) as P02.
  destruct (stored_percent _ _ P0 Pz F) as (qb & Vb & Eb & Wb & Lb & Ub).
  destruct (stored_percent _ _ P01 Pz F) as (qf & Vf & Ef & Wf & Lf & Uf).
  destruct (stored_percent _ _ P02 Pz F) as (qa & Va & Ea & Wa & La & Ua).
  pose proof (stored_order _ _ _ P1 Pz F) as O1. pose proof (stored_order _ _ _ P2 Pz F) as O2.
  rewrite Eb, Ef in O1. rewrite Ef, Ea in O2. apply nle_Fin in O1, O2. clear Eb Ef Ea.
  destruct (number_text_reads qa Wa) as [(va & Ra & Qa) Na]. destruct (number_text_reads qf Wf) as [(vf & Rf & Qf) Nf].
  destruct (number_text_reads qb Wb) as [(vb & Rb & Qb) Nb].
  rewrite Va, Vf, Vb in V. injection V as <-.
  set (values := [("CheckMethod", _); _; _; _; _; _; _; _; _; _; _; _; _; _]) in *.
  assert (K : forall f v, f ∈ MANAGED_FIELDS -> f ∈ number_fields -> setting f values = v -> value f z = number_text v).
  { intros f v Hf Hn <-. rewrite G by (right; exact Hf).
    apply kept_number; [exact Hn| |]; intros ->; revert Hf; in_list. }
  assert (Ka : value "MinAlarmPixels" z = number_text (VNum (Fin qa))) by (apply K; [in_list|in_list|reflexivity]).
  assert (Kf : value "MinFilterPixels" z = number_text (VNum (Fin qf))) by (apply K; [in_list|in_list|reflexivity]).
  assert (Kb : value "MinBlobPixels" z = number_text (VNum (Fin qb))) by (apply K; [in_list|in_list|reflexivity]).
  constructor.
  - rewrite G by left. change (setting "CheckMethod" values) with (VStr "Blobs"). unfold kept.
    change (String.eqb "CheckMethod" "Type") with false. change (String.eqb "CheckMethod" "CheckMethod") with true.
    cbv iota. cbn [js_to_string]. rewrite bool_decide_true by exact blobs. reflexivity.
  - split; rewrite G by in_list; apply keepOr_kept; try exact T; try in_list; apply (wf_Z 3); lia.
  - intros f Hf. transitivity (number_text (VStr "")); [|reflexivity].
    repeat (apply elem_of_cons in Hf as [->|Hf]; [apply K; [in_list|in_list|reflexivity]|]). apply elem_of_nil in Hf. destruct Hf.
  - transitivity (number_text (VNum (Fin 1))); [apply K; [in_list|in_list|reflexivity]|reflexivity].
  - exists va, vf, vb. rewrite Ka, Kf, Kb. repeat split; try assumption; lra.
  - intros f Hf. repeat (apply elem_of_cons in Hf as [->|Hf]; [congruence|]). apply elem_of_nil in Hf. destruct Hf.
Qed.

Lemma apply_measures a b s s' : inv cfg s -> apply cfg defaultValue a b s = (true, s') ->
  nle (Fin 1) (box_width cfg a b * box_height cfg a b)%num -> isFinite (zone_pixels cfg s) = true -> measured (form s').
Proof.
  intros I A B F. destruct (apply_spec cfg defaultValue a b s) as [[E _]|(values & t & E & _ & _ & V & C)]; [congruence|].
  assert (t = s') as -> by congruence. unfold core in C. injection C as Ef _ _ _ _.
  eapply written_measures; [apply tidy_reference, I|exact B|exact F| | | |exact (nmul_wf _ _ (proj2 (nle_not_NaN _ _ B)))|exact V|];
    try (apply currentRatio_share, I; in_list).
  intros f Hf. rewrite Ef. apply value_written, Hf.
Qed.

Lemma measured_errors z : measured z ->
  threshold_errors z = if empty "MinPixelThreshold" z || (parseInt (value "MinPixelThreshold" z) <=? Fin 0)%num
                       then [minPixelThresUnsetString] else [].
Proof.
  intros [Hm [Hx Hy] Hmax Hb (a & f & b & Ea & Ef & Eb & L0 & L1 & L2 & _) Hs]. 
  assert (X : forall g, g ∈ ["MaxPixelThreshold"; "MaxAlarmPixels"; "MaxFilterPixels"; "MaxBlobPixels"; "MaxBlobs"] -> value g z = "") by exact Hmax.
  assert (N : parseFloat "" = NaN /\ parseInt "" = NaN) by (split; vm_compute; reflexivity). destruct N as [N1 N2].
  assert (P : forall q, (0 < q)%Q -> (Fin q <=? Fin 0)%num = false) by (intros q Hq; cbn [nleb]; apply Qle_bool_false; exact Hq).
  assert (S : forall g, g ∈ ["MinAlarmPixels"; "MinFilterPixels"; "MinBlobPixels"] -> empty g z = false)
    by (intros g Hg; unfold empty; apply String.eqb_neq, Hs, Hg).
  assert (LE : forall p q, (p <= q)%Q -> (Fin q <? Fin p)%num = false).
  { intros p q H. cbn [nltb]. apply negb_false_iff, Qle_bool_iff, H. }
  unfold threshold_errors, filtered, nested_errors, limit_errors.
  rewrite Hm, (X "MaxPixelThreshold"), (X "MaxAlarmPixels"), (X "MaxFilterPixels"), (X "MaxBlobPixels"), (X "MaxBlobs") by in_list.
  rewrite (S "MinAlarmPixels"), (S "MinFilterPixels"), (S "MinBlobPixels") by in_list.
  rewrite Ea, Ef, Eb, N1, N2, !P by lra. unfold empty at 2 3 4. rewrite Hb.
  rewrite (proj2 (String.eqb_neq _ _) Hx), (proj2 (String.eqb_neq _ _) Hy).
  change (String.eqb "Blobs" "FilteredPixels") with false. change (String.eqb "Blobs" "Blobs") with true.
  change (String.eqb "1" "") with false. change (parseInt "1" <=? Fin 0)%num with false.
  cbn [orb andb nleb app]. rewrite !LE by lra.
  destruct (empty "MinPixelThreshold" z || _); reflexivity.
Qed.
End Measured.

(** ** Undo takes back the measurements and nothing else

    A run with the tool is compared with the run of the user's own edits alone, on
    a page where the tool is never used. *)

Section Undo.
Context (cfg : zcfg) (defaultValue : string -> string).

Definition restored : list string := "CheckMethod" :: MANAGED_FIELDS.

(** An edit of the zone by the user, as opposed to a measurement. *)
Definition is_edit (e : event) : bool :=
  match e with
  | Input _ _ | TwinInput _ _ | ChangeMethod _ | ChangeType _ | PickColour _ | DragPoint _ _ _ _ _ | InputX _ _ | InputY _ _
  | Add _ | Delete _ | Redraw => true
  | _ => false
  end.

(** The events between arming the tool and its undo.  The tool is not used on an
    inactive zone.  When the tool's listener runs before the page's, a field has
    to keep what is typed into it, and the pixel twins are left alone. *)
Definition between (b : bindings) (e : event) : bool :=
  let in_order := match field_listeners b with [Oninput; Release] => true | _ => false end in
  match e with
  | Input f text =>
      bool_decide (f ∈ number_fields)
      && (in_order || String.eqb (limited cfg f (number_text (VStr text))) (number_text (VStr text)))
  | TwinInput f _ => bool_decide (f ∈ thresholds) && in_order
  | ChangeType v => negb (String.eqb v "Inactive") && negb (String.eqb v "Privacy")
  | ChangePreset _ | ToolClick | Undo | Reset | Save => false
  | _ => true
  end.

Definition saved (s : tool) (f : string) : option string :=
  match undoSnapshot s with None => Some (value f (form s)) | Some snap => snap !! f end.

(** The run with the tool and the run of the edits. *)
Record rel (s s0 : tool) : Prop := {
  r_inv : inv cfg s;
  r_plain : undoSnapshot s0 = None /\ lastBox s0 = None;
  r_shape : shape (form s) = shape (form s0);
  r_other : forall f, f ∉ restored -> f <> "Area" -> value f (form s) = value f (form s0);
  r_saved : forall f, f ∈ restored -> saved s f = Some (value f (form s0));
  r_off : agree adjustable (off (form s)) (off (form s0));
  r_zone : not_measured (form s0) = false
}.

(** Only the form and the snapshot matter. *)
Lemma rel_core s t s0 : core t = core s -> rel s s0 -> rel t s0.
Proof.
  intros C [I P S O V F Z]. pose proof (inv_core cfg s t C I) as J. unfold core in C. injection C as E1 E2 _ _ _.
  constructor; unfold saved in *; rewrite ?E1, ?E2; assumption.
Qed.

Lemma not_measured_value z z' : value "Type" z = value "Type" z' -> not_measured z = not_measured z'.
Proof. unfold not_measured. intros ->. reflexivity. Qed.

Lemma type_other : "Type" ∉ restored /\ "Type" <> "Area".
Proof. split; [in_list|discriminate]. Qed.

Lemma rel_measurable s s0 : rel s s0 -> zoneIsMeasurable s = true.
Proof.
  intros R. unfold zoneIsMeasurable. rewrite (not_measured_value (form s) (form s0)), (r_zone s s0 R); [reflexivity|].
  apply (r_other s s0 R); apply type_other.
Qed.

(** A measurement does not disturb the relation. *)
Lemma rel_apply a b s s0 : rel s s0 -> rel (apply cfg defaultValue a b s).2 s0.
Proof.
  intros R. pose proof (inv_apply cfg defaultValue a b s (r_inv s s0 R)) as J.
  destruct (apply_spec cfg defaultValue a b s) as [[E _]|(values & s' & E & _ & _ & _ & C)]; rewrite E in *; cbn [snd] in *; [exact R|].
  destruct R as [I P S O V F Z]. unfold core in C. injection C as E1 E2 _ _ _. pose proof (inv_snap cfg s I) as Sn.
  assert (W : forall f, f ∉ restored -> f <> "Area" -> value f (written cfg values (form s)) = value f (form s)).
  { intros f Hf Ha. unfold restored in Hf. rewrite elem_of_cons in Hf. unfold written.
    rewrite value_updateAll by exact Ha. rewrite value_assign_all, bool_decide_false by tauto.
    rewrite (value_vals _ _ _ (vals_applyCheckMethod _)), value_assign. destruct (String.eqb_spec f "CheckMethod"); tauto. }
  constructor; rewrite ?E1; try assumption.
  - unfold written. rewrite shape_updateAll. unfold assign_all. rewrite shape_foldl by reflexivity. rewrite shape_applyCheckMethod. exact S.
  - intros f Hf Ha. rewrite W by assumption. apply O; assumption.
  - intros f Hf. specialize (V f Hf). unfold saved in *. rewrite E2. destruct (undoSnapshot s) as [snap|]; destruct Sn as [-> Sn]; [exact V|].
    rewrite <- V. unfold snapshot. fold restored. apply elem_of_list_to_map_1.
    + rewrite <- list_fmap_compose. apply (bool_decide_unpack (NoDup _)). vm_compute. exact Logic.I.
    + apply list_elem_of_fmap. exists f. auto.
  - unfold written. rewrite off_updateAll, off_assign_all. eapply agree_trans; [apply agree_method_self|exact F].
Qed.

Lemma rel_core_plain s s0 t0 : core t0 = core s0 -> rel s s0 -> rel s t0.
Proof.
  intros C [I P S O V F Z]. unfold core in C. injection C as E1 E2 _ E4 _. constructor; rewrite ?E1, ?E2, ?E4; assumption.
Qed.

(** An operation on both forms that leaves the thresholds alone. *)
Lemma rel_map g g0 s s0 : rel s s0 -> tidy cfg (vals (g (form s))) -> shape (g (form s)) = shape (g0 (form s0)) ->
  (forall f, f ∉ restored -> f <> "Area" -> value f (g (form s)) = value f (g0 (form s0))) ->
  (forall f, f ∈ restored -> value f (g (form s)) = value f (form s) /\ value f (g0 (form s0)) = value f (form s0)) ->
  agree adjustable (off (g (form s))) (off (g0 (form s0))) -> not_measured (g0 (form s0)) = false ->
  rel (on_form g s) (on_form g0 s0).
Proof.
  intros [I P S O V F Z] T Hs Ho Hr Hf Hz. constructor; try assumption; [apply inv_on_form; assumption|].
  intros f H. specialize (V f H). destruct (Hr f H) as [A A0]. unfold saved in *.
  change (undoSnapshot (on_form g s)) with (undoSnapshot s). change (form (on_form g0 s0)) with (g0 (form s0)).
  change (form (on_form g s)) with (g (form s)). rewrite A, A0. exact V.
Qed.

(** ... or sets one of them to the same value, which the tool then lets go. *)
Lemma rel_edit f g g0 s s0 : rel s s0 -> f ∈ restored -> tidy cfg (vals (g (form s))) -> shape (g (form s)) = shape (g0 (form s0)) ->
  (forall h, h <> f -> value h (g (form s)) = value h (form s) /\ value h (g0 (form s0)) = value h (form s0)) ->
  value f (g (form s)) = value f (g0 (form s0)) -> agree adjustable (off (g (form s))) (off (g0 (form s0))) ->
  rel (releaseField f (on_form g s)) (releaseField f (on_form g0 s0)).
Proof.
  intros R Hf T Hs Hh Hv Ho. destruct R as [I P S O V F Z].
  assert (I' : inv cfg (releaseField f (on_form g s))) by (apply inv_release, inv_on_form; assumption).
  assert (C0 : core (releaseField f (on_form g0 s0)) = core (on_form g0 s0)).
  { unfold releaseField. change (undoSnapshot (markChanged f false (on_form g0 s0))) with (undoSnapshot s0). rewrite (proj1 P). reflexivity. }
  apply (rel_core_plain _ _ _ C0). clear C0.
  assert (E : form (releaseField f (on_form g s)) = g (form s) /\
    undoSnapshot (releaseField f (on_form g s)) = match undoSnapshot s with None => None | Some snap => Some (<[f := value f (g (form s))]> snap) end).
  { unfold releaseField. change (undoSnapshot (markChanged f false (on_form g s))) with (undoSnapshot s).
    destruct (undoSnapshot s) eqn:E; [split; reflexivity|]. split; [reflexivity|exact E]. }
  destruct E as [E1 E2]. constructor; rewrite ?E1; try assumption.
  - intros h Hr Ha. destruct (Hh h) as [A A0]; [congruence|]. change (form (on_form g0 s0)) with (g0 (form s0)). rewrite A, A0. apply O; assumption.
  - intros h Hr. change (form (on_form g0 s0)) with (g0 (form s0)). unfold saved. rewrite E1, E2. specialize (V h Hr). unfold saved in V.
    destruct (decide (h = f)) as [->|N].
    + destruct (undoSnapshot s); [rewrite lookup_insert_eq|]; rewrite Hv; reflexivity.
    + destruct (Hh h N) as [A A0]. rewrite A0, <- V. destruct (undoSnapshot s); [rewrite lookup_insert_ne by congruence; reflexivity|]. rewrite A. reflexivity.
  - change (form (on_form g0 s0)) with (g0 (form s0)). rewrite (not_measured_value _ (form s0)); [exact Z|]. apply Hh.
    intros <-. revert Hf. apply type_other.
Qed.

Lemma rel_dirty s s0 : rel s s0 -> rel (on_form (checkDirty cfg) s) (on_form (checkDirty cfg) s0).
Proof.
  intros R. assert (V : forall f z, value f (checkDirty cfg z) = value f z) by (intros; apply value_vals, vals_checkDirty).
  apply rel_map; [exact R| | | | | |].
  - rewrite vals_checkDirty. apply R.
  - rewrite !shape_checkDirty. apply R.
  - intros f Hf Ha. rewrite !V. apply R; assumption.
  - intros f _. rewrite !V. auto.
  - rewrite !off_checkDirty. apply R.
  - rewrite (not_measured_value _ (form s0)); [apply R|apply V].
Qed.

Lemma rel_dirty_left s s0 : rel s s0 -> rel (on_form (checkDirty cfg) s) s0.
Proof.
  intros [I P S O V F Z]. assert (W : forall f z, value f (checkDirty cfg z) = value f z) by (intros; apply value_vals, vals_checkDirty).
  constructor; try assumption; [apply inv_checkDirty, I|rewrite <- S; apply shape_checkDirty| | |].
  - intros f Hf Ha. rewrite <- (O f Hf Ha). apply W.
  - intros f Hf. rewrite <- (V f Hf). unfold saved. change (undoSnapshot (on_form ?g ?u)) with (undoSnapshot u).
    destruct (undoSnapshot s); [reflexivity|]. f_equal. apply W.
  - change (form (on_form ?g ?u)) with (g (form u)). rewrite off_checkDirty. exact F.
Qed.

(** Operations on the polygon. *)
Lemma rel_polygon g s s0 : rel s s0 -> (forall z, vals (g z) = vals z /\ off (g z) = off z) ->
  shape (g (form s)) = shape (g (form s0)) -> rel (on_form g s) (on_form g s0).
Proof.
  intros R G S. assert (V : forall f z, value f (g z) = value f z) by (intros; apply value_vals, G).
  apply rel_map; [exact R| |exact S| | | |].
  - rewrite (proj1 (G _)). apply R.
  - intros f Hf Ha. rewrite !V. apply R; assumption.
  - intros f _. rewrite !V. auto.
  - rewrite !(proj2 (G _)). apply R.
  - rewrite (not_measured_value _ (form s0)); [apply R|apply V].
Qed.

Lemma area_not_restored : "Area" ∉ restored. Proof. in_list. Qed.

Lemma rel_updateArea s s0 : rel s s0 -> rel (updateArea cfg defaultValue s) (updateArea cfg defaultValue s0).
Proof.
  intros R. destruct (shape_points _ _ (r_shape s s0 R)) as (P & _ & _). unfold updateArea. rewrite P.
  destruct (Polygon_calcArea (points (form s0))); [|exact R].
  assert (V : forall f z, f <> "Area" -> value f (Zone.updateArea cfg z) = value f z).
  { intros f z N. unfold Zone.updateArea. destruct (Polygon_calcArea (points z)); [|reflexivity].
    rewrite (value_vals _ _ _ (vals_checkDirty cfg _)), value_updateAll by exact N. reflexivity. }
  assert (J : rel (on_form (Zone.updateArea cfg) s) (on_form (Zone.updateArea cfg) s0)).
  { apply rel_map; [exact R|apply tidy_updateArea, R|apply shape_updateArea, R| | | |].
    - intros f Hf Ha. rewrite !V by exact Ha. apply R; assumption.
    - intros f Hf. assert (f <> "Area") by (intros ->; exact (area_not_restored Hf)). rewrite !V by assumption. auto.
    - rewrite !off_updateArea. apply R.
    - rewrite (not_measured_value _ (form s0)); [apply R|apply V; discriminate]. }
  change (lastBox (on_form (Zone.updateArea cfg) s0)) with (lastBox s0). rewrite (proj2 (r_plain s s0 R)).
  destruct (lastBox _) as [[a b]|]; [apply rel_apply|]; exact J.
Qed.

(** The tool's own events. *)
Lemma rel_finishDrag a b s s0 : rel s s0 -> rel (finishDrag cfg defaultValue a b s) s0.
Proof.
  intros R. apply (rel_apply a b) in R. unfold finishDrag. destruct (apply _ _ a b s) as [ok t]. cbn [snd] in R.
  destruct ok; [|exact R]. cbn [negb].
  assert (J : rel (showBoxSize (box_width cfg a b) (box_height cfg a b) t) s0) by (eapply rel_core; [apply core_showBoxSize|exact R]).
  destruct (objectTooNarrowToFilter _ _ _ _); [|exact J]. exact (rel_core _ _ _ (core_warn _ _) J).
Qed.

Hypothesis defaults : forall key, key ∈ keys -> whole_ratio (number_text (VStr (defaultValue key))).

Lemma rel_tool b e s s0 : rel s s0 -> is_edit e = false -> between b e = true -> rel (step cfg defaultValue b s e) s0.
Proof.
  intros R N B. destruct e; try discriminate N; try discriminate B; cbn [step].
  - unfold pointerdown. rewrite (rel_measurable s s0 R). destruct (armed s); cbn [negb]; [|exact R]. destruct primary; cbn [negb]; [|exact R].
    eapply rel_core; [apply core_drawRect|]. apply (rel_core s); [destruct s; reflexivity|exact R].
  - unfold pointermove. destruct (negb _ || negb _); [exact R|]. apply rel_apply, (rel_core s); [reflexivity|exact R].
  - unfold endDrag. destruct (negb _ || negb _); [exact R|]. apply rel_finishDrag, (rel_core s); [reflexivity|exact R].
  - unfold applyTypedSize. rewrite (rel_measurable s s0 R). cbv zeta. cbn [negb]. set (t := s <| widthPx := _ |> <| heightPx := _ |>).
    assert (J : rel t s0) by (apply (rel_core s); [destruct s; reflexivity|exact R]). clearbody t.
    destruct (boxPercentForPixels _ _ _ _) as [[x y]|]; [|exact (rel_core _ _ _ (core_warn _ _) J)].
    apply rel_finishDrag, (rel_core t); [reflexivity|exact J].
  - assert (J : rel (ratio_change cfg defaultValue key text s) s0).
    { pose proof (inv_ratio_change cfg defaultValue defaults key text s (r_inv s s0 R)) as I. unfold ratio_change in *.
      set (t := s <| ratio_values := _ |> <| cookies := _ |>) in *.
      assert (C : (form t, undoSnapshot t, lastBox t) = (form s, undoSnapshot s, lastBox s)) by (subst t; destruct s; reflexivity).
      assert (It : inv cfg t) by (apply (inv_ratio_state cfg defaultValue defaults key text s), R).
      clearbody t. injection C as E1 E2 E3.
      assert (J : rel t s0) by (destruct R; constructor; unfold saved in *; rewrite ?E1, ?E2; assumption).
      destruct (lastBox t) as [[a b']|]; [apply rel_apply|]; exact J. }
    apply rel_dirty_left, J.
Qed.

Lemma on_form_twice g h s : on_form g (on_form h s) = on_form (fun z => g (h z)) s. Proof. reflexivity. Qed.

Lemma not_type f : f ∈ number_fields -> f <> "Type" /\ f <> "CheckMethod" /\ f <> "Area".
Proof. intros H. repeat split; intros ->; revert H; in_list. Qed.

(** Typing into a field: the text assigned, then the page's handler. *)
Definition typed (f text : string) (z : page) : page := oninput cfg f (assign cfg f (VStr text) z).

Lemma value_typed f text h z : value h (typed f text z) = if String.eqb h f then limited cfg f (kept cfg f (VStr text)) else value h z.
Proof. unfold typed. rewrite value_oninput_limited, !value_assign, String.eqb_refl. destruct (String.eqb h f); reflexivity. Qed.

Lemma typed_frames f text s s0 : rel s s0 ->
  tidy cfg (vals (typed f text (form s))) /\ shape (typed f text (form s)) = shape (typed f text (form s0)) /\
  agree adjustable (off (typed f text (form s))) (off (typed f text (form s0))).
Proof.
  intros R. unfold typed. split; [apply tidy_oninput, tidy_assign, R|]. split; [rewrite !shape_oninput; apply R|].
  apply agree_oninput. apply R.
Qed.

Lemma value_ne h f (z z' : page) (a : string) : h <> f -> value h z = (if String.eqb h f then a else value h z') -> value h z = value h z'.
Proof. intros N ->. destruct (String.eqb_spec h f); [contradiction|reflexivity]. Qed.

Lemma rel_input_unmanaged f text s s0 : rel s s0 -> f ∈ number_fields -> f ∉ MANAGED_FIELDS ->
  rel (on_form (typed f text) s) (on_form (typed f text) s0).
Proof.
  intros R Hn Hm. destruct (typed_frames f text s s0 R) as (T & S & O). destruct (not_type f Hn) as (N1 & N2 & N3).
  apply rel_map; try assumption.
  - intros h Hh Ha. rewrite !value_typed. destruct (String.eqb h f); [reflexivity|]. apply R; assumption.
  - intros h Hh. split; apply (value_ne h f _ _ _) with (2 := value_typed _ _ _ _); intros ->;
      apply elem_of_cons in Hh as [?|?]; contradiction.
  - rewrite (not_measured_value _ (form s0)); [apply R|]. apply (value_ne _ f _ _ _) with (2 := value_typed _ _ _ _). congruence.
Qed.

Lemma rel_input_managed f g s s0 : rel s s0 -> f ∈ MANAGED_FIELDS -> f ∈ number_fields ->
  tidy cfg (vals (g (form s))) -> shape (g (form s)) = shape (g (form s0)) -> agree adjustable (off (g (form s))) (off (g (form s0))) ->
  (forall h z, h <> f -> value h (g z) = value h z) -> value f (g (form s)) = value f (g (form s0)) ->
  rel (releaseField f (on_form g s)) (releaseField f (on_form g s0)).
Proof.
  intros R Hm Hn T S O V E. apply rel_edit; try assumption; [right; exact Hm|]. intros h N. split; apply V, N.
Qed.

Lemma rel_input b f text s s0 : b = loaded \/ b = documented -> rel s s0 -> between b (Input f text) = true ->
  rel (step cfg defaultValue b s (Input f text)) (step cfg defaultValue b s0 (Input f text)).
Proof.
  intros Hb R B. cbn [step]. apply rel_dirty. unfold between in B. apply andb_true_iff in B as [Hn B]. apply bool_decide_eq_true in Hn.
  destruct (not_type f Hn) as (N1 & N2 & N3). unfold listeners_of. destruct (decide (f ∈ MANAGED_FIELDS)) as [Hm|Hm].
  2: { rewrite bool_decide_false by exact Hm. cbn [listen foldl]. rewrite !on_form_twice. apply rel_input_unmanaged; assumption. }
  rewrite bool_decide_true by exact Hm. destruct (typed_frames f text s s0 R) as (T & S & O).
  destruct Hb as [-> | ->]; cbn [loaded documented bind_init bind_initPage unbound field_listeners app listen foldl] in *.
  - cbn [orb] in B. apply String.eqb_eq in B.
    assert (K : kept cfg f (VStr text) = number_text (VStr text)) by (apply kept_number; assumption).
    assert (A : rel (releaseField f (on_form (assign cfg f (VStr text)) s)) (releaseField f (on_form (assign cfg f (VStr text)) s0))).
    { apply rel_input_managed; try assumption; [apply tidy_assign, R|apply R|apply R| |].
      - intros h z N. rewrite value_assign. destruct (String.eqb_spec h f); [contradiction|reflexivity].
      - rewrite !value_assign, String.eqb_refl. reflexivity. }
    assert (V : forall z, value f (oninput cfg f z) = limited cfg f (value f z)) by (intros; rewrite value_oninput_limited, String.eqb_refl; reflexivity).
    assert (W : forall u, value f (form (releaseField f (on_form (assign cfg f (VStr text)) u))) = number_text (VStr text)).
    { intros u. rewrite <- K. transitivity (value f (assign cfg f (VStr text) (form u))); [|rewrite value_assign, String.eqb_refl; reflexivity].
      unfold releaseField. destruct (undoSnapshot _); reflexivity. }
    set (u := releaseField f (on_form _ s)) in *. set (u0 := releaseField f (on_form _ s0)) in *.
    assert (W1 : value f (form u) = number_text (VStr text)) by apply W. assert (W0 : value f (form u0) = number_text (VStr text)) by apply W.
    clearbody u u0.
    assert (X : forall h z, value f z = number_text (VStr text) -> value h (oninput cfg f z) = value h z).
    { intros h z E. rewrite value_oninput_limited. destruct (String.eqb_spec h f) as [->|]; [|reflexivity]. rewrite E. exact B. }
    apply rel_map; [exact A|apply tidy_oninput, A|rewrite !shape_oninput; apply A| | |apply agree_oninput, A|].
    + intros h Hh Ha. rewrite !X by assumption. apply A; assumption.
    + intros h Hh. rewrite !X by assumption. auto.
    + rewrite (not_measured_value _ (form u0)); [apply A|apply X, W0].
  - rewrite !on_form_twice. apply rel_input_managed; try assumption.
    + intros h z N. exact (value_ne _ _ _ _ _ N (value_typed f text h z)).
    + change (value f (typed f text (form s)) = value f (typed f text (form s0))). rewrite !value_typed, String.eqb_refl. reflexivity.
Qed.

(** A twin in the order of the comments. *)
Lemma rel_twin f text s s0 : rel s s0 -> between documented (TwinInput f text) = true ->
  rel (step cfg defaultValue documented s (TwinInput f text)) (step cfg defaultValue documented s0 (TwinInput f text)).
Proof.
  intros R B. cbn [step]. apply rel_dirty. unfold between in B. apply andb_true_iff in B as [Hf _]. apply bool_decide_eq_true in Hf.
  assert (Hm : f ∈ MANAGED_FIELDS).
  { assert (D : forallb (fun f => bool_decide (f ∈ MANAGED_FIELDS)) thresholds = true) by (vm_compute; reflexivity).
    pose proof (forallb_elem _ _ _ D Hf) as X. apply bool_decide_eq_true in X. exact X. }
  assert (Hn : f ∈ number_fields) by (unfold number_fields; rewrite elem_of_app; left; exact Hf).
  unfold listeners_of. rewrite bool_decide_true by exact Hm.
  cbn [documented bind_init bind_initPage unbound field_listeners app listen foldl]. rewrite !on_form_twice.
  assert (V : forall h z z', Area z = Area z' -> value h (updatePercentFromPixel cfg f (set_twin f (VStr text) z))
    = if String.eqb h f then value f (updatePercentFromPixel cfg f (set_twin f (VStr text) z')) else value h z).
  { intros h z z' A.
    rewrite (value_updatePercentFromPixel cfg f h (set_twin f (VStr text) z) (set_twin f (VStr text) z') Hf A); [reflexivity|].
    unfold twin, set_twin. fields. rewrite !lookup_insert_eq. reflexivity. }
  apply rel_input_managed; try assumption.
  - apply tidy_updatePercentFromPixel. apply R.
  - rewrite !shape_updatePercentFromPixel. apply R.
  - rewrite !off_updatePercentFromPixel. apply R.
  - intros h z N. exact (value_ne h f _ _ _ N (V h z z eq_refl)).
  - rewrite (V f (form s) (form s0)), String.eqb_refl; [reflexivity|]. apply shape_points, R.
Qed.

Lemma rel_method b v s s0 : rel s s0 -> rel (step cfg defaultValue b s (ChangeMethod v)) (step cfg defaultValue b s0 (ChangeMethod v)).
Proof.
  intros R. cbn [step]. apply rel_dirty.
  assert (V : forall h z, value h (applyCheckMethod (assign cfg "CheckMethod" (VStr v) z))
    = if String.eqb h "CheckMethod" then kept cfg "CheckMethod" (VStr v) else value h z).
  { intros h z. rewrite (value_vals _ _ _ (vals_applyCheckMethod _)). apply value_assign. }
  apply rel_edit; [exact R|left| | | | |].
  - rewrite vals_applyCheckMethod. apply tidy_assign, R.
  - rewrite !shape_applyCheckMethod. apply R.
  - intros h N. split; apply (value_ne h "CheckMethod" _ _ _ N (V h _)).
  - rewrite !V. reflexivity.
  - eapply agree_trans; [apply agree_method_self|]. eapply agree_trans; [|apply agree_sym, agree_method_self]. apply R.
Qed.

Lemma rel_type b v s s0 : rel s s0 -> between b (ChangeType v) = true ->
  rel (step cfg defaultValue b s (ChangeType v)) (step cfg defaultValue b s0 (ChangeType v)).
Proof.
  intros R B. cbn [step]. apply rel_dirty. unfold between in B. apply andb_true_iff in B as [B1 B2].
  assert (V : forall h z, value h (applyZoneType (assign cfg "Type" (VStr v) z)) = if String.eqb h "Type" then kept cfg "Type" (VStr v) else value h z).
  { intros h z. rewrite (value_vals _ _ _ (vals_applyZoneType _)). apply value_assign. }
  assert (M : forall z, value "Type" z = kept cfg "Type" (VStr v) -> not_measured z = false).
  { intros z E. unfold not_measured. rewrite E. unfold kept. rewrite String.eqb_refl. cbn [js_to_string].
    destruct (bool_decide _); [|reflexivity]. apply negb_true_iff in B1, B2. rewrite B1, B2. reflexivity. }
  assert (A : forall z, not_measured (assign cfg "Type" (VStr v) z) = false) by (intros z; apply M; rewrite value_assign; reflexivity).
  assert (J : rel (on_form (fun z => applyZoneType (assign cfg "Type" (VStr v) z)) s) (on_form (fun z => applyZoneType (assign cfg "Type" (VStr v) z)) s0)).
  { apply rel_map; [exact R| | | | | |].
    - rewrite vals_applyZoneType. apply tidy_assign, R.
    - rewrite !shape_applyZoneType. apply R.
    - intros h Hh Ha. rewrite !V. destruct (String.eqb h "Type"); [reflexivity|]. apply R; assumption.
    - intros h Hh. assert (N : h <> "Type") by (intros ->; revert Hh; apply type_other). split; apply (value_ne h "Type" _ _ _ N (V h _)).
    - apply agree_zone_type; try apply A; [rewrite !value_assign; reflexivity|]. apply R.
    - apply M. rewrite V. reflexivity. }
  unfold type_change. set (t := on_form _ s) in *. set (t0 := on_form _ s0) in *. rewrite (rel_measurable t t0 J).
  assert (Z : zoneIsMeasurable t0 = true) by (unfold zoneIsMeasurable; rewrite (r_zone t t0 J); reflexivity).
  rewrite Z. exact J.
Qed.

Lemma rel_colour b v s s0 : rel s s0 -> rel (step cfg defaultValue b s (PickColour v)) (step cfg defaultValue b s0 (PickColour v)).
Proof.
  intros R. cbn [step]. set (g := fun z : page => _).
  assert (V : forall h z, value h (g z) = if bool_decide (h ∈ colour_fields) then value h (g (form s0)) else value h z).
  { intros h z. unfold g, alarmColourToInputs. cbv zeta. rewrite !(value_vals h _ _ (vals_checkDirty cfg _)), !value_assign.
    change (picker (?z <| picker := colour_text v |>)) with (colour_text v).
    destruct (decide (h ∈ colour_fields)) as [Hc|Hc]; [rewrite bool_decide_true by exact Hc|rewrite bool_decide_false by exact Hc].
    - unfold colour_fields in Hc. rewrite !elem_of_cons in Hc. destruct Hc as [-> |[-> |[-> |Hc]]]; try reflexivity. apply elem_of_nil in Hc. destruct Hc.
    - unfold colour_fields in Hc. rewrite !elem_of_cons in Hc.
      destruct (String.eqb_spec h "newAlarmRgbB"), (String.eqb_spec h "newAlarmRgbG"), (String.eqb_spec h "newAlarmRgbR"); tauto || reflexivity. }
  assert (O : forall z, off (g z) = off z) by (intros z; unfold g, alarmColourToInputs; rewrite off_checkDirty; reflexivity).
  apply rel_map; [exact R|apply tidy_alarmColourToInputs, R|unfold g; rewrite !shape_alarmColourToInputs; apply R| | |rewrite !O; apply R|].
  - intros h Hh Ha. rewrite V. destruct (bool_decide _) eqn:E; [reflexivity|]. rewrite (V h (form s0)), E. apply R; assumption.
  - intros h Hh. assert (E : bool_decide (h ∈ colour_fields) = false).
    { apply bool_decide_eq_false. intros Hc. assert (D : forallb (fun f => negb (bool_decide (f ∈ colour_fields))) restored = true) by (vm_compute; reflexivity).
      pose proof (forallb_elem _ _ _ D Hh) as X. cbv beta in X. rewrite bool_decide_true in X by exact Hc. discriminate X. }
    split; [rewrite (V h (form s)), E|rewrite (V h (form s0)), E]; reflexivity.
  - rewrite (not_measured_value _ (form s0)); [apply R|]. rewrite (V "Type" (form s0)). reflexivity.
Qed.

Lemma rel_user b e s s0 : b = loaded \/ b = documented -> rel s s0 -> is_edit e = true -> between b e = true ->
  rel (step cfg defaultValue b s e) (step cfg defaultValue b s0 e).
Proof.
  intros Hb R E B. destruct e; try discriminate E; try discriminate B.
  - apply rel_input; assumption.
  - destruct Hb as [-> | ->]; [|apply rel_twin; assumption]. cbn in B. rewrite andb_false_r in B. discriminate B.
  - apply rel_method, R.
  - apply rel_type; assumption.
  - apply rel_colour, R.
  - cbn [step]. destruct (shape_points _ _ (r_shape s s0 R)) as (_ & In & _). rewrite In. destruct (_ <? _)%nat; [|exact R].
    apply rel_updateArea, rel_polygon; [exact R|auto|]. apply shape_moves, R.
  - cbn [step]. apply rel_dirty, rel_updateArea, rel_polygon; [exact R|auto|]. apply shape_moves, R.
  - cbn [step]. apply rel_dirty, rel_updateArea, rel_polygon; [exact R|auto|]. apply shape_moves, R.
  - cbn [step]. apply rel_polygon; [exact R|intros z; split; [apply vals_addPoint|apply off_addPoint]|]. apply shape_addPoint, R.
  - cbn [step]. destruct (shape_points _ _ (r_shape s s0 R)) as (P & _ & _). rewrite P. destruct (_ <? _)%nat; [|exact R].
    apply rel_polygon; [exact R|intros z; split; [apply vals_delPoint|apply off_delPoint]|]. apply shape_delPoint, R.
  - cbn [step]. apply rel_polygon; [exact R|intros z; split; [apply vals_drawZonePoints|apply off_draw]|].
    destruct (shape_points _ _ (r_shape s s0 R)) as (P & _ & A). apply shape_draw; try assumption. apply shape_initial, R.
Qed.

Lemma rel_run b es : b = loaded \/ b = documented -> forall s s0, rel s s0 -> forallb (between b) es = true ->
  rel (run cfg defaultValue b s es) (run cfg defaultValue b s0 (List.filter is_edit es)).
Proof.
  intros Hb. induction es as [|e es IH]; intros s s0 R B; [exact R|]. cbn [forallb] in B. apply andb_true_iff in B as [B Bs].
  cbn [List.filter]. destruct (is_edit e) eqn:E; cbn [run foldl]; apply IH; try exact Bs.
  - apply rel_user; assumption.
  - apply rel_tool; assumption.
Qed.

Lemma rel_start s : inv cfg s -> undoSnapshot s = None -> not_measured (form s) = false -> rel s s.
Proof.
  intros I U Z. pose proof (inv_snap cfg s I) as Sn. rewrite U in Sn. constructor; try assumption.
  - split; [exact U|apply Sn].
  - reflexivity.
  - reflexivity.
  - intros f _. unfold saved. rewrite U. reflexivity.
  - apply agree_refl.
Qed.

(** What undo leaves in the form. *)
Lemma undo_form snap s : undoSnapshot s = Some snap -> form (undo cfg s) =
  updateAllPixelDisplays cfg (assign_all cfg (fun f => member f snap) MANAGED_FIELDS
    (applyCheckMethod (assign cfg "CheckMethod" (member "CheckMethod" snap) (form s)))).
Proof.
  intros U. unfold undo. rewrite U. cbv zeta. rewrite form_forget. reflexivity.
Qed.

Lemma rel_undo s s0 : rel s s0 -> inv cfg s0 -> undoSnapshot s <> None ->
  (forall f, f <> "Area" -> value f (form (undo cfg s)) = value f (form s0)) /\
  off (form (undo cfg s)) = off (applyCheckMethod (form s0)).
Proof.
  intros R I0 U. destruct (undoSnapshot s) as [snap|] eqn:E; [|congruence]. rewrite (undo_form snap s E).
  assert (M : forall f, f ∈ restored -> kept cfg f (member f snap) = value f (form s0)).
  { intros f Hf. pose proof (r_saved s s0 R f Hf) as V. unfold saved in V. rewrite E in V. unfold member. rewrite V.
    exact (tidy_value cfg (value f (form s0)) f (form s0) (inv_form cfg s0 I0) eq_refl). }
  split.
  - intros f Ha. rewrite value_updateAll by exact Ha. rewrite value_assign_all.
    destruct (decide (f ∈ MANAGED_FIELDS)) as [Hm|Hm]; [rewrite bool_decide_true by exact Hm; apply M; right; exact Hm|].
    rewrite bool_decide_false by exact Hm. rewrite (value_vals _ _ _ (vals_applyCheckMethod _)), value_assign.
    destruct (String.eqb_spec f "CheckMethod") as [->|N]; [apply M; left|].
    apply R; [|exact Ha]. unfold restored. rewrite elem_of_cons. tauto.
  - rewrite off_updateAll, off_assign_all. apply agree_method; [rewrite value_assign; apply M; left|]. apply R.
Qed.
End Undo.

(** ** The promises of the tool *)

Section Promises.
Context (cfg : zcfg) (defaultValue : string -> string).

(** The ratio inputs as zone.php renders them. *)
Definition ratios_ok (rv : gmap string string) : Prop :=
  (forall key, key ∈ keys -> whole_ratio (number_text (VStr (defaultValue key)))) /\
  (forall key, key ∈ keys -> whole_ratio (default "" (rv !! key))).

Lemma reachable_inv b z rv es : tidy cfg (vals z) -> ratios_ok rv -> inv cfg (run cfg defaultValue b (start cfg z rv) es).
Proof. intros T [D R]. apply tool_inv_run; [exact D|]. apply inv_start; assumption. Qed.

(** C26: Whatever happened on the page before, a box of at least one pixel leaves
    thresholds that validateForm accepts: the only errors left are those of the
    outline, of the colour and of a sensitivity the user had set to nothing. *)
Theorem measured_zone_saves b z rv es x y s' : tidy cfg (vals z) -> ratios_ok rv -> "Blobs" ∈ optCheckMethods cfg ->
  let s := run cfg defaultValue b (start cfg z rv) es in
  apply cfg defaultValue x y s = (true, s') -> nle (Fin 1) (box_width cfg x y * box_height cfg x y)%num ->
  isFinite (zone_pixels cfg s) = true ->
  let f := form s' in
  form_errors cfg f =
    ((if selfIntersecting cfg then [selfIntersectingString] else [])
     ++ (if not_measured f then []
         else (if empty "newAlarmRgbR" f || empty "newAlarmRgbG" f || empty "newAlarmRgbB" f then [alarmRGBUnsetString] else [])
              ++ (if empty "MinPixelThreshold" f || (parseInt (value "MinPixelThreshold" f) <=? Fin 0)%num
                  then [minPixelThresUnsetString] else [])))%list.
Proof.
  intros T R B s A L F f. pose proof (reachable_inv b z rv es T R) as I.
  pose proof (apply_measures cfg defaultValue B x y s s' I A L F) as M.
  unfold form_errors. subst f. rewrite (measured_errors (form s') M). reflexivity.
Qed.


(** What undo does to an edit made through a pixel twin, in either order. *)
Lemma twin_edit_undone b z rv es f text snap : tidy cfg (vals z) -> ratios_ok rv -> f ∈ thresholds ->
  let s := run cfg defaultValue b (start cfg z rv) es in
  undoSnapshot s = Some snap ->
  value f (form (undo cfg (step cfg defaultValue loaded s (TwinInput f text)))) = value f (form s) /\
  value f (form (undo cfg (step cfg defaultValue documented s (TwinInput f text))))
    = value f (updatePercentFromPixel cfg f (set_twin f (VStr text) (form s))).
Proof.
  intros T R Hf s U. pose proof (reachable_inv b z rv es T R) as I. fold s in I. clearbody s.
  assert (Hm : f ∈ MANAGED_FIELDS).
  { assert (D : forallb (fun f => bool_decide (f ∈ MANAGED_FIELDS)) thresholds = true) by (vm_compute; reflexivity).
    pose proof (forallb_elem _ _ _ D Hf) as X. apply bool_decide_eq_true in X. exact X. }
  assert (Ha : f <> "Area") by (intros ->; revert Hm; in_list).
  assert (G : forall t w, kept cfg f (VStr w) = w -> undoSnapshot t = Some (<[f := w]> snap) -> value f (form (undo cfg t)) = w).
  { intros t w K E. rewrite (undo_form cfg _ t E), value_updateAll by exact Ha. rewrite value_assign_all, bool_decide_true by exact Hm.
    unfold member. rewrite lookup_insert_eq. exact K. }
  pose proof (inv_form cfg s I) as Tf. cbn [step]. unfold listeners_of. rewrite bool_decide_true by exact Hm.
  cbn [loaded documented bind_init bind_initPage unbound field_listeners app listen foldl].
  set (u := on_form (set_twin f (VStr text)) s).
  assert (Hu : undoSnapshot u = Some snap /\ form u = set_twin f (VStr text) (form s)) by (split; [exact U|reflexivity]).
  clearbody u. destruct Hu as [Hu1 Hu2].
  assert (Rel : forall v, undoSnapshot v = Some snap -> undoSnapshot (releaseField f v) = Some (<[f := value f (form v)]> snap) /\ form (releaseField f v) = form v).
  { intros v E. unfold releaseField. change (undoSnapshot (markChanged f false v)) with (undoSnapshot v). rewrite E. split; reflexivity. }
  split; apply G.
  - exact (tidy_value cfg (value f (form s)) f (form s) Tf eq_refl).
  - destruct (Rel u Hu1) as [E _]. transitivity (undoSnapshot (releaseField f u)); [reflexivity|]. rewrite E, Hu2. reflexivity.
  - apply (tidy_value cfg _ f (updatePercentFromPixel cfg f (set_twin f (VStr text) (form s)))); [|reflexivity].
    apply tidy_updatePercentFromPixel, Tf.
  - destruct (Rel (on_form (updatePercentFromPixel cfg f) u) Hu1) as [E _].
    transitivity (undoSnapshot (releaseField f (on_form (updatePercentFromPixel cfg f) u))); [reflexivity|].
    rewrite E. change (form (on_form ?g ?v)) with (g (form v)). rewrite Hu2. reflexivity.
Qed.

(** The settings every measurement writes. *)
Definition blanks : list string := ["MaxPixelThreshold"; "MaxAlarmPixels"; "MaxFilterPixels"; "MaxBlobPixels"; "MaxBlobs"].

Definition shows_measurement (z : page) : Prop :=
  value "CheckMethod" z = kept cfg "CheckMethod" (VStr "Blobs") /\ value "MinBlobs" z = "1" /\
  forall g, g ∈ blanks -> value g z = "".

Lemma settings_constant bp zp snap r values : zoneSettingsForObject bp zp snap r = Some values ->
  setting "CheckMethod" values = VStr "Blobs" /\ setting "MinBlobs" values = VNum (Fin 1) /\
  forall g, g ∈ blanks -> setting g values = VStr "".
Proof.
  unfold zoneSettingsForObject. destruct (objectThresholdPixels bp r); [|discriminate]. destruct (negb _); [discriminate|].
  intros [= <-]. repeat split. intros g Hg. unfold blanks in Hg.
  repeat (apply elem_of_cons in Hg as [->|Hg]; [reflexivity|]). apply elem_of_nil in Hg. destruct Hg.
Qed.

Lemma apply_shows x y u : nlt (Fin 0) (box_width cfg x y * box_height cfg x y)%num -> nlt (Fin 0) (zone_pixels cfg u) ->
  shows_measurement (form (apply cfg defaultValue x y u).2).
Proof.
  intros B Z. destruct (apply_spec cfg defaultValue x y u) as [[_ E]|(values & t & -> & _ & _ & V & Ct)].
  { unfold nlt in B, Z. rewrite B, Z in E. discriminate E. }
  cbn [snd]. rewrite (core_form _ _ _ _ _ _ Ct). destruct (settings_constant _ _ _ _ _ V) as (V1 & V2 & V3).
  split; [|split].
  - rewrite value_written by left. rewrite V1. reflexivity.
  - rewrite value_written by in_list. rewrite V2. reflexivity.
  - intros g Hg. assert (Hm : g ∈ "CheckMethod" :: MANAGED_FIELDS /\ kept cfg g (VStr "") = "").
    { unfold blanks in Hg. repeat (apply elem_of_cons in Hg as [->|Hg]; [split; [in_list|reflexivity]|]). apply elem_of_nil in Hg. destruct Hg. }
    rewrite value_written by apply Hm. rewrite (V3 g Hg). apply Hm.
Qed.

Lemma shows_dirty z : shows_measurement z -> shows_measurement (checkDirty cfg z).
Proof.
  intros (A & B & C). assert (V : forall h, value h (checkDirty cfg z) = value h z) by (intros; apply value_vals, vals_checkDirty).
  unfold shows_measurement. rewrite !V. split; [exact A|]. split; [exact B|]. intros g Hg. rewrite V. apply C, Hg.
Qed.

(** updateArea with a box measures again, and without one is zone.js's own. *)
Lemma form_on_form g s : form (on_form g s) = g (form s). Proof. reflexivity. Qed.
Lemma lastBox_on_form g s : lastBox (on_form g s) = lastBox s. Proof. reflexivity. Qed.

Lemma updateArea_box s x y : lastBox s = Some (x, y) -> Polygon_calcArea (points (form s)) <> None ->
  updateArea cfg defaultValue s = (apply cfg defaultValue x y (on_form (Zone.updateArea cfg) s)).2.
Proof.
  intros L P. unfold updateArea. cbv zeta. destruct (Polygon_calcArea (points (form s))); [|congruence].
  rewrite lastBox_on_form, L. reflexivity.
Qed.

Lemma updateArea_no_box s : lastBox s = None -> form (updateArea cfg defaultValue s) = Zone.updateArea cfg (form s).
Proof.
  intros L. unfold updateArea. cbv zeta. destruct (Polygon_calcArea (points (form s))) eqn:E.
  - rewrite lastBox_on_form, L. reflexivity.
  - unfold Zone.updateArea. rewrite E. reflexivity.
Qed.

(** The wrapped handler: the measurement is forgotten first. *)
Lemma core_wrapped s : core (showBoxSize (Fin 0) (Fin 0) (forgetMeasurement (if armed s then setArmed false s else s)))
  = (form s, None, false, None, ratio_values s).
Proof.
  rewrite core_showBoxSize, core_forget. assert (E : core (if armed s then setArmed false s else s) = core s) by (destruct (armed s); reflexivity).
  set (t := if armed s then _ else _) in *. clearbody t. unfold core in E. injection E as -> _ _ _ ->. reflexivity.
Qed.

Lemma reset_after u s : core u = (form s, None, false, None, ratio_values s) ->
  form (on_form (checkDirty cfg) (updateArea cfg defaultValue (on_form (restore cfg) u))) = resetChanges cfg (form s).
Proof.
  intros U. unfold core in U. injection U as U1 _ _ U4 _.
  rewrite form_on_form, updateArea_no_box by (rewrite lastBox_on_form; exact U4).
  rewrite form_on_form, U1. unfold resetChanges. reflexivity.
Qed.

Lemma reset_documented s : form (step cfg defaultValue documented s Reset) = resetChanges cfg (form s).
Proof. exact (reset_after _ s (core_wrapped s)). Qed.

(** Reset does not take a measurement back.  init wraps the handler of the
    button before initPage replaces it, so resetChanges runs with the box still
    there, and its updateArea measures it again; in the order of the comments,
    Reset is resetChanges on the form. *)
Theorem reset_keeps_measurement s x y : lastBox s = Some (x, y) ->
  Polygon_calcArea (points (restore cfg (form s))) <> None ->
  nlt (Fin 0) (box_width cfg x y * box_height cfg x y)%num ->
  nlt (Fin 0) (Area (Zone.updateArea cfg (restore cfg (form s))) / monitorArea * monitorPixelArea cfg)%num ->
  shows_measurement (form (step cfg defaultValue loaded s Reset)) /\
  form (step cfg defaultValue documented s Reset) = resetChanges cfg (form s).
Proof.
  intros L P B Z. split; [|apply reset_documented].
  change (shows_measurement (form (on_form (checkDirty cfg) (updateArea cfg defaultValue (on_form (restore cfg) s))))).
  rewrite form_on_form. apply shows_dirty.
  rewrite (updateArea_box _ x y); [|rewrite lastBox_on_form; exact L|rewrite form_on_form; exact P].
  apply apply_shows; [exact B|]. unfold zone_pixels. rewrite !form_on_form. exact Z.
Qed.
End Promises.

(** ** The outline under any sequence of events *)

Section Outline.
Context (cfg : zcfg) (defaultValue : string -> string).

(** The outline of the page, and the one Reset goes back to, are polygons in the
    picture. *)
Definition outlined (z : page) : Prop := polygon (points z) /\ exists ps, initialPoints z = Some ps /\ polygon ps.

Lemma outlined_shape z z' : shape z = shape z' -> outlined z' -> outlined z.
Proof. intros E [P I]. unfold outlined. rewrite (shape_initial _ _ E). destruct (shape_points _ _ E) as (-> & _). split; assumption. Qed.

Lemma outlined_points z z' : initialPoints z = initialPoints z' -> polygon (points z) -> outlined z' -> outlined z.
Proof. intros E P [_ I]. split; [exact P|rewrite E; exact I]. Qed.

(** The pointer's place is a number, the picture has a size, and a coordinate is
    not emptied. *)
Definition legible (e : event) : Prop :=
  match e with
  | DragPoint _ x y w h => wf x /\ wf y /\ exists w' h', w = Fin w' /\ h = Fin h' /\ (0 < w')%Q /\ (0 < h')%Q
  | InputX _ text | InputY _ text => parseFloat (number_text (VStr text)) <> NaN
  | _ => True
  end.

Lemma shape_core s t : core t = core s -> shape (form t) = shape (form s).
Proof. unfold core. congruence. Qed.

Lemma shape_apply a b s : shape (form (apply cfg defaultValue a b s).2) = shape (form s).
Proof.
  destruct (apply_spec cfg defaultValue a b s) as [[-> _]|(values & t & -> & _ & _ & _ & C)]; [reflexivity|]. cbn [snd].
  rewrite (core_form _ _ _ _ _ _ C). unfold written. rewrite shape_updateAll. unfold assign_all. rewrite shape_foldl by reflexivity.
  rewrite shape_applyCheckMethod. reflexivity.
Qed.

Lemma shape_dirty s : shape (form (on_form (checkDirty cfg) s)) = shape (form s).
Proof. rewrite form_on_form. apply shape_checkDirty. Qed.

Lemma shape_finishDrag a b s : shape (form (finishDrag cfg defaultValue a b s)) = shape (form s).
Proof.
  rewrite <- (shape_apply a b s). unfold finishDrag. destruct (apply _ _ a b s) as [[] t]; [|reflexivity]. cbn [negb snd].
  destruct (objectTooNarrowToFilter _ _ _ _); reflexivity.
Qed.

Lemma shape_release f s : shape (form (releaseField f s)) = shape (form s).
Proof. unfold releaseField. destruct (undoSnapshot _); reflexivity. Qed.

Lemma shape_listen f g l : (forall z, shape (g z) = shape z) -> forall s, shape (form (listen f (on_form g) l s)) = shape (form s).
Proof.
  intros G. induction l as [|[] l IH]; intros s; cbn [listen foldl]; [reflexivity| |].
  - change (shape (form (listen f (on_form g) l (releaseField f s))) = shape (form s)). rewrite IH. apply shape_release.
  - change (shape (form (listen f (on_form g) l (on_form g s))) = shape (form s)). rewrite IH, form_on_form. apply G.
Qed.

Lemma shape_forget s : shape (form (forgetMeasurement s)) = shape (form s). Proof. rewrite form_forget. reflexivity. Qed.

Lemma shape_armed on s : shape (form (setArmed on s)) = shape (form s). Proof. reflexivity. Qed.

Lemma shape_undo s : shape (form (undo cfg s)) = shape (form s).
Proof.
  destruct (undoSnapshot s) as [snap|] eqn:E; [|unfold undo; rewrite E; reflexivity]. rewrite (undo_form cfg snap s E).
  rewrite shape_updateAll. unfold assign_all. rewrite shape_foldl by reflexivity. rewrite shape_applyCheckMethod. reflexivity.
Qed.

(** The polygon's events. *)
Definition on_outline (e : event) : bool :=
  match e with DragPoint _ _ _ _ _ | InputX _ _ | InputY _ _ | Add _ | Delete _ | Redraw | Reset => true | _ => false end.

Lemma shape_pointer primary evt s : shape (form (pointerdown primary evt s)) = shape (form s)
  /\ shape (form (pointermove cfg defaultValue evt s)) = shape (form s) /\ shape (form (endDrag cfg defaultValue evt s)) = shape (form s).
Proof.
  unfold pointerdown, pointermove, endDrag. split; [|split].
  - destruct (negb (armed s)); [reflexivity|]. destruct (negb primary); [reflexivity|].
    destruct (negb _); [rewrite shape_forget|]; reflexivity.
  - destruct (_ || _); [reflexivity|]. rewrite shape_apply. reflexivity.
  - destruct (_ || _); [reflexivity|]. rewrite shape_finishDrag. reflexivity.
Qed.

Lemma shape_step b e s : on_outline e = false -> shape (form (step cfg defaultValue b s e)) = shape (form s).
Proof.
  destruct e; try discriminate; intros _; cbn [step].
  - rewrite shape_dirty, shape_listen by (intros; apply shape_oninput). reflexivity.
  - rewrite shape_dirty, shape_listen by (intros; apply shape_updatePercentFromPixel). reflexivity.
  - rewrite shape_dirty, shape_release, form_on_form, shape_applyCheckMethod. reflexivity.
  - rewrite shape_dirty. unfold type_change. set (t := on_form _ s).
    assert (E : shape (form t) = shape (form s)) by (subst t; rewrite form_on_form, shape_applyZoneType; reflexivity). clearbody t.
    destruct (zoneIsMeasurable t); [exact E|]. rewrite shape_forget. destruct (armed t); exact E.
  - rewrite shape_dirty, shape_forget, form_on_form. apply shape_applyPreset.
  - rewrite form_on_form, shape_alarmColourToInputs. reflexivity.
  - unfold objectSizeBtn_click. destruct (negb (armed s) && _); [reflexivity|]. rewrite shape_armed. destruct (armed s); [reflexivity|apply shape_forget].
  - apply shape_pointer.
  - apply (shape_pointer true).
  - apply (shape_pointer true).
  - unfold applyTypedSize. destruct (negb _); [reflexivity|]. cbv zeta. destruct (boxPercentForPixels _ _ _ _) as [[x y]|]; [|reflexivity].
    rewrite shape_finishDrag. reflexivity.
  - rewrite shape_dirty. unfold ratio_change. destruct (lastBox _) as [[x y]|]; [rewrite shape_apply|]; reflexivity.
  - apply shape_undo.
  - rewrite form_on_form. apply shape_saveChanges.
Qed.

Lemma outlined_updateArea s : outlined (form s) -> outlined (form (updateArea cfg defaultValue s)).
Proof.
  intros O. unfold updateArea. cbv zeta. destruct (Polygon_calcArea _); [|exact O].
  assert (Oz : outlined (form (on_form (Zone.updateArea cfg) s))).
  { rewrite form_on_form. destruct (points_updateArea cfg (form s)) as [P I]. destruct O as [Op Oi]. split; rewrite ?P, ?I; assumption. }
  destruct (lastBox _) as [[x y]|]; [|exact Oz]. eapply outlined_shape; [apply shape_apply|exact Oz].
Qed.

Lemma outlined_reset h : forall s, outlined (form s) -> outlined (form (run_reset cfg defaultValue h s)).
Proof.
  revert h. fix IH 1. intros [|inner] s O; cbn [run_reset].
  - eapply outlined_shape; [apply shape_dirty|]. apply outlined_updateArea. rewrite form_on_form.
    destruct (points_restore cfg (form s)) as [P I]. destruct O as [_ (ps & E & Op)].
    split; [rewrite P, E; apply polygon_json, Op|exists ps; rewrite I; auto].
  - set (t := showBoxSize _ _ _).
    assert (Ot : outlined (form t)) by (subst t; rewrite (core_form _ _ _ _ _ _ (core_wrapped s)); exact O).
    clearbody t. destruct inner as [h|]; [apply IH|]; exact Ot.
Qed.

Lemma outlined_step b e s : legible e -> outlined (form s) -> outlined (form (step cfg defaultValue b s e)).
Proof.
  intros Le O. destruct (on_outline e) eqn:E; [|eapply outlined_shape; [apply shape_step, E|exact O]].
  pose proof O as [P _]. destruct e; try discriminate E; cbn [step] in *.
  - destruct (_ <? _)%nat; [|exact O]. apply outlined_updateArea. rewrite form_on_form.
    destruct Le as (Wx & Wy & w' & h' & -> & -> & Hw & Hh). apply (outlined_points _ (form s)); [reflexivity|apply polygon_move; assumption|exact O].
  - eapply outlined_shape; [apply shape_dirty|]. apply outlined_updateArea. rewrite form_on_form.
    apply (outlined_points _ (form s)); [reflexivity|apply polygon_moveX; assumption|exact O].
  - eapply outlined_shape; [apply shape_dirty|]. apply outlined_updateArea. rewrite form_on_form.
    apply (outlined_points _ (form s)); [reflexivity|apply polygon_moveY; assumption|exact O].
  - rewrite form_on_form. apply (outlined_points _ (form s)); [|apply polygon_add, P|exact O].
    unfold addPoint. destruct (points (form s) !! i); [|reflexivity]. destruct (points (form s) !! _); [|reflexivity].
    rewrite (proj2 (points_draw cfg _)). destruct (_ =? 0)%nat; reflexivity.
  - destruct (3 <? length (points (form s)))%nat eqn:G; [|exact O]. apply Nat.ltb_lt in G. rewrite form_on_form.
    apply (outlined_points _ (form s)); [|apply polygon_delete; assumption|exact O].
    unfold delPoint. rewrite (proj2 (points_draw cfg _)). reflexivity.
  - rewrite form_on_form. destruct (points_draw cfg (form s)) as [Q I]. apply (outlined_points _ (form s)); [exact I|rewrite Q; exact P|exact O].
  - destruct (reset_onclick b); [apply outlined_reset|]; exact O.
Qed.

Lemma outlined_start z rv : polygon (points z) -> outlined (form (start cfg z rv)).
Proof.
  intros P. change (form (start cfg z rv)) with (initPage cfg z). unfold initPage. set (t := drawZonePoints cfg _).
  assert (T : points t = points z).
  { subst t. rewrite (proj1 (points_draw cfg _)). set (u := disable initially_off z).
    assert (E : shape (alarmColourFromInputs (updateAllPixelDisplays cfg (applyCheckMethod (applyZoneType u)))) = shape u)
      by (rewrite shape_alarmColourFromInputs, shape_updateAll, shape_applyCheckMethod, shape_applyZoneType; reflexivity).
    destruct (shape_points _ _ E) as (-> & _). reflexivity. }
  clearbody t. eapply outlined_shape; [apply shape_checkDirty|].
  assert (U : points (takeInitial cfg t) = points t /\ initialPoints (takeInitial cfg t) = Some (json_points (points t))) by (destruct t; split; reflexivity).
  destruct U as [U1 U2]. split; [rewrite U1, T; exact P|]. exists (json_points (points t)). rewrite U2, T. split; [reflexivity|apply polygon_json, P].
Qed.

(** Whatever the order of drags, typed coordinates, added and removed vertices,
    measurements, undos and resets, the zone has at least three vertices and every
    coordinate is a number between 0 and 100, in binary64 arithmetic. *)
Theorem zone_stays_in_picture b z rv es : polygon (points z) -> Forall legible es ->
  polygon (points (form (run cfg defaultValue b (start cfg z rv) es))).
Proof.
  intros P L. enough (O : outlined (form (run cfg defaultValue b (start cfg z rv) es))) by apply O.
  pose proof (outlined_start z rv P) as O. revert O. generalize (start cfg z rv). induction L as [|e es Le _ IH]; intros s O; [exact O|].
  apply IH, outlined_step; assumption.
Qed.
End Outline.

(** ** Witnesses *)

Definition demo_default (key : string) : string := "50".
Definition demo_ratios : gmap string string := list_to_map [("fraction", "50"); ("filter", "80"); ("blob", "90")].
Definition demo_pointer (x y : Z) : pointer := Pointer (num_of_Z x) (num_of_Z y) (Fin 0) (Fin 0) (num_of_Z 640) (num_of_Z 480).

Lemma whole_ratio_by v : ((Fin 1 <=? parseFloat v)%num && (parseFloat v <=? Fin 100)%num) = true -> whole_ratio v.
Proof. intros H. apply andb_true_iff in H. exact H. Qed.

Lemma demo_tidy : tidy demo_cfg (vals demo_page).
Proof. apply (tidy_list demo_cfg demo_vals). vm_compute. reflexivity. Qed.

Lemma demo_ratios_ok : ratios_ok demo_default demo_ratios.
Proof.
  assert (F : forall g : string -> string, forallb (fun k => (Fin 1 <=? parseFloat (g k))%num && (parseFloat (g k) <=? Fin 100)%num) keys = true ->
    forall k, k ∈ keys -> whole_ratio (g k)) by (intros g H k Hk; apply whole_ratio_by, (forallb_elem _ _ _ H Hk)).
  split; [apply (F (fun k => number_text (VStr (demo_default k))))|apply (F (fun k => default "" (demo_ratios !! k)))]; vm_compute; reflexivity.
Qed.

Lemma pair_true {A} (p : bool * A) : p.1 = true -> p = (true, p.2).
Proof. destruct p. cbn. intros ->. reflexivity. Qed.

(** A box drawn by hand, then another measured at its corner points. *)
Definition demo_drag : list event := [ToolClick; Down true (demo_pointer 64 48); Move (demo_pointer 320 240)].
Definition corner1 : pt := (Fin 10, Fin 10).
Definition corner2 : pt := (Fin 40, Fin 60).

Lemma measured_zone_saves_witness :
  let s := run demo_cfg demo_default loaded (start demo_cfg demo_page demo_ratios) demo_drag in
  form_errors demo_cfg (form (apply demo_cfg demo_default corner1 corner2 s).2) = [].
Proof.
  intros s.
  pose proof (measured_zone_saves demo_cfg demo_default loaded demo_page demo_ratios demo_drag corner1 corner2
    (apply demo_cfg demo_default corner1 corner2 s).2 demo_tidy demo_ratios_ok
    ltac:(apply (bool_decide_unpack _); vm_compute; exact I)
    (pair_true (apply demo_cfg demo_default corner1 corner2 s) ltac:(vm_compute; reflexivity))
    ltac:(vm_compute; reflexivity) ltac:(vm_compute; reflexivity)) as H.
  cbv zeta in H. rewrite H. vm_compute. reflexivity.
Defined.

Definition demo_edits : list event :=
  [Down true (demo_pointer 64 48); Input "MinPixelThreshold" "30"; Move (demo_pointer 320 240); InputX 2 "90";
   ChangeMethod "FilteredPixels"; RatioChange "blob" "70.4"; Input "MinBlobs" "2"; Up (demo_pointer 300 200)].


(** The same page in numbers: the measurement, what undo leaves, and the edits a
    pixel twin loses. *)
Example demo_undo :
  let s := run demo_cfg demo_default loaded (start demo_cfg demo_page demo_ratios) [ToolClick] in
  let t := run demo_cfg demo_default loaded s demo_edits in
  let u := step demo_cfg demo_default loaded t (TwinInput "MinAlarmPixels" "3072") in
  map (fun f => value f (form t)) ["CheckMethod"; "MinPixelThreshold"; "MinAlarmPixels"; "MinBlobPixels"; "MinBlobs"]
    = ["Blobs"; "30"; "6.15"; "3.44"; "1"] /\
  map (fun f => value f (form (undo demo_cfg t))) ["CheckMethod"; "MinPixelThreshold"; "MinAlarmPixels"; "MinBlobPixels"; "MinBlobs"]
    = ["FilteredPixels"; "30"; "3"; ""; "2"] /\
  map (fun z => value "MinAlarmPixels" (form z)) [u; undo demo_cfg u] = ["1.05"; "6.15"].
Proof. vm_compute. repeat split. Qed.

Definition demo_outline : list event :=
  [DragPoint 0 (num_of_Z 700) (num_of_Z (-5)) (num_of_Z 640) (num_of_Z 480); InputY 1 "250"; Add 4; Delete 2; Reset; Delete 0].

Lemma coord_Z z : 0 <= z <= 100 -> coord (Fin (inject_Z z)).
Proof.
  intros H. exists (inject_Z z). split; [reflexivity|]. split; [apply wf_Z; lia|]. change 0%Q with (inject_Z 0). change 100%Q with (inject_Z 100).
  rewrite <- !Zle_Qle. lia.
Qed.

Lemma demo_polygon : polygon (points demo_page).
Proof.
  split; [|cbn; lia]. repeat constructor; cbn [fst snd];
    first [apply (coord_Z 0)|apply (coord_Z 50)|apply (coord_Z 100)]; lia.
Qed.

Lemma zone_stays_in_picture_witness :
  polygon (points (form (run demo_cfg demo_default loaded (start demo_cfg demo_page demo_ratios) demo_outline))).
Proof.
  apply (zone_stays_in_picture demo_cfg demo_default loaded demo_page demo_ratios demo_outline demo_polygon).
  repeat constructor; try exact (num_of_Z_wf _); try (vm_compute; discriminate).
  exists 640%Q, 480%Q. repeat split; reflexivity.
Defined.

(** Measured and then reset, with the listeners as they are and as the comments
    have them. *)
Lemma reset_keeps_measurement_witness :
  let s := run demo_cfg demo_default loaded (start demo_cfg demo_page demo_ratios) demo_drag in
  shows_measurement demo_cfg (form (step demo_cfg demo_default loaded s Reset)) /\
  form (step demo_cfg demo_default documented s Reset) = resetChanges demo_cfg (form s).
Proof.
  cbv zeta.
  apply (reset_keeps_measurement demo_cfg demo_default _ (Fin 10, Fin 10) (Fin 50, Fin 50)).
  - vm_compute. reflexivity.
  - intros H. apply (f_equal (fun x => match x with None => true | Some _ => false end)) in H. vm_compute in H. discriminate H.
  - vm_compute. reflexivity.
  - vm_compute. reflexivity.
Defined.

Example demo_reset :
  let s := run demo_cfg demo_default loaded (start demo_cfg demo_page demo_ratios) demo_drag in
  map (fun b => map (fun f => value f (form (step demo_cfg demo_default b s Reset))) ["CheckMethod"; "MinAlarmPixels"; "FilterX"])
    [loaded; documented] = [["Blobs"; "8"; "3"]; ["AlarmedPixels"; "3"; ""]].
Proof. vm_compute. reflexivity. Qed.

End ObjectSize.
