(* ===== verification/MonitorFit.v ===== *)
(** web/skins/classic/js/montage_common.js: maxfit2, which packs the monitors of
    the review into the page, and the scaling of the review around it
    (views/js/montagereview.js: redrawScreen, setFit, setScale, zoom, clickMonitor).

    [maxfit2] looks for the largest common scale by bisection; at each scale it
    places the monitors one by one, to the right of or below an earlier one.  The
    four arrays thisX, thisY, thisX2, thisY2 are one list of [block]s, and the
    widths of the borders, read from the style of the first monitor that has any,
    outlive the rounds.  The canvases it resizes are those the streams of
    [MontageReview] take their scale from: [page] is the review with the fit mode
    around it.  The heights of the container and of the window are arguments. *)
From S2P Require Import JsString EventStream MontageSearch MontageReview ZoneForm.

Module Fit.
Open Scope num_scope.

Inductive side := Left | Right | Top | Bottom.

(** What PHP prints about the monitors, and the computed style of their elements. *)
Record geometry := Geometry {
  monitorPtr : list Z;
  monitorWidth : Z -> num;
  monitorHeight : Z -> num;
  monitorNormalizeScale : Z -> num;
  border : Z -> side -> string;        (* css('border-left-width') and so on *)
}.
#[export] Instance eta_geometry : Eta geometry := fun g =>
  Geometry (monitorPtr g) (monitorWidth g) (monitorHeight g) (monitorNormalizeScale g) (border g).

Record block := Block { X : num; Y : num; X2 : num; Y2 : num }.

Section Packing.
Variable g : geometry.
Variable monitorZoomScale : Z -> num.
Variables divW divH : num.

(** Whether a block of [w] by [h] at ([x], [y]) stays inside the container and
    clear of the blocks already placed. *)
Definition clear_of (x y w h : num) (b : block) : bool :=
  (X b >? x + w - Fin 1) || (X2 b <? x) || (Y b >? y + h - Fin 1) || (Y2 b <? y).
Definition doesItFit (placed : list block) (x y w h : num) : bool :=
  if (x + w >=? divW) || (y + h >=? divH) then false
  else forallb (clear_of x y w h) placed.

Definition nowhere : num := num_of_Z 999999999.

(** One candidate: taken when it fits and lies higher, or as high and further left. *)
Definition consider (placed : list block) (w h x y : num) (fit : num * num) : num * num :=
  let '(fitX, fitY) := fit in
  if doesItFit placed x y w h && ((y <? fitY) || ((y =? fitY) && (x <? fitX))) then (x, y) else fit.

Definition beside (placed : list block) (w h : num) (fit : num * num) (b : block) : num * num :=
  consider placed w h (X b) (Y2 b + Fin 1) (consider placed w h (X2 b + Fin 1) (Y b) fit).

Definition find_place (placed : list block) (w h : num) : num * num :=
  let fit := fold_left (beside placed w h) placed (nowhere, nowhere) in
  match placed with
  | [] => if doesItFit [] (Fin 0) (Fin 0) w h then (Fin 0, Fin 0) else fit
  | _ => fit
  end.

(** The size of a monitor at a scale, without its borders. *)
Definition scaled_width (s : num) (m : Z) : num := monitorWidth g m * s * monitorNormalizeScale g m * monitorZoomScale m.
Definition scaled_height (s : num) (m : Z) : num := monitorHeight g m * s * monitorNormalizeScale g m * monitorZoomScale m.

(** borders_width and borders_height: read from this monitor unless an earlier
    one had some. *)
Definition borders (m : Z) (b : num * num) : num * num :=
  let '(bw, bh) := b in
  (if bw <=? Fin 0 then parseInt (border g m Left) + parseInt (border g m Right) else bw,
   if bh <=? Fin 0 then parseInt (border g m Top) + parseInt (border g m Bottom) else bh).

Definition block_at (s : num) (b : num * num) (m : Z) (fit : num * num) : block :=
  Block fit.1 fit.2 (fit.1 + scaled_width s m + b.1) (fit.2 + scaled_height s m + b.2).
Definition area (b : block) : num := (X2 b - X b) * (Y2 b - Y b).

(** The monitors at one scale: the blocks and their area, [None] when one of them
    has no place; the borders are kept either way. *)
Fixpoint place (s : num) (ms : list Z) (b : num * num) (placed : list block) (total : num)
  : option (list block * num) * (num * num) :=
  match ms with
  | [] => (Some (placed, total), b)
  | m :: ms =>
      let b := borders m b in
      let fit := find_place placed (scaled_width s m + b.1) (scaled_height s m + b.2) in
      if fit.1 =? nowhere then (None, b)
      else let t := block_at s b m fit in place s ms b (placed ++ [t])%list (total + area t)
  end.

Record search := Search {
  minScale : num; maxScale : num;
  bestFitArea : num; best : list block;       (* bestFitX, bestFitY, bestFitX2, bestFitY2 *)
  bordersWH : num * num;
}.
#[export] Instance eta_search : Eta search := fun st =>
  Search (minScale st) (maxScale st) (bestFitArea st) (best st) (bordersWH st).

Definition search_start : search := Search (rnd (5 # 100)) (Fin 5) (Fin 0) [] (Fin (-1), Fin (-1)).
Definition search_over (st : search) : bool := maxScale st - minScale st <? rnd (1 # 100).

(** One round of the loop. *)
Definition bisect (st : search) : search :=
  let thisScale := (maxScale st + minScale st) / Fin 2 in
  let '(r, b) := place thisScale (monitorPtr g) (bordersWH st) [] (Fin 0) in
  let st := st <| bordersWH := b |> in
  match r with
  | Some (placed, thisArea) =>
      let st := st <| minScale := thisScale |> in
      if bestFitArea st <? thisArea then st <| bestFitArea := thisArea |> <| best := placed |> else st
  | None => st <| maxScale := thisScale |>
  end.

Fixpoint find_scale (fuel : nat) (st : search) : option search :=
  if search_over st then Some st
  else match fuel with O => None | S fuel => find_scale fuel (bisect st) end.

(** What is written on a canvas: its position and its drawing size. *)
Record canvas_style := Canvas { left_ : num; top : num; width : num; height : num }.

Definition maxRight (bs : list block) : num :=
  fold_left (fun r b => if X2 b >? r then X2 b else r) bs (Fin 0).
Definition offsetX (bs : list block) : num := nmax (Fin 0) (nfloor ((divW - maxRight bs) / Fin 2)).

Definition canvas_of (offset : num) (b : num * num) (t : block) : canvas_style :=
  Canvas (X t + offset) (Y t) (X2 t - X t + Fin 1 - b.1) (Y2 t - Y t + Fin 1 - b.2).

(** The canvases, in the order of [monitorPtr], or [None] where maxfit2 returns 0
    and leaves them alone. *)
Definition arrangement (st : search) : option (list canvas_style) :=
  if bestFitArea st >? Fin 0 then Some (map (canvas_of (offsetX (best st)) (bordersWH st)) (best st)) else None.

(** Nine rounds always do. *)
Definition rounds : nat := 9.
Definition maxfit2 : option (option (list canvas_style)) :=
  match find_scale rounds search_start with Some st => Some (arrangement st) | None => None end.
End Packing.

(** ** The page around it *)

(** The review with its sizes: the drawing width of a canvas is the [canvasWidth]
    of the review, its height and the position of its element are here. *)
Record page := Page {
  review : Review.state;
  fitMode : bool;
  currentScale : jsval;
  monitorZoomScale : gmap Z num;
  canvasHeight : gmap Z num;
  absolute : gmap Z (string * string);        (* style.left and style.top of an element out of the flow *)
  scaleslideroutput : string;
  alerts : list string;
  opened : list (bool * string);              (* in a new tab, the address *)
}.
#[export] Instance eta_page : Eta page := fun p =>
  Page (review p) (fitMode p) (currentScale p) (monitorZoomScale p) (canvasHeight p) (absolute p)
    (scaleslideroutput p) (alerts p) (opened p).

(** The width and height of a canvas are unsigned; what does not fit 31 bits
    leaves the default of the attribute. *)
Definition canvas_size (dflt : Z) (v : num) : num :=
  let z := match v with Fin q => Z.quot (Qnum q) (Zpos (Qden q)) mod 2 ^ 32 | _ => 0%Z end in
  Fin (inject_Z (if (z <? 2 ^ 31)%Z then z else dflt)).

#[local] Existing Instance Review.eta_state.

Section Page.
Variable cfg : Review.config.
Variable g : geometry.

Definition zoom_of (p : page) (m : Z) : num := default NaN (monitorZoomScale p !! m).

(** A canvas gets a new drawing size. *)
Definition resize (m : Z) (w h : num) (p : page) : page :=
  p <| review := review p <| Review.canvasWidth := <[m := canvas_size 300 w]> (Review.canvasWidth (review p)) |> |>
    <| canvasHeight := <[m := canvas_size 150 h]> (canvasHeight p) |>.

Definition showScale (newscale : jsval) (p : page) : page :=
  p <| scaleslideroutput := (ZoneForm.toFixed2 (js_parseFloat newscale) ++ " x")%string |>.

Definition scale_canvas (newscale : num) (p : page) (m : Z) : page :=
  resize m (monitorWidth g m * monitorNormalizeScale g m * zoom_of p m * newscale)
           (monitorHeight g m * monitorNormalizeScale g m * zoom_of p m * newscale) p.

Definition updateStreamScales (p : page) : page := p <| review := Review.updateStreamScales cfg (review p) |>.

Definition setScale (newscale : jsval) (p : page) : page :=
  let p := fold_left (scale_canvas (js_Number newscale)) (monitorPtr g) (showScale newscale p) in
  updateStreamScales (p <| currentScale := newscale |>).

(** The canvases of an arrangement, one after the other. *)
Definition fit_canvas (p : page) (c : Z * canvas_style) : page :=
  let '(m, c) := c in
  resize m (width c) (height c)
    (p <| absolute := <[m := (num_to_string (left_ c) ++ "px", num_to_string (top c) ++ "px")%string]> (absolute p) |>).

(** The outer size of the element around the monitors. *)
Record container := Container { outerWidth : num; outerHeight : num }.

(** The part of redrawScreen that sizes the canvases. *)
Definition fit_screen (box : container) (p : page) : page :=
  if fitMode p then
    match maxfit2 g (zoom_of p) (outerWidth box) (outerHeight box) with
    | Some (Some cs) => fold_left fit_canvas (combine (monitorPtr g) cs) p
    | _ => p <| fitMode := negb (fitMode p) |>
    end
  else setScale (currentScale p) (p <| absolute := ∅ |>).

(** Drawing and firing the display are the review's; redrawScreen returns nothing. *)
Definition redrawScreen (box : container) (e : Review.env) (p : page) : option page * jsval :=
  let r := review p in
  let p := p <| review := if Review.liveMode r then r else Review.drawSliderOnGraph cfg e (Review.currentTimeSecs r) r |> in
  let p := updateStreamScales (fit_screen box p) in
  (match Review.timerFire cfg Review.depth e (review p) with
   | Some r => Some (p <| review := r |>)
   | None => None
   end, VUndef).

Definition setFit (value : bool) (box : container) (e : Review.env) (p : page) : option page :=
  (redrawScreen box e (p <| fitMode := value |>)).1.

Definition zoom (monId : Z) (scale : num) (box : container) (e : Review.env) (p : page) : option page :=
  let lastZoomMonPriorScale := zoom_of p monId in
  let '(r, result) := redrawScreen box e
    (p <| monitorZoomScale := <[monId := zoom_of p monId * scale]> (monitorZoomScale p) |>) in
  match r with
  | None => None
  | Some p =>
      if loose_equals result (VNum (Fin 0)) then
        (redrawScreen box e
          (p <| monitorZoomScale := <[monId := lastZoomMonPriorScale]> (monitorZoomScale p) |>
             <| alerts := (alerts p ++ ["You can't zoom that far -- rolling back"])%list |>)).1
      else Some p
  end.

Definition showOneMonitor (monId : Z) (ctrlKey : bool) (e : Review.env) (p : page) : page :=
  let r := review p in
  let watch := ("?view=watch&mid=" ++ Z_to_string monId)%string in
  let '(r, url) :=
    if Review.liveMode r then (r, watch)
    else
      let '(st, f) := Montage.getFrame (Review.maxTimeSecs r) (num_of_Z (Review.now e)) monId (Review.currentTimeSecs r) (Review.store_ r) in
      (r <| Review.store_ := st |>,
       match f with
       | Some f => ("?view=event&eid=" ++ Z_to_string (Montage.EventId f) ++ "&fid=" ++ num_to_string (Montage.FrameId f))%string
       | None => watch
       end) in
  p <| review := r |> <| opened := (opened p ++ [(ctrlKey, url)])%list |>.

(** A click on a canvas: its upper corners zoom. *)
Definition clickMonitor (monId : Z) (pos_x pos_y width height : num) (ctrlKey : bool) (box : container) (e : Review.env)
    (p : page) : option page :=
  if (pos_x <? width / Fin 4) && (pos_y <? height / Fin 4) then zoom monId (rnd (115 # 100)) box e p
  else if (pos_x >? width * Fin 3 / Fin 4) && (pos_y <? height / Fin 4) then zoom monId (Fin 1 / rnd (115 # 100)) box e p
  else Some (showOneMonitor monId ctrlKey e p).
End Page.

(** ** The bisection ends *)

(** What a round does to the two scales. *)
Definition halves (lo hi : num) (fits : bool) : num * num :=
  let mid := (hi + lo) / Fin 2 in if fits then (mid, hi) else (lo, mid).

Fixpoint ends_within (n : nat) (lo hi : num) : bool :=
  (hi - lo <? rnd (1 # 100)) ||
  match n with
  | O => false
  | S n => ends_within n ((hi + lo) / Fin 2) hi && ends_within n lo ((hi + lo) / Fin 2)
  end.

(** Nonnegative, unless it is not a number at all: what sums and products of such
    numbers are. *)
Definition nn (a : num) : Prop := a = NaN \/ nle (Fin 0) a.

Lemma nn_cases a : nn a -> a = NaN \/ a = Infty false \/ exists q, a = Fin q /\ (0 <= q)%Q.
Proof.
  intros [->|H]; [left; reflexivity|]. right. destruct a as [|[]|q]; try discriminate H; [left; reflexivity|].
  right. exists q. split; [reflexivity|apply nle_Fin, H].
Qed.

Ltac nn_split H := destruct (nn_cases _ H) as [->|[->|(? & -> & ?)]].

Lemma nadd_nn a b : nn a -> nn b -> nn (a + b).
Proof.
  intros Ha Hb. nn_split Ha; nn_split Hb; cbn; try (left; reflexivity); try (right; reflexivity).
  right. apply Review.rnd_nonneg. lra.
Qed.

Lemma nmul_nn a b : nn a -> nn b -> nn (a * b).
Proof.
  assert (Sign : forall q, (0 <= q)%Q -> qsign q = false) by (intros q Hq; unfold qsign; apply Qle_bool_iff in Hq; rewrite Hq; reflexivity).
  intros Ha Hb. nn_split Ha; nn_split Hb; cbn; try (left; reflexivity); try (right; reflexivity).
  - destruct (Qeq_bool _ 0); [left; reflexivity|]. rewrite Sign by assumption. right. reflexivity.
  - destruct (Qeq_bool _ 0); [left; reflexivity|]. rewrite Sign by assumption. right. reflexivity.
  - right. apply Review.rnd_nonneg. nra.
Qed.

Lemma half_nn a : nn a -> nn (a / Fin 2).
Proof. intros Ha. nn_split Ha; cbn; [left; reflexivity|right; reflexivity|]. right. apply Review.rnd_nonneg, Qle_shift_div_l; [reflexivity|lra]. Qed.

Lemma nadd_num a b : a + b <> NaN -> a <> NaN /\ b <> NaN.
Proof. destruct a, b; cbn; intros H; split; congruence. Qed.
Lemma nsub_num a b : a - b <> NaN -> a <> NaN /\ b <> NaN.
Proof. unfold nsub. intros H. apply nadd_num in H as [Ha Hb]. split; [exact Ha|]. destruct b; cbn in Hb; congruence. Qed.
Lemma nmul_num a b : a * b <> NaN -> a <> NaN /\ b <> NaN.
Proof. destruct a, b; cbn; intros H; split; congruence. Qed.
Lemma nn_num a : nn a -> a <> NaN -> nle (Fin 0) a.
Proof. intros [H|H] Hn; [contradiction|exact H]. Qed.
Lemma nadd_pos a b : nle (Fin 0) a -> nle (Fin 0) b -> a + b <> NaN.
Proof. destruct a as [|[]|p], b as [|[]|q]; try discriminate. intros _ _. apply rnd_not_NaN. Qed.

Section Search.
Variable g : geometry.
Variable zs : Z -> num.
Variables divW divH : num.

Lemma bisect_halves st : exists fits,
  (minScale (bisect g zs divW divH st), maxScale (bisect g zs divW divH st)) = halves (minScale st) (maxScale st) fits.
Proof.
  unfold bisect, halves. destruct (place _ _ _ _ _ _ _ _ _) as [[[placed a]|] b].
  - exists true. destruct st as [lo hi ba bb bw]. unfold upd. cbn. destruct (nltb ba a); reflexivity.
  - exists false. destruct st as [lo hi ba bb bw]. unfold upd. cbn. reflexivity.
Qed.

Lemma find_scale_ends n : forall st, ends_within n (minScale st) (maxScale st) = true -> find_scale g zs divW divH n st <> None.
Proof.
  induction n as [|n IH]; intros st; cbn [ends_within find_scale]; fold (search_over st).
  - rewrite orb_false_r. intros ->. discriminate.
  - destruct (search_over st); [discriminate|]. cbn [orb]. intros H. apply andb_true_iff in H as [Hu Hd].
    destruct (bisect_halves st) as [[] E]; unfold halves in E; injection E as E1 E2; apply IH; rewrite E1, E2; assumption.
Qed.

(** It returns, whatever the monitors, their borders and the container are: nine
    rounds bring the two scales within a hundredth. *)
Lemma maxfit2_terminates : maxfit2 g zs divW divH <> None.
Proof.
  unfold maxfit2. pose proof (find_scale_ends rounds search_start) as H.
  destruct (find_scale g zs divW divH rounds search_start); [discriminate|].
  exfalso. apply H; [vm_compute; reflexivity|reflexivity].
Qed.
End Search.

(** ** The layout *)

(** A layout, monitor by monitor: each block has the size of its monitor and
    passed the test against the container and the blocks before it. *)
Section Layout.
Variable g : geometry.
Variable zs : Z -> num.
Variables divW divH : num.

Inductive arranged (s : num) : list Z -> list block -> Prop :=
| arranged_nil : arranged s [] []
| arranged_snoc ms bs m b x y :
    arranged s ms bs -> nn x -> nn y ->
    doesItFit divW divH bs x y (scaled_width g zs s m + b.1) (scaled_height g zs s m + b.2) = true ->
    nn b.1 -> nn b.2 ->
    arranged s (ms ++ [m])%list (bs ++ [block_at g zs s b m (x, y)])%list.

(** Sizes are not negative. *)
Record plausible : Prop := {
  pl_width m : nn (monitorWidth g m); pl_height m : nn (monitorHeight g m);
  pl_norm m : nn (monitorNormalizeScale g m); pl_zoom m : nn (zs m);
  pl_border m sd : nn (parseInt (border g m sd));
}.
Hypothesis Hg : plausible.

Lemma scaled_nn s m : nn s -> nn (scaled_width g zs s m) /\ nn (scaled_height g zs s m).
Proof.
  intros Hs. unfold scaled_width, scaled_height. destruct Hg as [Hw Hh Hn Hz _].
  split; apply nmul_nn, Hz; apply nmul_nn, Hn; apply nmul_nn, Hs; auto.
Qed.

(** The borders are unread, or not negative. *)
Definition border_ok (a : num) : Prop := a = Fin (-1) \/ nn a.
Lemma borders_nn m b : border_ok b.1 -> border_ok b.2 -> nn (borders g m b).1 /\ nn (borders g m b).2.
Proof.
  destruct b as [bw bh]. cbn. intros H1 H2.
  assert (R : forall v sd sd', border_ok v -> nn (if v <=? Fin 0 then parseInt (border g m sd) + parseInt (border g m sd') else v)).
  { intros v sd sd' [->|H]; [|destruct (v <=? Fin 0); [|exact H]]; apply nadd_nn; apply (pl_border Hg). }
  split; apply R; assumption.
Qed.

Definition all_nn (bs : list block) : Prop := Forall (fun t => nn (X t) /\ nn (Y t) /\ nn (X2 t) /\ nn (Y2 t)) bs.

Lemma arranged_nn s ms bs : nn s -> arranged s ms bs -> all_nn bs.
Proof.
  intros Hs. induction 1 as [|ms bs m b x y _ IH Hx Hy _ Hw Hh]; [constructor|].
  apply Forall_app. split; [exact IH|]. constructor; [|constructor].
  destruct (scaled_nn s m Hs) as [Sw Sh]. cbn. repeat split; auto using nadd_nn.
Qed.

Lemma nowhere_not x y : (x =? nowhere) = false -> (x, y) <> (nowhere, nowhere).
Proof. intros E H. apply (f_equal fst) in H. cbn [fst] in H. rewrite H in E. vm_compute in E. discriminate E. Qed.

(** A candidate that was taken fits, and lies beside or below an earlier block. *)
Definition taken (placed : list block) (w h : num) (fit : num * num) : Prop :=
  fit = (nowhere, nowhere) \/ (doesItFit divW divH placed fit.1 fit.2 w h = true /\ nn fit.1 /\ nn fit.2).

Lemma consider_taken placed w h x y fit : nn x -> nn y -> taken placed w h fit ->
  taken placed w h (consider divW divH placed w h x y fit).
Proof.
  intros Hx Hy Ht. unfold consider. destruct fit as [fx fy].
  destruct (doesItFit divW divH placed x y w h) eqn:F; cbn [andb]; [|exact Ht].
  destruct (_ || _); [|exact Ht]. right. cbn. auto.
Qed.

Lemma find_place_taken placed w h : all_nn placed -> taken placed w h (find_place divW divH placed w h).
Proof.
  intros Hp. unfold find_place.
  assert (F : forall bs fit, all_nn bs -> taken placed w h fit -> taken placed w h (fold_left (beside divW divH placed w h) bs fit)).
  { induction bs as [|b bs IH]; intros fit Hb Ht; [exact Ht|]. inversion Hb as [|? ? (Hx & Hy & Hx2 & Hy2) Hb']; subst.
    cbn [fold_left]. apply IH; [exact Hb'|]. unfold beside.
    apply consider_taken; [exact Hx|apply nadd_nn; [exact Hy2|right; reflexivity]|].
    apply consider_taken; [apply nadd_nn; [exact Hx2|right; reflexivity]|exact Hy|exact Ht]. }
  destruct placed as [|p placed]; [|apply F; [exact Hp|left; reflexivity]].
  cbn [fold_left]. destruct (doesItFit divW divH [] (Fin 0) (Fin 0) w h) eqn:E; [|left; reflexivity].
  right. repeat split; [exact E|right; reflexivity..].
Qed.

Lemma place_arranged s ms : nn s -> forall b ms0 bs total bs' total' b', border_ok b.1 -> border_ok b.2 ->
  arranged s ms0 bs -> place g zs divW divH s ms b bs total = (Some (bs', total'), b') ->
  arranged s (ms0 ++ ms) bs'.
Proof.
  intros Hs. induction ms as [|m ms IH]; intros b ms0 bs total bs' total' b' H1 H2 Ha; cbn [place].
  - intros [= <- _ _]. rewrite app_nil_r. exact Ha.
  - destruct (borders_nn m b H1 H2) as [B1 B2]. set (b0 := borders g m b) in *. cbv zeta.
    pose proof (find_place_taken bs (scaled_width g zs s m + b0.1) (scaled_height g zs s m + b0.2) (arranged_nn _ _ _ Hs Ha)) as T.
    destruct (find_place _ _ _ _ _) as [x y]. cbn [fst snd].
    destruct (x =? nowhere) eqn:E; [discriminate|]. intros H.
    destruct T as [T|(F & Hx & Hy)]; [destruct (nowhere_not x y E T)|].
    apply IH with (ms0 := (ms0 ++ [m])%list) in H; [rewrite <- app_assoc in H; exact H|right; exact B1|right; exact B2|].
    apply arranged_snoc; assumption.
Qed.

(** The borders a search has read. *)
Lemma place_borders s ms : forall b bs total r b', border_ok b.1 -> border_ok b.2 ->
  place g zs divW divH s ms b bs total = (r, b') -> border_ok b'.1 /\ border_ok b'.2.
Proof.
  induction ms as [|m ms IH]; intros b bs total r b' H1 H2; cbn [place]; [intros [= _ <-]; split; assumption|].
  destruct (borders_nn m b H1 H2) as [B1 B2]. cbv zeta. destruct (_ =? nowhere).
  - intros [= _ <-]. split; right; assumption.
  - apply IH; right; assumption.
Qed.

(** Areas that add up to a number are all numbers. *)
Lemma place_total s ms : forall b bs total bs' total' b',
  place g zs divW divH s ms b bs total = (Some (bs', total'), b') -> total' <> NaN ->
  total <> NaN /\ exists more, bs' = (bs ++ more)%list /\ Forall (fun t => area t <> NaN) more.
Proof.
  induction ms as [|m ms IH]; intros b bs total bs' total' b'; cbn [place].
  - intros [= <- <- _] Hn. split; [exact Hn|]. exists []. rewrite app_nil_r. split; [reflexivity|constructor].
  - cbv zeta. destruct (_ =? nowhere); [discriminate|]. intros H Hn.
    destruct (IH _ _ _ _ _ _ H Hn) as (Ht & more & -> & Hm). apply nadd_num in Ht as [Ht Ha].
    split; [exact Ht|]. eexists (_ :: more). rewrite <- app_assoc. split; [reflexivity|].
    constructor; assumption.
Qed.
End Layout.

(** ** What a bisection leaves *)

Section Searched.
Variable g : geometry.
Variable zs : Z -> num.
Variables divW divH : num.
Hypothesis Hg : plausible g zs.


(** The monitors have a place at a scale, whatever borders were found before. *)
Definition fits (s : num) (bs : list block) (total : num) : Prop :=
  exists b b', border_ok b.1 /\ border_ok b.2 /\ place g zs divW divH s (monitorPtr g) b [] (Fin 0) = (Some (bs, total), b').
Definition fails (s : num) : Prop :=
  exists b b', border_ok b.1 /\ border_ok b.2 /\ place g zs divW divH s (monitorPtr g) b [] (Fin 0) = (None, b').

Record searched (st : search) : Prop := {
  (* the smaller scale fits, and the layout kept has no less area *)
  se_min : minScale st = minScale search_start \/
           exists bs total, fits (minScale st) bs total /\ nltb (bestFitArea st) total = false;
  (* the larger one does not *)
  se_max : maxScale st = maxScale search_start \/ fails (maxScale st);
  se_best : nltb (Fin 0) (bestFitArea st) = true -> exists s, nn s /\ fits s (best st) (bestFitArea st);
  se_nn : nn (minScale st) /\ nn (maxScale st);
  se_borders : border_ok (bordersWH st).1 /\ border_ok (bordersWH st).2;
}.

Lemma searched_start : searched search_start.
Proof.
  split; [left; reflexivity|left; reflexivity|discriminate| |]; split; try (right; reflexivity); left; reflexivity.
Qed.

Lemma bisect_searched st : searched st -> searched (bisect g zs divW divH st).
Proof.
  intros [Hmin Hmax Hbest [Nlo Nhi] [B1 B2]]. unfold bisect.
  set (mid := (maxScale st + minScale st) / Fin 2).
  assert (Nmid : nn mid) by (apply half_nn, nadd_nn; assumption).
  destruct (place g zs divW divH mid (monitorPtr g) (bordersWH st) [] (Fin 0)) as [r b] eqn:E.
  pose proof (place_borders _ _ _ _ Hg _ _ _ _ _ _ _ B1 B2 E) as Bb.
  destruct r as [[placed a]|];
    destruct st as [lo hi ba bb bw]; unfold upd; cbn in *.
  - assert (F : fits mid placed a) by (exists bw, b; auto).
    destruct (nltb ba a) eqn:A; split; cbn; try assumption; try (split; assumption).
    + right. exists placed, a. split; [exact F|apply nltb_irrefl].
    + intros _. exists mid. split; assumption.
    + right. exists placed, a. split; assumption.
  - split; cbn; try assumption; [right; exists bw, b; auto|split; assumption].
Qed.

Lemma find_scale_searched n : forall st st', searched st -> find_scale g zs divW divH n st = Some st' ->
  searched st' /\ search_over st' = true.
Proof.
  induction n as [|n IH]; intros st st' Hs; cbn [find_scale]; destruct (search_over st) eqn:O; try discriminate;
    try (intros [= <-]; split; assumption).
  apply IH, bisect_searched, Hs.
Qed.
End Searched.

(** ** Where the monitors end up *)

Section Placed.
Variable g : geometry.
Variable zs : Z -> num.
Variables divW divH : num.

(** A block of a monitor at a scale: its size with its borders, inside the
    container, and clear of all blocks before it. *)
Definition seated (s : num) (m : Z) (before : list block) (t : block) : Prop :=
  exists b, t = block_at g zs s b m (X t, Y t) /\
    let w := scaled_width g zs s m + b.1 in
    let h := scaled_height g zs s m + b.2 in
    (nle (Fin 0) (X t) /\ nlt (X t + w) divW) /\ (nle (Fin 0) (Y t) /\ nlt (Y t + h) divH) /\
    forallb (clear_of (X t) (Y t) w h) before = true.

Definition packed (s : num) (bs : list block) : Prop :=
  length bs = length (monitorPtr g) /\
  forall j m t, monitorPtr g !! j = Some m -> bs !! j = Some t -> seated s m (take j bs) t.

Lemma area_num t : area t <> NaN -> X2 t <> NaN /\ Y2 t <> NaN.
Proof. unfold area. intros H. apply nmul_num in H as [Hx Hy]. apply nsub_num in Hx, Hy. tauto. Qed.

Lemma block_num s b m x y : nn x -> nn y -> nn s -> plausible g zs -> nn b.1 -> nn b.2 ->
  area (block_at g zs s b m (x, y)) <> NaN ->
  (nle (Fin 0) x /\ nle (Fin 0) (scaled_width g zs s m + b.1)) /\ nle (Fin 0) y /\ nle (Fin 0) (scaled_height g zs s m + b.2).
Proof.
  intros Hx Hy Hs Hg B1 B2 Ha. apply area_num in Ha as [Ax Ay]. cbn in Ax, Ay.
  destruct (scaled_nn g zs Hg s m Hs) as [Sw Sh].
  apply nadd_num in Ax as [Ax Bx], Ay as [Ay By]. apply nadd_num in Ax as [Ax Wx], Ay as [Ay Wy].
  repeat split; try (apply nn_num; assumption); apply nn_num; try (apply nadd_nn; assumption);
    apply nadd_pos; apply nn_num; assumption.
Qed.

Hypothesis HW : divW <> NaN.
Hypothesis HH : divH <> NaN.
Hypothesis Hg : plausible g zs.

Lemma arranged_seated s ms bs : nn s -> arranged g zs divW divH s ms bs -> Forall (fun t => area t <> NaN) bs ->
  length bs = length ms /\ forall j m t, ms !! j = Some m -> bs !! j = Some t -> seated s m (take j bs) t.
Proof.
  intros Hs. induction 1 as [|ms bs m b x y _ IH Hx Hy F B1 B2]; intros A; [split; [reflexivity|discriminate]|].
  apply Forall_app in A as [A At]. inversion At as [|? ? Ha _]; subst. destruct (IH A) as [L S]. clear IH.
  split; [rewrite !length_app, L; reflexivity|]. intros j m' t Hm Ht.
  destruct (decide (j < length bs)%nat) as [Hj|Hj].
  - rewrite lookup_app_l in Hm by lia. rewrite lookup_app_l in Ht by lia. rewrite take_app_le by lia. apply S; assumption.
  - assert (j = length bs) as -> by (apply lookup_lt_Some in Ht; rewrite length_app in Ht; cbn in Ht; lia).
    rewrite list_lookup_middle in Ht by reflexivity. rewrite list_lookup_middle in Hm by congruence.
    injection Hm as ->. injection Ht as <-. rewrite take_app_length.
    destruct (block_num s b m' x y Hx Hy Hs Hg B1 B2 Ha) as ((Px & Pw) & Py & Ph).
    exists b. split; [reflexivity|]. cbn [X Y block_at fst snd]. revert F. unfold doesItFit.
    destruct (_ || _) eqn:O; [discriminate|]. apply orb_false_iff in O as [Ow Oh].
    apply nleb_false in Ow, Oh; try assumption; try (apply nadd_pos; assumption). tauto.
Qed.

Lemma fits_packed s bs total : nn s -> total <> NaN -> fits g zs divW divH s bs total -> packed s bs.
Proof.
  intros Hs Ht (b & b' & B1 & B2 & E).
  pose proof (place_arranged g zs divW divH Hg s (monitorPtr g) Hs b [] [] _ _ _ _ B1 B2 (arranged_nil _ _ _ _ _) E) as A.
  destruct (place_total _ _ _ _ _ _ _ _ _ _ _ _ E Ht) as (_ & more & M & F). cbn in M. subst more.
  apply arranged_seated; assumption.
Qed.
End Placed.


(** The search ends, within nine rounds, and closes in on a scale: it ends with
    a scale that fits (or the least there is) and one less than a hundredth larger
    that does not (or the largest); the canvases are arranged exactly when some
    layout has an area, and then in one of no less area than that of the scale it
    ended with. *)
Theorem maxfit2_searches (g : geometry) (zs : Z -> num) (divW divH : num) :
  plausible g zs ->
  exists st, maxfit2 g zs divW divH = Some (arrangement divW st) /\ searched g zs divW divH st /\ search_over st = true.
Proof.
  intros Hg. pose proof (maxfit2_terminates g zs divW divH) as T. unfold maxfit2 in *.
  destruct (find_scale _ _ _ _ _ _) as [st|] eqn:E; [|congruence]. exists st. split; [reflexivity|].
  apply (find_scale_searched g zs divW divH Hg _ _ _ (searched_start g zs divW divH) E).
Qed.

(** ** Zooming *)

Section Zooming.
Variable cfg : Review.config.
Variable g : geometry.

(** What sizing the canvases leaves alone. *)
Record sized (p p' : page) : Prop := {
  sz_zoom : monitorZoomScale p' = monitorZoomScale p;
  sz_alerts : alerts p' = alerts p;
  sz_opened : opened p' = opened p;
}.

Lemma sized_refl p : sized p p.
Proof. split; reflexivity. Qed.
Lemma sized_trans p q r : sized p q -> sized q r -> sized p r.
Proof. intros [A B C] [D E F]. split; congruence. Qed.
Lemma sized_fold {T} (f : page -> T -> page) (xs : list T) : (forall p x, sized p (f p x)) -> forall p, sized p (fold_left f xs p).
Proof. intros H. induction xs as [|x xs IH]; intros p; cbn; [apply sized_refl|]. eapply sized_trans; [apply H|apply IH]. Qed.

Lemma scale_sized v p m : sized p (scale_canvas g v p m).
Proof. destruct p. split; reflexivity. Qed.
Lemma fit_sized p c : sized p (fit_canvas p c).
Proof. destruct p, c. split; reflexivity. Qed.
Lemma setScale_sized v p : sized p (setScale cfg g v p).
Proof.
  unfold setScale. set (q := fold_left _ _ _).
  assert (S : sized p q).
  { eapply sized_trans; [|apply sized_fold, scale_sized]. destruct p. split; reflexivity. }
  clearbody q. eapply sized_trans; [exact S|]. destruct q. split; reflexivity.
Qed.

Lemma fit_screen_sized box p : sized p (fit_screen cfg g box p).
Proof.
  unfold fit_screen. destruct (fitMode p).
  - destruct (maxfit2 _ _ _ _) as [[cs|]|]; [apply sized_fold, fit_sized|destruct p; split; reflexivity..].
  - eapply sized_trans; [|apply setScale_sized]. destruct p. split; reflexivity.
Qed.

Lemma fit_canvas_mode p c : fitMode (fit_canvas p c) = fitMode p.
Proof. destruct p, c. reflexivity. Qed.
Lemma fit_mode cs : forall p, fitMode (fold_left fit_canvas cs p) = fitMode p.
Proof. induction cs as [|c cs IH]; intros p; cbn; [reflexivity|]. rewrite IH. apply fit_canvas_mode. Qed.

(** A redraw in fit mode: it stays exactly when the monitors fit; when they do
    not the canvases are as before. *)
Lemma redraw_fit box e p : fitMode p = true ->
  exists p', redrawScreen cfg g box e p = (Some p', VUndef) /\ sized p p' /\
    (fitMode p' = true <-> exists cs, maxfit2 g (zoom_of p) (outerWidth box) (outerHeight box) = Some (Some cs)) /\
    (fitMode p' = false -> canvasHeight p' = canvasHeight p /\ absolute p' = absolute p).
Proof.
  intros Hf. unfold redrawScreen.
  set (q := p <| review := _ |>).
  assert (Q : sized p q /\ fitMode q = true /\ zoom_of q = zoom_of p /\ canvasHeight q = canvasHeight p /\ absolute q = absolute p).
  { subst q. destruct p. cbn in Hf. subst. repeat split. }
  clearbody q. destruct Q as (S & F & Z & Hh & Ha).
  pose proof (fit_screen_sized box q) as S'. pose proof (maxfit2_terminates g (zoom_of p) (outerWidth box) (outerHeight box)) as T.
  unfold fit_screen in *. rewrite F, Z in *. destruct (maxfit2 _ _ _ _) as [[cs|]|]; [| |congruence].
  - set (q' := fold_left fit_canvas _ _) in *. pose proof (fit_mode (combine (monitorPtr g) cs) q) as M. fold q' in M. clearbody q'.
    destruct (Review.timerFire_total cfg e (review (updateStreamScales cfg q'))) as [r ->].
    eexists. split; [reflexivity|]. rewrite F in M. destruct q'. cbn in M. subst. split; [|split].
    + eapply sized_trans; [exact S|]. eapply sized_trans; [exact S'|]. split; reflexivity.
    + split; [intros _; exists cs; reflexivity|reflexivity].
    + discriminate.
  - destruct (Review.timerFire_total cfg e (review (updateStreamScales cfg (q <| fitMode := negb true |>)))) as [r ->].
    eexists. split; [reflexivity|]. destruct q. cbn in *. subst. split; [|split].
    + eapply sized_trans; [exact S|]. split; reflexivity.
    + split; [discriminate|intros [cs H]; discriminate H].
    + intros _. split; reflexivity.
Qed.

(** In fit mode a zoom is never taken back and nobody is alerted: redrawScreen
    returns nothing, which is not 0.  A zoom too far leaves the fit mode instead,
    keeps its scale and leaves the canvases where the last fit put them. *)
Theorem zoom_not_taken_back (monId : Z) (scale : num) (box : container) (e : Review.env) (p : page) :
  fitMode p = true ->
  let z := <[monId := zoom_of p monId * scale]> (monitorZoomScale p) in
  exists p', zoom cfg g monId scale box e p = Some p' /\
    monitorZoomScale p' = z /\ alerts p' = alerts p /\
    (fitMode p' = false <-> maxfit2 g (fun m => default NaN (z !! m)) (outerWidth box) (outerHeight box) = Some None) /\
    (fitMode p' = false -> canvasHeight p' = canvasHeight p /\ absolute p' = absolute p).
Proof.
  intros Hf z. unfold zoom. set (q := p <| monitorZoomScale := _ |>).
  assert (Q : fitMode q = true /\ monitorZoomScale q = z /\ zoom_of q = (fun m => default NaN (z !! m)) /\ alerts q = alerts p /\
              canvasHeight q = canvasHeight p /\ absolute q = absolute p) by (subst q z; destruct p; repeat split; exact Hf).
  clearbody q. destruct Q as (F & Zq & Zo & Al & Hh & Ha).
  destruct (redraw_fit box e q F) as (p' & -> & [Sz Sa _] & M & C). cbn [loose_equals].
  pose proof (maxfit2_terminates g (zoom_of q) (outerWidth box) (outerHeight box)) as T. rewrite Zo in M, T.
  exists p'. repeat split; try congruence; try (rewrite <- ?Hh, <- ?Ha; apply C; assumption).
  - intros Hn. destruct (maxfit2 _ _ _ _) as [[cs|]|]; [|reflexivity|congruence].
    exfalso. rewrite (proj2 M ltac:(exists cs; reflexivity)) in Hn. discriminate.
  - intros E. destruct (fitMode p'); [|reflexivity]. destruct (proj1 M eq_refl) as [cs E']. congruence.
Qed.
End Zooming.

(** ** The size a stream is asked for *)

(** Percents of the monitor in tens, rounded up, before they are clamped. *)
Definition tens (w mw : num) : num := Fin 10 * nceil (Fin 100 * w / mw / Fin 10).

Lemma rnd_between q a b : (inject_Z a <= q)%Q -> (q <= inject_Z b)%Q -> (Z.abs a <= 2 ^ 53)%Z -> (Z.abs b <= 2 ^ 53)%Z ->
  exists r, rnd q = Fin r /\ (inject_Z a <= r)%Q /\ (r <= inject_Z b)%Q.
Proof.
  intros Ha Hb Za Zb. destruct (wf_Z a Za) as [Da Ra], (wf_Z b Zb) as [Db Rb].
  pose proof (rnd_ge_wf q _ Da Ra Ha) as L. pose proof (rnd_le_wf q _ Db Rb Hb) as U.
  pose proof (nle_between_finite _ _ _ L U eq_refl eq_refl) as F.
  destruct (rnd q) as [| |r]; try discriminate F. exists r. rewrite nle_Fin in L, U. auto.
Qed.

Lemma ndiv_pos p m : (0 < m)%Q -> Fin p / Fin m = rnd (p / m).
Proof.
  intros Hm. cbn. destruct (Qeq_bool m 0) eqn:E; [apply Qeq_bool_iff in E; lra|reflexivity].
Qed.

(** What lies above a whole number by some 2^-16 keeps above it when it is rounded. *)
Lemma rnd_above q c (e : Z) : (0 <= c <= 1000)%Z -> (0 < e < 1000)%Z -> (inject_Z c + inject_Z e / 65536 <= q)%Q ->
  nle (Fin (inject_Z c + inject_Z e / 65536)) (rnd q).
Proof.
  intros Hc He Hq.
  assert (E : (inject_Z (c * 65536 + e) * pow2 (-16) == inject_Z c + inject_Z e / 65536)%Q).
  { rewrite inject_Z_plus, inject_Z_mult. change (pow2 (-16)) with (/ 65536)%Q. change (inject_Z 65536) with 65536%Q. field. }
  assert (D : double (inject_Z c + inject_Z e / 65536)).
  { unfold double. rewrite <- (rndq_proper _ _ E), <- E at 1. apply double_repr; [lia|unfold emin; lia]. }
  apply rnd_ge_wf; [exact D| |exact Hq].
  assert (B : (0 <= inject_Z c <= 1000)%Q) by (change 0%Q with (inject_Z 0); change 1000%Q with (inject_Z 1000); rewrite <- !Zle_Qle; exact Hc).
  assert (B' : (0 <= inject_Z e <= 1000)%Q) by (change 0%Q with (inject_Z 0); change 1000%Q with (inject_Z 1000); rewrite <- !Zle_Qle; lia).
  assert (H : (3000 < huge)%Q) by reflexivity.
  assert (B2 : (0 <= inject_Z e / 65536 <= 1000)%Q) by (split; [apply Qle_shift_div_l|apply Qle_shift_div_r]; lra).
  lra.
Qed.

(** A multiple of ten below a hundred covers the canvas, in spite of the roundings. *)
Lemma tens_cover (w mw : Z) : (0 <= w < 2 ^ 31)%Z -> (0 < mw <= 2 ^ 16)%Z ->
  exists c, tens (Fin (inject_Z w)) (Fin (inject_Z mw)) = Fin c /\ (0 <= c)%Q /\
    ((c < 100)%Q -> (inject_Z (100 * w) <= c * inject_Z mw)%Q).
Proof.
  intros Hw Hm. unfold tens.
  assert (Qm : (1 <= inject_Z mw <= 65536)%Q) by (change 1%Q with (inject_Z 1); change 65536%Q with (inject_Z (2 ^ 16)); rewrite <- !Zle_Qle; lia).
  destruct (num_of_Z_exact (100 * w) ltac:(lia)) as (x & Ex & Eqx).
  assert (E100 : Fin 100 * Fin (inject_Z w) = Fin x) by (rewrite <- Ex; reflexivity).
  rewrite E100, ndiv_pos by lra. clear E100 Ex.
  assert (Qw : (0 <= inject_Z (100 * w) <= inject_Z (2 ^ 38))%Q) by (change 0%Q with (inject_Z 0); rewrite <- !Zle_Qle; lia).
  assert (B : (0 <= x / inject_Z mw <= inject_Z (2 ^ 38))%Q).
  { split; [apply Qle_shift_div_l; lra|]. apply Qle_shift_div_r; [lra|]. rewrite Eqx. nra. }
  destruct (rnd_between (x / inject_Z mw) 0 (2 ^ 38)) as (d & Ed & D0 & D1); [apply B|apply B|lia|lia|].
  rewrite Ed, ndiv_pos by reflexivity.
  change (inject_Z 0) with 0%Q in D0.
  assert (B' : (0 <= d / 10 <= inject_Z (2 ^ 38))%Q).
  { split; [apply Qle_shift_div_l; lra|]. apply Qle_shift_div_r; [reflexivity|]. cbn in D1 |- *. lra. }
  destruct (rnd_between (d / 10) 0 (2 ^ 38)) as (v & Ev & V0 & V1); [apply B'|apply B'|lia|lia|].
  rewrite Ev. cbn [nceil]. set (k := Qceiling v).
  assert (Kv : (v <= inject_Z k)%Q) by apply Qle_ceiling.
  assert (K0 : (0 <= k <= 2 ^ 38)%Z).
  { split; [rewrite Zle_Qle; change (inject_Z 0) with 0%Q; change (inject_Z 0) with 0%Q in V0; lra|].
    subst k. rewrite <- (Qceiling_Z (2 ^ 38)). apply Qceiling_resp_le, V1. }
  destruct (num_of_Z_exact (10 * k) ltac:(lia)) as (c & Ec & Eqc).
  assert (E10 : Fin 10 * Fin (inject_Z k) = Fin c) by (rewrite <- Ec; reflexivity).
  rewrite E10. exists c. split; [reflexivity|]. split; [rewrite Eqc; change 0%Q with (inject_Z 0); rewrite <- Zle_Qle; lia|].
  intros Hc. assert (K9 : (k <= 9)%Z).
  { rewrite Eqc in Hc. change 100%Q with (inject_Z 100) in Hc. rewrite <- Zlt_Qlt in Hc. lia. }
  rewrite Eqc, <- inject_Z_mult, <- Zle_Qle.
  destruct (Z.le_gt_cases (100 * w) (10 * k * mw)) as [|Gt]; [assumption|exfalso].
  assert (G : (inject_Z (10 * k * mw + 10) <= inject_Z (100 * w))%Q) by (rewrite <- Zle_Qle; lia).
  rewrite inject_Z_plus, inject_Z_mult in G. change (inject_Z 10) with 10%Q in G.
  assert (L : (inject_Z (10 * k) + inject_Z 10 / 65536 <= x / inject_Z mw)%Q).
  { apply Qle_shift_div_l; [lra|]. rewrite Eqx. change (inject_Z 10) with 10%Q. unfold Qdiv. change (/ 65536)%Q with (1 # 65536).
    assert ((10 * (1 # 65536)) * inject_Z mw <= 10)%Q by lra. lra. }
  apply (rnd_above _ (10 * k)) in L; [|lia..]. rewrite Ed, nle_Fin in L.
  assert (L' : (inject_Z k + inject_Z 1 / 65536 <= d / 10)%Q).
  { apply Qle_shift_div_l; [reflexivity|]. rewrite inject_Z_mult in L. change (inject_Z 10) with 10%Q in L.
    change (inject_Z 1) with 1%Q. unfold Qdiv in *. lra. }
  apply (rnd_above _ k) in L'; [|lia..]. rewrite Ev, nle_Fin in L'.
  change (inject_Z 1 / 65536)%Q with (1 # 65536) in L'. lra.
Qed.

Section Scales.
Variable cfg : Review.config.
Variable m : Z.

Lemma setScale_sets c sc es : EventStream.scale (EventStream.setScale c sc es) = sc.
Proof.
  unfold EventStream.setScale, EventStream.streamCommand, EventStream.streamCmdReq. destruct es as [] eqn:E.
  rsimpl. repeat break_match; reflexivity.
Qed.

(** The stream of [m] is there, with the scale its canvas asks for. *)
Definition scaled (sc : num) (s : Review.state) : Prop :=
  exists es, Review.eventStreams s !! m = Some es /\ Montage.loose_eq (EventStream.scale es) sc = true.

Lemma scale_one_canvas s m' : Review.canvasWidth (Review.scale_one cfg s m') = Review.canvasWidth s.
Proof.
  unfold Review.scale_one. destruct (Review.eventStreams s !! m'); [|reflexivity].
  destruct (negb _); [destruct s; reflexivity|reflexivity].
Qed.

Lemma loose_num n : n <> NaN -> Montage.loose_eq (VNum n) n = true.
Proof.
  intros Hn. unfold Montage.loose_eq, neqb. pose proof (nle_refl n Hn) as R. unfold nle in R. cbn. rewrite R. reflexivity.
Qed.

Lemma scale_one_stream s m' es : Review.eventStreams s !! m = Some es ->
  exists es', Review.eventStreams (Review.scale_one cfg s m') !! m = Some es' /\
    (m' <> m -> es' = es) /\
    (m' = m -> forall n, Review.streamScaleForMonitor cfg m s = n -> n <> NaN -> Montage.loose_eq (EventStream.scale es') n = true).
Proof.
  intros E. unfold Review.scale_one. destruct (decide (m' = m)) as [->|Hne].
  - rewrite E. destruct (Montage.loose_eq _ _) eqn:L; cbn [negb].
    + exists es. split; [exact E|]. split; [congruence|]. intros _ n <- _. exact L.
    + eexists. split; [apply (Review.on_stream_same _ _ _ _ E)|]. split; [congruence|].
      intros _ n <- Hn. rewrite setScale_sets. apply loose_num, Hn.
  - exists es. destruct (Review.eventStreams s !! m') as [es0|]; [|tauto].
    destruct (negb _); [|tauto]. rewrite Review.on_stream_other by congruence. tauto.
Qed.

Lemma scales_fold ms : forall s es n, Review.eventStreams s !! m = Some es -> Review.streamScaleForMonitor cfg m s = n -> n <> NaN ->
  m ∈ ms \/ Montage.loose_eq (EventStream.scale es) n = true ->
  scaled n (fold_left (Review.scale_one cfg) ms s).
Proof.
  induction ms as [|m' ms IH]; intros s es n E Hs Hn Hm; cbn [fold_left].
  - exists es. split; [exact E|]. destruct Hm as [Hm|Hm]; [inversion Hm|exact Hm].
  - destruct (scale_one_stream s m' es E) as (es' & E' & Ko & Km).
    assert (Hs' : Review.streamScaleForMonitor cfg m (Review.scale_one cfg s m') = n).
    { rewrite <- Hs. unfold Review.streamScaleForMonitor. rewrite scale_one_canvas. reflexivity. }
    apply (IH _ es' n E' Hs' Hn). destruct (decide (m' = m)) as [->|Hne].
    + right. apply Km; [reflexivity|exact Hs|exact Hn].
    + rewrite (Ko Hne). destruct Hm as [Hm|Hm]; [|right; exact Hm].
      apply elem_of_cons in Hm as [Hm|Hm]; [congruence|left; exact Hm].
Qed.

(** C36: after the canvases are resized every stream is asked for a scale between
    10 and 100 percent, and one below 100 is at least the canvas's share of the
    monitor's width: zms sends no fewer pixels than the canvas shows. *)
Theorem streams_cover_canvases (s : Review.state) (es : EventStream.state) (w mw : Z) :
  m ∈ Review.monitorPtr cfg -> Review.eventStreams s !! m = Some es ->
  Review.canvasWidth s !! m = Some (Fin (inject_Z w)) -> Review.monitorWidth cfg m = Fin (inject_Z mw) ->
  (0 <= w < 2 ^ 31)%Z -> (0 < mw <= 2 ^ 16)%Z ->
  exists n, scaled n (Review.updateStreamScales cfg s) /\ nle (Fin 10) n /\ nle n (Fin 100) /\
    (nle (Fin 100) n \/ exists q, n = Fin q /\ (inject_Z (100 * w) <= q * inject_Z mw)%Q).
Proof.
  intros Hm E Hw Hmw Bw Bm. destruct (tens_cover w mw Bw Bm) as (c & Ec & C0 & Cover).
  set (n := Review.streamScaleForMonitor cfg m s).
  assert (N : n = nmin (Fin 100) (nmax (Fin 10) (Fin c))).
  { subst n. unfold Review.streamScaleForMonitor. rewrite Hw, Hmw.
    replace (ntruthy (Fin (inject_Z mw))) with true; [fold (tens (Fin (inject_Z w)) (Fin (inject_Z mw))); rewrite Ec; reflexivity|].
    symmetry. cbn. rewrite negb_true_iff. destruct (Qeq_bool _ _) eqn:Q; [|reflexivity].
    apply Qeq_bool_iff in Q. apply (proj1 (inject_Z_injective mw 0)) in Q. lia. }
  destruct (nmax_spec (Fin 10) (Fin c)) as (X1 & X2 & X3); [discriminate..|].
  destruct (nmin_spec (Fin 100) (nmax (Fin 10) (Fin c))) as (M1 & M2 & M3); [discriminate|apply (nle_not_NaN _ _ X1)|].
  assert (N10 : nle (Fin 10) n) by (rewrite N; destruct M3 as [->| ->]; [reflexivity|exact X1]).
  exists n. split; [|split; [exact N10|split; [rewrite N; exact M1|]]].
  - apply (scales_fold _ s es n E eq_refl); [apply (nle_not_NaN _ _ N10)|left; exact Hm].
  - rewrite N in *. destruct M3 as [M3|M3]; [left; rewrite M3; reflexivity|]. rewrite M3 in *.
    destruct (nleb (Fin 100) (nmax (Fin 10) (Fin c))) eqn:L; [left; exact L|]. right.
    apply nleb_false in L; [|discriminate|apply (nle_not_NaN _ _ X1)].
    destruct (nmax (Fin 10) (Fin c)) as [|[]|q] eqn:Q; try (destruct X3; discriminate). exists q. split; [reflexivity|].
    rewrite nle_Fin in X2. rewrite nlt_Fin in L.
    eapply Qle_trans; [apply Cover; eapply Qle_lt_trans; [exact X2|exact L]|]. apply Qmult_le_compat_r; [exact X2|].
    change 0%Q with (inject_Z 0). rewrite <- Zle_Qle. lia.
Qed.
End Scales.

(** ** Examples *)

Definition demo_geometry : geometry :=
  Geometry [1; 2; 3]%Z (fun _ => Fin 1920) (fun m => if Z.eqb m 2 then Fin 800 else Fin 1080) (fun _ => Fin 1) (fun _ _ => "2px").

Lemma demo_plausible zs : (forall m, nn (zs m)) -> plausible demo_geometry zs.
Proof.
  intros Hz. split; try exact Hz; intros; cbn; try (right; vm_compute; reflexivity).
  destruct (Z.eqb m 2); right; reflexivity.
Qed.


(** A container too small for any scale. *)
Lemma maxfit2_searches_witness : exists st, maxfit2 demo_geometry (fun _ => Fin 1) (Fin 15) (Fin 9) = Some (arrangement (Fin 15) st) /\
  searched demo_geometry (fun _ => Fin 1) (Fin 15) (Fin 9) st /\ search_over st = true.
Proof.
  apply (maxfit2_searches demo_geometry (fun _ => Fin 1) (Fin 15) (Fin 9)).
  apply demo_plausible. intros _. right. reflexivity.
Defined.

Definition demo_fit : page :=
  Page (Review.demo_page Review.demo_stream <| Review.canvasWidth := {[1%Z := Fin 300]} |>) true (VStr "1.00")
    {[1%Z := Fin 1]} {[1%Z := Fin 200]} ∅ "" [] [].

(** Zooming a monitor a hundredfold. *)
Lemma zoom_not_taken_back_witness :
  exists p', zoom Review.demo_cfg (demo_geometry <| monitorPtr := [1%Z] |>) 1 (Fin 100) (Container (Fin 300) (Fin 200)) Review.demo_env demo_fit = Some p' /\
    monitorZoomScale p' !! 1%Z = Some (Fin 100) /\ alerts p' = [] /\ fitMode p' = false /\ canvasHeight p' !! 1%Z = Some (Fin 200).
Proof.
  destruct (zoom_not_taken_back Review.demo_cfg (demo_geometry <| monitorPtr := [1%Z] |>) 1 (Fin 100)
    (Container (Fin 300) (Fin 200)) Review.demo_env demo_fit eq_refl) as (p' & Ez & Zs & Al & [_ M] & C).
  assert (F : fitMode p' = false) by (apply M; vm_compute; reflexivity).
  exists p'. split; [exact Ez|]. split; [rewrite Zs; vm_compute; reflexivity|]. split; [exact Al|]. split; [exact F|].
  rewrite (proj1 (C F)). vm_compute. reflexivity.
Defined.

Lemma streams_cover_canvases_witness :
  exists n, scaled 1 n (Review.updateStreamScales Review.demo_cfg (review demo_fit)) /\ nle (Fin 10) n /\ nle n (Fin 100) /\
    (nle (Fin 100) n \/ exists q, n = Fin q /\ (inject_Z (100 * 300) <= q * inject_Z 640)%Q).
Proof.
  apply (streams_cover_canvases Review.demo_cfg 1 (review demo_fit) Review.demo_stream 300 640); [|reflexivity..|lia|lia].
  apply list_elem_of_here.
Defined.
End Fit.
