(* ===== verification/LogPanel.v ===== *)
(** web/js/table-helpers.js and web/skins/classic/js/logpanel.js: the tables that
    ask the server for their rows.

    A table asks through its ajax function; a request made while the page is
    hidden is remembered and made again when the page is shown, behind the silent
    probe of [AuthHelpers].  The log panel decides which requests go out: a user's
    request replaces the one in flight, a refresh by the clock gives way to it and
    to a selection of rows, and a deletion sends the selected rows away in chunks.

    Of the vendored table (assets/bootstrap-table-1.28.0) the model has what the
    panel relies on: its page numbers, its loading mask, its rows with their marks
    and the order in which its methods call back.  jQuery's requests are the
    in-flight [queries] and [deletes] of a panel; an abort calls the error
    handler at once, as jqXHR.abort does.  A row is its Id: decoding its message,
    the colours and the localised numbers are not modelled. *)
From S2P Require Import JsString AuthHelpers.

(** ** Tables on a hidden page *)

Module Tables.
Section Pending.
Context {table : Type} `{EqDecision table}.

(** Whether the request is skipped, and the tables waiting after. *)
Definition deferTableRequestWhileHidden (hidden : bool) (t : table) (tablesPendingVisibility : list table)
  : bool * list table :=
  if negb hidden then (false, tablesPendingVisibility)
  else (true, if bool_decide (t ∈ tablesPendingVisibility) then tablesPendingVisibility
              else (tablesPendingVisibility ++ [t])%list).

(** The tables to refresh once the credential is fresh, if any, and those left. *)
Definition refreshTablesPendingVisibility (hidden : bool) (tablesPendingVisibility : list table)
  : option (list table) * list table :=
  if hidden then (None, tablesPendingVisibility)
  else match tablesPendingVisibility with
       | [] => (None, [])
       | tables => (Some tables, [])
       end.
End Pending.
End Tables.

Module LogPanel.

Record config := Config {
  lockedComponents : option (list string);
  canEdit : bool;                        (* the button that clears, and the checkboxes *)
  has_autoRefresh : bool;                (* ZM_WEB_REFRESH_LOGS is not 0 *)
}.

(** What .logPanel-status says: the time a request took, or a word. *)
Inductive request_status := InProcess | Stopped | Awaiting | Error | Took (ms : Z) | Blank.
#[export] Instance request_status_eq_dec : EqDecision request_status.
Proof. solve_decision. Defined.

(** The filters of the panel. *)
Record controls := Controls {
  server : string; level : list string; component : list string; start_ : string; end_ : string;
}.

(** The answer to a query; a row is its Id. *)
Record reply := Reply { total : Z; totalNotFiltered : Z; reply_rows : list Z; logstate : string }.

Record header_stats := Header {
  state_text : string; state_class : string; total_text : Z; available : Z; displaying : Z * Z;
}.

Inductive effect :=
| Query (id : nat) (data : list (string * list string))
| Abort (id : nat)
| PostDelete (id : nat) (ids : list Z)
| Alert (text : string)
| CloseAlert.

Record panel := Panel {
  ajax : option (nat * Z);               (* the last query and its readyState *)
  allowRequest : bool; requestMissed : bool;
  autoRefresh : option bool;             (* null until the button is clicked *)
  idsLength : Z; progress : option num;  (* the width of the bar in percent *)
  status : request_status; clear_disabled : bool;
  ctl : controls; hdr : header_stats;
  (* the table *)
  rows : list (Z * bool);                (* those with the mark are selected *)
  pageNumber : Z; pageSize : Z; totalRows : Z; totalPages : option Z;
  loading : bool; autoRefreshStatus : bool;
  (* the network *)
  queries : list nat; deletes : list (nat * list Z);
  next : nat; started : gmap nat (Z * bool);   (* when, and silently *)
  out : list effect;
}.
#[export] Instance eta_panel : Eta panel := fun p =>
  Panel (ajax p) (allowRequest p) (requestMissed p) (autoRefresh p) (idsLength p) (progress p) (status p) (clear_disabled p)
    (ctl p) (hdr p) (rows p) (pageNumber p) (pageSize p) (totalRows p) (totalPages p) (loading p) (autoRefreshStatus p)
    (queries p) (deletes p) (next p) (started p) (out p).

Definition emit (e : effect) (p : panel) : panel := p <| out := (out p ++ [e])%list |>.

(** ** The parts of the table *)

Definition getIdSelections (p : panel) : list Z := map fst (filter (fun r => r.2 = true) (rows p)).
Definition showLoading (p : panel) : panel := p <| loading := true |>.
Definition hideLoading (p : panel) : panel := p <| loading := false |>.

(** The number of pages; it keeps its last value when there are no rows. *)
Definition initPagination (p : panel) : panel :=
  if totalRows p =? 0 then p
  else
    let n := Z.quot (totalRows p - 1) (pageSize p) + 1 in
    let p := p <| totalPages := Some n |> in
    if (0 <? n) && (n <? pageNumber p) then p <| pageNumber := n |> else p.

(** New rows, none of them selected. *)
Definition load (r : reply) (p : panel) : panel :=
  initPagination (p <| totalRows := total r |> <| rows := map (fun i => (i, false)) (reply_rows r) |>).

(** ** The panel alone *)

Section Requests.
Variable cfg : config.

Definition updateRequestStatus (st : request_status) (p : panel) : panel := p <| status := st |>.

Definition in_flight (p : panel) : bool :=
  match ajax p with Some (_, st) => negb (st =? 4) && negb (st =? 0) | None => false end.

Definition updateHeaderStats (r : reply) (p : panel) : panel :=
  let startRow := if 0 <? total r then (pageNumber p - 1) * pageSize p + 1 else 0 in
  let stopRow := if 0 <? total r then Z.min (total r) (pageNumber p * pageSize p) else 0 in
  let newClass :=
    (if String.eqb (logstate r) "ok" then "text-success"
     else if String.eqb (logstate r) "alert" then "text-warning"
     else if String.eqb (logstate r) "alarm" then "text-danger" else "")%string in
  p <| hdr := Header (logstate r) newClass (total r) (totalNotFiltered r) (startRow, stopRow) |>.

(** The error handler of a query. *)
Definition query_error (planned : bool) (p : panel) : panel :=
  let p := if planned then updateRequestStatus Stopped p
           else emit (Alert "ErrorUpdatingLogTable") (updateRequestStatus Error p) in
  hideLoading p.

(** [ajax.abort("plannedAbort")] *)
Definition abort (p : panel) : panel :=
  match ajax p with
  | Some (id, _) =>
      query_error true (emit (Abort id) (p <| ajax := Some (id, 0) |> <| queries := filter (fun i => i <> id) (queries p) |>))
  | None => p
  end.

Definition request_data (p : panel) : list (string * list string) :=
  let c := ctl p in
  ([("offset", [Z_to_string (pageSize p * (pageNumber p - 1))]); ("limit", [Z_to_string (pageSize p)])]
   ++ (if String.eqb (server c) "" then [] else [("ServerId", [server c])])
   ++ match level c with [] => [] | l => [("level", l)] end
   ++ match lockedComponents cfg with
      | Some l => [("Component", l); ("embedded", ["1"])]
      | None => match component c with [] => [] | l => [("Component", l)] end
      end
   ++ (if String.eqb (start_ c) "" then [] else [("StartDateTime", [start_ c])])
   ++ (if String.eqb (end_ c) "" then [] else [("EndDateTime", [end_ c])]))%list.

(** The request goes out. *)
Definition send (now : Z) (silent : bool) (p : panel) : panel :=
  let id := next p in
  let p := updateRequestStatus InProcess p <| allowRequest := false |> <| requestMissed := false |> in
  emit (Query id (request_data p))
    (p <| ajax := Some (id, 1) |> <| queries := (queries p ++ [id])%list |> <| next := S id |>
       <| started := <[id := (now, silent)]> (started p) |>).

(** [ajaxRequest], once the page is known to be shown. *)
Definition decide_request (now : Z) (silent : bool) (p : panel) : panel :=
  if negb (allowRequest p) && bool_decide (autoRefresh p = Some false) then p
  else if negb (bool_decide (getIdSelections p = [])) && negb (allowRequest p) then p <| requestMissed := true |>
  else if in_flight p then
    if allowRequest p then send now silent (showLoading (abort p)) else p
  else send now silent p.

Definition set_clear_button (enable : option bool) (p : panel) : panel :=
  let selected := negb (bool_decide (getIdSelections p = [])) in
  if canEdit cfg then
    if bool_decide (enable = Some false) || negb selected then p <| clear_disabled := true |>
    else p <| clear_disabled := false |>
  else p.

(** [getIdSelections().length] stops the refreshes. *)
Definition hold_for_selection (p : panel) : panel :=
  let p := updateRequestStatus Stopped (p <| allowRequest := false |>) in
  if in_flight p then abort p else p.

Definition progress_at (rest : list Z) (p : panel) : num :=
  ((num_of_Z (idsLength p) - num_of_Z (Z.of_nat (length rest))) / num_of_Z (idsLength p) * Fin 100)%num.

Definition chunk : nat := 100.
(** [deleteLogs]; the alert is made by the first call of a deletion. *)
Definition deleteLogs (log_ids : list Z) (first : bool) (p : panel) : panel :=
  let p := if first then
             emit (Alert "DeletingRowsFromTable") (p <| progress := Some (Fin 0) |> <| idsLength := Z.of_nat (length log_ids) |>)
           else p in
  let id := next p in
  emit (PostDelete id (take chunk log_ids))
    (p <| deletes := (deletes p ++ [(id, drop chunk log_ids)])%list |> <| next := S id |>).

(** [manageAutoRefreshBtn('toggle')], and the table's own switch. *)
Definition toggle_autoRefresh (p : panel) : panel :=
  p <| autoRefresh := Some (negb (default true (autoRefresh p))) |> <| autoRefreshStatus := negb (autoRefreshStatus p) |>.
End Requests.

(** ** The page *)

(** The panels of the page share what the modules of the page share: the list of
    tables waiting, the probe, and the dialog that asks before rows are deleted,
    whose buttons were bound by the panel that first asked for it. *)
Record page := Page {
  panels : list panel;
  tablesPendingVisibility : list nat;
  auth : Auth.state (list nat);
  relay : option string;
  hidden : bool;
  modal : option nat; modal_shown : bool; modal_asked : list nat; confirm_disabled : bool;
  went : list (Auth.effect (list nat));
}.
#[export] Instance eta_page : Eta page := fun s =>
  Page (panels s) (tablesPendingVisibility s) (auth s) (relay s) (hidden s) (modal s) (modal_shown s) (modal_asked s)
    (confirm_disabled s) (went s).

Section Page.
Variable cfg : nat -> config.
Variables thisUrl currentView : string.

Definition on_panel (i : nat) (f : panel -> panel) (s : page) : page := s <| panels := alter f i (panels s) |>.

Definition ajaxRequest (now : Z) (silent : bool) (i : nat) (s : page) : page :=
  let '(skip, pending) := Tables.deferTableRequestWhileHidden (hidden s) i (tablesPendingVisibility s) in
  let s := s <| tablesPendingVisibility := pending |> in
  if skip then on_panel i hideLoading s else on_panel i (decide_request (cfg i) now silent) s.

(** [initServer] and [refresh] of the table. *)
Definition initServer (now : Z) (silent : bool) (i : nat) (s : page) : page :=
  ajaxRequest now silent i (if silent then s else on_panel i showLoading s).
Definition refresh (now : Z) (i : nat) (s : page) : page := initServer now false i s.

Definition manageClearButtonAvailability (now : Z) (enable : option bool) (i : nat) (s : page) : page :=
  let s := on_panel i (set_clear_button (cfg i) enable) s in
  match panels s !! i with
  | None => s
  | Some p =>
      if negb (bool_decide (getIdSelections p = [])) then on_panel i hold_for_selection s
      else
        let s := if bool_decide (status p = Stopped) then on_panel i (updateRequestStatus Awaiting) s else s in
        if requestMissed p then
          let s := refresh now i (on_panel i (fun p => p <| allowRequest := true |>) s) in
          on_panel i (fun p => updateRequestStatus InProcess (showLoading p)) s
        else s
  end.

Definition allow (p : panel) : panel := p <| allowRequest := true |>.

Definition filterLog (now : Z) (i : nat) (s : page) : page :=
  let s := on_panel i allow (manageClearButtonAvailability now (Some false) i s) in
  on_panel i showLoading (refresh now i s).

(** The page-change handler, and the table's change of page around it. *)
Definition page_change (now : Z) (i : nat) (s : page) : page :=
  on_panel i showLoading (on_panel i allow (manageClearButtonAvailability now (Some false) i s)).
Definition updatePagination (now : Z) (i : nat) (s : page) : page :=
  initServer now false i (page_change now i (on_panel i initPagination s)).
Definition selectPage (now : Z) (n : Z) (i : nat) (s : page) : page :=
  match panels s !! i with
  | Some p =>
      if (0 <? n) && match totalPages p with Some k => n <=? k | None => false end
      then updatePagination now i (on_panel i (fun p => p <| pageNumber := n |>) s) else s
  | None => s
  end.

(** The answer of a query. *)
Definition answered (id : nat) (st : Z) (p : panel) : panel :=
  p <| queries := filter (fun k => k <> id) (queries p) |>
    <| ajax := match ajax p with Some (k, old) => Some (k, if (k =? id)%nat then st else old) | None => None end |>.

Definition show_answer (ms : Z) (r : reply) (p : panel) : panel :=
  hideLoading (updateHeaderStats r (updateRequestStatus (Took ms) p)).

Definition query_success (now : Z) (id : nat) (r : reply) (i : nat) (s : page) : page :=
  let asked := default (0, false) (panels s !! i ≫= fun p => started p !! id) in
  let s := on_panel i (fun p => show_answer (now - asked.1) r (answered id 4 p)) s in
  if bool_decide (reply_rows r = []) && (0 <? total r) then selectPage now 1 i s
  else
    let s := on_panel i (load r) s in
    let s := manageClearButtonAvailability now None i s in
    if asked.2 then s else on_panel i hideLoading s.

Definition delete_done (id : nat) (p : panel) : panel := p <| deletes := filter (fun d => d.1 <> id) (deletes p) |>.
Definition delete_success (now : Z) (id : nat) (rest : list Z) (i : nat) (s : page) : page :=
  match rest with
  | [] =>
      let s := on_panel i (fun p => allow (delete_done id p) <| progress := Some (Fin 100) |>) s in
      on_panel i (fun p => emit CloseAlert (updateRequestStatus InProcess p)) (refresh now i s)
  | _ => on_panel i (fun p => deleteLogs rest false (delete_done id p <| progress := Some (progress_at rest p) |>)) s
  end.
Definition delete_error (now : Z) (id : nat) (i : nat) (s : page) : page :=
  let s := refresh now i (on_panel i (fun p => allow (delete_done id p)) s) in
  on_panel i (fun p => emit (Alert "ErrorDeletingRowFromLogTable") (emit CloseAlert (updateRequestStatus Error p))) s.

(** The button that clears, and the dialog. *)
Definition delete_selection (i : nat) (s : page) : page :=
  on_panel i (fun p => deleteLogs (getIdSelections p) true p) s.
Definition clear_click (now : Z) (ctrlKey : bool) (i : nat) (s : page) : page :=
  let s := manageClearButtonAvailability now (Some false) i s in
  if ctrlKey then delete_selection i s
  else match modal s with
       | None => s <| modal_asked := (modal_asked s ++ [i])%list |>
       | Some _ => s <| confirm_disabled := false |> <| modal_shown := true |>
       end.
(** The markup of the dialog arrives for panel [i]; its buttons call [i]. *)
Definition modal_arrives (i : nat) (s : page) : page :=
  s <| modal_asked := filter (fun k => k <> i) (modal_asked s) |> <| modal := Some i |> <| modal_shown := true |>
    <| confirm_disabled := false |>.
Definition modal_failed (now : Z) (i : nat) (s : page) : page :=
  manageClearButtonAvailability now None i (s <| modal_asked := filter (fun k => k <> i) (modal_asked s) |>).
Definition confirm_click (s : page) : page :=
  match modal s with
  | Some i => delete_selection i (s <| modal_shown := false |> <| confirm_disabled := true |>)
  | None => s
  end.
Definition cancel_click (now : Z) (s : page) : page :=
  match modal s with
  | Some i => manageClearButtonAvailability now None i (s <| modal_shown := false |>)
  | None => s
  end.

(** A row is marked or unmarked, or all of them are. *)
Definition mark (now : Z) (k : option nat) (on : bool) (i : nat) (s : page) : page :=
  let set := fun r : Z * bool => (r.1, on) in
  let s := on_panel i (fun p => p <| rows := match k with Some k => alter set k (rows p) | None => map set (rows p) end |>) s in
  manageClearButtonAvailability now None i s.

Definition sort_click (now : Z) (i : nat) (s : page) : page :=
  let s := on_panel i showLoading (on_panel i allow (manageClearButtonAvailability now (Some false) i s)) in
  initServer now true i (on_panel i (fun p => p <| pageNumber := 1 |>) s).

Definition refresh_click (now : Z) (i : nat) (s : page) : page :=
  let s := on_panel i allow (manageClearButtonAvailability now (Some false) i s) in
  on_panel i (fun p => updateRequestStatus InProcess (showLoading p)) (refresh now i s).

(** ** The probe and the visibility of the page *)

Definition run_effect (now : Z) (s : page) (fx : Auth.effect (list nat)) : page :=
  match fx with
  | Auth.Run tables => fold_left (fun s i => refresh now i s) tables s
  | _ => s
  end.
Definition with_auth (now : Z) (r : Auth.state (list nat) * list (Auth.effect (list nat))) (s : page) : page :=
  fold_left (run_effect now) r.2 (s <| auth := r.1 |> <| went := (went s ++ r.2)%list |>).

Definition visibility (now : Z) (hide : bool) (s : page) : page :=
  let s := s <| hidden := hide |> in
  let '(tables, pending) := Tables.refreshTablesPendingVisibility (hidden s) (tablesPendingVisibility s) in
  let s := s <| tablesPendingVisibility := pending |> in
  match tables with
  | Some tables => with_auth now (Auth.whenAuthFresh thisUrl (relay s) tables (auth s)) s
  | None => s
  end.

Inductive event :=
| Tick (i : nat)                         (* the interval of the table's auto refresh *)
| FilterChange (i : nat) (c : controls)
| RefreshClick (i : nat)
| AutoRefreshClick (i : nat)
| SortClick (i : nat)
| GoToPage (i : nat) (n : Z)
| Mark (i : nat) (k : option nat) (on : bool)
| ClearClick (i : nat) (ctrlKey : bool)
| ModalArrives (i : nat) | ModalFailed (i : nat) | ConfirmClick | CancelClick
| QuerySuccess (i : nat) (id : nat) (r : reply) | QueryError (i : nat) (id : nat)
| DeleteSuccess (i : nat) (id : nat) | DeleteError (i : nat) (id : nat)
| Visibility (hide : bool)
| ProbeDone (data : option Auth.auth_data) | ProbeFail (httpStatus : Z).

Definition rest_of (id : nat) (p : panel) : option (list Z) :=
  snd <$> List.find (fun d => (d.1 =? id)%nat) (deletes p).

(** A handler runs when what triggers it can be there: an answer needs a request
    in flight, a click on a row a row, a dialog its markup. *)
Definition step (s : page) (e : Z * event) : page :=
  let '(now, e) := e in
  match e with
  | Tick i =>
      match panels s !! i with
      | Some p => if has_autoRefresh (cfg i) && autoRefreshStatus p then initServer now true i s else s
      | None => s
      end
  | FilterChange i c => filterLog now i (on_panel i (fun p => p <| ctl := c |>) s)
  | RefreshClick i => refresh_click now i s
  | AutoRefreshClick i => if has_autoRefresh (cfg i) then on_panel i toggle_autoRefresh s else s
  | SortClick i => sort_click now i s
  | GoToPage i n => selectPage now n i s
  | Mark i k on => if canEdit (cfg i) then mark now k on i s else s
  | ClearClick i c =>
      match panels s !! i with
      | Some p => if canEdit (cfg i) && negb (clear_disabled p) then clear_click now c i s else s
      | None => s
      end
  | ModalArrives i => if bool_decide (i ∈ modal_asked s) then modal_arrives i s else s
  | ModalFailed i => if bool_decide (i ∈ modal_asked s) then modal_failed now i s else s
  | ConfirmClick => if modal_shown s && negb (confirm_disabled s) then confirm_click s else s
  | CancelClick => if modal_shown s then cancel_click now s else s
  | QuerySuccess i id r =>
      match panels s !! i with
      | Some p => if bool_decide (id ∈ queries p) then query_success now id r i s else s
      | None => s
      end
  | QueryError i id =>
      match panels s !! i with
      | Some p => if bool_decide (id ∈ queries p) then on_panel i (fun p => query_error false (answered id 4 p)) s else s
      | None => s
      end
  | DeleteSuccess i id =>
      match panels s !! i ≫= rest_of id with Some rest => delete_success now id rest i s | None => s end
  | DeleteError i id =>
      match panels s !! i ≫= rest_of id with Some _ => delete_error now id i s | None => s end
  | Visibility h => visibility now h s
  | ProbeDone d => if Auth.authRevalidating (auth s) then with_auth now (Auth.probe_done d (auth s)) s else s
  | ProbeFail st =>
      if Auth.authRevalidating (auth s) then with_auth now (Auth.probe_fail thisUrl currentView st (auth s)) s else s
  end.

Definition run (s : page) (es : list (Z * event)) : page := fold_left step es s.

(** A panel as the page is loaded: the page of the table may come from a cookie. *)
Definition new_panel (page size : Z) : panel :=
  Panel None false false None 0 None Blank true (Controls "" [] [] "" "") (Header "" "" 0 0 (0, 0)) [] page size 0 None
    false true [] [] 0 ∅ [].

(** The panels of the page make their first request. *)
Definition loaded (now : Z) (pages : list (Z * Z)) (rl : option string) (hide : bool) : page :=
  fold_left (fun s i => initServer now false i s) (seq 0 (length pages))
    (Page (map (fun '(n, sz) => new_panel n sz) pages) [] Auth.init rl hide None false [] false []).
End Page.

(** ** A panel *)

Section PanelFacts.
Variable cfg : config.
(** The requests of deletions that are being answered. *)
Variable gone : nat -> Prop.

(** The query in flight, if any, is the last one. *)
Record panel_ok (p : panel) : Prop := {
  po_queries : queries p = match ajax p with Some (id, st) => if st =? 1 then [id] else [] | None => [] end;
  po_state : forall id st, ajax p = Some (id, st) -> st = 0 \/ st = 1 \/ st = 4;
  po_next : Forall (fun d => d.1 < next p)%nat (deletes p);
  po_nodup : NoDup (map fst (deletes p));
}.

(** A request was not put aside for nothing. *)
Definition settled (p : panel) : Prop :=
  in_flight p = true \/ (getIdSelections p <> [] /\ requestMissed p = true) \/ autoRefresh p = Some false.

(** Deletions under way go on. *)
Definition tame (p p' : panel) : Prop :=
  (forall d, d ∈ deletes p -> ~ gone d.1 -> d ∈ deletes p') /\ (next p <= next p')%nat /\ out p ⊆ out p'.

Lemma tame_eq p p' : deletes p' = deletes p -> (next p <= next p')%nat -> out p ⊆ out p' -> tame p p'.
Proof. intros E H O. split; [rewrite E; auto|split; [exact H|exact O]]. Qed.
Lemma tame_refl p : tame p p.
Proof. apply tame_eq; [reflexivity|lia|reflexivity]. Qed.
Lemma tame_trans p q r : tame p q -> tame q r -> tame p r.
Proof. intros (A & B & O) (C & D & P). split; [auto|split; [lia|etransitivity; eassumption]]. Qed.

Lemma out_more (xs ys : list effect) : xs ⊆ (xs ++ ys)%list.
Proof. intros e He. apply elem_of_app. left. exact He. Qed.

(** Changes that leave the requests alone. *)
Record quiet (p p' : panel) : Prop := {
  qt_ajax : ajax p' = ajax p; qt_queries : queries p' = queries p; qt_deletes : deletes p' = deletes p;
  qt_next : next p' = next p; qt_allow : allowRequest p' = allowRequest p;
  qt_out : out p ⊆ out p';
}.
Lemma quiet_ok p p' : quiet p p' -> panel_ok p -> panel_ok p'.
Proof. intros [A B C D _ _] [E F G H]. split; rewrite ?A, ?B, ?C, ?D; assumption. Qed.
Lemma quiet_tame p p' : quiet p p' -> tame p p'.
Proof. intros [_ _ C D _ O]. apply tame_eq; [exact C|rewrite D; lia|exact O]. Qed.

Lemma status_quiet st p : quiet p (updateRequestStatus st p).
Proof. destruct p. split; reflexivity. Qed.
Lemma showLoading_quiet p : quiet p (showLoading p).
Proof. destruct p. split; reflexivity. Qed.
Lemma hideLoading_quiet p : quiet p (hideLoading p).
Proof. destruct p. split; reflexivity. Qed.
Lemma emit_quiet e p : quiet p (emit e p).
Proof. destruct p. split; try reflexivity. apply out_more. Qed.
Lemma pagination_quiet p : quiet p (initPagination p).
Proof. unfold initPagination. destruct p; cbn. repeat break_match; split; reflexivity. Qed.
Lemma clear_quiet en p : quiet p (set_clear_button cfg en p).
Proof. unfold set_clear_button. destruct p; cbn. repeat break_match; split; reflexivity. Qed.
Lemma header_quiet r p : quiet p (updateHeaderStats r p).
Proof. destruct p. split; reflexivity. Qed.
Lemma quiet_trans p q r : quiet p q -> quiet q r -> quiet p r.
Proof. intros [A B C D E O] [F G H I J P]. split; try congruence. etransitivity; eassumption. Qed.
Lemma query_error_quiet b p : quiet p (query_error b p).
Proof.
  unfold query_error. eapply quiet_trans; [|apply hideLoading_quiet]. destruct b; [apply status_quiet|].
  eapply quiet_trans; [apply status_quiet|apply emit_quiet].
Qed.
Lemma load_quiet r p : quiet p (load r p).
Proof. unfold load. eapply quiet_trans; [|apply pagination_quiet]. destruct p. split; reflexivity. Qed.
Lemma toggle_quiet p : quiet p (toggle_autoRefresh p).
Proof. destruct p. split; reflexivity. Qed.

Lemma quiet_settled p p' : quiet p p' -> getIdSelections p' = getIdSelections p -> requestMissed p' = requestMissed p ->
  autoRefresh p' = autoRefresh p -> settled p -> settled p'.
Proof. intros [A _ _ _ _ _] B C D. unfold settled, in_flight. rewrite A, B, C, D. tauto. Qed.

Lemma allow_ok p : panel_ok p -> panel_ok (allow p).
Proof. intros [Q S N D]. destruct p. split; [exact Q|exact S|exact N|exact D]. Qed.
Lemma progress_quiet v p : quiet p (p <| progress := v |>).
Proof. destruct p. split; reflexivity. Qed.

Lemma flight_off p : panel_ok p -> in_flight p = false -> queries p = [].
Proof.
  intros [Q S _ _]. unfold in_flight. rewrite Q. destruct (ajax p) as [[id st]|]; [|reflexivity].
  destruct (S id st eq_refl) as [->|[->| ->]]; reflexivity || discriminate.
Qed.
Lemma flight_on p : panel_ok p -> in_flight p = true -> exists id, ajax p = Some (id, 1) /\ queries p = [id].
Proof.
  intros [Q S _ _]. unfold in_flight. rewrite Q. destruct (ajax p) as [[id st]|]; [|discriminate].
  destruct (S id st eq_refl) as [->|[->| ->]]; try discriminate. intros _. exists id. split; reflexivity.
Qed.

Lemma filter_self (id : nat) : filter (fun i => i <> id) [id] = [].
Proof. apply filter_none. intros k Hk. apply list_elem_of_singleton in Hk as ->. tauto. Qed.

Lemma abort_ok p : panel_ok p -> in_flight p = true ->
  panel_ok (abort p) /\ queries (abort p) = [] /\ tame p (abort p) /\ allowRequest (abort p) = allowRequest p /\ in_flight (abort p) = false.
Proof.
  intros Hp Hf. destruct (flight_on p Hp Hf) as (id & Ea & Eq). destruct Hp as [Q S N D]. unfold abort. rewrite Ea, Eq, filter_self.
  clear Q S Hf Ea Eq. destruct p; cbn in *. unfold upd; cbn.
  split; [|split; [reflexivity|split; [apply tame_eq; [reflexivity|exact (le_n _)|first [reflexivity|apply out_more]]|split; reflexivity]]].
  split; cbn; [reflexivity| |exact N|exact D]. intros ? ? [= <- <-]. tauto.
Qed.

Lemma send_ok now silent p : panel_ok p -> queries p = [] ->
  let p' := send cfg now silent p in
  panel_ok p' /\ tame p p' /\ allowRequest p' = false /\ in_flight p' = true /\ requestMissed p' = false.
Proof.
  intros [Q S N D] E p'.
  assert (F : ajax p' = Some (next p, 1) /\ queries p' = (queries p ++ [next p])%list /\ deletes p' = deletes p /\ next p' = Datatypes.S (next p)
              /\ allowRequest p' = false /\ requestMissed p' = false /\ out p ⊆ out p') by (subst p'; destruct p; repeat (split; [reflexivity|]); apply out_more).
  clearbody p'. destruct F as (Fa & Fq & Fd & Fn & Fl & Fm & Fo). split; [|split; [|split; [exact Fl|split; [|exact Fm]]]].
  - split; rewrite ?Fa, ?Fq, ?Fd, ?Fn, ?E; [reflexivity| | |exact D].
    + intros ? ? [= <- <-]. tauto.
    + eapply Forall_impl; [exact N|]. cbn. lia.
  - apply tame_eq; [exact Fd|rewrite Fn; lia|exact Fo].
  - unfold in_flight. rewrite Fa. reflexivity.
Qed.

(** The decision: a request goes out, or there is a reason for it not to. *)
Lemma decide_ok now silent p : panel_ok p ->
  let p' := decide_request cfg now silent p in
  panel_ok p' /\ tame p p' /\ allowRequest p' = false /\ settled p'.
Proof.
  intros Hp. unfold decide_request. destruct (allowRequest p) eqn:A; cbn [negb andb].
  - rewrite andb_false_r. destruct (in_flight p) eqn:F.
    + destruct (abort_ok p Hp F) as (Ha & Qa & Ta & _).
      pose proof (showLoading_quiet (abort p)) as Sq.
      destruct (send_ok now silent (showLoading (abort p)) (quiet_ok _ _ Sq Ha)) as (H1 & H2 & H3 & H4 & _).
      { rewrite (qt_queries _ _ Sq). exact Qa. }
      split; [exact H1|]. split; [|split; [exact H3|left; exact H4]].
      eapply tame_trans; [exact Ta|]. eapply tame_trans; [apply quiet_tame, Sq|exact H2].
    + destruct (send_ok now silent p Hp (flight_off p Hp F)) as (H1 & H2 & H3 & H4 & _).
      split; [exact H1|]. split; [exact H2|]. split; [exact H3|left; exact H4].
  - case_bool_decide as R; cbn [andb].
    { split; [exact Hp|]. split; [apply tame_refl|]. split; [exact A|]. right; right. exact R. }
    rewrite andb_true_r. case_bool_decide as Sel; cbn [negb].
    + destruct (in_flight p) eqn:F.
      * split; [exact Hp|]. split; [apply tame_refl|]. split; [exact A|left; exact F].
      * destruct (send_ok now silent p Hp (flight_off p Hp F)) as (H1 & H2 & H3 & H4 & _).
        split; [exact H1|]. split; [exact H2|]. split; [exact H3|left; exact H4].
    + assert (Q : quiet p (p <| requestMissed := true |>)) by (destruct p; split; reflexivity).
      split; [apply (quiet_ok _ _ Q Hp)|]. split; [apply quiet_tame, Q|]. split; [rewrite (qt_allow _ _ Q); exact A|].
      right; left. split; [destruct p; exact Sel|destruct p; reflexivity].
Qed.

Lemma hold_ok p : panel_ok p -> panel_ok (hold_for_selection p) /\ tame p (hold_for_selection p) /\
  allowRequest (hold_for_selection p) = false /\ queries (hold_for_selection p) = [].
Proof.
  intros Hp. unfold hold_for_selection.
  set (q := updateRequestStatus Stopped (p <| allowRequest := false |>)).
  assert (Q : panel_ok q /\ tame p q /\ allowRequest q = false).
  { subst q. destruct p, Hp. cbn in *. split; [split; assumption|]. split; [apply tame_eq; [reflexivity|exact (le_n _)|first [reflexivity|apply out_more]]|reflexivity]. }
  clearbody q. destruct Q as (Q & T & A). destruct (in_flight q) eqn:F; cbv zeta.
  - destruct (abort_ok q Q F) as (H1 & H2 & H3 & H4 & _). split; [exact H1|].
    split; [eapply tame_trans; [exact T|exact H3]|]. split; [congruence|exact H2].
  - split; [exact Q|]. split; [exact T|]. split; [exact A|apply (flight_off _ Q F)].
Qed.

Lemma answered_ok id p : panel_ok p -> id ∈ queries p ->
  panel_ok (answered id 4 p) /\ tame p (answered id 4 p) /\ allowRequest (answered id 4 p) = allowRequest p.
Proof.
  intros [Q S N D] Hi. rewrite Q in Hi. destruct (ajax p) as [[k st]|] eqn:E; [|inversion Hi].
  destruct (st =? 1) eqn:E1; [|inversion Hi]. apply list_elem_of_singleton in Hi as ->.
  assert (Eq : queries p = [k]) by (rewrite Q; reflexivity). unfold answered. rewrite E, Eq, filter_self, Nat.eqb_refl.
  clear Q S E E1 Eq. destruct p; cbn in *. unfold upd; cbn.
  split; [split; cbn; [reflexivity| |exact N|exact D]|split; [apply tame_eq; [reflexivity|exact (le_n _)|first [reflexivity|apply out_more]]|reflexivity]].
  intros ? ? [= <- <-]. tauto.
Qed.
End PanelFacts.

(** ** The page *)

Section PageFacts.
Variable cfg : nat -> config.
Variables thisUrl currentView : string.
(** The requests of deletions that are being answered, by panel. *)
Variable gone : nat -> nat -> Prop.

(** A table is to be refreshed later: it waits for the page to be shown or for the
    probe, or the page is going to the login. *)
Definition deferred (i : nat) (s : page) : Prop :=
  i ∈ tablesPendingVisibility s \/ i ∈ concat (Auth.authPendingCallbacks (auth s)) \/ Auth.authGoingToLogin (auth s) = true.

(** Every panel is well, and one that allows itself a request is deferred, but
    for those in [X], whose request is being made. *)
Definition inv_but (X : list nat) (s : page) : Prop :=
  (hidden s = false -> tablesPendingVisibility s = []) /\
  forall i p, panels s !! i = Some p -> panel_ok p /\ (i ∉ X -> allowRequest p = true -> deferred i s).

Record grows (s s' : page) : Prop := {
  gr_pending i : i ∈ tablesPendingVisibility s -> i ∈ tablesPendingVisibility s';
  gr_auth : auth s' = auth s;
  gr_hidden : hidden s' = hidden s;
  gr_relay : relay s' = relay s;
  gr_panels i p : panels s !! i = Some p -> exists p', panels s' !! i = Some p' /\ tame (gone i) p p';
}.

Lemma grows_refl s : grows s s.
Proof. split; try reflexivity; [auto|]. intros i p H. exists p. split; [exact H|apply tame_refl]. Qed.
Lemma grows_trans s t u : grows s t -> grows t u -> grows s u.
Proof.
  intros [A B C D E] [F G H I J]. split; try congruence; [auto|].
  intros i p Hp. destruct (E i p Hp) as (q & Hq & Tq). destruct (J i q Hq) as (r & Hr & Tr).
  exists r. split; [exact Hr|eapply tame_trans; eassumption].
Qed.

Lemma grows_deferred s s' i : grows s s' -> deferred i s -> deferred i s'.
Proof. intros [A B _ _ _] [H|H]; [left; auto|right; rewrite B; exact H]. Qed.

(** A part of a handler: it takes pages that are well but for [X] to ones that are
    well but for [Y]. *)
Definition moves (X Y : list nat) (s s' : page) : Prop := inv_but X s -> inv_but Y s' /\ grows s s'.

Lemma moves_trans X Y Z s t u : moves X Y s t -> moves Y Z t u -> moves X Z s u.
Proof. intros A B H. destruct (A H) as [H' G]. destruct (B H') as [H2 G2]. split; [exact H2|eapply grows_trans; eassumption]. Qed.
Lemma moves_refl X s : moves X X s s.
Proof. intros H. split; [exact H|apply grows_refl]. Qed.
Lemma inv_weaken X Y s : (forall i, i ∈ X -> i ∈ Y) -> inv_but X s -> inv_but Y s.
Proof. intros HX [V H]. split; [exact V|]. intros i p Hp. destruct (H i p Hp) as [Ho Ha]. split; [exact Ho|]. intros Hi. apply Ha. auto. Qed.
Lemma moves_weaken X Y X' s s' : (forall i, i ∈ X -> i ∈ X') -> moves X' Y s s' -> moves X Y s s'.
Proof. intros HX M H. apply M, (inv_weaken X _ _ HX H). Qed.

Lemma on_panel_lookup i f s j : panels (on_panel i f s) !! j = if decide (i = j) then f <$> panels s !! j else panels s !! j.
Proof. unfold on_panel, upd. cbn. rewrite list_lookup_alter. destruct (decide (i = j)) as [->|]; reflexivity. Qed.
Lemma on_panel_same i f s : tablesPendingVisibility (on_panel i f s) = tablesPendingVisibility s /\ auth (on_panel i f s) = auth s /\
  hidden (on_panel i f s) = hidden s /\ relay (on_panel i f s) = relay s.
Proof. destruct s. repeat split. Qed.
Lemma on_panel_deferred i f s j : deferred j (on_panel i f s) <-> deferred j s.
Proof. unfold deferred. destruct (on_panel_same i f s) as (-> & -> & _). reflexivity. Qed.

Lemma on_panel_moves X Y i f s :
  (forall p, panels s !! i = Some p -> panel_ok p ->
     panel_ok (f p) /\ tame (gone i) p (f p) /\ (i ∉ Y -> allowRequest (f p) = true -> allowRequest p = true /\ i ∉ X)) ->
  (forall j, j <> i -> j ∉ Y -> j ∉ X) -> moves X Y s (on_panel i f s).
Proof.
  intros Hf HXY [V H]. destruct (on_panel_same i f s) as (P & A & D & R). split; [split; [rewrite P, D; exact V|]|].
  - intros j p. rewrite on_panel_lookup. destruct (decide (i = j)) as [<-|Hne].
    + destruct (panels s !! i) as [q|] eqn:E; [|discriminate]. intros [= <-]. destruct (H i q E) as [Ho Ha].
      destruct (Hf q eq_refl Ho) as (H1 & H2 & H3). split; [exact H1|]. intros HY Hp. destruct (H3 HY Hp) as [Hq HX].
      apply on_panel_deferred, Ha; assumption.
    + intros Hp. destruct (H j p Hp) as [Ho Ha]. split; [exact Ho|]. intros HY Hq.
      apply on_panel_deferred, Ha; [apply HXY; congruence|exact Hq].
  - split; rewrite ?P; auto. intros j p Hp. rewrite on_panel_lookup. destruct (decide (i = j)) as [<-|Hne].
    + rewrite Hp. exists (f p). split; [reflexivity|]. apply Hf; [exact Hp|apply (H i p Hp)].
    + exists p. split; [exact Hp|apply tame_refl].
Qed.

Lemma quiet_moves X i f s : (forall p, quiet p (f p)) -> moves X X s (on_panel i f s).
Proof.
  intros Q. apply on_panel_moves; [|auto]. intros p _ Hp. specialize (Q p).
  split; [apply (quiet_ok _ _ Q Hp)|]. split; [apply quiet_tame, Q|]. rewrite (qt_allow _ _ Q). tauto.
Qed.

Lemma allow_moves X i s : moves X (i :: X) s (on_panel i allow s).
Proof.
  apply on_panel_moves.
  - intros p _ [Q S N D]. destruct p; cbn in *. split; [split; assumption|]. split; [apply tame_eq; [reflexivity|exact (le_n _)|reflexivity]|].
    intros Hn. exfalso. apply Hn, list_elem_of_here.
  - intros j _ Hn Hj. apply Hn, list_elem_of_further, Hj.
Qed.

(** The request that was allowed is made, or put aside. *)
Lemma ajax_moves X now silent i s : moves (i :: X) X s (ajaxRequest cfg now silent i s).
Proof.
  unfold ajaxRequest, Tables.deferTableRequestWhileHidden. destruct (hidden s) eqn:Hd; cbn [negb].
  - set (pend := if bool_decide _ then _ else _).
    assert (Pi : i ∈ pend /\ forall j, j ∈ tablesPendingVisibility s -> j ∈ pend).
    { subst pend. case_bool_decide; [split; auto|]. split; [apply elem_of_app; right; apply list_elem_of_here|].
      intros j Hj. apply elem_of_app. left. exact Hj. }
    clearbody pend. destruct Pi as [Pi Pj].
    assert (M : moves (i :: X) X s (s <| tablesPendingVisibility := pend |>)).
    { intros [V H]. split; [split; [intros E; exfalso; assert (hidden s = false) by (destruct s; exact E); congruence|]|].
      - intros j p Hp. destruct (H j p) as [Ho Ha]; [destruct s; exact Hp|]. split; [exact Ho|]. intros HX Hq.
        destruct (decide (j = i)) as [->|Hne]; [left; destruct s; exact Pi|].
        destruct (Ha ltac:(intros Hj; apply elem_of_cons in Hj as [Hj|Hj]; [congruence|contradiction]) Hq) as [Hj|Hj].
        + left. destruct s; cbn in *. auto.
        + right. destruct s; exact Hj.
      - split; try (destruct s; reflexivity); [destruct s; exact Pj|]. intros j p Hp. exists p. split; [destruct s; exact Hp|apply tame_refl]. }
    eapply moves_trans; [exact M|]. apply quiet_moves. intros p. apply hideLoading_quiet.
  - set (t := s <| tablesPendingVisibility := tablesPendingVisibility s |>). assert (t = s) as -> by (destruct s; reflexivity).
    apply on_panel_moves.
    + intros p _ Hp. destruct (decide_ok (cfg i) (gone i) now silent p Hp) as (H1 & H2 & H3 & _).
      split; [exact H1|]. split; [exact H2|]. congruence.
    + intros j Hj HX Hi. apply elem_of_cons in Hi as [Hi|Hi]; [congruence|contradiction].
Qed.

Lemma init_moves X now silent i s : moves (i :: X) X s (initServer cfg now silent i s).
Proof.
  unfold initServer. destruct silent; [apply ajax_moves|]. eapply moves_trans; [|apply ajax_moves].
  apply quiet_moves. intros p. apply showLoading_quiet.
Qed.
Lemma refresh_moves now silent i s : moves [] [] s (initServer cfg now silent i s).
Proof. apply (moves_weaken _ _ [i]); [intros j Hj; inversion Hj|apply init_moves]. Qed.

Lemma clear_moves now en i s : moves [] [] s (manageClearButtonAvailability cfg now en i s).
Proof.
  unfold manageClearButtonAvailability. set (t := on_panel i (set_clear_button _ _) s).
  assert (T : moves [] [] s t) by (apply quiet_moves; intros p; apply clear_quiet). clearbody t.
  eapply moves_trans; [exact T|]. destruct (panels t !! i) as [p|]; [|apply moves_refl].
  case_bool_decide as Sel; cbn [negb].
  - set (u := if bool_decide _ then _ else _).
    assert (U : moves [] [] t u). { subst u. case_bool_decide; [apply quiet_moves; intros q; apply status_quiet|apply moves_refl]. }
    clearbody u. eapply moves_trans; [exact U|]. destruct (requestMissed p); [|apply moves_refl].
    eapply moves_trans; [apply (allow_moves [] i)|]. eapply moves_trans; [apply init_moves|].
    apply quiet_moves. intros q. eapply quiet_trans; [apply showLoading_quiet|apply status_quiet].
  - apply on_panel_moves; [|auto]. intros q _ Hq. destruct (hold_ok (gone i) q Hq) as (H1 & H2 & H3 & _).
    split; [exact H1|]. split; [exact H2|]. congruence.
Qed.

(** Handlers: they leave a page well, and the deletions under way. *)
Lemma quiet_after X s i t : moves X X s t -> forall f, (forall p, quiet p (f p)) -> moves X X s (on_panel i f t).
Proof. intros M f Q. eapply moves_trans; [exact M|apply quiet_moves, Q]. Qed.

Lemma allowed_moves now en i s : moves [] [i] s (on_panel i allow (manageClearButtonAvailability cfg now en i s)).
Proof. eapply moves_trans; [apply clear_moves|apply (allow_moves [] i)]. Qed.

Lemma show_moves X i s : moves X X s (on_panel i showLoading s).
Proof. apply quiet_moves. intros p. apply showLoading_quiet. Qed.

Lemma filter_moves now i s : moves [] [] s (filterLog cfg now i s).
Proof.
  unfold filterLog. eapply moves_trans; [apply allowed_moves|]. eapply moves_trans; [apply init_moves|apply show_moves].
Qed.

Lemma pagination_moves now i s : moves [] [] s (updatePagination cfg now i s).
Proof.
  unfold updatePagination, page_change. eapply moves_trans; [apply quiet_moves; intros p; apply pagination_quiet|].
  eapply moves_trans; [apply allowed_moves|]. eapply moves_trans; [apply show_moves|]. apply init_moves.
Qed.

Lemma set_page_moves X n i s : moves X X s (on_panel i (fun p => p <| pageNumber := n |>) s).
Proof. apply quiet_moves. intros p. destruct p. split; reflexivity. Qed.

Lemma select_moves now n i s : moves [] [] s (selectPage cfg now n i s).
Proof.
  unfold selectPage. destruct (panels s !! i) as [p|]; [|apply moves_refl]. destruct (_ && _); [|apply moves_refl].
  eapply moves_trans; [apply set_page_moves|apply pagination_moves].
Qed.

Lemma answered_moves i id s f : (exists p, panels s !! i = Some p /\ id ∈ queries p) -> (forall p, quiet p (f p)) ->
  moves [] [] s (on_panel i (fun p => f (answered id 4 p)) s).
Proof.
  intros (p0 & Hp & Hi) Q. apply on_panel_moves; [|auto]. intros p E Hok. rewrite Hp in E. injection E as ->.
  destruct (answered_ok (gone i) id p Hok Hi) as (H1 & H2 & H3). specialize (Q (answered id 4 p)).
  split; [apply (quiet_ok _ _ Q H1)|]. split; [eapply tame_trans; [exact H2|apply quiet_tame, Q]|].
  rewrite (qt_allow _ _ Q), H3. split; [assumption|]. intros Hn. inversion Hn.
Qed.

Lemma answer_quiet ms r p : quiet p (show_answer ms r p).
Proof.
  unfold show_answer. eapply quiet_trans; [apply status_quiet|]. eapply quiet_trans; [apply header_quiet|apply hideLoading_quiet].
Qed.

Lemma success_moves now id r i s : (exists p, panels s !! i = Some p /\ id ∈ queries p) ->
  moves [] [] s (query_success cfg now id r i s).
Proof.
  intros Hp. unfold query_success. set (asked := default _ _).
  eapply moves_trans.
  { apply (answered_moves i id s (show_answer (now - asked.1) r) Hp). intros p. apply answer_quiet. }
  set (t := on_panel _ _ _). clearbody t. destruct (_ && _); [apply select_moves|].
  eapply moves_trans; [apply quiet_moves; intros p; apply (load_quiet r)|].
  eapply moves_trans; [apply clear_moves|]. destruct asked.2; [apply moves_refl|].
  apply quiet_moves. intros p. apply hideLoading_quiet.
Qed.

Lemma mark_moves now k on i s : moves [] [] s (mark cfg now k on i s).
Proof.
  unfold mark. eapply moves_trans; [|apply clear_moves]. apply quiet_moves. intros p. destruct p. split; reflexivity.
Qed.

Lemma sort_moves now i s : moves [] [] s (sort_click cfg now i s).
Proof.
  unfold sort_click. eapply moves_trans; [apply allowed_moves|]. eapply moves_trans; [apply show_moves|].
  eapply moves_trans; [apply set_page_moves|apply init_moves].
Qed.

Lemma refresh_click_moves now i s : moves [] [] s (refresh_click cfg now i s).
Proof.
  unfold refresh_click. eapply moves_trans; [apply allowed_moves|]. eapply moves_trans; [apply init_moves|].
  apply quiet_moves. intros p. eapply quiet_trans; [apply showLoading_quiet|apply status_quiet].
Qed.

(** What happens to the dialog happens to no panel. *)
Lemma same_moves X s s' : panels s' = panels s -> tablesPendingVisibility s' = tablesPendingVisibility s -> auth s' = auth s ->
  hidden s' = hidden s -> relay s' = relay s -> moves X X s s'.
Proof.
  intros A B C D E [V H]. split; [split; [rewrite B, D; exact V|]|].
  - intros i p. rewrite A. intros Hp. destruct (H i p Hp) as [Ho Ha]. split; [exact Ho|]. unfold deferred. rewrite B, C. exact Ha.
  - split; try assumption; [rewrite B; auto|]. intros i p Hp. rewrite A. exists p. split; [exact Hp|apply tame_refl].
Qed.

(** ** Deletions *)

Lemma deleteLogs_fields ids first p : let p' := deleteLogs ids first p in
  deletes p' = (deletes p ++ [(next p, drop chunk ids)])%list /\ next p' = S (next p) /\ queries p' = queries p /\ ajax p' = ajax p /\
  allowRequest p' = allowRequest p /\ rows p' = rows p /\
  out p' = (out p ++ (if first then [Alert "DeletingRowsFromTable"] else []) ++ [PostDelete (next p) (take chunk ids)])%list.
Proof.
  unfold deleteLogs. generalize (take chunk ids) (drop chunk ids) (Z.of_nat (length ids)). intros c d n. cbv zeta.
  assert (O : forall q e, out (emit e q) = (out q ++ [e])%list) by (intros []; reflexivity).
  repeat (split; [destruct p, first; reflexivity|]). rewrite O. destruct first; [|destruct p; reflexivity].
  rewrite (app_assoc (out p) [_] [_]). destruct p. reflexivity.
Qed.

Lemma deleteLogs_ok G ids first p : panel_ok p ->
  panel_ok (deleteLogs ids first p) /\ tame G p (deleteLogs ids first p) /\ allowRequest (deleteLogs ids first p) = allowRequest p.
Proof.
  intros [Q St N D]. destruct (deleteLogs_fields ids first p) as (Fd & Fn & Fq & Fa & Fl & _ & Fo). cbv zeta in *.
  split; [|split; [|exact Fl]].
  - split; rewrite ?Fd, ?Fn, ?Fq, ?Fa; [exact Q|exact St| |].
    + apply Forall_app. split; [eapply Forall_impl; [exact N|]; cbn; lia|constructor; [cbn; lia|constructor]].
    + rewrite map_app. apply NoDup_app. split; [exact D|]. split; [|apply NoDup_singleton].
      intros k Hk Hn. apply list_elem_of_singleton in Hn as ->. apply list_elem_of_fmap in Hk as (d & E & Hd).
      rewrite Forall_forall in N. specialize (N d Hd). cbn in E. lia.
  - split; [|split]; rewrite ?Fd, ?Fn, ?Fo; [|lia|apply out_more]. intros d Hd _. apply elem_of_app. left. exact Hd.
Qed.

Lemma done_ok G id p : G id -> panel_ok p -> panel_ok (delete_done id p) /\ tame G p (delete_done id p) /\
  allowRequest (delete_done id p) = allowRequest p.
Proof.
  intros Hg [Q St N D].
  assert (F : queries (delete_done id p) = queries p /\ ajax (delete_done id p) = ajax p /\ next (delete_done id p) = next p /\
    allowRequest (delete_done id p) = allowRequest p /\ deletes (delete_done id p) = filter (fun d => d.1 <> id) (deletes p) /\ out (delete_done id p) = out p).
  { destruct p. repeat split. }
  destruct F as (Fq & Fa & Fn & Fl & Fd & Fo). split; [|split; [|exact Fl]].
  - split; rewrite ?Fq, ?Fa, ?Fn, ?Fd; [exact Q|exact St| |].
    + rewrite Forall_forall in *. intros d Hd. apply list_elem_of_filter in Hd as [_ Hd]. auto.
    + clear -D. induction (deletes p) as [|d ds IH]; [constructor|]. inversion D as [|? ? Hn D']; subst. rewrite filter_cons.
      destruct (decide _); [|auto]. cbn. constructor; [|auto]. intros H. apply Hn.
      apply list_elem_of_fmap in H as (e & E & He). apply list_elem_of_filter in He as [_ He]. rewrite E. apply list_elem_of_fmap. eauto.
  - split; [|split]; rewrite ?Fd, ?Fn, ?Fo; [|lia|reflexivity]. intros d Hd Hn. apply list_elem_of_filter. split; [|exact Hd]. intros <-. contradiction.
Qed.

Lemma delete_selection_moves X i s : moves X X s (delete_selection i s).
Proof.
  unfold delete_selection. apply on_panel_moves; [|auto]. intros p _ Hp.
  destruct (deleteLogs_ok (gone i) (getIdSelections p) true p Hp) as (H1 & H2 & H3). split; [exact H1|]. split; [exact H2|].
  rewrite H3. tauto.
Qed.

Lemma delete_success_moves now id rest i s : gone i id -> moves [] [] s (delete_success cfg now id rest i s).
Proof.
  intros Hg. unfold delete_success. destruct rest as [|r rest].
  - eapply moves_trans; [|apply quiet_moves; intros p; eapply quiet_trans; [apply status_quiet|apply emit_quiet]].
    eapply moves_trans; [|apply init_moves].
    apply (on_panel_moves [] [i]); [|intros j _ _ Hj; inversion Hj]. intros p _ Hp.
    destruct (done_ok (gone i) id p Hg Hp) as (H1 & H2 & H3).
    set (q := delete_done id p) in *. clearbody q. pose proof (progress_quiet (Some (Fin 100)) (allow q)) as Qp.
    split; [apply (quiet_ok _ _ Qp), allow_ok, H1|].
    split; [eapply tame_trans; [exact H2|]; eapply tame_trans; [|apply quiet_tame, Qp]; apply tame_eq; [destruct q; reflexivity|destruct q; exact (le_n _)|destruct q; reflexivity]|].
    intros Hn. exfalso. apply Hn, list_elem_of_here.
  - apply on_panel_moves; [|auto]. intros p _ Hp. destruct (done_ok (gone i) id p Hg Hp) as (H1 & H2 & H3).
    set (q := delete_done id p <| progress := Some (progress_at (r :: rest) p) |>).
    assert (Q : quiet (delete_done id p) q) by (subst q; destruct p; split; reflexivity). clearbody q.
    destruct (deleteLogs_ok (gone i) (r :: rest) false q (quiet_ok _ _ Q H1)) as (D1 & D2 & D3).
    split; [exact D1|]. split; [eapply tame_trans; [exact H2|]; eapply tame_trans; [apply quiet_tame, Q|exact D2]|].
    rewrite D3, (qt_allow _ _ Q), H3. tauto.
Qed.

Lemma delete_error_moves now id i s : gone i id -> moves [] [] s (delete_error cfg now id i s).
Proof.
  intros Hg. unfold delete_error. eapply moves_trans; [|apply quiet_moves; intros p;
    eapply quiet_trans; [apply status_quiet|]; eapply quiet_trans; apply emit_quiet].
  eapply moves_trans; [|apply init_moves].
  apply (on_panel_moves [] [i]); [|intros j _ _ Hj; inversion Hj]. intros p _ Hp.
  destruct (done_ok (gone i) id p Hg Hp) as (H1 & H2 & H3). set (q := delete_done id p) in *. clearbody q.
  split; [apply allow_ok, H1|].
  split; [eapply tame_trans; [exact H2|]; apply tame_eq; [destruct q; reflexivity|destruct q; exact (le_n _)|destruct q; reflexivity]|].
  intros Hn. exfalso. apply Hn, list_elem_of_here.
Qed.

(** ** Deferred tables *)

(** The tables a list of effects refreshes. *)
Definition run_tables (fx : list (Auth.effect (list nat))) : list nat := concat (flat_map Auth.ran fx).

(** A table's request was dealt with: it went out, or there is a reason, or it is
    still to be made. *)
Definition handled (i : nat) (s : page) : Prop :=
  (exists p, panels s !! i = Some p /\ settled p) \/ deferred i s.

Lemma refresh_handled X now silent i j s : inv_but X s -> is_Some (panels s !! i) -> i = j \/ handled i s ->
  handled i (initServer cfg now silent j s).
Proof.
  intros Hinv [p Hp] Hh. unfold initServer. set (t := if silent then s else _).
  assert (T : moves X X s t) by (subst t; destruct silent; [apply moves_refl|apply show_moves]).
  assert (P : exists q, panels t !! i = Some q /\ (settled p -> settled q)).
  { subst t. destruct silent; [exists p; auto|]. rewrite on_panel_lookup. destruct (decide (j = i)) as [->|].
    - rewrite Hp. exists (showLoading p). split; [reflexivity|]. apply (quiet_settled p); try (destruct p; reflexivity). apply showLoading_quiet.
    - exists p. auto. }
  destruct (T Hinv) as [Tinv Tg]. clearbody t. destruct P as (q & Hq & Sq).
  assert (Ht : i = j \/ settled q \/ deferred i t).
  { destruct Hh as [Hh|[(r & Hr & Sr)|Hh]]; [left; exact Hh| |right; right; apply (grows_deferred _ _ _ Tg), Hh].
    rewrite Hp in Hr. injection Hr as <-. right; left. auto. }
  destruct (ajax_moves (X ++ [j]) now silent j t) as [_ G].
  { apply (inv_weaken X); [intros k Hk; apply elem_of_cons; right; apply elem_of_app; left; exact Hk|exact Tinv]. }
  destruct Ht as [Ht|[Ht|Ht]]; [| |right; apply (grows_deferred _ _ _ G), Ht]; unfold ajaxRequest, Tables.deferTableRequestWhileHidden in *.
  - subst j. destruct (hidden t); cbn [negb].
    + right. left. destruct (on_panel_same i hideLoading (t <| tablesPendingVisibility := if bool_decide (i ∈ tablesPendingVisibility t) then tablesPendingVisibility t else (tablesPendingVisibility t ++ [i])%list |>)) as (-> & _).
      cbn. case_bool_decide as B; [exact B|]. apply elem_of_app. right. apply list_elem_of_here.
    + left. rewrite on_panel_lookup, decide_True by reflexivity. change (panels (t <| tablesPendingVisibility := _ |>)) with (panels t).
      rewrite Hq. eexists. split; [reflexivity|]. apply (decide_ok (cfg i) (gone i)). destruct Tinv as [_ H]. apply (H i q Hq).
  - destruct (decide (i = j)) as [<-|Hne].
    + destruct (hidden t); cbn [negb].
      * left. rewrite on_panel_lookup, decide_True by reflexivity. change (panels (t <| tablesPendingVisibility := _ |>)) with (panels t).
        rewrite Hq. eexists. split; [reflexivity|]. apply (quiet_settled q); try (destruct q; reflexivity); [apply hideLoading_quiet|exact Ht].
      * left. rewrite on_panel_lookup, decide_True by reflexivity. change (panels (t <| tablesPendingVisibility := _ |>)) with (panels t).
        rewrite Hq. eexists. split; [reflexivity|]. apply (decide_ok (cfg i) (gone i)). destruct Tinv as [_ H]. apply (H i q Hq).
    + left. exists q. split; [|exact Ht]. destruct (hidden t); cbn [negb]; rewrite on_panel_lookup, decide_False by congruence; exact Hq.
Qed.

Lemma fold_refresh now ts : forall X s, inv_but (ts ++ X) s ->
  let s' := fold_left (fun s i => refresh cfg now i s) ts s in
  inv_but X s' /\ grows s s' /\ forall i, is_Some (panels s !! i) -> i ∈ ts \/ handled i s -> handled i s'.
Proof.
  induction ts as [|t ts IH]; intros X s H; cbn [fold_left].
  - split; [exact H|]. split; [apply grows_refl|]. intros i _ [Hi|Hi]; [inversion Hi|exact Hi].
  - destruct (init_moves (ts ++ X) now false t s H) as [H1 G1]. fold (refresh cfg now t s) in H1, G1.
    destruct (IH X _ H1) as (H2 & G2 & K). split; [exact H2|]. split; [eapply grows_trans; eassumption|].
    intros i Hi Hh. apply K.
    + destruct Hi as [p Hp]. destruct (gr_panels _ _ G1 i p Hp) as (p' & Hp' & _). exists p'. exact Hp'.
    + destruct Hh as [Hh|Hh]; [apply elem_of_cons in Hh as [->|Hh]; [|left; exact Hh]|]; right;
        apply (refresh_handled _ now false _ _ s H Hi); [left; reflexivity|right; exact Hh].
Qed.

Lemma fold_effects now fx : forall s, inv_but (run_tables fx) s ->
  let s' := fold_left (run_effect cfg now) fx s in
  inv_but [] s' /\ grows s s' /\ forall i, is_Some (panels s !! i) -> i ∈ run_tables fx \/ handled i s -> handled i s'.
Proof.
  induction fx as [|f fx IH]; intros s H; cbn [fold_left].
  - split; [exact H|]. split; [apply grows_refl|]. intros i _ [Hi|Hi]; [inversion Hi|exact Hi].
  - destruct f; try (exact (IH s H)). unfold run_tables in H. cbn [flat_map Auth.ran app concat] in H.
    destruct (fold_refresh now cb (run_tables fx) s H) as (H1 & G1 & K1). cbn [run_effect].
    destruct (IH _ H1) as (H2 & G2 & K2). split; [exact H2|]. split; [eapply grows_trans; eassumption|].
    intros i Hi Hh. apply K2.
    + destruct Hi as [p Hp]. destruct (gr_panels _ _ G1 i p Hp) as (p' & Hp' & _). exists p'. exact Hp'.
    + unfold run_tables in Hh. cbn [flat_map Auth.ran app concat] in Hh. destruct Hh as [Hh|Hh].
      * apply elem_of_app in Hh as [Hh|Hh]; [right; apply K1; [exact Hi|left; exact Hh]|left; exact Hh].
      * right. apply K1; [exact Hi|right; exact Hh].
Qed.

(** What the probe does with the callbacks it was given. *)
Definition accounted (a : Auth.state (list nat)) (fx : list (Auth.effect (list nat))) (i : nat) : Prop :=
  i ∈ run_tables fx \/ i ∈ concat (Auth.authPendingCallbacks a) \/ Auth.authGoingToLogin a = true.

Lemma fresh_accounts rl tables (a : Auth.state (list nat)) i :
  i ∈ tables \/ i ∈ concat (Auth.authPendingCallbacks a) \/ Auth.authGoingToLogin a = true ->
  let r := Auth.whenAuthFresh thisUrl rl tables a in accounted r.1 r.2 i.
Proof.
  assert (N : forall (c : list (list nat)) t, concat (c ++ [t]) = (concat c ++ t)%list).
  { intros c t. induction c as [|x c IH]; cbn; [rewrite app_nil_r; reflexivity|]. rewrite IH, app_assoc. reflexivity. }
  intros H. unfold accounted, run_tables, Auth.whenAuthFresh, Auth.revalidateAuth, upd. destruct a as [going reval pend]; cbn in *.
  destruct rl as [r|]; [destruct (String.eqb (Auth.hash r) "")|]; cbn; rewrite ?app_nil_r; try tauto.
  destruct reval; cbn; rewrite N, elem_of_app; tauto.
Qed.

Lemma run_tables_map cbs : run_tables (map (@Auth.Run (list nat)) cbs) = concat cbs.
Proof. unfold run_tables. rewrite Auth.ran_runs. reflexivity. Qed.

Lemma always_accounts (a : Auth.state (list nat)) i :
  i ∈ concat (Auth.authPendingCallbacks a) \/ Auth.authGoingToLogin a = true ->
  let r := Auth.probe_always a in accounted r.1 r.2 i.
Proof.
  intros H. unfold accounted, Auth.probe_always, upd. destruct a as [[] reval pend]; cbn in *; [tauto|].
  left. apply (eq_ind_r (fun l => i ∈ l) (x := concat pend)); [|exact (run_tables_map pend)].
  destruct H as [H|H]; [exact H|discriminate].
Qed.

Lemma done_accounts d (a : Auth.state (list nat)) i :
  i ∈ concat (Auth.authPendingCallbacks a) \/ Auth.authGoingToLogin a = true ->
  let r := Auth.probe_done d a in accounted r.1 r.2 i.
Proof.
  intros H. unfold Auth.probe_done. pose proof (always_accounts a i H) as A. destruct (Auth.probe_always a). exact A.
Qed.

Lemma fail_accounts st (a : Auth.state (list nat)) i :
  i ∈ concat (Auth.authPendingCallbacks a) \/ Auth.authGoingToLogin a = true ->
  let r := Auth.probe_fail thisUrl currentView st a in accounted r.1 r.2 i.
Proof.
  intros H. unfold Auth.probe_fail. case_bool_decide.
  - unfold Auth.goToLogin. destruct (Auth.authGoingToLogin a) eqn:G.
    + pose proof (always_accounts a i ltac:(tauto)) as A. destruct (Auth.probe_always a). exact A.
    + destruct a as [going reval pend]. unfold Auth.probe_always, upd, accounted. cbn. tauto.
  - pose proof (always_accounts a i H) as A. destruct (Auth.probe_always a). exact A.
Qed.

(** The page after the probe has moved. *)
Lemma with_auth_ok X now r s : inv_but X s ->
  (forall i, i ∈ X \/ i ∈ concat (Auth.authPendingCallbacks (auth s)) \/ Auth.authGoingToLogin (auth s) = true -> accounted r.1 r.2 i) ->
  let s' := with_auth cfg now r s in
  inv_but [] s' /\ (forall i p, panels s !! i = Some p -> exists p', panels s' !! i = Some p' /\ tame (gone i) p p') /\
  forall i, is_Some (panels s !! i) -> i ∈ X \/ deferred i s -> handled i s'.
Proof.
  intros [V H] Hacc. unfold with_auth. set (t := s <| auth := r.1 |> <| went := (went s ++ r.2)%list |>).
  assert (T : panels t = panels s /\ tablesPendingVisibility t = tablesPendingVisibility s /\ hidden t = hidden s /\ auth t = r.1)
    by (subst t; destruct s; repeat split).
  clearbody t. destruct T as (Tp & Tv & Th & Ta).
  assert (K : forall i, i ∈ X \/ deferred i s -> i ∈ run_tables r.2 \/ deferred i t).
  { intros i Hi. unfold deferred. rewrite Tv, Ta. unfold deferred in Hi.
    destruct Hi as [Hi|[Hi|Hi]]; [|right; left; exact Hi|]; destruct (Hacc i ltac:(tauto)) as [A|A]; tauto. }
  destruct (fold_effects now r.2 t) as (H1 & G1 & K1).
  - split; [rewrite Th, Tv; exact V|]. intros i p Hp. rewrite Tp in Hp. destruct (H i p Hp) as [Ho Ha]. split; [exact Ho|].
    intros Hn Hq. destruct (decide (i ∈ X)) as [Hi|Hi].
    + destruct (K i (or_introl Hi)) as [R|R]; [contradiction|exact R].
    + destruct (K i (or_intror (Ha Hi Hq))) as [R|R]; [contradiction|exact R].
  - split; [exact H1|]. split.
    + intros i p Hp. rewrite <- Tp in Hp. apply (gr_panels _ _ G1 i p Hp).
    + intros i Hi Hh. apply K1; [rewrite Tp; exact Hi|]. destruct (K i Hh) as [R|R]; [left; exact R|right; right; exact R].
Qed.

Lemma visibility_ok now h s : inv_but [] s ->
  let s' := visibility cfg thisUrl now h s in
  inv_but [] s' /\ (forall i p, panels s !! i = Some p -> exists p', panels s' !! i = Some p' /\ tame (gone i) p p') /\
  forall i, is_Some (panels s !! i) -> deferred i s -> handled i s'.
Proof.
  intros [V H]. unfold visibility. set (t := s <| hidden := h |>).
  assert (T : panels t = panels s /\ tablesPendingVisibility t = tablesPendingVisibility s /\ auth t = auth s /\ hidden t = h)
    by (subst t; destruct s; repeat split).
  clearbody t. destruct T as (Tp & Tv & Ta & Th). unfold Tables.refreshTablesPendingVisibility. rewrite Th.
  assert (Same : forall u, panels u = panels s -> tablesPendingVisibility u = tablesPendingVisibility s -> auth u = auth s ->
    (hidden u = false -> tablesPendingVisibility u = []) ->
    inv_but [] u /\ (forall i p, panels s !! i = Some p -> exists p', panels u !! i = Some p' /\ tame (gone i) p p') /\
    forall i, is_Some (panels s !! i) -> deferred i s -> handled i u).
  { intros u Up Uv Ua Uh. split; [split; [exact Uh|]|split].
    - intros i p. rewrite Up. intros Hp. destruct (H i p Hp) as [Ho Ha]. split; [exact Ho|]. unfold deferred. rewrite Uv, Ua. exact Ha.
    - intros i p Hp. rewrite Up. exists p. split; [exact Hp|apply tame_refl].
    - intros i _ Hd. right. unfold deferred. rewrite Uv, Ua. exact Hd. }
  destruct h.
  - apply Same; [destruct t; exact Tp|destruct t; exact Tv|destruct t; exact Ta|].
    intros E. exfalso. assert (E' : hidden t = false) by (destruct t; exact E). congruence.
  - destruct (tablesPendingVisibility t) as [|x tables] eqn:E.
    + apply Same; [destruct t; exact Tp|rewrite <- Tv; destruct t; reflexivity|destruct t; exact Ta|intros _; destruct t; reflexivity].
    + set (u := t <| tablesPendingVisibility := [] |>).
      assert (U : panels u = panels s /\ tablesPendingVisibility u = [] /\ auth u = auth s /\ relay u = relay t)
        by (subst u; destruct t; cbn in *; subst; repeat split).
      clearbody u. destruct U as (Up & Uv & Ua & Ur).
      destruct (with_auth_ok (x :: tables) now (Auth.whenAuthFresh thisUrl (relay u) (x :: tables) (auth u)) u) as (H1 & H2 & H3).
      * split; [intros _; exact Uv|]. intros i p. rewrite Up. intros Hp. destruct (H i p Hp) as [Ho Ha]. split; [exact Ho|].
        intros Hn Hq. destruct (Ha ltac:(intros HH; inversion HH) Hq) as [D|D]; [congruence|]. right. rewrite Ua. exact D.
      * intros i Hi. apply fresh_accounts, Hi.
      * split; [exact H1|]. split.
        -- intros i p Hp. rewrite <- Up in Hp. apply (H2 i p Hp).
        -- intros i Hi [D|D]; apply H3; rewrite ?Up; try exact Hi; [left; congruence|right; right; rewrite Ua; exact D].
Qed.

(** The requests of deletions an event answers. *)
Definition answers_deletion (e : event) (i id : nat) : Prop := e = DeleteSuccess i id \/ e = DeleteError i id.

Lemma moves_step s s' : moves [] [] s s' -> inv_but [] s ->
  inv_but [] s' /\ (forall i p, panels s !! i = Some p -> exists p', panels s' !! i = Some p' /\ tame (gone i) p p') /\
  forall i, is_Some (panels s !! i) -> deferred i s -> handled i s'.
Proof.
  intros M Hs. destruct (M Hs) as [H1 G]. split; [exact H1|]. split; [apply (gr_panels _ _ G)|].
  intros i _ Hd. right. apply (grows_deferred _ _ _ G), Hd.
Qed.

Lemma panel_event_moves now e s :
  (forall i id, answers_deletion e i id -> gone i id) ->
  (forall h, e <> Visibility h) -> (forall d, e <> ProbeDone d) -> (forall st, e <> ProbeFail st) ->
  moves [] [] s (step cfg thisUrl currentView s (now, e)).
Proof.
  intros Hg Hv Hd Hf. unfold step. destruct e as [i|i c|i|i|i|i n|i k on|i c|i|i| | |i id r|i id|i id|i id|h|d|st];
    try (destruct (Hv h eq_refl)); try (destruct (Hd d eq_refl)); try (destruct (Hf st eq_refl)).
  - destruct (panels s !! i) as [p|]; [|apply moves_refl]. destruct (_ && _); [|apply moves_refl]. apply refresh_moves.
  - eapply moves_trans; [|apply filter_moves]. apply quiet_moves. intros p. destruct p. split; reflexivity.
  - apply refresh_click_moves.
  - destruct (has_autoRefresh _); [|apply moves_refl]. apply quiet_moves. intros p. apply toggle_quiet.
  - apply sort_moves.
  - apply select_moves.
  - destruct (canEdit _); [|apply moves_refl]. apply mark_moves.
  - destruct (panels s !! i) as [p|]; [|apply moves_refl]. destruct (_ && _); [|apply moves_refl]. unfold clear_click.
    eapply moves_trans; [apply clear_moves|]. destruct c; [apply delete_selection_moves|].
    set (t := manageClearButtonAvailability _ _ _ _ _). clearbody t. destruct (modal t); apply same_moves; destruct t; reflexivity.
  - case_bool_decide; [|apply moves_refl]. apply same_moves; destruct s; reflexivity.
  - case_bool_decide; [|apply moves_refl]. unfold modal_failed. eapply moves_trans; [|apply clear_moves]. apply same_moves; destruct s; reflexivity.
  - destruct (_ && _); [|apply moves_refl]. unfold confirm_click. destruct (modal s); [|apply moves_refl].
    eapply moves_trans; [|apply delete_selection_moves]. apply same_moves; destruct s; reflexivity.
  - destruct (modal_shown s); [|apply moves_refl]. unfold cancel_click. destruct (modal s); [|apply moves_refl].
    eapply moves_trans; [|apply clear_moves]. apply same_moves; destruct s; reflexivity.
  - destruct (panels s !! i) as [p|] eqn:Hp; [|apply moves_refl]. case_bool_decide as B; [|apply moves_refl].
    apply success_moves. exists p. split; [exact Hp|exact B].
  - destruct (panels s !! i) as [p|] eqn:Hp; [|apply moves_refl]. case_bool_decide as B; [|apply moves_refl].
    apply (answered_moves i id s (query_error false)); [exists p; split; [exact Hp|exact B]|]. intros q. apply query_error_quiet.
  - destruct (panels s !! i ≫= rest_of id); [|apply moves_refl]. apply delete_success_moves, Hg. left. reflexivity.
  - destruct (panels s !! i ≫= rest_of id); [|apply moves_refl]. apply delete_error_moves, Hg. right. reflexivity.
Qed.

Lemma step_ok s e : inv_but [] s -> (forall i id, answers_deletion e.2 i id -> gone i id) ->
  let s' := step cfg thisUrl currentView s e in
  inv_but [] s' /\ (forall i p, panels s !! i = Some p -> exists p', panels s' !! i = Some p' /\ tame (gone i) p p') /\
  forall i, is_Some (panels s !! i) -> deferred i s -> handled i s'.
Proof.
  intros Hs Hg. destruct e as [now e]. cbn [snd] in Hg.
  destruct e as [i|i c|i|i|i|i n|i k on|i c|i|i| | |i id r|i id|i id|i id|h|d|st];
    try (apply (moves_step _ _ (panel_event_moves now _ s Hg ltac:(discriminate) ltac:(discriminate) ltac:(discriminate)) Hs)).
  - apply visibility_ok, Hs.
  - cbn [step]. destruct (Auth.authRevalidating (auth s)); [|apply moves_step; [apply moves_refl|exact Hs]].
    destruct (with_auth_ok [] now (Auth.probe_done d (auth s)) s Hs) as (H1 & H2 & H3).
    + intros i [Hi|Hi]; [inversion Hi|apply done_accounts, Hi].
    + split; [exact H1|]. split; [exact H2|]. intros i Hi Hd. apply H3; tauto.
  - cbn [step]. destruct (Auth.authRevalidating (auth s)); [|apply moves_step; [apply moves_refl|exact Hs]].
    destruct (with_auth_ok [] now (Auth.probe_fail thisUrl currentView st (auth s)) s Hs) as (H1 & H2 & H3).
    + intros i [Hi|Hi]; [inversion Hi|apply fail_accounts, Hi].
    + split; [exact H1|]. split; [exact H2|]. intros i Hi Hd. apply H3; tauto.
Qed.

Lemma loaded_ok now pages rl hide : inv_but [] (loaded cfg now pages rl hide).
Proof.
  unfold loaded. set (s := Page _ _ _ _ _ _ _ _ _ _).
  assert (Hs : inv_but [] s).
  { split; [reflexivity|]. intros i p Hp. subst s. cbn in Hp. apply list_lookup_fmap_Some in Hp as ([n sz] & -> & _).
    split; [|discriminate]. split; cbn; [reflexivity|discriminate|constructor|constructor]. }
  clearbody s. revert s Hs. generalize (seq 0 (length pages)). intros ks. induction ks as [|k ks IH]; intros s Hs; cbn; [exact Hs|].
  apply IH. apply refresh_moves, Hs.
Qed.
End PageFacts.

Lemma run_ok cfg thisUrl currentView es : forall s, inv_but [] s -> inv_but [] (run cfg thisUrl currentView s es).
Proof.
  induction es as [|e es IH]; intros s Hs; [exact Hs|]. apply IH.
  apply (step_ok cfg thisUrl currentView (fun _ _ => True) s e Hs). auto.
Qed.

(** ** What holds of every run *)

Section Runs.
Variable cfg : nat -> config.
Variables thisUrl currentView : string.
Notation step := (step cfg thisUrl currentView).
Notation run := (run cfg thisUrl currentView).

(** C17: over all runs of a page with any number of panels, each panel has at most
    one query in flight, the one it knows of; a permission to refresh is never left
    over but for a table that waits to be shown or for the probe; and no table
    waits to be shown on a page that is. *)
Theorem one_query_in_flight (now : Z) (pages : list (Z * Z)) (rl : option string) (hide : bool) (es : list (Z * event)) :
  let s := run (loaded cfg now pages rl hide) es in
  (hidden s = false -> tablesPendingVisibility s = []) /\
  forall i p, panels s !! i = Some p ->
    (length (queries p) <= 1)%nat /\ (in_flight p = true <-> queries p <> []) /\ (allowRequest p = true -> deferred i s).
Proof.
  intros s. destruct (run_ok cfg thisUrl currentView es _ (loaded_ok cfg (fun _ _ => True) now pages rl hide)) as [V H].
  fold s in V, H. split; [exact V|]. intros i p Hp. destruct (H i p Hp) as [Ho Ha].
  split; [|split; [|intros A; apply Ha; [intros Hn; inversion Hn|exact A]]].
  - rewrite (po_queries _ Ho). destruct (ajax p) as [[id st]|]; [destruct (st =? 1)|]; cbn; lia.
  - destruct (in_flight p) eqn:F.
    + destruct (flight_on p Ho F) as (id & _ & ->). split; [discriminate|reflexivity].
    + rewrite (flight_off p Ho F). split; [discriminate|congruence].
Qed.

(** C22: no deferred refresh is lost: whatever happens next, the table still waits,
    or it has a query in flight, or there is the reason not to ask: rows are
    selected, and it knows that it missed a refresh, or the user has turned the
    refreshes off. *)
Theorem deferred_not_lost (now : Z) (pages : list (Z * Z)) (rl : option string) (hide : bool) (es : list (Z * event))
    (i : nat) (e : Z * event) :
  let s := run (loaded cfg now pages rl hide) es in
  is_Some (panels s !! i) -> deferred i s ->
  deferred i (step s e) \/
  exists p, panels (step s e) !! i = Some p /\
    (queries p <> [] \/ (getIdSelections p <> [] /\ requestMissed p = true) \/ autoRefresh p = Some false).
Proof.
  intros s Hi Hd.
  pose proof (run_ok cfg thisUrl currentView es _ (loaded_ok cfg (fun _ _ => True) now pages rl hide)) as Hs. fold s in Hs.
  destruct (step_ok cfg thisUrl currentView (fun _ _ => True) s e Hs (fun _ _ _ => I)) as ([_ H] & _ & K).
  destruct (K i Hi Hd) as [(p & Hp & [F|[F|F]])|D]; [right; exists p; split; [exact Hp|]..|left; exact D]; [|tauto..].
  left. destruct (H i p Hp) as [Ho _]. destruct (flight_on p Ho F) as (id & _ & ->). discriminate.
Qed.

(** ** Deletions *)

(** A deletion and the chunks it has sent, with their requests. *)
Inductive deletion :=
| Going (cur : nat) (sent : list (nat * list Z))
| Finished (sent : list (nat * list Z))
| Broken (sent : list (nat * list Z)).

(** Follows one deletion of panel [i] through the events of a run. *)
Definition follow (i : nat) (d : deletion) (s : page) (e : event) : deletion :=
  match d, e with
  | Going cur sent, DeleteSuccess j id =>
      if (j =? i)%nat && (id =? cur)%nat then
        match panels s !! i with
        | Some p => match rest_of cur p with
                    | Some [] => Finished sent
                    | Some rest => Going (next p) (sent ++ [(next p, take chunk rest)])%list
                    | None => d
                    end
        | None => d
        end
      else d
  | Going cur sent, DeleteError j id => if (j =? i)%nat && (id =? cur)%nat then Broken sent else d
  | _, _ => d
  end.
Fixpoint follow_run (i : nat) (d : deletion) (s : page) (es : list (Z * event)) : deletion :=
  match es with [] => d | e :: es => follow_run i (follow i d s e.2) (step s e) es end.

Definition posted (p : panel) (c : nat * list Z) : Prop := PostDelete c.1 c.2 ∈ out p.
Definition ids_of (sent : list (nat * list Z)) : list Z := concat (map snd sent).

(** Chunks of at most a hundred ids, all but the last of them full. *)
Definition chunked (sent : list (nat * list Z)) : Prop :=
  Forall (fun c => length c.2 <= chunk)%nat sent /\ (chunk * (length sent - 1) <= length (ids_of sent))%nat.

Record deletion_ok (i : nat) (ids : list Z) (d : deletion) (s : page) : Prop := {
  do_sent : let sent := match d with Going _ l | Finished l | Broken l => l end in
            (exists p, panels s !! i = Some p /\ Forall (posted p) sent) /\ chunked sent /\ ids_of sent `prefix_of` ids;
  do_state : match d with
             | Going cur sent => exists p rest, panels s !! i = Some p /\ (cur, rest) ∈ deletes p /\ ids = (ids_of sent ++ rest)%list /\
                                   (rest <> [] -> length (ids_of sent) = (chunk * length sent)%nat)
             | Finished sent => ids_of sent = ids
             | Broken _ => True
             end;
}.

Lemma rest_found cur rest p : panel_ok p -> (cur, rest) ∈ deletes p -> rest_of cur p = Some rest.
Proof.
  intros [_ _ _ D] Hin. unfold rest_of. revert D Hin. generalize (deletes p). intros ds.
  induction ds as [|d ds IH]; intros D Hin; [inversion Hin|]. inversion D as [|? ? Hn D']; subst. cbn.
  apply elem_of_cons in Hin as [<-|Hin]; [cbn; rewrite Nat.eqb_refl; reflexivity|].
  destruct (Nat.eqb_spec d.1 cur) as [E|_]; [|apply IH; assumption].
  exfalso. apply Hn. rewrite E. apply list_elem_of_fmap. exists (cur, rest). split; [reflexivity|exact Hin].
Qed.

(** An event that does not answer the deletion leaves it where it is. *)
Lemma deletion_stays i ids cur sent s e : inv_but [] s -> ~ answers_deletion e.2 i cur ->
  deletion_ok i ids (Going cur sent) s -> deletion_ok i ids (Going cur sent) (step s e).
Proof.
  intros Hs Hn [[(p & Hp & Hpost) Hc] (p' & rest & Hp' & Hin & E & Hfull)]. rewrite Hp in Hp'. injection Hp' as <-.
  destruct (step_ok cfg thisUrl currentView (answers_deletion e.2) s e Hs (fun _ _ H => H)) as (_ & K & _).
  destruct (K i p Hp) as (q & Hq & Kd & _ & Ko). split.
  - split; [|exact Hc]. exists q. split; [exact Hq|]. eapply Forall_impl; [exact Hpost|]. intros c Hpc. apply Ko, Hpc.
  - exists q, rest. split; [exact Hq|]. split; [apply Kd; [exact Hin|exact Hn]|]. split; [exact E|exact Hfull].
Qed.

Lemma ended_moves i ids d s s' : match d with Going _ _ => False | _ => True end -> inv_but [] s ->
  moves (fun _ _ => True) [] [] s s' -> deletion_ok i ids d s -> deletion_ok i ids d s'.
Proof.
  intros Hd Hs M [[(p & Hp & Hpost) Hc] Hst]. destruct (M Hs) as [_ [_ _ _ _ K]].
  destruct (K i p Hp) as (q & Hq & _ & _ & Ko). split; [|destruct d; [contradiction|exact Hst..]].
  split; [|exact Hc]. exists q. split; [exact Hq|]. destruct d; (eapply Forall_impl; [exact Hpost|]; intros c Hpc; apply Ko, Hpc).
Qed.

Lemma ended_stays i ids d s e : inv_but [] s -> match d with Going _ _ => False | _ => True end ->
  deletion_ok i ids d s -> deletion_ok i ids d (step s e).
Proof.
  intros Hs Hd [[(p & Hp & Hpost) Hc] Hst].
  destruct (step_ok cfg thisUrl currentView (fun _ _ => True) s e Hs (fun _ _ _ => I)) as (_ & K & _).
  destruct (K i p Hp) as (q & Hq & _ & _ & Ko). split; [|destruct d; [contradiction|exact Hst..]].
  split; [|exact Hc]. exists q. split; [exact Hq|]. destruct d; (eapply Forall_impl; [exact Hpost|]; intros c Hpc; apply Ko, Hpc).
Qed.

Lemma ids_of_snoc sent k c : ids_of (sent ++ [(k, c)]) = (ids_of sent ++ c)%list.
Proof. unfold ids_of. rewrite map_app, concat_app. cbn. rewrite app_nil_r. reflexivity. Qed.

(** The next chunk. *)
Lemma next_chunk_ok i ids cur sent rest now s p : panels s !! i = Some p -> panel_ok p -> (cur, rest) ∈ deletes p -> rest <> [] ->
  deletion_ok i ids (Going cur sent) s ->
  deletion_ok i ids (Going (next p) (sent ++ [(next p, take chunk rest)])%list) (delete_success cfg now cur rest i s).
Proof.
  intros Hp Hok Hin Hr [[(p1 & Hp1 & Hpost) (Hc & Hpre)] (p2 & rest2 & Hp2 & Hin2 & E & Hfull)].
  rewrite Hp in Hp1, Hp2. injection Hp1 as <-. injection Hp2 as <-.
  assert (rest2 = rest) as ->.
  { pose proof (rest_found _ _ _ Hok Hin) as R1. pose proof (rest_found _ _ _ Hok Hin2) as R2. congruence. }
  assert (S : delete_success cfg now cur rest i s =
    on_panel i (fun p => deleteLogs rest false (delete_done cur p <| progress := Some (progress_at rest p) |>)) s)
    by (destruct rest; [contradiction|reflexivity]).
  set (q := delete_done cur p <| progress := Some (progress_at rest p) |>).
  assert (Q : next q = next p /\ out q = out p) by (subst q; destruct p; split; reflexivity).
  destruct (deleteLogs_fields rest false q) as (Fd & _ & _ & _ & _ & _ & Fo). cbv zeta in *. destruct Q as [Qn Qo]. rewrite Qn in *.
  assert (Hq : panels (delete_success cfg now cur rest i s) !! i = Some (deleteLogs rest false q)).
  { rewrite S, on_panel_lookup, decide_True, Hp by reflexivity. reflexivity. }
  specialize (Hfull Hr).
  assert (E' : ids = (ids_of (sent ++ [(next p, take chunk rest)]) ++ drop chunk rest)%list).
  { rewrite ids_of_snoc, <- app_assoc, take_drop. exact E. }
  split.
  - split; [|split].
    + exists (deleteLogs rest false q). split; [exact Hq|]. apply Forall_app. split.
      * eapply Forall_impl; [exact Hpost|]. intros c Hpc. unfold posted. rewrite Fo, Qo. apply elem_of_app. left. exact Hpc.
      * constructor; [|constructor]. unfold posted. rewrite Fo. apply elem_of_app. right. apply list_elem_of_here.
    + destruct Hc as [Hc _]. split; [apply Forall_app; split; [exact Hc|constructor; [cbn -[take]; rewrite length_take; lia|constructor]]|].
      rewrite ids_of_snoc, !length_app, Hfull. cbn [length]. lia.
    + rewrite E'. apply prefix_app_r. reflexivity.
  - exists (deleteLogs rest false q), (drop chunk rest). split; [exact Hq|]. split; [|split; [exact E'|]].
    + rewrite Fd. apply elem_of_app. right. apply list_elem_of_here.
    + intros Hd. rewrite ids_of_snoc, !length_app, Hfull, length_take. cbn [length].
      assert (chunk <= length rest)%nat; [|lia]. apply Nat.nlt_ge. intros L. apply Hd, drop_ge. lia.
Qed.

Lemma follow_ok i ids d s e : inv_but [] s -> deletion_ok i ids d s -> deletion_ok i ids (follow i d s e.2) (step s e).
Proof.
  intros Hs Hd. destruct d as [cur sent|sent|sent]; [|apply ended_stays; [exact Hs|exact I|exact Hd]..].
  destruct e as [now e]. cbn [snd].
  assert (C : answers_deletion e i cur \/ ~ answers_deletion e i cur /\ follow i (Going cur sent) s e = Going cur sent).
  { unfold answers_deletion. destruct e; try (right; split; [intros [H|H]; discriminate H|reflexivity]); cbn;
      destruct (Nat.eqb_spec i0 i) as [->|N]; cbn; try (right; split; [intros [H|H]; congruence|reflexivity]);
      destruct (Nat.eqb_spec id cur) as [->|N]; cbn; try (right; split; [intros [H|H]; congruence|reflexivity]); left; tauto. }
  destruct C as [C|[C ->]]; [|apply deletion_stays; [exact Hs|exact C|exact Hd]].
  pose proof Hd as [[_ Hc] (p & rest & Hp & Hin & E & Hfull)]. destruct Hs as [V H]. destruct (H i p Hp) as [Hok _].
  pose proof (rest_found _ _ _ Hok Hin) as R.
  destruct C as [-> | ->]; cbn [follow LogPanel.step]; rewrite !Nat.eqb_refl, Hp; cbn [andb mbind option_bind]; rewrite R.
  - destruct rest as [|r rest]; [|apply (next_chunk_ok i ids cur sent (r :: rest) now s p Hp Hok Hin ltac:(discriminate) Hd)].
    assert (D : deletion_ok i ids (Finished sent) s).
    { destruct Hd as [Hd _]. split; [exact Hd|]. rewrite app_nil_r in E. exact (eq_sym E). }
    apply (ended_moves i ids (Finished sent) s _ I (conj V H)); [|exact D]. apply delete_success_moves. exact I.
  - assert (D : deletion_ok i ids (Broken sent) s) by (destruct Hd as [Hd _]; split; [exact Hd|exact I]).
    apply (ended_moves i ids (Broken sent) s _ I (conj V H)); [|exact D]. apply delete_error_moves. exact I.
Qed.

Lemma follow_run_ok i ids es : forall d s, inv_but [] s -> deletion_ok i ids d s ->
  deletion_ok i ids (follow_run i d s es) (run s es).
Proof.
  induction es as [|e es IH]; intros d s Hs Hd; [exact Hd|]. cbn [follow_run]. apply IH; [|apply follow_ok; assumption].
  apply (step_ok cfg thisUrl currentView (fun _ _ => True) s e Hs (fun _ _ _ => I)).
Qed.

(** C18: a deletion sends the selected ids in their order, in chunks of at most a
    hundred, one after the other, whatever happens on the page in between: while it
    goes on what it has sent and what is left make up the selection, when it
    finishes it has sent all of it, when a chunk fails it stops; and it takes no
    more requests than there are hundreds begun. *)
Theorem deletion_sends_all (now : Z) (pages : list (Z * Z)) (rl : option string) (hide : bool) (es es' : list (Z * event))
    (i : nat) (p : panel) :
  let s := run (loaded cfg now pages rl hide) es in
  panels s !! i = Some p ->
  let ids := getIdSelections p in
  let s' := delete_selection i s in
  deletion_ok i ids (follow_run i (Going (next p) [(next p, take chunk ids)]) s' es') (run s' es').
Proof.
  intros s Hp ids s'.
  pose proof (run_ok cfg thisUrl currentView es _ (loaded_ok cfg (fun _ _ => True) now pages rl hide)) as Hs. fold s in Hs. clearbody s.
  destruct (delete_selection_moves cfg (fun _ _ => True) [] i s Hs) as [Hs' _]. fold s' in Hs'.
  apply follow_run_ok; [exact Hs'|].
  assert (Hp' : panels s' !! i = Some (deleteLogs ids true p)).
  { subst s' ids. unfold delete_selection. rewrite on_panel_lookup, decide_True, Hp by reflexivity. reflexivity. }
  destruct (deleteLogs_fields ids true p) as (Fd & _ & _ & _ & _ & _ & Fo). cbv zeta in *. clearbody ids s'.
  assert (I1 : ids_of [(next p, take chunk ids)] = take chunk ids) by (unfold ids_of; cbn [map snd concat]; apply app_nil_r).
  split.
  - split; [|split].
    + exists (deleteLogs ids true p). split; [exact Hp'|]. constructor; [|constructor]. unfold posted. rewrite Fo.
      apply elem_of_app. right. apply list_elem_of_further, list_elem_of_here.
    + split; [constructor; [cbn [snd]; rewrite length_take; lia|constructor]|]. cbn [length]. lia.
    + rewrite I1. exists (drop chunk ids). rewrite take_drop. reflexivity.
  - exists (deleteLogs ids true p), (drop chunk ids). split; [exact Hp'|]. split; [rewrite Fd; apply elem_of_app; right; apply list_elem_of_here|].
    rewrite I1, take_drop. split; [reflexivity|]. intros Hd. rewrite length_take. cbn [length].
    assert (chunk <= length ids)%nat; [|lia]. apply Nat.nlt_ge. intros L. apply Hd, drop_ge. lia.
Qed.

(** ** A selection *)

Lemma selections_rows p q : rows q = rows p -> getIdSelections q = getIdSelections p.
Proof. unfold getIdSelections. intros ->. reflexivity. Qed.

Lemma hold_rows p : rows (hold_for_selection p) = rows p.
Proof.
  unfold hold_for_selection. destruct (in_flight _); [|destruct p; reflexivity]. unfold abort. destruct p as [[[id st]|]]; reflexivity.
Qed.
Lemma send_rows c now silent p : rows (send c now silent p) = rows p.
Proof. destruct p. reflexivity. Qed.
Lemma abort_rows p : rows (abort p) = rows p.
Proof. unfold abort. destruct p as [[[id st]|]]; reflexivity. Qed.
Lemma decide_rows c now silent p : rows (decide_request c now silent p) = rows p.
Proof.
  unfold decide_request. destruct (_ && _); [reflexivity|]. destruct (_ && _); [destruct p; reflexivity|].
  destruct (in_flight p); [|apply send_rows]. destruct (allowRequest p); [|reflexivity].
  rewrite send_rows. change (rows (showLoading (abort p))) with (rows (abort p)). apply abort_rows.
Qed.

(** Something that holds of a panel holds after a refresh of any panel. *)
Lemma init_keeps (K : panel -> Prop) i j now silent s : (forall p, K p -> K (showLoading p)) ->
  (hidden s = true -> forall p, K p -> K (hideLoading p)) -> (forall p, K p -> K (decide_request (cfg i) now silent p)) ->
  (exists p, panels s !! i = Some p /\ K p) -> exists p, panels (initServer cfg now silent j s) !! i = Some p /\ K p.
Proof.
  intros Ks Kh Kd (p & Hp & Kp). unfold initServer. set (t := if silent then s else _).
  assert (T : hidden t = hidden s /\ exists q, panels t !! i = Some q /\ K q).
  { subst t. destruct silent; [split; [reflexivity|exists p; auto]|]. split; [destruct s; reflexivity|].
    rewrite on_panel_lookup. destruct (decide (j = i)) as [->|]; [rewrite Hp; exists (showLoading p); auto|exists p; auto]. }
  clearbody t. destruct T as (Th & q & Hq & Kq). unfold ajaxRequest, Tables.deferTableRequestWhileHidden. rewrite Th.
  destruct (hidden s) eqn:Hd; cbn [negb]; rewrite on_panel_lookup; change (panels (t <| tablesPendingVisibility := _ |>)) with (panels t);
    (destruct (decide (j = i)) as [->|]; [rewrite Hq; eexists; split; [reflexivity|]; auto|exists q; auto]).
Qed.

Definition background (e : event) : bool :=
  match e with Tick _ | Visibility _ | ProbeDone _ | ProbeFail _ => true | _ => false end.

(** The panel as it was, but for what it shows and what it knows it missed. *)
Definition untouched (p0 p : panel) : Prop :=
  rows p = rows p0 /\ queries p = [] /\ allowRequest p = false /\ in_flight p = false /\ out p = out p0.

Lemma untouched_decide p0 c now silent p : getIdSelections p0 <> [] -> untouched p0 p -> untouched p0 (decide_request c now silent p).
Proof.
  intros Hs (R & Q & A & F & O). unfold decide_request. rewrite A. destruct (negb false && _); [repeat split; assumption|].
  rewrite (selections_rows p0 p R), bool_decide_eq_false_2 by exact Hs. destruct p. repeat split; assumption.
Qed.

Lemma untouched_init p0 i j now silent s : getIdSelections p0 <> [] ->
  (exists p, panels s !! i = Some p /\ untouched p0 p) -> exists p, panels (initServer cfg now silent j s) !! i = Some p /\ untouched p0 p.
Proof.
  intros Hs. apply init_keeps.
  - intros p H. destruct p. exact H.
  - intros _ p H. destruct p. exact H.
  - intros p. apply untouched_decide, Hs.
Qed.

Lemma untouched_auth p0 i now r s : getIdSelections p0 <> [] ->
  (exists p, panels s !! i = Some p /\ untouched p0 p) -> exists p, panels (with_auth cfg now r s) !! i = Some p /\ untouched p0 p.
Proof.
  intros Hs Hp. unfold with_auth. set (t := s <| auth := _ |> <| went := _ |>).
  assert (T : exists p, panels t !! i = Some p /\ untouched p0 p) by (subst t; destruct s; exact Hp). clearbody t.
  revert t T. induction (r.2) as [|f fx IH]; intros t T; [exact T|]. cbn [fold_left]. apply IH. destruct f; try exact T. cbn [run_effect].
  clear IH. revert t T. induction cb as [|j js IH]; intros t T; [exact T|]. cbn [fold_left]. apply IH. apply untouched_init; assumption.
Qed.

Lemma untouched_step p0 i e s : getIdSelections p0 <> [] -> background e.2 = true ->
  (exists p, panels s !! i = Some p /\ untouched p0 p) -> exists p, panels (step s e) !! i = Some p /\ untouched p0 p.
Proof.
  intros Hs Hb Hp. destruct e as [now e]. destruct e; try discriminate Hb; cbn [LogPanel.step].
  - destruct (panels s !! i0); [|exact Hp]. destruct (_ && _); [|exact Hp]. apply untouched_init; assumption.
  - unfold visibility. set (t := s <| hidden := hide |>).
    assert (T : exists p, panels t !! i = Some p /\ untouched p0 p) by (subst t; destruct s; exact Hp). clearbody t.
    destruct (Tables.refreshTablesPendingVisibility _ _) as [[ts|] pend].
    + apply untouched_auth; [exact Hs|]. destruct t. exact T.
    + destruct t. exact T.
  - destruct (Auth.authRevalidating _); [|exact Hp]. apply untouched_auth; assumption.
  - destruct (Auth.authRevalidating _); [|exact Hp]. apply untouched_auth; assumption.
Qed.

(** Marking a row stops what would take the selection away. *)
Lemma mark_holds now k on i s p : inv_but [] s -> panels (mark cfg now k on i s) !! i = Some p -> getIdSelections p <> [] ->
  untouched p p.
Proof.
  intros Hs. unfold mark. cbv zeta. set (t := on_panel i _ s).
  assert (M : moves (fun _ _ => True) [] [] s t) by (unfold t; apply (quiet_moves cfg); intros q; destruct q; split; reflexivity).
  destruct (M Hs) as [Ht _]. clearbody t. clear M s Hs. unfold manageClearButtonAvailability. set (u := on_panel i (set_clear_button (cfg i) None) t).
  assert (M : moves (fun _ _ => True) [] [] t u) by (unfold u; apply (quiet_moves cfg); intros q; apply clear_quiet). destruct (M Ht) as [[_ H] _].
  clearbody u. clear M t Ht. destruct (panels u !! i) as [q|] eqn:Hq; [|intros E; congruence]. destruct (H i q Hq) as [Hok _].
  case_bool_decide as Sel; cbn [negb].
  - intros Hp Hn. exfalso. apply Hn. set (v := if bool_decide (status q = Stopped) then _ else u) in Hp.
    assert (Hv : exists q', panels v !! i = Some q' /\ rows q' = rows q).
    { subst v. case_bool_decide; [|exists q; auto]. rewrite on_panel_lookup, decide_True, Hq by reflexivity. eexists. split; [reflexivity|]. destruct q. reflexivity. }
    clearbody v. destruct Hv as (q' & Hv & Rv).
    assert (Hr : rows p = rows q); [|rewrite (selections_rows q p Hr); exact Sel].
    destruct (requestMissed q); [|congruence]. revert Hp. unfold refresh.
    destruct (init_keeps (fun x => rows x = rows q) i i now false (on_panel i (fun p => p <| allowRequest := true |>) v)) as (x & Hx & Rx).
    + intros x Hx. destruct x. exact Hx.
    + intros _ x Hx. destruct x. exact Hx.
    + intros x Hx. rewrite decide_rows. exact Hx.
    + rewrite on_panel_lookup, decide_True, Hv by reflexivity. eexists. split; [reflexivity|]. destruct q'. exact Rv.
    + rewrite on_panel_lookup, decide_True, Hx by reflexivity. intros [= <-]. destruct x. exact Rx.
  - rewrite on_panel_lookup, decide_True, Hq by reflexivity. intros [= <-] _. destruct (hold_ok (fun _ => True) q Hok) as (H1 & _ & H3 & H4).
    repeat split; try assumption. destruct (in_flight _) eqn:F; [|reflexivity]. destruct (flight_on _ H1 F) as (id & _ & E). congruence.
Qed.

(** Once the user has marked a row, neither the clock, nor hiding and showing
    the page, nor the probe takes the rows or their marks away, and no query goes
    out, for as long as they do nothing else; the query that was in flight is gone. *)
Theorem selection_undisturbed (now t : Z) (pages : list (Z * Z)) (rl : option string) (hide : bool) (es es' : list (Z * event))
    (i : nat) (k : option nat) (on : bool) (p : panel) :
  let s := step (run (loaded cfg now pages rl hide) es) (t, Mark i k on) in
  canEdit (cfg i) = true -> panels s !! i = Some p -> getIdSelections p <> [] ->
  Forall (fun e => background e.2 = true) es' ->
  exists p', panels (run s es') !! i = Some p' /\ rows p' = rows p /\ queries p' = [] /\ out p' = out p.
Proof.
  intros s Hc Hp Hn Hb.
  pose proof (run_ok cfg thisUrl currentView es _ (loaded_ok cfg (fun _ _ => True) now pages rl hide)) as Hs.
  assert (U : untouched p p).
  { subst s. cbn [LogPanel.step] in Hp. rewrite Hc in Hp. apply (mark_holds t k on i _ p Hs Hp Hn). }
  assert (G : exists q, panels s !! i = Some q /\ untouched p q) by (exists p; auto). clearbody s. clear Hp U Hs. revert s G.
  induction es' as [|e es' IH]; intros s G.
  - destruct G as (q & Hq & R & Q & _ & _ & O). exists q. auto.
  - inversion Hb as [|? ? Hb1 Hb2]; subst. apply (IH Hb2). apply untouched_step; assumption.
Qed.

(** A table with selected rows that missed a refresh while the page was hidden
    is refreshed when the page is shown: its loading mask comes up, the request is
    refused for the selection, and no tick of the clock takes the mask away. *)
Theorem mask_stays (t : Z) (s : page) (i : nat) (p : panel) (es : list (Z * event)) :
  panels s !! i = Some p -> getIdSelections p <> [] -> allowRequest p = false -> queries p = [] -> in_flight p = false ->
  i ∈ tablesPendingVisibility s -> relay s = None -> Forall (fun e => exists j, e.2 = Tick j) es ->
  exists p', panels (run (step s (t, Visibility false)) es) !! i = Some p' /\ loading p' = true /\ queries p' = [] /\ rows p' = rows p.
Proof.
  intros Hp Hn A Q F Hi Hr He. set (K := fun q => untouched p q /\ loading q = true).
  assert (Kd : forall c now silent q, K q -> K (decide_request c now silent q)).
  { intros c now silent q [U L]. split; [apply untouched_decide; assumption|]. destruct U as (R & _ & A' & _). unfold decide_request. rewrite A'.
    destruct (negb false && _); [exact L|]. rewrite (selections_rows p q R), bool_decide_eq_false_2 by exact Hn. destruct q. exact L. }
  assert (Ks : forall q, untouched p q -> K (showLoading q)) by (intros q U; split; destruct q; [exact U|reflexivity]).
  assert (Ki : forall j now silent u, hidden u = false -> (exists q, panels u !! i = Some q /\ K q) ->
                 exists q, panels (initServer cfg now silent j u) !! i = Some q /\ K q).
  { intros j now silent u Hh. apply init_keeps; [intros q [U _]; apply Ks, U|congruence|intros q; apply Kd]. }
  assert (Hd : forall j now silent u, hidden (initServer cfg now silent j u) = hidden u).
  { intros j now silent u. unfold initServer, ajaxRequest. set (v := if silent then u else _).
    assert (hidden v = hidden u) as <- by (subst v; destruct silent; [reflexivity|destruct u; reflexivity]). clearbody v.
    destruct (Tables.deferTableRequestWhileHidden _ _ _) as [[] pend]; destruct v; reflexivity. }
  assert (Hf : forall ts u, hidden u = false -> (exists q, panels u !! i = Some q /\ untouched p q) -> i ∈ ts ->
     let v := fold_left (fun s i => refresh cfg t i s) ts u in hidden v = false /\ exists q, panels v !! i = Some q /\ K q).
  { assert (Hk : forall ts u, hidden u = false -> (exists q, panels u !! i = Some q /\ K q) ->
      let v := fold_left (fun s i => refresh cfg t i s) ts u in hidden v = false /\ exists q, panels v !! i = Some q /\ K q).
    { induction ts as [|j ts IH]; intros u Hh Hu; [split; assumption|]. cbn [fold_left]. apply IH; [unfold refresh; rewrite Hd; exact Hh|].
      apply Ki; assumption. }
    induction ts as [|j ts IH]; intros u Hh Hu Hj; [inversion Hj|]. cbn [fold_left].
    destruct (decide (j = i)) as [->|Hne].
    - apply Hk; [unfold refresh; rewrite Hd; exact Hh|]. unfold refresh, initServer, ajaxRequest, Tables.deferTableRequestWhileHidden.
      destruct Hu as (q & Hq & Uq).
      set (v := on_panel i showLoading u). assert (Hv : hidden v = false) by (subst v; destruct u; exact Hh). rewrite Hv. cbn [negb].
      rewrite on_panel_lookup, decide_True by reflexivity. change (panels (v <| tablesPendingVisibility := _ |>)) with (panels v).
      subst v. rewrite on_panel_lookup, decide_True, Hq by reflexivity. eexists. split; [reflexivity|]. apply Kd, Ks, Uq.
    - apply IH; [unfold refresh; rewrite Hd; exact Hh|apply untouched_init; assumption|].
      apply elem_of_cons in Hj as [Hj|Hj]; [congruence|exact Hj]. }
  assert (G : hidden (step s (t, Visibility false)) = false /\ exists q, panels (step s (t, Visibility false)) !! i = Some q /\ K q).
  { cbn [LogPanel.step]. unfold visibility. set (u := s <| hidden := false |>).
    assert (U : hidden u = false /\ tablesPendingVisibility u = tablesPendingVisibility s /\ relay u = None /\ panels u = panels s)
      by (subst u; destruct s; repeat split; assumption). clearbody u. destruct U as (Uh & Uv & Ur & Up).
    unfold Tables.refreshTablesPendingVisibility. rewrite Uh, Uv. destruct (tablesPendingVisibility s) as [|j ts]; [inversion Hi|].
    set (v := u <| tablesPendingVisibility := [] |>).
    assert (V : relay v = None /\ hidden v = false /\ panels v = panels s) by (subst v; destruct u; repeat split; assumption).
    clearbody v. destruct V as (Vr & Vh & Vp). unfold Auth.whenAuthFresh. rewrite Vr. unfold with_auth. cbn [fst snd fold_left run_effect].
    set (w := v <| auth := auth v |> <| went := _ |>).
    assert (W : hidden w = false /\ panels w = panels s) by (subst w; destruct v; split; assumption). clearbody w. destruct W as [Wh Wp].
    refine (Hf (j :: ts) w Wh _ Hi). exists p. rewrite Wp. split; [exact Hp|]. repeat split; assumption. }
  revert G. generalize (step s (t, Visibility false)). induction es as [|e es IH]; intros u [Hh (q & Hq & Kq)].
  - destruct Kq as [(R & Qq & _) L]. exists q. auto.
  - inversion He as [|? ? [j Hj] He']; subst. destruct e as [now e]. cbn in Hj. subst e. cbn [LogPanel.run fold_left]. apply (IH He').
    assert (Same : hidden u = false /\ exists q, panels u !! i = Some q /\ K q) by (split; [exact Hh|exists q; auto]).
    cbn [LogPanel.step]. destruct (panels u !! j); [|exact Same]. destruct (_ && _); [|exact Same].
    split; [rewrite Hd; exact Hh|apply Ki, Same; exact Hh].
Qed.

(** ** The dialog and the pages of the table *)

Lemma delete_selection_other i j s : i <> j -> panels (delete_selection j s) !! i = panels s !! i.
Proof. intros Hne. unfold delete_selection. rewrite on_panel_lookup, decide_False by congruence. reflexivity. Qed.

(** With two panels on a page the dialog deletes the selection of the panel
    that asked for it first: its buttons were bound then.  A later click on the
    button of another panel shows the dialog, and its confirmation sends nothing of
    the rows selected there. *)
Theorem confirm_deletes_owner (s : page) (i j : nat) (t t' : Z) (p q : panel) :
  i <> j -> modal s = Some j -> panels s !! i = Some p -> canEdit (cfg i) = true -> clear_disabled p = false ->
  let s1 := step s (t, ClearClick i false) in
  let s2 := step s1 (t', ConfirmClick) in
  modal_shown s1 = true /\ panels s2 !! i = panels s1 !! i /\
  (panels s1 !! j = Some q -> exists q', panels s2 !! j = Some q' /\ PostDelete (next q) (take chunk (getIdSelections q)) ∈ out q').
Proof.
  intros Hne Hm Hp Hc Hd s1 s2.
  assert (S1 : modal s1 = Some j /\ modal_shown s1 = true /\ confirm_disabled s1 = false).
  { subst s1. cbn [LogPanel.step]. rewrite Hp, Hc, Hd. cbn [andb negb]. unfold clear_click.
    assert (M : modal (manageClearButtonAvailability cfg t (Some false) i s) = modal s).
    { unfold manageClearButtonAvailability. set (u := on_panel i _ s). assert (modal u = modal s) as <- by (subst u; destruct s; reflexivity).
      clearbody u. destruct (panels u !! i) as [x|]; [|reflexivity]. destruct (negb _); [destruct u; reflexivity|].
      set (v := if bool_decide _ then _ else u). assert (modal v = modal u) as <- by (subst v; case_bool_decide; destruct u; reflexivity).
      clearbody v. destruct (requestMissed x); [|reflexivity]. unfold refresh, initServer, ajaxRequest.
      destruct (Tables.deferTableRequestWhileHidden _ _ _) as [[] pend]; destruct v; reflexivity. }
    set (u := manageClearButtonAvailability _ _ _ _ _) in *. clearbody u. rewrite Hm in M. rewrite M. destruct u. repeat split. exact M. }
  clearbody s1. destruct S1 as (Sm & Sh & Sd). subst s2. cbn [LogPanel.step]. rewrite Sh, Sd. cbn [andb negb]. unfold confirm_click. rewrite Sm.
  split; [reflexivity|]. split.
  - rewrite delete_selection_other by exact Hne. destruct s1. reflexivity.
  - intros Hq. unfold delete_selection. rewrite on_panel_lookup, decide_True by reflexivity.
    change (panels (s1 <| modal_shown := false |> <| confirm_disabled := true |>)) with (panels s1). rewrite Hq.
    eexists. split; [reflexivity|]. destruct (deleteLogs_fields (getIdSelections q) true q) as (_ & _ & _ & _ & _ & _ & Fo). cbv zeta in Fo.
    rewrite Fo. apply elem_of_app. right. apply list_elem_of_further, list_elem_of_here.
Qed.

(** A table that starts on a page that is gone never gets its first rows: the
    answer has none, the panel selects page 1, and the table, which has not counted
    its pages yet, does nothing. *)
Theorem stale_page_stays_empty (t : Z) (s : page) (i id : nat) (r : reply) (p : panel) :
  panels s !! i = Some p -> panel_ok p -> id ∈ queries p -> totalPages p = None -> reply_rows r = [] -> 0 < total r ->
  exists p', panels (step s (t, QuerySuccess i id r)) !! i = Some p' /\
    rows p' = rows p /\ queries p' = [] /\ pageNumber p' = pageNumber p /\ totalPages p' = None /\ loading p' = false.
Proof.
  intros Hp Hok Hi Ht Hr Hpos. cbn [LogPanel.step]. rewrite Hp, bool_decide_eq_true_2 by exact Hi. unfold query_success.
  set (asked := default _ _). rewrite Hr, bool_decide_eq_true_2 by reflexivity. rewrite (proj2 (Z.ltb_lt _ _) Hpos). cbn [andb].
  set (f := fun x => show_answer (t - asked.1) r (answered id 4 x)).
  assert (Lf : panels (on_panel i f s) !! i = Some (f p)) by (rewrite on_panel_lookup, decide_True, Hp by reflexivity; reflexivity).
  assert (F : rows (f p) = rows p /\ queries (f p) = queries (answered id 4 p) /\ pageNumber (f p) = pageNumber p /\
              totalPages (f p) = totalPages p /\ loading (f p) = false) by (subst f; destruct p; repeat split).
  clearbody f. destruct F as (F1 & F2 & F3 & F4 & F5). unfold selectPage. rewrite Lf, F4, Ht. rewrite andb_false_r.
  exists (f p). rewrite Lf, F1, F2, F3, F4, F5, Ht. repeat split.
  destruct (answered_ok (fun _ => True) id p Hok Hi) as (Ho & _). apply (flight_off _ Ho).
  destruct Hok as [Q _ _ _]. rewrite Q in Hi. unfold in_flight, answered. destruct p as [[[k st]|]]; [|inversion Hi]. cbn in *.
  destruct (st =? 1); [|inversion Hi]. apply list_elem_of_singleton in Hi as ->. rewrite Nat.eqb_refl. reflexivity.
Qed.
End Runs.

(** ** Examples *)

Definition demo_cfg (_ : nat) : config := Config None true true.
#[local] Notation demo_page hide := (loaded demo_cfg 0 [(1, 25); (1, 25)] None hide).
Definition demo_rows : list (Z * event) :=
  [(5, QuerySuccess 0 0 (Reply 3 3 [11; 12; 13] "ok")); (9, Mark 0 (Some 0%nat) true); (10, Mark 0 (Some 2%nat) true)].
#[local] Notation demo_run := (run demo_cfg "index.php" "log").
#[local] Notation demo_step := (step demo_cfg "index.php" "log").

(** A filter is changed while the first query is in flight. *)
Lemma one_query_in_flight_witness :
  exists p, panels (demo_run (demo_page false) [(3, FilterChange 0 (Controls "" ["ERR"] [] "" ""))]) !! 0%nat = Some p /\
    queries p = [1%nat] /\ Abort 0 ∈ out p /\ (in_flight p = true <-> queries p <> []).
Proof.
  destruct (one_query_in_flight demo_cfg "index.php" "log" 0 [(1, 25); (1, 25)] None false
    [(3, FilterChange 0 (Controls "" ["ERR"] [] "" ""))]) as [_ H].
  destruct (panels (demo_run _ _) !! 0%nat) as [p|] eqn:E; [|vm_compute in E; discriminate].
  exists p. split; [reflexivity|]. destruct (H 0%nat p E) as (_ & F & _). clear H. split; [|split; [|exact F]].
  - vm_compute in E. injection E as <-. reflexivity.
  - vm_compute in E. injection E as <-. apply list_elem_of_In. cbn. tauto.
Defined.

Lemma deferred_not_lost_witness :
  let s := demo_run (demo_page true) [] in
  deferred 0 s /\ (deferred 0 (demo_step s (7, Visibility false)) \/
  exists p, panels (demo_step s (7, Visibility false)) !! 0%nat = Some p /\
    (queries p <> [] \/ (getIdSelections p <> [] /\ requestMissed p = true) \/ autoRefresh p = Some false)).
Proof.
  intros s. assert (D : deferred 0 s) by (left; apply (bool_decide_unpack _); vm_compute; exact I).
  split; [exact D|].
  apply (deferred_not_lost demo_cfg "index.php" "log" 0 [(1, 25); (1, 25)] None true [] 0 (7, Visibility false)); [eexists; reflexivity|exact D].
Defined.

Lemma deletion_sends_all_witness :
  let s := demo_run (demo_page false) demo_rows in
  exists p, panels s !! 0%nat = Some p /\ getIdSelections p = [11; 13] /\
    let s' := delete_selection 0 s in
    let es := [(20, Tick 0); (30, DeleteSuccess 0 (next p))] in
    follow_run demo_cfg "index.php" "log" 0 (Going (next p) [(next p, take chunk [11; 13])]) s' es = Finished [(next p, [11; 13])] /\
    deletion_ok 0 [11; 13] (follow_run demo_cfg "index.php" "log" 0 (Going (next p) [(next p, take chunk [11; 13])]) s' es) (demo_run s' es).
Proof.
  intros s. destruct (panels s !! 0%nat) as [p|] eqn:E; [|vm_compute in E; discriminate].
  assert (Sel : getIdSelections p = [11; 13]) by (vm_compute in E; injection E as <-; reflexivity).
  exists p. split; [reflexivity|]. split; [exact Sel|]. rewrite <- Sel. split.
  - vm_compute in E. injection E as <-. vm_compute. reflexivity.
  - apply (deletion_sends_all demo_cfg "index.php" "log" 0 [(1, 25); (1, 25)] None false demo_rows _ 0 p E).
Defined.

Lemma selection_undisturbed_witness :
  let s := demo_step (demo_run (demo_page false) [(5, QuerySuccess 0 0 (Reply 3 3 [11; 12; 13] "ok")); (9, Mark 0 (Some 0%nat) true)])
             (10, Mark 0 (Some 2%nat) true) in
  exists p p', panels s !! 0%nat = Some p /\ getIdSelections p = [11; 13] /\
    panels (demo_run s [(60, Tick 0); (70, Visibility true); (120, Tick 0); (130, Visibility false)]) !! 0%nat = Some p' /\
    rows p' = rows p /\ queries p' = [] /\ out p' = out p.
Proof.
  intros s. destruct (panels s !! 0%nat) as [p|] eqn:E; [|vm_compute in E; discriminate].
  assert (Sel : getIdSelections p = [11; 13]) by (vm_compute in E; injection E as <-; reflexivity).
  destruct (selection_undisturbed demo_cfg "index.php" "log" 0 10 [(1, 25); (1, 25)] None false
    [(5, QuerySuccess 0 0 (Reply 3 3 [11; 12; 13] "ok")); (9, Mark 0 (Some 0%nat) true)]
    [(60, Tick 0); (70, Visibility true); (120, Tick 0); (130, Visibility false)] 0 (Some 2%nat) true p eq_refl E)
    as (p' & Hp' & R); [rewrite Sel; discriminate|repeat constructor|].
  exists p, p'. split; [reflexivity|]. split; [exact Sel|]. split; [exact Hp'|exact R].
Defined.

(** The tab is hidden with rows selected, a tick is missed, the tab is shown. *)
Lemma mask_stays_witness :
  let s := demo_run (demo_page false) (demo_rows ++ [(60, Visibility true); (70, Tick 0)]) in
  exists p', panels (demo_run (demo_step s (80, Visibility false)) [(130, Tick 0); (190, Tick 0)]) !! 0%nat = Some p' /\
    loading p' = true /\ queries p' = [] /\ map fst (rows p') = [11; 12; 13].
Proof.
  intros s. destruct (panels s !! 0%nat) as [p|] eqn:E; [|vm_compute in E; discriminate].
  destruct (mask_stays demo_cfg "index.php" "log" 80 s 0 p [(130, Tick 0); (190, Tick 0)] E) as (p' & Hp' & L & Q & R).
  1-4: (vm_compute in E; injection E as <-; vm_compute; first [reflexivity|discriminate]).
  - apply (bool_decide_unpack _). vm_compute. exact I.
  - vm_compute. reflexivity.
  - repeat constructor; eexists; reflexivity.
  - exists p'. split; [exact Hp'|]. split; [exact L|]. split; [exact Q|]. rewrite R. vm_compute in E. injection E as <-. reflexivity.
Defined.

(** Both panels have rows selected, and the dialog came for the first. *)
Lemma confirm_deletes_owner_witness :
  let s := demo_run (demo_page false) (demo_rows ++
    [(11, QuerySuccess 1 0 (Reply 1 1 [77] "ok")); (12, Mark 1 (Some 0%nat) true);
     (13, ClearClick 0 false); (14, ModalArrives 0); (15, CancelClick)]) in
  let s1 := demo_step s (20, ClearClick 1 false) in
  let s2 := demo_step s1 (21, ConfirmClick) in
  modal_shown s1 = true /\ panels s2 !! 1%nat = panels s1 !! 1%nat /\
  (getIdSelections <$> panels s !! 1%nat) = Some [77] /\
  exists p', panels s2 !! 0%nat = Some p' /\ PostDelete 1 [11; 13] ∈ out p'.
Proof.
  intros s. destruct (panels s !! 1%nat) as [p|] eqn:Ep; [|vm_compute in Ep; discriminate].
  intros s1. destruct (panels s1 !! 0%nat) as [q|] eqn:Eq; [|vm_compute in Eq; discriminate].
  destruct (confirm_deletes_owner demo_cfg "index.php" "log" s 1 0 20 21 p q) as (M & P & D);
    [discriminate|vm_compute; reflexivity|exact Ep|reflexivity|vm_compute in Ep; injection Ep as <-; reflexivity|].
  split; [exact M|]. split; [exact P|]. split; [vm_compute in Ep; injection Ep as <-; reflexivity|].
  destruct (D Eq) as (p' & Hp' & Hd). exists p'. split; [exact Hp'|].
  vm_compute in Eq. injection Eq as <-. exact Hd.
Defined.

(** Page 4 of a log that has been cleared to 30 entries. *)
Lemma stale_page_stays_empty_witness :
  let s := loaded demo_cfg 0 [(4, 25)] None false in
  exists p', panels (demo_step s (5, QuerySuccess 0 0 (Reply 30 30 [] "ok"))) !! 0%nat = Some p' /\
    rows p' = [] /\ queries p' = [] /\ pageNumber p' = 4 /\ totalPages p' = None /\ loading p' = false.
Proof.
  intros s. destruct (panels s !! 0%nat) as [p|] eqn:E; [|vm_compute in E; discriminate].
  assert (R : rows p = [] /\ pageNumber p = 4 /\ queries p = [0%nat] /\ totalPages p = None)
    by (vm_compute in E; injection E as <-; repeat split). destruct R as (Rr & Rn & Rq & Rt).
  rewrite <- Rr, <- Rn. apply (stale_page_stays_empty demo_cfg "index.php" "log" 5 s 0 0 (Reply 30 30 [] "ok") p E).
  - destruct (loaded_ok demo_cfg (fun _ _ => True) 0 [(4, 25)] None false) as [_ H]. apply (H 0%nat p E).
  - rewrite Rq. apply list_elem_of_here.
  - exact Rt.
  - reflexivity.
  - reflexivity.
Defined.
End LogPanel.
