(* ===== verification/FilterForm.v ===== *)
(** web/skins/classic/views/js/filter.js: the form that edits an event filter.

    The terms of a filter are the rows of a table; a row is seven cells, and the
    script rebuilds six of them from what is chosen in them whenever a row is added
    or deleted or an attribute changes.  The server's markup (includes/Filter.php,
    widget) gives the rows the page starts with.

    A cell holds at most one control.  Of the browser the model has what the script
    relies on: the options of a drop-down list with their selected attributes and
    the one that is chosen, which a clone and a reset take from the attributes; of
    jQuery, [val] in both directions.  The labels of options, the chosen boxes drawn
    over the lists and the date pickers themselves are not modelled. *)
From S2P Require Import JsString NumText.

Module FilterForm.

(** ** Controls *)

(** A drop-down list has its options, each with whether it bears the selected
    attribute, and the one chosen, if any. *)
Inductive control :=
| Select (name : string) (options : list (string * bool)) (chosen : option string)
| MultiSelect (name : string) (options : list (string * bool)) (chosen : list string)
| Text (name : string) (text : string)
| Number (name : string) (text : string)
| Hidden (name : string) (text : string).
#[export] Instance control_eq_dec : EqDecision control.
Proof. solve_decision. Defined.

Definition name_of (c : control) : string :=
  match c with Select n _ _ | MultiSelect n _ _ | Text n _ | Number n _ | Hidden n _ => n end.

(** What jQuery's [val] reads. *)
Inductive value := Undefined | Null | Str (s : string) | Arr (ss : list string).

Definition val (cell : option control) : value :=
  match cell with
  | None => Undefined
  | Some (Select _ _ None) => Null
  | Some (Select _ _ (Some v)) => Str v
  | Some (MultiSelect _ _ vs) => Arr vs
  | Some (Text _ v | Number _ v | Hidden _ v) => Str v
  end.

Definition falsy (v : value) : bool :=
  match v with Undefined | Null | Str "" => true | _ => false end.

(** [val] as text, null and undefined being the empty one. *)
Definition text_of (v : value) : string :=
  match v with Undefined | Null => "" | Str s => s | Arr ss => join "," ss end.

(** The values [val(v)] chooses in a list. *)
Definition values (v : value) : list string :=
  match v with Arr ss => ss | v => [text_of v] end.

(** The option of a drop-down list that [val] leaves chosen; none when none matches. *)
Definition choose (options : list (string * bool)) (vs : list string) : option string :=
  head (filter (fun o => o ∈ vs) options.*1).

(** The option a browser starts a drop-down list with: the last with the attribute,
    or the first. *)
Definition default_option (options : list (string * bool)) : option string :=
  match last (filter (fun o => o.2 = true) options) with
  | Some o => Some o.1
  | None => fst <$> head options
  end.

Definition unmarked (l : list string) : list (string * bool) := (fun k => (k, false)) <$> l.

(** A new drop-down list with [val(v)]. *)
Definition drop_down (name : string) (options : list (string * bool)) (v : value) : option control :=
  Some (Select name options (choose options (values v))).

(** ** The page *)

(** What the server tells the page (filter.js.php): the keys of its tables in the
    order a loop over them takes, monitors by their order of display, zones with the
    monitor they belong to. *)
Record page := Page {
  states : list string; servers : list string; storageareas : list string;
  monitors : list string; sorted_monitors : list (string * string);
  zones : list (string * string); tags : list string;
}.

(** includes/FilterTerm.php and includes/Filter.php *)
Definition conjTypes : list string := ["and"; "or"].
Definition opTypes : list string :=
  ["="; "!="; ">="; ">"; "<"; "<="; "=~"; "!~"; "=[]"; "![]"; "IS"; "IS NOT"; "LIKE"; "NOT LIKE"].
Definition tags_opTypes : list string := ["="; "!="].
Definition booleanValues : list string := ["false"; "true"].

(** ** Names *)

Inductive field := Cnj | Obr | Attr | Op | Val | Cbr.
#[export] Instance field_eq_dec : EqDecision field.
Proof. solve_decision. Defined.

Definition field_name (f : field) : string :=
  match f with Cnj => "cnj" | Obr => "obr" | Attr => "attr" | Op => "op" | Val => "val" | Cbr => "cbr" end.

Definition index (i : nat) : string := Z_to_string (Z.of_nat i).
Definition queryPrefix : string := "filter[Query][terms][".
Definition cell_name (i : nat) (f : field) : string := queryPrefix ++ index i ++ "][" ++ field_name f ++ "]".

Definition bracket (c : ascii) : bool := Ascii.eqb c "[" || Ascii.eqb c "]".

(** [s.split(/[[\]]{1,2}/)] *)
Fixpoint split_brackets (s : string) : list string :=
  match s with
  | "" => [""]
  | String c t =>
      if bracket c then
        "" :: match t with
              | String d u => if bracket d then split_brackets u else split_brackets t
              | "" => [""]
              end
      else match split_brackets t with
           | w :: ws => String c w :: ws
           | [] => [str1 c]
           end
  end.

Definition stringFilter (term : list string) : string := join "" ((fun item => "[" ++ item ++ "]") <$> term).

(** [term.length--; term.shift(); term[2] = rowNum]: setting an element beyond the
    end leaves holes, which [forEach] skips. *)
Definition renumbered (term : list string) (i : nat) : list string :=
  match tail (removelast term) with
  | a :: b :: _ :: rest => a :: b :: index i :: rest
  | short => (short ++ [index i])%list
  end.

Definition rename (name : string) (i : nat) : string :=
  "filter" ++ stringFilter (renumbered (split_brackets name) i).

(** ** Rows *)

Inductive picker := DateTimePicker | DatePicker | TimePicker.

(** A row's cells.  The browser keeps an option of the attribute's list chosen, and
    no script sets it. *)
Record row := Row {
  cnj : option control; obr : option control;
  attr_name : string; attr_options : list (string * bool); attr : string;
  op : option control; row_val : option control; cbr : option control;
  del_disabled : bool; row_picker : option picker;
}.

Definition ends_with (suffix s : string) : bool :=
  let n := String.length suffix in let m := String.length s in
  (n <=? m)%nat && String.eqb (slice_from s (m - n)) suffix.

Definition picker_of (attr : string) : option picker :=
  if ends_with "DateTime" attr then Some DateTimePicker
  else if ends_with "Date" attr then Some DatePicker
  else if ends_with "Time" attr then Some TimePicker
  else None.

Section Form.
Context (pg : page).
(** The value of an option whose value attribute was written as this text between
    quotes, without escaping. *)
Context (spliced : string -> string).

Definition zone_choices : list string :=
  concat ((fun m => fst <$> filter (fun z => z.2 = m) (zones pg)) <$> monitors pg).

(** The attributes whose value is chosen from a list. *)
Definition choices (attr : string) : option (list string) :=
  if String.eqb attr "Archived" then Some (index <$> seq 0 2)
  else if String.eqb attr "AlarmedZoneId" then Some zone_choices
  else if has "Weekday" attr then Some (index <$> seq 0 7)
  else if String.eqb attr "StateId" then Some (states pg)
  else if bool_decide (attr ∈ ["ServerId"; "MonitorServerId"; "StorageServerId"; "FilterServerId"])
  then Some (servers pg)
  else if bool_decide (attr ∈ ["StorageId"; "SecondaryStorageId"]) then Some (storageareas pg)
  else if String.eqb attr "Monitor" then Some (sorted_monitors pg).*1
  else if String.eqb attr "MonitorName" then Some (spliced <$> (sorted_monitors pg).*2)
  else if String.eqb attr "Tags" then Some (tags pg)
  else if String.eqb attr "ExistsInFileSystem" then Some booleanValues
  else None.

Definition val_cell (i : nat) (attr : string) (v : value) : option control :=
  let name := cell_name i Val in
  match choices attr with
  | Some l =>
      drop_down name (unmarked l) (if String.eqb attr "ExistsInFileSystem" && falsy v then Str "false" else v)
  | None =>
      if String.eqb attr "DiskPercent" then Some (Number name (number_value (text_of v)))
      else Some (Text name (text_of v))
  end.

Definition op_choices (attr : string) : list string :=
  if String.eqb attr "ExistsInFileSystem" then ["IS"; "IS NOT"]
  else if String.eqb attr "Tags" then tags_opTypes
  else opTypes.

Definition default_op (attr : string) : string :=
  if String.eqb attr "ExistsInFileSystem" then "IS" else "=".

Definition op_cell (i : nat) (attr : string) (old : option control) : option control :=
  let old := if String.eqb attr "Archived" then Some (Hidden (cell_name i Op) "=") else old in
  let opVal := if falsy (val old) then Str (default_op attr) else val old in
  let options := (fun key => (key, String.eqb key (text_of opVal))) <$> op_choices attr in
  drop_down (cell_name i Op) options opVal.

Definition cnj_cell (i : nat) (old : option control) : option control :=
  if (i =? 0)%nat then None
  else drop_down (cell_name i Cnj) (unmarked conjTypes)
         match val old with Undefined => Str "and" | cnjVal => cnjVal end.

(** The options "0", "1", .. of the bracket lists of a form of [n] rows. *)
Definition bracket_values (n : nat) : list string := index <$> seq 0 (n - 1).

Definition bracket_cell (n i : nat) (f : field) (old : option control) : option control :=
  if (2 <? n)%nat then
    drop_down (cell_name i f) (unmarked (bracket_values n))
      match val old with Undefined | Null => Str "0" | v => v end
  else None.

(** The body of the loop for row [i] of [n]. *)
Definition parse_row (n i : nat) (r : row) : row := {|
  cnj := cnj_cell i (cnj r);
  obr := bracket_cell n i Obr (obr r);
  attr_name := rename (attr_name r) i; attr_options := attr_options r; attr := attr r;
  op := op_cell i (attr r) (op r);
  row_val := val_cell i (attr r) (val (row_val r));
  cbr := bracket_cell n i Cbr (cbr r);
  del_disabled := (n =? 1)%nat;
  row_picker := picker_of (attr r);
|}.

Definition parseRows (rows : list row) : list row := imap (parse_row (length rows)) rows.

(** ** Adding, deleting and editing terms *)

(** A clone has the lists as their attributes say, and what was typed. *)
Definition clone (c : control) : control :=
  match c with
  | Select n o _ => Select n o (default_option o)
  | MultiSelect n o _ => MultiSelect n o (filter (fun o => o.2 = true) o).*1
  | c => c
  end.

(** [newRow.find('input[type="text"]').val('')] *)
Definition clear_text (c : control) : control := match c with Text n _ => Text n "" | c => c end.

Definition clone_row (r : row) : row :=
  let copy := option_map (fun c => clear_text (clone c)) in {|
  cnj := copy (cnj r); obr := copy (obr r);
  attr_name := attr_name r; attr_options := attr_options r;
  attr := default "" (default_option (attr_options r));
  op := copy (op r); row_val := copy (row_val r); cbr := copy (cbr r);
  del_disabled := del_disabled r; row_picker := row_picker r;
|}.

Definition addTerm (k : nat) (rows : list row) : list row :=
  match rows !! k with
  | Some r => parseRows (take (S k) rows ++ clone_row r :: drop (S k) rows)
  | None => rows
  end.

Definition delTerm (k : nat) (rows : list row) : list row :=
  match rows !! k with
  | Some _ => parseRows (delete k rows)
  | None => rows
  end.

(** What a user does to a control: chooses an option, or types. *)
Definition edit (s : string) (c : control) : control :=
  match c with
  | Select n o old => Select n o (if decide (s ∈ o.*1) then Some s else old)
  | Text n _ => Text n s
  | Number n _ => Number n (number_value s)
  | c => c
  end.

Definition edit_row (f : field) (s : string) (r : row) : row :=
  let e g c := if decide (f = g) then option_map (edit s) c else c in {|
  cnj := e Cnj (cnj r); obr := e Obr (obr r);
  attr_name := attr_name r; attr_options := attr_options r;
  attr := if decide (f = Attr /\ s ∈ (attr_options r).*1) then s else attr r;
  op := e Op (op r); row_val := e Val (row_val r); cbr := e Cbr (cbr r);
  del_disabled := del_disabled r; row_picker := row_picker r;
|}.

(** A change of the attribute runs [checkValue]; the other fields have no handler. *)
Definition edit_cell (k : nat) (f : field) (s : string) (rows : list row) : list row :=
  let rows := alter (edit_row f s) k rows in
  if decide (f = Attr) then parseRows rows else rows.

(** A form's reset: the lists as their attributes say; the texts, which the script
    wrote as properties, are empty. *)
Definition reset (c : control) : control :=
  match clone c with Text n _ => Text n "" | Number n _ => Number n "" | c => c end.

Definition reset_row (r : row) : row :=
  let e := option_map reset in {|
  cnj := e (cnj r); obr := e (obr r);
  attr_name := attr_name r; attr_options := attr_options r;
  attr := default "" (default_option (attr_options r));
  op := e (op r); row_val := e (row_val r); cbr := e (cbr r);
  del_disabled := del_disabled r; row_picker := row_picker r;
|}.

Definition resetFilter (rows : list row) : list row := reset_row <$> rows.

Inductive event :=
| AddTerm (k : nat)
| DelTerm (k : nat)
| Edit (k : nat) (f : field) (s : string)
| Reset.

Definition step (rows : list row) (e : event) : list row :=
  match e with
  | AddTerm k => addTerm k rows
  | DelTerm k =>
      match rows !! k with
      | Some r => if del_disabled r then rows else delTerm k rows
      | None => rows
      end
  | Edit k f s => edit_cell k f s rows
  | Reset => resetFilter rows
  end.

(** [initPage], then what the user does. *)
Definition run (rows : list row) (es : list event) : list row := foldl step (parseRows rows) es.

End Form.

(** ** The controls of the form *)

(** A row's controls in the order of the document. *)
Definition controls (r : row) : list control :=
  (option_list (cnj r) ++ option_list (obr r) ++ [Select (attr_name r) (attr_options r) (Some (attr r))]
   ++ option_list (op r) ++ option_list (row_val r) ++ option_list (cbr r))%list.

Definition elements (rows : list row) (name : string) : list control :=
  filter (fun c => name_of c = name) (concat (controls <$> rows)).

(** [element.value] *)
Definition element_value (c : control) : string :=
  match c with
  | Select _ _ sel => default "" sel
  | MultiSelect _ _ sel => default "" (head sel)
  | Text _ v | Number _ v | Hidden _ v => v
  end.

(** [form.elements[name].value]: [None] is the exception when there is no such
    element; several of a name are a list, whose value is empty. *)
Definition value_at (rows : list row) (i : nat) (f : field) : option string :=
  match elements rows (cell_name i f) with
  | [] => None
  | [c] => Some (element_value c)
  | _ => Some ""
  end.

(** ** Validation *)

Inductive message := ErrorValue | ErrorBrackets | BadLimit | NoArchivedTerm | NoEndTerm | NoAction.
#[export] Instance message_eq_dec : EqDecision message.
Proof. solve_decision. Defined.

(** The form's terms and the rest of its controls; [boxes] has the check boxes that
    are there, by the name between the brackets. *)
Record form := Form {
  rows : list row; limit : string; boxes : gmap string bool; filter_Name : string; AutoExecuteCmd : string;
}.

(** [form.elements['filter[name]'].checked] *)
Definition checked (f : form) (name : string) : option bool := boxes f !! name.

(** [form.elements[..] && form.elements[..].checked] *)
Definition checked_if_there (f : form) (name : string) : option bool := Some (default false (checked f name)).

(** [a || b || ..] over operands that may throw. *)
Fixpoint any_of (operands : list (option bool)) : option bool :=
  match operands with
  | [] => Some false
  | None :: _ => None
  | Some true :: _ => Some true
  | Some false :: operands => any_of operands
  end.

(** The first loop: the sums of the brackets, or [false] for a term without value. *)
Fixpoint count_brackets (rows : list row) (todo : list nat) (obrCount cbrCount : num) : option (num * num + unit) :=
  match todo with
  | [] => Some (inl (obrCount, cbrCount))
  | i :: todo =>
      '(obrCount, cbrCount) ←
        (if (2 <? length rows)%nat then
           obr ← value_at rows i Obr;
           cbr ← value_at rows i Cbr;
           Some ((obrCount + parseInt obr)%num, (cbrCount + parseInt cbr)%num)
         else Some (obrCount, cbrCount));
      v ← value_at rows i Val;
      if String.eqb v "" then Some (inr tt) else count_brackets rows todo obrCount cbrCount
  end.

(** Whether a term's attribute is one of [attrs]. *)
Definition have_term (rows : list row) (attrs : list string) : option bool :=
  any_of ((fun i => (fun a => bool_decide (a ∈ attrs)) <$> value_at rows i Attr) <$> seq 0 (length rows)).

(** What is shown to the user and what the function returns; [answer] is the user's
    to a question. *)
Definition check_actions (f : form) (answer : bool) : option (list message * bool) :=
  delete ← checked f "AutoDelete";
  if delete : bool then
    have_archivestatus_term ← have_term (rows f) ["Archived"];
    if have_archivestatus_term : bool then Some ([], true) else Some ([NoArchivedTerm], answer)
  else
  disk ← checked f "UpdateDiskSpace";
  if disk : bool then
    have_endtime_term ← have_term (rows f) ["EndDateTime"; "EndTime"; "EndDate"];
    if have_endtime_term : bool then Some ([], true) else Some ([NoEndTerm], answer)
  else
  background ← checked f "Background";
  if background : bool then
    action ← any_of [checked f "AutoArchive"; checked f "AutoUnarchive"; checked f "UpdateDiskSpace";
                     checked f "AutoVideo"; checked_if_there f "AutoEmail"; checked_if_there f "AutoMessage";
                     checked f "AutoExecute"; checked f "AutoDelete"; checked f "AutoCopy"; checked f "AutoMove"];
    Some (if action : bool then [] else [NoAction], true)
  else Some ([], true).

Definition validateForm (f : form) (answer : bool) : option (list message * bool) :=
  counts ← count_brackets (rows f) (seq 0 (length (rows f))) (Fin 0) (Fin 0);
  match counts with
  | inr _ => Some ([ErrorValue], false)
  | inl (obrCount, cbrCount) =>
      if negb (neqb (nsub obrCount cbrCount) (Fin 0)) then Some ([ErrorBrackets], false)
      else if negb (all_chars is_digit (limit f)) then Some ([BadLimit], false)
      else check_actions f answer
  end.

(** ** Buttons *)

Record rights := Rights {
  canEdit_Events : bool; canView_Events : bool; canEdit_System : bool;
  user_Id : jsval; filter_UserId : jsval; filter_Id : jsval;
}.

(** Which of Execute, Save (and SaveAs) and Delete are enabled. *)
Definition updateButtons (u : rights) (f : form) : option (bool * bool * bool) :=
  canExecute ←
    (if canEdit_Events u then
       any_of [checked_if_there f "AutoArchive"; checked_if_there f "AutoUnarchive"; checked_if_there f "AutoCopy";
               checked_if_there f "AutoMove"; checked_if_there f "AutoVideo";
               (fun b => b && negb (String.eqb (AutoExecuteCmd f) "")) <$> checked f "AutoExecute";
               checked f "AutoDelete"; checked f "UpdateDiskSpace"; checked_if_there f "AutoUpload";
               checked_if_there f "AutoEmail"; checked_if_there f "AutoMessage"]
     else if canView_Events u then
       any_of [checked_if_there f "AutoUpload"; checked_if_there f "AutoEmail"; checked_if_there f "AutoMessage"]
     else Some false);
  let canWeEdit := canEdit_System u || loose_equals (user_Id u) (filter_UserId u) || negb (js_truthy (filter_Id u)) in
  Some (canExecute, negb (String.eqb (filter_Name f) "") && canWeEdit, js_truthy (filter_Id u) && canWeEdit).

(** ** Leaving the page *)

Inductive effect :=
| SetAction (action : string)
| ReplaceState (url : string)
| Assign (url : string)
| Submit                                 (* form.submit(), which fires no submit event *)
| Confirm (text : string).

(** The buttons; [formData] is the form written as a query. *)
Definition submitToEvents (formData : string) : list effect :=
  [SetAction ""; ReplaceState ("?view=filter&" ++ formData); Assign ("?view=events&" ++ formData)].
Definition submitToMontageReview (formData : string) : list effect :=
  [ReplaceState ("?view=filter&" ++ formData); Assign ("?view=montagereview&live=0&" ++ formData)].
Definition submitToExport (formData : string) : list effect :=
  [ReplaceState ("?view=filter&" ++ formData); Assign ("?view=export&" ++ formData)].
Definition submitAction (button : string) : list effect := [SetAction button; Submit].
Definition deleteFilter (deleteSavedFilterString : string) (f : form) (confirmed : bool) : list effect :=
  Confirm (deleteSavedFilterString ++ " '" ++ filter_Name f ++ "'?")
  :: (if confirmed then [SetAction "delete"; Submit] else []).

(** * Theorems *)

(** ** Lists and their choices *)

Lemma unmarked_keys l : (unmarked l).*1 = l.
Proof. unfold unmarked. rewrite <- list_fmap_compose. apply list_fmap_id. Qed.

Lemma choose_elem o vs s : choose o vs = Some s -> s ∈ o.*1 /\ s ∈ vs.
Proof.
  unfold choose. intros H. apply head_Some_elem_of in H. apply list_elem_of_filter in H. tauto.
Qed.

Lemma choose_one o s : choose o [s] = if decide (s ∈ o.*1) then Some s else None.
Proof.
  case_decide as H.
  - destruct (choose o [s]) as [t|] eqn:E.
    + apply choose_elem in E as [_ E]. apply list_elem_of_singleton in E. congruence.
    + unfold choose in E. destruct (filter _ _) eqn:F; [|discriminate].
      apply list_elem_of_In in H. exfalso.
      assert (I : s ∈ filter (fun o => o ∈ [s]) o.*1)
        by (apply list_elem_of_filter; split; [left|apply list_elem_of_In, H]).
      rewrite F in I. inversion I.
  - destruct (choose o [s]) as [t|] eqn:E; [|reflexivity].
    apply choose_elem in E as [E1 E2]. apply list_elem_of_singleton in E2. subst. contradiction.
Qed.

Lemma choose_keys o o' vs : o.*1 = o'.*1 -> choose o vs = choose o' vs.
Proof. unfold choose. intros ->. reflexivity. Qed.

(** What a list is rebuilt to: [g] is the value kept, [o] the options it gets. *)
Definition rebuilt (name : string) (o : value -> list (string * bool)) (g : value -> value)
  (old : option control) : option control :=
  drop_down name (o (g (val old))) (g (val old)).

Definition is_chosen (cell : option control) : bool :=
  match cell with Some (Select _ _ None) => false | _ => true end.

Section Rebuild.
Context (name : string) (o : value -> list (string * bool)) (g : value -> value) (l : list string).
Hypothesis (keys : forall v, (o v).*1 = l) (kept : forall s, s ∈ l -> g (Str s) = Str s).
Hypothesis (same : forall v w, text_of v = text_of w -> o v = o w).

Lemma rebuilt_chosen old s :
  choose (o (g (val old))) (values (g (val old))) = Some s ->
  rebuilt name o g (rebuilt name o g old) = Some (Select name (o (Str s)) (Some s)).
Proof.
  intros E. pose proof (proj1 (choose_elem _ _ _ E)) as Hs. rewrite keys in Hs.
  unfold rebuilt at 1. change (val (rebuilt name o g old)) with
    (match choose (o (g (val old))) (values (g (val old))) with Some v => Str v | None => Null end).
  rewrite E, kept by exact Hs. unfold drop_down. cbn [values text_of]. rewrite choose_one, decide_True; [reflexivity|].
  rewrite keys. exact Hs.
Qed.

Lemma rebuilt_again old : is_chosen (rebuilt name o g old) = true ->
  (forall s, choose (o (g (val old))) (values (g (val old))) = Some s -> o (Str s) = o (g (val old))) ->
  rebuilt name o g (rebuilt name o g old) = rebuilt name o g old.
Proof.
  intros C Ho. destruct (choose (o (g (val old))) (values (g (val old)))) as [s|] eqn:E.
  - rewrite (rebuilt_chosen _ _ E). unfold rebuilt, drop_down. rewrite E, (Ho s eq_refl). reflexivity.
  - unfold rebuilt, drop_down, is_chosen in C. rewrite E in C. discriminate.
Qed.

Lemma rebuilt_settles old : values (g Null) = [text_of (g Null)] ->
  rebuilt name o g (rebuilt name o g (rebuilt name o g old)) = rebuilt name o g (rebuilt name o g old).
Proof.
  intros N. destruct (choose (o (g (val old))) (values (g (val old)))) as [s|] eqn:E.
  - pose proof (proj1 (choose_elem _ _ _ E)) as Hs. rewrite keys in Hs.
    rewrite (rebuilt_chosen _ _ E). unfold rebuilt, drop_down. cbn [val]. rewrite kept by exact Hs.
    cbn [values text_of]. rewrite choose_one, decide_True by (rewrite keys; exact Hs). reflexivity.
  - assert (V : val (rebuilt name o g old) = Null).
    { unfold rebuilt, drop_down. rewrite E. reflexivity. }
    set (once := rebuilt name o g old) in *. clearbody once.
    destruct (choose (o (g Null)) (values (g Null))) as [s|] eqn:E2.
    + apply rebuilt_again; [unfold rebuilt, drop_down; rewrite V, E2; reflexivity|].
      rewrite V, E2. intros t [= <-]. apply same. pose proof (proj2 (choose_elem _ _ _ E2)) as Hs. rewrite N in Hs.
      apply list_elem_of_singleton in Hs. exact Hs.
    + unfold rebuilt at 1. assert (V2 : val (rebuilt name o g once) = Null).
      { unfold rebuilt, drop_down. rewrite V, E2. reflexivity. }
      rewrite V2. unfold rebuilt. rewrite V. reflexivity.
Qed.
End Rebuild.

(** ** Names *)

Definition plain (s : string) : Prop := all_chars (fun c => negb (bracket c)) s = true.

Lemma split_word w s : plain w ->
  split_brackets (w ++ s) = match split_brackets s with h :: t => (w ++ h) :: t | [] => [w] end.
Proof.
  unfold plain. induction w as [|c w IH]; intros P.
  - cbn. destruct (split_brackets s) eqn:E; [|reflexivity].
    destruct s as [|c s]; [discriminate|]. cbn in E. destruct (bracket c); [discriminate|].
    destruct (split_brackets s); discriminate.
  - cbn [all_chars] in P. bool_to_prop. cbn [append split_brackets]. rewrite H, IH by assumption.
    destruct (split_brackets s); reflexivity.
Qed.

Lemma split_cut c d s : bracket c = true -> bracket d = true ->
  split_brackets (String c (String d s)) = "" :: split_brackets s.
Proof. intros Hc Hd. cbn [split_brackets]. rewrite Hc, Hd. reflexivity. Qed.

Lemma split_cut1 c d s : bracket c = true -> bracket d = false ->
  split_brackets (String c (String d s)) = "" :: split_brackets (String d s).
Proof. intros Hc Hd. cbn [split_brackets]. rewrite Hc, Hd. reflexivity. Qed.

Lemma split_name x y : plain x -> plain y -> split_brackets (queryPrefix ++ x ++ "][" ++ y ++ "]") =
  ["filter"; "Query"; "terms"; x; y; ""].
Proof.
  intros Hx Hy. change (queryPrefix ++ x ++ "][" ++ y ++ "]")
    with ("filter" ++ String "[" ("Query" ++ String "]" (String "[" ("terms" ++ String "]" (String "["
           (x ++ String "]" (String "[" (y ++ "]")))))))).
  rewrite split_word by reflexivity.
  change ("Query" ++ ?r) with (String "Q" ("uery" ++ r)). rewrite split_cut1 by reflexivity.
  change (String "Q" ("uery" ++ ?r)) with ("Query" ++ r). rewrite split_word by reflexivity.
  rewrite split_cut by reflexivity. rewrite split_word by reflexivity. rewrite split_cut by reflexivity.
  rewrite split_word by exact Hx. rewrite split_cut by reflexivity. rewrite split_word by exact Hy.
  change (split_brackets "]") with [""; ""]. cbn. rewrite !append_nil_r. reflexivity.
Qed.

Lemma index_plain i : plain (index i).
Proof.
  unfold plain, index. destruct (Z_to_string_digits (Z.of_nat i) ltac:(lia)) as [D _].
  refine (all_chars_impl _ _ _ _ D). intros c. unfold is_digit, bracket. intros H. bool_to_prop.
  apply negb_true_iff, orb_false_iff. split; apply Ascii.eqb_neq; intros ->; exact (H0 eq_refl).
Qed.

Lemma index_inj i j : index i = index j -> i = j.
Proof.
  intros E. unfold index in E. destruct (Z_to_string_digits (Z.of_nat i) ltac:(lia)) as [_ A].
  destruct (Z_to_string_digits (Z.of_nat j) ltac:(lia)) as [_ B]. rewrite E in A. lia.
Qed.

Lemma field_plain f : plain (field_name f).
Proof. destruct f; reflexivity. Qed.

Lemma cell_name_inj i j f g : cell_name i f = cell_name j g -> i = j /\ f = g.
Proof.
  intros E. apply (f_equal split_brackets) in E. unfold cell_name in E.
  rewrite !split_name in E by auto using index_plain, field_plain.
  injection E as E1 E2. split; [apply index_inj, E1|]. destruct f, g; (reflexivity || discriminate E2).
Qed.

(** The names the server writes. *)
Definition attr_named (s : string) : Prop := exists x, plain x /\ s = queryPrefix ++ x ++ "][attr]".

Lemma cell_attr_named i : attr_named (cell_name i Attr).
Proof. exists (index i). split; [apply index_plain|reflexivity]. Qed.

Lemma rename_cell s i : attr_named s -> rename s i = cell_name i Attr.
Proof.
  intros (x & P & ->). unfold rename.
  change (queryPrefix ++ x ++ "][attr]") with (queryPrefix ++ x ++ "][" ++ "attr" ++ "]").
  rewrite split_name by (exact P || reflexivity). unfold renumbered, stringFilter, cell_name. cbn.
  rewrite <- ?append_assoc. cbn. rewrite !append_assoc. reflexivity.
Qed.

(** ** Rebuilding rows *)

Section Parse.
Context (pg : page) (spliced : string -> string).
Notation parse_row := (parse_row pg spliced).
Notation parseRows := (parseRows pg spliced).
Notation val_cell := (val_cell pg spliced).
Notation choices := (choices pg spliced).

(** A row as the server writes it. *)
Definition rendered (r : row) : Prop :=
  attr_named (attr_name r) /\ match op r with Some (MultiSelect _ _ _) => False | _ => True end.

Definition row_chosen (r : row) : bool :=
  is_chosen (cnj r) && is_chosen (obr r) && is_chosen (op r) && is_chosen (row_val r) && is_chosen (cbr r).

Definition op_marks (attr : string) (v : value) : list (string * bool) :=
  (fun key => (key, String.eqb key (text_of v))) <$> op_choices attr.
Definition op_kept (attr : string) (v : value) : value := if falsy v then Str (default_op attr) else v.
Definition val_kept (attr : string) (v : value) : value :=
  if String.eqb attr "ExistsInFileSystem" && falsy v then Str "false" else v.
Definition cnj_kept (v : value) : value := match v with Undefined => Str "and" | v => v end.
Definition bracket_kept (v : value) : value := match v with Undefined | Null => Str "0" | v => v end.

Lemma op_marks_keys a v : (op_marks a v).*1 = op_choices a.
Proof. unfold op_marks. rewrite <- list_fmap_compose. apply list_fmap_id. Qed.

Lemma nonempty_falsy l s : forallb (fun s => negb (String.eqb s "")) l = true -> s ∈ l -> falsy (Str s) = false.
Proof. intros F H. apply (forallb_elem _ _ _ F) in H. destruct s; [discriminate H|reflexivity]. Qed.

Lemma op_choices_nonempty a : forallb (fun s => negb (String.eqb s "")) (op_choices a) = true.
Proof. unfold op_choices. repeat case_match; reflexivity. Qed.

Lemma op_kept_elem a s : s ∈ op_choices a -> op_kept a (Str s) = Str s.
Proof. intros H. unfold op_kept. rewrite (nonempty_falsy _ _ (op_choices_nonempty a) H). reflexivity. Qed.

Lemma exists_choices : choices "ExistsInFileSystem" = Some booleanValues.
Proof. reflexivity. Qed.

Lemma val_kept_elem a l s : choices a = Some l -> s ∈ l -> val_kept a (Str s) = Str s.
Proof.
  intros C H. unfold val_kept. destruct (String.eqb a "ExistsInFileSystem") eqn:E; [|reflexivity].
  apply String.eqb_eq in E. subst. rewrite exists_choices in C. injection C as <-.
  rewrite (nonempty_falsy booleanValues s eq_refl H). reflexivity.
Qed.

Lemma val_kept_Null a : values (val_kept a Null) = [text_of (val_kept a Null)].
Proof. unfold val_kept. case_match; reflexivity. Qed.

Lemma val_cell_list i a l v : choices a = Some l ->
  val_cell i a v = drop_down (cell_name i Val) (unmarked l) (val_kept a v).
Proof. unfold FilterForm.val_cell. intros ->. reflexivity. Qed.

Lemma val_cell_text i a v : choices a = None ->
  exists c, val_cell i a v = Some c /\ val (Some c) = Str (element_value c) /\ name_of c = cell_name i Val /\
    val_cell i a (Str (element_value c)) = Some c.
Proof.
  unfold FilterForm.val_cell. intros ->. case_match; (eexists; split; [reflexivity|]); repeat split.
  cbn. rewrite number_value_again. reflexivity.
Qed.

Lemma val_cell_settles i a v :
  let once := val_cell i a v in
  let twice := val_cell i a (val once) in
  val_cell i a (val twice) = twice.
Proof.
  cbv zeta. destruct (choices a) as [l|] eqn:C.
  - rewrite !(val_cell_list i a l) by exact C.
    pose proof (rebuilt_settles (cell_name i Val) (fun _ => unmarked l) (val_kept a) l
      (fun _ => unmarked_keys l) (fun s => val_kept_elem a l s C) (fun _ _ _ => eq_refl)) as S.
    destruct v as [| |s|ss].
    + exact (S None (val_kept_Null a)).
    + exact (S (Some (Select "" [] None)) (val_kept_Null a)).
    + exact (S (Some (Text "" s)) (val_kept_Null a)).
    + exact (S (Some (MultiSelect "" [] ss)) (val_kept_Null a)).
  - destruct (val_cell_text i a v C) as (c & E & V & _ & A). rewrite E, V, A, V, A. reflexivity.
Qed.

Lemma val_cell_again i a v : is_chosen (val_cell i a v) = true ->
  val_cell i a (val (val_cell i a v)) = val_cell i a v.
Proof.
  destruct (choices a) as [l|] eqn:C.
  - rewrite !(val_cell_list i a l) by exact C. intros H.
    pose proof (rebuilt_again (cell_name i Val) (fun _ => unmarked l) (val_kept a) l
      (fun _ => unmarked_keys l) (fun s => val_kept_elem a l s C)) as S.
    destruct v as [| |s|ss].
    + exact (S None H (fun _ _ => eq_refl)).
    + exact (S (Some (Select "" [] None)) H (fun _ _ => eq_refl)).
    + exact (S (Some (Text "" s)) H (fun _ _ => eq_refl)).
    + exact (S (Some (MultiSelect "" [] ss)) H (fun _ _ => eq_refl)).
  - intros _. destruct (val_cell_text i a v C) as (c & E & V & _ & A). rewrite E, V, A. reflexivity.
Qed.

Lemma op_cell_archived i old old' : op_cell i "Archived" old = op_cell i "Archived" old'.
Proof. reflexivity. Qed.

Lemma op_cell_rebuilt i a old : a <> "Archived" ->
  op_cell i a old = rebuilt (cell_name i Op) (op_marks a) (op_kept a) old.
Proof. intros N. apply String.eqb_neq in N. unfold op_cell. rewrite N. reflexivity. Qed.

Lemma op_cell_settles i a old : op_cell i a (op_cell i a (op_cell i a old)) = op_cell i a (op_cell i a old).
Proof.
  destruct (decide (a = "Archived")) as [-> |N]; [apply op_cell_archived|].
  rewrite !(op_cell_rebuilt i a) by exact N. apply (rebuilt_settles _ _ _ (op_choices a)).
  - apply op_marks_keys.
  - apply op_kept_elem.
  - unfold op_marks. intros v w ->. reflexivity.
  - reflexivity.
Qed.

Lemma op_cell_again i a old : match old with Some (MultiSelect _ _ _) => False | _ => True end ->
  is_chosen (op_cell i a old) = true -> op_cell i a (op_cell i a old) = op_cell i a old.
Proof.
  intros M. destruct (decide (a = "Archived")) as [-> |N]; [reflexivity|].
  rewrite !(op_cell_rebuilt i a) by exact N. intros H. apply (rebuilt_again _ _ _ (op_choices a)); [| |exact H|].
  - apply op_marks_keys.
  - apply op_kept_elem.
  - intros s E. apply choose_elem in E as [_ E].
    assert (T : exists t, op_kept a (val old) = Str t).
    { unfold op_kept. destruct old as [[? ? [?|]|? ? ?|? ?|? ?|? ?]|]; cbn; try contradiction; repeat case_match; eauto. }
    destruct T as [t T]. rewrite T in *. apply list_elem_of_singleton in E. subst. reflexivity.
Qed.

Lemma cnj_cell_rebuilt i old : i <> 0%nat ->
  cnj_cell i old = rebuilt (cell_name i Cnj) (fun _ => unmarked conjTypes) cnj_kept old.
Proof. intros N. apply Nat.eqb_neq in N. unfold cnj_cell, rebuilt, cnj_kept. rewrite N. destruct (val old); reflexivity. Qed.

Lemma cnj_cell_settles i old : cnj_cell i (cnj_cell i (cnj_cell i old)) = cnj_cell i (cnj_cell i old).
Proof.
  destruct (decide (i = 0%nat)) as [-> |N]; [reflexivity|]. rewrite !(cnj_cell_rebuilt i) by exact N.
  apply (rebuilt_settles _ _ _ conjTypes); intros; (apply unmarked_keys || reflexivity).
Qed.

Lemma cnj_cell_again i old : is_chosen (cnj_cell i old) = true -> cnj_cell i (cnj_cell i old) = cnj_cell i old.
Proof.
  destruct (decide (i = 0%nat)) as [-> |N]; [reflexivity|]. rewrite !(cnj_cell_rebuilt i) by exact N.
  intros C. apply (rebuilt_again _ _ _ conjTypes); intros; (exact C || apply unmarked_keys || reflexivity).
Qed.

Lemma bracket_cell_rebuilt n i f old : (2 < n)%nat -> bracket_cell n i f old =
  rebuilt (cell_name i f) (fun _ => unmarked (bracket_values n)) bracket_kept old.
Proof.
  intros N. apply Nat.ltb_lt in N. unfold bracket_cell. rewrite N.
  unfold rebuilt, bracket_kept. destruct (val old); reflexivity.
Qed.

Lemma bracket_cell_none n i f old : (n <= 2)%nat -> bracket_cell n i f old = None.
Proof. intros N. apply Nat.ltb_ge in N. unfold bracket_cell. rewrite N. reflexivity. Qed.

Lemma bracket_cell_settles n i f old :
  bracket_cell n i f (bracket_cell n i f (bracket_cell n i f old)) = bracket_cell n i f (bracket_cell n i f old).
Proof.
  destruct (decide (2 < n)%nat) as [N|N]; [|rewrite !bracket_cell_none by lia; reflexivity].
  rewrite !(bracket_cell_rebuilt n i f) by exact N.
  apply (rebuilt_settles _ _ _ (bracket_values n)); intros; (apply unmarked_keys || reflexivity).
Qed.

Lemma bracket_cell_again n i f old : is_chosen (bracket_cell n i f old) = true ->
  bracket_cell n i f (bracket_cell n i f old) = bracket_cell n i f old.
Proof.
  destruct (decide (2 < n)%nat) as [N|N]; [|rewrite !bracket_cell_none by lia; reflexivity].
  rewrite !(bracket_cell_rebuilt n i f) by exact N. intros C.
  apply (rebuilt_again _ _ _ (bracket_values n)); intros; (exact C || apply unmarked_keys || reflexivity).
Qed.

Lemma parse_row_settles n i r : attr_named (attr_name r) ->
  parse_row n i (parse_row n i (parse_row n i r)) = parse_row n i (parse_row n i r).
Proof.
  intros A. unfold FilterForm.parse_row. cbn [cnj obr attr_name attr_options attr op row_val cbr].
  rewrite cnj_cell_settles, !bracket_cell_settles, op_cell_settles, val_cell_settles.
  rewrite (rename_cell _ i A), !(rename_cell _ i (cell_attr_named i)). reflexivity.
Qed.

Lemma parse_row_again n i r : rendered r -> row_chosen (parse_row n i r) = true ->
  parse_row n i (parse_row n i r) = parse_row n i r.
Proof.
  intros [A M] C. unfold row_chosen in C. unfold FilterForm.parse_row in *.
  cbn [cnj obr attr_name attr_options attr op row_val cbr] in *. bool_to_prop.
  rewrite cnj_cell_again, !bracket_cell_again, op_cell_again, val_cell_again by assumption.
  rewrite (rename_cell _ i A), !(rename_cell _ i (cell_attr_named i)). reflexivity.
Qed.

Lemma parseRows_length rows : length (parseRows rows) = length rows.
Proof. apply length_imap. Qed.

Lemma parseRows_lookup rows i : parseRows rows !! i = parse_row (length rows) i <$> rows !! i.
Proof. apply list_lookup_imap. Qed.

Lemma parseRows_ext rows rows' : length rows = length rows' ->
  (forall i r r', rows !! i = Some r -> rows' !! i = Some r' -> parse_row (length rows) i r = parse_row (length rows) i r') ->
  parseRows rows = parseRows rows'.
Proof.
  intros L H. apply list_eq. intros i. rewrite !parseRows_lookup, <- L.
  destruct (rows !! i) as [r|] eqn:E, (rows' !! i) as [r'|] eqn:E'; cbn.
  - f_equal. eauto.
  - apply lookup_lt_Some in E. apply lookup_ge_None in E'. lia.
  - apply lookup_lt_Some in E'. apply lookup_ge_None in E. lia.
  - reflexivity.
Qed.

End Parse.

(** ** Rows that are numbered *)

#[local] Arguments cell_name : simpl never.
#[local] Arguments Nat.ltb : simpl never.
#[local] Arguments Nat.eqb : simpl never.

(** A drop-down list the script built of [l]. *)
Definition list_of (name : string) (l : list string) (cell : option control) : Prop :=
  exists sel, cell = Some (Select name (unmarked l) sel) /\ forall v, sel = Some v -> v ∈ l.

Definition cell (r : row) (f : field) : option control :=
  match f with
  | Cnj => cnj r | Obr => obr r | Attr => Some (Select (attr_name r) (attr_options r) (Some (attr r)))
  | Op => op r | Val => row_val r | Cbr => cbr r
  end.

(** Row [i] of [n]: its controls bear its number, the first has no conjunction, and
    there are brackets as soon as there are three rows. *)
Record numbered (n i : nat) (r : row) : Prop := {
  nb_cnj : if (i =? 0)%nat then cnj r = None else list_of (cell_name i Cnj) conjTypes (cnj r);
  nb_bracket : forall f, f = Obr \/ f = Cbr ->
    if (2 <? n)%nat then list_of (cell_name i f) (bracket_values n) (cell r f) else cell r f = None;
  nb_attr : attr_name r = cell_name i Attr;
  nb_op : exists o sel, op r = Some (Select (cell_name i Op) o sel);
  nb_val : exists c, row_val r = Some c /\ name_of c = cell_name i Val;
  nb_del : del_disabled r = (n =? 1)%nat;
}.

Definition formed (rows : list row) : Prop :=
  rows <> [] /\ forall i r, rows !! i = Some r -> numbered (length rows) i r.

Lemma drop_down_list name l v : list_of name l (drop_down name (unmarked l) v).
Proof.
  eexists. split; [reflexivity|]. intros s E. apply choose_elem in E as [E _]. rewrite unmarked_keys in E. exact E.
Qed.

Lemma default_option_elem o s : default_option o = Some s -> s ∈ o.*1.
Proof.
  unfold default_option. destruct (last _) as [p|] eqn:L.
  - intros [= <-]. apply last_Some_elem_of in L. apply list_elem_of_filter in L. apply list_elem_of_fmap. exists p. tauto.
  - destruct o as [|p o]; [discriminate|]. intros [= <-]. left.
Qed.

(** A user's edit and a reset leave a list the same list. *)
Lemma list_of_edit name l s c : list_of name l c -> list_of name l (option_map (edit s) c).
Proof.
  intros (sel & -> & H). eexists. split; [reflexivity|]. intros v E. rewrite unmarked_keys in E. case_decide as D; [|auto].
  injection E as <-. exact D.
Qed.

Lemma list_of_reset name l c : list_of name l c -> list_of name l (option_map reset c).
Proof.
  intros (sel & -> & H). eexists. split; [reflexivity|]. intros v E.
  apply default_option_elem in E. rewrite unmarked_keys in E. exact E.
Qed.

Section Numbering.
Context (pg : page) (spliced : string -> string).
Notation parse_row := (parse_row pg spliced).
Notation parseRows := (parseRows pg spliced).

Lemma parse_row_numbered n i r : attr_named (attr_name r) -> numbered n i (parse_row n i r).
Proof.
  intros A. split; cbn [FilterForm.parse_row cnj attr_name op row_val del_disabled].
  - unfold cnj_cell. case_match; [reflexivity|]. apply drop_down_list.
  - intros f [-> | ->]; cbn [cell FilterForm.parse_row obr cbr]; unfold bracket_cell; case_match; (reflexivity || apply drop_down_list).
  - apply rename_cell, A.
  - eexists _, _. reflexivity.
  - unfold val_cell. repeat case_match; (eexists; split; reflexivity).
  - reflexivity.
Qed.

Lemma parseRows_formed rows : rows <> [] -> Forall (fun r => attr_named (attr_name r)) rows -> formed (parseRows rows).
Proof.
  intros N F. split.
  - intros E. apply (f_equal length) in E. rewrite parseRows_length in E. destruct rows; [congruence|discriminate].
  - intros i r. rewrite parseRows_lookup, parseRows_length. intros E.
    apply fmap_Some in E as (r0 & E & ->). apply parse_row_numbered. eapply Forall_lookup_1 in F; eauto.
Qed.

Lemma formed_names rows : formed rows -> Forall (fun r => attr_named (attr_name r)) rows.
Proof.
  intros [_ F]. apply Forall_lookup_2. intros i r E. rewrite (nb_attr _ _ _ (F i r E)). apply cell_attr_named.
Qed.

Lemma edit_row_numbered n i f s r : numbered n i r -> numbered n i (edit_row f s r).
Proof.
  intros [C B A (o & sel & O) (c & V & N) D].
  split; cbn [edit_row cnj attr_name op row_val del_disabled]; [| |exact A| | |exact D].
  - destruct (i =? 0)%nat; case_decide; first [exact C|rewrite C; reflexivity|apply list_of_edit, C].
  - intros g [-> | ->]; [specialize (B Obr (or_introl eq_refl))|specialize (B Cbr (or_intror eq_refl))];
      cbn in *; destruct (2 <? n)%nat; case_decide; first [exact B|rewrite B; reflexivity|apply list_of_edit, B].
  - rewrite O. case_decide; eexists _, _; reflexivity.
  - rewrite V. case_decide; eexists; (split; [reflexivity|]); [|exact N]. destruct c; exact N.
Qed.

Lemma reset_row_numbered n i r : numbered n i r -> numbered n i (reset_row r).
Proof.
  intros [C B A (o & sel & O) (c & V & N) D].
  split; cbn [reset_row cnj attr_name op row_val del_disabled]; [| |exact A| | |exact D].
  - destruct (i =? 0)%nat; first [rewrite C; reflexivity|apply list_of_reset, C].
  - intros g [-> | ->]; [specialize (B Obr (or_introl eq_refl))|specialize (B Cbr (or_intror eq_refl))];
      cbn in *; destruct (2 <? n)%nat; first [rewrite B; reflexivity|apply list_of_reset, B].
  - rewrite O. eexists _, _. reflexivity.
  - rewrite V. eexists. split; [reflexivity|]. destruct c; exact N.
Qed.

Lemma edit_formed k f s rows : formed rows -> formed (alter (edit_row f s) k rows).
Proof.
  intros [N F]. split.
  - intros E. apply (f_equal length) in E. rewrite length_alter in E. destruct rows; [congruence|discriminate].
  - intros i r. rewrite length_alter. destruct (decide (k = i)) as [-> |Hk].
    + rewrite list_lookup_alter_eq. intros E. apply fmap_Some in E as (r0 & E & ->). apply edit_row_numbered, F, E.
    + rewrite list_lookup_alter_ne by exact Hk. apply F.
Qed.

Lemma step_formed rows e : formed rows -> formed (step pg spliced rows e).
Proof.
  intros H. pose proof (formed_names _ H) as A. pose proof H as [N F]. destruct e as [k|k|k f s|]; cbn [step].
  - unfold addTerm. destruct (rows !! k) as [r|] eqn:E; [|exact H]. apply parseRows_formed.
    + intros X. apply app_eq_nil in X as [_ X]. discriminate.
    + apply Forall_app. split; [apply Forall_take, A|]. constructor; [|apply Forall_drop, A].
      change (attr_named (attr_name r)). eapply Forall_lookup_1 in A; eauto.
  - destruct (rows !! k) as [r|] eqn:E; [|exact H]. destruct (del_disabled r) eqn:D; [exact H|].
    unfold delTerm. rewrite E. apply parseRows_formed.
    + rewrite (nb_del _ _ _ (F _ _ E)) in D. apply Nat.eqb_neq in D. pose proof (lookup_lt_Some _ _ _ E).
      intros X. apply (f_equal length) in X. rewrite length_delete in X by eauto. cbn in X. lia.
    + apply Forall_delete, A.
  - unfold edit_cell. pose proof (edit_formed k f s rows H) as G. destruct (decide (f = Attr)); [|exact G].
    apply parseRows_formed; [apply G|apply formed_names, G].
  - split.
    + destruct rows; [congruence|discriminate].
    + intros i r. unfold resetFilter. rewrite list_lookup_fmap, length_fmap. intros E.
      apply fmap_Some in E as (r0 & E & ->). apply reset_row_numbered, F, E.
Qed.

Lemma run_formed rows es : rows <> [] -> Forall rendered rows -> formed (run pg spliced rows es).
Proof.
  intros N F. unfold run. assert (H : formed (parseRows rows)).
  { apply parseRows_formed; [exact N|]. eapply Forall_impl; [exact F|]. intros r []. assumption. }
  revert H. generalize (parseRows rows). induction es as [|e es IH]; intros rs H; [exact H|].
  apply IH, step_formed, H.
Qed.
End Numbering.

(** ** What the form finds under a name *)

Definition fields_in_order : list field := [Cnj; Obr; Attr; Op; Val; Cbr].

Lemma controls_cells r : controls r = concat ((fun f => option_list (cell r f)) <$> fields_in_order).
Proof. unfold controls. cbn. rewrite app_nil_r. reflexivity. Qed.

Lemma cell_named n i r f c : numbered n i r -> cell r f = Some c -> name_of c = cell_name i f.
Proof.
  intros [C B A (o & sel & O) (v & V & N) _] E. destruct f; cbn in E.
  - destruct (i =? 0)%nat; [congruence|]. destruct C as (? & C & _). rewrite C in E. injection E as <-. reflexivity.
  - specialize (B Obr (or_introl eq_refl)). cbn in B. case_match; [|congruence].
    destruct B as (? & B & _). rewrite B in E. injection E as <-. reflexivity.
  - injection E as <-. exact A.
  - rewrite O in E. injection E as <-. reflexivity.
  - rewrite V in E. injection E as <-. exact N.
  - specialize (B Cbr (or_intror eq_refl)). cbn in B. case_match; [|congruence].
    destruct B as (? & B & _). rewrite B in E. injection E as <-. reflexivity.
Qed.

Lemma filter_cell n i j r f g : numbered n j r ->
  filter (fun c => name_of c = cell_name i f) (option_list (cell r g)) =
  if decide (j = i /\ g = f) then option_list (cell r g) else [].
Proof.
  intros H. destruct (cell r g) as [c|] eqn:E; [|case_decide; reflexivity].
  change (option_list (Some c)) with [c].
  pose proof (cell_named _ _ _ _ _ H E) as N. rewrite filter_cons, filter_nil. destruct (decide (j = i /\ g = f)) as [[-> ->]|D].
  - rewrite decide_True by exact N. reflexivity.
  - rewrite decide_False; [reflexivity|]. rewrite N. intros X. apply cell_name_inj in X. contradiction.
Qed.

Lemma filter_concat {A} (P : A -> Prop) `{!forall x, Decision (P x)} (ls : list (list A)) :
  filter P (concat ls) = concat (filter P <$> ls).
Proof. induction ls as [|l ls IH]; cbn; [reflexivity|]. rewrite filter_app, IH. reflexivity. Qed.

Lemma filter_row n i j r f : numbered n j r ->
  filter (fun c => name_of c = cell_name i f) (controls r) = if decide (j = i) then option_list (cell r f) else [].
Proof.
  intros H. rewrite controls_cells, filter_concat. unfold fields_in_order. rewrite !fmap_cons, !fmap_nil.
  rewrite !(filter_cell n i j r f) by exact H. cbn [concat].
  destruct (decide (j = i)) as [-> |Hj].
  - assert (S : forall g (l : list control), (if decide (i = i /\ g = f) then l else []) = if decide (g = f) then l else []).
    { intros g l. repeat case_decide; tauto. }
    rewrite !S. destruct f; cbn; rewrite ?app_nil_r; reflexivity.
  - rewrite !decide_False by tauto. reflexivity.
Qed.

Lemma elements_cell rows i r f : formed rows -> rows !! i = Some r -> elements rows (cell_name i f) = option_list (cell r f).
Proof.
  intros [_ F] E. unfold elements. rewrite filter_concat.
  assert (M : filter (fun c => name_of c = cell_name i f) <$> (controls <$> rows) =
              imap (fun j r => if decide (j = i) then option_list (cell r f) else []) rows).
  { apply list_eq. intros j. rewrite !list_lookup_fmap, list_lookup_imap. destruct (rows !! j) as [r'|] eqn:Ej; [|reflexivity].
    cbn [fmap option_fmap option_map]. f_equal. apply (filter_row (length rows)), F, Ej. }
  rewrite M. clear M. clear F. revert i E. induction rows as [|r0 rows IH]; intros i E; [discriminate|].
  rewrite imap_cons. cbn [concat]. destruct i as [|i].
  - injection E as ->. rewrite decide_True by reflexivity.
    assert (Z : concat (imap ((fun (j : nat) r => if decide (j = 0%nat) then option_list (cell r f) else []) ∘ S) rows) = []).
    { rewrite (imap_ext _ (fun _ _ => [])) by (intros j x _; cbn; apply decide_False; discriminate).
      clear. induction rows as [|x rows IH]; [reflexivity|exact IH]. }
    rewrite Z, app_nil_r. reflexivity.
  - rewrite decide_False by discriminate. cbn. rewrite <- (IH i E). f_equal. apply imap_ext.
    intros j x _. cbn. repeat case_decide; (reflexivity || lia).
Qed.

Definition cell_value (r : row) (f : field) : string :=
  match cell r f with Some c => element_value c | None => "" end.

Lemma value_at_cell rows i r f c : formed rows -> rows !! i = Some r -> cell r f = Some c ->
  value_at rows i f = Some (cell_value r f).
Proof. intros H E C. unfold value_at, cell_value. rewrite (elements_cell rows i r f H E), C. reflexivity. Qed.

(** ** What a rebuilt row keeps *)

(** A term: its attribute, its operator and its value. *)
Definition content (r : row) : string * string * string := (attr r, cell_value r Op, cell_value r Val).

Section Terms.
Context (pg : page) (spliced : string -> string).
Notation parse_row := (parse_row pg spliced).
Notation parseRows := (parseRows pg spliced).
Notation val_cell := (val_cell pg spliced).
Notation choices := (choices pg spliced).
Notation addTerm := (addTerm pg spliced).
Notation delTerm := (delTerm pg spliced).

(** A value that a term of the attribute can have. *)
Definition value_fits (a v : string) : Prop :=
  match choices a with
  | Some l => v ∈ l
  | None => a = "DiskPercent" -> number_value v = v
  end.

(** A term whose operator and value are chosen and are its attribute's. *)
Record valid_term (r : row) : Prop := {
  vt_op : exists o, val (op r) = Str o /\ o ∈ op_choices (attr r) /\ (attr r = "Archived" -> o = "=");
  vt_val : exists v, val (row_val r) = Str v /\ value_fits (attr r) v;
}.

Lemma val_element c s : val (Some c) = Str s -> element_value c = s.
Proof. destruct c as [? ? [?|]|? ? ?|? ?|? ?|? ?]; cbn; congruence. Qed.

Lemma val_cell_value r f s : val (cell r f) = Str s -> cell_value r f = s.
Proof. unfold cell_value. destruct (cell r f) as [c|]; [apply val_element|discriminate]. Qed.

Lemma drop_down_keeps name o s : s ∈ o.*1 -> val (drop_down name o (Str s)) = Str s.
Proof. intros H. unfold drop_down. cbn [val values text_of]. rewrite choose_one, decide_True by exact H. reflexivity. Qed.

Lemma op_cell_keeps i a old o : val old = Str o -> o ∈ op_choices a -> (a = "Archived" -> o = "=") ->
  val (op_cell i a old) = Str o.
Proof.
  intros V H A. destruct (decide (a = "Archived")) as [-> |N].
  - rewrite (A eq_refl). reflexivity.
  - rewrite op_cell_rebuilt by exact N. unfold rebuilt. rewrite V, op_kept_elem by exact H.
    apply drop_down_keeps. rewrite op_marks_keys. exact H.
Qed.

Lemma val_cell_keeps i a s : value_fits a s -> val (val_cell i a (Str s)) = Str s.
Proof.
  unfold value_fits. destruct (choices a) as [l|] eqn:C; intros H.
  - rewrite (val_cell_list pg spliced i a l) by exact C. rewrite (val_kept_elem pg spliced a l s C H).
    apply drop_down_keeps. rewrite unmarked_keys. exact H.
  - unfold FilterForm.val_cell. rewrite C. destruct (String.eqb a "DiskPercent") eqn:E; [|reflexivity].
    apply String.eqb_eq in E. cbn. rewrite (H E). reflexivity.
Qed.

Lemma parse_row_keeps n i r : valid_term r -> content (parse_row n i r) = content r /\ valid_term (parse_row n i r).
Proof.
  intros [(o & O & Ho & Ha) (v & V & F)].
  pose proof (op_cell_keeps i (attr r) (op r) o O Ho Ha) as O'.
  assert (V' : val (val_cell i (attr r) (val (row_val r))) = Str v) by (rewrite V; apply val_cell_keeps, F).
  split.
  - unfold content. rewrite (val_cell_value r Op o O), (val_cell_value r Val v V).
    rewrite (val_cell_value (parse_row n i r) Op o O'), (val_cell_value (parse_row n i r) Val v V'). reflexivity.
  - split; [exists o; auto|exists v; auto].
Qed.

Lemma imap_keeps n (g : nat -> nat) rows : Forall valid_term rows ->
  content <$> imap (fun i => parse_row n (g i)) rows = content <$> rows.
Proof.
  intros F. apply list_eq. intros i. rewrite !list_lookup_fmap, list_lookup_imap.
  destruct (rows !! i) as [r|] eqn:E; [|reflexivity]. cbn [fmap option_fmap option_map]. f_equal.
  apply parse_row_keeps. eapply Forall_lookup_1 in F; eauto.
Qed.

Lemma parseRows_keeps rows : Forall valid_term rows ->
  content <$> parseRows rows = content <$> rows /\ Forall valid_term (parseRows rows).
Proof.
  intros F. split.
  - exact (imap_keeps (length rows) (fun i => i) rows F).
  - apply Forall_lookup_2. intros i r. rewrite parseRows_lookup. intros E. apply fmap_Some in E as (r0 & E & ->).
    apply parse_row_keeps. eapply Forall_lookup_1 in F; eauto.
Qed.

Lemma parseRows_insert xs new ys : Forall valid_term (xs ++ ys) ->
  content <$> parseRows (xs ++ new :: ys) =
  ((content <$> xs) ++ content (parse_row (length (xs ++ new :: ys)) (length xs) new) :: (content <$> ys))%list.
Proof.
  intros F. apply Forall_app in F as [Fx Fy]. unfold FilterForm.parseRows. set (n := length (xs ++ new :: ys)).
  rewrite imap_app, fmap_app, imap_cons, fmap_cons. 
  rewrite (imap_keeps n (fun i => i) xs Fx : content <$> imap (parse_row n) xs = _). f_equal.
  unfold compose. rewrite Nat.add_0_r. f_equal. exact (imap_keeps n (fun i => (length xs + S i)%nat) ys Fy).
Qed.

Lemma clone_value_empty n i r : choices (attr (parse_row n i (clone_row r))) = None ->
  (exists name text, row_val r = Some (Text name text)) -> cell_value (parse_row n i (clone_row r)) Val = "".
Proof.
  intros C (name & text & T). unfold cell_value.
  change (cell (parse_row n i (clone_row r)) Val) with (val_cell i (attr (clone_row r)) (val (row_val (clone_row r)))).
  change (attr (parse_row n i (clone_row r))) with (attr (clone_row r)) in C. unfold FilterForm.val_cell. rewrite C.
  change (row_val (clone_row r)) with (option_map (fun c => clear_text (clone c)) (row_val r)). rewrite T.
  destruct (String.eqb (attr (clone_row r)) "DiskPercent"); reflexivity.
Qed.

(** The bracket kept of [b] among [n] rows: the first option when there was none,
    none when the list has no such option. *)
Definition bracket_after (n : nat) (b : string) : string :=
  if decide (n <= 2)%nat then ""
  else let b := if String.eqb b "" then "0" else b in
       if decide (b ∈ bracket_values n) then b else "".

Lemma index_nonempty i : index i <> "".
Proof.
  unfold index. destruct (Z.of_nat i) as [|p|p] eqn:E; [discriminate| |lia].
  destruct (Z_to_string_head p) as (c & s & -> & _). discriminate.
Qed.

(** A bracket's cell is a list of the script's, or nothing. *)
Definition bracket_ok (c : option control) : Prop :=
  match c with None => True | Some (Select _ _ sel) => sel <> Some "" | _ => False end.

Lemma bracket_after_cell n i f c : bracket_ok c ->
  match bracket_cell n i f c with Some c => element_value c | None => "" end =
  bracket_after n (match c with Some c => element_value c | None => "" end).
Proof.
  intros H. unfold bracket_after. case_decide as N; [rewrite bracket_cell_none by exact N; reflexivity|].
  rewrite bracket_cell_rebuilt by lia. unfold rebuilt, drop_down. cbn [element_value].
  set (b := if String.eqb _ "" then _ else _).
  assert (E : bracket_kept (val c) = Str b).
  { unfold b. destruct c as [[? ? [s|]|? ? ?|? ?|? ?|? ?]|]; cbn in H; try (exfalso; exact H); try reflexivity.
    cbn. destruct (String.eqb s "") eqn:E; [|reflexivity]. apply String.eqb_eq in E. congruence. }
  rewrite E. cbn [values text_of]. rewrite choose_one, unmarked_keys. case_decide; reflexivity.
Qed.

Lemma numbered_bracket_ok n i r f : f = Obr \/ f = Cbr -> numbered n i r -> bracket_ok (cell r f).
Proof.
  intros Hf N. pose proof (nb_bracket _ _ _ N f Hf) as B. destruct (2 <? n)%nat; [|rewrite B; exact I].
  destruct B as (sel & -> & H). cbn. intros ->. specialize (H "" eq_refl). unfold bracket_values in H.
  apply list_elem_of_fmap in H as (k & H & _). symmetry in H. exact (index_nonempty k H).
Qed.

Lemma parseRows_brackets rows f : f = Obr \/ f = Cbr -> Forall (fun r => bracket_ok (cell r f)) rows ->
  (fun r => cell_value r f) <$> parseRows rows = (fun r => bracket_after (length rows) (cell_value r f)) <$> rows.
Proof.
  intros Hf F. apply list_eq. intros i. rewrite !list_lookup_fmap, parseRows_lookup.
  destruct (rows !! i) as [r|] eqn:E; [|reflexivity]. cbn [fmap option_fmap option_map]. f_equal.
  eapply Forall_lookup_1 in F; [|exact E]. cbn in F. unfold cell_value.
  destruct Hf as [-> | ->]; apply (bracket_after_cell _ i _ _ F).
Qed.

Lemma formed_brackets rows f : f = Obr \/ f = Cbr -> formed rows -> Forall (fun r => bracket_ok (cell r f)) rows.
Proof. intros Hf [_ F]. apply Forall_lookup_2. intros i r E. eapply numbered_bracket_ok; eauto. Qed.

Lemma length_delete_lookup {A} (xs : list A) k x : xs !! k = Some x -> length (delete k xs) = (length xs - 1)%nat.
Proof. intros E. pose proof (length_delete xs k (ex_intro _ x E)). lia. Qed.

Lemma delTerm_parse k rows r : rows !! k = Some r -> delTerm k rows = parseRows (delete k rows).
Proof. intros E. unfold FilterForm.delTerm. rewrite E. reflexivity. Qed.

Lemma addTerm_parse k rows r : rows !! k = Some r ->
  addTerm k rows = parseRows (take (S k) rows ++ clone_row r :: drop (S k) rows)%list.
Proof. intros E. unfold FilterForm.addTerm. rewrite E. reflexivity. Qed.

Lemma delTerm_brackets k rows r f : f = Obr \/ f = Cbr -> formed rows -> rows !! k = Some r ->
  (fun r => cell_value r f) <$> delTerm k rows =
  bracket_after (length rows - 1) <$> delete k ((fun r => cell_value r f) <$> rows).
Proof.
  intros Hf H E. rewrite (delTerm_parse k rows r E), parseRows_brackets; [|exact Hf|apply Forall_delete, formed_brackets; assumption].
  rewrite (length_delete_lookup _ _ _ E). rewrite <- list_fmap_delete, <- list_fmap_compose. reflexivity.
Qed.

(** Deleting a term leaves the others, in their order; of their brackets those that
    the shorter lists still have. *)
Lemma delTerm_keeps k rows r : formed rows -> Forall valid_term rows -> rows !! k = Some r ->
  content <$> delTerm k rows = delete k (content <$> rows) /\ Forall valid_term (delTerm k rows) /\
  forall f, f = Obr \/ f = Cbr ->
    (fun r => cell_value r f) <$> delTerm k rows =
    bracket_after (length rows - 1) <$> delete k ((fun r => cell_value r f) <$> rows).
Proof.
  intros H F E. rewrite (delTerm_parse k rows r E).
  destruct (parseRows_keeps (delete k rows)) as [A B]; [apply Forall_delete, F|].
  split; [rewrite A; apply list_fmap_delete|split; [exact B|]]. intros f Hf. rewrite <- (delTerm_parse k rows r E).
  eapply delTerm_brackets; eauto.
Qed.
End Terms.

(** ** Counting brackets *)

(** A number that is the integer [z]. *)
Definition is_int (z : Z) (x : num) : Prop := exists q, x = Fin q /\ (q == inject_Z z)%Q.

Lemma is_int_of z : Z.abs z <= 2 ^ 53 -> is_int z (num_of_Z z).
Proof. exact (num_of_Z_exact z). Qed.

Lemma rnd_int z q : Z.abs z <= 2 ^ 53 -> (q == inject_Z z)%Q -> is_int z (rnd q).
Proof.
  intros H E. destruct (wf_Z z H) as [D [L U]]. destruct (rnd_exact q) as (v & -> & V).
  - rewrite E. exact D.
  - split; rewrite E; assumption.
  - exists v. split; [reflexivity|]. rewrite V. exact E.
Qed.

Lemma is_int_add a b x y : is_int a x -> is_int b y -> Z.abs (a + b) <= 2 ^ 53 -> is_int (a + b) (x + y)%num.
Proof.
  intros (p & -> & P) (q & -> & Q) H. apply rnd_int; [exact H|]. rewrite P, Q, <- inject_Z_plus. reflexivity.
Qed.

Lemma is_int_difference a b x y : is_int a x -> is_int b y -> Z.abs (a - b) <= 2 ^ 53 ->
  neqb (x - y)%num (Fin 0) = true <-> a = b.
Proof.
  intros (p & -> & P) (q & -> & Q) H. unfold nsub. cbn [nopp].
  assert (N : is_int (- b) (Fin (Qred (- q)))).
  { exists (Qred (- q)). split; [reflexivity|]. rewrite Qred_correct, Q, inject_Z_opp. reflexivity. }
  destruct (is_int_add a (- b) (Fin p) _ (ex_intro _ p (conj eq_refl P)) N ltac:(lia)) as (r & -> & R).
  unfold neqb. cbn [nleb]. rewrite andb_true_iff, !Qle_bool_iff, R. change 0%Q with (inject_Z 0).
  rewrite <- !Zle_Qle. lia.
Qed.

Lemma not_radix k s : digits s -> starts_with "0x" (index k ++ s) || starts_with "0X" (index k ++ s) = false.
Proof.
  intros D. destruct (Z_to_string_digits (Z.of_nat k) ltac:(lia)) as [Dk _]. fold (index k) in Dk.
  pose proof (proj2 (digits_app (index k) s) (conj Dk D)) as E. unfold digits in E.
  destruct (index k ++ s) as [|a [|b t]]; [reflexivity|cbn; destruct (Ascii.eqb "0" a); reflexivity|].
  cbn [all_chars] in E. bool_to_prop. cbn [starts_with].
  assert (X : Ascii.eqb "x" b = false /\ Ascii.eqb "X" b = false).
  { split; apply Ascii.eqb_neq; intros <-; discriminate. }
  destruct X as [-> ->]. rewrite !andb_false_r. reflexivity.
Qed.

Lemma parseInt_index k : Z.of_nat k <= 2 ^ 53 -> is_int (Z.of_nat k) (parseInt (index k)).
Proof.
  intros H. destruct (Z_to_string_digits (Z.of_nat k) ltac:(lia)) as [D V]. fold (index k) in D, V.
  pose proof (not_radix k "" eq_refl) as R. rewrite append_nil_r in R.
  pose proof (read_digits_all (index k) "" 0 0 D I) as E. rewrite append_nil_r, V in E.
  pose proof (index_nonempty k) as N. unfold parseInt.
  destruct (index k) as [|c s] eqn:X; [congruence|]. unfold digits in D. cbn [all_chars] in D.
  apply andb_true_iff in D as [H0 _]. destruct (digit_not_other c H0) as (W & M & P & _). cbn [trim_start]. rewrite W. cbn [read_sign]. rewrite M, P.
  rewrite R, E. cbn [String.length Nat.add signed]. apply is_int_of. lia.
Qed.

Definition sum_of (f : field) (x : num) (rs : list row) : num :=
  foldl (fun a r => (a + parseInt (cell_value r f))%num) x rs.

Lemma sum_of_int f rs : forall x z ks, is_int z x -> 0 <= z ->
  Forall2 (fun r k => cell_value r f = index k) rs ks -> z + Z.of_nat (sum_list ks) <= 2 ^ 53 ->
  is_int (z + Z.of_nat (sum_list ks)) (sum_of f x rs).
Proof.
  induction rs as [|r rs IH]; intros x z ks X Z0 F B; inversion F as [|? k ? ks' E F' E1 E2]; subst.
  - cbn. rewrite Z.add_0_r. exact X.
  - assert (Es : sum_list (k :: ks') = (k + sum_list ks')%nat) by reflexivity. rewrite Es in *. cbn [sum_of foldl].
    replace (z + Z.of_nat (k + sum_list ks')) with ((z + Z.of_nat k) + Z.of_nat (sum_list ks')) by lia.
    apply IH; [|lia|exact F'|lia]. apply is_int_add; [exact X| |lia]. rewrite E. apply parseInt_index. lia.
Qed.

Lemma sum_of_NaN f rs : forall x, x = NaN \/ Exists (fun r => cell_value r f = "") rs -> sum_of f x rs = NaN.
Proof.
  induction rs as [|r rs IH]; intros x [H|H]; try (subst; exact (IH NaN (or_introl eq_refl))); try exact H; [inversion H|].
  cbn [sum_of foldl]. apply IH. apply Exists_cons in H as [H|H]; [left|right; exact H].
  rewrite H. destruct x; reflexivity.
Qed.

(** The brackets chosen in every row, as many opening as closing. *)
Definition balanced (rows : list row) : Prop :=
  exists os cs, Forall2 (fun r k => cell_value r Obr = index k) rows os /\
                Forall2 (fun r k => cell_value r Cbr = index k) rows cs /\ sum_list os = sum_list cs.

Lemma chosen_or_not rows f : f = Obr \/ f = Cbr -> formed rows -> (2 < length rows)%nat ->
  Exists (fun r => cell_value r f = "") rows \/
  exists ks, Forall2 (fun r k => cell_value r f = index k) rows ks /\ Forall (fun k => k < length rows)%nat ks.
Proof.
  intros Hf [_ F] L. set (n := length rows) in *.
  assert (G : Forall (fun r => cell_value r f = "" \/ exists k, cell_value r f = index k /\ (k < n)%nat) rows).
  { apply Forall_lookup_2. intros i r E. pose proof (nb_bracket _ _ _ (F i r E) f Hf) as B.
    destruct (Nat.ltb_spec 2 n); [|lia]. destruct B as (sel & B & Hs). unfold cell_value. rewrite B. cbn [element_value].
    destruct sel as [s|]; [right|left; reflexivity]. specialize (Hs s eq_refl). unfold bracket_values in Hs.
    apply list_elem_of_fmap in Hs as (k & -> & Hk). apply elem_of_seq in Hk. exists k. split; [reflexivity|lia]. }
  clear F L. clearbody n. induction G as [|r rs [H|(k & H & Hk)] _ IH].
  - right. exists []. split; constructor.
  - left. left. exact H.
  - destruct IH as [IH|(ks & IH & B)]; [left; right; exact IH|]. right. exists (k :: ks). split; constructor; assumption.
Qed.

Lemma sum_list_bound n ks : Forall (fun k => k < n)%nat ks -> (sum_list ks <= length ks * n)%nat.
Proof. induction 1 as [|k ks H _ IH]; cbn; lia. Qed.

Lemma balanced_chosen rows f : f = Obr \/ f = Cbr -> balanced rows -> ~ Exists (fun r => cell_value r f = "") rows.
Proof.
  intros Hf (os & cs & O & C & _) E. assert (X : exists ks, Forall2 (fun r k => cell_value r f = index k) rows ks)
    by (destruct Hf as [-> | ->]; eauto).
  destruct X as (ks & X). clear -E X. induction X as [|r k rs ks H _ IH]; [inversion E|].
  apply Exists_cons in E as [E|E]; [rewrite H in E; exact (index_nonempty k E)|exact (IH E)].
Qed.

Lemma index_lists rows f ks ks' : Forall2 (fun r k => cell_value r f = index k) rows ks ->
  Forall2 (fun r k => cell_value r f = index k) rows ks' -> ks = ks'.
Proof.
  intros H. revert ks'. induction H as [|r k rs ks H _ IH]; intros ks' H'; inversion H' as [|? k' ? ? E F]; subst; [reflexivity|].
  f_equal; [apply index_inj; congruence|apply IH; assumption].
Qed.

Lemma brackets_test rows : formed rows -> (2 < length rows)%nat -> Z.of_nat (length rows) <= 2 ^ 26 ->
  neqb (sum_of Obr (Fin 0) rows - sum_of Cbr (Fin 0) rows)%num (Fin 0) = true <-> balanced rows.
Proof.
  intros F L B.
  destruct (chosen_or_not rows Obr (or_introl eq_refl) F L) as [N|(os & O & Bo)].
  { rewrite (sum_of_NaN Obr rows) by (right; exact N). split; [discriminate|].
    intros X. exfalso. exact (balanced_chosen rows Obr (or_introl eq_refl) X N). }
  destruct (chosen_or_not rows Cbr (or_intror eq_refl) F L) as [N|(cs & C & Bc)].
  { rewrite (sum_of_NaN Cbr rows) by (right; exact N). split; [|intros X; exfalso; exact (balanced_chosen rows Cbr (or_intror eq_refl) X N)].
    unfold nsub. cbn [nopp]. destruct (sum_of Obr (Fin 0) rows); discriminate. }
  pose proof (sum_list_bound _ _ Bo) as So. pose proof (sum_list_bound _ _ Bc) as Sc.
  rewrite <- (Forall2_length _ _ _ O) in So. rewrite <- (Forall2_length _ _ _ C) in Sc.
  assert (Z0 : is_int 0 (Fin 0)) by (exists 0%Q; split; reflexivity).
  assert (B2 : Z.of_nat (length rows * length rows) <= 2 ^ 52) by nia.
  pose proof (sum_of_int Obr rows _ 0 os Z0 ltac:(lia) O ltac:(lia)) as So'.
  pose proof (sum_of_int Cbr rows _ 0 cs Z0 ltac:(lia) C ltac:(lia)) as Sc'.
  rewrite (is_int_difference _ _ _ _ So' Sc') by lia. split.
  - intros E. exists os, cs. repeat split; [exact O|exact C|lia].
  - intros (os' & cs' & O' & C' & E). rewrite (index_lists _ _ _ _ O O'), (index_lists _ _ _ _ C C'), E. reflexivity.
Qed.

(** ** The answer of the form *)

Lemma cell_there n i r f : numbered n i r -> f = Val \/ f = Attr \/ (2 < n)%nat /\ (f = Obr \/ f = Cbr) ->
  exists c, cell r f = Some c.
Proof.
  intros N [-> |[-> |[L Hf]]].
  - destruct (nb_val _ _ _ N) as (c & E & _). eauto.
  - eexists. reflexivity.
  - pose proof (nb_bracket _ _ _ N f Hf) as B. destruct (Nat.ltb_spec 2 n); [|lia]. destruct B as (sel & B & _). eauto.
Qed.

Lemma value_at_there rows i r f : formed rows -> rows !! i = Some r ->
  f = Val \/ f = Attr \/ (2 < length rows)%nat /\ (f = Obr \/ f = Cbr) -> value_at rows i f = Some (cell_value r f).
Proof.
  intros F E Hf. destruct (cell_there _ i r f (proj2 F i r E) Hf) as [c C]. eapply value_at_cell; eauto.
Qed.

Lemma count_brackets_spec rows : formed rows -> forall rs pre o c, rows = (pre ++ rs)%list ->
  count_brackets rows (seq (length pre) (length rs)) o c =
  Some (if existsb (fun r => String.eqb (cell_value r Val) "") rs then inr tt
        else inl (if (2 <? length rows)%nat then (sum_of Obr o rs, sum_of Cbr c rs) else (o, c))).
Proof.
  intros F. induction rs as [|r rs IH]; intros pre o c E; cbn [length seq count_brackets existsb].
  - case_match; reflexivity.
  - assert (L : rows !! length pre = Some r) by (rewrite E; apply list_lookup_middle; reflexivity).
    rewrite (value_at_there rows _ r Val F L) by tauto.
    assert (R : rows = ((pre ++ [r]) ++ rs)%list) by (rewrite <- app_assoc; exact E).
    assert (Sl : S (length pre) = length (pre ++ [r])) by (rewrite length_app; cbn; lia).
    destruct (Nat.ltb_spec 2 (length rows)) as [G|G].
    + rewrite (value_at_there rows _ r Obr F L), (value_at_there rows _ r Cbr F L) by tauto. cbn.
      destruct (String.eqb (cell_value r Val) ""); [reflexivity|]. cbn [orb]. rewrite Sl, (IH _ _ _ R).
      destruct (Nat.ltb_spec 2 (length rows)); [|lia]. reflexivity.
    + cbn. destruct (String.eqb (cell_value r Val) ""); [reflexivity|]. cbn [orb]. rewrite Sl, (IH _ _ _ R).
      destruct (Nat.ltb_spec 2 (length rows)); [lia|]. reflexivity.
Qed.

Lemma any_of_some bs : any_of (Some <$> bs) = Some (existsb id bs).
Proof. induction bs as [|[] bs IH]; [reflexivity|reflexivity|exact IH]. Qed.

Lemma have_term_spec rows attrs : formed rows ->
  have_term rows attrs = Some (existsb (fun r => bool_decide (attr r ∈ attrs)) rows).
Proof.
  intros F. unfold have_term.
  assert (E : (fun i => (fun a => bool_decide (a ∈ attrs)) <$> value_at rows i Attr) <$> seq 0 (length rows) =
              Some <$> ((fun r => bool_decide (attr r ∈ attrs)) <$> rows)).
  { apply list_eq. intros i. rewrite !list_lookup_fmap. destruct (rows !! i) as [r|] eqn:E.
    - rewrite lookup_seq_lt by (eapply lookup_lt_Some; eauto). cbn [fmap option_fmap option_map Nat.add].
      rewrite (value_at_there rows i r Attr F E) by tauto. reflexivity.
    - rewrite lookup_seq_ge by (apply lookup_ge_None; exact E). reflexivity. }
  rewrite E, any_of_some. f_equal. clear. induction rows as [|r rows IH]; [reflexivity|]. cbn. rewrite IH. reflexivity.
Qed.

(** The check boxes the page always has, and the one of a server with ffmpeg. *)
Definition boxes_there (f : form) : Prop :=
  Forall (fun b => is_Some (checked f b))
    ["AutoDelete"; "UpdateDiskSpace"; "Background"; "AutoArchive"; "AutoUnarchive"; "AutoVideo"; "AutoExecute";
     "AutoCopy"; "AutoMove"].

Definition is_checked (f : form) (b : string) : Prop := checked f b = Some true.

(** The form asks before it deletes events that may be archived, and before it
    looks at the disk space of events that may not be over. *)
Definition asks (f : form) : Prop :=
  is_checked f "AutoDelete" /\ (forall r, r ∈ rows f -> attr r <> "Archived") \/
  checked f "AutoDelete" = Some false /\ is_checked f "UpdateDiskSpace" /\
  (forall r, r ∈ rows f -> ~ attr r ∈ ["EndDateTime"; "EndTime"; "EndDate"]).

Lemma existsb_attr rows (attrs : list string) : existsb (fun r => bool_decide (attr r ∈ attrs)) rows = false <->
  forall r, r ∈ rows -> ~ attr r ∈ attrs.
Proof.
  split.
  - intros H r Hr Ha. assert (X : existsb (fun r => bool_decide (attr r ∈ attrs)) rows = true); [|congruence].
    apply existsb_exists. exists r. split; [apply list_elem_of_In, Hr|apply bool_decide_eq_true, Ha].
  - intros H. apply not_true_iff_false. rewrite existsb_exists. intros (r & Hr & Ha).
    apply bool_decide_eq_true in Ha. apply list_elem_of_In in Hr. exact (H r Hr Ha).
Qed.

Lemma existsb_values rows : existsb (fun r => String.eqb (cell_value r Val) "") rows = false <->
  Forall (fun r => cell_value r Val <> "") rows.
Proof.
  induction rows as [|r rows IH]; cbn; [split; [constructor|reflexivity]|].
  rewrite orb_false_iff, Forall_cons, IH, String.eqb_neq. reflexivity.
Qed.

(** How the two sums compare, when every term has a value. *)
Lemma validateForm_counted f answer : formed (rows f) -> Z.of_nat (length (rows f)) <= 2 ^ 26 ->
  Forall (fun r => cell_value r Val <> "") (rows f) -> exists same : bool,
    (same = true <-> ((2 < length (rows f))%nat -> balanced (rows f))) /\
    validateForm f answer =
      if same then if all_chars is_digit (limit f) then check_actions f answer else Some ([BadLimit], false)
      else Some ([ErrorBrackets], false).
Proof.
  intros F B V. apply existsb_values in V. unfold validateForm.
  rewrite (count_brackets_spec (rows f) F (rows f) [] _ _ eq_refl), V. cbn [mbind option_bind].
  destruct (Nat.ltb_spec 2 (length (rows f))) as [L|L].
  - exists (neqb (sum_of Obr (Fin 0) (rows f) - sum_of Cbr (Fin 0) (rows f))%num (Fin 0)).
    rewrite (brackets_test _ F L B). split; [tauto|]. destruct (neqb _ _), (all_chars _ _); reflexivity.
  - exists true. split; [split; [lia|reflexivity]|]. destruct (all_chars _ _); reflexivity.
Qed.

Lemma validateForm_no_value f answer : formed (rows f) -> ~ Forall (fun r => cell_value r Val <> "") (rows f) ->
  validateForm f answer = Some ([ErrorValue], false).
Proof.
  intros F V. rewrite <- existsb_values in V. apply not_false_iff_true in V. unfold validateForm.
  rewrite (count_brackets_spec (rows f) F (rows f) [] _ _ eq_refl), V. reflexivity.
Qed.

Lemma check_actions_asks f answer : formed (rows f) -> boxes_there f ->
  exists msgs ok, check_actions f answer = Some (msgs, ok) /\ (ok = true <-> (asks f -> answer = true)).
Proof.
  intros F T. unfold boxes_there in T. rewrite !Forall_cons in T.
  destruct T as ((del & Del) & (disk & Disk) & (bg & Bg) & (a1 & A1) & (a2 & A2) & (a3 & A3) & (a4 & A4) & (a5 & A5) & (a6 & A6) & _).
  unfold check_actions. rewrite Del, Disk, Bg, A1, A2, A3, A4, A5, A6, !have_term_spec by exact F.
  cbn [mbind option_bind]. unfold asks, is_checked. rewrite Del, Disk.
  assert (Arch : (forall r, r ∈ rows f -> attr r <> "Archived") <->
                 existsb (fun r => bool_decide (attr r ∈ ["Archived"])) (rows f) = false).
  { rewrite existsb_attr. setoid_rewrite list_elem_of_singleton. reflexivity. }
  pose proof (existsb_attr (rows f) ["EndDateTime"; "EndTime"; "EndDate"]) as End. revert Arch End.
  generalize (existsb (fun r => bool_decide (attr r ∈ ["Archived"])) (rows f)).
  generalize (existsb (fun r => bool_decide (attr r ∈ ["EndDateTime"; "EndTime"; "EndDate"])) (rows f)).
  generalize (forall r, r ∈ rows f -> attr r <> "Archived").
  generalize (forall r, r ∈ rows f -> ~ attr r ∈ ["EndDateTime"; "EndTime"; "EndDate"]).
  intros P Q e a Arch End. destruct del; [|destruct disk].
  - destruct a; do 2 eexists; (split; [reflexivity|]); intuition congruence.
  - destruct e; do 2 eexists; (split; [reflexivity|]); intuition congruence.
  - destruct bg; [|do 2 eexists; (split; [reflexivity|]); intuition congruence].
    assert (X : exists b, any_of [Some a1; Some a2; Some false; Some a3; checked_if_there f "AutoEmail";
      checked_if_there f "AutoMessage"; Some a4; Some false; Some a5; Some a6] = Some b).
    { unfold checked_if_there. eexists. exact (any_of_some [_; _; _; _; _; _; _; _; _; _]). }
    destruct X as [b ->]. cbn [mbind option_bind]. do 2 eexists. split; [reflexivity|]. intuition congruence.
Qed.

(** ** The properties *)


(** A second look at the rows settles them: a third changes nothing, and neither does
    the second once every drop-down list has an option chosen. *)
Theorem parse_settles pg spliced initial : Forall rendered initial ->
  let once := parseRows pg spliced initial in
  let twice := parseRows pg spliced once in
  parseRows pg spliced twice = twice /\ (forallb row_chosen once = true -> twice = once).
Proof.
  intros R. cbv zeta. split.
  - apply list_eq. intros i. rewrite !parseRows_lookup, !parseRows_length.
    destruct (initial !! i) as [r|] eqn:E; [|reflexivity]. cbn [fmap option_fmap option_map].
    rewrite parse_row_settles; [reflexivity|]. eapply Forall_lookup_1 in R; [apply R|exact E].
  - intros C. apply list_eq. intros i. rewrite !parseRows_lookup, parseRows_length.
    destruct (initial !! i) as [r|] eqn:E; [|reflexivity]. cbn [fmap option_fmap option_map].
    rewrite parse_row_again; [reflexivity|eapply Forall_lookup_1; eauto|].
    apply (forallb_elem _ _ _ C). apply list_elem_of_lookup. exists i. rewrite parseRows_lookup, E. reflexivity.
Qed.


(** Adding a term leaves every other one as it was and puts the new one after the
    term whose button was used; its attribute is the one the page was loaded with,
    whatever was chosen since, and its value is empty when the attribute takes a text
    and so did the term that was copied. *)
Theorem addTerm_inserts_after pg spliced initial es k r : initial <> [] -> Forall rendered initial ->
  let rows := run pg spliced initial es in
  Forall (valid_term pg spliced) rows -> rows !! k = Some r ->
  exists new,
    addTerm pg spliced k rows !! S k = Some new /\ numbered (S (length rows)) (S k) new /\
    attr new = default "" (default_option (attr_options r)) /\
    (choices pg spliced (attr new) = None -> (exists name text, row_val r = Some (Text name text)) -> cell_value new Val = "") /\
    content <$> addTerm pg spliced k rows =
      (take (S k) (content <$> rows) ++ content new :: drop (S k) (content <$> rows))%list.
Proof.
  intros N R rows V E. pose proof (run_formed pg spliced initial es N R) as F. fold rows in F. clearbody rows.
  pose proof (lookup_lt_Some _ _ _ E) as L.
  assert (Lt : length (take (S k) rows) = S k) by (rewrite length_take; lia).
  assert (Lx : length (take (S k) rows ++ clone_row r :: drop (S k) rows) = S (length rows))
    by (rewrite length_app, Lt; cbn [length]; rewrite length_drop; lia).
  exists (parse_row pg spliced (S (length rows)) (S k) (clone_row r)). rewrite (addTerm_parse pg spliced k rows r E).
  split; [|split; [|split; [reflexivity|split]]].
  - rewrite parseRows_lookup, Lx, lookup_app_r, Lt, Nat.sub_diag by lia. reflexivity.
  - apply parse_row_numbered. change (attr_named (attr_name r)). rewrite (nb_attr _ _ _ (proj2 F k r E)). apply cell_attr_named.
  - apply clone_value_empty.
  - rewrite parseRows_insert by (rewrite take_drop; exact V). rewrite Lt, Lx, fmap_take, fmap_drop. reflexivity.
Qed.

(** A bracket that reaches over every term of the form is lost when one of the others
    is deleted: the row's list is left without a choice, and the form is refused for
    its brackets though every term has its value. *)
Theorem lost_bracket_refused pg spliced initial es k r j rj f answer : initial <> [] -> Forall rendered initial ->
  let before := run pg spliced initial es in
  Forall (valid_term pg spliced) before -> Forall (fun r => cell_value r Val <> "") before ->
  (4 <= length before)%nat -> Z.of_nat (length before) <= 2 ^ 26 ->
  before !! k = Some r -> before !! j = Some rj -> j <> k -> cell_value rj Obr = index (length before - 2) ->
  rows f = delTerm pg spliced k before -> validateForm f answer = Some ([ErrorBrackets], false).
Proof.
  intros N R before V NE L B Ek Ej Hjk Ob Ef. pose proof (run_formed pg spliced initial es N R) as F0. fold before in F0.
  destruct (delTerm_keeps pg spliced k before r F0 V Ek) as (C & _ & Br). specialize (Br Obr (or_introl eq_refl)).
  assert (F : formed (rows f)).
  { rewrite Ef. pose proof (step_formed pg spliced before (DelTerm k) F0) as S. cbn [step] in S. rewrite Ek in S.
    rewrite (nb_del _ _ _ (proj2 F0 k r Ek)) in S. replace (length before =? 1)%nat with false in S by (symmetry; apply Nat.eqb_neq; lia). exact S. }
  rewrite <- Ef in C, Br. clear Ef. clearbody before.
  assert (Lr : length (rows f) = (length before - 1)%nat).
  { apply (f_equal length) in C. rewrite length_fmap in C. rewrite (length_delete_lookup _ k (content r)) in C by (rewrite list_lookup_fmap, Ek; reflexivity). rewrite length_fmap in C. exact C. }
  assert (V' : Forall (fun r => cell_value r Val <> "") (rows f)).
  { assert (W : Forall (fun c : string * string * string => c.2 <> "") (content <$> rows f))
      by (rewrite C; apply Forall_delete, (Forall_fmap content), NE).
    exact (proj1 (Forall_fmap content (fun c => c.2 <> "") (rows f)) W). }
  assert (X : Exists (fun r => cell_value r Obr = "") (rows f)).
  { assert (W : "" ∈ (fun r => cell_value r Obr) <$> rows f); cycle 1.
    { apply list_elem_of_fmap in W as (x & W & Hx). apply Exists_exists. exists x. split; [exact Hx|symmetry; exact W]. }
    rewrite Br. replace "" with (bracket_after (length before - 1) (cell_value rj Obr)).
    - apply list_elem_of_fmap. eexists. split; [reflexivity|].
      destruct (decide (j < k)%nat).
      + apply list_elem_of_lookup. exists j. rewrite list_lookup_delete_lt by lia. rewrite list_lookup_fmap, Ej. reflexivity.
      + apply list_elem_of_lookup. exists (j - 1)%nat. rewrite list_lookup_delete_ge by lia.
        replace (S (j - 1)) with j by lia. rewrite list_lookup_fmap, Ej. reflexivity.
    - rewrite Ob. unfold bracket_after. case_decide; [reflexivity|].
      destruct (String.eqb _ "") eqn:E; [apply String.eqb_eq in E; destruct (index_nonempty _ E)|].
      case_decide as D; [|reflexivity]. exfalso. unfold bracket_values in D. apply list_elem_of_fmap in D as (i & D & Hi).
      apply index_inj in D. apply elem_of_seq in Hi. lia. }
  destruct (validateForm_counted f answer F ltac:(lia) V') as (same & S & ->).
  destruct same; [|reflexivity]. exfalso.
  exact (balanced_chosen (rows f) Obr (or_introl eq_refl) (proj1 S eq_refl ltac:(lia)) X).
Qed.

(** ** The properties at a form *)

Definition demo_page : page := {|
  states := ["1"]; servers := ["3"; "ZM_SERVER_ID"; "NULL"]; storageareas := ["0"; "2"; ""];
  monitors := ["1"; "2"]; sorted_monitors := [("2", "Back"); ("1", "Front")];
  zones := [("5", "2"); ("6", "1")]; tags := ["0"; "-1"];
|}.

Definition attrs : list (string * bool) :=
  [("Id", true); ("Archived", false); ("Monitor", false); ("DiskPercent", false); ("StorageId", false);
   ("ExistsInFileSystem", false); ("EndDateTime", false)].

(** The row of a new filter, as the server writes it. *)
Definition new_filter_row : row := {|
  cnj := None; obr := None; attr_name := cell_name 0 Attr; attr_options := attrs; attr := "Id";
  op := Some (Select (cell_name 0 Op) (unmarked opTypes) (Some "=")); row_val := Some (Text (cell_name 0 Val) "");
  cbr := None; del_disabled := true; row_picker := None;
|}.

#[local] Notation demo := (run demo_page (fun s => s) [new_filter_row]).

Lemma new_filter_rendered : Forall rendered [new_filter_row].
Proof. constructor; [|constructor]. split; [apply cell_attr_named|exact I]. Qed.

(** Four terms with a value each; the third closes all brackets there can be. *)
Definition four_terms : list event :=
  [AddTerm 0; AddTerm 1; AddTerm 2; Edit 0 Val "10"; Edit 1 Val "20"; Edit 2 Val "30"; Edit 3 Val "40"; Edit 3 Attr "Monitor";
   Edit 3 Val "1"].
Definition with_brackets : list event := (four_terms ++ [Edit 0 Obr "2"; Edit 2 Cbr "2"])%list.

Definition server_boxes : gmap string bool :=
  list_to_map ((fun b => (b, false)) <$>
    ["AutoArchive"; "AutoUnarchive"; "UpdateDiskSpace"; "AutoVideo"; "AutoExecute"; "AutoDelete"; "AutoCopy"; "AutoMove";
     "Background"; "Concurrent"; "LockRows"]).

Definition form_of (es : list event) : form :=
  {| rows := demo es; limit := "100"; boxes := server_boxes; filter_Name := "recent"; AutoExecuteCmd := "" |}.

(** Decides that every term is one its attribute allows. *)
Definition valid_termb (pg : page) (spliced : string -> string) (r : row) : bool :=
  match val (op r), val (row_val r) with
  | Str o, Str v =>
      bool_decide (o ∈ op_choices (attr r)) && (negb (String.eqb (attr r) "Archived") || String.eqb o "=") &&
      match choices pg spliced (attr r) with
      | Some l => bool_decide (v ∈ l)
      | None => negb (String.eqb (attr r) "DiskPercent") || String.eqb (number_value v) v
      end
  | _, _ => false
  end.

Lemma valid_termb_spec pg spliced rs : forallb (valid_termb pg spliced) rs = true -> Forall (valid_term pg spliced) rs.
Proof.
  intros H. apply Forall_forall. intros r Hr. apply (forallb_elem _ _ _ H) in Hr. clear H. unfold valid_termb in Hr.
  destruct (val (op r)) as [| |o|] eqn:O; try discriminate. destruct (val (row_val r)) as [| |v|] eqn:V; try discriminate.
  bool_to_prop. apply orb_true_iff in H1. split.
  - exists o. split; [exact O|split; [exact H|]]. intros E. rewrite E in H1. destruct H1 as [H1|H1]; [discriminate|].
    apply String.eqb_eq, H1.
  - exists v. split; [exact V|]. unfold value_fits. destruct (choices pg spliced (attr r)); [exact (proj1 (bool_decide_eq_true _) H0)|].
    intros E. rewrite E in H0. apply String.eqb_eq, H0.
Qed.

Lemma with_brackets_valid : Forall (valid_term demo_page (fun s => s)) (demo with_brackets).
Proof. apply valid_termb_spec. vm_compute. reflexivity. Qed.


(** It does accept that form, and one whose brackets close before they open. *)
Lemma accepts_brackets_in_any_order :
  validateForm (form_of with_brackets) true = Some ([], true) /\
  validateForm (form_of (four_terms ++ [Edit 0 Cbr "1"; Edit 2 Obr "1"])) true = Some ([], true).
Proof. split; vm_compute; reflexivity. Qed.

Lemma parse_settles_witness :
  let once := parseRows demo_page (fun s => s) [new_filter_row] in
  let twice := parseRows demo_page (fun s => s) once in
  parseRows demo_page (fun s => s) twice = twice /\ (forallb row_chosen once = true -> twice = once).
Proof. exact (parse_settles demo_page (fun s => s) [new_filter_row] new_filter_rendered). Defined.


(** The term added after one whose attribute was changed: the attribute the page was
    loaded with, and the first monitor's id as its text. *)
Lemma addTerm_inserts_after_witness :
  content <$> addTerm demo_page (fun s => s) 3 (demo with_brackets) =
  [("Id", "=", "10"); ("Id", "=", "20"); ("Id", "=", "30"); ("Monitor", "=", "1"); ("Id", "=", "2")].
Proof.
  assert (E : exists r, demo with_brackets !! 3%nat = Some r) by (eexists; vm_compute; reflexivity).
  destruct E as [r E].
  destruct (addTerm_inserts_after demo_page (fun s => s) [new_filter_row] with_brackets 3 r ltac:(discriminate)
    new_filter_rendered with_brackets_valid E) as (new & A & _ & _ & _ & C).
  assert (N : option_map content (addTerm demo_page (fun s => s) 3 (demo with_brackets) !! 4%nat) = Some ("Id", "=", "2"))
    by (vm_compute; reflexivity).
  rewrite A in N. rewrite C, (f_equal (default ("", "", "")) N : content new = ("Id", "=", "2")). vm_compute. reflexivity.
Defined.

Lemma lost_bracket_refused_witness :
  let after := delTerm demo_page (fun s => s) 3 (demo with_brackets) in
  validateForm {| rows := after; limit := ""; boxes := server_boxes; filter_Name := ""; AutoExecuteCmd := "" |} true
  = Some ([ErrorBrackets], false).
Proof.
  assert (E : exists r, demo with_brackets !! 3%nat = Some r) by (eexists; vm_compute; reflexivity).
  assert (E0 : exists r, demo with_brackets !! 0%nat = Some r /\ cell_value r Obr = "2")
    by (eexists; split; vm_compute; reflexivity).
  destruct E as [r E], E0 as (r0 & E0 & B).
  refine (lost_bracket_refused demo_page (fun s => s) [new_filter_row] with_brackets 3 r 0 r0
    (Form (delTerm demo_page (fun s => s) 3 (demo with_brackets)) "" server_boxes "" "") true _ _ with_brackets_valid
    _ _ _ E E0 _ B eq_refl).
  - discriminate.
  - exact new_filter_rendered.
  - apply existsb_values. vm_compute. reflexivity.
  - vm_compute. lia.
  - vm_compute. discriminate.
  - discriminate.
Defined.

(** ** What the form does besides *)

(** An operator chosen for a term on the archive status does not survive the next
    look at the rows. *)
Lemma archived_operator_reset pg spliced n i r : attr r = "Archived" -> val (op (parse_row pg spliced n i r)) = Str "=".
Proof. intros E. unfold parse_row. cbn [op]. rewrite E. reflexivity. Qed.

Lemma archived_unequal_lost :
  content <$> demo [Edit 0 Attr "Archived"; Edit 0 Op "!="; Edit 0 Val "1"] = [("Archived", "!=", "1")] /\
  content <$> demo [Edit 0 Attr "Archived"; Edit 0 Op "!="; Edit 0 Val "1"; AddTerm 0; DelTerm 1] = [("Archived", "=", "1")].
Proof. split; vm_compute; reflexivity. Qed.

(** A change of attribute to one whose operators are others leaves none chosen. *)
Lemma exists_operator_lost : content <$> demo [Edit 0 Attr "ExistsInFileSystem"] = [("ExistsInFileSystem", "", "false")].
Proof. vm_compute. reflexivity. Qed.

(** The storage area that is unspecified has the empty value, which is none. *)
Lemma unspecified_storage_refused :
  content <$> demo [Edit 0 Attr "StorageId"; Edit 0 Val ""] = [("StorageId", "=", "")] /\
  validateForm (form_of [Edit 0 Attr "StorageId"; Edit 0 Val ""]) true = Some ([ErrorValue], false).
Proof. split; vm_compute; reflexivity. Qed.

(** A reset brings the attribute back and leaves the value's list. *)
Lemma reset_leaves_list :
  (fun r => (attr r, row_val r)) <$> demo [Edit 0 Attr "Monitor"; Edit 0 Val "1"; Reset] =
  [("Id", Some (Select (cell_name 0 Val) (unmarked ["2"; "1"]) (Some "2")))].
Proof. vm_compute. reflexivity. Qed.

(** A percentage is copied with its term, which a text is not. *)
Lemma percentage_copied :
  let row := new_filter_row in
  let page_row := {| cnj := None; obr := None; attr_name := attr_name row;
    attr_options := [("Id", false); ("DiskPercent", true)]; attr := "DiskPercent"; op := op row;
    row_val := Some (Text (cell_name 0 Val) "90"); cbr := None; del_disabled := true; row_picker := None |} in
  content <$> run demo_page (fun s => s) [page_row] [AddTerm 0] = [("DiskPercent", "=", "90"); ("DiskPercent", "=", "90")].
Proof. vm_compute. reflexivity. Qed.

(** Without ffmpeg the page has no box for videos, and a filter for the background
    with no action makes the check throw where it would warn. *)
Lemma background_without_video_throws :
  let f := form_of [Edit 0 Val "10"] in
  validateForm {| rows := rows f; limit := ""; boxes := <["Background" := true]> (delete "AutoVideo" server_boxes);
                  filter_Name := ""; AutoExecuteCmd := "" |} true = None.
Proof. vm_compute. reflexivity. Qed.
End FilterForm.
