(* ===== verification/MonitorForm.v ===== *)
(** web/skins/classic/views/js/monitor.js, with the check of monitor.js.php: the
    form that edits a monitor.

    The form is the list of its controls, in the order of the document, which is
    what is sent.  What the page shows and hides, the requests under way (the
    models of a manufacturer, the check of a name, the saving, the level of the
    sound) and the dialog about unsaved changes are the page's.  A [None] is a
    TypeError for a control that is not there, or the loop of human_filesize that
    does not end.

    Left out: the map and the degrees (of dms.js), the colours, the list of
    encoders, the methods of a protocol, the channels a source lacks, the tab in
    the address, the version of the audio display, the image beside the form; the encoder's parameters, the linked monitors and the ffmpeg
    options have files of their own, of which the check of the form uses the last. *)
From S2P Require Import JsString FfmpegOptions LevelGraph.

Module MonitorForm.
#[local] Open Scope string_scope.
#[local] Open Scope Z_scope.

(** ** Controls *)

Inductive kind := Text | Number | Checkbox | Hidden | Select | Button.
#[export] Instance kind_eq_dec : EqDecision kind.
Proof. solve_decision. Defined.

Record opt := Opt { o_value : string; o_text : string }.
#[export] Instance opt_eq_dec : EqDecision opt.
Proof. solve_decision. Defined.

Record control := Control {
  name : string; kind_of : kind;
  text : string;                    (* of a select nothing *)
  checked : bool;
  options : list opt; selectedIndex : option nat;
  disabled : bool;
}.
#[export] Instance eta_control : Eta control := fun c =>
  Control (name c) (kind_of c) (text c) (checked c) (options c) (selectedIndex c) (disabled c).

Definition value (c : control) : string :=
  match kind_of c with
  | Select => default "" (i ← selectedIndex c; o_value <$> options c !! i)
  | _ => text c
  end.

(** The first option with a value. *)
Definition index_of_value (v : string) (os : list opt) : option nat := fst <$> list_find (fun o => o_value o = v) os.

Definition set_value (v : string) (c : control) : control :=
  match kind_of c with
  | Select => c <| selectedIndex := index_of_value v (options c) |>
  | Number => c <| text := number_value v |>
  | _ => c <| text := v |>
  end.

(** The user chooses the [k]-th option. *)
Definition choose (k : nat) (c : control) : control :=
  match options c !! k with Some _ => c <| selectedIndex := Some k |> | None => c end.

(** ** The page *)

(** What a target of an action can do (monitorActionCapabilities). *)
Record caps := Caps { Types : list string; MinAudioFile : option Z; MaxAudioFile : option Z }.

Record config := Config {
  defaultAspectRatio : string;
  players : list (string * string);
  monitorNames : list string; rtspStreamNames : list string;
  mid : string;
  capabilities : list (string * caps); labels : list (string * string);
}.

(** What updateMonitorActionRow sets of a row beside its controls. *)
Record row := Row { schedule_visible : bool; file_visible : bool; file_min : option Z; file_max : option Z }.
#[export] Instance eta_row : Eta row := fun r => Row (schedule_visible r) (file_visible r) (file_min r) (file_max r).

Inductive effect :=
| Alert (messages : list string)
| Confirm (messages : list string)
| AskName (monitorName : string)
| AskModels (ManufacturerId : string)
| AskDialog | ShowDialog | HideDialog
| Post (data : list (string * string))    (* with action=save *)
| Submit (data : list (string * string))  (* the form as it is, without it *)
| Navigate (href : string)
| AskLevel.

Record page := Page {
  elements : list control;
  estimated_ram_use : string;
  janus_hidden : bool;              (* the three rows about Janus *)
  channel_hidden : bool;            (* StreamChannel *)
  restream_hidden : bool;           (* FunctionRestream *)
  rtsp_user_hidden : bool;          (* RTSP_User *)
  backchannel_hidden : bool;        (* Go2RTCDisableBackChannel *)
  analysis_shown : bool; audio_shown : bool;
  sources_shown : bool;             (* AnalysingSource and RecordingSource *)
  manufacturer_hidden : bool; model_hidden : bool; device_hidden : bool;
  rows : list row;
  sourceFormMonitor : list (string * string);
  model_requests : list string;
  name_requests : list (option string);   (* each with the href to follow *)
  posts : list string;
  saveConfirm : bool;               (* the dialog is in the document *)
  saveConfirm_asked : nat; saveConfirm_shown : bool; saveConfirmBtn_disabled : bool;
  contentButtons_hidden : bool;
  audioLevelInFlight : bool; level : option LevelGraph.meter; mark : option num;
  out : list effect;
}.
#[export] Instance eta_page : Eta page := fun s =>
  Page (elements s) (estimated_ram_use s) (janus_hidden s) (channel_hidden s) (restream_hidden s) (rtsp_user_hidden s)
    (backchannel_hidden s) (analysis_shown s) (audio_shown s) (sources_shown s) (manufacturer_hidden s) (model_hidden s)
    (device_hidden s) (rows s) (sourceFormMonitor s) (model_requests s) (name_requests s) (posts s) (saveConfirm s)
    (saveConfirm_asked s) (saveConfirm_shown s) (saveConfirmBtn_disabled s) (contentButtons_hidden s)
    (audioLevelInFlight s) (level s) (mark s) (out s).

Definition emit (e : effect) (s : page) : page := s <| out := (out s ++ [e])%list |>.

(** form.elements[n] *)
Definition element (n : string) (s : page) : option control := List.find (fun c => String.eqb (name c) n) (elements s).
Definition get (n : string) (s : page) : option string := value <$> element n s.
(** element && element.checked *)
Definition is_checked (n : string) (s : page) : bool := match element n s with Some c => checked c | None => false end.

Fixpoint change_first (n : string) (f : control -> control) (cs : list control) : list control :=
  match cs with
  | [] => []
  | c :: cs => if String.eqb (name c) n then f c :: cs else c :: change_first n f cs
  end.
Definition change (n : string) (f : control -> control) (s : page) : page :=
  s <| elements := change_first n f (elements s) |>.
Definition put (n v : string) : page -> page := change n (set_value v).

(** newMonitor[n] *)
Definition nm (n : string) : string := "newMonitor[" ++ n ++ "]".

(** serialize: the name and value of each control that is sent. *)
Definition sent (c : control) : option (string * string) :=
  if disabled c then None
  else match kind_of c with
       | Button => None
       | Checkbox => if checked c then Some (name c, text c) else None
       | Select => match selectedIndex c with Some _ => Some (name c, value c) | None => None end
       | _ => Some (name c, text c)
       end.
Definition serialize (s : page) : list (string * string) := omap sent (elements s).

(** ** The size of the buffers *)

Definition units : list string := ["B"; "kB"; "MB"; "GB"; "TB"; "PB"; "EB"; "ZB"; "YB"].

(** The loop of human_filesize; [None] when the fuel runs out. *)
Fixpoint reduce (fuel : nat) (size : num) (i : nat) : option (num * nat) :=
  if (size / Fin 1024 >? Fin (8106479329266893 # 9007199254740992))%num then
    match fuel with
    | O => None
    | S fuel => reduce fuel (size / Fin 1024)%num (S i)
    end
  else Some (size, i).

(** Fuel for every finite size. *)
Definition halvings : nat := 104.

Definition human_filesize (size : num) : option string :=
  '(size, i) ← reduce halvings size 0;
  Some (num_to_string (nround (size * Fin 100)%num / Fin 100)%num ++ default "undefined" (units !! i)).

Definition update_estimated_ram_use (s : page) : option page :=
  type ← get (nm "Type") s;
  if String.eqb type "WebSite" then Some s
  else
    width ← get (nm "Width") s;
    height ← get (nm "Height") s;
    colours ← get (nm "Colours") s;
    ibc ← get (nm "ImageBufferCount") s;
    pec ← get (nm "PreEventCount") s;
    let min_buffer_count := (parseInt ibc + parseInt pec)%num in
    let bytes n := (n * string_to_number width * string_to_number height * string_to_number colours)%num in
    min ← human_filesize (bytes min_buffer_count);
    mibc ← get (nm "MaxImageBufferCount") s;
    let max_buffer_count := parseInt mibc in
    max ← (if ntruthy max_buffer_count then human_filesize (bytes (min_buffer_count + max_buffer_count)%num) else Some "Unlimited");
    Some (s <| estimated_ram_use := "Min: " ++ min ++ " Max: " ++ max |>).

(** [this.id] is that of the control typed into. *)
Definition buffer_setting_oninput (this : string) (s : page) : option page :=
  max ← get (nm "MaxImageBufferCount") s;
  pre ← get (nm "PreEventCount") s;
  let s :=
    if ntruthy (parseInt max) && (parseInt pre >? parseInt max)%num then
      if String.eqb this (nm "PreEventCount") then put (nm "MaxImageBufferCount") pre s
      else put (nm "PreEventCount") max s
    else s in
  update_estimated_ram_use s.

(** ** The dimensions *)

(** [s.replace(/:.*$/, '')] and [s.replace(/^.*:/, '')] *)
Fixpoint before_colon (s : string) : string :=
  match s with
  | EmptyString => EmptyString
  | String c s => if Ascii.eqb c ":" then EmptyString else String c (before_colon s)
  end.
Fixpoint after_colon (s : string) : string :=
  match s with
  | EmptyString => EmptyString
  | String c t => if has ":" t then after_colon t else if Ascii.eqb c ":" then t else s
  end.

(** jQuery's val on a select, as set_value. *)
Definition select_dimensions (s : page) : option page :=
  width ← get (nm "Width") s;
  height ← get (nm "Height") s;
  let wanted := num_to_string (parseInt width) ++ "x" ++ num_to_string (parseInt height) in
  match element "dimensions_select" s with
  | Some c =>
      Some (put "dimensions_select" (match index_of_value wanted (options c) with Some _ => wanted | None => "" end) s)
  | None => Some s
  end.

(** Width or height typed: the other one follows. *)
Definition follow (x : string) (num_ den : num) : string :=
  if (parseInt x >=? Fin 0)%num then num_to_string (nround (parseInt x * num_ / den)%num) else "".

Definition keep_ratio (cfg : config) (this : string) (s : page) : option page :=
  let widthFactor := parseInt (before_colon (defaultAspectRatio cfg)) in
  let heightFactor := parseInt (after_colon (defaultAspectRatio cfg)) in
  width ← get (nm "Width") s;
  height ← get (nm "Height") s;
  Some (if is_checked "preserveAspectRatio" s then
          if String.eqb this (nm "Width") then put (nm "Height") (follow width heightFactor widthFactor) s
          else if String.eqb this (nm "Height") then put (nm "Width") (follow height widthFactor heightFactor) s
          else s
        else s).

(** updateMonitorDimensions, of a number *)
Definition typed_dimension (cfg : config) (this : string) (s : page) : option page :=
  s ← keep_ratio cfg this s;
  s ← select_dimensions s;
  update_estimated_ram_use s.

(** The first two pieces of [value.split('x')]. *)
Fixpoint split_x (s : string) : string * option string :=
  match s with
  | EmptyString => ("", None)
  | String c t =>
      if Ascii.eqb c "x" then ("", Some (fst (split_x t)))
      else let '(a, b) := split_x t in (String c a, b)
  end.

(** updateMonitorDimensions, of the select; an undefined height is the text. *)
Definition chosen_dimensions (s : page) : option page :=
  v ← get "dimensions_select" s;
  _ ← get (nm "Width") s; _ ← get (nm "Height") s;
  update_estimated_ram_use
    (if String.eqb v "" then s
     else let '(w, h) := split_x v in put (nm "Height") (default "undefined" h) (put (nm "Width") w s)).

(** ** The players and the streaming servers *)

Definition offered (go2rtc rtsp2web janus : bool) (key : string) : bool :=
  negb (has "go2rtc" key && negb go2rtc || has "rtsp2web" key && negb rtsp2web || has "janus" key && negb janus).

(** [dropdown.val(v); if (selectedIndex == -1) selectedIndex = 0] *)
Definition choose_or_first (v : string) (os : list opt) : option nat :=
  match index_of_value v os with Some i => Some i | None => match os with [] => None | _ => Some 0%nat end end.

Definition manageGo2RTCDisableBackChannel (setDefault : bool) (s : page) : page :=
  let deviceClass := default "" (get (nm "DeviceClass") s) in
  let s := change (nm "Go2RTCDisableBackChannel")
             (fun c => if String.eqb deviceClass "Camera"
                       then c <| disabled := false |> <| checked := if setDefault then true else checked c |>
                       else c <| disabled := true |> <| checked := false |>) s in
  s <| backchannel_hidden := negb (is_checked (nm "Go2RTCEnabled") s) |>.

Definition update_players (cfg : config) (s : page) : page :=
  match element (nm "DefaultPlayer") s with
  | None => s
  | Some dropdown =>
      let go2rtc := is_checked (nm "Go2RTCEnabled") s in
      let rtsp2web := is_checked (nm "RTSP2WebEnabled") s in
      let janus := is_checked (nm "JanusEnabled") s in
      let os := (fun p => Opt p.1 p.2) <$> filter (fun p => offered go2rtc rtsp2web janus p.1 = true) (players cfg) in
      manageGo2RTCDisableBackChannel false
        (change (nm "DefaultPlayer")
           (fun c => c <| options := os |> <| selectedIndex := choose_or_first (value dropdown) os |>) s)
  end.

Definition updateRestreamVisibility (s : page) : page :=
  let anyStreamingEnabled :=
    is_checked (nm "JanusEnabled") s || is_checked (nm "Go2RTCEnabled") s || is_checked (nm "RTSP2WebEnabled") s in
  let showRestream := is_checked (nm "RTSPServer") s && anyStreamingEnabled in
  s <| restream_hidden := negb showRestream |> <| rtsp_user_hidden := negb showRestream || negb (is_checked (nm "Restream") s) |>.

Definition Restream_onclick (s : page) : page :=
  match element (nm "Restream") s with
  | Some c => s <| rtsp_user_hidden := negb (checked c) |>
  | None => s
  end.

Definition janus_rows (s : page) : page := s <| janus_hidden := negb (is_checked (nm "JanusEnabled") s) |>.
Definition stream_channel (s : page) : page :=
  s <| channel_hidden := negb (is_checked (nm "Go2RTCEnabled") s || is_checked (nm "RTSP2WebEnabled") s) |>.

(** ** The credentials in the path *)

(** [s.substring(a, b)]: clamped, and the smaller end first. *)
Definition substring (a b : Z) (s : string) : string :=
  let clamp x := Z.to_nat (Z.max 0 (Z.min x (Z.of_nat (String.length s)))) in
  slice s (Nat.min (clamp a) (clamp b)) (Nat.max (clamp a) (clamp b)).

(** [s.indexOf(p, from)] *)
Definition index_from (p s : string) (from : Z) : Z :=
  match index_of p (slice_from s (Z.to_nat from)) with Some i => from + Z.of_nat i | None => -1 end.

Definition hex_byte (c d : ascii) : option Z :=
  match digit_val 16 c, digit_val 16 d with Some a, Some b => Some (16 * a + b) | _, _ => None end.

(** The characters decodeURI leaves escaped. *)
Definition reserved : string := ";/?:@&=+$,#".

(** decodeURI; [None] when it throws, or the text has a character beyond the 256
    of the model, which equals no text of it. *)
Fixpoint decodeURI (s : string) : option string :=
  match s with
  | EmptyString => Some EmptyString
  | String c t =>
      if Ascii.eqb c "%" then
        match t with
        | String h (String l t) =>
            match hex_byte h l with
            | Some b =>
                if b <? 128 then
                  r ← decodeURI t;
                  Some (if includes_char reserved (chr b) then String c (String h (String l r)) else String (chr b) r)
                else if (b =? 194) || (b =? 195) then
                  match t with
                  | String p (String h (String l t)) =>
                      match hex_byte h l with
                      | Some b' =>
                          if Ascii.eqb p "%" && (128 <=? b') && (b' <? 192)
                          then r ← decodeURI t; Some (String (chr ((b - 192) * 64 + (b' - 128))) r)
                          else None
                      | None => None
                      end
                  | _ => None
                  end
                else None
            | None => None
            end
        | _ => None
        end
      else r ← decodeURI t; Some (String c r)
  end.

(** The positions of the credentials in a path: behind "://", the ":" and the "@". *)
Record credentials := Credentials { user : string; pass : string; cleared : string }.

Definition credentials_of (path : string) : option credentials :=
  match index_of "://" path with
  | None => None
  | Some proto =>
      let start := Z.of_nat proto + 3 in
      let authSeparatorPos := index_from "@" path start in
      if authSeparatorPos =? -1 then None
      else
        let fieldsSeparatorPos := index_from ":" path start in
        if fieldsSeparatorPos >=? authSeparatorPos then None
        else
          let u := substring start fieldsSeparatorPos path in
          let p := substring (fieldsSeparatorPos + 1) authSeparatorPos path in
          if String.eqb u "" || String.eqb p "" then None
          else Some (Credentials u p (substring 0 start path ++ substring (authSeparatorPos + 1) (Z.of_nat (String.length path)) path))
  end.

Definition change_Path (blur : bool) (s : page) : page :=
  match get (nm "Path") s with
  | None => s
  | Some path =>
      match credentials_of path with
      | None => s
      | Some cr =>
          match get (nm "User") s, get (nm "Pass") s with
          | Some u, Some p =>
              if blur then
                if String.eqb u (user cr) && bool_decide (decodeURI (pass cr) = Some p) then put (nm "Path") (cleared cr) s else s
              else put (nm "Pass") (pass cr) (put (nm "User") (user cr) s)
          | _, _ => s
          end
      end
  end.

(** ** Manufacturers and models *)

Definition set_options (os : list opt) (c : control) : control :=
  c <| options := os |> <| selectedIndex := match os with [] => None | _ => Some 0%nat end |>.

Definition populate_models (ManufacturerId : string) (s : page) : page :=
  match element (nm "ModelId") s with
  | None => s
  | Some _ =>
      let s := change (nm "ModelId") (set_options [Opt "" "Unknown"]) s in
      if String.eqb ManufacturerId "" then s
      else emit (AskModels ManufacturerId) (s <| model_requests := (model_requests s ++ [ManufacturerId])%list |>)
  end.

(** The answer to the [k]-th request under way. *)
Definition models_done (k : nat) (models : list opt) (s : page) : page :=
  match model_requests s !! k with
  | None => s
  | Some _ =>
      change (nm "ModelId") (fun c => c <| options := (options c ++ models)%list |>)
        (s <| model_requests := delete k (model_requests s) |>)
  end.

Definition ManufacturerId_onchange (s : page) : option page :=
  v ← get (nm "ManufacturerId") s;
  _ ← get (nm "Manufacturer") s;
  Some (if negb (String.eqb v "") then
          populate_models v (change (nm "Manufacturer") (fun c => c <| disabled := true |>) s <| manufacturer_hidden := true |>)
        else
          let s := change (nm "Manufacturer") (fun c => c <| disabled := false |>) s <| manufacturer_hidden := false |> in
          change (nm "ModelId") (set_options [Opt "Unknown" "Unknown"]) s <| model_hidden := false |>).

(** select_by_value_case_insensitive: the first option but the first one, or that. *)
Definition select_by_text (v : string) (c : control) : control :=
  match list_find (fun o => toLowerCase (o_text o) = toLowerCase v) (List.tl (options c)) with
  | Some (i, _) => c <| selectedIndex := Some (S i) |>
  | None => c <| selectedIndex := match options c with [] => None | _ => Some 0%nat end |>
  end.

Definition Manufacturer_onchange (s : page) : option page :=
  v ← get (nm "Manufacturer") s;
  if String.eqb v "" then Some s
  else
    let s := change (nm "ManufacturerId") (select_by_text v) s in
    id ← get (nm "ManufacturerId") s;
    Some (populate_models id s).

Definition ModelId_onchange (s : page) : option page :=
  v ← get (nm "ModelId") s;
  let known := ntruthy (parseInt v) in
  Some (change (nm "Model") (fun c => c <| disabled := known |>) s <| model_hidden := known |>).

Definition Model_onchange (s : page) : option page :=
  v ← get (nm "Model") s;
  _ ← get (nm "ModelId") s;
  Some (change (nm "ModelId") (select_by_text v) s).

Definition devices_onchange (s : page) : option page :=
  v ← get (nm "Devices") s;
  _ ← get (nm "Device") s;
  Some (if String.eqb v "" then s <| device_hidden := false |> else put (nm "Device") v s <| device_hidden := true |>).

Definition SecondPath_onChange (s : page) : option page :=
  v ← get (nm "SecondPath") s; Some (s <| sources_shown := negb (String.eqb v "") |>).

(** ** Motion and sound *)

Definition AudioDetection_onChange (s : page) : page :=
  let analysisOn := match get (nm "Analysing") s with Some v => negb (String.eqb v "None") | None => true end in
  s <| audio_shown := analysisOn && is_checked (nm "AudioDetection") s |>.

Definition Analysing_onChange (s : page) : option page :=
  v ← get (nm "Analysing") s;
  Some (AudioDetection_onChange (s <| analysis_shown := negb (String.eqb v "None") |>)).

Definition updateAudioThresholdMark (s : page) : page :=
  s <| mark := LevelGraph.levelThresholdPercent (match get (nm "AudioThreshold") s with Some v => VStr v | None => VNull end) |>.

(** [visible]: the meter is on the page and on the screen. *)
Definition pollAudioLevel (visible : bool) (s : page) : page :=
  if negb visible || audioLevelInFlight s then s
  else emit AskLevel (s <| audioLevelInFlight := true |>).

Inductive level_reply := LevelError (message : string) | LevelIs (lv : option num) (alarm : bool) | LevelFail.

Definition level_done (r : level_reply) (s : page) : page :=
  if audioLevelInFlight s then
    let shown :=
      match r with
      | LevelError m => LevelGraph.levelMeterState None false m
      | LevelIs lv alarm => LevelGraph.levelMeterState lv alarm ""
      | LevelFail => LevelGraph.levelMeterState None false "unavailable"
      end in
    s <| level := Some shown |> <| audioLevelInFlight := false |>
  else s.

(** ** The rows of actions *)

Definition action (i : nat) (n : string) : string := "newAction[" ++ Z_to_string (Z.of_nat i) ++ "][" ++ n ++ "]".

Definition assoc {A} (k : string) (l : list (string * A)) : option A :=
  snd <$> List.find (fun p => String.eqb p.1 k) l.

(** The last of the options made that is the wanted one, or the first. *)
Definition last_wanted (wanted : string) (os : list opt) : option nat :=
  match list_find (fun o => o_value o = wanted) (rev os) with
  | Some (i, _) => Some (length os - S i)%nat
  | None => match os with [] => None | _ => Some 0%nat end
  end.

Definition constrained (cp : option caps) : bool := match cp with Some c => match Types c with [] => false | _ => true end | None => false end.

Definition updateMonitorActionRow (cfg : config) (i : nat) (s : page) : page :=
  match get (action i "TargetMonitorId") s, get (action i "ActionType") s, element (action i "AudioFile") s, rows s !! i with
  | Some target, Some wanted, Some _, Some r =>
      let r := match get (action i "TriggerOn") s with Some t => r <| schedule_visible := String.eqb t "Schedule" |> | None => r end in
      let cp := assoc target (capabilities cfg) in
      let available := if constrained cp then default [] (Types <$> cp) else (labels cfg).*1 in
      let label t := match assoc t (labels cfg) with Some l => if String.eqb l "" then t else l | None => t end in
      let os := (fun t => Opt t (label t)) <$> available in
      let s := change (action i "ActionType")
                 (fun c => c <| options := os |> <| selectedIndex := last_wanted wanted os |> <| disabled := negb (constrained cp) |>) s in
      let takesFile := bool_decide (get (action i "ActionType") s = Some "AudioPlay") in
      let r := r <| file_visible := takesFile |> in
      match cp with
      | Some cp =>
          if takesFile then
            let r := match MinAudioFile cp with Some z => r <| file_min := Some z |> | None => r end in
            let r := match MaxAudioFile cp with Some z => r <| file_max := Some z |> | None => r end in
            let s := s <| rows := <[i := r]> (rows s) |> in
            match MinAudioFile cp, get (action i "AudioFile") s with
            | Some z, Some "" => put (action i "AudioFile") (Z_to_string z) s
            | _, _ => s
            end
          else s <| rows := <[i := r]> (rows s) |>
      | None => s <| rows := <[i := r]> (rows s) |>
      end
  | _, _, _, _ => s
  end.

(** ** The check of the form *)

Definition all_digits (s : string) : bool := negb (String.eqb s "") && all_chars is_digit s.
Definition is_letter (c : ascii) : bool := let z := code c in ((65 <=? z) && (z <=? 90)) || ((97 <=? z) && (z <=? 122)).
(** [/^\/dev\/[\w\/.\-]+$/] *)
Definition device_path (s : string) : bool :=
  let rest := slice_from s 5 in
  starts_with "/dev/" s && negb (String.eqb rest "") &&
  all_chars (fun c => is_letter c || is_digit c || includes_char "_/.-" c) rest.
(** [/^[#0-9a-zA-Z]+$/] *)
Definition colour (s : string) : bool :=
  negb (String.eqb s "") && all_chars (fun c => is_letter c || is_digit c || Ascii.eqb c "#") s.
(** [/[\!\*'\(\)\$ ,#]/] *)
Definition not_encoded (s : string) : bool := negb (all_chars (fun c => negb (includes_char "!*'()$ ,#" c)) s).
(** [/^https?:\/\//i] *)
Definition web_address (s : string) : bool :=
  let s := toLowerCase s in starts_with "http://" s || starts_with "https://" s.
(** [s.replace(/[^#a-zA-Z]/g, "")] *)
Fixpoint letters_only (s : string) : string :=
  match s with
  | EmptyString => EmptyString
  | String c s => if is_letter c || Ascii.eqb c "#" then String c (letters_only s) else letters_only s
  end.

Definition default_parameters : string :=
  "#Linesbeginningwith#areacomment#Forchangingqualityusethecrfoption#isbestisworstquality#crf".

(** The names every object has, besides those the page puts in. *)
Definition of_any_object : list string :=
  ["constructor"; "__defineGetter__"; "__defineSetter__"; "hasOwnProperty"; "__lookupGetter__"; "__lookupSetter__";
   "isPrototypeOf"; "propertyIsEnumerable"; "toString"; "valueOf"; "__proto__"; "toLocaleString"].
Definition is_member (n : string) (ns : list string) : bool := bool_decide (n ∈ (ns ++ of_any_object)%list).

(** A message if the condition holds. *)
Definition say (b : bool) (message : string) : list string := if b then [message] else [].

(** [!value || !(parseInt(value) ok)] *)
Definition wrong_int (n : string) (ok : num -> bool) (message : string) (s : page) : option (list string) :=
  v ← get (nm n) s; Some (say (String.eqb v "" || negb (ok (parseInt v))) message).
(** [value && !(parseFloat(value) >= 0)] *)
Definition wrong_rate (n message : string) (s : page) : option (list string) :=
  v ← get (nm n) s; Some (say (negb (String.eqb v "") && negb (parseFloat v >=? Fin 0)%num) message).
(** [!element || !value || !value.match(p)] *)
Definition no_match (n : string) (p : string -> bool) (message : string) (s : page) : option (list string) :=
  Some (say (match get (nm n) s with Some v => negb (p v) | None => true end) message).
Definition passthrough (s : page) : option (list string) :=
  v ← get (nm "VideoWriter") s; Some (say (string_to_number v =? Fin 2)%num "BadPassthrough").

(** The messages of several checks, in their order. *)
Fixpoint collect (cs : list (option (list string))) : option (list string) :=
  match cs with
  | [] => Some []
  | c :: cs => a ← c; b ← collect cs; Some (a ++ b)%list
  end.

Definition no_path (s : page) : option (list string) :=
  v ← get (nm "Path") s; Some (say (String.eqb v "") "BadPath").

(** The entries of the ffmpeg options that zmc cannot use. *)
Definition bad_options (s : page) : option (list string) :=
  match get (nm "Options") s with
  | None => Some []
  | Some v =>
      bad ← Ffmpeg.badEntries v Ffmpeg.PAIR_SEPARATORS;
      Some (match bad with [] => [] | _ => ["BadFfmpegOptions"] end)
  end.

(** The errors for a type of source. *)
Definition source_errors (type : string) (s : page) : option (list string) :=
  if String.eqb type "Local" then
    collect [no_match "Palette" all_digits "BadPalette" s;
             (v ← get (nm "Device") s; Some (say (negb (device_path v)) "BadDevice"));
             no_match "Channel" all_digits "BadChannel" s; no_match "Format" all_digits "BadFormat" s;
             no_match "VideoWriter" (fun v => negb (string_to_number v =? Fin 2)%num) "BadPassthrough" s]
  else if String.eqb type "Remote" then
    collect [(v ← get (nm "Port") s; Some (say (negb (String.eqb v "") && negb (all_digits v)) "BadPort")); passthrough s]
  else if String.eqb type "Ffmpeg" then collect [no_path s; bad_options s]
  else if String.eqb type "File" then collect [no_path s; passthrough s]
  else if String.eqb type "WebSite" then
    (v ← get (nm "Path") s; Some (say (negb (web_address v)) "BadWebSitePath"))
  else Some [].

Definition source_warnings (type : string) (s : page) : option (list string) :=
  if String.eqb type "Ffmpeg" then
    v ← get (nm "Path") s; Some (say (negb (String.eqb v "") && not_encoded v) "BadPathNotEncoded")
  else Some [].

Definition encoder_warnings (s : page) : option (list string) :=
  vw ← get (nm "VideoWriter") s;
  if String.eqb vw "1" then
    v ← get (nm "EncoderParameters") s;
    let parameters := letters_only v in
    Some (say (String.eqb parameters "" || String.eqb parameters default_parameters) "BadEncoderParameters")
  else Some [].

Definition at_least (z : Z) (n : num) : bool := (n >=? Fin (inject_Z z))%num.
Definition above (z : Z) (n : num) : bool := (n >? Fin (inject_Z z))%num.

Definition wrong_colours (s : page) : option (list string) :=
  no_match "Colours" (fun v => negb (String.eqb v "") &&
    ((parseInt v =? Fin 1)%num || (parseInt v =? Fin 3)%num || (parseInt v =? Fin 4)%num)) "BadColours" s.

Definition wrong_buffers (s : page) : option (list string) :=
  max ← get (nm "MaxImageBufferCount") s;
  pre ← get (nm "PreEventCount") s;
  Some (say (ntruthy (parseInt max) && (parseInt pre >? parseInt max)%num) "BadPreEventCountMaxImageBufferCount").

(** The errors of every type but WebSite. *)
Definition setting_errors (type : string) (s : page) : option (list string) :=
  collect
    [wrong_rate "AnalysisFPSLimit" "BadAnalysisFPS" s; wrong_rate "MaxFPS" "BadMaxFPS" s; wrong_rate "AlarmMaxFPS" "BadAlarmMaxFPS" s;
     wrong_int "RefBlendPerc" (fun n => negb (above 100 n) && negb (n <? Fin 0)%num) "BadRefBlendPerc" s;
     wrong_colours s;
     wrong_int "Width" (above 0) "BadWidth" s; wrong_int "Height" (above 0) "BadHeight" s;
     wrong_int "LabelX" (at_least 0) "BadLabelX" s; wrong_int "LabelY" (at_least 0) "BadLabelY" s;
     wrong_int "ImageBufferCount" (at_least 2) "BadImageBufferCount" s;
     wrong_int "WarmupCount" (at_least 0) "BadWarmupCount" s;
     wrong_int "PreEventCount" (at_least 0) "BadPreEventCount" s;
     wrong_int "PostEventCount" (at_least 0) "BadPostEventCount" s;
     wrong_int "StreamReplayBuffer" (at_least 0) "BadStreamReplayBuffer" s;
     wrong_buffers s;
     wrong_int "AlarmFrameCount" (above 0) "BadAlarmFrameCount" s;
     wrong_int "SectionLength" (at_least 10) "BadSectionLength" s;
     wrong_int "AnalysisUpdateDelay" (at_least 0) "BadAnalysisUpdateDelay" s;
     wrong_int "FPSReportInterval" (at_least 0) "BadFPSReportInterval" s;
     wrong_int "MotionFrameSkip" (at_least 0) "BadMotionFrameSkip" s;
     (if String.eqb type "Local" then
        v ← get (nm "SignalCheckColour") s; Some (say (negb (colour v)) "BadSignalCheckColour")
      else Some []);
     (v ← get (nm "WebColour") s; Some (say (negb (colour v)) "BadWebColour"))].

Definition duplicate_name (cfg : config) (s : page) : option (list string) :=
  v ← get (nm "Name") s; Some (say (is_member v (monitorNames cfg)) "DuplicateMonitorName").
Definition duplicate_stream (cfg : config) (s : page) : option (list string) :=
  Some (match get (nm "RTSPStreamName") s with
        | Some v => say (negb (String.eqb v "") && is_member v (rtspStreamNames cfg)) "DuplicateRTSPStreamName"
        | None => []
        end).

Definition errors (cfg : config) (s : page) : option (list string) :=
  type ← get (nm "Type") s;
  collect [duplicate_name cfg s; source_errors type s;
           (if String.eqb type "WebSite" then Some [] else setting_errors type s); duplicate_stream cfg s].

Definition no_recording (s : page) : option (list string) :=
  match get (nm "Recording") s with
  | Some r =>
      if String.eqb r "None" then Some []
      else
        j ← get (nm "SaveJPEGs") s;
        if String.eqb j "0" then
          v ← get (nm "VideoWriter") s; Some (say (String.eqb v "0") "BadNoSaveJPEGsOrVideoWriter")
        else Some []
  | None => Some []
  end.

(** The warnings that are looked for with the errors. *)
Definition warnings (s : page) : option (list string) :=
  type ← get (nm "Type") s;
  collect [source_warnings type s; (if String.eqb type "WebSite" then Some [] else encoder_warnings s)].

Definition trimmed (c : control) : control :=
  match kind_of c with Select => c | _ => set_value (trim (text c)) c end.

(** [answer]: what the user says to the warnings. *)
Definition validateForm (cfg : config) (answer : bool) (s : page) : option (page * bool) :=
  let s := s <| elements := map trimmed (elements s) |> in
  es ← errors cfg s;
  ws ← warnings s;
  match es with
  | _ :: _ => Some (emit (Alert es) s, false)
  | [] =>
      more ← no_recording s;
      match (ws ++ more)%list with
      | [] => Some (s, true)
      | ws => Some (emit (Confirm ws) s, answer)
      end
  end.

(** ** Saving *)

Definition saveMonitorData (href : string) (s : page) : page :=
  let s := emit (Post (serialize s)) s <| posts := (posts s ++ [href])%list |> in
  emit HideDialog (s <| saveConfirm_shown := false |>).

(** The answer to a save: the form is taken to be what is saved. *)
Definition saved (k : nat) (s : page) : page :=
  match posts s !! k with
  | None => s
  | Some href =>
      let s := s <| posts := delete k (posts s) |> <| sourceFormMonitor := serialize s |> in
      if String.eqb href "" then s else emit (Navigate href) s
  end.
Definition not_saved (k : nat) (s : page) : page :=
  match posts s !! k with
  | None => s
  | Some _ => emit (Alert ["An error occurred while saving data."]) (s <| posts := delete k (posts s) |>)
  end.

Definition saveMonitorDataPrepare (href : option string) (s : page) : option page :=
  v ← get (nm "Name") s;
  Some (emit (AskName v) (s <| name_requests := (name_requests s ++ [href])%list |>)).

Inductive name_reply := BadName (message : string) | NameError (message : string) | GoodName.

(** The answer to the [k]-th check of a name; [answer] as in [validateForm]. *)
Definition name_done (cfg : config) (k : nat) (r : name_reply) (answer : bool) (s : page) : option page :=
  match name_requests s !! k with
  | None => Some s
  | Some href =>
      let s := s <| name_requests := delete k (name_requests s) |> in
      match r with
      | BadName m | NameError m => Some (emit (Alert [m]) s)
      | GoodName =>
          match validateForm cfg answer s with
          | None => None
          | Some (s, false) => Some s
          | Some (s, true) =>
              let h := default "" href in
              Some (saveMonitorData h (if String.eqb h "" then s else s <| contentButtons_hidden := true |>))
          end
      end
  end.

Definition zones_href (cfg : config) : string := "?view=zones&mid=" ++ mid cfg.

Definition onZonesClick (cfg : config) (s : page) : page :=
  if bool_decide (serialize s <> sourceFormMonitor s) then
    if saveConfirm s then emit ShowDialog (s <| saveConfirmBtn_disabled := false |> <| saveConfirm_shown := true |>)
    else emit AskDialog (s <| saveConfirm_asked := S (saveConfirm_asked s) |>)
  else emit (Navigate (zones_href cfg)) s.

Definition dialog_done (s : page) : page :=
  match saveConfirm_asked s with
  | O => s
  | S n =>
      emit ShowDialog (s <| saveConfirm_asked := n |> <| saveConfirm := true |> <| saveConfirm_shown := true |>)
  end.

(** The buttons of the dialog. *)
Definition onSaveConfirmClick (cfg : config) (s : page) : option page :=
  if saveConfirm_shown s && negb (saveConfirmBtn_disabled s)
  then saveMonitorDataPrepare (Some (zones_href cfg)) (s <| saveConfirmBtn_disabled := true |>) else Some s.
Definition dontSave (cfg : config) (s : page) : page :=
  if saveConfirm_shown s then emit (Navigate (zones_href cfg)) s else s.
Definition saveCancel (s : page) : page :=
  if saveConfirm_shown s then emit HideDialog (s <| saveConfirm_shown := false |>) else s.

(** ** What can happen *)

Inductive event :=
| Typed (n v : string)              (* the text of a control becomes [v] *)
| Left (n : string)                 (* blur *)
| Chosen (n : string) (k : nat)     (* the [k]-th option of a select *)
| Clicked (n : string)              (* a checkbox *)
| RowChanged (i : nat) (n : string) (k : nat)   (* a select of a row of actions *)
| ModelsDone (k : nat) (models : list opt) | ModelsFail (k : nat)
| SaveClick | SaveAndCloseClick | ZonesClick
| NameDone (k : nat) (r : name_reply) (answer : bool) | NameFail (k : nat)
| Saved (k : nat) | NotSaved (k : nat)
| DialogDone | DialogFail | SaveConfirmClick | DontSaveClick | SaveCancelClick
| Poll (visible : bool) | LevelDone (r : level_reply).

(** Only a control that is there and enabled is typed into, chosen in or clicked;
    Restream is in a row that may be hidden. *)
Definition usable (ks : list kind) (n : string) (s : page) : bool :=
  match element n s with
  | Some c => bool_decide (kind_of c ∈ ks) && negb (disabled c) && negb (String.eqb n (nm "Restream") && restream_hidden s)
  | None => false
  end.

Definition buffer_fields : list string :=
  [nm "ImageBufferCount"; nm "MaxImageBufferCount"; nm "Width"; nm "Height"; nm "PreEventCount"].

(** The listeners of input, in the order they were added, and the key let go. *)
Definition on_input (cfg : config) (n : string) (s : page) : option page :=
  s ← (if bool_decide (n ∈ [nm "Width"; nm "Height"]) then typed_dimension cfg n s else Some s);
  s ← (if bool_decide (n ∈ buffer_fields) then buffer_setting_oninput n s else Some s);
  if String.eqb n (nm "Path") then Some (change_Path false s)
  else if String.eqb n (nm "SecondPath") then SecondPath_onChange s
  else if String.eqb n (nm "Manufacturer") then Manufacturer_onchange s
  else if String.eqb n (nm "Model") then Model_onchange s
  else if String.eqb n (nm "AudioThreshold") then Some (updateAudioThresholdMark s)
  else Some s.

Definition on_change (cfg : config) (n : string) (s : page) : option page :=
  if String.eqb n "dimensions_select" then chosen_dimensions s
  else if String.eqb n (nm "ManufacturerId") then ManufacturerId_onchange s
  else if String.eqb n (nm "ModelId") then ModelId_onchange s
  else if String.eqb n (nm "Devices") then devices_onchange s
  else if String.eqb n (nm "DeviceClass") then Some (manageGo2RTCDisableBackChannel true s)
  else if String.eqb n (nm "Analysing") then Analysing_onChange s
  else if String.eqb n (nm "Type") then let s := put "tab" "general" s in Some (emit (Submit (serialize s)) s)
  else Some s.

(** onclick, then the listeners of change. *)
Definition on_click (cfg : config) (n : string) (s : page) : page :=
  if String.eqb n (nm "JanusEnabled") then updateRestreamVisibility (janus_rows (update_players cfg s))
  else if String.eqb n (nm "Go2RTCEnabled") || String.eqb n (nm "RTSP2WebEnabled")
  then updateRestreamVisibility (stream_channel (update_players cfg s))
  else if String.eqb n (nm "RTSPServer") then updateRestreamVisibility s
  else if String.eqb n (nm "Restream") then Restream_onclick s
  else if String.eqb n (nm "AudioDetection") then AudioDetection_onChange s
  else s.

Definition step (cfg : config) (s : page) (e : event) : option page :=
  match e with
  | Typed n v => if usable [Text; Number] n s then on_input cfg n (put n v s) else Some s
  | Left n => Some (if bool_decide (n ∈ [nm "Path"; nm "User"; nm "Pass"]) then change_Path true s else s)
  | Chosen n k =>
      if usable [Select] n s then on_change cfg n (change n (choose k) s) else Some s
  | Clicked n => Some (if usable [Checkbox] n s then on_click cfg n (change n (fun c => c <| checked := negb (checked c) |>) s) else s)
  | RowChanged i n k =>
      Some (if usable [Select] (action i n) s
            then updateMonitorActionRow cfg i (change (action i n) (choose k) s) else s)
  | ModelsDone k models => Some (models_done k models s)
  | ModelsFail k => Some (s <| model_requests := delete k (model_requests s) |>)
  | SaveClick => saveMonitorDataPrepare None s
  | SaveAndCloseClick => saveMonitorDataPrepare (Some "?view=console") s
  | ZonesClick => Some (onZonesClick cfg s)
  | NameDone k r answer => name_done cfg k r answer s
  | NameFail k => Some (s <| name_requests := delete k (name_requests s) |>)
  | Saved k => Some (saved k s)
  | NotSaved k => Some (not_saved k s)
  | DialogDone => Some (dialog_done s)
  | DialogFail => Some (s <| saveConfirm_asked := Nat.pred (saveConfirm_asked s) |>)
  | SaveConfirmClick => onSaveConfirmClick cfg s
  | DontSaveClick => Some (dontSave cfg s)
  | SaveCancelClick => Some (saveCancel s)
  | Poll visible => Some (pollAudioLevel visible s)
  | LevelDone r => Some (level_done r s)
  end.

Fixpoint run (cfg : config) (s : page) (es : list event) : option page :=
  match es with
  | [] => Some s
  | e :: es => match step cfg s e with Some s => run cfg s es | None => None end
  end.

(** What the page of PHP has: its controls, and how many rows of actions. *)
Definition first_page (cs : list control) (n : nat) (manufacturer model device sources : bool) : page :=
  Page cs "" true true true true true true true sources manufacturer model device (repeat (Row true true None None) n)
    [] [] [] [] false 0 false false false false None None [].

(** initMonitorActions: the rows, in their order. *)
Definition initMonitorActions (cfg : config) (s : page) : page :=
  fold_left (fun s i => updateMonitorActionRow cfg i s) (seq 0 (length (rows s))) s.

(** initPage; then the actions, whose listener is the later one. *)
Definition initPage (cfg : config) (visible : bool) (s : page) : option page :=
  s ← update_estimated_ram_use s;
  type ← get (nm "Type") s;
  let s := s <| sourceFormMonitor := serialize s |> in
  let s := updateRestreamVisibility (update_players cfg (stream_channel (janus_rows s))) in
  Some (initMonitorActions cfg
          (if String.eqb type "WebSite" then s
           else
             let s := match get (nm "Analysing") s with
                      | Some v => AudioDetection_onChange (s <| analysis_shown := negb (String.eqb v "None") |>)
                      | None => match element (nm "AudioDetection") s with Some _ => AudioDetection_onChange s | None => s end
                      end in
             pollAudioLevel visible (updateAudioThresholdMark s))).
End MonitorForm.
