(* ===== verification/MonitorFormSafe.v ===== *)
(** What the form of MonitorForm.v promises. *)
From S2P Require Import JsString NumText FfmpegOptions LevelGraph MonitorForm.

Module FormSafe.
Import MonitorForm.
#[local] Open Scope string_scope.
#[local] Open Scope Z_scope.

(** ** Sizes as text *)

Lemma reduce_power (k : nat) : (k <= 103)%nat -> forall fuel size i, (k <= fuel)%nat ->
  nle size (Fin (pow2 (10 * Z.of_nat k))) -> is_Some (reduce fuel size i).
Proof.
  intros Hk. induction k as [|k IH]; intros fuel size i Hf Hs.
  - assert (L : nle (size / Fin 1024) (Fin (8106479329266893 # 9007199254740992))).
    { eapply nle_trans; [apply ndiv_mono; [exact Hs|reflexivity]|]. vm_compute. reflexivity. }
    destruct (nle_not_NaN _ _ L) as [N1 N2]. apply nltb_false in L; [|assumption..].
    destruct fuel; cbn [reduce]; rewrite L; eauto.
  - destruct fuel as [|fuel]; [lia|]. cbn [reduce]. destruct (_ >? _)%num; [|eauto]. apply IH; [lia|lia|].
    eapply nle_trans; [apply ndiv_mono; [exact Hs|reflexivity]|]. cbn [ndiv].
    change (Qeq_bool 1024 0) with false. cbv iota. apply rnd_le_wf.
    + rewrite <- (Qmult_1_l (pow2 _)). change 1%Q with (inject_Z 1). apply double_repr; [lia|unfold emin; lia].
    + split.
      * apply (Qlt_trans _ 0); [reflexivity|apply pow2_pos].
      * unfold huge. rewrite <- pow2_Z by lia. apply pow2_lt. lia.
    + replace (10 * Z.of_nat (S k)) with (10 * Z.of_nat k + 10) by lia. rewrite pow2_add.
      change (pow2 10) with 1024%Q. unfold Qdiv. rewrite <- Qmult_assoc. rewrite (Qmult_inv_r 1024) by discriminate.
      rewrite Qmult_1_r. apply Qle_refl.
Qed.

Lemma reduce_infinite fuel : forall i, reduce fuel (Infty false) i = None.
Proof. induction fuel as [|fuel IH]; intros i; cbn; [reflexivity|apply IH]. Qed.

Lemma filesize_spec size : wf size \/ size = NaN -> is_Some (human_filesize size) <-> size <> Infty false.
Proof.
  intros W. unfold human_filesize. split.
  - intros H ->. rewrite reduce_infinite in H. destruct H as [? H]. discriminate H.
  - intros Hi. assert (R : is_Some (reduce halvings size 0)).
    { destruct size as [|[]|q]; [eexists; reflexivity|eexists; reflexivity|contradiction|].
      destruct W as [[_ [_ Hq]]|W]; [|discriminate]. apply (reduce_power 103); [lia|unfold halvings; lia|]. apply nle_Fin.
      apply Qlt_le_weak in Hq. eapply Qle_trans; [exact Hq|]. unfold huge. rewrite <- pow2_Z by lia. apply pow2_le. lia. }
    destruct R as [[x i] ->]. cbn. eauto.
Qed.

(** The bytes of [n] images. *)
Definition bytes (n : num) (width height colours : string) : num :=
  (n * string_to_number width * string_to_number height * string_to_number colours)%num.

Lemma bytes_wf n w h c : wf (bytes n w h c) \/ bytes n w h c = NaN.
Proof.
  unfold bytes. set (a := (n * _ * _)%num). destruct (decide ((a * string_to_number c)%num = NaN)) as [E|N]; [right; exact E|].
  left. apply nmul_wf, N.
Qed.

(** C34: the text about the memory is made whenever the bytes of the buffers are a
    number, be it NaN; where they are infinite the loop never ends, whatever the
    fuel. *)
Theorem estimate_ends (s : page) (type width height colours ibc pec mibc : string) :
  get (nm "Type") s = Some type -> type <> "WebSite" -> get (nm "Width") s = Some width -> get (nm "Height") s = Some height ->
  get (nm "Colours") s = Some colours -> get (nm "ImageBufferCount") s = Some ibc -> get (nm "PreEventCount") s = Some pec ->
  get (nm "MaxImageBufferCount") s = Some mibc ->
  let min := (parseInt ibc + parseInt pec)%num in
  (is_Some (update_estimated_ram_use s) <->
   bytes min width height colours <> Infty false /\
   (ntruthy (parseInt mibc) = true -> bytes (min + parseInt mibc) width height colours <> Infty false)) /\
  (forall fuel i, reduce fuel (Infty false) i = None).
Proof.
  intros ET HT EW EH EC EI EP EM. cbv zeta. split; [|intros fuel i; apply reduce_infinite].
  unfold update_estimated_ram_use. rewrite ET. cbn [mbind option_bind]. apply String.eqb_neq in HT. rewrite HT, EW, EH, EC, EI, EP.
  cbn [mbind option_bind]. fold (bytes (parseInt ibc + parseInt pec) width height colours).
  pose proof (filesize_spec _ (bytes_wf (parseInt ibc + parseInt pec) width height colours)) as F1.
  destruct (human_filesize (bytes (parseInt ibc + parseInt pec) width height colours)) as [t1|]; cbn [mbind option_bind].
  - rewrite EM. cbn [mbind option_bind]. fold (bytes (parseInt ibc + parseInt pec + parseInt mibc) width height colours).
    pose proof (filesize_spec _ (bytes_wf (parseInt ibc + parseInt pec + parseInt mibc) width height colours)) as F2.
    destruct (ntruthy (parseInt mibc)); cbn [mbind option_bind].
    + destruct (human_filesize (bytes (parseInt ibc + parseInt pec + parseInt mibc) width height colours)) as [t2|]; cbn.
      * split; [intros _; split; [apply F1; eauto|intros _; apply F2; eauto]|eauto].
      * split; [intros [? H]; discriminate H|]. intros [_ H]. destruct (proj2 F2 (H eq_refl)) as [? E]. discriminate E.
    + split; [intros _; split; [apply F1; eauto|discriminate]|eauto].
  - split; [intros [? H]; discriminate H|]. intros [H _]. destruct (proj2 F1 H) as [? E]. discriminate E.
Qed.

(** ** What an operation leaves alone *)

(** A change of a control that keeps its name and kind, whether it is checked, and
    a number field's text a number. *)
Definition numeric (c : control) : Prop := kind_of c = Number -> number_value (text c) = text c.
Record tame (f : control -> control) : Prop := {
  t_name c : name (f c) = name c;
  t_kind c : kind_of (f c) = kind_of c;
  t_checked c : checked (f c) = checked c;
  t_numeric c : numeric c -> numeric (f c);
}.

Lemma tame_put v : tame (set_value v).
Proof.
  split; intros c; unfold set_value, numeric; destruct c as [n k tx ch os ix di]; destruct k; cbn; try reflexivity; try discriminate; auto.
  intros _ _. apply number_value_again.
Qed.
Lemma tame_trim : tame trimmed.
Proof.
  split; intros c; unfold trimmed; pose proof (tame_put (trim (text c))) as [H1 H2 H3 H4]; destruct (kind_of c) eqn:E;
    rewrite ?H1, ?H2, ?H3; auto.
Qed.

Ltac tames := let c := fresh "c" in split; intros c; destruct c as [? [] ? ? ? ? ?]; cbn; try reflexivity; auto.

Lemma tame_choose k : tame (choose k).
Proof. split; intros c; unfold choose; destruct (options c !! k); destruct c; cbn; auto. Qed.
Lemma tame_disabled (b : control -> bool) : tame (fun c => c <| disabled := b c |>).
Proof. tames. Qed.
Lemma tame_list (os : control -> list opt) (ix : control -> option nat) : tame (fun c => c <| options := os c |> <| selectedIndex := ix c |>).
Proof. tames. Qed.
Lemma tame_options (os : control -> list opt) : tame (fun c => c <| options := os c |>).
Proof. tames. Qed.
Lemma tame_by_text v : tame (select_by_text v).
Proof. split; intros c; unfold select_by_text; destruct (list_find _ _) as [[] |]; destruct c; cbn; auto. Qed.

Lemma change_first_spec n f cs m : (forall c, name (f c) = name c) ->
  List.find (fun c => String.eqb (name c) m) (change_first n f cs) =
  (if String.eqb m n then f <$> List.find (fun c => String.eqb (name c) m) cs else List.find (fun c => String.eqb (name c) m) cs).
Proof.
  intros Hf. induction cs as [|c cs IH]; cbn; [destruct (m =? n)%string; reflexivity|].
  destruct (name c =? n)%string eqn:En; cbn; rewrite ?Hf.
  - apply String.eqb_eq in En. destruct (name c =? m)%string eqn:Em.
    + apply String.eqb_eq in Em. subst. rewrite String.eqb_refl. reflexivity.
    + rewrite <- En, String.eqb_sym, Em. reflexivity.
  - destruct (name c =? m)%string eqn:Em; [|exact IH]. apply String.eqb_eq in Em. rewrite <- Em, En. reflexivity.
Qed.

Lemma element_change m n f s : (forall c, name (f c) = name c) ->
  element m (change n f s) = if String.eqb m n then f <$> element m s else element m s.
Proof. intros H. unfold element, change. fields. apply change_first_spec, H. Qed.

(** What is shown, and the controls but those of [ns], are the same; the number
    fields have numbers. *)
Definition flags (s : page) := (janus_hidden s, channel_hidden s, restream_hidden s, rtsp_user_hidden s, backchannel_hidden s).
Definition numbers (s : page) : Prop := Forall numeric (elements s).
Record near (ns : list string) (s t : page) : Prop := {
  n_element m : m ∉ ns -> element m t = element m s;
  n_kind m : kind_of <$> element m t = kind_of <$> element m s;
  n_checked m : is_checked m t = is_checked m s;
  n_numbers : numbers s -> numbers t;
  n_flags : flags t = flags s;
}.

Lemma near_refl ns s : near ns s s.
Proof. split; auto. Qed.
Lemma near_same ns s t u : near ns s t -> elements u = elements t -> flags u = flags t -> near ns s u.
Proof.
  intros [A B C D F] E G. assert (Ee : forall m, element m u = element m t) by (intros m; unfold element; rewrite E; reflexivity).
  split.
  - intros m Hm. rewrite Ee. auto.
  - intros m. rewrite Ee. auto.
  - intros m. rewrite <- C. unfold is_checked. rewrite Ee. reflexivity.
  - unfold numbers in *. rewrite E. auto.
  - congruence.
Qed.
Lemma near_trans ns s t u : near ns s t -> near ns t u -> near ns s u.
Proof.
  intros [A1 B1 C1 D1 F1] [A2 B2 C2 D2 F2]. split;
    [intros m Hm; rewrite A2 by exact Hm; auto|intros m; rewrite B2; auto|intros m; rewrite C2; auto|auto|congruence].
Qed.
Lemma near_more ns ns' s t : ns ⊆ ns' -> near ns s t -> near ns' s t.
Proof. intros H [A B C D F]. split; auto. Qed.

Lemma change_first_Forall (P : control -> Prop) n f cs : (forall c, P c -> P (f c)) -> Forall P cs -> Forall P (change_first n f cs).
Proof. intros Hf. induction 1 as [|c cs Hc Hcs IH]; cbn; [constructor|]. destruct (name c =? n)%string; constructor; auto. Qed.

Lemma near_change ns s t n f : near ns s t -> n ∈ ns -> tame f -> near ns s (change n f t).
Proof.
  intros H Hn [F1 F2 F3 F4]. apply (near_trans _ _ _ _ H). split.
  - intros m Hm. rewrite element_change by exact F1. destruct (String.eqb_spec m n); [subst; contradiction|reflexivity].
  - intros m. rewrite element_change by exact F1. destruct (m =? n)%string; [|reflexivity]. destruct (element m t); cbn; [|reflexivity].
    rewrite F2. reflexivity.
  - intros m. unfold is_checked. rewrite element_change by exact F1. destruct (m =? n)%string; [|reflexivity].
    destruct (element m t); cbn; auto.
  - apply change_first_Forall, F4.
  - reflexivity.
Qed.
Lemma near_put ns s t n v : near ns s t -> n ∈ ns -> near ns s (put n v t).
Proof. intros H Hn. apply near_change; [exact H|exact Hn|apply tame_put]. Qed.

(** ** The handlers, each with the controls it may change *)

Definition nearO (ns : list string) (s : page) (o : option page) : Prop := match o with Some t => near ns s t | None => True end.

Lemma near_bind ns s {A} (o : option A) (f : A -> option page) : (forall a, o = Some a -> nearO ns s (f a)) -> nearO ns s (o ≫= f).
Proof. destruct o; cbn; auto. Qed.

Ltac listed := first [apply (bool_decide_unpack _); vm_compute; exact I|set_solver].

(** A member of a part is a member of the whole. *)
Ltac whole := intros; rewrite ?elem_of_app in *; tauto.
#[local] Hint Extern 1 (_ ∈ _) => listed : near.
#[local] Hint Extern 1 (tame _) => first [apply tame_put|apply tame_choose|apply tame_list|apply tame_options|apply tame_by_text|apply tame_disabled] : near.
#[local] Hint Resolve near_put near_change near_refl : near.

Lemma near_ram ns s t : near ns s t -> nearO ns s (update_estimated_ram_use t).
Proof.
  intros H. unfold update_estimated_ram_use. apply near_bind. intros type _. destruct (type =? "WebSite")%string; [exact H|].
  do 6 (apply near_bind; intros ? _). apply near_bind. intros mibc _. apply near_bind. intros max _. cbn.
  apply (near_same ns s t); [exact H|reflexivity..].
Qed.

Lemma near_buffers ns s t this : near ns s t -> nm "MaxImageBufferCount" ∈ ns -> nm "PreEventCount" ∈ ns ->
  nearO ns s (buffer_setting_oninput this t).
Proof.
  intros H H1 H2. unfold buffer_setting_oninput. do 2 (apply near_bind; intros ? _). cbv zeta. apply near_ram.
  destruct (_ && _); [destruct (_ =? _)%string; apply near_put|]; assumption.
Qed.

Definition dimension_names : list string := [nm "Width"; nm "Height"; "dimensions_select"].

Lemma near_typed cfg this s : nearO dimension_names s (typed_dimension cfg this s).
Proof.
  unfold typed_dimension. apply near_bind. intros t Ht. apply near_bind. intros u Hu. apply near_ram.
  assert (T : near dimension_names s t).
  { unfold keep_ratio in Ht. destruct (get (nm "Width") s); [|discriminate]. destruct (get (nm "Height") s); [|discriminate].
    cbn [mbind option_bind] in Ht. injection Ht as <-.
    destruct (is_checked _ _); [destruct (_ =? _)%string; [|destruct (_ =? _)%string]|]; auto with near. }
  unfold select_dimensions in Hu. destruct (get (nm "Width") t); [|discriminate]. destruct (get (nm "Height") t); [|discriminate].
  cbn [mbind option_bind] in Hu. destruct (element _ t); injection Hu as <-; auto with near.
Qed.

Lemma near_chosen s : nearO dimension_names s (chosen_dimensions s).
Proof.
  unfold chosen_dimensions. do 3 (apply near_bind; intros ? _). apply near_ram. destruct (_ =? _)%string; [apply near_refl|].
  destruct (split_x _). auto with near.
Qed.

Definition path_names : list string := [nm "Path"; nm "User"; nm "Pass"].

Lemma near_path b s : near path_names s (change_Path b s).
Proof.
  unfold change_Path. destruct (get (nm "Path") s); [|apply near_refl]. destruct (credentials_of _); [|apply near_refl].
  destruct (get (nm "User") s); [|apply near_refl]. destruct (get (nm "Pass") s); [|apply near_refl].
  destruct b; [destruct (_ && _); [|apply near_refl]|]; auto with near.
Qed.

Definition model_names : list string := [nm "ManufacturerId"; nm "Manufacturer"; nm "ModelId"; nm "Model"].

Lemma near_models id ns s t : near ns s t -> nm "ModelId" ∈ ns -> near ns s (populate_models id t).
Proof.
  intros H Hn. unfold populate_models. destruct (element _ t); [|exact H].
  assert (E : near ns s (change (nm "ModelId") (set_options [Opt "" "Unknown"]) t))
    by (apply near_change; [exact H|exact Hn|unfold set_options; apply tame_list]).
  cbv zeta. destruct (id =? "")%string; [exact E|]. apply (near_same ns s _ _ E); reflexivity.
Qed.

(** Assignments to members that are not controls. *)
Ltac strip := repeat match goal with |- near ?ns ?s (upd ?f ?g ?t) => refine (near_same ns s t _ _ _ _); [|reflexivity|reflexivity] end.

Lemma near_ManufacturerId s : nearO model_names s (ManufacturerId_onchange s).
Proof.
  unfold ManufacturerId_onchange. do 2 (apply near_bind; intros ? _). destruct (negb _); cbn.
  - apply near_models; [|listed]. strip. auto with near.
  - strip. apply near_change; [strip; auto with near|listed|unfold set_options; apply tame_list].
Qed.

Lemma near_Manufacturer s : nearO model_names s (Manufacturer_onchange s).
Proof.
  unfold Manufacturer_onchange. apply near_bind. intros v _. destruct (v =? "")%string; [apply near_refl|]. cbv zeta. apply near_bind.
  intros id _. apply near_models; [auto with near|listed].
Qed.
Lemma near_ModelId s : nearO model_names s (ModelId_onchange s).
Proof. unfold ModelId_onchange. apply near_bind. intros v _. cbn. strip. auto with near. Qed.
Lemma near_Model s : nearO model_names s (Model_onchange s).
Proof. unfold Model_onchange. do 2 (apply near_bind; intros ? _). cbn. auto with near. Qed.
Lemma near_devices s : nearO [nm "Device"] s (devices_onchange s).
Proof.
  unfold devices_onchange. do 2 (apply near_bind; intros ? _). destruct (_ =? _)%string; cbn; strip; auto with near.
Qed.

Definition action_names (i : nat) : list string := [action i "ActionType"; action i "AudioFile"].

Lemma near_row cfg i s t ns : near ns s t -> action_names i ⊆ ns -> near ns s (updateMonitorActionRow cfg i t).
Proof.
  intros H Hn. assert (Ht : action i "ActionType" ∈ ns) by (apply Hn; unfold action_names; set_solver).
  assert (Hf : action i "AudioFile" ∈ ns) by (apply Hn; unfold action_names; set_solver).
  unfold updateMonitorActionRow. destruct (get (action i "TargetMonitorId") t); [|exact H]. destruct (get (action i "ActionType") t); [|exact H].
  destruct (element (action i "AudioFile") t); [|exact H]. destruct (rows t !! i); [|exact H]. cbv zeta.
  set (u := change (action i "ActionType") _ t). assert (Hu : near ns s u).
  { apply near_change; [exact H|exact Ht|]. tames. } clearbody u.
  destruct (assoc _ _) as [cp|]; [|strip; exact Hu]. destruct (bool_decide _); [|strip; exact Hu].
  destruct (MinAudioFile cp); [|strip; exact Hu].
  set (w := u <| rows := _ |>). assert (Hw : near ns s w) by (unfold w; strip; exact Hu). clearbody w.
  destruct (get (action i "AudioFile") w) as [[|]|]; [apply near_put; assumption|exact Hw..].
Qed.

Lemma near_rows cfg ns s : (forall i, action_names i ⊆ ns \/ (length (rows s) <= i)%nat) -> near ns s (initMonitorActions cfg s).
Proof.
  intros H. unfold initMonitorActions. assert (G : forall l t, Forall (fun i => (i < length (rows s))%nat) l -> near ns s t ->
    near ns s (fold_left (fun s i => updateMonitorActionRow cfg i s) l t)).
  { induction l as [|i l IH]; intros t Hl Ht; cbn; [exact Ht|]. inversion_clear Hl as [|? ? Hi Hl']. apply IH; [exact Hl'|].
    destruct (H i) as [Hi'|Hi']; [|lia]. apply near_row; [exact Ht|exact Hi']. }
  apply G; [|apply near_refl]. apply Forall_forall. intros i Hi. apply elem_of_seq in Hi. lia.
Qed.

(** The names of the controls the invariants speak of. *)
Definition buffer_names : list string := [nm "MaxImageBufferCount"; nm "PreEventCount"].
Definition switches : list string := [nm "JanusEnabled"; nm "Go2RTCEnabled"; nm "RTSP2WebEnabled"; nm "RTSPServer"; nm "Restream"].
Definition guarded : list string := (buffer_names ++ dimension_names ++ nm "DefaultPlayer" :: switches)%list.

Lemma action_not_guarded i n : action i n ∉ guarded.
Proof.
  intros H. assert (G : Forall (fun m => String.get 3 m <> Some "A"%char) guarded) by (apply (bool_decide_unpack _); vm_compute; exact I).
  rewrite Forall_forall in G. exact (G _ H eq_refl).
Qed.

(** The listeners of input behind those of the dimensions and the buffers. *)
Definition others (n : string) (s : page) : option page :=
  if String.eqb n (nm "Path") then Some (change_Path false s)
  else if String.eqb n (nm "SecondPath") then SecondPath_onChange s
  else if String.eqb n (nm "Manufacturer") then Manufacturer_onchange s
  else if String.eqb n (nm "Model") then Model_onchange s
  else if String.eqb n (nm "AudioThreshold") then Some (updateAudioThresholdMark s)
  else Some s.

Definition source_names : list string := (path_names ++ model_names)%list.

Lemma near_others n s : nearO source_names s (others n s).
Proof.
  unfold others.
  repeat match goal with |- nearO _ _ (if ?b then _ else _) => destruct b end; try apply near_refl; cbn [nearO].
  - eapply near_more; [|apply near_path]. unfold source_names. set_solver.
  - unfold SecondPath_onChange. apply near_bind. intros v _. cbn. strip. apply near_refl.
  - pose proof (near_Manufacturer s) as N. destruct (Manufacturer_onchange s); [|exact I].
    eapply near_more; [|exact N]. unfold source_names. set_solver.
  - pose proof (near_Model s) as N. destruct (Model_onchange s); [|exact I].
    eapply near_more; [|exact N]. unfold source_names. set_solver.
  - unfold updateAudioThresholdMark. strip. apply near_refl.
Qed.

Lemma input_others cfg n s : n ∉ buffer_fields -> on_input cfg n s = others n s.
Proof.
  intros H. unfold on_input. rewrite (bool_decide_false (n ∈ buffer_fields)) by exact H.
  rewrite bool_decide_false; [reflexivity|]. intros E. apply H. unfold buffer_fields. set_solver.
Qed.

(** ** The controls and members the invariants speak of *)

Definition valued : list string := (buffer_names ++ dimension_names ++ [nm "DefaultPlayer"])%list.

(** The kinds of these controls, where they are there. *)
Definition is_kind (k : kind) (n : string) (s : page) : Prop := forall c, element n s = Some c -> kind_of c = k.
Record typed_form (s : page) : Prop := {
  tf_numbers : numbers s;
  tf_number n : n ∈ nm "Width" :: nm "Height" :: buffer_names -> is_kind Number n s;
  tf_select n : n ∈ ["dimensions_select"; nm "DefaultPlayer"] -> is_kind Select n s;
  tf_switch n : n ∈ switches -> is_kind Checkbox n s;
}.

Lemma kind_kept k n s t : kind_of <$> element n t = kind_of <$> element n s -> is_kind k n s -> is_kind k n t.
Proof.
  intros E H c Hc. rewrite Hc in E. cbn in E. destruct (element n s) as [d|] eqn:Ed; [|discriminate]. cbn in E. injection E as ->. exact (H d Ed).
Qed.

Lemma typed_kept s t : (forall n, kind_of <$> element n t = kind_of <$> element n s) -> (numbers s -> numbers t) ->
  typed_form s -> typed_form t.
Proof. intros E N [A B C D]. split; [auto|..]; intros n Hn; eapply kind_kept; eauto. Qed.

Lemma near_typed_form ns s t : near ns s t -> typed_form s -> typed_form t.
Proof. intros N. apply typed_kept; apply N. Qed.

(** Nothing of what they speak of changes. *)
Record quiet (s t : page) : Prop := {
  q_element m : m ∈ valued -> element m t = element m s;
  q_checked m : m ∈ switches -> is_checked m t = is_checked m s;
  q_flags : flags t = flags s;
}.

Lemma quiet_then s t u : quiet s t -> quiet t u -> quiet s u.
Proof.
  intros [A B C] [A' B' C']. split; [intros m Hm; rewrite A', A by exact Hm; reflexivity|intros m Hm; rewrite B', B by exact Hm; reflexivity|congruence].
Qed.
Lemma near_quiet ns s t : near ns s t -> (forall m, m ∈ ns -> m ∉ valued) -> quiet s t.
Proof. intros [A B C D F] H. split; [|auto..]. intros m Hm. apply A. intros Hn. exact (H m Hn Hm). Qed.
Lemma same_quiet s t : elements t = elements s -> flags t = flags s -> quiet s t /\ (typed_form s -> typed_form t).
Proof.
  intros E F. pose proof (near_same [] s s t (near_refl _ s) E F) as N. split.
  - apply (near_quiet [] s t N). intros m Hm. apply not_elem_of_nil in Hm. contradiction.
  - apply (near_typed_form [] s t N).
Qed.

(** The quiet steps, in all of their kinds. *)
Lemma trimmed_same c : (kind_of c = Number -> numeric c /\ trim (text c) = text c) -> kind_of c = Number \/ kind_of c = Select -> trimmed c = c.
Proof.
  intros H K. unfold trimmed. destruct (kind_of c) eqn:E; try reflexivity; try (destruct K; discriminate).
  destruct (H eq_refl) as [N T]. unfold set_value. rewrite E, T. specialize (N E). rewrite N. destruct c; reflexivity.
Qed.

(** The text of a number has no white space. *)
Lemma read_digits_chars s : forall acc n z k r, read_digits 10 s acc n = (z, k, r) -> exists d, s = d ++ r /\ digits d.
Proof.
  induction s as [|c s IH]; intros acc n z k r; cbn [read_digits].
  - intros E. injection E as <- <- <-. exists "". split; reflexivity.
  - destruct (digit_val 10 c) as [v|] eqn:D; intros E.
    + destruct (IH _ _ _ _ _ E) as (d & -> & Hd). exists (String c d). split; [reflexivity|]. unfold digits in *. cbn. rewrite Hd, andb_true_r.
      revert D. unfold digit_val, is_digit. destruct ((48 <=? code c) && (code c <=? 57)); [reflexivity|]. intros D. exfalso.
      repeat (case_match; [|]); try discriminate; bool_to_prop; lia.
    + injection E as <- <- <-. exists "". split; reflexivity.
Qed.

Definition solid (c : ascii) : bool := negb (is_ws c).

Lemma digits_solid d : digits d -> all_chars solid d = true.
Proof.
  apply all_chars_impl. intros c H. unfold is_digit in H. unfold solid, is_ws. bool_to_prop. apply negb_true_iff.
  repeat (apply orb_false_iff; split); [apply andb_false_iff; right|..]; try apply Z.leb_gt; try apply Z.eqb_neq; lia.
Qed.

Lemma read_sign_solid s b r : read_sign s = (b, r) -> all_chars solid r = true -> all_chars solid s = true.
Proof.
  unfold read_sign. destruct s as [|c s]; intros E H; [reflexivity|].
  destruct (Ascii.eqb_spec c "-") as [->|_]; [injection E as _ <-; exact H|].
  destruct (Ascii.eqb_spec c "+") as [->|_]; injection E as _ <-; exact H.
Qed.

Lemma exponent_solid r e : whole_exponent r = Some e -> all_chars solid r = true.
Proof.
  unfold whole_exponent. destruct r as [|c r]; [reflexivity|]. destruct (_ || _) eqn:C; [|discriminate].
  destruct (read_sign r) as [neg r'] eqn:S. destruct (read_digits 10 r' 0 0) as [[z k] r2] eqn:D. intros E.
  assert (E' : r2 = "") by (destruct k; [discriminate|]; destruct r2; [reflexivity|discriminate]). subst r2.
  destruct (read_digits_chars _ _ _ _ _ _ D) as (d & -> & Hd). cbn [all_chars]. apply andb_true_iff. split.
  - apply orb_true_iff in C as [C|C]; apply Ascii.eqb_eq in C; subst; reflexivity.
  - apply (read_sign_solid _ _ _ S). rewrite append_nil_r. apply digits_solid, Hd.
Qed.

Lemma number_solid s : number_value s = s -> all_chars solid s = true.
Proof.
  intros E. destruct s as [|c0 s0]; [reflexivity|]. set (s := String c0 s0) in *.
  assert (N : number_value s <> "") by (rewrite E; discriminate). unfold number_value in N.
  set (un := match s with String c t => if Ascii.eqb c "-" then t else s | _ => s end) in *.
  assert (G : all_chars solid un = true -> all_chars solid s = true).
  { unfold un, s. destruct (Ascii.eqb_spec c0 "-") as [->|_]; auto. }
  apply G. clear G E. destruct (read_digits 10 un 0 0) as [[z ni] rest] eqn:D.
  destruct (read_digits_chars _ _ _ _ _ _ D) as (d & -> & Hd). rewrite all_chars_app, (digits_solid d Hd). cbn [andb].
  destruct rest as [|c t]; [reflexivity|]. destruct (Ascii.eqb_spec c ".") as [->|_].
  - destruct (read_digits 10 t 0 0) as [[z' nf] rest] eqn:D'. destruct (read_digits_chars _ _ _ _ _ _ D') as (d' & -> & Hd').
    destruct (whole_exponent rest) eqn:W; [|contradiction]. cbn. rewrite all_chars_app, (digits_solid d' Hd').
    exact (exponent_solid rest _ W).
  - destruct (whole_exponent (String c t)) eqn:W; [|contradiction]. exact (exponent_solid _ _ W).
Qed.

Lemma trim_solid s : all_chars solid s = true -> trim s = s.
Proof.
  intros H. unfold trim. assert (E : trim_start s = s).
  { destruct s as [|c s]; [reflexivity|]. cbn in H |- *. apply andb_true_iff in H as [H _]. unfold solid in H. apply negb_true_iff in H.
    rewrite H. reflexivity. }
  rewrite E. clear E. induction s as [|c s IH]; [reflexivity|]. cbn in H |- *. apply andb_true_iff in H as [H1 H2]. rewrite (IH H2).
  unfold solid in H1. apply negb_true_iff in H1. rewrite H1. destruct s; reflexivity.
Qed.

Lemma trimmed_valued c : numeric c -> kind_of c = Number \/ kind_of c = Select -> trimmed c = c.
Proof. intros N. apply trimmed_same. intros K. split; [exact N|]. apply trim_solid, number_solid, N, K. Qed.

Lemma find_map_same (f : control -> control) n cs : (forall c, name (f c) = name c) ->
  List.find (fun c => String.eqb (name c) n) (map f cs) = f <$> List.find (fun c => String.eqb (name c) n) cs.
Proof. intros Hf. induction cs as [|c cs IH]; cbn; [reflexivity|]. rewrite Hf. destruct (name c =? n)%string; [reflexivity|exact IH]. Qed.

Lemma element_numeric n s c : numbers s -> element n s = Some c -> numeric c.
Proof. intros N E. apply List.find_some in E as [E _]. unfold numbers in N. rewrite List.Forall_forall in N. apply N, E. Qed.

Lemma quiet_trimmed s : typed_form s -> quiet s (s <| elements := map trimmed (elements s) |>) /\
  typed_form (s <| elements := map trimmed (elements s) |>).
Proof.
  intros T. set (t := s <| elements := map trimmed (elements s) |>). destruct tame_trim as [F1 F2 F3 F4].
  assert (E : forall n, element n t = trimmed <$> element n s) by (intros n; apply find_map_same, F1). split.
  - split; [|intros m _; unfold is_checked; rewrite E; destruct (element m s); cbn; auto|reflexivity].
    intros m Hm. rewrite E. destruct (element m s) as [c|] eqn:Ec; [|reflexivity]. cbn. f_equal.
    apply trimmed_valued; [exact (element_numeric _ _ _ (tf_numbers s T) Ec)|]. unfold valued, buffer_names, dimension_names in Hm.
    destruct (decide (m ∈ ["dimensions_select"; nm "DefaultPlayer"])) as [Hs|Hs]; [right; exact (tf_select s T m Hs c Ec)|left].
    apply (tf_number s T m); [|exact Ec]. unfold buffer_names. set_solver.
  - apply (typed_kept s t); [intros n; rewrite E; destruct (element n s); cbn; rewrite ?F2; reflexivity| |exact T].
    intros N. unfold numbers in *. unfold t. fields. apply List.Forall_map. eapply List.Forall_impl; [|exact N]. exact F4.
Qed.

(** ** The steps *)

(** Lists of names that have none in common. *)
Definition apart (ns : list string) : bool := forallb (fun n => negb (bool_decide (n ∈ valued))) ns.

Lemma near_apart ns s t : apart ns = true -> near ns s t -> quiet s t /\ (typed_form s -> typed_form t).
Proof.
  intros A N. split; [|apply (near_typed_form ns), N]. apply (near_quiet ns s t N). intros m Hm. unfold apart in A.
  apply (forallb_elem _ _ m A), negb_true_iff, bool_decide_eq_false in Hm. exact Hm.
Qed.

Lemma name_apart n s k : typed_form s -> k <> Select -> k <> Number -> is_Some (element n s) -> is_kind k n s -> apart [n] = true.
Proof.
  intros T K1 K2 [c Ec] K. unfold apart. cbn. rewrite andb_true_r. apply negb_true_iff, bool_decide_eq_false. intros Hn. specialize (K c Ec).
  destruct (decide (n ∈ ["dimensions_select"; nm "DefaultPlayer"])) as [Hs|Hs]; [rewrite (tf_select s T n Hs c Ec) in K; auto|].
  rewrite (tf_number s T n) in K; auto. unfold valued, dimension_names in Hn. set_solver.
Qed.

(** A usable control is there, and of one of the kinds. *)
Lemma usable_kind ks n s : usable ks n s = true -> exists c, element n s = Some c /\ kind_of c ∈ ks /\
  (n = nm "Restream" -> restream_hidden s = false).
Proof.
  unfold usable. destruct (element n s) as [c|]; [|discriminate]. intros H. bool_to_prop. exists c. split; [reflexivity|]. split; [assumption|].
  intros ->. rewrite String.eqb_refl in *. cbn in *. assumption.
Qed.

Lemma quiet_validate cfg a s t ok : typed_form s -> validateForm cfg a s = Some (t, ok) -> quiet s t /\ typed_form t.
Proof.
  intros T E. destruct (quiet_trimmed s T) as [Q W]. unfold validateForm in E. set (u := s <| elements := _ |>) in *. clearbody u.
  assert (G : elements t = elements u /\ flags t = flags u).
  { cbn in E. destruct (errors cfg u) as [es|]; [|discriminate]. cbn in E. destruct (warnings u) as [ws|]; [|discriminate]. cbn in E.
    destruct es as [|]; [|injection E as <- _; split; reflexivity]. destruct (no_recording u) as [more|]; [|discriminate]. cbn in E.
    destruct (ws ++ more)%list; injection E as <- _; split; reflexivity. }
  destruct G as [G1 G2]. destruct (same_quiet u t G1 G2) as [Q' W']. split; [exact (quiet_then _ _ _ Q Q')|exact (W' W)].
Qed.

(** What a step comes to: nothing the invariants speak of, or one of these. *)
Inductive moves (cfg : config) (s t : page) : event -> Prop :=
| m_quiet e : quiet s t -> moves cfg s t e
| m_typed n v : n ∈ buffer_fields -> on_input cfg n (put n v s) = Some t -> moves cfg s t (Typed n v)
| m_dimensions k : chosen_dimensions (change "dimensions_select" (choose k) s) = Some t -> moves cfg s t (Chosen "dimensions_select" k)
| m_player k : t = change (nm "DefaultPlayer") (choose k) s -> moves cfg s t (Chosen (nm "DefaultPlayer") k)
| m_class k : t = manageGo2RTCDisableBackChannel true (change (nm "DeviceClass") (choose k) s) -> moves cfg s t (Chosen (nm "DeviceClass") k)
| m_switch n : n ∈ switches -> is_Some (element n s) -> (n = nm "Restream" -> restream_hidden s = false) ->
    t = on_click cfg n (change n (fun c => c <| checked := negb (checked c) |>) s) -> moves cfg s t (Clicked n).

(** Changes of what is checked or disabled. *)
Record boxy (f : control -> control) : Prop := {
  b_name c : name (f c) = name c; b_kind c : kind_of (f c) = kind_of c; b_text c : text (f c) = text c }.
Ltac boxes := let c := fresh "c" in split; intros c; destruct c as [? [] ? [] ? ? ?]; reflexivity.

Lemma typed_box s n f : boxy f -> typed_form s -> typed_form (change n f s).
Proof.
  intros [F1 F2 F3]. apply typed_kept.
  - intros m. rewrite element_change by exact F1. destruct (m =? n)%string; [|reflexivity]. destruct (element m s); cbn; rewrite ?F2; reflexivity.
  - apply change_first_Forall. intros c Hc K. rewrite F3. apply Hc. rewrite <- F2. exact K.
Qed.

Lemma quiet_box s n f : n ∉ switches -> apart [n] = true -> boxy f -> quiet s (change n f s) /\ (typed_form s -> typed_form (change n f s)).
Proof.
  intros Hn A F. split; [|apply typed_box, F]. destruct F as [F1 F2 F3].
  split; [|intros m Hm; unfold is_checked|reflexivity].
  - intros m Hm. rewrite element_change by exact F1. destruct (String.eqb_spec m n) as [->|]; [|reflexivity].
    unfold apart in A. cbn in A. rewrite andb_true_r in A. apply negb_true_iff, bool_decide_eq_false in A. contradiction.
  - rewrite element_change by exact F1. destruct (String.eqb_spec m n) as [->|]; [contradiction|reflexivity].
Qed.

Lemma typed_same s t : elements t = elements s -> typed_form s -> typed_form t.
Proof.
  intros E. apply typed_kept; [intros n; unfold element; rewrite E; reflexivity|unfold numbers; rewrite E; auto].
Qed.

Lemma boxy_channel b d : boxy (fun c => if String.eqb d "Camera"
  then c <| disabled := false |> <| checked := if b : bool then true else checked c |> else c <| disabled := true |> <| checked := false |>).
Proof. destruct (d =? "Camera")%string; boxes. Qed.

Lemma typed_channel b s : typed_form s -> typed_form (manageGo2RTCDisableBackChannel b s).
Proof.
  intros T. unfold manageGo2RTCDisableBackChannel. cbv zeta. match goal with |- typed_form (upd _ _ ?t) => refine (typed_same t _ _ _); [reflexivity|] end.
  apply typed_box; [apply boxy_channel|exact T].
Qed.

Lemma action_apart i n : apart [action i n] = true.
Proof.
  unfold apart. cbn. rewrite andb_true_r. apply negb_true_iff, bool_decide_eq_false. intros H. apply (action_not_guarded i n).
  unfold guarded, valued in *. set_solver.
Qed.
Lemma actions_apart i : apart (action_names i) = true.
Proof. pose proof (action_apart i "ActionType") as A. pose proof (action_apart i "AudioFile") as B. unfold apart, action_names in *. cbn in *.
  rewrite andb_true_r in A, B. rewrite A, B. reflexivity. Qed.

Definition quietly (s t : page) : Prop := quiet s t /\ (typed_form s -> typed_form t).
Lemma quietly_trans s t u : quietly s t -> quietly t u -> quietly s u.
Proof. intros [A B] [C D]. split; [exact (quiet_then _ _ _ A C)|auto]. Qed.

Lemma near_quietlyO ns s o t : apart ns = true -> nearO ns s o -> o = Some t -> quietly s t.
Proof. intros A N ->. exact (near_apart ns s t A N). Qed.

Lemma moves_quietly cfg s t e : typed_form s -> quietly s t -> moves cfg s t e /\ typed_form t.
Proof. intros T [Q W]. split; [apply m_quiet, Q|exact (W T)]. Qed.

Lemma typed_moves cfg s n v t : typed_form s -> usable [Text; Number] n s = true -> on_input cfg n (put n v s) = Some t ->
  moves cfg s t (Typed n v) /\ typed_form t.
Proof.
  intros T U E. destruct (usable_kind _ _ _ U) as (c & Ec & K & _).
  assert (N : near [n] s (put n v s)) by (apply near_put; [apply near_refl|set_solver]).
  destruct (decide (n ∈ buffer_fields)) as [Hn|Hn].
  - split; [apply m_typed; assumption|]. apply (near_typed_form _ _ _ N) in T. revert E. unfold on_input.
    destruct (if bool_decide (n ∈ [nm "Width"; nm "Height"]) then _ else _) as [a|] eqn:Ea; [|discriminate]. cbn [mbind option_bind].
    destruct (if bool_decide (n ∈ buffer_fields) then _ else _) as [b|] eqn:Eb; [|discriminate]. cbn [mbind option_bind].
    change (others n b = Some t -> typed_form t). intros E.
    assert (Ta : typed_form a).
    { destruct (bool_decide (n ∈ [nm "Width"; nm "Height"])); [|injection Ea as <-; exact T]. pose proof (near_typed cfg n (put n v s)) as Na. rewrite Ea in Na.
      exact (near_typed_form _ _ _ Na T). }
    assert (Tb : typed_form b).
    { destruct (bool_decide (n ∈ buffer_fields)); [|injection Eb as <-; exact Ta].
      pose proof (near_buffers buffer_names a a n (near_refl _ _) ltac:(listed) ltac:(listed)) as Nb. rewrite Eb in Nb.
      exact (near_typed_form _ _ _ Nb Ta). }
    pose proof (near_others n b) as No. rewrite E in No. exact (near_typed_form _ _ _ No Tb).
  - apply moves_quietly; [exact T|]. rewrite input_others in E by exact Hn.
    apply (quietly_trans s (put n v s)); [|exact (near_quietlyO source_names _ _ _ eq_refl (near_others n _) E)].
    apply (near_apart [n]); [|exact N]. unfold apart. cbn. rewrite andb_true_r. apply negb_true_iff, bool_decide_eq_false. intros Hv.
    destruct (decide (n ∈ ["dimensions_select"; nm "DefaultPlayer"])) as [Hs|Hs].
    + rewrite (tf_select s T n Hs c Ec) in K. set_solver.
    + apply Hn. unfold valued, buffer_names, dimension_names, buffer_fields in *. set_solver.
Qed.

Lemma chosen_moves cfg s n k t : typed_form s -> usable [Select] n s = true -> on_change cfg n (change n (choose k) s) = Some t ->
  moves cfg s t (Chosen n k) /\ typed_form t.
Proof.
  intros T U E. destruct (usable_kind _ _ _ U) as (c & Ec & K & _).
  assert (N : near [n] s (change n (choose k) s)) by (apply near_change; [apply near_refl|set_solver|apply tame_choose]).
  pose proof (near_typed_form _ _ _ N T) as Tn. unfold on_change in E. destruct (String.eqb_spec n "dimensions_select") as [->|Nd].
  { split; [apply m_dimensions, E|]. pose proof (near_chosen (change "dimensions_select" (choose k) s)) as Nc. rewrite E in Nc.
    exact (near_typed_form _ _ _ Nc Tn). }
  destruct (decide (n = nm "DefaultPlayer")) as [->|Np]; [cbn in E; injection E as <-; split; [apply m_player; reflexivity|exact Tn]|].
  assert (A : apart [n] = true).
  { unfold apart. cbn. rewrite andb_true_r. apply negb_true_iff, bool_decide_eq_false. intros Hv.
    assert (Kn : is_kind Number n s) by (apply tf_number; [exact T|]; unfold valued, buffer_names, dimension_names in *; set_solver).
    rewrite (Kn c Ec) in K. set_solver. }
  pose proof (near_apart _ _ _ A N) as Q.
  destruct (String.eqb_spec n (nm "ManufacturerId")); [|destruct (String.eqb_spec n (nm "ModelId")); [|destruct (String.eqb_spec n (nm "Devices"))]].
  1: apply moves_quietly; [exact T|]; exact (quietly_trans _ _ _ Q (near_quietlyO model_names _ _ _ eq_refl (near_ManufacturerId _) E)).
  1: apply moves_quietly; [exact T|]; exact (quietly_trans _ _ _ Q (near_quietlyO model_names _ _ _ eq_refl (near_ModelId _) E)).
  1: apply moves_quietly; [exact T|]; exact (quietly_trans _ _ _ Q (near_quietlyO [nm "Device"] _ _ _ eq_refl (near_devices _) E)).
  destruct (String.eqb_spec n (nm "DeviceClass")) as [->|Nc].
  { injection E as <-. split; [apply m_class; reflexivity|]. apply typed_channel, Tn. }
  apply moves_quietly; [exact T|]. apply (quietly_trans _ _ _ Q). destruct (String.eqb_spec n (nm "Analysing")).
  - unfold Analysing_onChange in E. destruct (get _ _); [|discriminate]. injection E as <-. apply same_quiet; reflexivity.
  - destruct (String.eqb_spec n (nm "Type")); injection E as <-.
    + cbv zeta. apply (near_apart ["tab"]); [reflexivity|]. unfold emit. strip. auto with near.
    + apply same_quiet; reflexivity.
Qed.

Ltac typed_strip := repeat match goal with |- typed_form (upd _ _ ?t) => refine (typed_same t _ _ _); [reflexivity|] end.

Lemma typed_players cfg s : typed_form s -> typed_form (update_players cfg s).
Proof.
  intros T. unfold update_players. destruct (element (nm "DefaultPlayer") s); [|exact T]. cbv zeta. apply typed_channel.
  refine (near_typed_form [nm "DefaultPlayer"] s _ _ T). auto with near.
Qed.

Lemma typed_click cfg n s : typed_form s -> typed_form (on_click cfg n s).
Proof.
  intros T. unfold on_click, updateRestreamVisibility, janus_rows, stream_channel, Restream_onclick, AudioDetection_onChange.
  repeat match goal with |- typed_form (if ?b then _ else _) => destruct b end; cbv zeta; typed_strip; try exact T;
    try (apply typed_players, T).
  destruct (element _ s); typed_strip; exact T.
Qed.

Lemma clicked_moves cfg s n t : typed_form s -> usable [Checkbox] n s = true ->
  t = on_click cfg n (change n (fun c => c <| checked := negb (checked c) |>) s) -> moves cfg s t (Clicked n) /\ typed_form t.
Proof.
  intros T U E. destruct (usable_kind _ _ _ U) as (c & Ec & K & R).
  assert (Tn : typed_form (change n (fun c => c <| checked := negb (checked c) |>) s)) by (apply typed_box; [boxes|exact T]).
  destruct (decide (n ∈ switches)) as [Hn|Hn].
  - split; [apply m_switch; eauto|]. subst t. apply typed_click, Tn.
  - apply moves_quietly; [exact T|]. subst t.
    assert (A : apart [n] = true).
    { apply (name_apart n s (kind_of c) T); [intros E; rewrite E in K; set_solver..|eauto|]. intros d Hd. rewrite Ec in Hd. injection Hd as <-.
      reflexivity. }
    assert (B : boxy (fun c => c <| checked := negb (checked c) |>)) by boxes.
    refine (quietly_trans _ _ _ (quiet_box s n _ Hn A B) _).
    unfold on_click.
    assert (D : forall m, m ∈ switches -> (n =? m)%string = false) by (intros m Hm; apply String.eqb_neq; intros ->; exact (Hn Hm)).
    rewrite (D (nm "JanusEnabled")), (D (nm "Go2RTCEnabled")), (D (nm "RTSP2WebEnabled")), (D (nm "RTSPServer")), (D (nm "Restream")) by listed.
    cbn [orb].
    destruct (_ =? _)%string; apply same_quiet; reflexivity.
Qed.

Lemma quietly_models id s : quietly s (populate_models id s).
Proof. apply (near_apart [nm "ModelId"]); [reflexivity|]. apply near_models; [apply near_refl|set_solver]. Qed.

Ltac silent := apply same_quiet; reflexivity.

Lemma quietly_done cfg k r a s t : typed_form s -> name_done cfg k r a s = Some t -> quietly s t.
Proof.
  intros T E. unfold name_done in E. destruct (name_requests s !! k) as [href|]; [|injection E as <-; silent].
  set (u := s <| name_requests := _ |>) in *. assert (Q : quietly s u) by silent. clearbody u.
  destruct r; [injection E as <-; apply (quietly_trans _ _ _ Q); silent..|].
  destruct (validateForm cfg a u) as [[w ok]|] eqn:V; [|discriminate]. destruct (quiet_validate cfg a u w ok (proj2 Q T) V) as [Qw Tw].
  apply (quietly_trans _ _ _ Q). destruct ok; injection E as <-; [|split; [exact Qw|intros _; exact Tw]].
  refine (quietly_trans _ _ _ (conj Qw (fun _ => Tw)) _). destruct (_ =? _)%string; silent.
Qed.

(** Every step is one of [moves], and keeps the kinds. *)
Lemma step_moves cfg s e t : typed_form s -> step cfg s e = Some t -> moves cfg s t e /\ typed_form t.
Proof.
  intros T E. destruct e; cbn [step] in E;
    try (injection E as <-; apply moves_quietly; [exact T|]; silent).
  - destruct (usable _ _ _) eqn:U; [apply typed_moves; assumption|]. injection E as <-. apply moves_quietly; [exact T|silent].
  - injection E as <-. apply moves_quietly; [exact T|]. destruct (bool_decide _); [|silent].
    apply (near_apart path_names); [reflexivity|apply near_path].
  - destruct (usable _ _ _) eqn:U; [apply chosen_moves; assumption|]. injection E as <-. apply moves_quietly; [exact T|silent].
  - injection E as <-. destruct (usable _ _ _) eqn:U; [apply clicked_moves; auto|]. apply moves_quietly; [exact T|silent].
  - injection E as <-. apply moves_quietly; [exact T|]. destruct (usable _ _ _); [|silent].
    assert (Q : quietly s (change (action i n) (choose k) s)).
    { apply (near_apart [action i n]); [apply action_apart|]. apply near_change; [apply near_refl|set_solver|apply tame_choose]. }
    apply (quietly_trans _ _ _ Q). apply (near_apart (action_names i)); [apply actions_apart|].
    apply near_row; [apply near_refl|set_solver].
  - injection E as <-. apply moves_quietly; [exact T|]. unfold models_done. destruct (model_requests s !! k); [|silent].
    apply (near_apart [nm "ModelId"]); [reflexivity|]. apply near_change; [strip; apply near_refl|set_solver|apply tame_options].
  - unfold saveMonitorDataPrepare in E. destruct (get _ _); [|discriminate]. injection E as <-. apply moves_quietly; [exact T|silent].
  - unfold saveMonitorDataPrepare in E. destruct (get _ _); [|discriminate]. injection E as <-. apply moves_quietly; [exact T|silent].
  - injection E as <-. apply moves_quietly; [exact T|]. unfold onZonesClick. destruct (bool_decide _); [destruct (saveConfirm s)|]; silent.
  - apply moves_quietly; [exact T|]. exact (quietly_done _ _ _ _ _ _ T E).
  - injection E as <-. apply moves_quietly; [exact T|]. unfold saved. destruct (posts s !! k) as [h|]; [|silent]. cbv zeta.
    destruct (h =? "")%string; silent.
  - injection E as <-. apply moves_quietly; [exact T|]. unfold not_saved. destruct (posts s !! k); silent.
  - injection E as <-. apply moves_quietly; [exact T|]. unfold dialog_done. destruct (saveConfirm_asked s); silent.
  - apply moves_quietly; [exact T|]. unfold onSaveConfirmClick in E. destruct (_ && _); [|injection E as <-; silent].
    unfold saveMonitorDataPrepare in E. destruct (get _ _); [|discriminate]. injection E as <-. silent.
  - injection E as <-. apply moves_quietly; [exact T|]. unfold dontSave. destruct (saveConfirm_shown s); silent.
  - injection E as <-. apply moves_quietly; [exact T|]. unfold saveCancel. destruct (saveConfirm_shown s); silent.
  - injection E as <-. apply moves_quietly; [exact T|]. unfold pollAudioLevel. destruct (_ || _); silent.
  - injection E as <-. apply moves_quietly; [exact T|]. unfold level_done. destruct (audioLevelInFlight s); silent.
Qed.

(** ** The buffers *)

Lemma element_other m n f s : (forall c, name (f c) = name c) -> m <> n -> element m (change n f s) = element m s.
Proof. intros F H. rewrite element_change by exact F. apply String.eqb_neq in H. rewrite H. reflexivity. Qed.
Lemma element_at n f s : (forall c, name (f c) = name c) -> element n (change n f s) = f <$> element n s.
Proof. intros F. rewrite element_change by exact F. rewrite String.eqb_refl. reflexivity. Qed.

Definition channel_box : string := nm "Go2RTCDisableBackChannel".

Lemma element_channel m b s : m <> channel_box -> element m (manageGo2RTCDisableBackChannel b s) = element m s.
Proof. intros H. unfold manageGo2RTCDisableBackChannel. cbv zeta. change (element m (upd ?f ?g ?t)) with (element m t). apply element_other; [apply boxy_channel|exact H]. Qed.

Lemma element_players cfg m s : m <> channel_box -> m <> nm "DefaultPlayer" -> element m (update_players cfg s) = element m s.
Proof.
  intros H1 H2. unfold update_players. destruct (element (nm "DefaultPlayer") s); [|reflexivity]. cbv zeta.
  rewrite element_channel by exact H1. apply element_other; [reflexivity|exact H2].
Qed.

Lemma element_click cfg m n s : m <> channel_box -> m <> nm "DefaultPlayer" -> element m (on_click cfg n s) = element m s.
Proof.
  intros H1 H2. unfold on_click.
  repeat match goal with |- element _ (if ?b then _ else _) = _ => destruct b end; try reflexivity; try exact (element_players cfg m s H1 H2).
  unfold Restream_onclick. destruct (element (nm "Restream") s); reflexivity.
Qed.

(** The values that typing and choosing elsewhere leaves alone. *)
Definition measured : list string := (buffer_names ++ dimension_names)%list.

Lemma measured_apart m : m ∈ measured -> m <> channel_box /\ m <> nm "DefaultPlayer" /\ m <> nm "DeviceClass" /\ m ∉ switches /\ m ∈ valued.
Proof.
  intros H. assert (G : Forall (fun m => m <> channel_box /\ m <> nm "DefaultPlayer" /\ m <> nm "DeviceClass" /\ m ∉ switches /\ m ∈ valued) measured)
    by (apply (bool_decide_unpack _); vm_compute; exact I).
  rewrite Forall_forall in G. exact (G m H).
Qed.

Lemma moves_measured cfg s t e : moves cfg s t e ->
  (exists n v, e = Typed n v /\ n ∈ buffer_fields /\ on_input cfg n (put n v s) = Some t) \/
  (exists k, e = Chosen "dimensions_select" k /\ chosen_dimensions (change "dimensions_select" (choose k) s) = Some t) \/
  (forall m, m ∈ measured -> element m t = element m s).
Proof.
  intros [e' Q|n v Hn E|k E|k ->|k ->|n Hn X R ->]; [|left; eauto|right; left; eauto|..]; right; right; intros m Hm;
    destruct (measured_apart m Hm) as (H1 & H2 & H3 & H4 & H5).
  - apply Q, H5.
  - apply element_other; [apply tame_choose|exact H2].
  - rewrite element_channel by exact H1. apply element_other; [apply tame_choose|exact H3].
  - rewrite element_click by assumption. apply element_other; [reflexivity|]. intros ->. contradiction.
Qed.

Definition too_many (pre max : string) : bool := ntruthy (parseInt max) && (parseInt pre >? parseInt max)%num.

Definition buffers_ok (s : page) : Prop := forall max pre,
  get (nm "MaxImageBufferCount") s = Some max -> get (nm "PreEventCount") s = Some pre -> too_many pre max = false.

Lemma ram_elements s t : update_estimated_ram_use s = Some t -> elements t = elements s.
Proof.
  unfold update_estimated_ram_use. destruct (get (nm "Type") s) as [type|]; [|discriminate]. cbn [mbind option_bind].
  destruct (type =? "WebSite")%string; [intros E; injection E as <-; reflexivity|]. intros E.
  repeat match type of E with context [mbind _ ?o] => destruct o; [cbn [mbind option_bind] in E|discriminate E] end.
  injection E as <-. reflexivity.
Qed.

Lemma get_put n v s : is_kind Number n s -> number_value v = v -> is_Some (get n s) -> get n (put n v s) = Some v.
Proof.
  intros K V [w H]. unfold get, put in *. rewrite element_at by apply tame_put. destruct (element n s) as [c|] eqn:E; [|discriminate].
  cbn. unfold set_value. rewrite (K c E). unfold value. fields. rewrite (K c E), V. reflexivity.
Qed.
Lemma get_other n m v s : n <> m -> get n (put m v s) = get n s.
Proof. intros H. unfold get, put. rewrite element_other; [reflexivity|apply tame_put|exact H]. Qed.
Lemma get_numeric n s v : numbers s -> is_kind Number n s -> get n s = Some v -> number_value v = v.
Proof.
  intros N K E. unfold get in E. destruct (element n s) as [c|] eqn:Ec; [|discriminate]. cbn in E. injection E as <-.
  unfold value. rewrite (K c Ec). exact (element_numeric n s c N Ec (K c Ec)).
Qed.
Lemma same_get n s t : elements t = elements s -> get n t = get n s.
Proof. intros E. unfold get, element. rewrite E. reflexivity. Qed.

Lemma buffers_set this s t : typed_form s -> buffer_setting_oninput this s = Some t -> buffers_ok t.
Proof.
  intros T E. unfold buffer_setting_oninput in E. destruct (get (nm "MaxImageBufferCount") s) as [max|] eqn:Em; [|discriminate].
  destruct (get (nm "PreEventCount") s) as [pre|] eqn:Ep; [|discriminate]. cbn [mbind option_bind] in E. cbv zeta in E.
  pose proof (ram_elements _ _ E) as R. clear E. intros max' pre'. rewrite !(same_get _ _ _ R). clear R.
  assert (Km : is_kind Number (nm "MaxImageBufferCount") s) by (apply tf_number; [exact T|listed]).
  assert (Kp : is_kind Number (nm "PreEventCount") s) by (apply tf_number; [exact T|listed]).
  fold (too_many pre max). destruct (too_many pre max) eqn:B; [|rewrite Em, Ep; intros H1 H2; injection H1 as <-; injection H2 as <-; exact B].
  destruct (this =? nm "PreEventCount")%string.
  - rewrite get_put, get_other, Ep; [|discriminate|exact Km|exact (get_numeric _ _ _ (tf_numbers s T) Kp Ep)|eauto].
    intros H1 H2. injection H1 as <-. injection H2 as <-. unfold too_many. rewrite nltb_irrefl. apply andb_false_r.
  - rewrite get_other, get_put, Em; [|exact Kp|exact (get_numeric _ _ _ (tf_numbers s T) Km Em)|eauto|discriminate].
    intros H1 H2. injection H1 as <-. injection H2 as <-. unfold too_many. rewrite nltb_irrefl. apply andb_false_r.
Qed.

(** Typing in a field of the buffers: the dimensions, the buffers, the others. *)
Lemma input_parts cfg n s t : typed_form s -> n ∈ buffer_fields -> on_input cfg n s = Some t -> exists a b,
  (if bool_decide (n ∈ [nm "Width"; nm "Height"]) then typed_dimension cfg n s else Some s) = Some a /\ typed_form a /\
  buffer_setting_oninput n a = Some b /\ quietly b t.
Proof.
  intros T Hn. unfold on_input.
  destruct (if bool_decide (n ∈ [nm "Width"; nm "Height"]) then _ else _) as [a|] eqn:Ea; [|discriminate]. cbn [mbind option_bind].
  rewrite (bool_decide_true (n ∈ buffer_fields)) by exact Hn. destruct (buffer_setting_oninput n a) as [b|] eqn:Eb; [|discriminate].
  cbn [mbind option_bind]. change (others n b = Some t -> exists a0 b0, Some a = Some a0 /\ typed_form a0 /\ buffer_setting_oninput n a0 = Some b0 /\ quietly b0 t).
  intros E. exists a, b. split; [reflexivity|]. split; [|split; [exact Eb|exact (near_quietlyO source_names _ _ _ eq_refl (near_others n b) E)]].
  destruct (bool_decide (n ∈ [nm "Width"; nm "Height"])); [|injection Ea as <-; exact T]. pose proof (near_typed cfg n s) as Na.
  rewrite Ea in Na. exact (near_typed_form _ _ _ Na T).
Qed.

Lemma buffers_kept s t : (forall m, m ∈ buffer_names -> element m t = element m s) -> buffers_ok s -> buffers_ok t.
Proof. intros E H max pre. unfold get. rewrite !E by listed. apply H. Qed.

Lemma buffers_step cfg s e t : typed_form s -> buffers_ok s -> step cfg s e = Some t -> buffers_ok t.
Proof.
  intros T B E. destruct (step_moves cfg s e t T E) as [M _].
  destruct (moves_measured cfg s t e M) as [(n & v & -> & Hn & Ei)|[(k & -> & Ec)|H]].
  - assert (Tp : typed_form (put n v s)) by (apply (near_typed_form [n] s); [apply near_put; [apply near_refl|set_solver]|exact T]).
    destruct (input_parts cfg n _ t Tp Hn Ei) as (a & b & _ & Ta & Eb & [Q _]). apply (buffers_kept b); [|exact (buffers_set n a b Ta Eb)].
    intros m H. apply Q. unfold valued. whole.
  - pose proof (near_chosen (change "dimensions_select" (choose k) s)) as N. rewrite Ec in N. cbn in N.
    assert (N' : near dimension_names s t).
    { eapply near_trans; [|exact N]. apply near_change; [apply near_refl|listed|apply tame_choose]. }
    apply (buffers_kept s); [|exact B]. intros m H. apply N'. intros H'.
    assert (G : Forall (fun m => m ∉ dimension_names) buffer_names) by (apply (bool_decide_unpack _); vm_compute; exact I).
    rewrite Forall_forall in G. exact (G m H H').
  - apply (buffers_kept s); [|exact B]. intros m Hm. apply H. unfold measured. whole.
Qed.

Lemma run_ind (P : page -> Prop) cfg : (forall s e t, P s -> step cfg s e = Some t -> P t) ->
  forall es s t, P s -> run cfg s es = Some t -> P t.
Proof.
  intros H. induction es as [|e es IH]; intros s t Hs; cbn; [intros E; injection E as <-; exact Hs|].
  destruct (step cfg s e) as [u|] eqn:E; [|discriminate]. apply IH, (H s e u Hs E).
Qed.

(** C13: whatever is typed, chosen and clicked, in whatever order the answers come,
    no more images are kept before an event than the buffer may hold, if it was so
    when the page was loaded: the check of the form has nothing to say about it. *)
Theorem buffers_agree (cfg : config) (s t : page) (es : list event) :
  typed_form s -> buffers_ok s -> run cfg s es = Some t ->
  buffers_ok t /\ (forall found, wrong_buffers t = Some found -> found = []).
Proof.
  intros T B R. assert (G : typed_form t /\ buffers_ok t).
  { revert R. apply (run_ind (fun s => typed_form s /\ buffers_ok s) cfg); [|auto]. clear. intros s e t [T B] E.
    split; [apply (step_moves cfg s e t T E)|exact (buffers_step cfg s e t T B E)]. }
  destruct G as [_ G]. split; [exact G|]. intros found. unfold wrong_buffers.
  destruct (get (nm "MaxImageBufferCount") t) as [max|] eqn:Em; [|discriminate].
  destruct (get (nm "PreEventCount") t) as [pre|] eqn:Ep; [|discriminate]. cbn [mbind option_bind]. intros E. injection E as <-.
  fold (too_many pre max). rewrite (G max pre Em Ep). reflexivity.
Qed.

(** ** The dimensions *)

(** The size the two fields are read as, as the select writes it. *)
Definition dimensions (w h : string) : string := num_to_string (parseInt w) ++ "x" ++ num_to_string (parseInt h).

(** An option of the select: custom, or two numbers that are read as they stand. *)
Definition sized (v : string) : bool :=
  String.eqb v "" ||
  match split_x v with
  | (a, Some b) => String.eqb (number_value a) a && String.eqb (number_value b) b && String.eqb (dimensions a b) v
  | _ => false
  end.
Definition sizes (s : page) : Prop := forall c, element "dimensions_select" s = Some c -> Forall (fun o => sized (o_value o) = true) (options c).

(** The select says custom, or what the fields say. *)
Definition dimensions_ok (s : page) : Prop := forall v w h,
  get "dimensions_select" s = Some v -> v <> "" -> get (nm "Width") s = Some w -> get (nm "Height") s = Some h -> dimensions w h = v.

Lemma dimensions_kept s t : (forall m, m ∈ dimension_names -> element m t = element m s) -> sizes s /\ dimensions_ok s -> sizes t /\ dimensions_ok t.
Proof.
  intros E [H1 H2]. split; [intros c; rewrite E by listed; apply H1|]. intros v w h. unfold get. rewrite !E by listed. apply H2.
Qed.

Lemma index_value v os i : index_of_value v os = Some i -> o_value <$> os !! i = Some v.
Proof.
  unfold index_of_value. destruct (list_find _ os) as [[j o]|] eqn:F; [|discriminate]. intros E. injection E as <-.
  apply list_find_Some in F as (F & P & _). cbn. rewrite F. cbn. rewrite P. reflexivity.
Qed.

Lemma value_set v c : kind_of c = Select -> value (set_value v c) = v \/ value (set_value v c) = "".
Proof.
  intros K. unfold set_value. rewrite K. unfold value. fields. rewrite K. destruct (index_of_value v (options c)) as [i|] eqn:E; [|auto].
  left. apply index_value in E. cbn. destruct (options c !! i); [|discriminate]. cbn in *. congruence.
Qed.

Lemma options_set v c : options (set_value v c) = options c.
Proof. unfold set_value. destruct (kind_of c); reflexivity. Qed.

Lemma sizes_put n v s : sizes s -> sizes (put n v s).
Proof.
  intros H c. unfold put. rewrite element_change by apply tame_put. destruct (_ =? n)%string; [|apply H].
  destruct (element "dimensions_select" s) as [d|] eqn:E; [|discriminate]. intros Hc. injection Hc as <-. rewrite options_set. apply H, E.
Qed.

Lemma select_spec s t : typed_form s -> sizes s -> select_dimensions s = Some t -> sizes t /\ dimensions_ok t.
Proof.
  intros T S E. unfold select_dimensions in E. destruct (get (nm "Width") s) as [w|] eqn:Ew; [|discriminate].
  destruct (get (nm "Height") s) as [h|] eqn:Eh; [|discriminate]. cbn [mbind option_bind] in E. cbv zeta in E.
  change (num_to_string (parseInt w) ++ "x" ++ num_to_string (parseInt h)) with (dimensions w h) in E.
  destruct (element "dimensions_select" s) as [c|] eqn:Ec.
  - injection E as <-. split; [apply sizes_put, S|]. intros v w' h'.
    rewrite (get_other (nm "Width")), (get_other (nm "Height")) by discriminate. rewrite Ew, Eh.
    unfold get at 1. unfold put. rewrite element_at by apply tame_put. rewrite Ec. intros Hv N Hw Hh. injection Hw as <-. injection Hh as <-.
    cbn in Hv. injection Hv as <-.
    assert (K : kind_of c = Select) by (apply (tf_select s T "dimensions_select"); [listed|exact Ec]).
    destruct (index_of_value (dimensions w h) (options c)).
    + destruct (value_set (dimensions w h) c K) as [H|H]; [symmetry; exact H|contradiction].
    + destruct (value_set "" c K); contradiction.
  - injection E as <-. split; [exact S|]. intros v w' h'. unfold get at 1. rewrite Ec. discriminate.
Qed.

Lemma typed_spec cfg n s t : typed_form s -> sizes s -> typed_dimension cfg n s = Some t -> sizes t /\ dimensions_ok t.
Proof.
  intros T S E. unfold typed_dimension in E. destruct (keep_ratio cfg n s) as [a|] eqn:Ea; [|discriminate]. cbn [mbind option_bind] in E.
  destruct (select_dimensions a) as [b|] eqn:Eb; [|discriminate]. cbn [mbind option_bind] in E. apply ram_elements in E.
  assert (G : typed_form a /\ sizes a).
  { unfold keep_ratio in Ea. destruct (get (nm "Width") s); [|discriminate]. destruct (get (nm "Height") s); [|discriminate].
    cbn [mbind option_bind] in Ea. injection Ea as <-.
    destruct (is_checked _ _); [destruct (n =? nm "Width")%string; [|destruct (n =? nm "Height")%string]|]; try (split; assumption);
      (split; [|apply sizes_put, S]; eapply (near_typed_form dimension_names s); [apply near_put; [apply near_refl|listed]|exact T]). }
  destruct G as [Ta Sa]. apply (dimensions_kept b); [|exact (select_spec a b Ta Sa Eb)].
  intros m _. unfold element. rewrite E. reflexivity.
Qed.

Lemma value_sized c : Forall (fun o => sized (o_value o) = true) (options c) -> kind_of c = Select -> sized (value c) = true.
Proof.
  intros F K. unfold value. rewrite K. destruct (selectedIndex c) as [i|]; [|reflexivity]. cbn.
  destruct (options c !! i) as [o|] eqn:E; [|reflexivity]. cbn. rewrite Forall_forall in F. apply F. apply list_elem_of_lookup. eauto.
Qed.

Lemma choose_options k c : options (choose k c) = options c.
Proof. unfold choose. destruct (options c !! k); reflexivity. Qed.

Lemma chosen_spec s t : typed_form s -> sizes s -> chosen_dimensions s = Some t -> sizes t /\ dimensions_ok t.
Proof.
  intros T S E. unfold chosen_dimensions in E. destruct (get "dimensions_select" s) as [v|] eqn:Ev; [|discriminate].
  destruct (get (nm "Width") s) as [w0|] eqn:Ew; [|discriminate]. destruct (get (nm "Height") s) as [h0|] eqn:Eh; [|discriminate].
  cbn [mbind option_bind] in E. apply ram_elements in E.
  refine (dimensions_kept _ t (fun m _ => _) _); [unfold element; rewrite E; reflexivity|]. clear E.
  assert (Sv : sized v = true).
  { unfold get in Ev. destruct (element "dimensions_select" s) as [c|] eqn:Ec; [|discriminate]. injection Ev as <-.
    apply value_sized; [apply S, Ec|]. apply (tf_select s T "dimensions_select"); [listed|exact Ec]. }
  destruct (String.eqb_spec v "") as [->|N].
  - split; [exact S|]. intros v' w h Hv Nv. rewrite Ev in Hv. injection Hv as <-. contradiction.
  - destruct (split_x v) as [a [b|]] eqn:Es; (split; [apply sizes_put, sizes_put, S|]).
    2: { unfold sized in Sv. rewrite Es in Sv. apply String.eqb_neq in N. rewrite N in Sv. discriminate. }
    unfold sized in Sv. rewrite Es in Sv. pose proof N as N'. apply String.eqb_neq in N'. rewrite N' in Sv. cbn [orb] in Sv. bool_to_prop.
    intros v' w h. cbn [default]. rewrite get_other by discriminate. rewrite get_other by discriminate. rewrite Ev. intros Hv _ Hw Hh. injection Hv as <-.
    assert (Tw : typed_form (put (nm "Width") a s)) by (apply (near_typed_form dimension_names s); [apply near_put; [apply near_refl|listed]|exact T]).
    rewrite get_other, get_put in Hw; [|apply tf_number; [exact T|listed]|assumption|eauto|discriminate]. injection Hw as <-.
    rewrite get_put in Hh; [|apply tf_number; [exact Tw|listed]|assumption|rewrite get_other by discriminate; eauto]. injection Hh as <-.
    assumption.
Qed.

Lemma dimensions_step cfg s e t : typed_form s -> sizes s /\ dimensions_ok s -> step cfg s e = Some t -> sizes t /\ dimensions_ok t.
Proof.
  intros T H E. destruct (step_moves cfg s e t T E) as [M _].
  destruct (moves_measured cfg s t e M) as [(n & v & -> & Hn & Ei)|[(k & -> & Ec)|H']].
  - assert (Tp : typed_form (put n v s)) by (apply (near_typed_form [n] s); [apply near_put; [apply near_refl|set_solver]|exact T]).
    destruct (input_parts cfg n _ t Tp Hn Ei) as (a & b & Ea & Ta & Eb & [Q _]).
    apply (dimensions_kept b); [intros m Hm; apply Q; unfold valued; whole|].
    pose proof (near_buffers buffer_names a a n (near_refl _ _) ltac:(listed) ltac:(listed)) as Nb. rewrite Eb in Nb.
    assert (D : forall m, m ∈ dimension_names -> m ∉ buffer_names).
    { assert (G : Forall (fun m => m ∉ buffer_names) dimension_names) by (apply (bool_decide_unpack _); vm_compute; exact I).
      rewrite Forall_forall in G. exact G. }
    apply (dimensions_kept a); [intros m Hm; apply Nb, D, Hm|].
    destruct (bool_decide_reflect (n ∈ [nm "Width"; nm "Height"])) as [Hd|Hd].
    + apply (typed_spec cfg n _ a Tp); [apply sizes_put, H|exact Ea].
    + injection Ea as <-. apply (dimensions_kept s); [|exact H]. intros m Hm. apply element_other; [apply tame_put|]. intros ->.
      assert (G : Forall (fun m => m ∈ buffer_fields -> m ∈ [nm "Width"; nm "Height"]) dimension_names)
        by (apply (bool_decide_unpack _); vm_compute; exact I).
      rewrite Forall_forall in G. exact (Hd (G _ Hm Hn)).
  - assert (Tp : typed_form (change "dimensions_select" (choose k) s))
      by (apply (near_typed_form dimension_names s); [apply near_change; [apply near_refl|listed|apply tame_choose]|exact T]).
    apply (chosen_spec _ t Tp); [|exact Ec]. intros c. rewrite element_at by apply tame_choose.
    destruct (element "dimensions_select" s) as [d|] eqn:Ed; [|discriminate]. intros Hc. injection Hc as <-. rewrite choose_options.
    apply (proj1 H), Ed.
  - apply (dimensions_kept s); [|exact H]. intros m Hm. apply H'. unfold measured. whole.
Qed.

(** Whatever happens, the select of the dimensions says custom or the size that
    width and height are read as, if its options are sizes and it was so when the
    page was loaded. *)
Theorem dimensions_agree (cfg : config) (s t : page) (es : list event) :
  typed_form s -> sizes s -> dimensions_ok s -> run cfg s es = Some t -> dimensions_ok t.
Proof.
  intros T S D R. enough (G : typed_form t /\ sizes t /\ dimensions_ok t) by apply G. revert R.
  apply (run_ind (fun s => typed_form s /\ sizes s /\ dimensions_ok s) cfg); [|auto]. clear. intros s e t [T H] E.
  split; [apply (step_moves cfg s e t T E)|exact (dimensions_step cfg s e t T H E)].
Qed.

(** ** What is shown *)

#[local] Notation janus s := (is_checked (nm "JanusEnabled") s).
#[local] Notation go2rtc s := (is_checked (nm "Go2RTCEnabled") s).
#[local] Notation rtsp2web s := (is_checked (nm "RTSP2WebEnabled") s).
#[local] Notation rtsp s := (is_checked (nm "RTSPServer") s).
#[local] Notation restream s := (is_checked (nm "Restream") s).

(** The players whose server is enabled, in their order. *)
Definition offers (cfg : config) (s : page) : list opt :=
  (fun p => Opt p.1 p.2) <$> filter (fun p => offered (go2rtc s) (rtsp2web s) (janus s) p.1 = true) (players cfg).

(** The rows and the players follow the boxes. *)
Record follows (cfg : config) (s : page) : Prop := {
  f_channel : channel_hidden s = negb (go2rtc s || rtsp2web s);
  f_janus : janus_hidden s = negb (janus s);
  f_restream : restream_hidden s = negb (rtsp s && (janus s || go2rtc s || rtsp2web s));
  f_user : rtsp_user_hidden s = restream_hidden s || negb (restream s);
  f_back : backchannel_hidden s = negb (go2rtc s);
  f_players : exists c, element (nm "DefaultPlayer") s = Some c /\ options c = offers cfg s /\
    match selectedIndex c with Some i => (i < length (options c))%nat | None => options c = [] end;
}.

Lemma rows_same cfg s t : (forall m, m ∈ switches -> is_checked m t = is_checked m s) -> flags t = flags s ->
  element (nm "DefaultPlayer") t = element (nm "DefaultPlayer") s -> follows cfg s -> follows cfg t.
Proof.
  intros H F E [A B C D G P]. unfold flags in F. injection F as F1 F2 F3 F4 F5.
  split; rewrite ?F1, ?F2, ?F3, ?F4, ?F5, ?E, ?H by listed; auto. unfold offers. rewrite !H by listed. exact P.
Qed.

Lemma index_first v os i : choose_or_first v os = Some i -> (i < length os)%nat.
Proof.
  unfold choose_or_first. destruct (index_of_value v os) as [j|] eqn:E; [|destruct os; [discriminate|intros H; injection H as <-; cbn; lia]].
  intros H. injection H as <-. apply index_value in E. destruct (os !! j) eqn:Ej; [|discriminate]. exact (lookup_lt_Some _ _ _ Ej).
Qed.
Lemma index_none v os : choose_or_first v os = None -> os = [].
Proof. unfold choose_or_first. destruct (index_of_value v os); [discriminate|]. destruct os; [reflexivity|discriminate]. Qed.

Lemma checked_channel m b s : m <> channel_box -> is_checked m (manageGo2RTCDisableBackChannel b s) = is_checked m s.
Proof. intros H. unfold is_checked. rewrite element_channel by exact H. reflexivity. Qed.

Lemma checked_players cfg m s : m ∈ switches -> is_checked m (update_players cfg s) = is_checked m s.
Proof.
  intros H. unfold is_checked. rewrite element_players; [reflexivity|..]; intros ->; revert H; apply (bool_decide_unpack _); vm_compute; exact I.
Qed.

(** update_players puts the players and the channel's row in order. *)
Lemma players_spec cfg s c : element (nm "DefaultPlayer") s = Some c -> let t := update_players cfg s in
  backchannel_hidden t = negb (go2rtc t) /\
  (exists d, element (nm "DefaultPlayer") t = Some d /\ options d = offers cfg t /\
    match selectedIndex d with Some i => (i < length (options d))%nat | None => options d = [] end) /\
  channel_hidden t = channel_hidden s /\ janus_hidden t = janus_hidden s /\ restream_hidden t = restream_hidden s /\
  rtsp_user_hidden t = rtsp_user_hidden s.
Proof.
  intros E. cbv zeta. assert (Ho : offers cfg (update_players cfg s) = offers cfg s)
    by (unfold offers; rewrite !checked_players by listed; reflexivity).
  rewrite Ho. unfold update_players. rewrite E. cbv zeta. split; [reflexivity|]. split; [|repeat split].
  rewrite element_channel by discriminate. rewrite element_at by reflexivity. rewrite E. eexists. split; [reflexivity|].
  fold (offers cfg s). split; [reflexivity|]. fields. destruct (choose_or_first _ _) eqn:C; [exact (index_first _ _ _ C)|exact (index_none _ _ C)].
Qed.

Lemma checked_flip m n s : is_Some (element n s) -> is_checked m (change n (fun c => c <| checked := negb (checked c) |>) s) =
  if String.eqb m n then negb (is_checked m s) else is_checked m s.
Proof.
  intros [c Ec]. unfold is_checked. rewrite element_change by reflexivity. destruct (String.eqb_spec m n) as [->|]; [rewrite Ec; reflexivity|reflexivity].
Qed.

(** updateRestreamVisibility, when the other rows are as they should be. *)
Lemma visible_follows cfg w :
  channel_hidden w = negb (go2rtc w || rtsp2web w) -> janus_hidden w = negb (janus w) -> backchannel_hidden w = negb (go2rtc w) ->
  (exists d, element (nm "DefaultPlayer") w = Some d /\ options d = offers cfg w /\
    match selectedIndex d with Some i => (i < length (options d))%nat | None => options d = [] end) ->
  follows cfg (updateRestreamVisibility w).
Proof.
  intros H1 H2 H3 H4. set (t := updateRestreamVisibility w).
  assert (Hc : forall m, is_checked m t = is_checked m w) by reflexivity.
  assert (E1 : restream_hidden t = negb (rtsp w && (janus w || go2rtc w || rtsp2web w))) by reflexivity.
  assert (E2 : rtsp_user_hidden t = restream_hidden t || negb (restream w)) by reflexivity.
  assert (E3 : channel_hidden t = channel_hidden w) by reflexivity. assert (E4 : janus_hidden t = janus_hidden w) by reflexivity.
  assert (E5 : backchannel_hidden t = backchannel_hidden w) by reflexivity.
  assert (E6 : element (nm "DefaultPlayer") t = element (nm "DefaultPlayer") w) by reflexivity. clearbody t.
  split; [..|unfold offers; rewrite E6, !Hc; exact H4]; rewrite ?Hc; congruence.
Qed.

(** A switch that changes what servers there are, behind the rows it shows itself. *)
Lemma switch_server cfg s (rows : page -> page) :
  (forall u, elements (rows u) = elements u) ->
  (forall u, backchannel_hidden (rows u) = backchannel_hidden u) ->
  is_Some (element (nm "DefaultPlayer") s) ->
  channel_hidden (rows (update_players cfg s)) = negb (go2rtc s || rtsp2web s) ->
  janus_hidden (rows (update_players cfg s)) = negb (janus s) ->
  follows cfg (updateRestreamVisibility (rows (update_players cfg s))).
Proof.
  intros He Hb [c Ec] H1 H2. destruct (players_spec cfg s c Ec) as (P1 & P2 & _). set (u := update_players cfg s) in *.
  assert (Hc : forall m, m ∈ switches -> is_checked m u = is_checked m s) by (intros m Hm; apply checked_players, Hm).
  assert (Hr : forall m, is_checked m (rows u) = is_checked m u) by (intros m; unfold is_checked, element; rewrite He; reflexivity).
  assert (El : forall m, element m (rows u) = element m u) by (intros m; unfold element; rewrite He; reflexivity).
  apply visible_follows; rewrite ?Hr, ?Hc by listed; [exact H1|exact H2| |].
  - rewrite Hb, P1, Hc by listed. reflexivity.
  - unfold offers. rewrite El, !Hr. exact P2.
Qed.

Lemma click_follows cfg n s : n ∈ switches -> is_Some (element n s) -> (n = nm "Restream" -> restream_hidden s = false) -> follows cfg s ->
  follows cfg (on_click cfg n (change n (fun c => c <| checked := negb (checked c) |>) s)).
Proof.
  intros Hn Hs Hr F. set (u := change n _ s). assert (Hc : forall m, is_checked m u = if String.eqb m n then negb (is_checked m s) else is_checked m s)
    by (intros m; apply checked_flip, Hs).
  assert (Hf : flags u = flags s) by reflexivity.
  assert (Hs' : is_Some (element n u)) by (unfold u; rewrite element_at by reflexivity; destruct Hs as [d ->]; eauto).
  assert (Hp : element (nm "DefaultPlayer") u = element (nm "DefaultPlayer") s).
  { unfold u. rewrite element_other; [reflexivity|reflexivity|]. intros <-. revert Hn. apply (bool_decide_unpack _); vm_compute; exact I. }
  clearbody u. unfold flags in Hf. injection Hf as F1 F2 F3 F4 F5. destruct F as [A B C D G (c & Ec & P)].
  assert (Hd : is_Some (element (nm "DefaultPlayer") u)) by (rewrite Hp, Ec; eauto).
  unfold switches in Hn. rewrite !elem_of_cons in Hn. destruct Hn as [->|[->|[->|[->|[->|Hn]]]]]; [..|set_solver].
  - change (on_click cfg (nm "JanusEnabled") u) with (updateRestreamVisibility (janus_rows (update_players cfg u))).
    destruct Hd as [d Ed]. destruct (players_spec cfg u d Ed) as (P1 & P2 & Q1 & Q2 & Q3 & Q4).
    apply (switch_server cfg u janus_rows); try reflexivity; [eauto| |].
    + change (channel_hidden (janus_rows ?t)) with (channel_hidden t). rewrite Q1, F2, A, !Hc. reflexivity.
    + unfold janus_rows at 1. fields. rewrite checked_players by listed. reflexivity.
  - change (on_click cfg (nm "Go2RTCEnabled") u) with (updateRestreamVisibility (stream_channel (update_players cfg u))).
    destruct Hd as [d Ed]. destruct (players_spec cfg u d Ed) as (P1 & P2 & Q1 & Q2 & Q3 & Q4).
    apply (switch_server cfg u stream_channel); try reflexivity; [eauto| |].
    + unfold stream_channel at 1. fields. rewrite !checked_players by listed. reflexivity.
    + change (janus_hidden (stream_channel ?t)) with (janus_hidden t). rewrite Q2, F1, B, Hc. reflexivity.
  - change (on_click cfg (nm "RTSP2WebEnabled") u) with (updateRestreamVisibility (stream_channel (update_players cfg u))).
    destruct Hd as [d Ed]. destruct (players_spec cfg u d Ed) as (P1 & P2 & Q1 & Q2 & Q3 & Q4).
    apply (switch_server cfg u stream_channel); try reflexivity; [eauto| |].
    + unfold stream_channel at 1. fields. rewrite !checked_players by listed. reflexivity.
    + change (janus_hidden (stream_channel ?t)) with (janus_hidden t). rewrite Q2, F1, B, Hc. reflexivity.
  - change (on_click cfg (nm "RTSPServer") u) with (updateRestreamVisibility u). unfold offers in P.
    apply visible_follows; [rewrite F2, A, !Hc; reflexivity|rewrite F1, B, Hc; reflexivity|rewrite F5, G, Hc; reflexivity|].
    exists c. rewrite Hp. unfold offers. rewrite !Hc. auto.
  - change (on_click cfg (nm "Restream") u) with (Restream_onclick u). unfold Restream_onclick.
    specialize (Hr eq_refl). destruct Hs' as [d Ed]. rewrite Ed.
    assert (Hu : restream u = checked d) by (unfold is_checked; rewrite Ed; reflexivity).
    set (w := u <| rtsp_user_hidden := negb (checked d) |>).
    assert (Hw : forall m, is_checked m w = is_checked m u) by reflexivity.
    assert (E1 : channel_hidden w = channel_hidden u) by reflexivity. assert (E2 : janus_hidden w = janus_hidden u) by reflexivity.
    assert (E3 : restream_hidden w = restream_hidden u) by reflexivity. assert (E5 : backchannel_hidden w = backchannel_hidden u) by reflexivity.
    assert (E4 : rtsp_user_hidden w = negb (checked d)) by reflexivity.
    assert (E6 : element (nm "DefaultPlayer") w = element (nm "DefaultPlayer") u) by reflexivity. clearbody w.
    split; rewrite ?Hw, ?E1, ?E2, ?E3, ?E4, ?E5, ?E6, ?Hu, ?F1, ?F2, ?F3, ?F5, ?Hr, ?A, ?B, ?G, ?Hc; try reflexivity.
    + exact (eq_trans (eq_sym Hr) C).
    + exists c. rewrite Hp. unfold offers in *. rewrite !Hw, !Hc. auto.
Qed.

Lemma rows_step cfg s e t : typed_form s -> follows cfg s -> step cfg s e = Some t -> follows cfg t.
Proof.
  intros T F E. destruct (step_moves cfg s e t T E) as [M _]. destruct M as [e Q|n v Hn Ei|k Ec|k ->|k ->|n Hn X R ->].
  - apply (rows_same cfg s); [apply Q|apply Q|apply Q; listed|exact F].
  - assert (Np : near buffer_fields s (put n v s)) by (apply near_put; [apply near_refl|exact Hn]).
    destruct (input_parts cfg n _ t (near_typed_form _ _ _ Np T) Hn Ei) as (a & b & Ea & Ta & Eb & [Q _]).
    set (ns := (buffer_fields ++ dimension_names ++ buffer_names)%list).
    assert (Nb : near ns s b).
    { eapply near_trans; [apply (near_more buffer_fields); [unfold ns; intros m; whole|exact Np]|].
      assert (Na : near ns (put n v s) a).
      { destruct (bool_decide (n ∈ [nm "Width"; nm "Height"])); [|injection Ea as <-; apply near_refl].
        pose proof (near_typed cfg n (put n v s)) as N. rewrite Ea in N. apply (near_more dimension_names); [unfold ns; intros m; whole|exact N]. }
      eapply near_trans; [exact Na|]. pose proof (near_buffers ns a a n (near_refl _ _) ltac:(listed) ltac:(listed)) as N.
      rewrite Eb in N. exact N. }
    apply (rows_same cfg b); [apply Q|apply Q|apply Q; listed|].
    apply (rows_same cfg s); [intros m _; apply Nb|apply Nb|apply Nb; apply (bool_decide_unpack _); vm_compute; exact I|exact F].
  - pose proof (near_chosen (change "dimensions_select" (choose k) s)) as N. rewrite Ec in N. cbn in N.
    assert (N' : near dimension_names s t).
    { eapply near_trans; [|exact N]. apply near_change; [apply near_refl|listed|apply tame_choose]. }
    apply (rows_same cfg s); [intros m _; apply N'|apply N'|apply N'; apply (bool_decide_unpack _); vm_compute; exact I|exact F].
  - destruct (tame_choose k) as [F1 F2 F3 F4].
    assert (N : near [nm "DefaultPlayer"] s (change (nm "DefaultPlayer") (choose k) s))
      by (apply near_change; [apply near_refl|set_solver|apply tame_choose]).
    destruct F as [A B C D G (c & Ec & O & I1)].
    assert (H : forall m, is_checked m (change (nm "DefaultPlayer") (choose k) s) = is_checked m s) by apply N.
    split; rewrite ?H; [exact A|exact B|exact C|exact D|exact G|]. exists (choose k c). rewrite element_at by exact F1. rewrite Ec.
    split; [reflexivity|]. unfold offers in *. rewrite choose_options, !H. split; [exact O|]. unfold choose.
    destruct (options c !! k) eqn:Ek; [|exact I1]. exact (lookup_lt_Some _ _ _ Ek).
  - assert (N : near [nm "DeviceClass"] s (change (nm "DeviceClass") (choose k) s))
      by (apply near_change; [apply near_refl|set_solver|apply tame_choose]).
    set (u := change (nm "DeviceClass") (choose k) s) in *. assert (Fu : follows cfg u).
    { apply (rows_same cfg s); [intros m _; apply N|apply N|apply N; apply (bool_decide_unpack _); vm_compute; exact I|exact F]. }
    clearbody u. set (t := manageGo2RTCDisableBackChannel true u).
    assert (H : forall m, m ∈ switches -> is_checked m t = is_checked m u)
      by (intros m Hm; apply checked_channel; intros ->; revert Hm; apply (bool_decide_unpack _); vm_compute; exact I).
    assert (E5 : backchannel_hidden t = negb (go2rtc t)) by reflexivity.
    assert (E1 : janus_hidden t = janus_hidden u) by reflexivity. assert (E2 : channel_hidden t = channel_hidden u) by reflexivity.
    assert (E3 : restream_hidden t = restream_hidden u) by reflexivity. assert (E4 : rtsp_user_hidden t = rtsp_user_hidden u) by reflexivity.
    assert (E6 : element (nm "DefaultPlayer") t = element (nm "DefaultPlayer") u) by (apply element_channel; discriminate).
    clearbody t. destruct Fu as [A B C D G P]. split; [..|unfold offers; rewrite E6, !H by listed; exact P];
      rewrite ?E1, ?E2, ?E3, ?E4, ?E5, ?H by listed; auto.
  - apply click_follows; assumption.
Qed.

Lemma init_follows cfg visible s t : typed_form s -> is_Some (element (nm "DefaultPlayer") s) -> initPage cfg visible s = Some t ->
  typed_form t /\ follows cfg t.
Proof.
  intros T D E. unfold initPage in E. destruct (update_estimated_ram_use s) as [a|] eqn:Ea; [|discriminate]. cbn [mbind option_bind] in E.
  destruct (get (nm "Type") a) as [type|]; [|discriminate]. cbn [mbind option_bind] in E. cbv zeta in E. apply ram_elements in Ea.
  set (b := stream_channel (janus_rows (a <| sourceFormMonitor := serialize a |>))) in *.
  assert (Eb : elements b = elements s) by (change (elements b) with (elements a); exact Ea).
  assert (Hb : forall m, is_checked m b = is_checked m s) by (intros m; unfold is_checked, element; rewrite Eb; reflexivity).
  assert (B1 : channel_hidden b = negb (go2rtc b || rtsp2web b)) by reflexivity.
  assert (B2 : janus_hidden b = negb (janus b)) by reflexivity. clearbody b.
  assert (Db : element (nm "DefaultPlayer") b = element (nm "DefaultPlayer") s) by (unfold element; rewrite Eb; reflexivity).
  destruct D as [c Ec]. rewrite Ec in Db. destruct (players_spec cfg b c Db) as (P1 & P2 & Q1 & Q2 & _).
  set (u := updateRestreamVisibility (update_players cfg b)) in *. assert (Tu : typed_form u /\ follows cfg u).
  { split; [unfold u, updateRestreamVisibility; cbv zeta; typed_strip; apply typed_players; exact (typed_same _ _ Eb T)|].
    apply visible_follows; [rewrite Q1, B1|rewrite Q2, B2|exact P1|exact P2]; rewrite !checked_players by listed; reflexivity. }
  clearbody u. destruct Tu as [Tu Fu]. injection E as <-.
  set (w := if (type =? "WebSite")%string then u else _). assert (Ew : elements w = elements u /\ flags w = flags u).
  { unfold w. destruct (type =? "WebSite")%string; [split; reflexivity|]. unfold pollAudioLevel.
    destruct (get (nm "Analysing") u) as [v|]; [|destruct (element (nm "AudioDetection") u)];
      (destruct (negb visible || audioLevelInFlight _); split; reflexivity). }
  clearbody w. destruct Ew as [Ew Fw]. destruct (same_quiet u w Ew Fw) as [Q W]. specialize (W Tu).
  assert (Fw' : follows cfg w) by (apply (rows_same cfg u); [apply Q|apply Q|apply Q; listed|exact Fu]).
  set (ns := concat (map action_names (seq 0 (length (rows w))))).
  assert (N : near ns w (initMonitorActions cfg w)).
  { apply near_rows. intros i. destruct (Nat.le_gt_cases (length (rows w)) i) as [Hi|Hi]; [auto|left]. intros m Hm. unfold ns.
    apply list_elem_of_In, in_concat. exists (action_names i). split; [apply in_map, in_seq; lia|apply list_elem_of_In, Hm]. }
  split; [exact (near_typed_form _ _ _ N W)|].
  apply (rows_same cfg w); [intros m _; apply N|apply N| |exact Fw']. apply N. intros Hm. unfold ns in Hm.
  apply list_elem_of_In, in_concat in Hm as (l & Hl & Hm). apply in_map_iff in Hl as (i & <- & _). apply list_elem_of_In in Hm.
  assert (G : nm "DefaultPlayer" ∈ guarded) by listed. unfold action_names in Hm. rewrite !elem_of_cons in Hm.
  destruct Hm as [Hm|[Hm|Hm]]; [rewrite Hm in G; exact (action_not_guarded _ _ G)..|set_solver].
Qed.

(** C14: from the start and whatever happens, the rows about the streaming servers are
    shown just when their boxes say so, and the players offered are those whose
    server is enabled, in their order, with one of them chosen. *)
Theorem rows_follow (cfg : config) (visible : bool) (s0 s t : page) (es : list event) :
  typed_form s0 -> is_Some (element (nm "DefaultPlayer") s0) -> initPage cfg visible s0 = Some s -> run cfg s es = Some t -> follows cfg t.
Proof.
  intros T D I R. destruct (init_follows cfg visible s0 s T D I) as [T1 F1].
  enough (G : typed_form t /\ follows cfg t) by apply G. revert R.
  apply (run_ind (fun s => typed_form s /\ follows cfg s) cfg); [|auto]. clear. intros s e t [T F] E.
  split; [apply (step_moves cfg s e t T E)|exact (rows_step cfg s e t T F E)].
Qed.

(** ** A form *)

(** [typed_form], as a check. *)
Definition check_kind (k : kind) (s : page) (n : string) : bool :=
  match element n s with Some c => bool_decide (kind_of c = k) | None => true end.
Definition check_form (s : page) : bool :=
  forallb (fun c => negb (bool_decide (kind_of c = Number)) || String.eqb (number_value (text c)) (text c)) (elements s) &&
  forallb (check_kind Number s) (nm "Width" :: nm "Height" :: buffer_names) &&
  forallb (check_kind Select s) ["dimensions_select"; nm "DefaultPlayer"] && forallb (check_kind Checkbox s) switches.

Lemma kinds_checked k ns s n : forallb (check_kind k s) ns = true -> n ∈ ns -> is_kind k n s.
Proof.
  intros H Hn c Hc. rewrite forallb_forall in H. specialize (H n (proj1 (list_elem_of_In _ _) Hn)). unfold check_kind in H. rewrite Hc in H.
  exact (bool_decide_eq_true_1 _ H).
Qed.

Lemma form_checked s : check_form s = true -> typed_form s.
Proof.
  unfold check_form. intros H. apply andb_true_iff in H as [H H4]. apply andb_true_iff in H as [H H3]. apply andb_true_iff in H as [H1 H2].
  split; [|intros n; apply kinds_checked; assumption..]. apply Forall_forall. intros c Hc K. rewrite forallb_forall in H1.
  specialize (H1 c (proj1 (list_elem_of_In _ _) Hc)). cbv beta in H1. rewrite bool_decide_true in H1 by exact K. cbn in H1. apply String.eqb_eq, H1.
Qed.

Definition plain_box (n : string) (b : bool) : control := Control (nm n) Checkbox "1" b [] None false.
Definition field_of (k : kind) (p : string * string) : control := Control (nm p.1) k p.2 false [] None false.
Definition menu (n : string) (vs : list string) : control := Control n Select "" false (map (fun v => Opt v v) vs) (Some 0%nat) false.

Definition demo_controls : list control :=
  (map (field_of Text) [("Name", "Door"); ("Path", "rtsp://10.0.0.2/live"); ("User", ""); ("Pass", ""); ("Options", "rtsp_transport=tcp");
     ("WebColour", "#ff0000"); ("Manufacturer", ""); ("Model", ""); ("AnalysisFPSLimit", ""); ("MaxFPS", ""); ("AlarmMaxFPS", "")] ++
   map (field_of Number) [("Width", "640"); ("Height", "360"); ("ImageBufferCount", "3"); ("MaxImageBufferCount", "20"); ("PreEventCount", "5");
     ("PostEventCount", "5"); ("WarmupCount", "0"); ("StreamReplayBuffer", "0"); ("AlarmFrameCount", "1"); ("SectionLength", "600");
     ("AnalysisUpdateDelay", "0"); ("FPSReportInterval", "100"); ("MotionFrameSkip", "0"); ("LabelX", "0"); ("LabelY", "0");
     ("RefBlendPerc", "6")] ++
   [menu (nm "Type") ["Ffmpeg"; "WebSite"]; menu (nm "Colours") ["4"; "3"; "1"]; menu (nm "VideoWriter") ["2"; "0"; "1"];
    menu "dimensions_select" ["640x360"; ""; "1280x720"]; menu (nm "DefaultPlayer") [""]; menu (nm "ManufacturerId") [""; "7"; "8"];
    menu (nm "ModelId") [""]; plain_box "JanusEnabled" false; plain_box "Go2RTCEnabled" false; plain_box "RTSP2WebEnabled" false;
    plain_box "RTSPServer" false; plain_box "Restream" false; Control "preserveAspectRatio" Checkbox "1" true [] None false])%list.

Definition demo_cfg : config :=
  Config "16:9" [("", "Auto"); ("zms", "ZMS"); ("go2rtc_webrtc", "Go2RTC"); ("janus", "Janus")] ["Gate"] [] "1" [] [].
Definition demo : page := first_page demo_controls 0 false false false false.

(** The dimensions chosen, a width typed, more images before an event than the
    buffer holds, and Go2RTC switched on. *)
Definition demo_events : list event :=
  [Chosen "dimensions_select" 2; Typed (nm "Width") "1280"; Typed (nm "PreEventCount") "30"; Typed (nm "MaxImageBufferCount") "7";
   Clicked (nm "Go2RTCEnabled"); Clicked (nm "RTSPServer"); Chosen (nm "DefaultPlayer") 2].

Definition demo_page : page := default demo (initPage demo_cfg true demo).
Definition demo_end : page := default demo (run demo_cfg demo_page demo_events).

Lemma estimate_ends_witness :
  (is_Some (update_estimated_ram_use demo) <->
   bytes (parseInt "3" + parseInt "5")%num "640" "360" "4" <> Infty false /\
   (ntruthy (parseInt "20") = true -> bytes (parseInt "3" + parseInt "5" + parseInt "20")%num "640" "360" "4" <> Infty false)) /\
  (forall fuel i, reduce fuel (Infty false) i = None).
Proof. apply (estimate_ends demo "Ffmpeg"); try (vm_compute; reflexivity). discriminate. Defined.

(** What an end of the run is shown to have is got from the theorem and what
    is seen by evaluation. *)
Lemma buffers_agree_witness : run demo_cfg demo_page demo_events = Some demo_end /\ buffers_ok demo_end /\
  get (nm "PreEventCount") demo_end = Some "7" /\ get (nm "MaxImageBufferCount") demo_end = Some "7".
Proof.
  assert (R : run demo_cfg demo_page demo_events = Some demo_end) by (vm_compute; reflexivity).
  split; [exact R|]. split; [|split; vm_compute; reflexivity].
  refine (proj1 (buffers_agree demo_cfg demo_page demo_end demo_events _ _ R)); [apply form_checked; vm_compute; reflexivity|].
  intros max pre E1 E2. vm_compute in E1, E2. injection E1 as <-. injection E2 as <-. vm_compute. reflexivity.
Defined.

Lemma dimensions_agree_witness : run demo_cfg demo_page demo_events = Some demo_end /\ dimensions_ok demo_end /\
  get "dimensions_select" demo_end = Some "1280x720" /\ get (nm "Height") demo_end = Some "720".
Proof.
  assert (R : run demo_cfg demo_page demo_events = Some demo_end) by (vm_compute; reflexivity).
  split; [exact R|]. split; [|split; vm_compute; reflexivity].
  refine (dimensions_agree demo_cfg demo_page demo_end demo_events _ _ _ R); [apply form_checked; vm_compute; reflexivity|..].
  - intros c E. vm_compute in E. injection E as <-. apply Forall_forall. intros o Ho. cbn in Ho. rewrite !elem_of_cons in Ho.
    destruct Ho as [->|[->|[->|Ho]]]; [vm_compute; reflexivity..|]. apply not_elem_of_nil in Ho. contradiction.
  - intros v w h E1 _ E2 E3. vm_compute in E1, E2, E3. injection E1 as <-. injection E2 as <-. injection E3 as <-. vm_compute. reflexivity.
Defined.

Lemma rows_follow_witness : run demo_cfg demo_page demo_events = Some demo_end /\ follows demo_cfg demo_end /\
  channel_hidden demo_end = false /\ restream_hidden demo_end = false /\ get (nm "DefaultPlayer") demo_end = Some "go2rtc_webrtc".
Proof.
  assert (R : run demo_cfg demo_page demo_events = Some demo_end) by (vm_compute; reflexivity).
  split; [exact R|]. split; [|repeat split; vm_compute; reflexivity].
  refine (rows_follow demo_cfg true demo demo_page demo_end demo_events _ _ _ R); [apply form_checked; vm_compute; reflexivity|..].
  - vm_compute. eexists. reflexivity.
  - vm_compute. reflexivity.
Defined.
End FormSafe.
